(* ===== verification/_CoqProject ===== *)
-Q . S2P
Prelude.v
Match.v
Queue.v
QueueApi.v
Telnet.v
TelnetSub.v
TelnetRecv.v
TelnetSpec.v
TelnetRx.v
TelnetTrip.v
World.v
Modem.v
Events.v
Sip.v
Siproxy.v
Frame.v
Calls.v
Program.v
Utf8.v
MqttPacket.v
SockBuf.v
LinkedList.v
MqttRead.v
SockWrite.v
MqttProto.v
MqttSession.v
MqttArrive.v
MqttEngine.v
MqttAsync.v
MqttWait.v
MqttRuns.v
Select.v
SelectSpec.v
MqttInv.v
MqttTurns.v
MqttClient.v
MqttLink.v
MqttEnds.v
MqttPair.v
Store.v
PersistFile.v
PersistFileSpec.v
Persist.v
PersistQueue.v
PersistProto.v
PersistRecords.v
PersistSim.v
PersistKeep.v
PersistHandle.v
PersistRuns.v
PersistOrder.v
PersistRestore.v
PersistEntries.v
PersistResume.v
RbTree.v
Tree.v
TreeMem.v
TreeRep.v
TreeSpec.v
TreeOrder.v
TreeRefine.v
TreeOps.v
Heap.v
HeapMem.v
HeapSpec.v
HeapRuns.v
