(* ===== verification/Prelude.v ===== *)
(** * siproxy: a verification library

    siproxy joins three parties: a GSM modem on a serial line ([rs232.c]), the SIP client pjsua, which is
    driven over a telnet session ([telnet.c]), and a second siproxy at the other end of an MQTT
    connection (the Paho C client under paho-c/src).  The main loop and the callbacks turn what arrives
    into events, the events go through a message queue ([queue.c]) to the event thread, and the event
    thread runs the state machine of a call, whose actions are commands to the modem, to the SIP client
    and to the peer.

    ** The files and the code

    - [Prelude] (this file): bytes and machine integers, C strings, outcomes (a result, a [Fault] for
      undefined behaviour, [Blocked] for a call that does not return, [Exited]), blocks of memory, lemmas
      on lists, the tactics and the scope of the notations.
    - [Match]: match.c.  The reference is the language of a regular expression.
    - [Queue]: queue.c; nodes and pointers in a heap.  [QueueApi]: the class [MsgQueue], the interface
      of queue.h with its laws, and its instance, the pointer queue.
    - [Telnet] (state, negotiation, sending), [TelnetSub] (subnegotiations), [TelnetRecv] (receiving):
      telnet.c.  [TelnetSpec]: the receiver one byte at a time, and that chunks do not matter.
      [TelnetRx]: the receiver of RFC 854 as an automaton of its own.  [TelnetTrip]: both sides.
    - [World]: the state of main.c ([siproxy], the events, the queue, the telnet tracker), what the
      environment gives (bytes of the modem, results of system calls) and gets (a log of outputs), and
      the monad [io] of the rest.
    - [Modem]: [read_line], [modem_cmd_wait] and the [modem_*] routines of main.c, the output of rs232.c.
    - [Events]: the tables of main.c, [find_event], and the routines that queue events.
    - [Sip]: [_send], [sip_event] and the [sip_*] routines of main.c.
    - [Siproxy]: the MQTT calls of main.c, the [state_*] handlers, the dispatcher [state], the event
      thread [evt_handler], the initialisation and the turns of the main loop.
    - [Frame]: what every routine leaves alone.  [Calls]: the abstract call.  [Program]: the program as a
      transition system.
    - [Utf8]: utf-8.c.  [MqttPacket]: MQTTPacket.c and MQTTPacketOut.c.  [SockBuf]: SocketBuffer.c and
      the reading and writing of Socket.c.  [LinkedList]: LinkedList.c, with the list with a cursor the
      rest uses.  [MqttRead]: [MQTTPacket_Factory].  [SockWrite]: interrupted writes.
    - [Select]: the rest of Socket.c, the list of the sockets, the connects that are pending and the wait
      for a ready socket, on the lists of [LinkedList] and the buffers of [SockBuf].  [SelectSpec]: a
      selector without pointers.
    - [MqttProto]: MQTTProtocolClient.c, the handlers of MQTTProtocolOut.c, the parts of MQTTAsync.c they
      call.  [MqttSession]: the abstract session.  [MqttEngine]: identifiers and retries.
    - [MqttAsync]: MQTTAsync.c, a definition per section of a thread and per part of a call.  [MqttWait]:
      [MQTTAsync_waitForCompletion] with the mutex of the library, which the other files leave out.
      [MqttArrive]: a packet of the server while its bytes arrive.  [MqttRuns], [MqttInv], [MqttTurns],
      [MqttClient]: the invariant of the client, and the client, its threads and the application as a
      transition system.
    - [RbTree]: red-black trees and paths into them, without memory.  [Tree]: Tree.c.  [TreeMem], [TreeRep],
      [TreeSpec]: the trees as nodes in memory, and what each routine does to them.  [TreeOrder],
      [TreeRefine], [TreeOps]: the sorted lists they stand for, under any sequence of calls.
    - [Heap]: Heap.c.  [HeapMem], [HeapSpec], [HeapRuns]: the tracked heap as a map of blocks.
    - [MqttLink]: a QoS 2 exchange as sequences of messages and packets, without bytes.  [MqttEnds]: an
      end of a connection, which reads, handles and answers a packet.  [MqttPair]: two clients.
    - [Store]: the interface of a store of records (MQTTClientPersistence.h) and, in the class
      [Persistence], what its functions promise.  [PersistFile]: MQTTPersistenceDefault.c on a model of
      a file system.  [PersistFileSpec]: it keeps the promise.  [Persist], [PersistQueue]:
      MQTTPersistence.c and the commands of MQTTAsync.c; [PersistProto]: the handlers with the calls of
      the store, which [MqttProto] leaves out.
    - [PersistRecords], [PersistEntries]: what is read back from a record.  [PersistSim], [PersistKeep],
      [PersistHandle], [PersistRuns]: a client with a store runs as one without, and the store holds its
      session.  [PersistOrder], [PersistRestore], [PersistResume]: the client that is created again.

    A C function is a Rocq function of the same name ([match] is [match_], a leading underscore is dropped
    in [error], [send], [process] ...).  A state is a record with the fields of the struct; a byte is an
    integer of 0 .. 255, an [int] or a [size_t] an integer with its wrap-around where the code can reach
    it.  Access outside a block, a NULL or freed pointer and an uninitialised value that matters are
    [Fault].

    ** What the theorems show

    - The call: the dispatcher implements the abstract call, which is the one of the code: it answers an
      INVITE with 200 before the modem dials, where doc/siproxy_protrol.odt and doc/siproxy_app_init.msc
      have the modem dial first ([Calls.state_implements_call], [Calls.charted_call]); a turn of the
      event thread is a step of it ([Program.event_turn_implements_call]); in every reachable state of the
      program, whatever the environment does, the control block is in a phase of a call and the queued
      events are sound ([Program.control_block_sound], [queued_events_sound], [event_freed_once]); short
      messages pass in every state ([Calls.state_forwards_sms]).
    - The queue: refinement of a FIFO list, no memory, time-out, the node cache, clean-up.
    - The matcher decides the language of the expression.
    - Telnet: the receiver is the automaton of RFC 854 and terminates; chunks do not matter; RFC 1143;
      round trips; two defects ([option_table_wraps], [mccp1_overrun]).
    - Modem, events, SIP: lines, answers, events and commands, byte for byte.
    - The MQTT client: the handlers implement the session of the three qualities of service
      ([MqttSession.handlers_implement_session]); the client as a whole never fails with a server that
      follows the protocol, while its threads and one call of the application interleave
      ([MqttClient.client_never_fails]); the identifiers, and when the search for one loops for ever
      ([MqttEngine.assignMsgId_fresh]); retries, packets (round trips,
      however the bytes are cut), interrupted writes, UTF-8, the linked lists.
    - The sockets: whatever is opened, written, closed and waited for, no pointer dangles and [select] sees
      every socket ([SelectSpec.sockets_implement_selector]); a ready socket is returned within two rounds
      ([ready_socket_returned]); a descriptor reused within a round is returned too early
      ([reused_descriptor_ready]).
    - Waiting for a delivery: the answer is right and in time, but a call on a client that is not connected
      leaves the mutex locked ([MqttWait.wait_answers], [wait_keeps_mutex]).
    - Two clients: QoS 2 messages arrive exactly once and in order over connections that are lost at any
      time ([MqttPair.exactly_once]); a lost PUBCOMP leaves a message in flight ([lost_pubcomp_stays]).
    - Persistence: against any store that keeps the promise of [Persistence], every packet and every
      publication leaves in the store the records of the session ([PersistRuns.records_track_session]),
      and a client that is created again on them carries on where the other one ended
      ([PersistResume.restart_resumes]); the files are such a store ([PersistFileSpec.files_are_a_map]), and
      calls of the operating system that fail lose at most the record that [pstput] writes or [pstremove]
      removes, never one that is read ([failing_files_keep_others]).
    - The containers of the MQTT client: any sequence of calls on a tree gives what sorted lists give
      ([TreeOps.tree_refines_sorted_list]), and the trees are red-black trees while no content is added
      again ([tree_stays_balanced], [readd_unbalances]); a program that stays in its blocks gets from the
      tracked heap what a map of blocks promises ([HeapRuns.heap_tracks]); without memory the heap blocks
      ([failed_malloc_blocks]).

    ** Fuel

    Loops that are not structural take fuel and give [Blocked] without it; each call gives a bound computed
    from the state (the elements of a list plus one, the bytes that are left, 65536 identifiers, the
    nodes of the trees), and the theorems say that a result is reached; where the code can wait or loop
    for ever ([queue_get], [modem_cmd_wait], [modem_event_sms_queue], [MQTTAsync_assignMsgId]), [Blocked]
    stands for that.  The bound of 4 in [MQTTPersistence_restorePacket] is where the arithmetic of the
    code overflows.

    ** What is not modelled

    - Data races: main.c changes the telnet tracker and the control block from several threads without
      a lock; a turn of a thread is one step here.  In the MQTT client a section of a thread is one step:
      [Socket_continueWrites] and [MQTTAsync_writeComplete], which run outside the mutex of the library,
      are one too, and the parts of a call that hold no mutex, or [mqttcommand_mutex] only, run between
      the sections and not inside them.  A callback of the MQTT client is logged; what it calls is a call
      of the application, one at a time.
    - The serial port's settings ([rs232_open], termios), the usage text and the log.  The kernel and the
      resolver: what they answer is input.  In [MqttAsync] the ready socket is input too; [Select] says
      which one it can be.
    - Of the MQTT client: TLS (switched off), the synchronous client, [MQTTAsync_destroy],
      [MQTTAsync_terminate] and [MQTTAsync_stop], several clients in one process (the program
      creates one), threads, the log and the trace.  The program creates its client without a store;
      [MqttAsync] models that client, and the files on persistence the protocol of one with a store: its
      commands are recorded and restored, but not followed through the queue of commands, and the
      delivery of a queued message, which reads a freed entry, is [deliver_queued_d] alone.  The store in
      files is that of Unix.  The lists of server URIs are values; [malloc] is that of the C library and
      succeeds, but in [Heap], which models the tracked one.
    - Of telnet.c: the formatting of [telnet_printf], which is [vsnprintf]'s, zlib (not compiled). *)

From Stdlib Require Import ZArith Lia String Ascii.
From stdpp Require Import base tactics numbers list pretty.

#[global] Open Scope Z_scope.

(** ** Machine integers *)

(** A byte is kept as an integer of [0 .. 255]. *)
Definition is_byte (z : Z) : Prop := 0 <= z < 256.

(** Conversion to [unsigned char]. *)
Definition u8 (z : Z) : Z := z mod 256.

(** Conversion to the 64-bit [size_t]. *)
Definition size_t (z : Z) : Z := z mod 2 ^ 64.

(** The value of a byte read through a (signed) [char]. *)
Definition schar (z : Z) : Z := if z <? 128 then z else z - 256.

#[global] Instance is_byte_dec z : Decision (is_byte z).
Proof. unfold is_byte. apply _. Defined.

Lemma u8_is_byte z : is_byte (u8 z).
Proof. unfold is_byte, u8. apply Z.mod_pos_bound. lia. Qed.

Lemma u8_id z : is_byte z -> u8 z = z.
Proof. unfold is_byte, u8. intros. apply Z.mod_small. lia. Qed.

Lemma size_t_id z : 0 <= z < 2 ^ 64 -> size_t z = z.
Proof. apply Z.mod_small. Qed.

Lemma schar_u8 z : is_byte z -> u8 (schar z) = z.
Proof.
  unfold is_byte, u8, schar. intros. destruct (Z.ltb_spec z 128).
  - apply Z.mod_small. lia.
  - replace (z - 256) with (z + (-1) * 256) by lia.
    rewrite Z.mod_add by lia. apply Z.mod_small. lia.
Qed.

(** A property of the integers below a bound, checked on each. *)
Lemma seqZ_all (P : Z -> Prop) n : Forall P (seqZ 0 n) -> forall z, 0 <= z < n -> P z.
Proof. rewrite Forall_forall. intros H z Hz. apply H, elem_of_seqZ. lia. Qed.

(** Prove a goal [forall z, 0 <= z < n -> P z] by looking at each [z]; [decide_all] checks a
    decidable closed goal. *)
Ltac all_below :=
  lazymatch goal with |- forall z, 0 <= z < ?n -> @?P z => refine (seqZ_all P n _) end.
Ltac decide_all := apply (bool_decide_unpack _); vm_compute; exact I.

(** ** Character strings *)

(** A string literal of the source as the list of its bytes. *)
Definition str (s : string) : list Z :=
  (fun a => Z.of_N (N_of_ascii a)) <$> list_ascii_of_string s.

(** A decimal number as [printf] writes it. *)
Definition decimal (z : Z) : list Z := str (pretty z).

(** The C string that starts at the head of a memory block: the bytes before the first NUL. *)
Fixpoint cstr (mem : list Z) : list Z :=
  match mem with
  | [] => []
  | c :: mem' => if c =? 0 then [] else c :: cstr mem'
  end.

(** A list with no NUL byte: the contents of a C string. *)
Definition nonul (s : list Z) : Prop := Forall (fun c => c <> 0) s.

#[global] Instance nonul_dec s : Decision (nonul s).
Proof. unfold nonul. apply _. Defined.

Lemma cstr_nonul mem : nonul (cstr mem).
Proof.
  unfold nonul. induction mem as [|c mem IH]; simpl; [done|].
  destruct (Z.eqb_spec c 0); constructor; done.
Qed.

Lemma cstr_app_nul s r : nonul s -> cstr (s ++ 0 :: r) = s.
Proof.
  unfold nonul. induction 1 as [|c s Hc _ IH]; simpl; [done|].
  destruct (Z.eqb_spec c 0); [lia|]. by rewrite IH.
Qed.

Lemma cstr_id s : nonul s -> cstr s = s.
Proof.
  unfold nonul. induction 1 as [|c s Hc _ IH]; simpl; [done|].
  destruct (Z.eqb_spec c 0); [lia|]. by rewrite IH.
Qed.

Lemma cstr_length mem : (length (cstr mem) <= length mem)%nat.
Proof. induction mem as [|c mem IH]; simpl; [lia|]. destruct (c =? 0); simpl; lia. Qed.

(** [strlen] of the C string at the head of a block. *)
Definition strlen (mem : list Z) : nat := length (cstr mem).

(** [l] is a prefix of [k]. *)
Fixpoint prefixb (l k : list Z) : bool :=
  match l, k with
  | [], _ => true
  | a :: l', b :: k' => (a =? b) && prefixb l' k'
  | _ :: _, [] => false
  end.

Lemma prefixb_spec l k : prefixb l k = true <-> exists s, k = l ++ s.
Proof.
  revert k. induction l as [|a l IH]; intros k; simpl.
  - split; [by exists k|done].
  - destruct k as [|b k]; [split; [done|by intros [s ?]]|].
    rewrite andb_true_iff, Z.eqb_eq, IH. split.
    + intros [-> [s ->]]. by exists s.
    + intros [s H]. simplify_eq. eauto.
Qed.

(** [strstr]: the offset of the first occurrence of [needle] in [hay]. *)
Fixpoint strstr (hay needle : list Z) : option nat :=
  if prefixb needle hay then Some O
  else match hay with
       | [] => None
       | _ :: hay' => S <$> strstr hay' needle
       end.

(** [needle] occurs somewhere in [hay]. *)
Definition occurs (needle hay : list Z) : Prop :=
  exists pre suf, hay = pre ++ needle ++ suf.

Lemma strstr_Some hay needle i :
  strstr hay needle = Some i -> exists suf, hay = take i hay ++ needle ++ suf.
Proof.
  revert i. induction hay as [|c hay IH]; intros i; simpl.
  - destruct (prefixb needle []) eqn:E; [|done]. intros [= <-].
    apply prefixb_spec in E as [s ->]. by exists s.
  - destruct (prefixb needle (c :: hay)) eqn:E.
    + intros [= <-]. apply prefixb_spec in E as [s E]. exists s. done.
    + intros H. apply fmap_Some in H as (j & Hj & ->).
      destruct (IH _ Hj) as [suf Hs]. exists suf. simpl. by rewrite <- Hs.
Qed.

Lemma strstr_None hay needle : strstr hay needle = None <-> ~ occurs needle hay.
Proof.
  unfold occurs. induction hay as [|c hay IH]; simpl.
  - destruct (prefixb needle []) eqn:E.
    + apply prefixb_spec in E as [s E]. split; [done|].
      intros []. exists [], s. done.
    + split; [|done]. intros _ (pre & suf & H).
      destruct pre; [|done]. simpl in H.
      rewrite (proj2 (prefixb_spec needle [])) in E; [done|eauto].
  - destruct (prefixb needle (c :: hay)) eqn:E.
    + apply prefixb_spec in E as [s E]. split; [done|].
      intros []. by exists [], s.
    + rewrite fmap_None, IH. split; intros H (pre & suf & Heq); apply H.
      * destruct pre as [|p pre]; simplify_eq/=.
        { rewrite (proj2 (prefixb_spec needle (c :: hay))) in E; [done|eauto]. }
        eauto.
      * subst hay. by exists (c :: pre), suf.
Qed.

(** What [snprintf (buf, n, ...)] leaves in a buffer of at least [n > 0] bytes when the formatted
    text is [s]: at most [n - 1] bytes of it and a terminating NUL; nothing when [n = 0]. *)
Definition snprintf (n : nat) (s : list Z) : list Z :=
  match n with
  | O => []
  | S m => take m s ++ [0]
  end.

Lemma snprintf_fits n s : (length (snprintf n s) <= n)%nat.
Proof. destruct n; simpl; [lia|]. rewrite length_app, length_take. simpl. lia. Qed.

Lemma snprintf_cstr n s :
  nonul s -> (0 < n)%nat -> cstr (snprintf n s) = take (n - 1) s.
Proof.
  intros Hs Hn. destruct n as [|m]; [lia|]. simpl. rewrite Nat.sub_0_r.
  apply cstr_app_nul. by apply Forall_take.
Qed.

(** Conversion of a [long] to a 32-bit [int]. *)
Definition s32 (z : Z) : Z := (z + 2 ^ 31) mod 2 ^ 32 - 2 ^ 31.

Lemma s32_id z : - 2 ^ 31 <= z < 2 ^ 31 -> s32 z = z.
Proof. intros. unfold s32. rewrite Z.mod_small; lia. Qed.

(** ** Outcomes of a call

    A call returns a value, blocks for ever (the environment has nothing more to offer), ends the
    process, or has undefined behaviour (a NULL or dangling pointer, an out-of-bounds access). *)
Inductive outcome (A : Type) : Type :=
| Ret (a : A)
| Blocked
| Exited
| Fault.
Arguments Ret {A} a.
Arguments Blocked {A}.
Arguments Exited {A}.
Arguments Fault {A}.

Definition obind {A B : Type} (m : outcome A) (k : A -> outcome B) : outcome B :=
  match m with
  | Ret a => k a
  | Blocked => Blocked
  | Exited => Exited
  | Fault => Fault
  end.

(** Undefined behaviour when a lookup fails. *)
Definition deref {A : Type} (o : option A) : outcome A :=
  match o with
  | Some a => Ret a
  | None => Fault
  end.

Declare Scope siproxy_scope.
Delimit Scope siproxy_scope with siproxy.
Notation "'let!' x ':=' m 'in' k" := (obind m (fun x => k))
  (at level 10, x pattern, m at level 100, k at level 200) : siproxy_scope.
#[global] Open Scope siproxy_scope.

Lemma obind_Ret {A B} (m : outcome A) (k : A -> outcome B) b :
  obind m k = Ret b -> exists a, m = Ret a /\ k a = Ret b.
Proof. destruct m; simpl; try done. eauto. Qed.

(** ** Proof automation *)

(** Split the boolean tests of the code that block a computation. *)
Ltac case_bool :=
  match goal with
  | |- context [Z.eqb ?a ?b] => destruct (Z.eqb_spec a b)
  | |- context [Z.ltb ?a ?b] => destruct (Z.ltb_spec a b)
  | |- context [Z.leb ?a ?b] => destruct (Z.leb_spec a b)
  | H : context [Z.eqb ?a ?b] |- _ => destruct (Z.eqb_spec a b)
  | H : context [Z.ltb ?a ?b] |- _ => destruct (Z.ltb_spec a b)
  | H : context [Z.leb ?a ?b] |- _ => destruct (Z.leb_spec a b)
  end.

(** Linear arithmetic with quotients and remainders. *)
Ltac divlia := Z.to_euclidean_division_equations; lia.

Create HintDb siproxy discriminated.
#[export] Hint Resolve u8_is_byte cstr_nonul snprintf_fits : siproxy.
