(* ===== verification/Match.v ===== *)
(** * Match: the regular-expression matcher of match.c

    [matchhere], [matchstar] and [match_] (the function [match]) work on C strings, given by their
    bytes without the terminating NUL: reading the end of the list is reading the NUL. *)

From Stdlib Require Import ZArith Lia.
From stdpp Require Import base tactics numbers list.
From S2P Require Import Prelude.

(** The characters the matcher gives a meaning to. *)
Definition ch_star : Z := 42.
Definition ch_dollar : Z := 36.
Definition ch_dot : Z := 46.
Definition ch_caret : Z := 94.

(** [*text == '\0'], [regexp[1] == '\0']. *)
Definition at_end (s : list Z) : bool :=
  match s with [] => true | _ :: _ => false end.

(** The loop of [matchstar]; [here] is [matchhere] on the rest of the expression. *)
Fixpoint matchstar_loop (here : list Z -> bool) (c : Z) (text : list Z) : bool :=
  if here text then true
  else match text with
       | [] => false
       | t :: text' => if (t =? c) || (c =? ch_dot) then matchstar_loop here c text' else false
       end.

Fixpoint matchhere (regexp text : list Z) : bool :=
  match regexp with
  | [] => true
  | c :: regexp1 =>
      let rest :=
        if (c =? ch_dollar) && at_end regexp1 then at_end text
        else match text with
             | t :: text1 => if (c =? ch_dot) || (c =? t) then matchhere regexp1 text1 else false
             | [] => false
             end in
      match regexp1 with
      | c1 :: regexp2 =>
          if c1 =? ch_star then matchstar_loop (matchhere regexp2) c text else rest
      | [] => rest
      end
  end.

Definition matchstar (c : Z) (regexp text : list Z) : bool :=
  matchstar_loop (matchhere regexp) c text.

(** The [do] loop of [match]: it looks even if the string is empty. *)
Fixpoint match_loop (regexp text : list Z) : bool :=
  if matchhere regexp text then true
  else match text with
       | [] => false
       | _ :: text' => match_loop regexp text'
       end.

Definition match_ (regexp text : list Z) : bool :=
  match regexp with
  | c :: regexp1 => if c =? ch_caret then matchhere regexp1 text else match_loop regexp text
  | [] => match_loop regexp text
  end.

(** ** The language of an expression

    An expression is read as a list of items; [denotes items text] says that the items match at the
    beginning of [text]. *)

Inductive item : Type :=
| Chr (c : Z)     (** the character itself, or any character for [.] *)
| Star (c : Z)    (** zero or more of it *)
| End_.           (** a final [$] *)

Definition accepts (c t : Z) : Prop := c = ch_dot \/ c = t.

Fixpoint parse (regexp : list Z) : list item :=
  match regexp with
  | [] => []
  | c :: regexp1 =>
      let rest :=
        if (c =? ch_dollar) && at_end regexp1 then [End_] else Chr c :: parse regexp1 in
      match regexp1 with
      | c1 :: regexp2 => if c1 =? ch_star then Star c :: parse regexp2 else rest
      | [] => rest
      end
  end.

Inductive denotes : list item -> list Z -> Prop :=
| denotes_nil text : denotes [] text
| denotes_end : denotes [End_] []
| denotes_chr c t its text : accepts c t -> denotes its text -> denotes (Chr c :: its) (t :: text)
| denotes_star c its run text :
    Forall (accepts c) run -> denotes its text -> denotes (Star c :: its) (run ++ text).

(** An expression without metacharacters stands for itself. *)
Definition plain (regexp : list Z) : Prop :=
  Forall (fun c => c <> ch_star /\ c <> ch_dollar /\ c <> ch_dot /\ c <> ch_caret) regexp.

#[global] Instance plain_dec s : Decision (plain s).
Proof. unfold plain. apply _. Defined.

(** ** Lemmas *)

Lemma accepts_orb c t : (t =? c) || (c =? ch_dot) = true <-> accepts c t.
Proof. unfold accepts. rewrite orb_true_iff, !Z.eqb_eq. intuition congruence. Qed.

Lemma accepts_orb' c t : (c =? ch_dot) || (c =? t) = true <-> accepts c t.
Proof. unfold accepts. by rewrite orb_true_iff, !Z.eqb_eq. Qed.

Lemma at_end_true s : at_end s = true <-> s = [].
Proof. by destruct s. Qed.

Lemma matchstar_loop_spec here c text :
  matchstar_loop here c text = true <->
  exists run suf, text = run ++ suf /\ Forall (accepts c) run /\ here suf = true.
Proof.
  induction text as [|t text IH]; simpl.
  - destruct (here []) eqn:E; split; try done.
    + intros _. by exists [], [].
    + intros (run & suf & Heq & _ & Hs).
      symmetry in Heq. apply app_nil in Heq as [-> ->]. congruence.
  - destruct (here (t :: text)) eqn:E.
    { split; [|done]. intros _. by exists [], (t :: text). }
    destruct ((t =? c) || (c =? ch_dot)) eqn:Ea.
    + rewrite IH. split.
      * intros (run & suf & -> & Hrun & Hs). exists (t :: run), suf.
        split; [done|]. split; [|done]. constructor; [by apply accepts_orb|done].
      * intros (run & suf & Heq & Hrun & Hs).
        destruct run as [|r run]; simplify_eq/=; [congruence|].
        inversion Hrun. by exists run, suf.
    + split; [done|]. intros (run & suf & Heq & Hrun & Hs).
      destruct run as [|r run]; simplify_eq/=; [congruence|].
      inversion Hrun as [|? ? Hr]. apply accepts_orb in Hr. congruence.
Qed.

Lemma denotes_star_inv c its text :
  denotes (Star c :: its) text <->
  exists run suf, text = run ++ suf /\ Forall (accepts c) run /\ denotes its suf.
Proof.
  split.
  - inversion 1; subst. eauto.
  - intros (run & suf & -> & ? & ?). by constructor.
Qed.

Lemma denotes_chr_inv c its text :
  denotes (Chr c :: its) text <->
  exists t suf, text = t :: suf /\ accepts c t /\ denotes its suf.
Proof.
  split.
  - inversion 1; subst. eauto.
  - intros (t & suf & -> & ? & ?). by constructor.
Qed.

Lemma denotes_end_inv text : denotes [End_] text <-> text = [].
Proof. split; [by inversion 1|intros ->; constructor]. Qed.

Lemma matchhere_denotes_upto n regexp text :
  (length regexp <= n)%nat -> matchhere regexp text = true <-> denotes (parse regexp) text.
Proof.
  revert regexp text. induction n as [|n IH]; intros [|c regexp] text Hn; simpl in Hn; try lia.
  1, 2: split; [constructor|done].
  assert (Hrest :
    (if (c =? ch_dollar) && at_end regexp then at_end text
     else match text with
          | t :: text1 => if (c =? ch_dot) || (c =? t) then matchhere regexp text1 else false
          | [] => false
          end) = true <->
    denotes (if (c =? ch_dollar) && at_end regexp then [End_] else Chr c :: parse regexp) text).
  { destruct ((c =? ch_dollar) && at_end regexp).
    { by rewrite at_end_true, denotes_end_inv. }
    rewrite denotes_chr_inv. destruct text as [|t text]; [split; [done|by intros (? & ? & ? & _)]|].
    destruct ((c =? ch_dot) || (c =? t)) eqn:E.
    - apply accepts_orb' in E. rewrite IH by lia. split; [eauto|].
      intros (? & ? & ? & _ & ?). by simplify_eq.
    - split; [done|]. intros (? & ? & ? & Ha & _). simplify_eq.
      apply accepts_orb' in Ha. congruence. }
  destruct regexp as [|c1 regexp2]; [exact Hrest|].
  cbn [matchhere parse]. destruct (c1 =? ch_star); [|exact Hrest].
  rewrite matchstar_loop_spec, denotes_star_inv.
  split; intros (run & suf & ? & ? & Hs); exists run, suf; (split; [done|split; [done|]]);
    apply IH; simpl in Hn; (lia || done).
Qed.

Lemma matchhere_denotes regexp text :
  matchhere regexp text = true <-> denotes (parse regexp) text.
Proof. by apply (matchhere_denotes_upto (length regexp)). Qed.

Lemma match_loop_spec regexp text :
  match_loop regexp text = true <->
  exists pre suf, text = pre ++ suf /\ matchhere regexp suf = true.
Proof.
  induction text as [|t text IH]; simpl.
  - destruct (matchhere regexp []) eqn:E; split; try done.
    + intros _. by exists [], [].
    + intros (pre & suf & Heq & Hs). symmetry in Heq. apply app_nil in Heq as [-> ->]. congruence.
  - destruct (matchhere regexp (t :: text)) eqn:E.
    { split; [|done]. intros _. by exists [], (t :: text). }
    rewrite IH. split.
    + intros (pre & suf & -> & Hs). by exists (t :: pre), suf.
    + intros (pre & suf & Heq & Hs). destruct pre as [|p pre]; simplify_eq/=; [congruence|].
      by exists pre, suf.
Qed.

Lemma matchhere_plain regexp text :
  plain regexp -> matchhere regexp text = true <-> exists suf, text = regexp ++ suf.
Proof.
  intros Hp. revert text. induction Hp as [|c regexp (Hs & Hd & Hdot & Hc) Hp IH]; intros text.
  { simpl. split; [by exists text|done]. }
  assert (Hstep : matchhere (c :: regexp) text =
    match text with
    | t :: text1 => if c =? t then matchhere regexp text1 else false
    | [] => false
    end).
  { cbn [matchhere].
    rewrite (proj2 (Z.eqb_neq c ch_dollar)), (proj2 (Z.eqb_neq c ch_dot)) by done.
    destruct regexp as [|c1 regexp]; [done|].
    inversion Hp as [|? ? (Hs1 & _) _]. subst.
    by rewrite (proj2 (Z.eqb_neq c1 ch_star)) by done. }
  rewrite Hstep. destruct text as [|t text]; [split; [done|by intros [? ?]]|].
  destruct (Z.eqb_spec c t) as [->|Hne].
  - rewrite IH. split; [intros [s ->]; by exists s|intros [s Hs0]; simplify_eq/=; by exists s].
  - split; [done|]. intros [s Hs0]. by simplify_eq/=.
Qed.

(** ** Properties *)

(** C8: [match] decides the language of the expression. An expression that begins with [^] matches
    the text iff the rest of it matches at the beginning of the text; any other expression matches
    iff it matches at the beginning of some suffix of the text, the empty one included. *)
Theorem match_correct (regexp text : list Z) :
  match_ regexp text = true <->
  match regexp with
  | c :: regexp1 =>
      if c =? ch_caret then denotes (parse regexp1) text
      else exists pre suf, text = pre ++ suf /\ denotes (parse regexp) suf
  | [] => exists pre suf, text = pre ++ suf /\ denotes (parse regexp) suf
  end.
Proof.
  unfold match_. destruct regexp as [|c regexp1]; [|destruct (c =? ch_caret)];
    rewrite ?match_loop_spec; setoid_rewrite matchhere_denotes; done.
Qed.

Lemma match_plain_occurs regexp text :
  plain regexp -> match_ regexp text = true <-> occurs regexp text.
Proof.
  intros Hp. unfold occurs.
  assert (Hl : match_loop regexp text = true <-> exists pre suf, text = pre ++ regexp ++ suf).
  { rewrite match_loop_spec. split.
    - intros (pre & suf & -> & Hs). apply matchhere_plain in Hs as [s ->]; [|done]. by exists pre, s.
    - intros (pre & suf & ->). exists pre, (regexp ++ suf). split; [done|].
      apply matchhere_plain; [done|by exists suf]. }
  destruct regexp as [|c regexp1]; [exact Hl|]. simpl.
  inversion Hp as [|? ? (_ & _ & _ & Hc) _]. subst.
  by rewrite (proj2 (Z.eqb_neq c ch_caret)) by done.
Qed.
