(* ===== verification/Queue.v ===== *)
(** * Queue: the waitable message queue of queue.c and queue.h

    The queue is a singly linked list of [msglist] nodes with [first] and [last] pointers, and a
    second list, [msgpool], that caches released nodes.  The nodes live in a heap of their own; a
    pointer is an optional location and following a pointer that is not allocated is a [Fault].
    Every operation runs with the mutex held, so operations are atomic steps; [queue_get] releases
    the mutex only while it waits on the condition variable. *)

From Stdlib Require Import ZArith Lia.
From stdpp Require Import base tactics numbers list gmap.
From S2P Require Import Prelude.

Notation loc := nat (only parsing).
Notation ptr := (option nat) (only parsing).

(** [struct msg] as the node keeps it, and [struct msglist]. *)
Record msglist : Type := Node {
  nd_data : ptr;
  nd_msgtype : Z;
  nd_next : ptr
}.

(** [struct msg] as [queue_get] fills it. *)
Record msg : Type := Msg {
  msg_data : ptr;
  msg_msgtype : Z;
  msg_qlength : Z
}.

(** [struct queue] and the heap of its nodes. *)
Record queue : Type := Queue {
  heap : gmap loc msglist;
  q_length : Z;
  first : ptr;
  last : ptr;
  msgpool : ptr;
  msgpool_length : Z
}.

Definition set_heap (h : gmap loc msglist) (q : queue) : queue :=
  Queue h (q_length q) (first q) (last q) (msgpool q) (msgpool_length q).
Definition set_length (n : Z) (q : queue) : queue :=
  Queue (heap q) n (first q) (last q) (msgpool q) (msgpool_length q).
Definition set_first (p : ptr) (q : queue) : queue :=
  Queue (heap q) (q_length q) p (last q) (msgpool q) (msgpool_length q).
Definition set_last (p : ptr) (q : queue) : queue :=
  Queue (heap q) (q_length q) (first q) p (msgpool q) (msgpool_length q).
Definition set_msgpool (p : ptr) (n : Z) (q : queue) : queue :=
  Queue (heap q) (q_length q) (first q) (last q) p n.

Definition MSGPOOL_SIZE : Z := 256.
Definition EINVAL : Z := 22.
Definition ENOMEM : Z := 12.
Definition ETIMEDOUT : Z := 110.

(** Reading and writing a node through a pointer, and [free]. *)
Definition load (p : ptr) (q : queue) : outcome msglist :=
  let! a := deref p in deref (heap q !! a).

Definition store (p : ptr) (n : msglist) (q : queue) : outcome queue :=
  let! a := deref p in
  let! _ := deref (heap q !! a) in
  Ret (set_heap (<[a := n]> (heap q)) q).

Definition free_node (p : ptr) (q : queue) : outcome queue :=
  let! a := deref p in
  let! _ := deref (heap q !! a) in
  Ret (set_heap (delete a (heap q)) q).

(** [malloc (sizeof *tmp)]: a fresh location whose contents are not initialised, or NULL. *)
Definition malloc_node (ok : bool) (q : queue) : ptr * queue :=
  if ok then
    let a := fresh (dom (heap q)) in
    (Some a, set_heap (<[a := Node None 0 None]> (heap q)) q)
  else (None, q).

Definition get_msglist (ok : bool) (q : queue) : outcome (ptr * queue) :=
  match msgpool q with
  | Some _ =>
      let tmp := msgpool q in
      let! n := load tmp q in
      Ret (tmp, set_msgpool (nd_next n) (msgpool_length q - 1) q)
  | None => Ret (malloc_node ok q)
  end.

Definition release_msglist (q : queue) (node : ptr) : outcome queue :=
  let! q1 :=
    if Z.quot (q_length q) 8 + MSGPOOL_SIZE <? msgpool_length q
    then free_node node q
    else
      let! q' := store node (Node None 0 (msgpool q)) q in
      Ret (set_msgpool node (msgpool_length q + 1) q') in
  if Z.quot (q_length q1) 4 + MSGPOOL_SIZE * 10 <? msgpool_length q1 then
    let tmp := msgpool q1 in
    let! n := load tmp q1 in
    let! q2 := free_node tmp q1 in
    Ret (set_msgpool (nd_next n) (msgpool_length q1 - 1) q2)
  else Ret q1.

(** [queue_init]: [cond_rc] and [mutex_rc] are what [pthread_cond_init] and [pthread_mutex_init]
    return.  The result is the returned code and the initialised queue, if any. *)
Definition queue_zero : queue := Queue ∅ 0 None None None 0.

Definition queue_init (is_null : bool) (cond_rc mutex_rc : Z) : Z * option queue :=
  if is_null then (-1, None)
  else if negb (cond_rc =? 0) then (cond_rc, None)
  else if negb (mutex_rc =? 0) then (mutex_rc, None)
  else (0, Some queue_zero).

Definition queue_add (ok : bool) (q : queue) (data : ptr) (msgtype : Z) : outcome (Z * queue) :=
  let! (newmsg, q1) := get_msglist ok q in
  match newmsg with
  | None => Ret (ENOMEM, q1)
  | Some _ =>
      let! q2 := store newmsg (Node data msgtype None) q1 in
      let! q3 :=
        match last q2 with
        | None => Ret (set_first newmsg (set_last newmsg q2))
        | Some _ =>
            let! n := load (last q2) q2 in
            let! q' := store (last q2) (Node (nd_data n) (nd_msgtype n) newmsg) q2 in
            Ret (set_last newmsg q')
        end in
      Ret (0, set_length (q_length q3 + 1) q3)
  end.

(** The deadline handed to [pthread_cond_timedwait]: [now] is in seconds and microseconds, the
    timeout in seconds and nanoseconds. *)
Definition abstimeout (now timeout : Z * Z) : Z * Z :=
  let sec := fst now + fst timeout in
  let nsec := snd now * 1000 + snd timeout in
  if 1000000000 <=? nsec then (sec + 1, nsec - 1000000000) else (sec, nsec).

(** One return of the wait on the condition variable: its return code, and the [queue_add] calls
    other threads completed while the mutex was released. *)
Record wake : Type := Wake {
  wake_rc : Z;
  wake_adds : list (bool * ptr * Z)
}.

Fixpoint run_adds (adds : list (bool * ptr * Z)) (q : queue) : outcome queue :=
  match adds with
  | [] => Ret q
  | (ok, d, t) :: adds' => let! (_, q') := queue_add ok q d t in run_adds adds' q'
  end.

(** The wait loop of [queue_get]; it ends when a message is there or the wait timed out, and
    blocks when nothing wakes it up any more. *)
Fixpoint wait_loop (timed : bool) (ret : Z) (waits : list wake) (q : queue) : outcome (Z * queue) :=
  match first q with
  | Some _ => Ret (ret, q)
  | None =>
      if ret =? ETIMEDOUT then Ret (ret, q)
      else match waits with
           | [] => Blocked
           | w :: waits' =>
               let! q' := run_adds (wake_adds w) q in
               wait_loop timed (if timed then wake_rc w else ret) waits' q'
           end
  end.

(** Taking the first message, once the wait is over without a timeout. *)
Definition take_first (q : queue) : outcome (Z * option msg * queue) :=
  let firstrec := first q in
  let! n := load firstrec q in
  let q1 := set_length (q_length q - 1) (set_first (nd_next n) q) in
  let q2 := match first q1 with
            | None => set_length 0 (set_last None q1)
            | Some _ => q1
            end in
  let m := Msg (nd_data n) (nd_msgtype n) (s32 (q_length q2)) in
  let! q3 := release_msglist q2 firstrec in
  Ret (0, Some m, q3).

(** [queue_get]: [now] is the time of day, [waits] what the condition variable does from then on,
    given the deadline of a timed wait. *)
Definition queue_get (args_null : bool) (timeout : option (Z * Z)) (now : Z * Z)
    (waits : option (Z * Z) -> list wake) (q : queue) : outcome (Z * option msg * queue) :=
  if args_null then Ret (EINVAL, None, q)
  else
    let deadline := abstimeout now <$> timeout in
    let! (ret, q1) :=
      wait_loop (match timeout with Some _ => true | None => false end) 0 (waits deadline) q in
    if ret =? ETIMEDOUT then Ret (ret, None, q1) else take_first q1.

(** The [while (rec)] loop of [queue_cleanup] on one list: it frees every node, and the data of
    every node when [freedata] is set ([free (NULL)] does nothing).  The loop is bounded by the
    number of nodes that are allocated. *)
Fixpoint cleanup_list (fuel : nat) (freedata : bool) (rec : ptr) (q : queue) (freed : list loc)
    : outcome (queue * list loc) :=
  match rec with
  | None => Ret (q, freed)
  | Some _ =>
      match fuel with
      | O => Fault
      | S fuel' =>
          let! n := load rec q in
          let freed' := match freedata, nd_data n with
                        | true, Some d => freed ++ [d]
                        | _, _ => freed
                        end in
          let! q' := free_node rec q in
          cleanup_list fuel' freedata (nd_next n) q' freed'
      end
  end.

(** [queue_cleanup]; [destroy_rc] is what [pthread_mutex_destroy] returns.  The struct itself is
    not changed: its pointers dangle afterwards. *)
Definition queue_cleanup (is_null : bool) (freedata : bool) (destroy_rc : Z) (q : queue)
    : outcome (Z * queue * list loc) :=
  if is_null then Ret (EINVAL, q, [])
  else
    let fuel := size (heap q) in
    let! (q1, f1) := cleanup_list fuel freedata (first q) q [] in
    let! (q2, f2) := cleanup_list fuel freedata (msgpool q) q1 f1 in
    Ret (destroy_rc, q2, f2).

Definition queue_length (q : queue) : Z := q_length q.

(** ** Abstract contents

    [chain h p l] says that the list that starts at [p] in heap [h] has exactly the nodes [l], each
    given by its location and its message. *)

Notation entry := (nat * (option nat * Z))%type (only parsing).

Fixpoint chain (h : gmap loc msglist) (p : ptr) (l : list entry) : Prop :=
  match l with
  | [] => p = None
  | (a, (d, t)) :: l' => p = Some a /\ exists nx, h !! a = Some (Node d t nx) /\ chain h nx l'
  end.

Notation locs l := (fmap (M:=list) (fst (A:=loc) (B:=ptr * Z)) l).
Notation payload l := (fmap (M:=list) (snd (A:=loc) (B:=ptr * Z)) l).

(** The representation invariant: the two lists and the nodes [extra], which a running operation
    holds outside of them, are all the nodes there are, with no sharing; [last] points to the last
    message, and the two counters are exact. *)
Record rep (extra : list nat) (q : queue) (ms pool : list entry) : Prop := {
  rep_first : chain (heap q) (first q) ms;
  rep_pool : chain (heap q) (msgpool q) pool;
  rep_last : last q = list.last (locs ms);
  rep_nodup : NoDup (extra ++ locs ms ++ locs pool);
  rep_dom : forall a, is_Some (heap q !! a) <-> a ∈ extra ++ locs ms ++ locs pool;
  rep_length : q_length q = Z.of_nat (length ms);
  rep_pool_length : msgpool_length q = Z.of_nat (length pool);
  rep_pool_data : Forall (fun e => e.2 = (None, 0)) pool
}.

(** The queue [q] holds the messages [l], oldest first, between two operations. *)
Definition holds (q : queue) (l : list (option nat * Z)) : Prop :=
  exists ms pool, rep [] q ms pool /\ payload ms = l.

(** *** Chains *)

Lemma chain_frame h h' p l :
  (forall a, a ∈ locs l -> h' !! a = h !! a) -> chain h p l -> chain h' p l.
Proof.
  revert p. induction l as [|[a [d t]] l IH]; intros p Hf; simpl; [done|].
  intros [-> (nx & Ha & Hc)]. split; [done|]. exists nx. split.
  - rewrite Hf; [done|]. set_solver.
  - apply IH; [|done]. intros b Hb. apply Hf. set_solver.
Qed.

Lemma chain_insert h p l a n : a ∉ locs l -> chain h p l -> chain (<[a := n]> h) p l.
Proof. intros Ha. apply chain_frame. intros b Hb. apply lookup_insert_ne. set_solver. Qed.

Lemma chain_delete h p l a : a ∉ locs l -> chain h p l -> chain (delete a h) p l.
Proof. intros Ha. apply chain_frame. intros b Hb. apply lookup_delete_ne. set_solver. Qed.

Lemma chain_ptr h p l : chain h p l -> p = head (locs l).
Proof. destruct l as [|[a [d t]] l]; simpl; [done|]. by intros [-> _]. Qed.

(** Linking a new last node: the code changes the [next] field of the last node only. *)
Lemma chain_snoc h p l a d t b d' t' :
  NoDup (locs (l ++ [(a, (d, t))])) -> b ∉ locs (l ++ [(a, (d, t))]) ->
  chain h p (l ++ [(a, (d, t))]) -> h !! b = Some (Node d' t' None) ->
  h !! a = Some (Node d t None) /\
  chain (<[a := Node d t (Some b)]> h) p (l ++ [(a, (d, t)); (b, (d', t'))]).
Proof.
  revert p. induction l as [|[a0 [d0 t0]] l IH]; intros p Hnd Hb Hc Hh; csimpl in *;
    apply not_elem_of_cons in Hb as [Hba Hb].
  - destruct Hc as [-> (nx & Ha & ->)]. split; [done|]. split; [done|].
    exists (Some b). split; [apply lookup_insert_eq|]. split; [done|].
    exists None. split; [|done]. by rewrite lookup_insert_ne.
  - destruct Hc as [-> (nx & Ha & Hc)]. apply NoDup_cons in Hnd as [Ha0 Hnd].
    destruct (IH nx) as [Hla Hlc]; try done.
    split; [done|]. split; [done|]. exists nx. split; [|done].
    rewrite lookup_insert_ne; [done|].
    intros <-. apply Ha0. rewrite fmap_app, elem_of_app. right. by apply list_elem_of_here.
Qed.

Lemma locs_snoc l e : locs (l ++ [e]) = locs l ++ [e.1].
Proof. by rewrite fmap_app. Qed.

Lemma last_locs_snoc l e : list.last (locs (l ++ [e])) = Some e.1.
Proof. rewrite locs_snoc. apply last_snoc. Qed.

(** *** Getting and releasing nodes *)

Ltac split_and_done := repeat match goal with |- _ /\ _ => split end; try done; try lia.

(** What [get_msglist] promises: [None] only when [malloc] fails with an empty pool, otherwise a
    node outside both lists. *)
Lemma get_msglist_spec ok q ms pool :
  rep [] q ms pool ->
  (ok = false /\ pool = [] /\ get_msglist ok q = Ret (None, q)) \/
  exists a q1, get_msglist ok q = Ret (Some a, q1) /\ rep [a] q1 ms (tail pool) /\
    q_length q1 = q_length q /\ (ok = true \/ pool <> []).
Proof.
  intros [Hf Hp Hl Hnd Hd Hlen Hplen Hpd]. unfold get_msglist. simpl in Hnd, Hd.
  destruct pool as [|[a [d t]] pool].
  - simpl in Hp. rewrite Hp. destruct ok; [right|by left]. simpl.
    set (a := fresh (dom (heap q))). pose proof (is_fresh (dom (heap q))) as Hfr. fold a in Hfr.
    rewrite elem_of_dom, Hd in Hfr. simpl in Hfr. rewrite app_nil_r in *.
    eexists a, _. split; [done|]. split; [|by auto]. split; simpl; try done.
    + by apply chain_insert.
    + rewrite app_nil_r. by constructor.
    + intros b. rewrite app_nil_r, elem_of_cons. destruct (decide (a = b)) as [->|Hne].
      * rewrite lookup_insert_eq. split; [by left|done].
      * rewrite lookup_insert_ne by done. rewrite Hd. naive_solver.
  - simpl in Hp. destruct Hp as [Hmp (nx & Ha & Hc)]. rewrite Hmp. unfold load. simpl.
    rewrite Ha. simpl. right. eexists a, _. split; [done|]. split; [|by auto]. simpl in *.
    apply Forall_cons in Hpd as [_ Hpd].
    assert (Hperm : locs ms ++ a :: locs pool ≡ₚ a :: locs ms ++ locs pool) by
      (by rewrite Permutation_middle).
    split; simpl; try done; try lia.
    + by rewrite <- Hperm.
    + intros b. by rewrite Hd, Hperm.
Qed.

(** Writing a node held outside the lists. *)
Lemma store_extra a n q ms pool :
  rep [a] q ms pool ->
  exists q', store (Some a) n q = Ret q' /\ q' = set_heap (<[a := n]> (heap q)) q /\
    rep [a] q' ms pool.
Proof.
  intros [Hf Hp Hl Hnd Hd Hlen Hplen Hpd]. unfold store. simpl.
  assert (Ha : is_Some (heap q !! a)) by (apply Hd; set_solver).
  destruct Ha as [n0 Ha]. rewrite Ha. simpl. eexists. split_and!; [done|done|].
  pose proof Hnd as Hnd'. simpl in Hnd'. apply NoDup_cons in Hnd' as [Hna _].
  rewrite elem_of_app in Hna.
  split; simpl; try done.
  - apply chain_insert; naive_solver.
  - apply chain_insert; naive_solver.
  - intros b. rewrite <- Hd. destruct (decide (a = b)) as [->|Hne].
    + rewrite lookup_insert_eq, Ha. split; by eauto.
    + by rewrite lookup_insert_ne.
Qed.

(** Freeing a node held outside the lists. *)
Lemma free_extra a q ms pool :
  rep [a] q ms pool ->
  exists q', free_node (Some a) q = Ret q' /\ q' = set_heap (delete a (heap q)) q /\
    rep [] q' ms pool.
Proof.
  intros [Hf Hp Hl Hnd Hd Hlen Hplen Hpd]. unfold free_node. simpl.
  assert (Ha : is_Some (heap q !! a)) by (apply Hd; set_solver).
  destruct Ha as [n0 Ha]. rewrite Ha. simpl. eexists. split_and!; [done|done|].
  simpl in Hnd. apply NoDup_cons in Hnd as [Hna Hnd'].
  pose proof Hna as Hna'. rewrite elem_of_app in Hna.
  split; simpl; try done.
  - apply chain_delete; naive_solver.
  - apply chain_delete; naive_solver.
  - intros b. destruct (decide (a = b)) as [->|Hne].
    + rewrite lookup_delete_eq. split; [by intros []|done].
    + rewrite lookup_delete_ne by done. rewrite Hd. simpl. rewrite elem_of_cons. naive_solver.
Qed.

(** Taking the first node of the pool out of it. *)
Lemma pool_pop q ms a x pool :
  rep [] q ms ((a, x) :: pool) ->
  exists n, load (msgpool q) q = Ret n /\ msgpool q = Some a /\
    rep [a] (set_msgpool (nd_next n) (msgpool_length q - 1) q) ms pool.
Proof.
  intros H. pose proof (get_msglist_spec true q ms ((a, x) :: pool) H) as Hg.
  destruct x as [d t]. destruct (rep_pool _ _ _ _ H) as [Hmp (nx & Ha & _)].
  unfold get_msglist, load in *. rewrite Hmp in *. simpl in *. rewrite Ha in *. simpl in *.
  eexists. split; [done|]. split; [done|].
  destruct Hg as [(? & ? & ?)|(a' & q1 & Heq & Hr & _ & _)]; [done|]. by simplify_eq.
Qed.

(** What [release_msglist] does with a node outside the lists: the queue is well formed again and
    the pool keeps, gains or loses nodes within the bounds the code sets. *)
Lemma release_msglist_spec a q ms pool :
  rep [a] q ms pool ->
  exists q' pool', release_msglist q (Some a) = Ret q' /\ rep [] q' ms pool' /\
    msgpool_length q' <=
      Z.max (msgpool_length q) (q_length q / 8 + MSGPOOL_SIZE + 1) /\
    (q_length q / 4 + MSGPOOL_SIZE * 10 < msgpool_length q ->
     msgpool_length q' = msgpool_length q - 1).
Proof.
  intros H. unfold release_msglist, MSGPOOL_SIZE.
  pose proof (rep_length _ _ _ _ H) as Hlen. pose proof (rep_pool_length _ _ _ _ H) as Hplen.
  rewrite Z.quot_div_nonneg by lia.
  destruct (Z.ltb_spec (q_length q / 8 + 256) (msgpool_length q)) as [Hlt|Hge].
  - destruct (free_extra _ _ _ _ H) as (q1 & -> & -> & Hr). simpl.
    rewrite Z.quot_div_nonneg by lia.
    destruct (Z.ltb_spec (q_length q / 4 + 256 * 10) (msgpool_length q)) as [Hlt'|Hge'].
    + destruct pool as [|[b x] pool]; [simpl in Hplen; divlia|].
      destruct (pool_pop _ _ _ _ _ Hr) as (n & Hload & Hmp & Hr'). simpl in Hload, Hmp, Hr'.
      rewrite Hload. simpl.
      destruct (free_extra _ _ _ _ Hr') as (q2 & Hfree & -> & Hr2).
      unfold free_node in *. simpl in *. rewrite Hmp. simpl.
      destruct (delete a (heap q) !! b); [|done]. simpl. eexists _, pool.
      split; [done|]. split; [exact Hr2|]. simpl. divlia.
    + eexists _, pool. split; [done|]. split; [done|]. simpl. divlia.
  - destruct (store_extra a (Node None 0 (msgpool q)) _ _ _ H) as (q1 & -> & -> & Hr). simpl.
    rewrite Z.quot_div_nonneg by lia.
    rewrite (proj2 (Z.ltb_ge (q_length q / 4 + 256 * 10) (msgpool_length q + 1))).
    2:{ divlia. }
    eexists _, ((a, (None, 0)) :: pool). split; [done|].
    destruct Hr as [Hf Hp Hl Hnd Hd _ _ Hpd]. simpl in *.
    assert (Hperm : locs ms ++ a :: locs pool ≡ₚ a :: locs ms ++ locs pool) by
      (by rewrite Permutation_middle).
    split; [|split; divlia].
    split; simpl; try done; try lia.
    + split; [done|]. exists (msgpool q). by rewrite lookup_insert_eq.
    + by rewrite Hperm.
    + intros b. by rewrite Hd, Hperm.
    + by constructor.
Qed.

(** *** Adding and taking messages *)

(** Linking the new node, whose message is already written, at the end of the list. *)
Lemma link_last a d t q ms pool :
  rep [a] q ms pool -> heap q !! a = Some (Node d t None) ->
  exists q',
    match last q with
    | None => Ret (set_first (Some a) (set_last (Some a) q))
    | Some _ =>
        let! n := load (last q) q in
        let! q' := store (last q) (Node (nd_data n) (nd_msgtype n) (Some a)) q in
        Ret (set_last (Some a) q')
    end = Ret q' /\ rep [] (set_length (q_length q + 1) q') (ms ++ [(a, (d, t))]) pool /\
    q_length q' = q_length q.
Proof.
  intros [Hf Hp Hl Hnd Hd Hlen Hplen Hpd] Ha. simpl in Hnd, Hd.
  assert (Hperm : locs (ms ++ [(a, (d, t))]) ++ locs pool ≡ₚ a :: locs ms ++ locs pool).
  { rewrite fmap_app, <- app_assoc. simpl. by rewrite Permutation_middle. }
  destruct ms as [|[b [d' t']] ms _] using rev_ind.
  - simpl in Hl. rewrite Hl. eexists. split; [done|]. split; [|done].
    split; simpl in *; try done; try lia. split; [done|]. exists None. done.
  - rewrite last_locs_snoc in Hl. simpl in Hl. rewrite Hl. unfold load, store. simpl.
    apply NoDup_cons in Hnd as [Hna Hnd]. rewrite elem_of_app in Hna.
    destruct (chain_snoc (heap q) (first q) ms b d' t' a d t) as [Hb Hc]; try done.
    { by apply NoDup_app in Hnd as [? _]. } { naive_solver. }
    rewrite Hb. simpl. eexists. split; [done|]. split; [|done].
    assert (Hbin : b ∈ locs (ms ++ [(b, (d', t'))])) by (rewrite locs_snoc; set_solver).
    split; simpl; try done; rewrite ?Hlen, ?length_app; simpl; try lia.
    + by rewrite <- app_assoc.
    + apply chain_insert; [|done]. intros Hbp. apply NoDup_app in Hnd as (_ & Hdisj & _).
      by apply (Hdisj b).
    + by rewrite last_locs_snoc.
    + rewrite Hperm. constructor; [by rewrite elem_of_app|done].
    + intros c. rewrite Hperm, <- Hd. destruct (decide (b = c)) as [->|Hne].
      * rewrite lookup_insert_eq, Hb. split; by eauto.
      * by rewrite lookup_insert_ne.
Qed.

Lemma queue_add_holds ok q d t l :
  holds q l ->
  (exists q', queue_add ok q d t = Ret (0, q') /\ holds q' (l ++ [(d, t)]) /\
     (ok = true \/ msgpool_length q <> 0) /\ msgpool_length q' <= msgpool_length q) \/
  (queue_add ok q d t = Ret (ENOMEM, q) /\ ok = false /\ msgpool_length q = 0).
Proof.
  intros (ms & pool & Hr & Hl). unfold queue_add.
  destruct (get_msglist_spec ok _ _ _ Hr) as [(Hok & Hpool & ->)|(a & q1 & -> & Hr1 & Hlen1 & Hok)].
  { right. simpl. rewrite (rep_pool_length _ _ _ _ Hr), Hpool. done. }
  left. simpl. destruct (store_extra a (Node d t None) _ _ _ Hr1) as (q2 & -> & -> & Hr2). simpl.
  destruct (link_last a d t _ _ _ Hr2) as (q3 & Hlink & Hr3 & Hq3).
  { simpl. by rewrite lookup_insert_eq. }
  simpl in Hlink, Hr3, Hq3. rewrite Hlink. simpl. eexists. split; [done|].
  rewrite Hq3. split; [|split].
  - exists (ms ++ [(a, (d, t))]), (tail pool). split; [done|]. rewrite fmap_app. by rewrite Hl.
  - destruct Hok as [?|Hne]; [by left|right]. rewrite (rep_pool_length _ _ _ _ Hr).
    destruct pool; [done|simpl; lia].
  - rewrite (rep_pool_length _ _ _ _ Hr). apply rep_pool_length in Hr3. simpl in *.
    rewrite Hr3. destruct pool; simpl; lia.
Qed.

Lemma take_first_holds q d t l :
  holds q ((d, t) :: l) ->
  exists q', take_first q = Ret (0, Some (Msg d t (s32 (Z.of_nat (length l)))), q') /\
    holds q' l /\
    msgpool_length q' <= Z.max (msgpool_length q) (q_length q' / 8 + MSGPOOL_SIZE + 1) /\
    (q_length q' / 4 + MSGPOOL_SIZE * 10 < msgpool_length q ->
     msgpool_length q' = msgpool_length q - 1).
Proof.
  intros (ms & pool & [Hf Hp Hl Hnd Hd Hlen Hplen Hpd] & Hpay).
  destruct ms as [|[a [d0 t0]] ms]; simplify_eq/=.
  destruct Hf as [Hfirst (nx & Ha & Hc)]. unfold take_first, load. rewrite Hfirst. simpl.
  rewrite Ha. simpl.
  set (q2 := match nx with
             | Some _ => set_length (q_length q - 1) (set_first nx q)
             | None => set_length 0 (set_last None (set_length (q_length q - 1) (set_first nx q)))
             end).
  assert (Hr : rep [a] q2 ms pool).
  { destruct ms as [|[b [db tb]] ms].
    - simpl in Hc. subst nx q2. by split.
    - simpl in Hc. destruct Hc as [-> Hc]. subst q2.
      split; simpl in *; try done; lia. }
  destruct (release_msglist_spec _ _ _ _ Hr) as (q' & pool' & Hrel & Hr' & Hb1 & Hb2).
  assert (Hq2 : q_length q2 = Z.of_nat (length ms)) by apply (rep_length _ _ _ _ Hr).
  assert (Hmp : msgpool_length q2 = msgpool_length q) by (by subst q2; destruct nx).
  rewrite Hrel. simpl. rewrite Hq2. exists q'. rewrite length_fmap. split; [done|].
  rewrite (rep_length _ _ _ _ Hr'), <- Hq2, <- Hmp. split; [|done]. by exists ms, pool'.
Qed.

Lemma holds_first q l : holds q l -> first q = None <-> l = [].
Proof.
  intros (ms & pool & Hr & Hl). rewrite (chain_ptr _ _ _ (rep_first _ _ _ _ Hr)), <- Hl.
  by destruct ms.
Qed.

Lemma holds_length q l : holds q l -> queue_length q = Z.of_nat (length l).
Proof.
  intros (ms & pool & Hr & <-). unfold queue_length. by rewrite (rep_length _ _ _ _ Hr), length_fmap.
Qed.

Lemma holds_zero : holds queue_zero [].
Proof. exists [], []. split; [|done]. split; simpl; try done; try constructor. by intros [? ?].
  by intros ?%not_elem_of_nil. Qed.

(** ** The abstract queue

    What the queue promises to its users: a first-in first-out list of messages. *)

Definition fifo : Type := list (option nat * Z).

(** The wait loop on the abstract queue. *)
Fixpoint fifo_wait (timed : bool) (ret : Z) (waits : list wake) (l : fifo) : outcome (Z * fifo) :=
  match l with
  | _ :: _ => Ret (ret, l)
  | [] =>
      if ret =? ETIMEDOUT then Ret (ret, l)
      else match waits with
           | [] => Blocked
           | w :: waits' =>
               fifo_wait timed (if timed then wake_rc w else ret) waits'
                 ((fun '(_, d, t) => (d, t)) <$> wake_adds w)
           end
  end.

Definition fifo_get (timeout : option (Z * Z)) (now : Z * Z)
    (waits : option (Z * Z) -> list wake) (l : fifo) : outcome (Z * option msg * fifo) :=
  let! (ret, l1) :=
    fifo_wait (match timeout with Some _ => true | None => false end) 0
      (waits (abstimeout now <$> timeout)) l in
  if ret =? ETIMEDOUT then Ret (ret, None, l1)
  else match l1 with
       | [] => Fault
       | (d, t) :: l2 => Ret (0, Some (Msg d t (s32 (Z.of_nat (length l2)))), l2)
       end.

(** A sequence of calls on one queue; allocation succeeds. *)
Inductive op : Type :=
| Add (data : option nat) (msgtype : Z)
| Get (timeout : option (Z * Z)) (now : Z * Z) (waits : option (Z * Z) -> list wake)
| Length.

Inductive result : Type :=
| RCode (rc : Z)
| RGet (rc : Z) (m : option msg)
| RLength (n : Z).

Definition run_op (o : op) (q : queue) : outcome (result * queue) :=
  match o with
  | Add d t => let! (rc, q') := queue_add true q d t in Ret (RCode rc, q')
  | Get timeout now waits =>
      let! (rc, m, q') := queue_get false timeout now waits q in Ret (RGet rc m, q')
  | Length => Ret (RLength (queue_length q), q)
  end.

Definition fifo_op (o : op) (l : fifo) : outcome (result * fifo) :=
  match o with
  | Add d t => Ret (RCode 0, l ++ [(d, t)])
  | Get timeout now waits =>
      let! (rc, m, l') := fifo_get timeout now waits l in Ret (RGet rc m, l')
  | Length => Ret (RLength (Z.of_nat (length l)), l)
  end.

Fixpoint run_ops {S : Type} (run : op -> S -> outcome (result * S)) (ops : list op) (s : S)
    : outcome (list result * S) :=
  match ops with
  | [] => Ret ([], s)
  | o :: ops' =>
      let! (r, s1) := run o s in
      let! (rs, s2) := run_ops run ops' s1 in
      Ret (r :: rs, s2)
  end.

(** The calls whose interleaved additions succeed too. *)
Definition adds_ok (w : wake) : Prop := Forall (fun a => a.1.1 = true) (wake_adds w).
Definition op_ok (o : op) : Prop :=
  match o with
  | Get _ _ waits => forall deadline, Forall adds_ok (waits deadline)
  | _ => True
  end.

(** A concrete outcome implements an abstract one: the same result, and states that agree. *)
Definition implements {A : Type} (c : outcome (A * queue)) (a : outcome (A * fifo)) : Prop :=
  match c, a with
  | Ret (x, q), Ret (y, l) => x = y /\ holds q l
  | Blocked, Blocked => True
  | _, _ => False
  end.

Lemma queue_add_true q d t l :
  holds q l -> exists q', queue_add true q d t = Ret (0, q') /\ holds q' (l ++ [(d, t)]).
Proof.
  intros H. destruct (queue_add_holds true q d t l H) as [(q' & ? & ? & _)|(_ & ? & _)]; [|done].
  eauto.
Qed.

Lemma run_adds_holds adds q l :
  Forall (fun a => a.1.1 = true) adds -> holds q l ->
  exists q', run_adds adds q = Ret q' /\ holds q' (l ++ ((fun '(_, d, t) => (d, t)) <$> adds)).
Proof.
  intros Hok. revert q l. induction Hok as [|[[ok d] t] adds Ha _ IH]; intros q l H.
  - simpl. rewrite app_nil_r. eauto.
  - simpl in Ha. subst ok. destruct (queue_add_true q d t l H) as (q1 & Hq1 & H1).
    destruct (IH q1 _ H1) as (q2 & Hq2 & H2). exists q2. cbn [run_adds]. rewrite Hq1. simpl.
    split; [done|]. by rewrite <- app_assoc in H2.
Qed.

Lemma wait_loop_refines timed ret waits q l :
  Forall adds_ok waits -> holds q l ->
  implements (wait_loop timed ret waits q) (fifo_wait timed ret waits l).
Proof.
  intros Hok. revert ret q l. induction Hok as [|w waits Hw _ IH]; intros ret q l H;
    pose proof (holds_first q l H) as Hf; simpl.
  - destruct l as [|x l], (first q) eqn:E; try naive_solver.
    by destruct (ret =? ETIMEDOUT); [split|].
  - destruct l as [|x l], (first q) eqn:E; try naive_solver.
    destruct (ret =? ETIMEDOUT); [by split|].
    destruct (run_adds_holds _ _ _ Hw H) as (q' & Hq' & H'). rewrite Hq'. simpl.
    by apply IH.
Qed.

Lemma queue_get_refines timeout now waits q l :
  Forall adds_ok (waits (abstimeout now <$> timeout)) -> holds q l ->
  implements (queue_get false timeout now waits q) (fifo_get timeout now waits l).
Proof.
  intros Hok H. unfold queue_get, fifo_get.
  set (timed := match timeout with Some _ => true | None => false end).
  pose proof (wait_loop_refines timed 0 _ _ _ Hok H) as Hw.
  assert (Hne : forall ret l1, fifo_wait timed 0 (waits (abstimeout now <$> timeout)) l = Ret (ret, l1) ->
    ret =? ETIMEDOUT = false -> l1 <> []).
  { clear. generalize 0 as ret0, (waits (abstimeout now <$> timeout)) as ws.
    intros ret0 ws. revert ret0 l. induction ws as [|w ws IH]; intros ret0 [|x l] ret l1; simpl.
    - destruct (ret0 =? ETIMEDOUT) eqn:E; [|done]. intros [= <- <-]. congruence.
    - by intros [= <- <-].
    - destruct (ret0 =? ETIMEDOUT) eqn:E; [|apply IH]. intros [= <- <-]. congruence.
    - by intros [= <- <-]. }
  destruct (wait_loop timed 0 _ q) as [[ret q1]| | |], (fifo_wait timed 0 _ l) as [[ret' l1]| | |];
    simpl in *; try done.
  destruct Hw as [-> H1]. specialize (Hne ret' l1 eq_refl).
  destruct (ret' =? ETIMEDOUT); [done|].
  destruct l1 as [|[d t] l1]; [by destruct Hne|].
  destruct (take_first_holds _ _ _ _ H1) as (q' & Hq' & H' & _). rewrite Hq'. done.
Qed.

Lemma run_op_refines o q l : op_ok o -> holds q l -> implements (run_op o q) (fifo_op o l).
Proof.
  intros Hok H. destruct o as [d t|timeout now waits|]; cbn [run_op fifo_op].
  - destruct (queue_add_true q d t l H) as (q' & -> & H'). done.
  - pose proof (queue_get_refines timeout now waits q l (Hok _) H) as Hg.
    destruct (queue_get _ _ _ _ q) as [[[rc m] q']| | |], (fifo_get _ _ _ l) as [[[rc' m'] l']| | |];
      simpl in *; try done.
    destruct Hg as [Heq Hh]. by simplify_eq.
  - split; [|done]. by rewrite (holds_length q l).
Qed.

Lemma run_ops_refines ops q l :
  Forall op_ok ops -> holds q l -> implements (run_ops run_op ops q) (run_ops fifo_op ops l).
Proof.
  intros Hok. revert q l. induction Hok as [|o ops Ho _ IH]; intros q l H; [done|].
  simpl. pose proof (run_op_refines o q l Ho H) as Hr.
  destruct (run_op o q) as [[r q1]| | |], (fifo_op o l) as [[r' l1]| | |]; simpl in *; try done.
  destruct Hr as [<- H1]. specialize (IH q1 l1 H1).
  destruct (run_ops run_op ops q1) as [[rs q2]| | |], (run_ops fifo_op ops l1) as [[rs' l2]| | |];
    simpl in *; try done.
  by destruct IH as [<- IH].
Qed.

(** *** Allocation and cleanup *)

Lemma rep_heap_size q ms pool :
  rep [] q ms pool -> Z.of_nat (size (heap q)) = q_length q + msgpool_length q.
Proof.
  intros [Hf Hp Hl Hnd Hd Hlen Hplen Hpd]. simpl in *.
  rewrite <- size_dom.
  assert (dom (heap q) = list_to_set (locs ms ++ locs pool)) as ->.
  { apply set_eq. intros a. by rewrite elem_of_dom, Hd, elem_of_list_to_set. }
  rewrite size_list_to_set by done. rewrite length_app, !length_fmap. lia.
Qed.

(** The data pointers [free] is called on for a list of messages. *)
Definition data_of (l : fifo) : list nat := omap fst l.

Lemma cleanup_list_spec fuel fd p q freed l :
  chain (heap q) p l -> NoDup (locs l) -> (length l <= fuel)%nat ->
  exists q', cleanup_list fuel fd p q freed = Ret (q', freed ++ if fd then data_of (payload l) else []) /\
    msgpool q' = msgpool q /\
    (forall a, heap q' !! a = if decide (a ∈ locs l) then None else heap q !! a).
Proof.
  revert fuel p q freed. induction l as [|[a [d t]] l IH]; intros fuel p q freed Hc Hnd Hle.
  - simpl in Hc. subst p. destruct fuel; simpl; (eexists; split; [|split]; [|done|done]);
      destruct fd; simpl; by rewrite app_nil_r.
  - destruct Hc as [-> (nx & Ha & Hc)]. csimpl in *. apply NoDup_cons in Hnd as [Hna Hnd].
    destruct fuel as [|fuel]; [lia|]. simpl. unfold load, free_node. simpl. rewrite Ha. simpl.
    set (freed' := match fd, d with true, Some d0 => freed ++ [d0] | _, _ => freed end).
    destruct (IH fuel nx (set_heap (delete a (heap q)) q) freed') as (q' & Hq' & Hmp & Hh);
      [by apply chain_delete|done|lia|].
    simpl in *. exists q'. rewrite Hq'. split_and!; [|done|].
    + subst freed'. unfold data_of. destruct fd, d; csimpl; by rewrite <- ?app_assoc.
    + intros b. rewrite Hh. destruct (decide (b ∈ locs l)) as [Hb|Hb].
      * rewrite decide_True by set_solver. done.
      * destruct (decide (b = a)) as [->|Hne].
        { rewrite lookup_delete_eq, decide_True by set_solver. done. }
        rewrite lookup_delete_ne by done. rewrite decide_False by set_solver. done.
Qed.

Lemma data_of_pool pool :
  Forall (fun e : entry => e.2 = (None, 0)) pool -> data_of (payload pool) = [].
Proof. induction 1 as [|[a x] pool H _ IH]; [done|]. simpl in H. by subst x. Qed.

(** ** Properties *)

(** C9: the pointer queue is a FIFO.  From [queue_init] on, any sequence of [queue_add],
    [queue_get] (with any timeout, and any wake-ups and concurrent additions while it waits) and
    [queue_length] calls gives the results of the same calls on a list of messages, blocks exactly
    when the list would, and never follows a bad pointer. *)
Theorem queue_is_fifo (ops : list op) :
  Forall op_ok ops ->
  exists q, queue_init false 0 0 = (0, Some q) /\
    implements (run_ops run_op ops q) (run_ops fifo_op ops []).
Proof.
  intros Hok. exists queue_zero. split; [done|].
  by apply run_ops_refines, holds_zero.
Qed.

Lemma queue_is_fifo_witness :
  exists q, queue_init false 0 0 = (0, Some q) /\
    implements
      (run_ops run_op [Add (Some 7%nat) 3; Add None 4; Length; Get None (0, 0) (fun _ => []);
                       Get None (0, 0) (fun _ => []);
                       Get (Some (1, 5)) (10, 20) (fun _ => [Wake 4 []; Wake 0 [(true, Some 8%nat, 5)]])] q)
      (Ret ([RCode 0; RCode 0; RLength 2; RGet 0 (Some (Msg (Some 7%nat) 3 1));
             RGet 0 (Some (Msg None 4 0)); RGet 0 (Some (Msg (Some 8%nat) 5 0))], [])).
Proof.
  apply (queue_is_fifo [Add (Some 7%nat) 3; Add None 4; Length; Get None (0, 0) (fun _ => []);
                       Get None (0, 0) (fun _ => []);
                       Get (Some (1, 5)) (10, 20) (fun _ => [Wake 4 []; Wake 0 [(true, Some 8%nat, 5)]])]).
  repeat constructor.
Defined.

(** [queue_add] without memory.  When [malloc] fails, the message is still queued if the pool
    has a node to reuse; otherwise the call returns [ENOMEM] and leaves the queue as it was. *)
Theorem queue_add_no_memory (q : queue) (d : option nat) (t : Z) (l : list (option nat * Z)) :
  holds q l ->
  if msgpool_length q =? 0 then queue_add false q d t = Ret (ENOMEM, q)
  else exists q', queue_add false q d t = Ret (0, q') /\ holds q' (l ++ [(d, t)]).
Proof.
  intros H. destruct (queue_add_holds false q d t l H) as [(q' & Hq & H' & Hm & _)|(Hq & _ & Hm)].
  - destruct Hm as [|Hm]; [done|]. rewrite (proj2 (Z.eqb_neq _ _) Hm). eauto.
  - by rewrite Hm.
Qed.

Lemma queue_add_no_memory_witness :
  queue_add false queue_zero (Some 1%nat) 2 = Ret (ENOMEM, queue_zero).
Proof. apply (queue_add_no_memory queue_zero (Some 1%nat) 2 [] holds_zero). Defined.

Lemma fifo_wait_timeout timed ret waits l l' :
  fifo_wait timed ret waits l = Ret (ETIMEDOUT, l') ->
  ret = ETIMEDOUT /\ l' = l \/
  l = [] /\ exists w, w ∈ waits /\ wake_rc w = ETIMEDOUT /\
    l' = (fun '(_, d, t) => (d, t)) <$> wake_adds w.
Proof.
  revert ret l. induction waits as [|w waits IH]; intros ret [|x l]; simpl.
  - destruct (Z.eqb_spec ret ETIMEDOUT); [|done]. intros [= <- <-]. by left.
  - intros [= -> <-]. by left.
  - destruct (Z.eqb_spec ret ETIMEDOUT); [intros [= -> <-]; by left|].
    intros H. apply IH in H as [[Hret ->]|(_ & w' & Hw' & Hrc & ->)].
    + right. split; [done|]. destruct timed; [|done].
      exists w. split; [by left|]. done.
    + right. split; [done|]. exists w'. split; [by right|]. done.
  - intros [= -> <-]. by left.
Qed.

(** a timeout loses nothing.  [queue_get] returns [ETIMEDOUT] only from an empty queue whose
    wait reported the timeout; messages that arrived during that last wait stay queued, in order. *)
Theorem queue_get_timeout_keeps_messages (q q' : queue) (l : list (option nat * Z))
    (timeout : option (Z * Z)) (now : Z * Z) (waits : option (Z * Z) -> list wake) (m : option msg) :
  holds q l -> Forall adds_ok (waits (abstimeout now <$> timeout)) ->
  queue_get false timeout now waits q = Ret (ETIMEDOUT, m, q') ->
  m = None /\ l = [] /\
  exists w, w ∈ waits (abstimeout now <$> timeout) /\ wake_rc w = ETIMEDOUT /\
    holds q' ((fun '(_, d, t) => (d, t)) <$> wake_adds w).
Proof.
  intros H Hok Hget. pose proof (queue_get_refines timeout now waits q l Hok H) as Hr.
  rewrite Hget in Hr. unfold fifo_get in Hr.
  destruct (fifo_wait _ 0 _ l) as [[ret l1]| | |] eqn:E; simpl in Hr; try done.
  destruct (Z.eqb_spec ret ETIMEDOUT) as [->|Hne].
  - destruct Hr as [Heq Hh]. apply fifo_wait_timeout in E as [[? _]|(-> & w & ? & ? & ->)]; [done|].
    simplify_eq. eauto 10.
  - destruct l1 as [|[d t] l1]; [done|]. destruct Hr as [Heq _]. by simplify_eq.
Qed.

Lemma queue_get_timeout_keeps_messages_witness :
  let w := Wake ETIMEDOUT [(true, Some 8%nat, 5)] in
  exists q', queue_get false (Some (0, 0)) (0, 0) (fun _ => [w]) queue_zero = Ret (ETIMEDOUT, None, q') /\
    exists w', w' ∈ [w] /\ wake_rc w' = ETIMEDOUT /\
      holds q' ((fun '(_, d, t) => (d, t)) <$> wake_adds w').
Proof.
  intros w. eexists. split; [reflexivity|].
  refine (proj2 (proj2 (queue_get_timeout_keeps_messages queue_zero _ [] (Some (0, 0)) (0, 0)
    (fun _ => [w]) None holds_zero _ _))); [repeat constructor|reflexivity].
Defined.

(** the node cache is bounded.  Every allocated node is a queued message or a cached one; taking
    a message leaves the cache within [length/8 + 257] nodes or no larger than it was, and shrinks
    it by one when it is above [length/4 + 2560]. *)
Theorem queue_get_bounds_pool (q : queue) (d : option nat) (t : Z) (l : list (option nat * Z))
    (now : Z * Z) (waits : option (Z * Z) -> list wake) :
  holds q ((d, t) :: l) ->
  exists q', queue_get false None now waits q = Ret (0, Some (Msg d t (s32 (Z.of_nat (length l)))), q') /\
    let n := Z.of_nat (length l) in
    Z.of_nat (size (heap q')) = n + msgpool_length q' /\
    msgpool_length q' <= Z.max (msgpool_length q) (n / 8 + 257) /\
    (n / 4 + 2560 < msgpool_length q -> msgpool_length q' = msgpool_length q - 1).
Proof.
  intros H. destruct (take_first_holds q d t l H) as (q' & Htake & H' & Hb1 & Hb2).
  exists q'. unfold queue_get. destruct (first q) eqn:E.
  2:{ by apply (holds_first _ _ H) in E. }
  split; [by destruct (waits _); simpl; rewrite E|].
  simpl. rewrite <- (holds_length q' l H'). unfold queue_length, MSGPOOL_SIZE in *.
  destruct H' as (ms & pool & Hr & _). rewrite (rep_heap_size _ _ _ Hr). split_and!; lia.
Qed.

Lemma queue_get_bounds_pool_witness :
  exists q q', queue_add true queue_zero (Some 1%nat) 2 = Ret (0, q) /\
    queue_get false None (0, 0) (fun _ => []) q = Ret (0, Some (Msg (Some 1%nat) 2 0), q') /\
    Z.of_nat (size (heap q')) = msgpool_length q'.
Proof.
  destruct (queue_add_true queue_zero (Some 1%nat) 2 [] holds_zero) as (q & Hq & H).
  destruct (queue_get_bounds_pool q (Some 1%nat) 2 [] (0, 0) (fun _ => []) H)
    as (q' & Hq' & Hsize & _).
  exists q, q'. split; [exact Hq|]. split; [exact Hq'|exact Hsize].
Defined.

(** C21: [queue_cleanup] frees every node exactly once, and with [freedata] the data of exactly the
    pending messages, in order; it returns the code of [pthread_mutex_destroy]. *)
Theorem queue_cleanup_frees_all (q : queue) (l : list (option nat * Z)) (freedata : bool) (rc : Z) :
  holds q l ->
  exists q', queue_cleanup false freedata rc q =
    Ret (rc, q', if freedata then omap fst l else []) /\ heap q' = ∅.
Proof.
  intros (ms & pool & Hr & <-). pose proof (rep_heap_size _ _ _ Hr) as Hsz.
  destruct Hr as [Hf Hp Hl Hnd Hd Hlen Hplen Hpd]. simpl in Hnd, Hd.
  apply NoDup_app in Hnd as (Hnd1 & Hdisj & Hnd2).
  destruct (cleanup_list_spec (size (heap q)) freedata (first q) q [] ms) as (q1 & E1 & Hmp & Hh1);
    [done|done|lia|].
  set (f1 := [] ++ if freedata then data_of (payload ms) else []) in E1.
  destruct (cleanup_list_spec (size (heap q)) freedata (msgpool q) q1 f1 pool) as (q2 & E2 & _ & Hh2).
  { apply (chain_frame (heap q)); [|done]. intros a Ha. rewrite Hh1, decide_False; [done|].
    intros Ha'. by apply (Hdisj a). }
  { done. } { lia. }
  exists q2. unfold queue_cleanup. rewrite E1. cbn [obind]. rewrite E2. cbn [obind]. split.
  - subst f1. rewrite (data_of_pool pool Hpd). unfold data_of. simpl.
    destruct freedata; by rewrite app_nil_r.
  - apply map_eq. intros a. rewrite lookup_empty, Hh2, Hh1.
    destruct (decide (a ∈ locs pool)); [done|]. destruct (decide (a ∈ locs ms)); [done|].
    apply eq_None_not_Some. rewrite Hd, elem_of_app. tauto.
Qed.

Lemma queue_cleanup_frees_all_witness :
  exists q, queue_add true queue_zero (Some 1%nat) 2 = Ret (0, q) /\
  exists q', queue_cleanup false true 0 q = Ret (0, q', [1%nat]) /\ heap q' = ∅.
Proof.
  destruct (queue_add_true queue_zero (Some 1%nat) 2 [] holds_zero) as (q & Hq & H).
  exists q. split; [exact Hq|].
  apply (queue_cleanup_frees_all q [(Some 1%nat, 2)] true 0 H).
Defined.
