(* ===== verification/QueueApi.v ===== *)
(** * QueueApi: what the event queue promises to the program

    The class [MsgQueue] is the interface of queue.h the program uses: adding a message, taking the
    oldest one without a timeout and reading the length, with the laws its theorems are proved from.
    The instance [queue_c] is the pointer queue of queue.c. *)

From Stdlib Require Import ZArith Lia.
From stdpp Require Import base tactics numbers list gmap.
From S2P Require Import Prelude Queue.

Class MsgQueue (Q : Type) : Type := {
  mq_add : bool -> Q -> option nat -> Z -> outcome (Z * Q);
  mq_get : Q -> outcome (Z * option msg * Q);
  mq_length : Q -> Z;
  mq_holds : Q -> fifo -> Prop;
  mq_add_law : forall ok q d t l, mq_holds q l ->
    (exists q', mq_add ok q d t = Ret (0, q') /\ mq_holds q' (l ++ [(d, t)])) \/
    (ok = false /\ exists q', mq_add ok q d t = Ret (ENOMEM, q') /\ mq_holds q' l);
  mq_get_law : forall q d t l, mq_holds q ((d, t) :: l) ->
    exists q' n, mq_get q = Ret (0, Some (Msg d t n), q') /\ mq_holds q' l;
  mq_length_law : forall q l, mq_holds q l -> mq_length q = Z.of_nat (length l)
}.

(** The queue of queue.c. [queue_get] is called with no timeout; nobody adds while it waits, so that
    it blocks for ever on an empty queue. *)
#[export] Program Instance queue_c : MsgQueue queue := {
  mq_add := queue_add;
  mq_get := queue_get false None (0, 0) (fun _ => []);
  mq_length := queue_length;
  mq_holds := holds
}.
Next Obligation.
  intros ok q d t l H. destruct (queue_add_holds ok q d t l H) as [(q' & E & H' & _)|(E & -> & _)].
  - left. eauto.
  - right. split; [done|]. exists q. done.
Qed.
Next Obligation.
  intros q d t l H.
  pose proof (queue_get_refines None (0, 0) (fun _ => []) q _ (Forall_nil_2 _) H) as Hg.
  destruct (queue_get false None (0, 0) (fun _ => []) q) as [[x q']| | |] eqn:E; simpl in Hg; try done.
  destruct Hg as [-> Hh]. eauto.
Qed.
Next Obligation. intros q l H. by apply holds_length. Qed.
