(* ===== verification/Telnet.v ===== *)
(** * Telnet: the protocol library telnet.c and telnet.h, state and negotiation

    The state tracker [telnet_t], its events, the RFC 1143 option table and the negotiation routines,
    and the sending side.  A routine is a computation of the monad [tm]: it reads and changes the
    tracker and emits events, in order, for the event handler. *)

From Stdlib Require Import ZArith Lia String.
From stdpp Require Import base tactics numbers list.
From S2P Require Import Prelude.

(** ** Protocol constants (telnet.h) *)

Definition TELNET_IAC : Z := 255.
Definition TELNET_DONT : Z := 254.
Definition TELNET_DO : Z := 253.
Definition TELNET_WONT : Z := 252.
Definition TELNET_WILL : Z := 251.
Definition TELNET_SB : Z := 250.
Definition TELNET_SE : Z := 240.

Definition TELNET_TELOPT_ECHO : Z := 1.
Definition TELNET_TELOPT_TTYPE : Z := 24.
Definition TELNET_TELOPT_ENVIRON : Z := 36.
Definition TELNET_TELOPT_NEW_ENVIRON : Z := 39.
Definition TELNET_TELOPT_MSSP : Z := 70.
Definition TELNET_TELOPT_COMPRESS : Z := 85.
Definition TELNET_TELOPT_COMPRESS2 : Z := 86.
Definition TELNET_TELOPT_ZMP : Z := 93.

Definition TELNET_TTYPE_IS : Z := 0.
Definition TELNET_TTYPE_SEND : Z := 1.

Definition TELNET_ENVIRON_IS : Z := 0.
Definition TELNET_ENVIRON_SEND : Z := 1.
Definition TELNET_ENVIRON_INFO : Z := 2.
Definition TELNET_ENVIRON_VAR : Z := 0.
Definition TELNET_ENVIRON_VALUE : Z := 1.
Definition TELNET_ENVIRON_ESC : Z := 2.
Definition TELNET_ENVIRON_USERVAR : Z := 3.

Definition TELNET_MSSP_VAR : Z := 1.
Definition TELNET_MSSP_VAL : Z := 2.

Definition TELNET_FLAG_PROXY : Z := 1.

Inductive telnet_error_t : Type :=
| TELNET_EOK
| TELNET_EBADVAL
| TELNET_ENOMEM
| TELNET_EOVERFLOW
| TELNET_EPROTOCOL
| TELNET_ECOMPRESS.

(** [struct telnet_environ_t]: the strings as the handler reads them, [None] for NULL. *)
Record telnet_environ_t : Type := Environ {
  env_type : Z;
  env_var : option (list Z);
  env_value : option (list Z)
}.

(** Where the bytes of a data event lie: in the buffer given to [telnet_recv], at an offset of its
    array, or in a local variable that holds one byte. *)
Inductive source : Type :=
| SrcBuffer (base : nat)
| SrcByte (b : Z).

(** [telnet_event_t].  A data event carries the source, the offset in it and the [size_t] size; an
    error event the function, the code passed to [_error] (which does not store it in the event) and
    the format string. *)
Inductive telnet_event_t : Type :=
| TELNET_EV_DATA (src : source) (off : Z) (size : Z)
| TELNET_EV_SEND (bytes : list Z)
| TELNET_EV_IAC (cmd : Z)
| TELNET_EV_WILL (telopt : Z)
| TELNET_EV_WONT (telopt : Z)
| TELNET_EV_DO (telopt : Z)
| TELNET_EV_DONT (telopt : Z)
| TELNET_EV_SUBNEGOTIATION (telopt : Z) (bytes : list Z)
| TELNET_EV_ZMP (argv : list (list Z))
| TELNET_EV_TTYPE (cmd : Z) (name : option (list Z))
| TELNET_EV_ENVIRON (cmd : Z) (values : list telnet_environ_t)
| TELNET_EV_MSSP (values : list telnet_environ_t)
| TELNET_EV_WARNING (func : string) (err : telnet_error_t) (msg : string)
| TELNET_EV_ERROR (func : string) (err : telnet_error_t) (msg : string).

(** ** The state tracker *)

Inductive telnet_state_t : Type :=
| TELNET_STATE_DATA
| TELNET_STATE_IAC
| TELNET_STATE_WILL
| TELNET_STATE_WONT
| TELNET_STATE_DO
| TELNET_STATE_DONT
| TELNET_STATE_SB
| TELNET_STATE_SB_DATA
| TELNET_STATE_SB_DATA_IAC.

#[global] Instance telnet_state_t_eq_dec : EqDecision telnet_state_t.
Proof. solve_decision. Defined.

Record telnet_telopt_t : Type := Telopt {
  to_telopt : Z;
  to_us : Z;
  to_him : Z
}.

Record telnet_rfc1143_t : Type := Rfc1143 {
  rq_telopt : Z;
  rq_state : Z
}.

(** [struct telnet_t] without the event handler and its user data, which the monad stands for.
    [t_buffer] is the whole allocated block; the bytes in use are the first [t_buffer_pos].  The last
    two fields are not in the code: [t_mallocs] lists whether the next allocation calls succeed, and an
    empty list means that they all do; [t_faults] counts the accesses outside of the block, after which
    the behaviour of the code is undefined. *)
Record telnet_t : Type := Telnet {
  t_telopts : option (list telnet_telopt_t);
  t_q : list telnet_rfc1143_t;
  t_buffer : list Z;
  t_buffer_size : Z;
  t_buffer_pos : Z;
  t_state : telnet_state_t;
  t_flags : Z;
  t_sb_telopt : Z;
  t_q_size : Z;
  t_mallocs : list bool;
  t_faults : nat
}.

Definition set_q (q : list telnet_rfc1143_t) (n : Z) (t : telnet_t) : telnet_t :=
  Telnet (t_telopts t) q (t_buffer t) (t_buffer_size t) (t_buffer_pos t) (t_state t) (t_flags t)
    (t_sb_telopt t) n (t_mallocs t) (t_faults t).
Definition set_buffer (b : list Z) (size pos : Z) (t : telnet_t) : telnet_t :=
  Telnet (t_telopts t) (t_q t) b size pos (t_state t) (t_flags t) (t_sb_telopt t) (t_q_size t)
    (t_mallocs t) (t_faults t).
Definition set_state (s : telnet_state_t) (t : telnet_t) : telnet_t :=
  Telnet (t_telopts t) (t_q t) (t_buffer t) (t_buffer_size t) (t_buffer_pos t) s (t_flags t)
    (t_sb_telopt t) (t_q_size t) (t_mallocs t) (t_faults t).
Definition set_sb_telopt (o : Z) (t : telnet_t) : telnet_t :=
  Telnet (t_telopts t) (t_q t) (t_buffer t) (t_buffer_size t) (t_buffer_pos t) (t_state t)
    (t_flags t) o (t_q_size t) (t_mallocs t) (t_faults t).
Definition set_mallocs (m : list bool) (t : telnet_t) : telnet_t :=
  Telnet (t_telopts t) (t_q t) (t_buffer t) (t_buffer_size t) (t_buffer_pos t) (t_state t)
    (t_flags t) (t_sb_telopt t) (t_q_size t) m (t_faults t).
Definition add_fault (t : telnet_t) : telnet_t :=
  Telnet (t_telopts t) (t_q t) (t_buffer t) (t_buffer_size t) (t_buffer_pos t) (t_state t)
    (t_flags t) (t_sb_telopt t) (t_q_size t) (t_mallocs t) (S (t_faults t)).

(** [telnet_init], when [calloc] succeeds. *)
Definition telnet_init (telopts : option (list telnet_telopt_t)) (flags : Z) (mallocs : list bool)
    : telnet_t :=
  Telnet telopts [] [] 0 0 TELNET_STATE_DATA (u8 flags) 0 0 mallocs 0.

(** ** The monad of the library's routines *)

Definition tm (A : Type) : Type := telnet_t -> A * telnet_t * list telnet_event_t.

Definition tret {A : Type} (a : A) : tm A := fun t => (a, t, []).
Definition tbind {A B : Type} (m : tm A) (k : A -> tm B) : tm B :=
  fun t =>
    let '(a, t1, e1) := m t in
    let '(b, t2, e2) := k a t1 in
    (b, t2, e1 ++ e2).
Definition tget : tm telnet_t := fun t => (t, t, []).
Definition tmod (f : telnet_t -> telnet_t) : tm unit := fun t => (tt, f t, []).
Definition emit (e : telnet_event_t) : tm unit := fun t => (tt, t, [e]).

(** Go on with a result, or note that an access was outside of its block. *)
Definition tlift {A : Type} (o : outcome A) (k : A -> tm Z) : tm Z :=
  match o with Ret a => k a | _ => tbind (tmod add_fault) (fun _ => tret 0) end.

Notation "'let*' x ':=' m 'in' k" := (tbind m (fun x => k))
  (at level 10, x pattern, m at level 100, k at level 200) : siproxy_scope.
Notation "m ;;; k" := (tbind m (fun _ => k)) (at level 100, right associativity) : siproxy_scope.

Definition the_state {A : Type} (r : A * telnet_t * list telnet_event_t) : telnet_t := snd (fst r).
Definition the_events {A : Type} (r : A * telnet_t * list telnet_event_t) : list telnet_event_t :=
  snd r.

(** Whether the next allocation succeeds. *)
Definition malloc : tm bool := fun t =>
  match t_mallocs t with
  | [] => (true, t, [])
  | ok :: m => (ok, set_mallocs m t, [])
  end.

(** [_error]: format the text and send the event to the user. *)
Definition error (func : string) (err : telnet_error_t) (fatal : bool) (msg : string)
    : tm telnet_error_t :=
  emit (if fatal then TELNET_EV_ERROR func err msg else TELNET_EV_WARNING func err msg) ;;;
  tret err.

(** [_send]: push bytes out. *)
Definition send (bytes : list Z) : tm unit := emit (TELNET_EV_SEND bytes).

(** ** RFC 1143 option states *)

Definition Q_NO : Z := 0.
Definition Q_YES : Z := 1.
Definition Q_WANTNO : Z := 2.
Definition Q_WANTYES : Z := 3.
Definition Q_WANTNO_OP : Z := 4.
Definition Q_WANTYES_OP : Z := 5.

Definition Q_US (q : telnet_rfc1143_t) : Z := Z.land (rq_state q) 15.
Definition Q_HIM (q : telnet_rfc1143_t) : Z := Z.shiftr (Z.land (rq_state q) 240) 4.
Definition Q_MAKE (us him : Z) : Z := Z.lor us (Z.shiftl him 4).

(** [_check_telopt].  A table ends with the marker [-1]; the end of the list stands for it. *)
Fixpoint check_telopts (telopts : list telnet_telopt_t) (telopt : Z) (us : bool) : bool :=
  match telopts with
  | [] => false
  | e :: telopts' =>
      if to_telopt e =? -1 then false
      else if to_telopt e =? telopt then
        if us && (to_us e =? TELNET_WILL) then true
        else if negb us && (to_him e =? TELNET_DO) then true
        else false
      else check_telopts telopts' telopt us
  end.

Definition check_telopt (t : telnet_t) (telopt : Z) (us : bool) : bool :=
  match t_telopts t with
  | None => false
  | Some telopts => check_telopts telopts telopt us
  end.

(** The search loops over the first [q_size] entries. *)
Fixpoint q_find (q : list telnet_rfc1143_t) (telopt : Z) : option nat :=
  match q with
  | [] => None
  | e :: q' => if rq_telopt e =? telopt then Some O else S <$> q_find q' telopt
  end.

Definition q_entries (t : telnet_t) : list telnet_rfc1143_t := take (Z.to_nat (t_q_size t)) (t_q t).

(** [_get_rfc1143]. *)
Definition get_rfc1143 (t : telnet_t) (telopt : Z) : telnet_rfc1143_t :=
  match q_find (q_entries t) telopt with
  | Some i => default (Rfc1143 telopt 0) (t_q t !! i)
  | None => Rfc1143 telopt 0
  end.

(** [_set_rfc1143].  The table grows by four entries; its size is an [unsigned char]. *)
Definition set_rfc1143 (telopt us him : Z) : tm unit :=
  let* t := tget in
  match q_find (q_entries t) telopt with
  | Some i =>
      tmod (set_q (<[i := Rfc1143 telopt (u8 (Q_MAKE us him))]> (t_q t)) (t_q_size t))
  | None =>
      let* ok := malloc in
      if ok : bool then
        tmod (set_q (q_entries t ++ [Rfc1143 telopt (u8 (Q_MAKE us him));
                                     Rfc1143 0 0; Rfc1143 0 0; Rfc1143 0 0])
                    (u8 (t_q_size t + 4)))
      else
        error "_set_rfc1143" TELNET_ENOMEM false "realloc() failed: %s" ;;; tret tt
  end.

(** [_send_negotiate]. *)
Definition send_negotiate (cmd telopt : Z) : tm unit := send [TELNET_IAC; cmd; telopt].

(** [_negotiate]: what a WILL, WONT, DO or DONT from the peer does. *)
Definition negotiate (telopt : Z) : tm unit :=
  let* t := tget in
  if negb (Z.land (t_flags t) TELNET_FLAG_PROXY =? 0) then
    match t_state t with
    | TELNET_STATE_WILL => emit (TELNET_EV_WILL telopt)
    | TELNET_STATE_WONT => emit (TELNET_EV_WONT telopt)
    | TELNET_STATE_DO => emit (TELNET_EV_DO telopt)
    | TELNET_STATE_DONT => emit (TELNET_EV_DONT telopt)
    | _ => tret tt
    end
  else
    let q := get_rfc1143 t telopt in
    match t_state t with
    | TELNET_STATE_WILL =>
        if Q_HIM q =? Q_NO then
          if check_telopt t telopt false then
            set_rfc1143 telopt (Q_US q) Q_YES ;;;
            send_negotiate TELNET_DO telopt ;;;
            emit (TELNET_EV_WILL telopt)
          else send_negotiate TELNET_DONT telopt
        else if Q_HIM q =? Q_WANTNO then
          set_rfc1143 telopt (Q_US q) Q_NO ;;;
          emit (TELNET_EV_WONT telopt) ;;;
          error "_negotiate" TELNET_EPROTOCOL false "DONT answered by WILL" ;;; tret tt
        else if Q_HIM q =? Q_WANTNO_OP then
          set_rfc1143 telopt (Q_US q) Q_YES ;;;
          emit (TELNET_EV_WILL telopt) ;;;
          error "_negotiate" TELNET_EPROTOCOL false "DONT answered by WILL" ;;; tret tt
        else if Q_HIM q =? Q_WANTYES then
          set_rfc1143 telopt (Q_US q) Q_YES ;;;
          emit (TELNET_EV_WILL telopt)
        else if Q_HIM q =? Q_WANTYES_OP then
          set_rfc1143 telopt (Q_US q) Q_WANTNO ;;;
          send_negotiate TELNET_DONT telopt ;;;
          emit (TELNET_EV_WILL telopt)
        else tret tt
    | TELNET_STATE_WONT =>
        if Q_HIM q =? Q_YES then
          set_rfc1143 telopt (Q_US q) Q_NO ;;;
          send_negotiate TELNET_DONT telopt ;;;
          emit (TELNET_EV_WONT telopt)
        else if Q_HIM q =? Q_WANTNO then
          set_rfc1143 telopt (Q_US q) Q_NO ;;;
          emit (TELNET_EV_WONT telopt)
        else if Q_HIM q =? Q_WANTNO_OP then
          set_rfc1143 telopt (Q_US q) Q_WANTYES ;;;
          emit (TELNET_EV_DO telopt)
        else if (Q_HIM q =? Q_WANTYES) || (Q_HIM q =? Q_WANTYES_OP) then
          set_rfc1143 telopt (Q_US q) Q_NO
        else tret tt
    | TELNET_STATE_DO =>
        if Q_US q =? Q_NO then
          if check_telopt t telopt true then
            set_rfc1143 telopt Q_YES (Q_HIM q) ;;;
            send_negotiate TELNET_WILL telopt ;;;
            emit (TELNET_EV_DO telopt)
          else send_negotiate TELNET_WONT telopt
        else if Q_US q =? Q_WANTNO then
          set_rfc1143 telopt Q_NO (Q_HIM q) ;;;
          emit (TELNET_EV_DONT telopt) ;;;
          error "_negotiate" TELNET_EPROTOCOL false "WONT answered by DO" ;;; tret tt
        else if Q_US q =? Q_WANTNO_OP then
          set_rfc1143 telopt Q_YES (Q_HIM q) ;;;
          emit (TELNET_EV_DO telopt) ;;;
          error "_negotiate" TELNET_EPROTOCOL false "WONT answered by DO" ;;; tret tt
        else if Q_US q =? Q_WANTYES then
          set_rfc1143 telopt Q_YES (Q_HIM q) ;;;
          emit (TELNET_EV_DO telopt)
        else if Q_US q =? Q_WANTYES_OP then
          set_rfc1143 telopt Q_WANTNO (Q_HIM q) ;;;
          send_negotiate TELNET_WONT telopt ;;;
          emit (TELNET_EV_DO telopt)
        else tret tt
    | TELNET_STATE_DONT =>
        if Q_US q =? Q_YES then
          set_rfc1143 telopt Q_NO (Q_HIM q) ;;;
          send_negotiate TELNET_WONT telopt ;;;
          emit (TELNET_EV_DONT telopt)
        else if Q_US q =? Q_WANTNO then
          set_rfc1143 telopt Q_NO (Q_HIM q) ;;;
          emit (TELNET_EV_WONT telopt)
        else if Q_US q =? Q_WANTNO_OP then
          set_rfc1143 telopt Q_WANTYES (Q_HIM q) ;;;
          send_negotiate TELNET_WILL telopt ;;;
          emit (TELNET_EV_WILL telopt)
        else if (Q_US q =? Q_WANTYES) || (Q_US q =? Q_WANTYES_OP) then
          set_rfc1143 telopt Q_NO (Q_HIM q)
        else tret tt
    | _ => tret tt
    end.

(** [telnet_negotiate]: the local side asks for a change. *)
Definition telnet_negotiate (cmd telopt : Z) : tm unit :=
  let* t := tget in
  if negb (Z.land (t_flags t) TELNET_FLAG_PROXY =? 0) then send [TELNET_IAC; cmd; telopt]
  else
    let q := get_rfc1143 t telopt in
    if cmd =? TELNET_WILL then
      if Q_US q =? Q_NO then
        set_rfc1143 telopt Q_WANTYES (Q_HIM q) ;;; send_negotiate TELNET_WILL telopt
      else if Q_US q =? Q_WANTNO then set_rfc1143 telopt Q_WANTNO_OP (Q_HIM q)
      else if Q_US q =? Q_WANTYES_OP then set_rfc1143 telopt Q_WANTYES (Q_HIM q)
      else tret tt
    else if cmd =? TELNET_WONT then
      if Q_US q =? Q_YES then
        set_rfc1143 telopt Q_WANTNO (Q_HIM q) ;;; send_negotiate TELNET_WONT telopt
      else if Q_US q =? Q_WANTYES then set_rfc1143 telopt Q_WANTYES_OP (Q_HIM q)
      else if Q_US q =? Q_WANTNO_OP then set_rfc1143 telopt Q_WANTNO (Q_HIM q)
      else tret tt
    else if cmd =? TELNET_DO then
      if Q_HIM q =? Q_NO then
        set_rfc1143 telopt (Q_US q) Q_WANTYES ;;; send_negotiate TELNET_DO telopt
      else if Q_HIM q =? Q_WANTNO then set_rfc1143 telopt (Q_US q) Q_WANTNO_OP
      else if Q_HIM q =? Q_WANTYES_OP then set_rfc1143 telopt (Q_US q) Q_WANTYES
      else tret tt
    else if cmd =? TELNET_DONT then
      if Q_HIM q =? Q_YES then
        set_rfc1143 telopt (Q_US q) Q_WANTNO ;;; send_negotiate TELNET_DONT telopt
      else if Q_HIM q =? Q_WANTYES then set_rfc1143 telopt (Q_US q) Q_WANTYES_OP
      else if Q_HIM q =? Q_WANTNO_OP then set_rfc1143 telopt (Q_US q) Q_WANTNO
      else tret tt
    else tret tt.

(** ** The sending side *)

(** [telnet_iac]: send an IAC command. *)
Definition telnet_iac (cmd : Z) : tm unit := send [TELNET_IAC; cmd].

(** The bytes of [buffer] from [l] up to [i]. *)
Definition slice (buffer : list Z) (l i : nat) : list Z := take (i - l) (drop l buffer).

(** Send [buffer + l .. buffer + i], if it is not empty. *)
Definition send_pending (buffer : list Z) (l i : nat) : tm unit :=
  if bool_decide (i = l) then tret tt else send (slice buffer l i).

(** [telnet_send]: the loop keeps the first byte [l] not sent yet; [rest] is [buffer + i]. *)
Fixpoint telnet_send_loop (buffer rest : list Z) (i l : nat) : tm unit :=
  match rest with
  | [] => send_pending buffer l i
  | b :: rest' =>
      if b =? TELNET_IAC then
        send_pending buffer l i ;;;
        telnet_iac TELNET_IAC ;;;
        telnet_send_loop buffer rest' (S i) (S i)
      else telnet_send_loop buffer rest' (S i) l
  end.

Definition telnet_send (buffer : list Z) : tm unit := telnet_send_loop buffer buffer 0 0.

Definition telnet_begin_sb (telopt : Z) : tm unit := send [TELNET_IAC; TELNET_SB; telopt].

(** [telnet_finish_sb], a macro of telnet.h. *)
Definition telnet_finish_sb : tm unit := telnet_iac TELNET_SE.

Definition telnet_subnegotiation (telopt : Z) (buffer : list Z) : tm unit :=
  send [TELNET_IAC; TELNET_SB; telopt] ;;;
  telnet_send buffer ;;;
  send [TELNET_IAC; TELNET_SE].

(** The sending loop of [telnet_vprintf], on the formatted text. *)
Fixpoint telnet_vprintf_loop (output rest : list Z) (i l : nat) : tm unit :=
  match rest with
  | [] => send_pending output l i
  | b :: rest' =>
      if (b =? TELNET_IAC) || (b =? 13) || (b =? 10) then
        send_pending output l i ;;;
        (if b =? TELNET_IAC then telnet_iac TELNET_IAC
         else if b =? 13 then send [13; 0]
         else if b =? 10 then send [13; 10]
         else tret tt) ;;;
        telnet_vprintf_loop output rest' (S i) (S i)
      else telnet_vprintf_loop output rest' (S i) l
  end.

(** [telnet_vprintf] and [telnet_raw_vprintf] once [vsnprintf] has made [output]; a text of 1024
    bytes or more needs an allocation.  The result is the returned length, or -1. *)
Definition telnet_vprintf (output : list Z) : tm Z :=
  let* ok := if bool_decide (1024 <= length output)%nat then malloc else tret true in
  if ok : bool then
    telnet_vprintf_loop output output 0 0 ;;; tret (Z.of_nat (length output))
  else
    error "telnet_vprintf" TELNET_ENOMEM false "malloc() failed: %s" ;;; tret (-1).

Definition telnet_raw_vprintf (output : list Z) : tm Z :=
  let* ok := if bool_decide (1024 <= length output)%nat then malloc else tret true in
  if ok : bool then telnet_send output ;;; tret (Z.of_nat (length output))
  else
    error "telnet_raw_vprintf" TELNET_ENOMEM false "malloc() failed: %s" ;;; tret (-1).

Definition telnet_begin_newenviron (cmd : Z) : tm unit :=
  telnet_begin_sb TELNET_TELOPT_NEW_ENVIRON ;;; telnet_send [cmd].

Definition telnet_newenviron_value (type : Z) (string : option (list Z)) : tm unit :=
  telnet_send [type] ;;;
  match string with Some s => telnet_send s | None => tret tt end.

Definition telnet_ttype_send : tm unit :=
  send [TELNET_IAC; TELNET_SB; TELNET_TELOPT_TTYPE; TELNET_TTYPE_SEND; TELNET_IAC; TELNET_SE].

Definition telnet_ttype_is (ttype : list Z) : tm unit :=
  send [TELNET_IAC; TELNET_SB; TELNET_TELOPT_TTYPE; TELNET_TTYPE_IS] ;;;
  send ttype ;;;
  telnet_finish_sb.

(** A ZMP argument is sent with its terminating NUL. *)
Definition telnet_zmp_arg (arg : list Z) : tm unit := telnet_send (arg ++ [0]).

Definition telnet_begin_zmp (cmd : list Z) : tm unit :=
  telnet_begin_sb TELNET_TELOPT_ZMP ;;; telnet_zmp_arg cmd.

Fixpoint telnet_zmp_args (args : list (list Z)) : tm unit :=
  match args with
  | [] => tret tt
  | a :: args' => telnet_zmp_arg a ;;; telnet_zmp_args args'
  end.

(** [telnet_send_zmp] with [argv[0]] and the other arguments. *)
Definition telnet_send_zmp (argv0 : list Z) (args : list (list Z)) : tm unit :=
  telnet_begin_zmp argv0 ;;; telnet_zmp_args args ;;; telnet_finish_sb.

(** [telnet_send_vzmpv]: the arguments up to the NULL that ends them. *)
Definition telnet_send_vzmpv (args : list (list Z)) : tm unit :=
  telnet_begin_sb TELNET_TELOPT_ZMP ;;; telnet_zmp_args args ;;; telnet_finish_sb.

(** ** What is sent *)

(** The bytes that a list of events puts on the wire. *)
Definition sent_bytes (evs : list telnet_event_t) : list Z :=
  evs ≫= fun e => match e with TELNET_EV_SEND bs => bs | _ => [] end.

Definition is_send (e : telnet_event_t) : Prop :=
  match e with TELNET_EV_SEND _ => True | _ => False end.

(** A routine that only sends: the tracker does not change and the bytes are [bytes]. *)
Definition sends (m : tm unit) (bytes : list Z) : Prop :=
  forall t, exists evs, m t = (tt, t, evs) /\ Forall is_send evs /\ sent_bytes evs = bytes.

Lemma sent_bytes_app a b : sent_bytes (a ++ b) = sent_bytes a ++ sent_bytes b.
Proof. unfold sent_bytes. apply bind_app. Qed.

Lemma sends_ret : sends (tret tt) [].
Proof. intros t. exists []. done. Qed.

Lemma sends_send bs : sends (send bs) bs.
Proof.
  intros t. exists [TELNET_EV_SEND bs]. split; [done|]. split; [by repeat constructor|].
  unfold sent_bytes. simpl. apply app_nil_r.
Qed.

Lemma sends_iac cmd : sends (telnet_iac cmd) [TELNET_IAC; cmd].
Proof. apply sends_send. Qed.

Lemma sends_bind m k a b : sends m a -> sends k b -> sends (m ;;; k) (a ++ b).
Proof.
  intros Hm Hk t. destruct (Hm t) as (e1 & E1 & F1 & S1), (Hk t) as (e2 & E2 & F2 & S2).
  exists (e1 ++ e2). unfold tbind. rewrite E1, E2.
  split; [done|]. split; [by apply Forall_app|]. by rewrite sent_bytes_app, S1, S2.
Qed.

#[export] Hint Resolve sends_ret sends_send sends_iac sends_bind : siproxy.

Lemma sends_pending buffer l i : sends (send_pending buffer l i) (slice buffer l i).
Proof.
  unfold send_pending, slice. case_bool_decide as H; [|auto with siproxy].
  subst. rewrite Nat.sub_diag. simpl. auto with siproxy.
Qed.
#[export] Hint Resolve sends_pending : siproxy.

(** One byte of data on the wire. *)
Definition escape (b : Z) : list Z := if b =? TELNET_IAC then [TELNET_IAC; TELNET_IAC] else [b].

Lemma slice_snoc buffer l i b rest :
  drop i buffer = b :: rest -> (l <= i)%nat -> slice buffer l (S i) = slice buffer l i ++ [b].
Proof.
  intros Hd Hl. unfold slice.
  replace (S i - l)%nat with (S (i - l)) by lia.
  assert (Hb : drop l buffer !! (i - l)%nat = Some b).
  { rewrite lookup_drop. replace (l + (i - l))%nat with (i + 0)%nat by lia.
    rewrite <- lookup_drop, Hd. done. }
  by apply take_S_r.
Qed.

Lemma drop_S_cons {A} (l : list A) i b rest : drop i l = b :: rest -> drop (S i) l = rest.
Proof. intros H. replace (S i) with (i + 1)%nat by lia. by rewrite <- drop_drop, H. Qed.

(** The two sending loops have the same shape: bytes that need no translation are sent in runs.
    [loop_sends] covers both. *)
Lemma loop_sends (loop : list Z -> list Z -> nat -> nat -> tm unit) (special : Z -> bool)
    (translate : Z -> list Z) buffer :
  (forall i l, loop buffer [] i l = send_pending buffer l i) ->
  (forall b rest i l, special b = false -> loop buffer (b :: rest) i l = loop buffer rest (S i) l) ->
  (forall b rest i l bs, special b = true -> sends (loop buffer rest (S i) (S i)) bs ->
     sends (loop buffer (b :: rest) i l) (slice buffer l i ++ translate b ++ bs)) ->
  (forall b, special b = false -> translate b = [b]) ->
  forall rest i l, drop i buffer = rest -> (l <= i)%nat ->
  sends (loop buffer rest i l) (slice buffer l i ++ (rest ≫= translate)).
Proof.
  intros Hnil Hplain Hspecial Htr rest. induction rest as [|b rest IH]; intros i l Hd Hl.
  - rewrite Hnil. simpl. rewrite app_nil_r. apply sends_pending.
  - pose proof (drop_S_cons _ _ _ _ Hd) as Hd'. destruct (special b) eqn:E.
    + simpl. apply Hspecial; [done|].
      specialize (IH (S i) (S i) Hd' (le_n _)). unfold slice in IH at 1.
      rewrite Nat.sub_diag in IH. apply IH.
    + rewrite Hplain by done. simpl. rewrite (Htr b E).
      specialize (IH (S i) l Hd' ltac:(lia)). rewrite (slice_snoc _ _ _ _ _ Hd Hl) in IH.
      by rewrite <- app_assoc in IH.
Qed.

Lemma telnet_send_sends buffer : sends (telnet_send buffer) (buffer ≫= escape).
Proof.
  apply (loop_sends telnet_send_loop (fun b => b =? TELNET_IAC) escape buffer); try done.
  - intros b rest i l H. simpl. by rewrite H.
  - intros b rest i l bs H Hs. simpl. unfold escape. rewrite H. auto with siproxy.
  - intros b H. unfold escape. by rewrite H.
Qed.
#[export] Hint Resolve telnet_send_sends : siproxy.

(** What [telnet_vprintf] makes of one byte. *)
Definition escape_nvt (b : Z) : list Z :=
  if b =? TELNET_IAC then [TELNET_IAC; TELNET_IAC]
  else if b =? 13 then [13; 0] else if b =? 10 then [13; 10] else [b].

Lemma telnet_vprintf_sends output :
  sends (telnet_vprintf_loop output output 0 0) (output ≫= escape_nvt).
Proof.
  apply (loop_sends telnet_vprintf_loop
    (fun b => (b =? TELNET_IAC) || (b =? 13) || (b =? 10)) escape_nvt output); try done.
  - intros b rest i l H. simpl. by rewrite H.
  - intros b rest i l bs H Hs. simpl. unfold escape_nvt. rewrite H.
    apply sends_bind; [auto with siproxy|]. apply sends_bind; [|done].
    destruct (b =? TELNET_IAC), (b =? 13), (b =? 10); auto with siproxy; done.
  - intros b H. unfold escape_nvt. apply orb_false_iff in H as [H H3].
    apply orb_false_iff in H as [H1 H2]. by rewrite H1, H2, H3.
Qed.

Lemma zmp_args_sends args :
  sends (telnet_zmp_args args) (args ≫= fun a => (a ++ [0]) ≫= escape).
Proof. induction args; simpl; unfold telnet_zmp_arg; auto with siproxy. Qed.

(** ** The option table as a map *)

(** The two sides of the RFC 1143 state of an option. *)
Definition opt_state (t : telnet_t) (telopt : Z) : Z * Z :=
  (Q_US (get_rfc1143 t telopt), Q_HIM (get_rfc1143 t telopt)).

(** The table is consistent: its size counter, an [unsigned char], has not wrapped around. *)
Definition table_ok (t : telnet_t) : Prop :=
  t_q_size t = Z.of_nat (length (t_q t)) /\ t_q_size t < 256.

(** Recording a state for the option does not make the counter wrap around. *)
Definition room (t : telnet_t) (telopt : Z) : Prop :=
  is_Some (q_find (q_entries t) telopt) \/ t_q_size t + 4 < 256.

Lemma Q_MAKE_spec o us him :
  0 <= us < 16 -> 0 <= him < 16 ->
  Q_US (Rfc1143 o (u8 (Q_MAKE us him))) = us /\ Q_HIM (Rfc1143 o (u8 (Q_MAKE us him))) = him.
Proof.
  intros Hu Hh.
  assert (H : forallb (fun u => forallb (fun h =>
     (Z.land (u8 (Q_MAKE u h)) 15 =? u) && (Z.shiftr (Z.land (u8 (Q_MAKE u h)) 240) 4 =? h))
     (seqZ 0 16)) (seqZ 0 16) = true) by (vm_compute; reflexivity).
  rewrite forallb_forall in H. specialize (H us). rewrite forallb_forall in H.
  rewrite <- list_elem_of_In, elem_of_seqZ in H. specialize (H ltac:(lia) him).
  rewrite <- list_elem_of_In, elem_of_seqZ in H. specialize (H ltac:(lia)).
  rewrite andb_true_iff, !Z.eqb_eq in H. done.
Qed.

Lemma q_find_Some q o i : q_find q o = Some i ->
  (i < length q)%nat /\ exists e, q !! i = Some e /\ rq_telopt e = o.
Proof.
  revert i. induction q as [|e q IH]; intros i; simpl; [done|].
  destruct (Z.eqb_spec (rq_telopt e) o) as [He|He].
  - intros [= <-]. split; [lia|]. eauto.
  - intros H. apply fmap_Some in H as (j & Hj & ->). destruct (IH j Hj) as [? He'].
    split; [lia|]. done.
Qed.

Lemma q_find_insert q o i e o' :
  q_find q o = Some i -> rq_telopt e = o -> q_find (<[i := e]> q) o' = q_find q o'.
Proof.
  revert i. induction q as [|e0 q IH]; intros i; simpl; [done|].
  destruct (Z.eqb_spec (rq_telopt e0) o) as [He|He].
  - intros [= <-] Ho. simpl. by rewrite Ho, He.
  - intros H Ho. apply fmap_Some in H as (j & Hj & ->). simpl. by rewrite (IH j).
Qed.

Lemma q_find_app q l o :
  q_find (q ++ l) o = match q_find q o with
                      | Some i => Some i
                      | None => (fun j => length q + j)%nat <$> q_find l o
                      end.
Proof.
  induction q as [|e q IH]; simpl.
  - by destruct (q_find l o).
  - destruct (rq_telopt e =? o); [done|]. rewrite IH.
    destruct (q_find q o); [done|]. by destruct (q_find l o).
Qed.

Lemma q_entries_ok t : table_ok t -> q_entries t = t_q t.
Proof. intros [H _]. unfold q_entries. rewrite H, Nat2Z.id. apply firstn_all. Qed.

(** [set_rfc1143] updates one entry of the map and nothing else. *)
Lemma set_rfc1143_spec t o us him :
  table_ok t -> room t o -> t_mallocs t = [] -> 0 <= us < 16 -> 0 <= him < 16 ->
  exists t', set_rfc1143 o us him t = (tt, t', []) /\
    opt_state t' o = (us, him) /\ (forall o', o' <> o -> opt_state t' o' = opt_state t o') /\
    table_ok t' /\ t_state t' = t_state t /\ t_mallocs t' = [] /\ t_telopts t' = t_telopts t /\
    t_flags t' = t_flags t.
Proof.
  intros Hok Hroom Hm Hu Hh. pose proof (q_entries_ok t Hok) as Hq.
  destruct (Q_MAKE_spec o us him Hu Hh) as [Eu Eh].
  unfold set_rfc1143, tbind, tget. unfold room in Hroom. rewrite Hq in *.
  destruct (q_find (t_q t) o) as [i|] eqn:Ei; cbn.
  - destruct (q_find_Some _ _ _ Ei) as [Hi _].
    assert (Hok' : table_ok (set_q (<[i := Rfc1143 o (u8 (Q_MAKE us him))]> (t_q t)) (t_q_size t) t)).
    { destruct Hok. split; simpl; [by rewrite length_insert|done]. }
    eexists. split; [done|]. unfold opt_state, get_rfc1143. rewrite !(q_entries_ok _ Hok'), Hq. simpl.
    split; [|split; [|done]].
    + rewrite (q_find_insert _ o), Ei by done. rewrite list_lookup_insert_eq by done. simpl. by rewrite Eu, Eh.
    + intros o' Hne. rewrite (q_find_insert _ o) by done.
      destruct (q_find (t_q t) o') as [j|] eqn:Ej; [|done].
      rewrite list_lookup_insert_ne; [done|]. intros <-.
      destruct (q_find_Some _ _ _ Ej) as (_ & e & He & <-).
      destruct (q_find_Some _ _ _ Ei) as (_ & e' & He' & <-). congruence.
  - destruct Hroom as [[? ?]|Hroom]; [done|]. destruct Hok as [Hsz Hlt].
    unfold malloc. rewrite Hm. cbn.
    set (l := [Rfc1143 o (u8 (Q_MAKE us him)); Rfc1143 0 0; Rfc1143 0 0; Rfc1143 0 0]).
    assert (Hok' : table_ok (set_q (t_q t ++ l) (u8 (t_q_size t + 4)) t)).
    { split; simpl; rewrite u8_id by (unfold is_byte; lia); [|lia].
      rewrite length_app, Hsz. simpl. lia. }
    eexists. split; [done|]. unfold opt_state, get_rfc1143.
    rewrite !(q_entries_ok _ Hok'), Hq. simpl t_q. split; [|split; [|done]].
    + rewrite q_find_app, Ei. subst l. simpl. rewrite Z.eqb_refl. simpl.
      rewrite lookup_app_r, Nat.add_0_r, Nat.sub_diag by lia. simpl. by rewrite Eu, Eh.
    + intros o' Hne. rewrite q_find_app.
      destruct (q_find (t_q t) o') as [j|] eqn:Ej.
      * destruct (q_find_Some _ _ _ Ej) as [Hj _]. by rewrite lookup_app_l.
      * subst l. simpl. destruct (Z.eqb_spec o o') as [->|_]; [done|].
        destruct o'; simpl; [|done..].
        by rewrite lookup_app_r, Nat.add_comm, Nat.add_sub by lia.
Qed.

(** ** RFC 1143

    The option automaton of RFC 1143, for one side of one option.  [rfc_enable] is what a request to
    enable the option (WILL for his side, DO for ours) does, [rfc_disable] a request to disable it;
    the reply is [Some true] for an agreement to enable and [Some false] for a refusal. *)

Inductive qstate : Type := NO | YES | WANTNO | WANTNO_OP | WANTYES | WANTYES_OP.

Definition qcode (q : qstate) : Z :=
  match q with
  | NO => Q_NO | YES => Q_YES | WANTNO => Q_WANTNO | WANTYES => Q_WANTYES
  | WANTNO_OP => Q_WANTNO_OP | WANTYES_OP => Q_WANTYES_OP
  end.

Definition rfc_enable (agree : bool) (q : qstate) : qstate * option bool :=
  match q with
  | NO => if agree then (YES, Some true) else (NO, Some false)
  | YES => (YES, None)
  | WANTNO => (NO, None)
  | WANTNO_OP => (YES, None)
  | WANTYES => (YES, None)
  | WANTYES_OP => (WANTNO, Some false)
  end.

Definition rfc_disable (q : qstate) : qstate * option bool :=
  match q with
  | NO => (NO, None)
  | YES => (NO, Some false)
  | WANTNO => (NO, None)
  | WANTNO_OP => (WANTYES, Some true)
  | WANTYES => (NO, None)
  | WANTYES_OP => (NO, None)
  end.

(** What the local user's wish to enable or disable an option does. *)
Definition rfc_want (enable : bool) (q : qstate) : qstate * option bool :=
  match enable, q with
  | true, NO => (WANTYES, Some true)
  | true, WANTNO => (WANTNO_OP, None)
  | true, WANTYES_OP => (WANTYES, None)
  | false, YES => (WANTNO, Some false)
  | false, WANTYES => (WANTYES_OP, None)
  | false, WANTNO_OP => (WANTNO, None)
  | _, q => (q, None)
  end.

(** A reply on the wire. *)
Definition reply (yes no telopt : Z) (r : option bool) : list Z :=
  match r with
  | Some true => [TELNET_IAC; yes; telopt]
  | Some false => [TELNET_IAC; no; telopt]
  | None => []
  end.

Lemma qcode_range q : 0 <= qcode q < 16.
Proof. by destruct q. Qed.
#[export] Hint Resolve qcode_range : siproxy.

Definition proxy_mode (t : telnet_t) : bool := negb (Z.land (t_flags t) TELNET_FLAG_PROXY =? 0).

(** The change of one side of an option by a routine [m] that runs in [t]: [his] says which side,
    [q'] is its new state, [bs] the bytes sent. *)
Definition moves (m : tm unit) (t : telnet_t) (telopt : Z) (st : Z * Z) (bs : list Z) : Prop :=
  exists t' evs, m t = (tt, t', evs) /\ opt_state t' telopt = st /\ sent_bytes evs = bs /\
    (forall o', o' <> telopt -> opt_state t' o' = opt_state t o') /\
    table_ok t' /\ t_state t' = t_state t /\ t_mallocs t' = [] /\ t_telopts t' = t_telopts t.

Section Moves.
Variables (t : telnet_t) (o : Z) (us him : qstate).
Hypothesis Hok : table_ok t.
Hypothesis Hroom : room t o.
Hypothesis Hmallocs : t_mallocs t = [].
Hypothesis Hst : opt_state t o = (qcode us, qcode him).

Lemma moves_set u h : 0 <= u < 16 -> 0 <= h < 16 -> moves (set_rfc1143 o u h) t o (u, h) [].
Proof.
  intros Hu Hh. destruct (set_rfc1143_spec t o u h) as (t' & E & H1 & H2 & H3 & H4 & H5 & H6 & _);
    try done. exists t', []. done.
Qed.

Lemma moves_then m k st bs bs' :
  moves m t o st bs -> sends k bs' -> moves (m ;;; k) t o st (bs ++ bs').
Proof.
  intros (t1 & e1 & E1 & H1 & S1 & H) Hk. destruct (Hk t1) as (e2 & E2 & _ & S2).
  exists t1, (e1 ++ e2). unfold tbind. rewrite E1, E2, sent_bytes_app, S1, S2. done.
Qed.

Lemma moves_sends m bs : sends m bs -> moves m t o (qcode us, qcode him) bs.
Proof. intros Hm. destruct (Hm t) as (evs & E & _ & S). exists t, evs. done. Qed.
End Moves.

(** Emitting anything but a SEND event sends nothing. *)
Lemma moves_emit m t o st bs e :
  moves m t o st bs -> ~ is_send e -> moves (m ;;; emit e) t o st bs.
Proof.
  intros (t1 & e1 & E1 & H1 & S1 & H) He.
  exists t1, (e1 ++ [e]). unfold tbind. rewrite E1, sent_bytes_app, S1. cbn.
  split; [done|]. split; [done|]. split; [|done].
  destruct e; simpl in *; rewrite ?app_nil_r; done.
Qed.

Lemma moves_assoc (m k l : tm unit) t o st bs :
  moves ((m ;;; k) ;;; l) t o st bs -> moves (m ;;; k ;;; l) t o st bs.
Proof.
  intros (t1 & e1 & E1 & H). exists t1, e1. split; [|done]. rewrite <- E1.
  unfold tbind. destruct (m t) as [[a ta] ea], (k ta) as [[b tb] eb], (l tb) as [[c tc] ec].
  by rewrite app_assoc.
Qed.

(** One branch of the negotiation: a table update followed by a command and an event. *)
Lemma moves_branch t o u h cmd e :
  table_ok t -> room t o -> t_mallocs t = [] -> 0 <= u < 16 -> 0 <= h < 16 -> ~ is_send e ->
  moves (set_rfc1143 o u h ;;; send_negotiate cmd o ;;; emit e) t o (u, h) [TELNET_IAC; cmd; o].
Proof.
  intros. apply moves_assoc, moves_emit; [|done].
  apply (moves_then t o _ _ _ [] [TELNET_IAC; cmd; o]); [by apply moves_set|apply sends_send].
Qed.

Lemma moves_branch_error t o u h e f c s :
  table_ok t -> room t o -> t_mallocs t = [] -> 0 <= u < 16 -> 0 <= h < 16 -> ~ is_send e ->
  moves (set_rfc1143 o u h ;;; emit e ;;; error f c false s ;;; tret tt) t o (u, h) [].
Proof.
  intros Hok Hroom Hm Hu Hh He.
  destruct (moves_emit (set_rfc1143 o u h) t o (u, h) [] e) as (t1 & e1 & E1 & H1 & S1 & Hr);
    [by apply moves_set|done|].
  exists t1, (e1 ++ [TELNET_EV_WARNING f c s]). split; [|split; [done|split; [|done]]].
  - revert E1. unfold tbind, error, emit, tret.
    destruct (set_rfc1143 o u h t) as [[a ta] ea]. simpl. intros [= -> <-]. by rewrite <- app_assoc.
  - rewrite sent_bytes_app, S1. done.
Qed.

(** Close one branch of the negotiation once the two sides of the option are known. *)
Ltac solve_side :=
  first [ assumption | apply qcode_range | apply sends_send | apply sends_ret
        | vm_compute; split; congruence
        | (let H := fresh in intros H; exact H) ].
Ltac solve_moves :=
  first
    [ apply moves_branch; solve_side
    | apply moves_branch_error; solve_side
    | apply moves_emit; [apply moves_set; solve_side|solve_side]
    | apply (moves_then _ _ _ _ _ [] [_; _; _]); [apply moves_set; solve_side|apply sends_send]
    | apply moves_set; solve_side
    | match goal with
      | H : opt_state ?t ?o = (qcode ?u, qcode ?h) |- _ =>
          apply (moves_sends t o u h); solve_side
      end ].

(** What [negotiate] must do to the option, from the state of the tracker: which side moves, and
    with which answer. *)
Definition rfc_receive (t : telnet_t) (o : Z) (us him : qstate) : (Z * Z) * list Z :=
  match t_state t with
  | TELNET_STATE_WILL =>
      let (q, r) := rfc_enable (check_telopt t o false) him in
      ((qcode us, qcode q), reply TELNET_DO TELNET_DONT o r)
  | TELNET_STATE_WONT =>
      let (q, r) := rfc_disable him in
      ((qcode us, qcode q), reply TELNET_DO TELNET_DONT o r)
  | TELNET_STATE_DO =>
      let (q, r) := rfc_enable (check_telopt t o true) us in
      ((qcode q, qcode him), reply TELNET_WILL TELNET_WONT o r)
  | TELNET_STATE_DONT =>
      let (q, r) := rfc_disable us in
      ((qcode q, qcode him), reply TELNET_WILL TELNET_WONT o r)
  | _ => ((qcode us, qcode him), [])
  end.

Lemma opt_state_codes t o us him :
  opt_state t o = (qcode us, qcode him) ->
  Q_US (get_rfc1143 t o) = qcode us /\ Q_HIM (get_rfc1143 t o) = qcode him.
Proof. unfold opt_state. intros H. by simplify_eq. Qed.

(** A routine that starts by reading the tracker. *)
Lemma moves_get (k : telnet_t -> tm unit) t o st bs :
  moves (k t) t o st bs -> moves (let* t0 := tget in k t0) t o st bs.
Proof.
  intros (t1 & e1 & E1 & H). exists t1, e1. split; [|done]. unfold tbind, tget. by rewrite E1.
Qed.

(** C18: the negotiation follows RFC 1143.  On a WILL, WONT, DO or DONT for an option (not in proxy
    mode, with memory and room in the table) the option's two-sided state moves as the automaton of
    the RFC says, the answer on the wire is the RFC's, and no other option changes.  The exception
    is a WONT in state WANTNO/OPPOSITE, where the code records WANTYES but does not send the DO. *)
Theorem negotiate_follows_rfc1143 (t : telnet_t) (o : Z) (us him : qstate) :
  table_ok t -> room t o -> t_mallocs t = [] -> proxy_mode t = false ->
  opt_state t o = (qcode us, qcode him) ->
  moves (negotiate o) t o (rfc_receive t o us him).1
    (match t_state t, him with
     | TELNET_STATE_WONT, WANTNO_OP => []
     | _, _ => (rfc_receive t o us him).2
     end).
Proof.
  intros Hok Hroom Hm Hproxy Hst. destruct (opt_state_codes _ _ _ _ Hst) as [Hus Hhim].
  apply moves_get. unfold rfc_receive. unfold proxy_mode in Hproxy. rewrite Hproxy, Hus, Hhim.
  destruct (t_state t) eqn:Es; simpl; try solve_moves.
  - destruct him; simpl; try destruct (check_telopt t o false); solve_moves.
  - destruct him; simpl; solve_moves.
  - destruct us; simpl; try destruct (check_telopt t o true); solve_moves.
  - destruct us; simpl; solve_moves.
Qed.

Lemma negotiate_follows_rfc1143_witness :
  let t := set_state TELNET_STATE_WILL (telnet_init (Some [Telopt 1 0 TELNET_DO]) 0 []) in
  moves (negotiate 1) t 1 (qcode NO, qcode YES) [TELNET_IAC; TELNET_DO; 1].
Proof.
  intros t. apply (negotiate_follows_rfc1143 t 1 NO NO).
  - split; [reflexivity|by vm_compute].
  - right. reflexivity.
  - reflexivity.
  - reflexivity.
  - reflexivity.
Defined.

(** C19: the local requests of [telnet_negotiate] follow RFC 1143 too: WILL and WONT move our side,
    DO and DONT his, and the command goes on the wire exactly when the RFC sends it. *)
Theorem telnet_negotiate_follows_rfc1143 (t : telnet_t) (o : Z) (us him : qstate) :
  table_ok t -> room t o -> t_mallocs t = [] -> proxy_mode t = false ->
  opt_state t o = (qcode us, qcode him) ->
  (forall on, let (q, r) := rfc_want on us in
     moves (telnet_negotiate (if on then TELNET_WILL else TELNET_WONT) o) t o
       (qcode q, qcode him) (reply TELNET_WILL TELNET_WONT o r)) /\
  (forall on, let (q, r) := rfc_want on him in
     moves (telnet_negotiate (if on then TELNET_DO else TELNET_DONT) o) t o
       (qcode us, qcode q) (reply TELNET_DO TELNET_DONT o r)).
Proof.
  intros Hok Hroom Hm Hproxy Hst. destruct (opt_state_codes _ _ _ _ Hst) as [Hus Hhim].
  split; intros on.
  - destruct (rfc_want on us) as [q r] eqn:E. apply moves_get. unfold proxy_mode in Hproxy.
    cbv beta zeta. rewrite Hproxy, Hus, Hhim. destruct on, us; simpl in E; simplify_eq; simpl; solve_moves.
  - destruct (rfc_want on him) as [q r] eqn:E. apply moves_get. unfold proxy_mode in Hproxy.
    cbv beta zeta. rewrite Hproxy, Hus, Hhim. destruct on, him; simpl in E; simplify_eq; simpl; solve_moves.
Qed.

Lemma telnet_negotiate_follows_rfc1143_witness :
  let t := telnet_init None 0 [] in
  moves (telnet_negotiate TELNET_DO 1) t 1 (qcode NO, qcode WANTYES) [TELNET_IAC; TELNET_DO; 1].
Proof.
  intros t. refine (proj2 (telnet_negotiate_follows_rfc1143 t 1 NO NO _ _ _ _ _) true).
  - split; [reflexivity|by vm_compute].
  - right. reflexivity.
  - reflexivity.
  - reflexivity.
  - reflexivity.
Defined.

(** C22: the option table overflows its counter.  The table grows by four entries for each new option
    and its size is an [unsigned char]: recording the 64th option sets the size to 0, so that the
    state of every option, the new one included, reads as NO from then on. *)
Theorem option_table_wraps (t : telnet_t) (o us him : Z) :
  t_q_size t = 252 -> length (t_q t) = 252%nat -> q_find (q_entries t) o = None ->
  t_mallocs t = [] ->
  forall o', opt_state (the_state (set_rfc1143 o us him t)) o' = (Q_NO, Q_NO).
Proof.
  intros Hsz _ Hf Hm o'. unfold set_rfc1143, tbind, tget. rewrite Hf. unfold malloc. rewrite Hm, Hsz.
  done.
Qed.

Lemma option_table_wraps_witness :
  let t := set_q ((fun i => Rfc1143 (Z.of_nat (i / 4 + 1)) 1) <$> seq 0 252) 252 (telnet_init None 0 []) in
  opt_state t 1 = (Q_YES, Q_NO) /\ opt_state (the_state (set_rfc1143 100 1 0 t)) 1 = (Q_NO, Q_NO).
Proof.
  intros t. split; [by vm_compute|].
  apply (option_table_wraps t 100 1 0); by vm_compute.
Defined.

(** ** Routines that keep a relation between the trackers before and after *)

Section Keeps.
Context (P : telnet_t -> telnet_t -> Prop) (Q : telnet_event_t -> Prop) `{!PreOrder P}.

(** From any tracker, [m] ends in one related by [P] and emits events of [Q] only. *)
Definition keeps {A : Type} (m : tm A) : Prop :=
  forall t, P t (the_state (m t)) /\ Forall Q (the_events (m t)).

Lemma keeps_ret {A} (a : A) : keeps (tret a).
Proof. intros t. split; [reflexivity|constructor]. Qed.

Lemma keeps_get : keeps tget.
Proof. intros t. split; [reflexivity|constructor]. Qed.

Lemma keeps_bind {A B} (m : tm A) (k : A -> tm B) :
  keeps m -> (forall a, keeps (k a)) -> keeps (tbind m k).
Proof.
  intros Hm Hk t. unfold tbind. destruct (Hm t) as [HP HQ].
  destruct (m t) as [[a t1] e1]. simpl in *. destruct (Hk a t1) as [HP' HQ'].
  destruct (k a t1) as [[b t2] e2]. simpl in *.
  split; [by transitivity t1|by apply Forall_app].
Qed.

(** The rest of a routine may use the tracker it has read. *)
Lemma keeps_get_bind {B} (k : telnet_t -> tm B) :
  (forall t, P t (the_state (k t t)) /\ Forall Q (the_events (k t t))) -> keeps (tbind tget k).
Proof.
  intros Hk t. unfold tbind, tget. destruct (Hk t) as [H1 H2].
  destruct (k t t) as [[b t2] e2]. done.
Qed.

Lemma keeps_emit e : Q e -> keeps (emit e).
Proof. intros He t. split; [reflexivity|by repeat constructor]. Qed.

Lemma keeps_mod f : (forall t, P t (f t)) -> keeps (tmod f).
Proof. intros Hf t. split; [apply Hf|constructor]. Qed.

Lemma keeps_if {A} (b : bool) (m k : tm A) : keeps m -> keeps k -> keeps (if b then m else k).
Proof. by destruct b. Qed.
End Keeps.

(** Prove [keeps P Q m] along the structure of [m]; [tac] closes the leaves. *)
Ltac keeps_step tac :=
  lazymatch goal with
  | |- keeps _ _ (tret _) => apply keeps_ret; apply _
  | |- keeps _ _ tget => apply keeps_get; apply _
  | |- keeps _ _ (tbind _ _) => apply keeps_bind; [apply _| |intros ?]
  | |- keeps _ _ (if ?b then _ else _) => destruct b
  | |- keeps _ _ (match ?x with _ => _ end) => destruct x
  | |- keeps _ _ (let (_, _) := ?x in _) => destruct x
  | |- keeps _ _ (emit _) => apply keeps_emit; [apply _|tac]
  | |- keeps _ _ (tmod _) => apply keeps_mod; intros ?; tac
  end.
Ltac keeps_tac tac := repeat (cbv beta zeta; keeps_step tac); try solve [tac].

(** The event is a warning or a report, never a fatal error. *)
Definition not_fatal (e : telnet_event_t) : Prop :=
  match e with TELNET_EV_ERROR _ _ _ => False | _ => True end.

(** Everything but the buffer contents, the allocator and the count of the faults is the same. *)
Definition same_control (t t' : telnet_t) : Prop :=
  t_telopts t' = t_telopts t /\ t_q t' = t_q t /\ t_q_size t' = t_q_size t /\
  t_buffer_size t' = t_buffer_size t /\ t_buffer_pos t' = t_buffer_pos t /\
  t_state t' = t_state t /\ t_flags t' = t_flags t /\ t_sb_telopt t' = t_sb_telopt t.

#[export] Instance same_control_preorder : PreOrder same_control.
Proof. split; [done|]. unfold same_control. intros t1 t2 t3 H1 H2. destruct_and!. split_and!; congruence. Qed.

Lemma malloc_keeps (P : telnet_t -> telnet_t -> Prop) Q :
  PreOrder P -> (forall t m, P t (set_mallocs m t)) -> keeps P Q malloc.
Proof.
  intros HP Hm t. unfold malloc. destruct (t_mallocs t); simpl; (split; [|constructor]).
  - reflexivity.
  - apply Hm.
Qed.
