(* ===== verification/TelnetSub.v ===== *)
(** * TelnetSub: subnegotiations of telnet.c

    The handlers of a complete subnegotiation buffer: ZMP, TERMINAL-TYPE, ENVIRON/NEW-ENVIRON and
    MSSP.  ENVIRON and MSSP unpack the buffer in place: [c] and [out] are the read and write
    positions, and the strings handed to the user are read back from the buffer.

    An access outside of the block is a [Fault] of the loops and is counted in the tracker.  ENVIRON
    makes none ([environ_parse_inside]); the loop of MSSP reads the byte after the data once it has read
    them all, which is outside when the data fill the block ([mssp_parse_inside], [mssp_overread]). *)

From Stdlib Require Import ZArith Lia String.
From stdpp Require Import base tactics numbers list.
From S2P Require Import Prelude Telnet.

(** [telnet->buffer] and [telnet->buffer_pos] as the handlers get them. *)
Definition sub_size (t : telnet_t) : nat := Z.to_nat (t_buffer_pos t).

(** A byte of the buffer at a position that has been compared with [size]. *)
Definition rd (buf : list Z) (i : nat) : Z := default 0 (buf !! i).

(** A byte at a position that has not been compared, and a write: inside of the block or a fault. *)
Definition rd_at (buf : list Z) (i : nat) : outcome Z := deref (buf !! i).
Definition wr_at (buf : list Z) (i : nat) (b : Z) : outcome (list Z) :=
  if bool_decide (i < length buf)%nat then Ret (<[i := b]> buf) else Fault.

(** The C string at an offset of the buffer. *)
Definition str_at (buf : list Z) (i : nat) : list Z := cstr (drop i buf).

(** ** ZMP *)

(** [for (argc = 0, c = buffer; c != buffer + size; ++argc) c += strlen (c) + 1]: the starts of the
    arguments. *)
Fixpoint zmp_args (fuel : nat) (buf : list Z) (c size : nat) : list nat :=
  match fuel with
  | O => []
  | S fuel' =>
      if bool_decide (c = size) then []
      else c :: zmp_args fuel' buf (c + strlen (drop c buf) + 1) size
  end.

Definition zmp_telnet (buffer : list Z) (size : nat) : tm Z :=
  if bool_decide (size = 0%nat) || negb (rd buffer (size - 1) =? 0) then
    error "_zmp_telnet" TELNET_EPROTOCOL false "incomplete ZMP frame" ;;; tret 0
  else
    let argv := zmp_args size buffer 0 size in
    let* ok := malloc in
    if ok : bool then
      emit (TELNET_EV_ZMP (str_at buffer <$> argv)) ;;; tret 0
    else error "_zmp_telnet" TELNET_ENOMEM false "calloc() failed: %s" ;;; tret 0.

(** ** TERMINAL-TYPE *)

Definition ttype_telnet (buffer : list Z) (size : nat) : tm Z :=
  if bool_decide (size = 0%nat) then
    error "_ttype_telnet" TELNET_EPROTOCOL false "incomplete TERMINAL-TYPE request" ;;; tret 0
  else if negb (rd buffer 0 =? TELNET_TTYPE_IS) && negb (rd buffer 0 =? TELNET_TTYPE_SEND) then
    error "_ttype_telnet" TELNET_EPROTOCOL false "TERMINAL-TYPE request has invalid type" ;;; tret 0
  else if rd buffer 0 =? TELNET_TTYPE_IS then
    let* ok := malloc in
    if ok : bool then
      (* name: size - 1 bytes and a NUL *)
      emit (TELNET_EV_TTYPE TELNET_TTYPE_IS (Some (cstr (take (size - 1) (drop 1 buffer) ++ [0])))) ;;;
      tret 0
    else error "_ttype_telnet" TELNET_ENOMEM false "malloc() failed: %s" ;;; tret 0
  else emit (TELNET_EV_TTYPE TELNET_TTYPE_SEND None) ;;; tret 0.

(** ** ENVIRON *)

Definition is_var (b : Z) : bool := (b =? TELNET_ENVIRON_VAR) || (b =? TELNET_ENVIRON_USERVAR).

(** The counting loop, from [c]. *)
Fixpoint environ_count (fuel : nat) (buf : list Z) (c size : nat) : nat :=
  match fuel with
  | O => O
  | S fuel' =>
      if bool_decide (c < size)%nat then
        if is_var (rd buf c) then S (environ_count fuel' buf (c + 1) size)
        else if rd buf c =? TELNET_ENVIRON_ESC then environ_count fuel' buf (c + 2) size
        else environ_count fuel' buf (c + 1) size
      else O
  end.

(** The copying loops: bytes up to an end marker, without their escapes, go to [out]. *)
Fixpoint environ_scan (stop : Z -> bool) (fuel : nat) (buf : list Z) (c out size : nat)
    : outcome (list Z * nat * nat) :=
  match fuel with
  | O => Ret (buf, c, out)
  | S fuel' =>
      if bool_decide (c < size)%nat then
        if stop (rd buf c) then Ret (buf, c, out)
        else
          let c1 := if rd buf c =? TELNET_ENVIRON_ESC then (c + 1)%nat else c in
          let! b := rd_at buf c1 in
          let! buf1 := wr_at buf out b in
          environ_scan stop fuel' buf1 (c1 + 1) (out + 1) size
      else Ret (buf, c, out)
  end.

Definition stop_name (b : Z) : bool :=
  (b =? TELNET_ENVIRON_VAR) || (b =? TELNET_ENVIRON_VALUE) || (b =? TELNET_ENVIRON_USERVAR).
Definition stop_value (b : Z) : bool := is_var b.

(** One entry of the argument array: the type, and where the strings are; no value is [""]. *)
Record environ_entry : Type := Entry {
  ee_type : Z;
  ee_var : nat;
  ee_value : option nat
}.

(** The parsing loop over [count] entries. *)
Fixpoint environ_parse (count : nat) (buf : list Z) (c out size : nat)
    : outcome (list environ_entry * list Z) :=
  match count with
  | O => Ret ([], buf)
  | S count' =>
      let! type := rd_at buf c in
      let! (buf1, c1, out1) := environ_scan stop_name size buf (c + 1) out size in
      let! buf2 := wr_at buf1 out1 0 in
      let out2 := (out1 + 1)%nat in
      if bool_decide (c1 < size)%nat && (rd buf2 c1 =? TELNET_ENVIRON_VALUE) then
        let! (buf3, c3, out3) := environ_scan stop_value size buf2 (c1 + 1) out2 size in
        let! buf4 := wr_at buf3 out3 0 in
        let! (es, buf5) := environ_parse count' buf4 c3 (out3 + 1) size in
        Ret (Entry type out (Some out2) :: es, buf5)
      else
        let! (es, buf5) := environ_parse count' buf2 c1 out2 size in
        Ret (Entry type out None :: es, buf5)
  end.

Definition environ_value (buf : list Z) (e : environ_entry) : telnet_environ_t :=
  Environ (ee_type e) (Some (str_at buf (ee_var e)))
    (Some (match ee_value e with Some o => str_at buf o | None => [] end)).

Definition environ_telnet (type : Z) (buffer : list Z) (size : nat) : tm Z :=
  let fail msg := error "_environ_telnet" TELNET_EPROTOCOL false msg ;;; tret 0 in
  if bool_decide (size = 0%nat) then tret 0
  else
    let b0 := rd buffer 0 in
    if negb (b0 =? TELNET_ENVIRON_SEND) && negb (b0 =? TELNET_ENVIRON_IS)
       && negb (b0 =? TELNET_ENVIRON_INFO) then fail "telopt %d subneg has invalid command"%string
    else if bool_decide (size = 1%nat) then
      emit (TELNET_EV_ENVIRON b0 []) ;;; tret 1
    else if negb (is_var (rd buffer 1)) then fail "telopt %d subneg missing variable type"%string
    else if rd buffer (size - 1) =? TELNET_ENVIRON_ESC then fail "telopt %d subneg ends with ESC"%string
    else
      let count := environ_count size buffer 1 size in
      let* ok := malloc in
      if ok : bool then
        tlift (environ_parse count buffer 1 0 size) (fun '(es, buf) =>
        tmod (fun t => set_buffer buf (t_buffer_size t) (t_buffer_pos t) t) ;;;
        emit (TELNET_EV_ENVIRON b0 (environ_value buf <$> es)) ;;;
        tret 1)
      else
        error "_environ_telnet" TELNET_ENOMEM false "calloc() failed: %s" ;;; tret 0.

(** ** MSSP *)

Definition stop_mssp (b : Z) : bool := (b =? TELNET_MSSP_VAR) || (b =? TELNET_MSSP_VAL).

Fixpoint mssp_copy (fuel : nat) (buf : list Z) (c out size : nat) : outcome (list Z * nat * nat) :=
  match fuel with
  | O => Ret (buf, c, out)
  | S fuel' =>
      if bool_decide (c < size)%nat then
        if stop_mssp (rd buf c) then Ret (buf, c, out)
        else
          let! buf1 := wr_at buf out (rd buf c) in
          mssp_copy fuel' buf1 (c + 1) (out + 1) size
      else Ret (buf, c, out)
  end.

(** The parsing loop: [last] is where the current string starts, [var] the last variable name.  The
    result is [None] when the data is invalid.  [next_type] is read without a look at [size], also
    after the last string. *)
Fixpoint mssp_parse (fuel : nat) (buf : list Z) (c out last : nat) (var : option nat) (next_type : Z)
    (size : nat) (acc : list (nat * nat)) : outcome (option (list (nat * nat)) * list Z) :=
  match fuel with
  | O => Ret (Some acc, buf)
  | S fuel' =>
      if bool_decide (c < size)%nat then
        let! (buf1, c1, out1) := mssp_copy size buf c out size in
        let! buf2 := wr_at buf1 out1 0 in
        let out2 := (out1 + 1)%nat in
        if next_type =? TELNET_MSSP_VAR then
          let! type' := rd_at buf2 c1 in
          mssp_parse fuel' buf2 (c1 + 1) out2 out2 (Some last) type' size acc
        else
          match var with
          | Some v =>
              if next_type =? TELNET_MSSP_VAL then
                let! type' := rd_at buf2 c1 in
                mssp_parse fuel' buf2 (c1 + 1) out2 out2 var type' size (acc ++ [(v, last)])
              else Ret (None, buf2)
          | None => Ret (None, buf2)
          end
      else Ret (Some acc, buf)
  end.

(** The count of the arguments, which sizes the array. *)
Definition mssp_count (buffer : list Z) (size : nat) : nat :=
  length (filter (fun b => b = TELNET_MSSP_VAL) (take size buffer)).

(** The user gets [count] entries; those the parser did not fill are zero. *)
Definition mssp_telnet (buffer : list Z) (size : nat) : tm Z :=
  if bool_decide (size = 0%nat) then tret 0
  else if negb (rd buffer 0 =? TELNET_MSSP_VAR) then
    error "_mssp_telnet" TELNET_EPROTOCOL false "MSSP subnegotiation has invalid data" ;;; tret 0
  else
    let* ok := malloc in
    if ok : bool then
      tlift (mssp_parse size buffer 1 0 0 None (rd buffer 0) size []) (fun '(vs, buf) =>
      tmod (fun t => set_buffer buf (t_buffer_size t) (t_buffer_pos t) t) ;;;
      match vs with
      | Some vs =>
          emit (TELNET_EV_MSSP
            (((fun '(v, l) => Environ 0 (Some (str_at buf v)) (Some (str_at buf l))) <$> vs)
             ++ replicate (mssp_count buffer size - length vs) (Environ 0 None None))) ;;;
          tret 0
      | None =>
          error "_mssp_telnet" TELNET_EPROTOCOL false "invalid MSSP subnegotiation data" ;;; tret 0
      end)
    else
      error "_mssp_telnet" TELNET_ENOMEM false "calloc() failed: %s" ;;; tret 0.

(** ** Dispatch *)

(** [_subnegotiate]: non-zero when the rest of the input must be processed anew. *)
Definition subnegotiate : tm Z :=
  let* t := tget in
  emit (TELNET_EV_SUBNEGOTIATION (t_sb_telopt t) (take (sub_size t) (t_buffer t))) ;;;
  let o := t_sb_telopt t in
  if o =? TELNET_TELOPT_ZMP then zmp_telnet (t_buffer t) (sub_size t)
  else if o =? TELNET_TELOPT_TTYPE then ttype_telnet (t_buffer t) (sub_size t)
  else if (o =? TELNET_TELOPT_ENVIRON) || (o =? TELNET_TELOPT_NEW_ENVIRON) then
    environ_telnet o (t_buffer t) (sub_size t)
  else if o =? TELNET_TELOPT_MSSP then mssp_telnet (t_buffer t) (sub_size t)
  else tret 0.

(** ** What the handlers leave alone *)

Ltac sub_tac :=
  first [ exact I | done
        | apply malloc_keeps; [apply _|done] ].

Lemma subnegotiate_keeps : keeps same_control not_fatal subnegotiate.
Proof.
  unfold subnegotiate, zmp_telnet, ttype_telnet, environ_telnet, mssp_telnet, tlift, error.
  keeps_tac sub_tac.
Qed.

(** The block keeps its length. *)
Lemma wr_at_length buf i b buf' : wr_at buf i b = Ret buf' -> length buf' = length buf.
Proof. unfold wr_at. case_bool_decide; [|done]. intros [= <-]. apply length_insert. Qed.

(** Take a run of reads and writes apart. *)
Ltac take_outcome H :=
  repeat match type of H with
  | obind _ _ = Ret _ => apply obind_Ret in H as (? & ? & H)
  | (if ?b then _ else _) = Ret _ => destruct b
  | match ?x with (_, _) => _ end = Ret _ => destruct x
  | match ?x with Some _ => _ | None => _ end = Ret _ => destruct x
  end;
  simplify_eq;
  repeat match goal with E : wr_at _ _ _ = Ret _ |- _ => apply wr_at_length in E end.

Lemma environ_scan_length stop fuel : forall buf c out size buf' c' out',
  environ_scan stop fuel buf c out size = Ret (buf', c', out') -> length buf' = length buf.
Proof.
  induction fuel as [|fuel IH]; intros buf c out size buf' c' out' H; cbn [environ_scan] in H;
    take_outcome H; try done.
  apply IH in H. congruence.
Qed.

Lemma environ_parse_length count : forall buf c out size es buf',
  environ_parse count buf c out size = Ret (es, buf') -> length buf' = length buf.
Proof.
  induction count as [|count IH]; intros buf c out size es buf' H; cbn [environ_parse] in H;
    take_outcome H; try done;
    repeat match goal with
    | E : environ_scan _ _ _ _ _ _ = Ret _ |- _ => apply environ_scan_length in E
    | E : environ_parse _ _ _ _ _ = Ret _ |- _ => apply IH in E
    end; congruence.
Qed.

Lemma mssp_copy_length fuel : forall buf c out size buf' c' out',
  mssp_copy fuel buf c out size = Ret (buf', c', out') -> length buf' = length buf.
Proof.
  induction fuel as [|fuel IH]; intros buf c out size buf' c' out' H; cbn [mssp_copy] in H;
    take_outcome H; try done.
  apply IH in H. congruence.
Qed.

Lemma mssp_parse_length fuel : forall buf c out last var next size acc vs buf',
  mssp_parse fuel buf c out last var next size acc = Ret (vs, buf') -> length buf' = length buf.
Proof.
  induction fuel as [|fuel IH]; intros buf c out last var next size acc vs buf' H; cbn [mssp_parse] in H;
    take_outcome H; try done;
    repeat match goal with
    | E : mssp_copy _ _ _ _ _ = Ret _ |- _ => apply mssp_copy_length in E
    | E : mssp_parse _ _ _ _ _ _ _ _ _ = Ret _ |- _ => apply IH in E
    end; congruence.
Qed.

Lemma environ_buffer_length o t :
  length (t_buffer (the_state (environ_telnet o (t_buffer t) (sub_size t) t))) = length (t_buffer t).
Proof.
  unfold environ_telnet. set (size := sub_size t).
  pose proof (environ_parse_length (environ_count size (t_buffer t) 1 size) (t_buffer t) 1 0 size) as Hl.
  unfold tlift, tbind, malloc, error, emit, tret, tmod, the_state.
  repeat (case_match; simplify_eq/=); try done; by eapply Hl.
Qed.

Lemma mssp_buffer_length t :
  length (t_buffer (the_state (mssp_telnet (t_buffer t) (sub_size t) t))) = length (t_buffer t).
Proof.
  unfold mssp_telnet. set (size := sub_size t).
  pose proof (mssp_parse_length size (t_buffer t) 1 0 0 None (rd (t_buffer t) 0) size []) as Hl.
  unfold tlift, tbind, malloc, error, emit, tret, tmod, the_state.
  repeat (case_match; simplify_eq/=); try done; by eapply Hl.
Qed.

Lemma subnegotiate_buffer_length t :
  length (t_buffer (the_state (subnegotiate t))) = length (t_buffer t).
Proof.
  unfold subnegotiate. unfold tbind at 1 2, tget, emit. 
  pose proof (environ_buffer_length (t_sb_telopt t) t) as H1.
  pose proof (mssp_buffer_length t) as H2. unfold the_state in *.
  destruct (t_sb_telopt t =? TELNET_TELOPT_ZMP).
  { unfold zmp_telnet, tbind, malloc, error, emit, tret. by repeat (case_match; simplify_eq/=). }
  destruct (t_sb_telopt t =? TELNET_TELOPT_TTYPE).
  { unfold ttype_telnet, tbind, malloc, error, emit, tret. by repeat (case_match; simplify_eq/=). }
  destruct (_ || _).
  { destruct (environ_telnet _ _ _ t) as [[? ?] ?]. done. }
  destruct (t_sb_telopt t =? TELNET_TELOPT_MSSP); [|done].
  destruct (mssp_telnet _ _ t) as [[? ?] ?]. done.
Qed.

(** ** Accesses inside of the block *)

Lemma rd_inside buf i : (i < length buf)%nat -> buf !! i = Some (rd buf i).
Proof. intros Hi. unfold rd. by destruct (lookup_lt_is_Some_2 buf i Hi) as [b ->]. Qed.

Lemma rd_at_inside buf i : (i < length buf)%nat -> rd_at buf i = Ret (rd buf i).
Proof. intros Hi. unfold rd_at. by rewrite rd_inside. Qed.

Lemma wr_at_inside buf i b : (i < length buf)%nat -> wr_at buf i b = Ret (<[i := b]> buf).
Proof. intros Hi. unfold wr_at. by rewrite bool_decide_eq_true_2. Qed.

(** The two blocks agree from [c] on. *)
Definition same_from (c : nat) (buf buf' : list Z) : Prop :=
  length buf' = length buf /\ forall i, (c <= i)%nat -> buf' !! i = buf !! i.

Lemma same_from_rd c buf buf' i : same_from c buf buf' -> (c <= i)%nat -> rd buf' i = rd buf i.
Proof. intros [_ H] Hi. unfold rd. by rewrite H. Qed.

Lemma same_from_write c buf out b : (out < c)%nat -> same_from c buf (<[out := b]> buf).
Proof.
  intros Ho. split; [apply length_insert|]. intros i Hi. apply list_lookup_insert_ne. lia.
Qed.

Lemma same_from_trans c c' b1 b2 b3 : same_from c b1 b2 -> same_from c' b2 b3 -> (c <= c')%nat -> same_from c' b1 b3.
Proof.
  intros [L1 H1] [L2 H2] Hc. split; [congruence|]. intros i Hi. rewrite H2 by done. apply H1. lia.
Qed.

Section Inside.
Variable size : nat.

(** The variables from a position on, with fuel to spare. *)
Lemma environ_count_fuel buf f1 : forall f2 c,
  (size - c <= f1)%nat -> (size - c <= f2)%nat -> environ_count f1 buf c size = environ_count f2 buf c size.
Proof.
  induction f1 as [|f1 IH]; intros [|f2] c H1 H2; cbn [environ_count]; [done|..].
  - by rewrite bool_decide_eq_false_2 by lia.
  - by rewrite bool_decide_eq_false_2 by lia.
  - case_bool_decide; [|done]. by rewrite (IH f2 (c + 1)%nat), (IH f2 (c + 2)%nat) by lia.
Qed.

Lemma environ_count_same buf buf' f : forall c,
  same_from c buf buf' -> environ_count f buf' c size = environ_count f buf c size.
Proof.
  induction f as [|f IH]; intros c H; cbn [environ_count]; [done|]. rewrite (same_from_rd c buf buf') by done.
  assert (H' : forall n, same_from (c + n) buf buf') by (intros n; destruct H; split; [done|]; eauto with lia).
  by rewrite !IH.
Qed.

Lemma environ_count_next buf c :
  (c < size)%nat ->
  environ_count size buf c size =
    if is_var (rd buf c) then S (environ_count size buf (c + 1) size)
    else if rd buf c =? TELNET_ENVIRON_ESC then environ_count size buf (c + 2) size
    else environ_count size buf (c + 1) size.
Proof.
  intros Hc. rewrite (environ_count_fuel buf size (S size) c) by lia. cbn [environ_count].
  by rewrite bool_decide_eq_true_2.
Qed.

(** The last byte of the data is not an escape, unless all are read. *)
Definition no_esc_end (buf : list Z) (c : nat) : Prop :=
  (c < size)%nat -> rd buf (size - 1) <> TELNET_ENVIRON_ESC.

(** Where a scan that reads and writes inside of the block stops. *)
Lemma environ_scan_inside stop fuel : forall buf c out,
  (forall b, is_var b = true -> stop b = true) -> (size <= length buf)%nat ->
  (out < c)%nat -> (c <= size)%nat -> (size - c <= fuel)%nat -> no_esc_end buf c ->
  exists buf' c' out', environ_scan stop fuel buf c out size = Ret (buf', c', out') /\
    same_from c' buf buf' /\ (c <= c' <= size)%nat /\ (out' + c <= c' + out)%nat /\
    ((c' < size)%nat -> stop (rd buf' c') = true) /\
    environ_count size buf' c' size = environ_count size buf c size.
Proof.
  induction fuel as [|fuel IH]; intros buf c out Hstop Hlen Ho Hc Hf He; cbn [environ_scan].
  - exists buf, c, out. split_and!; try done; lia.
  - case_bool_decide as Hlt; [|exists buf, c, out; split_and!; done || lia].
    destruct (stop (rd buf c)) eqn:Es; [exists buf, c, out; split_and!; done || lia|].
    assert (Hv : is_var (rd buf c) = false) by (destruct (is_var _) eqn:Ev; [by rewrite Hstop in Es|done]).
    set (esc := rd buf c =? TELNET_ENVIRON_ESC).
    set (c1 := if esc then (c + 1)%nat else c).
    assert (Hc1 : (c <= c1 /\ c1 < size)%nat).
    { unfold c1, esc. destruct (Z.eqb_spec (rd buf c) TELNET_ENVIRON_ESC) as [E|]; [|lia].
      destruct (decide (c + 1 = size)%nat) as [El|]; [|lia]. exfalso. apply (He Hlt).
      by replace (size - 1)%nat with c by lia. }
    cbv zeta. rewrite rd_at_inside by lia. cbn [obind]. rewrite wr_at_inside by lia. cbn [obind].
    pose proof (same_from_write (c1 + 1) buf out (rd buf c1) ltac:(lia)) as S1.
    destruct (IH (<[out := rd buf c1]> buf) (c1 + 1)%nat (out + 1)%nat) as (buf' & c' & out' & E & S2 & Hc' & Ho' & Hs & Hn);
      [done|by rewrite length_insert|lia|lia|lia| |].
    { intros Hl. rewrite (same_from_rd (c1 + 1) buf) by (done || lia). by apply He. }
    exists buf', c', out'. split; [done|]. split; [eapply same_from_trans; [exact S1|done|lia]|].
    split; [lia|]. split; [lia|]. split; [done|]. rewrite Hn, (environ_count_same buf) by done.
    rewrite (environ_count_next buf c Hlt), Hv. fold esc. unfold c1. destruct esc; [|done].
    by replace (c + 1 + 1)%nat with (c + 2)%nat by lia.
Qed.

(** The whole loop of ENVIRON, from a position where a variable starts. *)
Lemma environ_parse_inside count : forall buf c out,
  (size <= length buf)%nat -> (out < c)%nat -> (c <= size)%nat -> no_esc_end buf c ->
  environ_count size buf c size = count -> ((c < size)%nat -> is_var (rd buf c) = true) ->
  exists es buf', environ_parse count buf c out size = Ret (es, buf').
Proof.
  induction count as [|count IH]; intros buf c out Hlen Ho Hc He Hn Hv; cbn [environ_parse]; [by eauto|].
  assert (Hlt : (c < size)%nat).
  { destruct (decide (c < size)%nat) as [|Hge]; [done|]. exfalso. revert Hn.
    rewrite (environ_count_fuel buf size 0 c) by lia. done. }
  rewrite environ_count_next in Hn by done. rewrite (Hv Hlt) in Hn. injection Hn as Hn.
  rewrite rd_at_inside by lia. cbn [obind].
  assert (Hstop : forall b, is_var b = true -> stop_name b = true).
  { intros b. unfold is_var, stop_name. intros [->| ->]%orb_prop; [done|]. by rewrite orb_true_r. }
  destruct (environ_scan_inside stop_name size buf (c + 1) out) as (buf1 & c1 & out1 & -> & S1 & Hc1 & Ho1 & Hs1 & Hn1);
    [done|done|lia|lia|lia|by intros _; apply He|].
  assert (L1 : length buf1 = length buf) by apply S1.
  cbn [obind]. rewrite wr_at_inside by lia. cbn [obind]. set (buf2 := <[out1 := 0]> buf1).
  pose proof (same_from_write c1 buf1 out1 0 ltac:(lia)) as S2. fold buf2 in S2.
  pose proof (same_from_trans c1 c1 _ _ _ S1 S2 ltac:(lia)) as S12.
  assert (Hn2 : environ_count size buf2 c1 size = count) by (rewrite (environ_count_same buf1) by done; congruence).
  assert (He2 : no_esc_end buf2 c1).
  { intros Hl. rewrite (same_from_rd c1 buf) by (done || lia). by apply He. }
  assert (L2 : length buf2 = length buf) by apply S12.
  case_bool_decide as Hl1; cbn [andb].
  2: { destruct (IH buf2 c1 (out1 + 1)%nat) as (es & buf' & ->); [lia|lia|lia|done|done|done|cbn [obind]; eauto]. }
  destruct (Z.eqb_spec (rd buf2 c1) TELNET_ENVIRON_VALUE) as [Ev|Ev].
  - destruct (environ_scan_inside stop_value size buf2 (c1 + 1) (out1 + 1)) as (buf3 & c3 & out3 & -> & S3 & Hc3 & Ho3 & Hs3 & Hn3);
      [done|lia|lia|lia|lia|by intros _; apply He2|].
    assert (L3 : length buf3 = length buf2) by apply S3.
    cbn [obind]. rewrite wr_at_inside by lia. cbn [obind]. set (buf4 := <[out3 := 0]> buf3).
    pose proof (same_from_write c3 buf3 out3 0 ltac:(lia)) as S4. fold buf4 in S4.
    pose proof (same_from_trans c3 c3 _ _ _ S3 S4 ltac:(lia)) as S34.
    destruct (IH buf4 c3 (out3 + 1)%nat) as (es & buf' & ->); [|lia|lia| | | |cbn [obind]; eauto].
    + unfold buf4. rewrite length_insert. lia.
    + intros Hl. rewrite (same_from_rd c3 buf2) by (done || lia). by apply He2.
    + rewrite (environ_count_same buf3) by done. rewrite Hn3.
      rewrite (environ_count_next buf2 c1 Hl1), Ev in Hn2. exact Hn2.
    + intros Hl. rewrite (same_from_rd c3 buf3) by (done || lia). by apply Hs3.
  - destruct (IH buf2 c1 (out1 + 1)%nat) as (es & buf' & ->); [lia|lia|lia|done|done| |cbn [obind]; eauto].
    intros _. assert (Hsn : stop_name (rd buf2 c1) = true).
    { rewrite (same_from_rd c1 buf1) by done. by apply Hs1. }
    unfold stop_name, is_var in *. apply Z.eqb_neq in Ev. rewrite Ev, orb_false_r in Hsn. done.
Qed.

Lemma mssp_copy_inside fuel : forall buf c out,
  (size <= length buf)%nat -> (out < c)%nat -> (c <= size)%nat -> (size - c <= fuel)%nat ->
  exists buf' c' out', mssp_copy fuel buf c out size = Ret (buf', c', out') /\
    length buf' = length buf /\ (c <= c' <= size)%nat /\ (out' + c <= c' + out)%nat.
Proof.
  induction fuel as [|fuel IH]; intros buf c out Hlen Ho Hc Hf; cbn [mssp_copy].
  - exists buf, c, out. split_and!; done || lia.
  - case_bool_decide as Hlt; [|exists buf, c, out; split_and!; done || lia].
    destruct (stop_mssp (rd buf c)); [exists buf, c, out; split_and!; done || lia|].
    rewrite wr_at_inside by lia. cbn [obind].
    destruct (IH (<[out := rd buf c]> buf) (c + 1)%nat (out + 1)%nat) as (buf' & c' & out' & E & L & ?);
      [by rewrite length_insert|lia|lia|lia|].
    rewrite length_insert in L. exists buf', c', out'. split_and!; done || lia.
Qed.

(** The loop of MSSP, when the block goes on after the data. *)
Lemma mssp_parse_inside fuel : forall buf c out last var next acc,
  (size < length buf)%nat -> (out < c)%nat ->
  exists r, mssp_parse fuel buf c out last var next size acc = Ret r.
Proof.
  induction fuel as [|fuel IH]; intros buf c out last var next acc Hlen Ho; cbn [mssp_parse]; [by eauto|].
  case_bool_decide as Hlt; [|by eauto].
  destruct (mssp_copy_inside size buf c out) as (buf1 & c1 & out1 & -> & L1 & Hc1 & Ho1); [lia..|].
  cbn [obind]. rewrite wr_at_inside by lia. cbn [obind].
  assert (L2 : (size < length (<[out1 := 0%Z]> buf1))%nat) by (rewrite length_insert; lia).
  rewrite rd_at_inside by lia. cbn [obind]. repeat (case_match; try by eauto); apply IH; done || lia.
Qed.
End Inside.

(** A subnegotiation stays inside of its block, MSSP only when the data do not fill it. *)
Lemma subnegotiate_inside t :
  (sub_size t <= length (t_buffer t))%nat ->
  t_sb_telopt t <> TELNET_TELOPT_MSSP \/ (sub_size t < length (t_buffer t))%nat ->
  t_faults (the_state (subnegotiate t)) = t_faults t.
Proof.
  intros Hlen Hm.
  assert (He : t_faults (the_state (environ_telnet (t_sb_telopt t) (t_buffer t) (sub_size t) t)) = t_faults t).
  { unfold environ_telnet. set (size := sub_size t) in *. set (buf := t_buffer t) in *.
    case_bool_decide as H0; [done|]. case_match; [done|]. case_bool_decide as H1; [done|].
    destruct (is_var (rd buf 1)) eqn:Ev; [|done]. cbn [negb].
    destruct (Z.eqb_spec (rd buf (size - 1)) TELNET_ENVIRON_ESC) as [|Hesc]; [done|].
    destruct (environ_parse_inside size (environ_count size buf 1 size) buf 1 0) as (es & buf' & E);
      [done|lia|lia|by intros _|done|done|].
    rewrite E. unfold tlift, tbind, malloc, error, emit, tret, tmod, the_state.
    by repeat (case_match; simplify_eq/=). }
  assert (Hs : t_sb_telopt t = TELNET_TELOPT_MSSP ->
    t_faults (the_state (mssp_telnet (t_buffer t) (sub_size t) t)) = t_faults t).
  { intros Eo. destruct Hm as [|Hlt]; [done|]. unfold mssp_telnet.
    destruct (mssp_parse_inside (sub_size t) (sub_size t) (t_buffer t) 1 0 0 None (rd (t_buffer t) 0) [])
      as ([vs buf] & E); [done|lia|].
    rewrite E. unfold tlift, tbind, malloc, error, emit, tret, tmod, the_state.
    by repeat (case_match; simplify_eq/=). }
  unfold subnegotiate. unfold tbind at 1 2, tget, emit. unfold the_state in *.
  destruct (t_sb_telopt t =? TELNET_TELOPT_ZMP).
  { unfold zmp_telnet, tbind, malloc, error, emit, tret. by repeat (case_match; simplify_eq/=). }
  destruct (t_sb_telopt t =? TELNET_TELOPT_TTYPE).
  { unfold ttype_telnet, tbind, malloc, error, emit, tret. by repeat (case_match; simplify_eq/=). }
  destruct (_ || _).
  { destruct (environ_telnet _ _ _ t) as [[? ?] ?]. done. }
  destruct (Z.eqb_spec (t_sb_telopt t) TELNET_TELOPT_MSSP) as [Eo|]; [|done].
  specialize (Hs Eo). destruct (mssp_telnet _ _ t) as [[? ?] ?]. done.
Qed.

(** A name of 511 bytes fills the first block: the loop of MSSP reads the byte after it. *)
Example mssp_overread :
  let t := set_sb_telopt TELNET_TELOPT_MSSP
             (set_buffer (TELNET_MSSP_VAR :: replicate 511 65) 512 512 (telnet_init None 0 [])) in
  t_faults (the_state (subnegotiate t)) = 1%nat.
Proof. vm_compute. reflexivity. Qed.
