(* ===== verification/TelnetRecv.v ===== *)
(** * TelnetRecv: the receiving side of telnet.c

    [process] is [_process], the byte automaton; [telnet_recv] runs it on the bytes received.  The
    event handler [eh] is a parameter: it works on its own data [W] and may write to the array the
    received bytes lie in, which the automaton reads one byte at a time. *)

From Stdlib Require Import ZArith Lia String.
From stdpp Require Import base tactics numbers list sets.
From S2P Require Import Prelude Telnet TelnetSub.

Definition buffer_sizes : list Z := [0; 512; 2048; 8192; 16384].

(** The search loop of [_buffer_byte]: the index of the current size, or the number of sizes. *)
Fixpoint find_size (sizes : list Z) (size : Z) : nat :=
  match sizes with
  | [] => O
  | s :: sizes' => if s =? size then O else S (find_size sizes' size)
  end.

(** [_buffer_byte]: push a byte into the telnet buffer, which grows by steps.  A grown block keeps
    its bytes; the new ones are not initialised (here they are zero). *)
Definition buffer_byte (byte : Z) : tm telnet_error_t :=
  let* t := tget in
  let* rc :=
    if t_buffer_pos t =? t_buffer_size t then
      let i := find_size buffer_sizes (t_buffer_size t) in
      if bool_decide (length buffer_sizes - 1 <= i)%nat then
        error "_buffer_byte" TELNET_EOVERFLOW false "subnegotiation buffer size limit reached"
      else
        let* ok := malloc in
        if ok : bool then
          let size' := default 0 (buffer_sizes !! (i + 1)%nat) in
          tmod (fun t' => set_buffer
            (t_buffer t' ++ replicate (Z.to_nat size' - length (t_buffer t')) 0)
            size' (t_buffer_pos t') t') ;;;
          tret TELNET_EOK
        else error "_buffer_byte" TELNET_ENOMEM false "realloc() failed"
    else tret TELNET_EOK in
  match rc with
  | TELNET_EOK =>
      tmod (fun t' => set_buffer (<[Z.to_nat (t_buffer_pos t') := byte]> (t_buffer t'))
                        (t_buffer_size t') (t_buffer_pos t' + 1) t') ;;;
      tret TELNET_EOK
  | _ => tret rc
  end.

(** What the loop does after a byte: go on, return after [telnet_recv] of the rest of the buffer, or
    first run [_process] on this byte alone. *)
Inductive control : Type := Continue | Restart | Reprocess.

(** One iteration of the loop of [_process]: the [switch] on the state.  [src] is the buffer, [i] the
    position of [byte] in it and [start] the first byte not passed to the user yet; the result has
    the new [start]. *)
Definition process_byte (src : source) (i start : Z) (byte : Z) : tm (Z * control) :=
  let* t := tget in
  match t_state t with
  | TELNET_STATE_DATA =>
      if byte =? TELNET_IAC then
        (if negb (i =? start) then emit (TELNET_EV_DATA src start (size_t (i - start))) else tret tt) ;;;
        tmod (set_state TELNET_STATE_IAC) ;;;
        tret (start, Continue)
      else tret (start, Continue)
  | TELNET_STATE_IAC =>
      if byte =? TELNET_SB then tmod (set_state TELNET_STATE_SB) ;;; tret (start, Continue)
      else if byte =? TELNET_WILL then tmod (set_state TELNET_STATE_WILL) ;;; tret (start, Continue)
      else if byte =? TELNET_WONT then tmod (set_state TELNET_STATE_WONT) ;;; tret (start, Continue)
      else if byte =? TELNET_DO then tmod (set_state TELNET_STATE_DO) ;;; tret (start, Continue)
      else if byte =? TELNET_DONT then tmod (set_state TELNET_STATE_DONT) ;;; tret (start, Continue)
      else if byte =? TELNET_IAC then
        emit (TELNET_EV_DATA (SrcByte byte) 0 1) ;;;
        tmod (set_state TELNET_STATE_DATA) ;;;
        tret (i + 1, Continue)
      else
        emit (TELNET_EV_IAC byte) ;;;
        tmod (set_state TELNET_STATE_DATA) ;;;
        tret (i + 1, Continue)
  | TELNET_STATE_WILL | TELNET_STATE_WONT | TELNET_STATE_DO | TELNET_STATE_DONT =>
      negotiate byte ;;;
      tmod (set_state TELNET_STATE_DATA) ;;;
      tret (i + 1, Continue)
  | TELNET_STATE_SB =>
      tmod (set_sb_telopt byte) ;;;
      tmod (fun t' => set_buffer (t_buffer t') (t_buffer_size t') 0 t') ;;;
      tmod (set_state TELNET_STATE_SB_DATA) ;;;
      tret (start, Continue)
  | TELNET_STATE_SB_DATA =>
      if byte =? TELNET_IAC then
        tmod (set_state TELNET_STATE_SB_DATA_IAC) ;;; tret (start, Continue)
      else if (t_sb_telopt t =? TELNET_TELOPT_COMPRESS) && (byte =? TELNET_WILL) then
        tmod (set_state TELNET_STATE_DATA) ;;; tret (i + 2, Continue)
      else
        let* rc := buffer_byte byte in
        match rc with
        | TELNET_EOK => tret (start, Continue)
        | _ => tmod (set_state TELNET_STATE_DATA) ;;; tret (i + 1, Continue)
        end
  | TELNET_STATE_SB_DATA_IAC =>
      if byte =? TELNET_SE then
        tmod (set_state TELNET_STATE_DATA) ;;;
        let* rc := subnegotiate in
        tret (i + 1, if negb (rc =? 0) then Restart else Continue)
      else if byte =? TELNET_IAC then
        let* rc := buffer_byte TELNET_IAC in
        match rc with
        | TELNET_EOK => tmod (set_state TELNET_STATE_SB_DATA) ;;; tret (start, Continue)
        | _ => tmod (set_state TELNET_STATE_DATA) ;;; tret (i + 1, Continue)
        end
      else
        error "_process" TELNET_EPROTOCOL false "unexpected byte after IAC inside SB: %d" ;;;
        tmod (set_state TELNET_STATE_IAC) ;;;
        let* rc := subnegotiate in
        tret (i + 1, if negb (rc =? 0) then Restart else Reprocess)
  end.

(** The byte [i] of a buffer; [mem] is the array the received bytes lie in. *)
Definition read_src (src : source) (mem : list Z) (i : nat) : Z :=
  match src with
  | SrcBuffer base => default 0 (mem !! (base + i)%nat)
  | SrcByte b => b
  end.

(** [&buffer[start]]. *)
Definition src_from (src : source) (start : Z) : source :=
  match src with
  | SrcBuffer base => SrcBuffer (base + Z.to_nat start)
  | SrcByte b => SrcByte b
  end.

Section Process.
Context {W : Type}.
Variable eh : W -> list Z -> telnet_event_t -> W * list Z.

(** The handler is called on the events in order. *)
Definition deliver (w : W) (mem : list Z) (evs : list telnet_event_t) : W * list Z :=
  foldl (fun '(w, mem) e => eh w mem e) (w, mem) evs.

(** The loop of [_process]: [n] bytes are left; [rec] is [_process] itself. *)
Fixpoint process_loop
    (rec : telnet_t -> W -> list Z -> source -> nat -> option (telnet_t * W * list Z))
    (t : telnet_t) (w : W) (mem : list Z) (src : source) (n i : nat) (start : Z)
    : option (telnet_t * W * list Z) :=
  match n with
  | O =>
      if bool_decide (t_state t = TELNET_STATE_DATA) && negb (Z.of_nat i =? start) then
        let (w1, mem1) :=
          deliver w mem [TELNET_EV_DATA src start (size_t (Z.of_nat i - start))] in
        Some (t, w1, mem1)
      else Some (t, w, mem)
  | S n' =>
      let byte := read_src src mem i in
      let '((start1, ctl), t1, evs) := process_byte src (Z.of_nat i) start byte t in
      let (w1, mem1) := deliver w mem evs in
      match ctl with
      | Continue => process_loop rec t1 w1 mem1 src n' (S i) start1
      | Restart => rec t1 w1 mem1 (src_from src start1) n'
      | Reprocess =>
          match rec t1 w1 mem1 (SrcByte byte) 1%nat with
          | Some (t2, w2, mem2) => process_loop rec t2 w2 mem2 src n' (S i) start1
          | None => None
          end
      end
  end.

(** [_process] with at most [depth] nested calls. *)
Fixpoint process (depth : nat) (t : telnet_t) (w : W) (mem : list Z) (src : source) (size : nat)
    : option (telnet_t * W * list Z) :=
  match depth with
  | O => None
  | S depth' => process_loop (process depth') t w mem src size 0 0
  end.

(** [telnet_recv (telnet, mem, size)]; a nested call consumes a byte, so [size + 2] calls are
    enough ([telnet_recv_total]). *)
Definition telnet_recv (t : telnet_t) (w : W) (mem : list Z) (size : nat)
    : option (telnet_t * W * list Z) :=
  process (size + 2) t w mem (SrcBuffer 0) size.
End Process.

(** ** The subnegotiation buffer *)

(** The block has the size the counter says, and the bytes in use are inside it. *)
Definition buffer_ok (t : telnet_t) : Prop :=
  t_buffer_size t ∈ buffer_sizes /\ length (t_buffer t) = Z.to_nat (t_buffer_size t) /\
  0 <= t_buffer_pos t <= t_buffer_size t.

Definition keeps_buffer (t t' : telnet_t) : Prop := buffer_ok t -> buffer_ok t'.

#[export] Instance keeps_buffer_preorder : PreOrder keeps_buffer.
Proof. split; [intros ? H; exact H|intros t1 t2 t3 H1 H2 H; exact (H2 (H1 H))]. Qed.

Ltac buffer_tac :=
  first [ exact I | exact (fun H => H) | done
        | apply malloc_keeps; [apply _|intros ? ?; exact (fun H => H)] ].

Lemma set_rfc1143_keeps_buffer o u h : keeps keeps_buffer not_fatal (set_rfc1143 o u h).
Proof. unfold set_rfc1143, error. keeps_tac buffer_tac. Qed.

Lemma negotiate_keeps_buffer o : keeps keeps_buffer not_fatal (negotiate o).
Proof.
  unfold negotiate, send_negotiate, send, error.
  keeps_tac ltac:(first [apply set_rfc1143_keeps_buffer|buffer_tac]).
Qed.

Lemma subnegotiate_keeps_buffer : keeps keeps_buffer not_fatal subnegotiate.
Proof.
  intros t. destruct (subnegotiate_keeps t) as [Hc HQ]. split; [|done].
  pose proof (subnegotiate_buffer_length t) as Hl. unfold keeps_buffer, buffer_ok.
  destruct Hc as (_ & _ & _ & -> & -> & _). by rewrite Hl.
Qed.

(** The next size of the table is larger. *)
Lemma find_size_next size :
  size ∈ buffer_sizes -> (find_size buffer_sizes size < 4)%nat ->
  let size' := default 0 (buffer_sizes !! (find_size buffer_sizes size + 1)%nat) in
  size' ∈ buffer_sizes /\ 0 <= size < size'.
Proof.
  intros Hin Hlt.
  repeat (apply elem_of_cons in Hin as [->|Hin];
    [cbn in *; split; [unfold buffer_sizes; set_solver|lia]|]).
  by apply not_elem_of_nil in Hin.
Qed.

(** The last step of [buffer_byte] writes inside the block. *)
Lemma push_byte_ok t b :
  buffer_ok t -> t_buffer_pos t < t_buffer_size t ->
  buffer_ok (set_buffer (<[Z.to_nat (t_buffer_pos t) := b]> (t_buffer t)) (t_buffer_size t)
               (t_buffer_pos t + 1) t).
Proof.
  unfold buffer_ok. simpl. intros (Hin & Hlen & Hpos) Hlt. rewrite length_insert.
  split_and!; try done; lia.
Qed.

Lemma buffer_byte_keeps b : keeps keeps_buffer not_fatal (buffer_byte b).
Proof.
  intros t. unfold buffer_byte, tbind, tget, error, emit, tret, tmod, the_state, the_events.
  destruct (Z.eqb_spec (t_buffer_pos t) (t_buffer_size t)) as [Heq|Hne].
  - case_bool_decide as Hi; simpl; [split; [exact (fun H => H)|by repeat constructor]|].
    unfold malloc. destruct (t_mallocs t) as [|[] m]; simpl;
      (split; [|by repeat constructor]); intros (Hin & Hlen & Hpos); try done.
    all: destruct (find_size_next _ Hin) as [Hin' Hlt]; [change (length buffer_sizes) with 5%nat in Hi; lia|].
    all: set (size' := default 0 _) in *.
    all: refine (push_byte_ok (set_buffer _ size' _ _) b _ _); [|simpl; lia].
    all: split_and!; simpl; try done; try lia.
    all: rewrite length_app, length_replicate; lia.
  - simpl. split; [|by repeat constructor]. intros (Hin & Hlen & Hpos).
    apply (push_byte_ok t b); [done|lia].
Qed.

Lemma reset_pos_ok t : keeps_buffer t (set_buffer (t_buffer t) (t_buffer_size t) 0 t).
Proof. intros (Hin & Hlen & Hpos). split_and!; simpl; try done; lia. Qed.

Lemma process_byte_keeps src i start byte : keeps keeps_buffer not_fatal (process_byte src i start byte).
Proof.
  unfold process_byte, error.
  keeps_tac ltac:(first [ apply negotiate_keeps_buffer | apply subnegotiate_keeps_buffer
                        | apply buffer_byte_keeps | apply reset_pos_ok | buffer_tac ]).
Qed.

(** ** Lifting a routine's relation to the whole automaton *)

Section Lift.
Context {W : Type} (eh : W -> list Z -> telnet_event_t -> W * list Z).
Context (P : telnet_t -> telnet_t -> Prop) (Q : telnet_event_t -> Prop) `{!PreOrder P}.
Hypothesis Hbyte : forall src i start byte, keeps P Q (process_byte src i start byte).

Lemma process_keeps depth t w mem src size t' w' mem' :
  process eh depth t w mem src size = Some (t', w', mem') -> P t t'.
Proof.
  revert t w mem src size t' w' mem'.
  induction depth as [|depth IH]; intros t w mem src size t' w' mem'; simpl; [done|].
  generalize 0%nat at 1 as i. generalize 0 as start. revert t w mem.
  induction size as [|n IHn]; intros t w mem start i; simpl.
  - repeat case_match; intros; by simplify_eq.
  - destruct (Hbyte src (Z.of_nat i) start (read_src src mem i) t) as [HP _].
    destruct (process_byte src (Z.of_nat i) start (read_src src mem i) t) as [[[start1 ctl] t1] evs].
    simpl in HP. destruct (deliver eh w mem evs) as [w1 mem1].
    destruct ctl.
    + intros H. transitivity t1; [done|]. by apply IHn in H.
    + intros H. transitivity t1; [done|]. by apply IH in H.
    + destruct (process eh depth t1 w1 mem1 (SrcByte _) 1) as [[[t2 w2] mem2]|] eqn:E; [|done].
      intros H. apply IH in E. apply IHn in H. transitivity t1; [done|]. by transitivity t2.
Qed.
End Lift.

(** ** Termination *)

Lemma process_byte_reprocess src i start byte t start1 t1 evs :
  process_byte src i start byte t = (start1, Reprocess, t1, evs) -> t_state t1 = TELNET_STATE_IAC.
Proof.
  unfold process_byte, tbind, tget, tret, tmod, emit, error.
  destruct (t_state t) eqn:Es; intros H;
    repeat (case_match; simplify_eq/=; try done); try (by simplify_eq).
  match goal with
  | E : subnegotiate ?t0 = _ |- _ =>
      destruct (subnegotiate_keeps t0) as [(_ & _ & _ & _ & _ & Hs & _) _]; rewrite E in Hs
  end.
  done.
Qed.

Lemma process_byte_iac src i start byte t start1 ctl t1 evs :
  t_state t = TELNET_STATE_IAC -> process_byte src i start byte t = (start1, ctl, t1, evs) ->
  ctl = Continue.
Proof.
  unfold process_byte, tbind, tget, tret, tmod, emit. intros ->. simpl.
  intros H. repeat (case_match; simplify_eq/=; try done).
Qed.

Section Termination.
Context {W : Type} (eh : W -> list Z -> telnet_event_t -> W * list Z).

(** A byte handled in state IAC needs no nested call. *)
Lemma process_one_iac depth t w mem b :
  t_state t = TELNET_STATE_IAC -> is_Some (process eh (S depth) t w mem (SrcByte b) 1).
Proof.
  intros Hs. simpl. destruct (process_byte _ _ _ b t) as [[[start1 ctl] t1] evs] eqn:E.
  rewrite (process_byte_iac _ _ _ _ _ _ _ _ _ Hs E).
  destruct (deliver eh w mem evs) as [w1 mem1]. simpl. repeat case_match; eauto.
Qed.

Lemma process_total depth t w mem src size :
  (size + 2 <= depth)%nat -> is_Some (process eh depth t w mem src size).
Proof.
  revert t w mem src size. induction depth as [|depth IH]; intros t w mem src size Hle; [lia|].
  simpl. assert (Hn : (size + 1 <= depth)%nat) by lia. clear Hle.
  generalize 0%nat at 1 as i. generalize 0 as start. revert t w mem Hn.
  induction size as [|n IHn]; intros t w mem Hn start i; simpl.
  - repeat case_match; eauto.
  - destruct (process_byte _ _ _ _ t) as [[[start1 ctl] t1] evs] eqn:E.
    destruct (deliver eh w mem evs) as [w1 mem1]. destruct ctl.
    + apply IHn. lia.
    + apply IH. lia.
    + apply process_byte_reprocess in E. destruct depth as [|depth]; [lia|].
      destruct (process_one_iac depth t1 w1 mem1 (read_src src mem i) E) as [[[t2 w2] mem2] ->].
      apply IHn. lia.
Qed.
End Termination.

(** What the handler keeps true of its own data, the receiver keeps true. *)
Section Handler.
Context {W : Type} (eh : W -> list Z -> telnet_event_t -> W * list Z) (I : W -> Prop).
Hypothesis Heh : forall w mem e, I w -> I (eh w mem e).1.

Lemma deliver_handler evs : forall w mem, I w -> I (deliver eh w mem evs).1.
Proof.
  unfold deliver. induction evs as [|e evs IH]; intros w mem Hw; [done|]. cbn [foldl].
  specialize (Heh w mem e Hw). destruct (eh w mem e) as [w1 mem1]. by apply IH.
Qed.

Lemma process_handler depth : forall t w mem src size t' w' mem',
  process eh depth t w mem src size = Some (t', w', mem') -> I w -> I w'.
Proof.
  induction depth as [|depth IH]; intros t w mem src size t' w' mem'; [done|]. cbn [process].
  generalize 0%nat at 1 as i. generalize 0 as start. revert t w mem.
  induction size as [|n IHn]; intros t w mem start i; cbn [process_loop].
  - destruct (_ && _); [|intros H Hw; by simplify_eq].
    destruct (deliver eh w mem _) as [w1 mem1] eqn:E. intros H Hw. simplify_eq.
    pose proof (deliver_handler [TELNET_EV_DATA src start (size_t (Z.of_nat i - start))] w mem Hw) as H1.
    by rewrite E in H1.
  - destruct (process_byte _ _ _ _ t) as [[[start1 ctl] t1] evs].
    destruct (deliver eh w mem evs) as [w1 mem1] eqn:E. intros H Hw.
    assert (H1 : I w1) by (pose proof (deliver_handler evs w mem Hw) as H1; by rewrite E in H1).
    destruct ctl; [by eapply IHn|by eapply IH|].
    destruct (process eh depth t1 w1 mem1 (SrcByte _) 1) as [[[t2 w2] mem2]|] eqn:E2; [|done].
    eapply IHn; [exact H|]. by eapply IH.
Qed.
End Handler.

(** ** Plain data *)

Section Plain.
Context {W : Type} (eh : W -> list Z -> telnet_event_t -> W * list Z).

Lemma process_loop_plain rec t w mem n : forall i,
  t_state t = TELNET_STATE_DATA ->
  Forall (fun b => b <> TELNET_IAC) (take n (drop i mem)) -> (i + n <= length mem)%nat ->
  (0 < i + n)%nat ->
  process_loop eh rec t w mem (SrcBuffer 0) n i 0 =
    let (w1, mem1) := eh w mem (TELNET_EV_DATA (SrcBuffer 0) 0 (size_t (Z.of_nat (i + n)))) in
    Some (t, w1, mem1).
Proof.
  induction n as [|n IH]; intros i Hs Hb Hlen Hpos.
  - cbn [process_loop]. rewrite bool_decide_eq_true_2 by done.
    destruct (Z.eqb_spec (Z.of_nat i) 0); [lia|]. cbn [negb andb].
    unfold deliver. cbn [foldl]. by rewrite Z.sub_0_r, Nat.add_0_r.
  - destruct (lookup_lt_is_Some_2 mem i) as [b Hi]; [lia|].
    rewrite (drop_S _ _ _ Hi) in Hb. cbn [take] in Hb. apply Forall_cons in Hb as [Hb Hbs].
    cbn [process_loop read_src]. rewrite Nat.add_0_l, Hi. cbn [default from_option id].
    unfold process_byte, tbind, tget, tret. rewrite Hs. apply Z.eqb_neq in Hb. rewrite Hb.
    unfold deliver. cbn [app foldl]. rewrite IH by (try done; lia). by rewrite Nat.add_succ_comm.
Qed.

(** A chunk without IAC, in state DATA, is delivered as one data event. *)
Lemma telnet_recv_plain t w mem n :
  t_state t = TELNET_STATE_DATA -> Forall (fun b => b <> TELNET_IAC) (take n mem) ->
  (0 < n <= length mem)%nat -> Z.of_nat (length mem) < 2 ^ 64 ->
  telnet_recv eh t w mem n =
    let (w1, mem1) := eh w mem (TELNET_EV_DATA (SrcBuffer 0) 0 (Z.of_nat n)) in Some (t, w1, mem1).
Proof.
  intros Hs Hb Hn Hlen. unfold telnet_recv. rewrite Nat.add_comm. cbn [Nat.add process].
  rewrite process_loop_plain by (rewrite ?drop_0; try done; lia).
  by rewrite size_t_id by lia.
Qed.
End Plain.

(** C20: [telnet_recv] terminates on every input, in every state of the tracker, whatever the handler
    does to its data and to the received bytes and whatever [malloc] answers; and the
    subnegotiation buffer stays well formed: its block has the size the tracker records, one of the
    five of the table, and the bytes in use lie inside it. *)
Theorem telnet_recv_total_safe {W : Type} (eh : W -> list Z -> telnet_event_t -> W * list Z)
    (t : telnet_t) (w : W) (mem : list Z) (size : nat) :
  buffer_ok t ->
  exists t' w' mem', telnet_recv eh t w mem size = Some (t', w', mem') /\ buffer_ok t'.
Proof.
  intros Hok. destruct (process_total eh (size + 2) t w mem (SrcBuffer 0) size) as [[[t' w'] mem'] E];
    [lia|].
  exists t', w', mem'. split; [exact E|].
  exact (process_keeps eh keeps_buffer not_fatal process_byte_keeps _ _ _ _ _ _ _ _ _ E Hok).
Qed.

Lemma telnet_recv_total_safe_witness :
  exists t' w' mem',
    telnet_recv (fun (n : nat) mem _ => (S n, <[0%nat := 255]> mem)) (telnet_init None 0 []) 0%nat
      [255; 250; 36; 0; 255; 240; 255; 241] 8 = Some (t', w', mem') /\ buffer_ok t'.
Proof.
  apply (telnet_recv_total_safe (fun (n : nat) mem _ => (S n, <[0%nat := 255]> mem))).
  split; [constructor|]. split; [reflexivity|]. split; discriminate.
Defined.
