(* ===== verification/TelnetSpec.v ===== *)
(** * TelnetSpec: the receiver of telnet.c, byte by byte

    The receiver without its buffer: the switch of the code taken one byte at a time, the proof that the
    buffered loop, its runs of data and its nested calls come to the same, and what follows: independence
    of how the stream is cut into [recv] chunks.  What the switch does is stated independently in
    [TelnetRx]. *)

From Stdlib Require Import ZArith Lia String.
From stdpp Require Import base tactics numbers list sets.
From S2P Require Import Prelude Telnet TelnetSub TelnetRecv.

(** ** Observations *)

(** The handler that records the events and leaves the buffer alone. *)
Definition eh_trace (w : list telnet_event_t) (mem : list Z) (e : telnet_event_t)
    : list telnet_event_t * list Z := (w ++ [e], mem).

(** [telnet_recv] with that handler: the tracker and the events. *)
Definition recv_events (t : telnet_t) (mem : list Z) (size : nat)
    : option (telnet_t * list telnet_event_t) :=
  match telnet_recv eh_trace t [] mem size with
  | Some (t', evs, _) => Some (t', evs)
  | None => None
  end.

(** What a user sees: data byte by byte, whatever runs it comes in, and the other events. *)
Inductive revent : Type :=
| RData (b : Z)
| REvent (e : telnet_event_t).

Definition observe (mem : list Z) (e : telnet_event_t) : list revent :=
  match e with
  | TELNET_EV_DATA (SrcBuffer base) off size =>
      RData <$> take (Z.to_nat size) (drop (base + Z.to_nat off) mem)
  | TELNET_EV_DATA (SrcByte b) _ _ => [RData b]
  | _ => [REvent e]
  end.

Definition observes (mem : list Z) (evs : list telnet_event_t) : list revent :=
  evs ≫= observe mem.

(** ** One byte at a time *)

(** One byte of the stream, as the code's switch handles it.  In state DATA a byte other than IAC is data; in the other states
    the byte is handled by the [switch], twice when it is an unexpected command inside a
    subnegotiation. *)
Definition byte_step (t : telnet_t) (b : Z) : telnet_t * list revent :=
  match t_state t with
  | TELNET_STATE_DATA =>
      if b =? TELNET_IAC then (set_state TELNET_STATE_IAC t, []) else (t, [RData b])
  | _ =>
      let '((_, ctl), t1, evs) := process_byte (SrcByte b) 0 0 b t in
      match ctl with
      | Reprocess =>
          let '(_, t2, evs2) := process_byte (SrcByte b) 0 0 b t1 in
          (t2, observes [] (evs ++ evs2))
      | _ => (t1, observes [] evs)
      end
  end.

Fixpoint bytes_run (t : telnet_t) (bs : list Z) : telnet_t * list revent :=
  match bs with
  | [] => (t, [])
  | b :: bs' =>
      let (t1, r1) := byte_step t b in
      let (t2, r2) := bytes_run t1 bs' in
      (t2, r1 ++ r2)
  end.

(** The byte ends an MCCPv1 sequence (IAC SB 85 WILL), which the code discards with the byte after
    it. *)
Definition mccp1 (t : telnet_t) (b : Z) : bool :=
  bool_decide (t_state t = TELNET_STATE_SB_DATA) && (t_sb_telopt t =? TELNET_TELOPT_COMPRESS) &&
  (b =? TELNET_WILL).

Fixpoint no_mccp1 (t : telnet_t) (bs : list Z) : bool :=
  match bs with
  | [] => true
  | b :: bs' => negb (mccp1 t b) && no_mccp1 (byte_step t b).1 bs'
  end.

(** ** Lemmas *)

Lemma observes_app mem a b : observes mem (a ++ b) = observes mem a ++ observes mem b.
Proof. apply bind_app. Qed.

Lemma deliver_trace w mem evs : deliver eh_trace w mem evs = (w ++ evs, mem).
Proof.
  revert w. induction evs as [|e evs IH]; intros w.
  - by rewrite app_nil_r.
  - change (deliver eh_trace (w ++ [e]) mem evs = (w ++ [e] ++ evs, mem)).
    by rewrite IH, <- app_assoc.
Qed.

#[local] Arguments subnegotiate : simpl never.
#[local] Arguments negotiate : simpl never.
#[local] Arguments buffer_byte : simpl never.
#[local] Arguments process_byte : simpl never.

(** The event does not point into the receive buffer. *)
Definition no_buffer (e : telnet_event_t) : Prop :=
  match e with TELNET_EV_DATA (SrcBuffer _) _ _ => False | _ => True end.

Lemma observes_no_buffer mem evs : Forall no_buffer evs -> observes mem evs = observes [] evs.
Proof.
  induction 1 as [|e evs He _ IH]; [done|].
  change (observe mem e ++ observes mem evs = observe [] e ++ observes [] evs).
  rewrite IH. by destruct e as [[]| | | | | | | | | | | | |].
Qed.

Definition any_state (t t' : telnet_t) : Prop := True.
#[export] Instance any_state_preorder : PreOrder any_state.
Proof. done. Qed.

Ltac nb_tac := first [exact I | reflexivity | apply malloc_keeps; [apply _|intros ? ?; first [exact I|reflexivity]]].

Lemma negotiate_no_buffer o : keeps any_state no_buffer (negotiate o).
Proof. unfold negotiate, set_rfc1143, send_negotiate, send, error. keeps_tac nb_tac. Qed.

Lemma subnegotiate_no_buffer : keeps any_state no_buffer subnegotiate.
Proof.
  unfold subnegotiate, zmp_telnet, ttype_telnet, environ_telnet, mssp_telnet, tlift, error.
  keeps_tac nb_tac.
Qed.

Definition same_state (t t' : telnet_t) : Prop := t_state t' = t_state t.
#[export] Instance same_state_preorder : PreOrder same_state.
Proof. split; [done|]. intros t1 t2 t3 H1 H2. unfold same_state in *. congruence. Qed.

Lemma buffer_byte_no_buffer b : keeps same_state no_buffer (buffer_byte b).
Proof. unfold buffer_byte, error. keeps_tac nb_tac. Qed.

(** Give the result of a branch once its tests are decided. *)
Ltac shape_with :=
  do 3 eexists;
  (split; [intros src i start; eexists; split; [reflexivity|cbn; intuition congruence]|]);
  (split; [done|rewrite ?app_nil_r; try done; repeat (assumption || constructor)]).
Ltac shape_keeps H :=
  let Hst := fresh "Hst" in let Hq := fresh "Hq" in
  pose proof H as [Hst Hq]; unfold the_state, the_events, same_state in Hst, Hq.

(** Outside of state DATA, a byte has the same effect wherever it lies in the buffer. *)
Lemma process_byte_shape t b :
  t_state t <> TELNET_STATE_DATA -> mccp1 t b = false ->
  exists ctl t1 evs,
    (forall src i start, exists start1,
       process_byte src i start b t = (start1, ctl, t1, evs) /\
       ((t_state t1 = TELNET_STATE_DATA \/ ctl <> Continue) -> start1 = i + 1)) /\
    (ctl <> Continue -> t_state t <> TELNET_STATE_IAC) /\
    Forall no_buffer evs.
Proof.
  intros Hs Hm. unfold mccp1 in Hm.
  unfold process_byte, tbind, tget, tret, tmod, emit, error.
  destruct (t_state t) eqn:Es; try done; cbn in Hm |- *.
  - repeat (case_match; [shape_with|]). shape_with.
  - shape_keeps (negotiate_no_buffer b t). destruct (negotiate b t) as [[[] t1] e1]. shape_with.
  - shape_keeps (negotiate_no_buffer b t). destruct (negotiate b t) as [[[] t1] e1]. shape_with.
  - shape_keeps (negotiate_no_buffer b t). destruct (negotiate b t) as [[[] t1] e1]. shape_with.
  - shape_keeps (negotiate_no_buffer b t). destruct (negotiate b t) as [[[] t1] e1]. shape_with.
  - shape_with.
  - destruct (b =? TELNET_IAC); [shape_with|].
    rewrite bool_decide_eq_true_2 in Hm by done. simpl in Hm. rewrite Hm.
    shape_keeps (buffer_byte_no_buffer b t). destruct (buffer_byte b t) as [[[] t1] e1]; cbn in Hst, Hq; shape_with.
  - destruct (b =? TELNET_SE); [|destruct (b =? TELNET_IAC)].
    + shape_keeps (subnegotiate_no_buffer (set_state TELNET_STATE_DATA t)).
      destruct (subnegotiate _) as [[rc t1] e1]. cbn in Hq. destruct (negb (rc =? 0)); shape_with.
    + shape_keeps (buffer_byte_no_buffer TELNET_IAC t).
      destruct (buffer_byte TELNET_IAC t) as [[[] t1] e1]; cbn in Hst, Hq; shape_with.
    + shape_keeps (subnegotiate_no_buffer (set_state TELNET_STATE_IAC t)).
      destruct (subnegotiate _) as [[rc t1] e1]. cbn in Hq. destruct (negb (rc =? 0)); shape_with.
Qed.

(** *** The loop *)

(** The data passed over and not delivered yet. *)
Definition pending (t : telnet_t) (mem : list Z) (base i : nat) (start : Z) : list revent :=
  if bool_decide (t_state t = TELNET_STATE_DATA)
  then RData <$> take (i - Z.to_nat start) (drop (base + Z.to_nat start) mem) else [].

(** In state DATA, [start] is a position of the buffer already passed over. *)
Definition start_ok (t : telnet_t) (i : nat) (start : Z) : Prop :=
  t_state t = TELNET_STATE_DATA -> 0 <= start <= Z.of_nat i.

Lemma pending_none t mem base i : pending t mem base i (Z.of_nat i) = [].
Proof. unfold pending. rewrite Nat2Z.id, Nat.sub_diag. by case_bool_decide. Qed.

Lemma pending_other t mem base i start : t_state t <> TELNET_STATE_DATA -> pending t mem base i start = [].
Proof. intros H. unfold pending. by rewrite bool_decide_eq_false_2. Qed.

Lemma size_t_small z : 0 <= z < 2 ^ 64 -> size_t z = z.
Proof. intros H. apply Z.mod_small. lia. Qed.

(** The event that flushes the pending data shows them. *)
Lemma observe_pending t mem base i start :
  t_state t = TELNET_STATE_DATA -> 0 <= start <= Z.of_nat i -> Z.of_nat (length mem) < 2 ^ 64 ->
  (base + i <= length mem)%nat ->
  observe mem (TELNET_EV_DATA (SrcBuffer base) start (size_t (Z.of_nat i - start)))
  = pending t mem base i start.
Proof.
  intros Ht Hs Hl Hi. unfold pending. rewrite bool_decide_eq_true_2 by done. simpl.
  rewrite size_t_small by lia. do 2 f_equal. lia.
Qed.

Lemma byte_step_other t b ctl t1 evs s1 :
  t_state t <> TELNET_STATE_DATA ->
  process_byte (SrcByte b) 0 0 b t = (s1, ctl, t1, evs) -> ctl <> Reprocess ->
  byte_step t b = (t1, observes [] evs).
Proof.
  intros Hs Hb Hc. unfold byte_step. rewrite Hb.
  destruct (t_state t); try done; by destruct ctl.
Qed.

Lemma pending_snoc t mem base i start b :
  t_state t = TELNET_STATE_DATA -> start_ok t i start -> mem !! (base + i)%nat = Some b ->
  pending t mem base (S i) start = pending t mem base i start ++ [RData b].
Proof.
  intros Ht Hok Hb. specialize (Hok Ht). unfold pending. rewrite bool_decide_eq_true_2 by done.
  replace (S i - Z.to_nat start)%nat with (S (i - Z.to_nat start)) by lia.
  rewrite (take_S_r _ _ b), fmap_app; [done|].
  rewrite lookup_drop, <- Hb. f_equal. lia.
Qed.

(** One iteration that goes on: the events it delivers and the data then pending are what was
    pending before, and what the byte gives on its own. *)
Lemma step_continue t mem base i start b start1 t1 evs :
  start_ok t i start -> mccp1 t b = false -> Z.of_nat (length mem) < 2 ^ 64 ->
  mem !! (base + i)%nat = Some b ->
  process_byte (SrcBuffer base) (Z.of_nat i) start b t = (start1, Continue, t1, evs) ->
  exists r, byte_step t b = (t1, r) /\ start_ok t1 (S i) start1 /\
    observes mem evs ++ pending t1 mem base (S i) start1 = pending t mem base i start ++ r.
Proof.
  intros Hok Hm Hl Hb Hp. pose proof (lookup_lt_Some _ _ _ Hb) as Hlt.
  destruct (decide (t_state t = TELNET_STATE_DATA)) as [Hs|Hs].
  - revert Hp. unfold process_byte, byte_step, tbind, tget, tret, tmod, emit. rewrite Hs. cbn.
    destruct (b =? TELNET_IAC); cbn.
    + intros Hp. exists []. rewrite app_nil_r.
      destruct (Z.eqb_spec (Z.of_nat i) start) as [<-|Hne]; cbn in Hp; simplify_eq.
      * split_and!; [done|intros ?; done|]. by rewrite pending_none.
      * split_and!; [done|intros ?; done|].
        rewrite (pending_other (set_state _ _)), app_nil_r by done.
        rewrite <- (observe_pending t) by (try done; try lia; by apply Hok). by apply app_nil_r.
    + intros Hp. simplify_eq. exists [RData b].
      split_and!; [done|intros Ht; specialize (Hok Ht); lia|].
      by rewrite (pending_snoc _ _ _ _ _ b).
  - destruct (process_byte_shape t b Hs Hm) as (ctl & t2 & evs2 & Hshape & _ & Hnb).
    destruct (Hshape (SrcByte b) 0 0) as (s0 & Hp0 & _).
    destruct (Hshape (SrcBuffer base) (Z.of_nat i) start) as (s2 & Hp2 & Hs2).
    rewrite Hp in Hp2. simplify_eq. exists (observes [] evs2).
    split_and!; [by eapply byte_step_other|intros Ht; rewrite Hs2 by auto; lia|].
    rewrite (observes_no_buffer mem) by done. rewrite (pending_other t) by done.
    destruct (decide (t_state t2 = TELNET_STATE_DATA)) as [Hs3|Hs3].
    + rewrite Hs2 by auto. replace (Z.of_nat i + 1) with (Z.of_nat (S i)) by lia.
      rewrite pending_none. by rewrite app_nil_r.
    + rewrite pending_other by done. by rewrite app_nil_r.
Qed.

(** A command handled again after an unexpected end of a subnegotiation. *)
Lemma process_one_trace depth t w mem b :
  (0 < depth)%nat -> t_state t = TELNET_STATE_IAC ->
  exists evs s1 t1, process_byte (SrcByte b) 0 0 b t = (s1, Continue, t1, evs) /\
    Forall no_buffer evs /\
    process eh_trace depth t w mem (SrcByte b) 1 = Some (t1, w ++ evs, mem).
Proof.
  intros Hd0 Hs. destruct depth as [|depth]; [lia|]. assert (Hd : t_state t <> TELNET_STATE_DATA) by (by rewrite Hs).
  assert (Hm : mccp1 t b = false) by (unfold mccp1; rewrite Hs; done).
  destruct (process_byte_shape t b Hd Hm) as (ctl & t1 & evs & Hshape & Hc & Hnb).
  destruct (Hshape (SrcByte b) 0 0) as (s1 & Hp & Hs1).
  pose proof (process_byte_iac _ _ _ _ _ _ _ _ _ Hs Hp) as ->.
  exists evs, s1, t1. split_and!; [done|done|].
  cbn [process process_loop read_src]. change (Z.of_nat 0) with 0. rewrite Hp, deliver_trace.
  case_bool_decide as Ht; [|done]. rewrite Hs1 by auto. done.
Qed.

(** The iterations that make a nested call. *)
Lemma step_nested t base i start b start1 ctl t1 evs :
  ctl <> Continue -> mccp1 t b = false ->
  process_byte (SrcBuffer base) i start b t = (start1, ctl, t1, evs) ->
  t_state t <> TELNET_STATE_DATA /\ start1 = i + 1 /\ Forall no_buffer evs /\
  exists s1, process_byte (SrcByte b) 0 0 b t = (s1, ctl, t1, evs).
Proof.
  intros Hc Hm Hp. destruct (decide (t_state t = TELNET_STATE_DATA)) as [Hs|Hs].
  - exfalso. revert Hp. unfold process_byte, tbind, tget, tret, tmod, emit. rewrite Hs. cbn.
    by repeat (case_match; simplify_eq/=); intros ?; simplify_eq.
  - destruct (process_byte_shape t b Hs Hm) as (ctl2 & t2 & evs2 & Hshape & _ & Hnb).
    destruct (Hshape (SrcByte b) 0 0) as (s0 & Hp0 & _).
    destruct (Hshape (SrcBuffer base) i start) as (s2 & Hp2 & Hs2).
    rewrite Hp in Hp2. simplify_eq. split_and!; [done|by auto|done|by eauto].
Qed.

(** The run over the bytes [i], [i + 1], ... of the array. *)
Notation spec_from t mem base i n := (bytes_run t (take n (drop (base + i)%nat mem))) (only parsing).

(** What [process] must be shown to do, for the nested calls of the loop. *)
Definition process_ok (depth : nat) : Prop :=
  forall base n t w mem,
    (n + 2 <= depth)%nat -> (base + n <= length mem)%nat -> Z.of_nat (length mem) < 2 ^ 64 ->
    no_mccp1 t (take n (drop base mem)) = true ->
    exists evs,
      process eh_trace depth t w mem (SrcBuffer base) n =
        Some ((bytes_run t (take n (drop base mem))).1, w ++ evs, mem) /\
      observes mem evs = (bytes_run t (take n (drop base mem))).2.

(** The loop shows what was pending and what the bytes left give one at a time. *)
Section Loop.
Context (depth base : nat) (mem : list Z).
Hypothesis IH : process_ok depth.
Hypothesis Hsz : Z.of_nat (length mem) < 2 ^ 64.

Definition loop_ok (n i : nat) (start : Z) (t : telnet_t) (w : list telnet_event_t) : Prop :=
  exists evs,
    process_loop eh_trace (process eh_trace depth) t w mem (SrcBuffer base) n i start =
      Some ((spec_from t mem base i n).1, w ++ evs, mem) /\
    observes mem evs = pending t mem base i start ++ (spec_from t mem base i n).2.

Lemma loop_end i start t w :
  (base + i <= length mem)%nat -> start_ok t i start -> loop_ok 0 i start t w.
Proof.
  intros Hlen Hok. unfold loop_ok. cbn [process_loop take bytes_run fst snd]. rewrite app_nil_r.
  case_bool_decide as Ht; [destruct (Z.eqb_spec (Z.of_nat i) start) as [<-|Hne]|]; simpl.
  - exists []. by rewrite app_nil_r, pending_none.
  - eexists. split; [done|].
    rewrite <- observe_pending; [by apply app_nil_r|done|by apply Hok|lia|lia].
  - exists []. by rewrite app_nil_r, pending_other.
Qed.

(** A nested call on the rest of the buffer, in place of the rest of the loop. *)
Lemma loop_restart n i start b t w t1 evs1 start1 :
  (n + 2 <= depth)%nat -> (base + i + S n <= length mem)%nat -> mccp1 t b = false ->
  process_byte (SrcBuffer base) (Z.of_nat i) start b t = (start1, Restart, t1, evs1) ->
  no_mccp1 (byte_step t b).1 (take n (drop (base + S i) mem)) = true ->
  exists evs,
    process eh_trace depth t1 (w ++ evs1) mem (src_from (SrcBuffer base) start1) n =
      Some ((spec_from (byte_step t b).1 mem base (S i) n).1, w ++ evs, mem) /\
    observes mem evs = pending t mem base i start ++ (byte_step t b).2 ++
      (spec_from (byte_step t b).1 mem base (S i) n).2.
Proof.
  intros Hd Hlen Hm1 Hp Hm.
  destruct (step_nested t base (Z.of_nat i) start b start1 Restart t1 evs1)
    as (Hs & -> & Hnb & s1 & Hb1); [done|done|done|].
  rewrite (byte_step_other _ _ _ _ _ _ Hs Hb1) in Hm |- * by done. cbn [fst snd] in Hm |- *.
  cbn [src_from]. replace (base + Z.to_nat (Z.of_nat i + 1))%nat with (base + S i)%nat by lia.
  destruct (IH (base + S i)%nat n t1 (w ++ evs1) mem) as (evs & -> & Hev); [lia|lia|done|done|].
  exists (evs1 ++ evs). rewrite <- app_assoc.
  split; [done|]. by rewrite observes_app, Hev, observes_no_buffer, pending_other.
Qed.

Lemma process_loop_spec n : forall i start t w,
  (n + 1 <= depth)%nat -> (base + i + n <= length mem)%nat -> start_ok t i start ->
  no_mccp1 t (take n (drop (base + i) mem)) = true -> loop_ok n i start t w.
Proof.
  induction n as [|n IHn]; intros i start t w Hd Hlen Hok Hm; [apply loop_end; [lia|done]|].
  destruct (lookup_lt_is_Some_2 mem (base + i)) as [b Hb]; [lia|].
  unfold loop_ok. rewrite (drop_S _ _ _ Hb) in Hm |- *.
  replace (S (base + i)) with (base + S i)%nat in Hm |- * by lia.
  cbn [take no_mccp1 bytes_run] in Hm |- *. apply andb_prop in Hm as [Hm1 Hm].
  apply negb_true_iff in Hm1.
  cbn [process_loop read_src]. rewrite Hb. cbn [default from_option id].
  destruct (process_byte (SrcBuffer base) (Z.of_nat i) start b t) as [[[start1 ctl] t1] evs1] eqn:Hp.
  rewrite deliver_trace. destruct ctl.
  - destruct (step_continue _ _ _ _ _ _ _ _ _ Hok Hm1 Hsz Hb Hp) as (r & Hr & Hok1 & Hobs).
    rewrite Hr in Hm |- *. cbn [fst] in Hm.
    destruct (IHn (S i) start1 t1 (w ++ evs1)) as (evs & -> & Hev); [lia|lia|done|done|].
    destruct (bytes_run t1 _) as [t2 r2]. exists (evs1 ++ evs). rewrite <- app_assoc.
    split; [done|]. rewrite observes_app, Hev, app_assoc, Hobs, <- app_assoc. done.
  - destruct (loop_restart n i start b t w t1 evs1 start1) as (evs & -> & Hev);
      [lia|lia|done|done|done|].
    exists evs. destruct (byte_step t b) as [t' r1]. cbn [fst snd] in Hev |- *.
    by destruct (bytes_run t' _).
  - destruct (step_nested t base (Z.of_nat i) start b start1 Reprocess t1 evs1)
      as (Hs & -> & Hnb & s1 & Hb1); [done|done|done|].
    destruct (process_one_trace depth t1 (w ++ evs1) mem b) as (evs2 & s2 & t2 & Hb2 & Hnb2 & ->);
      [lia|by eapply process_byte_reprocess|].
    assert (Hbs : byte_step t b = (t2, observes [] (evs1 ++ evs2)))
      by (unfold byte_step; rewrite Hb1, Hb2; by destruct (t_state t)).
    rewrite Hbs in Hm |- *. cbn [fst] in Hm.
    replace (Z.of_nat i + 1) with (Z.of_nat (S i)) by lia.
    destruct (IHn (S i) (Z.of_nat (S i)) t2 ((w ++ evs1) ++ evs2)) as (evs & -> & Hev);
      [lia|lia|intros _; lia|done|].
    destruct (bytes_run t2 _) as [t3 r3]. exists ((evs1 ++ evs2) ++ evs). rewrite !app_assoc.
    split; [done|].
    rewrite observes_app, Hev, pending_none, (pending_other t), (observes_no_buffer mem) by
      (try apply Forall_app; done). done.
Qed.
End Loop.

Lemma process_spec depth : process_ok depth.
Proof.
  induction depth as [|depth IH]; intros base n t w mem Hd Hlen Hsz Hm; [lia|]. cbn [process].
  destruct (process_loop_spec depth base mem IH Hsz n 0 0 t w) as (evs & Hev);
    rewrite ?Nat.add_0_r; try done; try lia.
  exists evs. by rewrite Nat.add_0_r, (pending_none t mem base 0 : _ 0 = []) in Hev.
Qed.

(** ** Properties of the receiver *)

Lemma bytes_run_app t a b :
  bytes_run t (a ++ b) =
    ((bytes_run (bytes_run t a).1 b).1, (bytes_run t a).2 ++ (bytes_run (bytes_run t a).1 b).2).
Proof.
  revert t. induction a as [|x a IH]; intros t; cbn [bytes_run app].
  - cbn [fst snd app]. by destruct (bytes_run t b).
  - destruct (byte_step t x) as [t1 r1]. rewrite IH. destruct (bytes_run t1 a) as [t2 r2].
    cbn [fst snd]. destruct (bytes_run t2 b) as [t3 r3]. by rewrite app_assoc.
Qed.

Lemma no_mccp1_app t a b :
  no_mccp1 t (a ++ b) = no_mccp1 t a && no_mccp1 (bytes_run t a).1 b.
Proof.
  revert t. induction a as [|x a IH]; intros t; cbn [bytes_run app no_mccp1]; [done|].
  destruct (byte_step t x) as [t1 r1]. cbn [fst]. rewrite IH, andb_assoc.
  by destruct (bytes_run t1 a).
Qed.

(** [telnet_recv] on a whole chunk. *)
Lemma recv_chunk t bs :
  Z.of_nat (length bs) < 2 ^ 64 -> no_mccp1 t bs = true ->
  exists evs, recv_events t bs (length bs) = Some ((bytes_run t bs).1, evs) /\
    observes bs evs = (bytes_run t bs).2.
Proof.
  intros Hsz Hm. destruct (process_spec (length bs + 2) 0%nat (length bs) t [] bs) as (evs & E & H);
    rewrite ?drop_0, ?firstn_all in *; try done; try lia.
  exists evs. split; [|done]. unfold recv_events, telnet_recv. by rewrite E.
Qed.

(** The same up to the data runs: which bytes come in which event does not matter. *)
Definition recv_observed (t : telnet_t) (bs : list Z) : option (telnet_t * list revent) :=
  match recv_events t bs (length bs) with
  | Some (t', evs) => Some (t', observes bs evs)
  | None => None
  end.

(** Chunks received one after the other. *)
Fixpoint recv_chunks (t : telnet_t) (chunks : list (list Z)) : option (telnet_t * list revent) :=
  match chunks with
  | [] => Some (t, [])
  | bs :: chunks' =>
      match recv_observed t bs with
      | Some (t1, r1) =>
          match recv_chunks t1 chunks' with
          | Some (t2, r2) => Some (t2, r1 ++ r2)
          | None => None
          end
      | None => None
      end
  end.

Lemma recv_observed_run t bs :
  Z.of_nat (length bs) < 2 ^ 64 -> no_mccp1 t bs = true -> recv_observed t bs = Some (bytes_run t bs).
Proof.
  intros Hsz Hm. unfold recv_observed. destruct (recv_chunk t bs Hsz Hm) as (evs & -> & ->).
  by destruct (bytes_run t bs).
Qed.

(** C11: how the stream is cut does not matter: a stream received in chunks gives the tracker, the
    data and the events of the stream received at once. *)
Theorem recv_chunk_independent (t : telnet_t) (chunks : list (list Z)) :
  Z.of_nat (length (concat chunks)) < 2 ^ 64 -> no_mccp1 t (concat chunks) = true ->
  recv_chunks t chunks = recv_observed t (concat chunks).
Proof.
  revert t. induction chunks as [|bs chunks IH]; intros t; cbn [concat recv_chunks].
  - intros Hz Hn. by rewrite recv_observed_run.
  - rewrite length_app, no_mccp1_app. intros Hsz [Hm1 Hm2]%andb_prop.
    rewrite (recv_observed_run t (bs ++ _));
      [|by rewrite length_app|by rewrite no_mccp1_app, Hm1, Hm2].
    rewrite (recv_observed_run t bs) by (try done; lia). rewrite bytes_run_app.
    destruct (bytes_run t bs) as [t1 r1]. cbn [fst snd] in Hm2 |- *.
    rewrite IH by (try done; lia). rewrite recv_observed_run by (try done; lia).
    by destruct (bytes_run t1 _).
Qed.

Lemma recv_chunk_independent_witness :
  let t := telnet_init None 0 [] in let chunks := [[104; 255]; [251]; []; [1; 105; 255; 250; 31]; [80; 255; 240]] in
  recv_chunks t chunks = recv_observed t (concat chunks).
Proof. intros t chunks. apply (recv_chunk_independent t chunks); reflexivity. Defined.

(** *** What the sending side of the code sends *)

Lemma set_state_id t : set_state (t_state t) t = t.
Proof. by destruct t. Qed.

Lemma set_state_twice a b t : set_state a (set_state b t) = set_state a t.
Proof. done. Qed.

Lemma run_escaped_byte t b :
  t_state t = TELNET_STATE_DATA ->
  bytes_run t (escape b) = (t, [RData b]) /\ no_mccp1 t (escape b) = true.
Proof.
  intros Hs. destruct t; simpl in Hs; subst. unfold escape. destruct (Z.eqb_spec b TELNET_IAC) as [->|Hb].
  - split; reflexivity.
  - apply Z.eqb_neq in Hb. split; cbn; unfold byte_step, mccp1; simpl; rewrite ?Hb; reflexivity.
Qed.

Lemma run_escaped t buffer :
  t_state t = TELNET_STATE_DATA ->
  bytes_run t (buffer ≫= escape) = (t, RData <$> buffer) /\ no_mccp1 t (buffer ≫= escape) = true.
Proof.
  intros Hs. induction buffer as [|b buffer [IH1 IH2]]; [done|].
  destruct (run_escaped_byte t b Hs) as [H1 H2].
  cbn [mbind list_bind]. change (list_bind _ _ escape buffer) with (buffer ≫= escape).
  rewrite bytes_run_app, no_mccp1_app, H1, H2. cbn [fst snd]. by rewrite IH1, IH2.
Qed.
