(* ===== verification/TelnetRx.v ===== *)
(** * TelnetRx: the receiver of telnet.c against the stream of RFC 854

    An automaton for the stream a Telnet receiver reads, written from the RFC and not from the switch of
    [process_byte]: phases that carry what was collected, the numbers of the commands, and which handler
    a complete subnegotiation goes to.  [rx_step_code] relates a byte of the code to a byte of the
    automaton through [tracker], the state of the code in a phase; [recv_implements_spec] is the whole
    receiver. *)

From Stdlib Require Import ZArith Lia String.
From stdpp Require Import base tactics numbers list sets.
From S2P Require Import Prelude Telnet TelnetSub TelnetRecv TelnetSpec.

(** ** The automaton

    [phase] is where the receiver is in the grammar
    and what it has collected of a subnegotiation; the rest of the tracker [t] is the option table and the
    memory.  [rx_step] reads a byte: the numbers of the commands are the RFC's.  Of the library it uses
    the handlers only: [negotiate] for an option (see [negotiate_follows_rfc1143]), and the four functions
    that unpack a complete subnegotiation. *)
Inductive verb : Type := VWill | VWont | VDo | VDont.

Inductive phase : Type :=
| Text                                  (** data *)
| Command                               (** after an IAC *)
| Verb (v : verb)                       (** after IAC WILL, WONT, DO or DONT: the option follows *)
| SubOption                             (** after IAC SB: the option follows *)
| Sub (o : Z) (data : list Z)           (** in a subnegotiation of the option *)
| SubCommand (o : Z) (data : list Z).   (** after an IAC in it *)

(** The bytes of a subnegotiation in the block of the tracker. *)
Definition load (data : list Z) (t : telnet_t) : telnet_t :=
  set_buffer (data ++ drop (length data) (t_buffer t)) (t_buffer_size t) (Z.of_nat (length data)) t.

Definition sub_tracker (o : Z) (data : list Z) (t : telnet_t) : telnet_t := load data (set_sb_telopt o t).

Definition verb_state (v : verb) : telnet_state_t :=
  match v with
  | VWill => TELNET_STATE_WILL | VWont => TELNET_STATE_WONT | VDo => TELNET_STATE_DO | VDont => TELNET_STATE_DONT
  end.

(** The tracker of the code in a phase. *)
Definition tracker (p : phase) (t : telnet_t) : telnet_t :=
  match p with
  | Text => set_state TELNET_STATE_DATA t
  | Command => set_state TELNET_STATE_IAC t
  | Verb v => set_state (verb_state v) t
  | SubOption => set_state TELNET_STATE_SB t
  | Sub o data => set_state TELNET_STATE_SB_DATA (sub_tracker o data t)
  | SubCommand o data => set_state TELNET_STATE_SB_DATA_IAC (sub_tracker o data t)
  end.

Definition rx_result : Type := phase * telnet_t * list revent.

(** The sizes of the block: 0, 512, 2048, 8192 and 16384 bytes. *)
Definition grown (size : Z) : option Z :=
  if size =? 0 then Some 512
  else if size =? 512 then Some 2048
  else if size =? 2048 then Some 8192
  else if size =? 8192 then Some 16384
  else None.

(** A byte of a subnegotiation is added; without room or memory it ends, with a warning. *)
Definition collect (o : Z) (data : list Z) (b : Z) (t : telnet_t) : rx_result :=
  let abandoned t' e msg := (Text, sub_tracker o data t', [REvent (TELNET_EV_WARNING "_buffer_byte" e msg)]) in
  if Z.of_nat (length data) <? t_buffer_size t then (Sub o (data ++ [b]), t, [])
  else match grown (t_buffer_size t) with
       | None => abandoned t TELNET_EOVERFLOW "subnegotiation buffer size limit reached"%string
       | Some size =>
           let '(ok, t', _) := malloc t in
           if ok : bool then
             let block := t_buffer t' ++ replicate (Z.to_nat size - length (t_buffer t')) 0 in
             (Sub o (data ++ [b]), set_buffer block size (t_buffer_pos t') t', [])
           else abandoned t' TELNET_ENOMEM "realloc() failed"%string
       end.

(** A complete subnegotiation: the event for the user, and for four options the unpacked data.  The
    number is not zero after ENVIRON. *)
Definition complete (s : telnet_state_t) (o : Z) (data : list Z) (t : telnet_t) : Z * telnet_t * list revent :=
  let t0 := set_state s (sub_tracker o data t) in
  let unpack :=
    if o =? 93 then zmp_telnet (t_buffer t0) (length data)
    else if o =? 24 then ttype_telnet (t_buffer t0) (length data)
    else if (o =? 36) || (o =? 39) then environ_telnet o (t_buffer t0) (length data)
    else if o =? 70 then mssp_telnet (t_buffer t0) (length data)
    else tret 0 in
  let '(rc, t1, evs) := unpack t0 in
  (rc, t1, REvent (TELNET_EV_SUBNEGOTIATION o data) :: observes [] evs).

(** The byte after an IAC. *)
Definition rx_command (b : Z) (t : telnet_t) : rx_result :=
  if b =? 250 then (SubOption, t, [])
  else if b =? 251 then (Verb VWill, t, [])
  else if b =? 252 then (Verb VWont, t, [])
  else if b =? 253 then (Verb VDo, t, [])
  else if b =? 254 then (Verb VDont, t, [])
  else if b =? 255 then (Text, t, [RData 255])
  else (Text, t, [REvent (TELNET_EV_IAC b)]).

Definition rx_step (p : phase) (t : telnet_t) (b : Z) : rx_result :=
  match p with
  | Text => if b =? 255 then (Command, t, []) else (Text, t, [RData b])
  | Command => rx_command b t
  | Verb v => let '(_, t1, evs) := negotiate b (tracker p t) in (Text, t1, observes [] evs)
  | SubOption => (Sub b [], t, [])
  | Sub o data => if b =? 255 then (SubCommand o data, t, []) else collect o data b t
  | SubCommand o data =>
      if b =? 240 then let '(_, t1, r) := complete TELNET_STATE_DATA o data t in (Text, t1, r)
      else if b =? 255 then collect o data 255 t
      else
        (* a command that does not belong here ends the subnegotiation and is read as a command, but
           after ENVIRON the code forgets it *)
        let w := REvent (TELNET_EV_WARNING "_process" TELNET_EPROTOCOL "unexpected byte after IAC inside SB: %d") in
        let '(rc, t1, r1) := complete TELNET_STATE_IAC o data t in
        if rc =? 0 then let '(p2, t2, r2) := rx_command b t1 in (p2, t2, w :: r1 ++ r2)
        else (Command, t1, w :: r1)
  end.

Fixpoint rx_run (p : phase) (t : telnet_t) (bs : list Z) : rx_result :=
  match bs with
  | [] => (p, t, [])
  | b :: bs' =>
      let '(p1, t1, r1) := rx_step p t b in
      let '(p2, t2, r2) := rx_run p1 t1 bs' in
      (p2, t2, r1 ++ r2)
  end.

(** No byte ends an MCCPv1 sequence. *)
Fixpoint rx_no_mccp1 (p : phase) (t : telnet_t) (bs : list Z) : bool :=
  match bs with
  | [] => true
  | b :: bs' =>
      negb (match p with Sub o _ => (o =? 85) && (b =? 251) | _ => false end) &&
      (let '(p1, t1, _) := rx_step p t b in rx_no_mccp1 p1 t1 bs')
  end.

(** *** The code in the phases *)

#[local] Arguments find_size : simpl never.

Lemma load_length data t : length data = sub_size (load data t).
Proof. unfold sub_size, load. cbn. lia. Qed.

(** The byte at the end of what was collected. *)
Lemma load_snoc data b t :
  (length data < length (t_buffer t))%nat ->
  <[length data := b]> (data ++ drop (length data) (t_buffer t)) = (data ++ [b]) ++ drop (length (data ++ [b])) (t_buffer t).
Proof.
  intros Hl. destruct (lookup_lt_is_Some_2 (t_buffer t) (length data) Hl) as [x Hx].
  rewrite (drop_S _ _ _ Hx), <- app_assoc. rewrite (insert_app_r_alt data) by lia.
  rewrite Nat.sub_diag, length_app. cbn. by rewrite Nat.add_1_r.
Qed.

(** What the code's [buffer_byte] does in a subnegotiation. *)
Definition collected (s : telnet_state_t) (o : Z) (data : list Z) (b : Z) (t : telnet_t) : Prop :=
  let t0 := set_state s (sub_tracker o data t) in
  let '(p1, t1, r1) := collect o data b t in
  exists e evs, observes [] evs = r1 /\
    match p1 with
    | Sub o1 d1 => o1 = o /\ e = TELNET_EOK /\ buffer_byte b t0 = (e, set_state s (sub_tracker o1 d1 t1), evs)
    | _ => p1 = Text /\ e <> TELNET_EOK /\ buffer_byte b t0 = (e, set_state s t1, evs)
    end.

Lemma collect_grown size :
  size ∈ buffer_sizes ->
  grown size = (if bool_decide (4 <= find_size buffer_sizes size)%nat then None
                else buffer_sizes !! (find_size buffer_sizes size + 1)%nat).
Proof.
  intros Hin. repeat (apply elem_of_cons in Hin as [->|Hin]; [done|]). by apply not_elem_of_nil in Hin.
Qed.

Lemma buffer_byte_grows s o data b t :
  buffer_ok t -> Z.of_nat (length data) <= t_buffer_size t -> collected s o data b t.
Proof.
  intros (Hin & Hblock & _) Hpos. unfold collected, sub_tracker, load.
  unfold collect. destruct (Z.ltb_spec (Z.of_nat (length data)) (t_buffer_size t)) as [Hlt|Hge].
  - exists TELNET_EOK, []. split; [done|]. split; [done|]. split; [done|].
    unfold buffer_byte, tbind, tget, tret, tmod. cbn. destruct (Z.eqb_spec (Z.of_nat (length data)) (t_buffer_size t)); [lia|].
    cbn. rewrite Nat2Z.id, load_snoc by lia. destruct t; cbn. unfold set_buffer, set_state, set_sb_telopt, load. cbn.
    rewrite !length_app. cbn. do 3 f_equal. lia.
  - assert (Epos : Z.of_nat (length data) = t_buffer_size t) by lia.
    rewrite collect_grown by done. unfold buffer_byte, tbind, tget, tret, tmod, error, emit. cbn.
    destruct (Z.eqb_spec (Z.of_nat (length data)) (t_buffer_size t)); [|lia]. cbn.
    change (length buffer_sizes - 1)%nat with 4%nat. case_bool_decide as Hi; cbn.
    { eexists TELNET_EOVERFLOW, _. split; [|split; [done|split; [done|reflexivity]]]. done. }
    destruct (find_size_next _ Hin) as [Hin' Hlt]; [lia|].
    destruct (buffer_sizes !! (find_size buffer_sizes (t_buffer_size t) + 1)%nat) as [size|] eqn:Es; cbn in Hlt, Hin'; [|lia].
    unfold malloc. cbn. destruct (t_mallocs t) as [|[] m]; cbn.
    3: { eexists TELNET_ENOMEM, _. split; [|split; [done|split; [done|reflexivity]]]. done. }
    all: exists TELNET_EOK, []; split; [done|]; split; [done|]; split; [done|];
      unfold load; cbn; rewrite Nat2Z.id;
      (replace (length (data ++ drop (length data) (t_buffer t))) with (length (t_buffer t))
        by (rewrite length_app, length_drop; lia));
      rewrite <- app_assoc; rewrite (insert_app_r_alt data) by lia; rewrite Nat.sub_diag;
      rewrite drop_ge by lia; rewrite app_nil_l;
      (replace (drop (length (data ++ [b])) (t_buffer t ++ replicate (Z.to_nat size - length (t_buffer t)) 0))
        with (replicate (Z.to_nat size - length (t_buffer t) - 1) 0)
        by (rewrite drop_app, drop_ge by (rewrite length_app; lia); rewrite drop_replicate, length_app; cbn;
            f_equal; lia));
      (destruct (Z.to_nat size - length (t_buffer t))%nat as [|k] eqn:Ek; [lia|]);
      cbn; rewrite Nat.sub_0_r, <- app_assoc, length_app; cbn;
      destruct t; unfold set_buffer, set_state, set_sb_telopt, set_mallocs; cbn; do 3 f_equal; lia.
Qed.

(** The tracker and what was collected are in the bounds of the block. *)
Definition rx_ok (p : phase) (t : telnet_t) : Prop :=
  buffer_ok t /\
  match p with Sub _ data | SubCommand _ data => Z.of_nat (length data) <= t_buffer_size t | _ => True end.

Lemma set_state_same s t : t_state t = s -> set_state s t = t.
Proof. intros <-. by destruct t. Qed.

Lemma sub_tracker_ok o data t :
  buffer_ok t -> Z.of_nat (length data) <= t_buffer_size t -> buffer_ok (sub_tracker o data t).
Proof.
  intros (H1 & H2 & H3) Hl. split; [done|]. cbn. split; [|lia]. rewrite length_app, length_drop. lia.
Qed.

Lemma collect_ok o data b t p1 t1 r1 :
  buffer_ok t -> Z.of_nat (length data) <= t_buffer_size t -> collect o data b t = (p1, t1, r1) -> rx_ok p1 t1.
Proof.
  intros Hb Hl. pose proof (sub_tracker_ok o data t Hb Hl) as Hs. pose proof Hb as (H1 & H2 & H3).
  unfold collect. destruct (Z.ltb_spec (Z.of_nat (length data)) (t_buffer_size t)) as [Hlt|Hge].
  - intros [= <- <- <-]. split; [done|]. rewrite length_app. cbn. lia.
  - rewrite collect_grown by done. case_bool_decide as Hi; [intros [= <- <- <-]; by split|].
    destruct (find_size_next _ H1) as [Hin' Hlt]; [lia|].
    destruct (buffer_sizes !! _) as [size|] eqn:Es; cbn in Hin', Hlt; [|lia].
    unfold malloc. destruct (t_mallocs t) as [|[] m]; intros [= <- <- <-]; (split; [|cbn; rewrite ?length_app; cbn; lia]).
    3: exact Hs.
    all: split; [done|]; cbn; rewrite length_app, length_replicate; lia.
Qed.

(** A complete subnegotiation is the code's [subnegotiate]. *)
Lemma complete_code s o data t :
  rx_ok (Sub o data) t ->
  exists evs, subnegotiate (set_state s (sub_tracker o data t)) =
      ((complete s o data t).1.1, (complete s o data t).1.2, evs) /\
    observes [] evs = (complete s o data t).2 /\
    t_state (complete s o data t).1.2 = s /\ buffer_ok (complete s o data t).1.2.
Proof.
  intros [Hb Hl]. set (t0 := set_state s (sub_tracker o data t)).
  assert (Ht0 : buffer_ok t0) by exact (sub_tracker_ok o data t Hb Hl).
  pose proof (proj1 (subnegotiate_keeps t0)) as Hk. pose proof (proj1 (subnegotiate_keeps_buffer t0) Ht0) as Hb1.
  revert Hk Hb1. unfold subnegotiate. unfold tbind at 1 3 5, tget.
  assert (Esize : sub_size t0 = length data) by (symmetry; apply load_length).
  assert (Edata : take (sub_size t0) (t_buffer t0) = data) by (rewrite Esize; apply take_app_length).
  rewrite Edata, Esize. unfold complete. fold t0. change (t_sb_telopt t0) with o.
  change TELNET_TELOPT_ZMP with 93. change TELNET_TELOPT_TTYPE with 24. change TELNET_TELOPT_ENVIRON with 36.
  change TELNET_TELOPT_NEW_ENVIRON with 39. change TELNET_TELOPT_MSSP with 70.
  set (unpack := if o =? 93 then _ else _). unfold tbind, emit.
  destruct (unpack t0) as [[rc t1] evs]. cbn. unfold the_state. cbn. intros (_ & _ & _ & _ & _ & Hst & _) Hb1.
  eexists. split; [reflexivity|]. split; [done|]. split; [exact Hst|exact Hb1].
Qed.

(** A command byte. *)
Lemma command_code b t :
  exists s evs, process_byte (SrcByte b) 0 0 b (set_state TELNET_STATE_IAC t) =
      (s, Continue, tracker (rx_command b t).1.1 t, evs) /\
    (rx_command b t).1.2 = t /\ observes [] evs = (rx_command b t).2 /\
    match (rx_command b t).1.1 with Sub _ _ | SubCommand _ _ => False | _ => True end.
Proof.
  unfold process_byte, rx_command, tbind, tget, tret, tmod, emit. cbn.
  unfold TELNET_SB, TELNET_WILL, TELNET_WONT, TELNET_DO, TELNET_DONT, TELNET_IAC.
  repeat match goal with |- context [?x =? ?y] => destruct (Z.eqb_spec x y) as [->|]; [by do 2 eexists|] end.
  by do 2 eexists.
Qed.

(** A byte that is collected, in either state of a subnegotiation. *)
Lemma collect_byte s o data b t (m : telnet_error_t -> tm (Z * control)) :
  rx_ok (Sub o data) t ->
  (forall x, m TELNET_EOK (set_state s x) = (0, Continue, set_state TELNET_STATE_SB_DATA x, [])) ->
  (forall e x, e <> TELNET_EOK -> m e (set_state s x) = (1, Continue, set_state TELNET_STATE_DATA x, [])) ->
  exists s1 evs, tbind (buffer_byte b) m (set_state s (sub_tracker o data t)) =
      (s1, Continue, tracker (collect o data b t).1.1 (collect o data b t).1.2, evs) /\
    observes [] evs = (collect o data b t).2.
Proof.
  intros [Hb Hl] Hok Herr. pose proof (buffer_byte_grows s o data b t Hb Hl) as H. unfold collected in H.
  destruct (collect o data b t) as [[p1 t1] r1]. destruct H as (e & evs & Ho & H). cbn [fst snd].
  destruct p1 as [| | | |o1 d1|o1 d1]; try (by destruct H as [? _]).
  - destruct H as (_ & He & E). exists 1, (evs ++ []). unfold tbind. rewrite E, Herr by done. by rewrite app_nil_r.
  - destruct H as (-> & -> & E). exists 0, (evs ++ []). unfold tbind. rewrite E, Hok. by rewrite app_nil_r.
Qed.

Lemma tbind_get {A} (k : telnet_t -> tm A) t : tbind tget k t = k t t.
Proof. unfold tbind, tget. by destruct (k t t) as [[a t1] e1]. Qed.

(** The switch of the code in the phases it has a test for. *)
Lemma verb_byte v b t :
  process_byte (SrcByte b) 0 0 b (tracker (Verb v) t) =
    (negotiate b ;;; tmod (set_state TELNET_STATE_DATA) ;;; tret (1, Continue)) (tracker (Verb v) t).
Proof. unfold process_byte. rewrite tbind_get. by destruct v. Qed.

Lemma sub_byte o data b t :
  b <> TELNET_IAC -> mccp1 (tracker (Sub o data) t) b = false ->
  process_byte (SrcByte b) 0 0 b (tracker (Sub o data) t) =
    (let* rc := buffer_byte b in
     match rc with
     | TELNET_EOK => tret (0, Continue)
     | _ => tmod (set_state TELNET_STATE_DATA) ;;; tret (1, Continue)
     end) (tracker (Sub o data) t).
Proof.
  intros Hb Hm. unfold process_byte. rewrite tbind_get. revert Hm. unfold mccp1.
  rewrite bool_decide_eq_true_2 by done. cbn [andb]. set (t0 := tracker (Sub o data) t).
  intros ->. apply Z.eqb_neq in Hb as ->. done.
Qed.

Lemma sub_command_byte o data b t :
  let t1 := sub_tracker o data t in
  process_byte (SrcByte b) 0 0 b (tracker (SubCommand o data) t) =
    if b =? TELNET_SE then
      (let* rc := subnegotiate in tret (1, if negb (rc =? 0) then Restart else Continue)) (set_state TELNET_STATE_DATA t1)
    else if b =? TELNET_IAC then
      (let* rc := buffer_byte TELNET_IAC in
       match rc with
       | TELNET_EOK => tmod (set_state TELNET_STATE_SB_DATA) ;;; tret (0, Continue)
       | _ => tmod (set_state TELNET_STATE_DATA) ;;; tret (1, Continue)
       end) (tracker (SubCommand o data) t)
    else
      (emit (TELNET_EV_WARNING "_process" TELNET_EPROTOCOL "unexpected byte after IAC inside SB: %d") ;;;
       let* rc := subnegotiate in tret (1, if negb (rc =? 0) then Restart else Reprocess))
        (set_state TELNET_STATE_IAC t1).
Proof.
  intros t1. unfold process_byte. rewrite tbind_get.
  change (t_state (tracker (SubCommand o data) t)) with TELNET_STATE_SB_DATA_IAC. cbv iota.
  destruct (b =? TELNET_SE); [|destruct (b =? TELNET_IAC); [done|]]; unfold error, tbind, tmod, tret, emit.
  - change (set_state TELNET_STATE_DATA (tracker (SubCommand o data) t)) with (set_state TELNET_STATE_DATA t1).
    by destruct (subnegotiate _) as [[rc t2] e2].
  - change (set_state TELNET_STATE_IAC (tracker (SubCommand o data) t)) with (set_state TELNET_STATE_IAC t1).
    by destruct (subnegotiate _) as [[rc t2] e2].
Qed.

Lemma byte_step_continue p t b s t1 evs ctl :
  p <> Text -> process_byte (SrcByte b) 0 0 b (tracker p t) = (s, ctl, t1, evs) -> ctl <> Reprocess ->
  byte_step (tracker p t) b = (t1, observes [] evs).
Proof. intros Hp E Hc. eapply byte_step_other; [|exact E|done]. by destruct p as [| |[]| | |]. Qed.

Lemma tracker_other p t : p <> Text -> t_state (tracker p t) <> TELNET_STATE_DATA.
Proof. intros Hp. by destruct p as [| |[]| | |]. Qed.

(** One byte of the code is one byte of the automaton. *)
Definition rx_simulates (p : phase) (t : telnet_t) (b : Z) : Prop :=
  let '(p1, t1, r1) := rx_step p t b in byte_step (tracker p t) b = (tracker p1 t1, r1) /\ rx_ok p1 t1.

Lemma rx_step_command t b : rx_ok Command t -> rx_simulates Command t b.
Proof.
  intros [Hb _]. unfold rx_simulates, rx_step. destruct (command_code b t) as (s & evs & E & Et & Hr & Hp).
  destruct (rx_command b t) as [[p1 t1] r1]. cbn [fst snd] in *. subst t1. split; [|split; [done|by destruct p1]].
  rewrite (byte_step_continue Command t b s (tracker p1 t) evs Continue); [by rewrite Hr|done..].
Qed.

Lemma rx_step_verb v t b : rx_ok (Verb v) t -> rx_simulates (Verb v) t b.
Proof.
  intros [Hb _]. unfold rx_simulates, rx_step.
  pose proof (proj1 (negotiate_keeps_buffer b (tracker (Verb v) t)) Hb) as Hb1. unfold the_state in Hb1.
  pose proof (verb_byte v b t) as E. unfold tbind, tmod, tret in E.
  destruct (negotiate b (tracker (Verb v) t)) as [[[] t1] e1]. cbn [fst snd] in *. split; [|by split].
  erewrite byte_step_continue; [|done|exact E|done]. by rewrite !app_nil_r.
Qed.

Lemma rx_step_sub o data t b :
  rx_ok (Sub o data) t -> mccp1 (tracker (Sub o data) t) b = false -> rx_simulates (Sub o data) t b.
Proof.
  intros Hok Hm. unfold rx_simulates, rx_step. change (b =? 255) with (b =? TELNET_IAC).
  destruct (Z.eqb_spec b TELNET_IAC) as [->|Hne]; [by split|]. pose proof (sub_byte o data b t Hne Hm) as Ep.
  destruct (collect_byte TELNET_STATE_SB_DATA o data b t
    (fun rc => match rc with
               | TELNET_EOK => tret (0, Continue)
               | _ => tmod (set_state TELNET_STATE_DATA) ;;; tret (1, Continue)
               end)) as (s1 & evs & E & Hr); [done|done|by intros [] ? ?|].
  pose proof Hok as [Hb Hl]. pose proof (collect_ok o data b t) as Hk.
  destruct (collect o data b t) as [[p1 t1] r1]. cbn [fst snd] in *. split; [|by eapply Hk].
  erewrite byte_step_continue; [by rewrite Hr|done|by rewrite Ep|done].
Qed.

Lemma rx_step_sub_command o data t b : rx_ok (SubCommand o data) t -> rx_simulates (SubCommand o data) t b.
Proof.
  intros Hok. pose proof Hok as [Hb Hl]. unfold rx_simulates, rx_step.
  pose proof (sub_command_byte o data b t) as Ep. cbv zeta in Ep.
  change TELNET_SE with 240 in Ep. change TELNET_IAC with 255 in Ep.
  destruct (b =? 240); [|destruct (b =? 255)].
  - destruct (complete_code TELNET_STATE_DATA o data t Hok) as (evs & E & Hr & Hst & Hb1).
    unfold tbind, tret in Ep. rewrite E in Ep.
    destruct (complete TELNET_STATE_DATA o data t) as [[rc t1] r1]. cbn [fst snd] in *. split; [|by split].
    erewrite byte_step_continue; [|done|exact Ep|by destruct (negb _)].
    unfold tracker. by rewrite app_nil_r, Hr, set_state_same.
  - destruct (collect_byte TELNET_STATE_SB_DATA_IAC o data 255 t
      (fun rc => match rc with
                 | TELNET_EOK => tmod (set_state TELNET_STATE_SB_DATA) ;;; tret (0, Continue)
                 | _ => tmod (set_state TELNET_STATE_DATA) ;;; tret (1, Continue)
                 end)) as (s1 & evs & E & Hr); [done|done|by intros [] ? ?|].
    pose proof (collect_ok o data 255 t) as Hk.
    destruct (collect o data 255 t) as [[p1 t1] r1]. cbn [fst snd] in *. split; [|by eapply Hk].
    erewrite byte_step_continue; [by rewrite Hr|done|by rewrite Ep|done].
  - destruct (complete_code TELNET_STATE_IAC o data t Hok) as (evs & E & Hr & Hst & Hb1).
    unfold tbind, tret, emit in Ep. rewrite E in Ep.
    destruct (complete TELNET_STATE_IAC o data t) as [[rc t1] r1]. cbn [fst snd] in *.
    destruct (rc =? 0); cbn [negb] in Ep.
    + destruct (command_code b t1) as (s & evs2 & E2 & Et & Hr2 & Hp).
      rewrite (set_state_same _ t1 Hst) in E2.
      destruct (rx_command b t1) as [[p2 t2] r2]. cbn [fst snd] in *. subst t2.
      split; [|split; [done|by destruct p2]]. unfold byte_step. rewrite Ep, E2, app_nil_r.
      replace (t_state (tracker (SubCommand o data) t)) with TELNET_STATE_SB_DATA_IAC by done.
      by rewrite <- app_comm_cons, <- Hr, <- Hr2, <- observes_app.
    + split; [|by split]. erewrite byte_step_continue; [|done|exact Ep|done].
      unfold tracker. by rewrite app_nil_r, <- Hr, set_state_same.
Qed.

Lemma rx_step_code p t b : rx_ok p t -> mccp1 (tracker p t) b = false -> rx_simulates p t b.
Proof.
  intros Hok Hm. destruct p as [| |v| |o data|o data].
  - destruct Hok as [Hb _]. unfold rx_simulates, rx_step, byte_step. cbn. unfold TELNET_IAC.
    by destruct (b =? 255).
  - by apply rx_step_command.
  - by apply rx_step_verb.
  - destruct Hok as [Hb _]. split; [by destruct t|]. split; [done|]. cbn. destruct Hb as (_ & _ & ?). lia.
  - by apply rx_step_sub.
  - by apply rx_step_sub_command.
Qed.

(** The phase of a tracker of the code. *)
Definition phase_of (t : telnet_t) : phase :=
  let data := take (sub_size t) (t_buffer t) in
  match t_state t with
  | TELNET_STATE_DATA => Text
  | TELNET_STATE_IAC => Command
  | TELNET_STATE_WILL => Verb VWill
  | TELNET_STATE_WONT => Verb VWont
  | TELNET_STATE_DO => Verb VDo
  | TELNET_STATE_DONT => Verb VDont
  | TELNET_STATE_SB => SubOption
  | TELNET_STATE_SB_DATA => Sub (t_sb_telopt t) data
  | TELNET_STATE_SB_DATA_IAC => SubCommand (t_sb_telopt t) data
  end.

Lemma tracker_phase_of t : buffer_ok t -> tracker (phase_of t) t = t /\ rx_ok (phase_of t) t.
Proof.
  intros Hb. pose proof Hb as (_ & Hlen & Hpos).
  assert (Hl : length (take (sub_size t) (t_buffer t)) = Z.to_nat (t_buffer_pos t)).
  { rewrite length_take. unfold sub_size. lia. }
  assert (Hs : sub_tracker (t_sb_telopt t) (take (sub_size t) (t_buffer t)) t = t).
  { unfold sub_tracker, load. rewrite Hl. cbn. unfold sub_size. rewrite take_drop, Z2Nat.id by lia. by destruct t. }
  unfold phase_of, rx_ok, tracker.
  destruct (t_state t) eqn:Es; rewrite ?Hs, ?Hl; (split; [by apply set_state_same|split; [done|done || lia]]).
Qed.

Lemma rx_no_mccp1_step p t b :
  (match p with Sub o _ => (o =? 85) && (b =? 251) | _ => false end) = false -> mccp1 (tracker p t) b = false.
Proof. destruct p as [| |[]| | |]; done. Qed.

(** A run of the automaton is a run of the code's bytes. *)
Lemma rx_run_code bs : forall p t,
  rx_ok p t -> rx_no_mccp1 p t bs = true ->
  let '(p1, t1, r1) := rx_run p t bs in
  bytes_run (tracker p t) bs = (tracker p1 t1, r1) /\ no_mccp1 (tracker p t) bs = true.
Proof.
  induction bs as [|b bs IH]; intros p t Hok Hn; cbn [rx_run bytes_run no_mccp1 rx_no_mccp1] in *; [done|].
  apply andb_prop in Hn as [Hm Hn]. apply negb_true_iff in Hm. apply (rx_no_mccp1_step p t) in Hm.
  pose proof (rx_step_code p t b Hok Hm) as Hs. unfold rx_simulates in Hs.
  destruct (rx_step p t b) as [[p1 t1] r1]. destruct Hs as [E Hok1]. rewrite Hm, E. cbn [fst negb andb].
  specialize (IH p1 t1 Hok1 Hn). destruct (rx_run p1 t1 bs) as [[p2 t2] r2]. destruct IH as [-> ->]. done.
Qed.

(** C10: the receiver implements the stream of RFC 854.  On any chunk of bytes, in any state of the tracker
    with a sound buffer and whatever [malloc] answers, when no byte ends an MCCPv1 sequence, [telnet_recv]
    terminates, delivers the data and the events that the automaton of the RFC gives, in the same order,
    and leaves the tracker in the phase where the automaton ends.  The automaton has its own switch over the
    commands, its own collection of subnegotiations and its own choice of the function that unpacks them;
    it shares the handlers of negotiations and of complete subnegotiations. *)
Theorem recv_implements_spec (t : telnet_t) (bs : list Z) :
  buffer_ok t -> Z.of_nat (length bs) < 2 ^ 64 -> rx_no_mccp1 (phase_of t) t bs = true ->
  let '(p1, t1, r1) := rx_run (phase_of t) t bs in recv_observed t bs = Some (tracker p1 t1, r1).
Proof.
  intros Hb Hsz Hn. destruct (tracker_phase_of t Hb) as [Et Hok].
  pose proof (rx_run_code bs (phase_of t) t Hok Hn) as H. destruct (rx_run (phase_of t) t bs) as [[p1 t1] r1].
  rewrite Et in H. destruct H as [E Hm]. by rewrite recv_observed_run, E.
Qed.

Lemma recv_implements_spec_witness :
  let t := telnet_init None 0 [] in
  let bs := [104; 255; 251; 1; 255; 250; 31; 80; 255; 255; 255; 240; 105; 255; 241] in
  let '(p1, t1, r1) := rx_run Text t bs in recv_observed t bs = Some (tracker p1 t1, r1).
Proof.
  intros t bs. apply (recv_implements_spec t bs).
  - split; [constructor|]. split; [reflexivity|]. split; discriminate.
  - reflexivity.
  - vm_compute. reflexivity.
Defined.
