(* ===== verification/TelnetTrip.v ===== *)
(** * TelnetTrip: round trips between the two sides of telnet.c

    What [telnet_send], [telnet_subnegotiation] and [telnet_send_vzmpv] put on the wire is what
    [telnet_recv] hands to the user at the other end; and the sequence for which it does not. *)

From Stdlib Require Import ZArith Lia String.
From stdpp Require Import base tactics numbers list.
From S2P Require Import Prelude Telnet TelnetSub TelnetRecv TelnetSpec.

#[local] Arguments buffer_byte : simpl never.
#[local] Arguments subnegotiate : simpl never.

(** The bytes a sending routine puts on the wire. *)
Definition on_wire (m : tm unit) (t : telnet_t) : list Z := sent_bytes (the_events (m t)).

Lemma on_wire_sends m t bs : sends m bs -> on_wire m t = bs.
Proof. intros H. destruct (H t) as (evs & E & _ & S). unfold on_wire. by rewrite E. Qed.

Lemma length_escaped buffer : (length (buffer ≫= escape) <= 2 * length buffer)%nat.
Proof.
  induction buffer as [|b buffer IH]; [done|]. cbn [mbind list_bind].
  change (list_bind _ _ escape buffer) with (buffer ≫= escape). rewrite length_app.
  unfold escape at 1. case_match; simpl; lia.
Qed.

(** ** Data *)

(** C12: data survives the wire.  Whatever bytes are sent with [telnet_send], IAC included, the
    receiver in state DATA delivers exactly these bytes as data, in order, with no other event, and
    is unchanged. *)
Theorem send_recv_roundtrip (tx rx : telnet_t) (buffer : list Z) :
  t_state rx = TELNET_STATE_DATA -> 2 * Z.of_nat (length buffer) < 2 ^ 64 ->
  recv_observed rx (on_wire (telnet_send buffer) tx) = Some (rx, RData <$> buffer).
Proof.
  intros Hs Hl. rewrite (on_wire_sends _ _ _ (telnet_send_sends buffer)).
  destruct (run_escaped rx buffer Hs) as [H1 H2].
  pose proof (length_escaped buffer). rewrite recv_observed_run by (try done; lia). by rewrite H1.
Qed.

Lemma send_recv_roundtrip_witness :
  let rx := telnet_init None 0 [] in
  recv_observed rx (on_wire (telnet_send [97; 255; 98]) rx) = Some (rx, RData <$> [97; 255; 98]).
Proof. intros rx. apply (send_recv_roundtrip rx rx [97; 255; 98]); [reflexivity|vm_compute; reflexivity]. Defined.

(** ** Subnegotiations *)

(** The tracker, in state [st], has collected the bytes [l] of the subnegotiation [o]. *)
Definition collecting (st : telnet_state_t) (o : Z) (l : list Z) (t : telnet_t) : Prop :=
  t_state t = st /\ t_sb_telopt t = o /\
  take (length l) (t_buffer t) = l /\ t_buffer_pos t = Z.of_nat (length l) /\
  buffer_ok t /\ t_mallocs t = [].

Lemma take_push (l buf : list Z) b :
  take (length l) buf = l -> (length l < length buf)%nat ->
  take (length (l ++ [b])) (<[length l := b]> buf) = l ++ [b].
Proof.
  intros Ht Hl. rewrite length_app, Nat.add_1_r.
  rewrite (take_S_r _ _ b) by (by apply list_lookup_insert_eq).
  by rewrite take_insert_ge, Ht by lia.
Qed.

(** [_buffer_byte] stores one more byte, as long as the last size is not full. *)
Lemma buffer_byte_collects st o l t b :
  collecting st o l t -> Z.of_nat (length l) < 16384 ->
  exists t', buffer_byte b t = (TELNET_EOK, t', []) /\ collecting st o (l ++ [b]) t'.
Proof.
  intros (Hs & Ho & Htk & Hpos & (Hin & Hlen & Hrange) & Hm) Hl.
  unfold buffer_byte, tbind, tget, error, emit, tret, tmod.
  destruct (Z.eqb_spec (t_buffer_pos t) (t_buffer_size t)) as [Heq|Hne].
  - assert (Hfull : (find_size buffer_sizes (t_buffer_size t) < 4)%nat).
    { clear - Hin Heq Hpos Hl. repeat (apply elem_of_cons in Hin as [Hin|Hin];
        [rewrite Hin in *; cbn; lia|]). by apply not_elem_of_nil in Hin. }
    rewrite bool_decide_eq_false_2 by (change (length buffer_sizes) with 5%nat; lia).
    unfold malloc. rewrite Hm. destruct (find_size_next _ Hin Hfull) as [Hin' Hlt].
    set (size' := default 0 _) in *. eexists. split; [reflexivity|].
    unfold collecting, buffer_ok. simpl. rewrite Hpos, Nat2Z.id. split_and!; try done.
    + apply take_push; [rewrite take_app_le by lia; done|rewrite length_app, length_replicate; lia].
    + rewrite length_app. simpl. lia.
    + rewrite length_insert, length_app, length_replicate. lia.
    + lia.
    + lia.
  - eexists. split; [reflexivity|].
    unfold collecting, buffer_ok. simpl. rewrite Hpos, Nat2Z.id. split_and!; try done; try lia.
    + apply take_push; [done|lia].
    + rewrite length_app. simpl. lia.
    + by rewrite length_insert.
Qed.

Lemma collecting_state st st' o l t : collecting st o l t -> collecting st' o l (set_state st' t).
Proof. intros (Hs & H). done. Qed.

Lemma collecting_mccp1 st o l t b : o <> TELNET_TELOPT_COMPRESS -> collecting st o l t -> mccp1 t b = false.
Proof.
  intros Ho (_ & <- & _). unfold mccp1. apply Z.eqb_neq in Ho. rewrite Ho. by destruct (bool_decide _).
Qed.

(** One byte of the subnegotiation, escaped on the wire. *)
Lemma run_collect_byte o l t b :
  o <> TELNET_TELOPT_COMPRESS -> collecting TELNET_STATE_SB_DATA o l t ->
  Z.of_nat (length l) < 16384 ->
  exists t', bytes_run t (escape b) = (t', []) /\ collecting TELNET_STATE_SB_DATA o (l ++ [b]) t' /\
    no_mccp1 t (escape b) = true.
Proof.
  intros Ho Hc Hl. pose proof Hc as (Hs & Hso & _). pose proof Ho as Ho'. apply Z.eqb_neq in Ho'.
  unfold escape. destruct (Z.eqb_spec b TELNET_IAC) as [->|Hb].
  - destruct (buffer_byte_collects _ _ _ _ TELNET_IAC
      (collecting_state _ TELNET_STATE_SB_DATA_IAC _ _ _ Hc) Hl) as (t' & E & Hc').
    exists (set_state TELNET_STATE_SB_DATA t'). split_and!; [|by eapply collecting_state|].
    + cbn [bytes_run]. unfold byte_step at 1. rewrite Hs. cbn.
      unfold process_byte, tbind, tget, tret, tmod. rewrite Hs. cbn.
      unfold byte_step. cbn. unfold process_byte, tbind, tget, tret, tmod. cbn. by rewrite E.
    + cbn [no_mccp1]. rewrite (collecting_mccp1 TELNET_STATE_SB_DATA o l t) by done. simpl.
      unfold byte_step. rewrite Hs. cbn. unfold process_byte, tbind, tget, tret, tmod.
      rewrite Hs. cbn. by rewrite (collecting_mccp1 _ o l _ _ Ho (collecting_state _ TELNET_STATE_SB_DATA_IAC _ _ _ Hc)).
  - apply Z.eqb_neq in Hb. destruct (buffer_byte_collects _ _ _ _ b Hc Hl) as (t' & E & Hc').
    exists t'. split_and!; [|done|].
    + cbn [bytes_run]. unfold byte_step. rewrite Hs. cbn.
      unfold process_byte, tbind, tget, tret, tmod. rewrite Hs, Hb, Hso, Ho'. cbn. by rewrite E.
    + cbn [no_mccp1]. by rewrite (collecting_mccp1 TELNET_STATE_SB_DATA o l t).
Qed.

Lemma run_collect o buffer : forall l t,
  o <> TELNET_TELOPT_COMPRESS -> collecting TELNET_STATE_SB_DATA o l t ->
  Z.of_nat (length l + length buffer) <= 16384 ->
  exists t', bytes_run t (buffer ≫= escape) = (t', []) /\
    collecting TELNET_STATE_SB_DATA o (l ++ buffer) t' /\ no_mccp1 t (buffer ≫= escape) = true.
Proof.
  induction buffer as [|b buffer IH]; intros l t Ho Hc Hl.
  - exists t. rewrite app_nil_r. done.
  - simpl in Hl. destruct (run_collect_byte o l t b Ho Hc) as (t1 & E1 & Hc1 & Hm1); [lia|].
    destruct (IH (l ++ [b]) t1) as (t2 & E2 & Hc2 & Hm2); [done|done|rewrite length_app; simpl; lia|].
    exists t2. cbn [mbind list_bind]. change (list_bind _ _ escape buffer) with (buffer ≫= escape).
    rewrite bytes_run_app, no_mccp1_app, E1, Hm1. cbn [fst snd]. rewrite E2, Hm2.
    rewrite <- app_assoc in Hc2. done.
Qed.

(** The subnegotiation [o] with the payload [buffer] on the wire. *)
Definition sb_wire (o : Z) (buffer : list Z) : list Z :=
  [TELNET_IAC; TELNET_SB; o] ++ (buffer ≫= escape) ++ [TELNET_IAC; TELNET_SE].

Lemma telnet_subnegotiation_sends o buffer : sends (telnet_subnegotiation o buffer) (sb_wire o buffer).
Proof. unfold telnet_subnegotiation, sb_wire. auto with siproxy. Qed.

(** The end of the subnegotiation runs the handler. *)
Lemma run_sb_end o t :
  t_state t = TELNET_STATE_SB_DATA -> t_sb_telopt t = o -> o <> TELNET_TELOPT_COMPRESS ->
  bytes_run t [TELNET_IAC; TELNET_SE] =
    (the_state (subnegotiate (set_state TELNET_STATE_DATA t)),
     observes [] (the_events (subnegotiate (set_state TELNET_STATE_DATA t)))) /\
  no_mccp1 t [TELNET_IAC; TELNET_SE] = true.
Proof.
  intros Hs Ho Hn. apply Z.eqb_neq in Hn.
  assert (E1 : byte_step t TELNET_IAC = (set_state TELNET_STATE_SB_DATA_IAC t, [])).
  { unfold byte_step, process_byte, tbind, tget, tmod, tret. rewrite Hs. done. }
  cbn [bytes_run no_mccp1]. rewrite E1. unfold mccp1. simpl. rewrite Ho, Hn, andb_false_r. simpl.
  split; [|done]. unfold byte_step, process_byte, tbind, tget, tmod, tret. simpl.
  change (set_state TELNET_STATE_DATA (set_state _ t)) with (set_state TELNET_STATE_DATA t).
  destruct (subnegotiate _) as [[rc t1] evs]. unfold the_state, the_events. simpl.
  destruct (negb _); by rewrite !app_nil_r.
Qed.

(** The receiver runs the handler of the option on exactly [buffer]. *)
Lemma run_sb o buffer t :
  t_state t = TELNET_STATE_DATA -> buffer_ok t -> t_mallocs t = [] ->
  o <> TELNET_TELOPT_COMPRESS -> Z.of_nat (length buffer) <= 16384 ->
  exists t1, collecting TELNET_STATE_DATA o buffer t1 /\
    recv_observed t (sb_wire o buffer) =
      Some (the_state (subnegotiate t1), observes [] (the_events (subnegotiate t1))).
Proof.
  intros Hs (Hin & Hlen & Hr) Hm Ho Hl.
  set (t0 := set_state TELNET_STATE_SB_DATA (set_buffer (t_buffer t) (t_buffer_size t) 0 (set_sb_telopt o t))).
  assert (E0 : bytes_run t [TELNET_IAC; TELNET_SB; o] = (t0, []) /\ no_mccp1 t [TELNET_IAC; TELNET_SB; o] = true).
  { destruct t; simpl in Hs; subst. done. }
  destruct E0 as [E0 M0].
  assert (C0 : collecting TELNET_STATE_SB_DATA o [] t0).
  { unfold t0, collecting, buffer_ok; simpl. split_and!; try done; lia. }
  destruct (run_collect o buffer [] t0 Ho C0) as (t2 & E2 & C2 & M2); [simpl; lia|].
  rewrite app_nil_l in C2.
  exists (set_state TELNET_STATE_DATA t2). split; [by eapply collecting_state|].
  destruct (run_sb_end o t2) as [E3 M3]; [apply C2|apply C2|done|].
  unfold sb_wire. rewrite recv_observed_run.
  - rewrite !bytes_run_app, E0. cbn [fst snd]. rewrite E2. cbn [fst snd]. by rewrite E3.
  - rewrite !length_app. pose proof (length_escaped buffer). simpl. lia.
  - rewrite !no_mccp1_app, M0, E0. cbn [fst]. rewrite M2, E2. cbn [fst]. by rewrite M3.
Qed.

(** The options whose subnegotiations the library unpacks itself. *)
Definition unpacked (o : Z) : bool :=
  (o =? TELNET_TELOPT_ZMP) || (o =? TELNET_TELOPT_TTYPE) || (o =? TELNET_TELOPT_ENVIRON) ||
  (o =? TELNET_TELOPT_NEW_ENVIRON) || (o =? TELNET_TELOPT_MSSP).

Lemma collecting_payload st o l t : collecting st o l t -> take (sub_size t) (t_buffer t) = l.
Proof. intros (_ & _ & H & Hp & _). unfold sub_size. by rewrite Hp, Nat2Z.id. Qed.

(** C17: subnegotiations survive the wire.  What [telnet_subnegotiation] sends for an option the
    library does not unpack is delivered by a receiver (in state DATA, with memory) as one event
    with the option and exactly the payload, up to the 16384 bytes the buffer can hold; the receiver
    is back in state DATA. *)
Theorem subnegotiation_roundtrip (tx rx : telnet_t) (o : Z) (buffer : list Z) :
  t_state rx = TELNET_STATE_DATA -> buffer_ok rx -> t_mallocs rx = [] ->
  o <> TELNET_TELOPT_COMPRESS -> unpacked o = false -> Z.of_nat (length buffer) <= 16384 ->
  exists rx', recv_observed rx (on_wire (telnet_subnegotiation o buffer) tx) =
      Some (rx', [REvent (TELNET_EV_SUBNEGOTIATION o buffer)]) /\
    t_state rx' = TELNET_STATE_DATA.
Proof.
  intros Hs Hb Hm Ho Hu Hl. rewrite (on_wire_sends _ _ _ (telnet_subnegotiation_sends o buffer)).
  destruct (run_sb o buffer rx Hs Hb Hm Ho Hl) as (t1 & C & ->).
  exists t1. split; [|apply C].
  unfold unpacked in Hu. rewrite !orb_false_iff in Hu. destruct Hu as [[[[H1 H2] H3] H4] H5].
  pose proof (collecting_payload _ _ _ _ C) as Hp. destruct C as (_ & Hso & _).
  unfold subnegotiate, tbind, tget, emit, tret. rewrite Hso, H1, H2, H3, H4, H5. simpl.
  by rewrite Hp.
Qed.

Lemma subnegotiation_roundtrip_witness :
  exists rx', recv_observed (telnet_init None 0 [])
      (on_wire (telnet_subnegotiation 31 [0; 80; 255; 24]) (telnet_init None 0 [])) =
      Some (rx', [REvent (TELNET_EV_SUBNEGOTIATION 31 [0; 80; 255; 24])]) /\
    t_state rx' = TELNET_STATE_DATA.
Proof.
  apply (subnegotiation_roundtrip (telnet_init None 0 []) (telnet_init None 0 []) 31 [0; 80; 255; 24]);
    try reflexivity; try (vm_compute; discriminate).
  split; [constructor|]. split; [reflexivity|]. split; discriminate.
Defined.

(** *** ZMP *)

(** The arguments as one payload, each with its NUL. *)
Definition zmp_payload (args : list (list Z)) : list Z := args ≫= (fun a => a ++ [0]).

Lemma zmp_payload_cons a args : zmp_payload (a :: args) = a ++ 0 :: zmp_payload args.
Proof. unfold zmp_payload. simpl. by rewrite <- app_assoc. Qed.

Lemma escaped_app a b : (a ++ b) ≫= escape = (a ≫= escape) ++ (b ≫= escape).
Proof. apply bind_app. Qed.

Lemma telnet_send_vzmpv_sends args : sends (telnet_send_vzmpv args) (sb_wire TELNET_TELOPT_ZMP (zmp_payload args)).
Proof.
  unfold telnet_send_vzmpv, sb_wire. apply sends_bind; [apply sends_send|].
  apply sends_bind; [|apply sends_iac].
  induction args as [|a args IH]; [apply sends_ret|].
  unfold zmp_payload. simpl. rewrite escaped_app.
  apply sends_bind; [apply telnet_send_sends|exact IH].
Qed.

(** The loop of [_zmp_telnet] finds the arguments of a payload that starts at [length pre]. *)
Lemma zmp_args_parse args : forall fuel pre rest,
  Forall nonul args -> (length args <= fuel)%nat ->
  str_at (pre ++ zmp_payload args ++ rest) <$>
    zmp_args fuel (pre ++ zmp_payload args ++ rest) (length pre)
      (length pre + length (zmp_payload args)) = args.
Proof.
  induction args as [|a args IH]; intros fuel pre rest Hn Hf.
  - destruct fuel; simpl; [done|]. by rewrite bool_decide_eq_true_2 by lia.
  - apply Forall_cons in Hn as [Ha Hn]. destruct fuel as [|fuel]; simpl in Hf; [lia|].
    rewrite zmp_payload_cons. cbn [zmp_args].
    rewrite bool_decide_eq_false_2 by (rewrite length_app; simpl; lia).
    replace (pre ++ (a ++ 0 :: zmp_payload args) ++ rest)
      with ((pre ++ a ++ [0]) ++ zmp_payload args ++ rest) by (by rewrite <- !app_assoc).
    set (buf := (pre ++ a ++ [0]) ++ zmp_payload args ++ rest).
    assert (Hd : drop (length pre) buf = a ++ 0 :: zmp_payload args ++ rest).
    { unfold buf. rewrite <- !app_assoc. by rewrite drop_app_length. }
    cbn [fmap list_fmap]. f_equal.
    + unfold str_at. rewrite Hd. by apply cstr_app_nul.
    + unfold strlen. rewrite Hd, cstr_app_nul by done.
      specialize (IH fuel (pre ++ a ++ [0]) rest Hn ltac:(lia)). rewrite <- IH at 2. f_equal.
      f_equal; rewrite ?length_app; simpl; rewrite ?length_app; simpl; lia.
Qed.

Lemma zmp_payload_length args : (length args <= length (zmp_payload args))%nat.
Proof.
  induction args as [|a args IH]; [done|]. rewrite zmp_payload_cons, length_app. simpl. lia.
Qed.

Lemma zmp_payload_last args : args <> [] -> last (zmp_payload args) = Some 0.
Proof.
  induction args as [|a args IH]; intros H; [done|]. rewrite zmp_payload_cons.
  destruct args as [|a' args]; [apply last_snoc|].
  rewrite last_app. change (0 :: zmp_payload (a' :: args)) with ([0] ++ zmp_payload (a' :: args)).
  by rewrite last_app, IH.
Qed.

(** ZMP commands survive the wire.  The arguments given to [telnet_send_vzmpv], strings of any
    bytes but NUL, are the arguments of the ZMP event the receiver delivers, after the event with
    the raw payload. *)
Theorem zmp_roundtrip (tx rx : telnet_t) (args : list (list Z)) :
  t_state rx = TELNET_STATE_DATA -> buffer_ok rx -> t_mallocs rx = [] ->
  args <> [] -> Forall nonul args -> Z.of_nat (length (zmp_payload args)) <= 16384 ->
  exists rx', recv_observed rx (on_wire (telnet_send_vzmpv args) tx) =
      Some (rx', [REvent (TELNET_EV_SUBNEGOTIATION TELNET_TELOPT_ZMP (zmp_payload args));
                  REvent (TELNET_EV_ZMP args)]) /\
    t_state rx' = TELNET_STATE_DATA.
Proof.
  intros Hs Hb Hm Hne Hn Hl. rewrite (on_wire_sends _ _ _ (telnet_send_vzmpv_sends args)).
  destruct (run_sb TELNET_TELOPT_ZMP (zmp_payload args) rx Hs Hb Hm) as (t1 & C & ->); [done|done|].
  exists t1. split; [|apply C]. pose proof (collecting_payload _ _ _ _ C) as Hp.
  destruct C as (_ & Hso & Htk & Hpos & _ & Hm1).
  pose proof (zmp_payload_length args) as Hlen. pose proof (zmp_payload_last args Hne) as Hlast.
  assert (Hsz : sub_size t1 = length (zmp_payload args)) by (unfold sub_size; lia).
  assert (Hpos1 : (0 < length (zmp_payload args))%nat).
  { destruct args as [|a args]; [done|]. rewrite zmp_payload_cons, length_app. simpl. lia. }
  assert (Hbuf : t_buffer t1 = zmp_payload args ++ drop (sub_size t1) (t_buffer t1))
    by (by rewrite <- Hp, take_drop).
  unfold subnegotiate, tbind, tget, emit, tret. rewrite Hso, Hp. cbn [Z.eqb TELNET_TELOPT_ZMP Pos.eqb].
  unfold zmp_telnet. rewrite Hsz in *. set (junk := drop _ _) in *.
  rewrite bool_decide_eq_false_2 by lia.
  assert (Hrd : rd (t_buffer t1) (length (zmp_payload args) - 1) = 0).
  { unfold rd. rewrite Hbuf, lookup_app_l by lia. rewrite last_lookup in Hlast.
    by rewrite Nat.sub_1_r, Hlast. }
  rewrite Hrd. unfold tbind, malloc, emit, tret. simpl. rewrite Hm1. unfold the_state, the_events. simpl.
  pose proof (zmp_args_parse args (length (zmp_payload args)) [] junk Hn Hlen) as Hparse.
  rewrite <- Hbuf in Hparse. simpl in Hparse. by rewrite Hparse.
Qed.

Lemma zmp_roundtrip_witness :
  let t := telnet_init None 0 [] in
  exists rx', recv_observed t (on_wire (telnet_send_vzmpv [str "zmp.ping"; [255]]) t) =
      Some (rx', [REvent (TELNET_EV_SUBNEGOTIATION TELNET_TELOPT_ZMP (zmp_payload [str "zmp.ping"; [255]]));
                  REvent (TELNET_EV_ZMP [str "zmp.ping"; [255]])]) /\
    t_state rx' = TELNET_STATE_DATA.
Proof.
  intros t. apply (zmp_roundtrip t t [str "zmp.ping"; [255]]); try reflexivity; try discriminate.
  - split; [constructor|]. split; [reflexivity|]. split; discriminate.
  - repeat constructor; discriminate.
Defined.

(** ** MCCPv1 *)

(** After the MCCPv1 sequence IAC SB COMPRESS WILL the next byte is lost: when the sequence
    ends a chunk, [telnet_recv] delivers a data event of [2^64 - 1] bytes that starts beyond it. *)
Theorem mccp1_overrun (t : telnet_t) :
  t_state t = TELNET_STATE_DATA ->
  exists t', recv_events t [TELNET_IAC; TELNET_SB; TELNET_TELOPT_COMPRESS; TELNET_WILL] 4 =
    Some (t', [TELNET_EV_DATA (SrcBuffer 0) 5 (2 ^ 64 - 1)]).
Proof.
  intros Hs. destruct t as [? ? ? ? ? st ? ? ? ?]. simpl in Hs. subst. eexists. vm_compute. reflexivity.
Qed.

Lemma mccp1_overrun_witness :
  exists t', recv_events (telnet_init None 0 [])
      [TELNET_IAC; TELNET_SB; TELNET_TELOPT_COMPRESS; TELNET_WILL] 4 =
    Some (t', [TELNET_EV_DATA (SrcBuffer 0) 5 (2 ^ 64 - 1)]).
Proof. apply (mccp1_overrun (telnet_init None 0 [])). reflexivity. Defined.
