(* ===== verification/World.v ===== *)
(** * World: the state of the program of main.c, and its effects

    The control block [siproxy], the events, the event queue, the telnet tracker, and what the
    environment offers (the bytes of the modem, the results of system calls) and receives (the log of
    outputs, in order).  The monad [io] threads this state through the program; a call that blocks,
    exits or has undefined behaviour ends the run. *)

From Stdlib Require Import ZArith Lia String.
From stdpp Require Import base tactics numbers list gmap.
From S2P Require Import Prelude Queue QueueApi Telnet.

(** ** Data of main.c *)

Inductive EVENT : Type :=
| EVT_NONE
| EVT_MODEM_COLP | EVT_MODEM_CLIP | EVT_MODEM_NO_CARRIER | EVT_MODEM_NO_ANSWER | EVT_MODEM_BUSY
| EVT_MODEM_OK | EVT_MODEM_ERROR | EVT_MODEM_SMS | EVT_MODEM_MAX
| EVT_SIP_CALLING | EVT_SIP_INCOMING | EVT_SIP_EARLY | EVT_SIP_CONNECTING | EVT_SIP_CONFIRMED
| EVT_SIP_DISCONNCTD | EVT_SIP_MAX
| EVT_MQTT_CALLING | EVT_MQTT_CALLED | EVT_MQTT_STATUS | EVT_MQTT_SMS | EVT_MQTT_MAX
| EVT_UNKNOW.

#[export] Instance EVENT_eq_dec : EqDecision EVENT.
Proof. solve_decision. Defined.

(** The values of the enumeration, which start at 1. *)
Definition event_code (e : EVENT) : Z :=
  match e with
  | EVT_NONE => 1
  | EVT_MODEM_COLP => 2 | EVT_MODEM_CLIP => 3 | EVT_MODEM_NO_CARRIER => 4
  | EVT_MODEM_NO_ANSWER => 5 | EVT_MODEM_BUSY => 6 | EVT_MODEM_OK => 7 | EVT_MODEM_ERROR => 8
  | EVT_MODEM_SMS => 9 | EVT_MODEM_MAX => 10
  | EVT_SIP_CALLING => 11 | EVT_SIP_INCOMING => 12 | EVT_SIP_EARLY => 13 | EVT_SIP_CONNECTING => 14
  | EVT_SIP_CONFIRMED => 15 | EVT_SIP_DISCONNCTD => 16 | EVT_SIP_MAX => 17
  | EVT_MQTT_CALLING => 18 | EVT_MQTT_CALLED => 19 | EVT_MQTT_STATUS => 20 | EVT_MQTT_SMS => 21
  | EVT_MQTT_MAX => 22
  | EVT_UNKNOW => 23
  end.

(** [struct evt].  [malloc] leaves it uninitialised: [None] is a field not written yet.  The array
    [val] is given by its C string. *)
Record evt : Type := Evt {
  event : option EVENT;
  val : option (list Z)
}.

(** [sizeof (evt->val)], [sizeof (siproxy.sim_num)], the size of the line and socket buffers and the
    size given to [read_line] for them. *)
Definition VAL_SIZE : nat := Z.to_nat 1024.
Definition SIM_NUM_SIZE : nat := Z.to_nat 255.
Definition BUF_SIZE : nat := Z.to_nat 4096.
Definition LINE_SIZE : nat := Z.to_nat 4095.

Lemma sizes :
  Z.of_nat VAL_SIZE = 1024 /\ Z.of_nat SIM_NUM_SIZE = 255 /\ Z.of_nat BUF_SIZE = 4096 /\
  Z.of_nat LINE_SIZE = 4095.
Proof. unfold VAL_SIZE, SIM_NUM_SIZE, BUF_SIZE, LINE_SIZE. lia. Qed.

#[global] Opaque VAL_SIZE SIM_NUM_SIZE BUF_SIZE LINE_SIZE.

(** Linear arithmetic that knows the sizes. *)
Ltac size_lia := pose proof sizes; lia.

Inductive STATE : Type :=
| STATE_INIT | STATE_INCOMING | STATE_CALLING | STATE_EARLY | STATE_CONNECTING | STATE_CONFIRMED
| STATE_DISCONNCTD | STATE_TERMINATED | STATE_UNKNOW.

#[export] Instance STATE_eq_dec : EqDecision STATE.
Proof. solve_decision. Defined.

Inductive CALL_INIT : Type := INIT_NONE | INIT_FROM_MODEM | INIT_FROM_SIP.

#[export] Instance CALL_INIT_eq_dec : EqDecision CALL_INIT.
Proof. solve_decision. Defined.

Inductive PEER_STATUS : Type := PEER_OFFLINE | PEER_ONLINE.

(** [struct siproxy_ctrl], without the thread handle.  [uart] and [sip_peer] are C strings;
    [sim_num] is the whole array. *)
Record siproxy_ctrl : Type := Ctrl {
  sip_state : STATE;
  modem_state : STATE;
  mqtt_state : STATE;
  state_ : STATE;
  init_dir : CALL_INIT;
  uart : list Z;
  sip_peer : list Z;
  sip_peer_status : PEER_STATUS;
  sim_num : list Z;
  uart_fd : Z;
  sock_fd : Z;
  dbg_level : Z
}.

(** The initializer of the variable [siproxy]. *)
Definition siproxy_init : siproxy_ctrl :=
  Ctrl STATE_INIT STATE_INIT STATE_INIT STATE_INIT INIT_NONE [] [] PEER_OFFLINE
    (replicate SIM_NUM_SIZE 0) (-1) (-1) 0.

Definition set_sip_state (s : STATE) (c : siproxy_ctrl) : siproxy_ctrl :=
  Ctrl s (modem_state c) (mqtt_state c) (state_ c) (init_dir c) (uart c) (sip_peer c)
    (sip_peer_status c) (sim_num c) (uart_fd c) (sock_fd c) (dbg_level c).
Definition set_modem_state (s : STATE) (c : siproxy_ctrl) : siproxy_ctrl :=
  Ctrl (sip_state c) s (mqtt_state c) (state_ c) (init_dir c) (uart c) (sip_peer c)
    (sip_peer_status c) (sim_num c) (uart_fd c) (sock_fd c) (dbg_level c).
Definition set_mqtt_state (s : STATE) (c : siproxy_ctrl) : siproxy_ctrl :=
  Ctrl (sip_state c) (modem_state c) s (state_ c) (init_dir c) (uart c) (sip_peer c)
    (sip_peer_status c) (sim_num c) (uart_fd c) (sock_fd c) (dbg_level c).
Definition set_state_ (s : STATE) (c : siproxy_ctrl) : siproxy_ctrl :=
  Ctrl (sip_state c) (modem_state c) (mqtt_state c) s (init_dir c) (uart c) (sip_peer c)
    (sip_peer_status c) (sim_num c) (uart_fd c) (sock_fd c) (dbg_level c).
Definition set_init_dir (d : CALL_INIT) (c : siproxy_ctrl) : siproxy_ctrl :=
  Ctrl (sip_state c) (modem_state c) (mqtt_state c) (state_ c) d (uart c) (sip_peer c)
    (sip_peer_status c) (sim_num c) (uart_fd c) (sock_fd c) (dbg_level c).
Definition set_sim_num (n : list Z) (c : siproxy_ctrl) : siproxy_ctrl :=
  Ctrl (sip_state c) (modem_state c) (mqtt_state c) (state_ c) (init_dir c) (uart c) (sip_peer c)
    (sip_peer_status c) n (uart_fd c) (sock_fd c) (dbg_level c).
Definition set_conf (u p : list Z) (fd sock : Z) (c : siproxy_ctrl) : siproxy_ctrl :=
  Ctrl (sip_state c) (modem_state c) (mqtt_state c) (state_ c) (init_dir c) u p
    (sip_peer_status c) (sim_num c) fd sock (dbg_level c).

(** ** The environment *)

(** What one [read (fd, &ch, 1)] on the serial line does. *)
Inductive rd : Type :=
| RdByte (b : Z)
| RdEof
| RdIntr     (** -1 with [EINTR] *)
| RdError.   (** -1 with another error *)

(** What the program does to the outside, in order. *)
Inductive action : Type :=
| OUart (b : Z)                                      (** a byte written to the serial line *)
| OSock (bytes : list Z)                             (** bytes sent on the SIP socket *)
| OPub (topic payload : list Z) (retained : Z)       (** [MQTTAsync_sendMessage] *)
| OSub (topic : list Z) (qos : Z)                    (** [MQTTAsync_subscribe] *)
| OConnect                                           (** [MQTTAsync_connect] *)
| OSleep (usec : Z).

Section World.
Context {Q : Type} `{!MsgQueue Q}.

Record world : Type := World {
  w_ctrl : siproxy_ctrl;
  w_queue : Q;                    (** [events_queue] *)
  w_evts : gmap nat evt;          (** the allocated events *)
  w_telnet : telnet_t;
  w_echo : bool;                  (** [do_echo] *)
  w_uart : list rd;               (** what the serial line offers *)
  w_mallocs : list bool;          (** whether the next allocations succeed; then all do *)
  w_writes : list bool;           (** whether the next [write]s of a byte succeed; then all do *)
  w_sends : list Z;               (** what the next [send]s return; then they send everything *)
  w_mqtt : list Z;                (** what the next MQTTAsync calls return; then 0, success *)
  w_out : list action
}.

Definition set_ctrl (f : siproxy_ctrl -> siproxy_ctrl) (w : world) : world :=
  World (f (w_ctrl w)) (w_queue w) (w_evts w) (w_telnet w) (w_echo w) (w_uart w) (w_mallocs w)
    (w_writes w) (w_sends w) (w_mqtt w) (w_out w).
Definition set_events (q : Q) (h : gmap nat evt) (w : world) : world :=
  World (w_ctrl w) q h (w_telnet w) (w_echo w) (w_uart w) (w_mallocs w) (w_writes w) (w_sends w)
    (w_mqtt w) (w_out w).
Definition set_telnet (t : telnet_t) (w : world) : world :=
  World (w_ctrl w) (w_queue w) (w_evts w) t (w_echo w) (w_uart w) (w_mallocs w) (w_writes w)
    (w_sends w) (w_mqtt w) (w_out w).
Definition set_echo (b : bool) (w : world) : world :=
  World (w_ctrl w) (w_queue w) (w_evts w) (w_telnet w) b (w_uart w) (w_mallocs w) (w_writes w)
    (w_sends w) (w_mqtt w) (w_out w).
Definition set_uart (r : list rd) (w : world) : world :=
  World (w_ctrl w) (w_queue w) (w_evts w) (w_telnet w) (w_echo w) r (w_mallocs w) (w_writes w)
    (w_sends w) (w_mqtt w) (w_out w).
Definition set_wmallocs (m : list bool) (w : world) : world :=
  World (w_ctrl w) (w_queue w) (w_evts w) (w_telnet w) (w_echo w) (w_uart w) m (w_writes w)
    (w_sends w) (w_mqtt w) (w_out w).
Definition set_writes (l : list bool) (w : world) : world :=
  World (w_ctrl w) (w_queue w) (w_evts w) (w_telnet w) (w_echo w) (w_uart w) (w_mallocs w) l
    (w_sends w) (w_mqtt w) (w_out w).
Definition set_sends (l : list Z) (w : world) : world :=
  World (w_ctrl w) (w_queue w) (w_evts w) (w_telnet w) (w_echo w) (w_uart w) (w_mallocs w)
    (w_writes w) l (w_mqtt w) (w_out w).
Definition set_mqtt (l : list Z) (w : world) : world :=
  World (w_ctrl w) (w_queue w) (w_evts w) (w_telnet w) (w_echo w) (w_uart w) (w_mallocs w)
    (w_writes w) (w_sends w) l (w_out w).
Definition add_out (o : list action) (w : world) : world :=
  World (w_ctrl w) (w_queue w) (w_evts w) (w_telnet w) (w_echo w) (w_uart w) (w_mallocs w)
    (w_writes w) (w_sends w) (w_mqtt w) (w_out w ++ o).

(** ** The monad *)

Definition io (A : Type) : Type := world -> outcome (A * world).

Definition iret {A : Type} (a : A) : io A := fun w => Ret (a, w).
Definition ibind {A B : Type} (m : io A) (k : A -> io B) : io B :=
  fun w => let! (a, w1) := m w in k a w1.
Definition iget : io world := fun w => Ret (w, w).
Definition imod (f : world -> world) : io unit := fun w => Ret (tt, f w).
Definition ilift {A : Type} (o : outcome A) : io A := fun w => let! a := o in Ret (a, w).
Definition ifail {A : Type} (o : outcome A) : io A := fun _ => obind o (fun _ => Fault).
Definition out (o : action) : io unit := imod (add_out [o]).
Definition usleep (usec : Z) : io unit := out (OSleep usec).

(** Whether the next allocation succeeds. *)
Definition next_malloc : io bool := fun w =>
  match w_mallocs w with
  | [] => Ret (true, w)
  | ok :: m => Ret (ok, set_wmallocs m w)
  end.

(** The next result of an MQTTAsync call; 0 is MQTTASYNC_SUCCESS. *)
Definition next_mqtt : io Z := fun w =>
  match w_mqtt w with
  | [] => Ret (0, w)
  | rc :: l => Ret (rc, set_mqtt l w)
  end.
End World.

(** Compute nested updates of a world given by its fields. *)
Ltac flatten_world :=
  cbv beta iota delta [set_ctrl set_events set_telnet set_echo set_uart set_wmallocs set_writes
    set_sends set_mqtt add_out w_ctrl w_queue w_evts w_telnet w_echo w_uart w_mallocs w_writes
    w_sends w_mqtt w_out].

Arguments world Q : clear implicits.
Arguments io Q A : clear implicits.

Notation "'let+' x ':=' m 'in' k" := (ibind m (fun x => k))
  (at level 10, x pattern, m at level 100, k at level 200) : siproxy_scope.
Notation "m >>> k" := (ibind m (fun _ => k)) (at level 100, right associativity) : siproxy_scope.

(** ** Relations kept by a call that returns *)

Section IoKeeps.
Context {Q : Type} `{!MsgQueue Q}.
Context (P : world Q -> world Q -> Prop) `{!PreOrder P}.

(** When [m] returns, the worlds before and after are related by [P]. *)
Definition io_keeps {A : Type} (m : io Q A) : Prop := forall w a w', m w = Ret (a, w') -> P w w'.

Lemma io_keeps_ret {A} (a : A) : io_keeps (iret a).
Proof. intros w b w' [= -> ->]. reflexivity. Qed.

Lemma io_keeps_get : io_keeps iget.
Proof. intros w b w' [= -> ->]. reflexivity. Qed.

Lemma io_keeps_lift {A} (o : outcome A) : io_keeps (ilift o).
Proof. intros w b w' H. apply obind_Ret in H as (a & _ & [= -> ->]). reflexivity. Qed.

Lemma io_keeps_fail {A} (o : outcome A) : io_keeps (ifail o).
Proof. intros w b w' H. unfold ifail in H. by apply obind_Ret in H as (a & _ & H). Qed.

Lemma io_keeps_bind {A B} (m : io Q A) (k : A -> io Q B) :
  io_keeps m -> (forall a, io_keeps (k a)) -> io_keeps (ibind m k).
Proof.
  intros Hm Hk w b w' H. unfold ibind in H. apply obind_Ret in H as ([a w1] & H1 & H2).
  etrans; [by eapply Hm|by eapply Hk].
Qed.

Lemma io_keeps_mod f : (forall w, P w (f w)) -> io_keeps (imod f).
Proof. intros Hf w b w' [= _ <-]. apply Hf. Qed.
End IoKeeps.

(** Prove [io_keeps P m] along the structure of [m]; [tac] closes the leaves. *)
Ltac io_keeps_step tac :=
  lazymatch goal with
  | |- io_keeps _ (iret _) => apply io_keeps_ret; apply _
  | |- io_keeps _ iget => apply io_keeps_get; apply _
  | |- io_keeps _ (ilift _) => apply io_keeps_lift; apply _
  | |- io_keeps _ (ifail _) => apply io_keeps_fail
  | |- io_keeps _ (imod _) => first [apply io_keeps_mod; intros ?; solve [tac] | solve [tac]]
  | |- io_keeps _ (ibind _ _) => apply io_keeps_bind; [apply _| |intros ?]
  | |- io_keeps _ (if ?b then _ else _) => destruct b
  | |- io_keeps _ (match ?x with _ => _ end) => destruct x
  | |- io_keeps _ (let (_, _) := ?x in _) => destruct x
  end.
Ltac io_keeps_tac tac := repeat (cbv beta zeta; io_keeps_step tac); try solve [tac].

(** The control block is the same. *)
Definition same_ctrl {Q} (w w' : world Q) : Prop := w_ctrl w' = w_ctrl w.

#[export] Instance same_ctrl_preorder {Q} : PreOrder (@same_ctrl Q).
Proof. split; [done|]. unfold same_ctrl. intros w1 w2 w3 H1 H2. congruence. Qed.
