(* ===== verification/Modem.v ===== *)
(** * Modem: the serial line and the modem commands

    [read_line], [modem_cmd_wait] and the [modem_*] commands of main.c, and the output routines of
    rs232.c.  A buffer is the whole array ([list Z]); a C string is its bytes without the NUL. *)

From Stdlib Require Import ZArith Lia String.
From stdpp Require Import base tactics numbers list gmap.
From S2P Require Import Prelude Match Queue QueueApi Telnet World.

(** ** Reading *)

(** The loop of [read_line] on what the serial line offers: [tot_read] bytes are stored already.
    The result is the returned value, the array and what is left of the input; reading more than
    there is blocks. *)
Fixpoint read_line_loop (ins : list rd) (n tot_read : nat) (buf : list Z)
    : outcome (Z * list Z * list rd) :=
  match ins with
  | [] => Blocked
  | RdIntr :: ins' => read_line_loop ins' n tot_read buf
  | RdError :: ins' => Ret (-1, buf, ins')
  | RdEof :: ins' =>
      if bool_decide (tot_read = 0%nat) then Ret (0, buf, ins')
      else Ret (Z.of_nat tot_read, <[tot_read := 0]> buf, ins')
  | RdByte ch :: ins' =>
      let '(tot1, buf1) :=
        if bool_decide (tot_read < n - 1)%nat then (S tot_read, <[tot_read := ch]> buf)
        else (tot_read, buf) in
      if ch =? 10 then Ret (Z.of_nat tot1, <[tot1 := 0]> buf1, ins')
      else read_line_loop ins' n tot1 buf1
  end.

Definition read_line_from (ins : list rd) (is_null : bool) (n : nat) (buf : list Z)
    : outcome (Z * list Z * list rd) :=
  if bool_decide (n = 0%nat) || is_null then Ret (-1, buf, ins)   (* EINVAL *)
  else read_line_loop ins n 0 buf.

(** The string of length [n] at the start of a buffer, with the control characters made dots;
    [lt32] is the comparison [buf[i] < 32] of the type the buffer has. *)
Definition dots (lt32 : Z -> bool) (n : nat) (buf : list Z) : list Z :=
  ((fun b => if lt32 b then 46 else b) <$> take n buf) ++ drop n buf.

(** [unsigned char] and [char], which is signed. *)
Definition ult32 (b : Z) : bool := b <? 32.
Definition slt32 (b : Z) : bool := schar b <? 32.

(** Reading an array as a C string: without a NUL in the array the read runs out of it. *)
Definition cstr_array (a : list Z) : outcome (list Z) :=
  if bool_decide (0 ∈ a) then Ret (cstr a) else Fault.

Section Modem.
Context {Q : Type} `{!MsgQueue Q}.

(** [read_line (uart, buffer, n)] for a buffer with the contents [buf]. *)
Definition read_line (n : nat) (buf : list Z) : io Q (Z * list Z) := fun w =>
  let! (rc, buf', ins) := read_line_from (w_uart w) false n buf in
  Ret ((rc, buf'), set_uart ins w).

(** ** Writing *)

(** [write (fd, &byte, 1)]. *)
Definition rs232_send_byte (byte : Z) : io Q Z := fun w =>
  match w_writes w with
  | [] => Ret (0, add_out [OUart byte] w)
  | true :: l => Ret (0, add_out [OUart byte] (set_writes l w))
  | false :: l => Ret (-1, set_writes l w)
  end.

(** The result of [rs232_send_byte] is not looked at. *)
Fixpoint rs232_cputs (text : list Z) : io Q unit :=
  match text with
  | [] => iret tt
  | c :: text' => let+ _ := rs232_send_byte c in rs232_cputs text'
  end.

(** ** Commands *)

(** The waiting loop of [modem_cmd_wait]; each turn reads from the line, so that [fuel] is only a
    bound on the turns. *)
Fixpoint modem_wait_loop (fuel : nat) (respond : list Z) (buf : list Z) : io Q unit :=
  match fuel with
  | O => ifail Blocked
  | S fuel' =>
      let+ (n, buf1) := read_line LINE_SIZE buf in
      if 0 <? n then
        let buf2 := dots ult32 (Z.to_nat n) (<[Z.to_nat n := 0]> buf1) in
        if match_ respond (cstr buf2) then iret tt
        else modem_wait_loop fuel' respond buf2
      else modem_wait_loop fuel' respond buf1
  end.

Definition modem_cmd_wait (cmd respond : list Z) : io Q Z :=
  rs232_cputs cmd >>>
  usleep 300000 >>>
  let+ w := iget in
  modem_wait_loop (S (length (w_uart w))) respond (replicate BUF_SIZE 0) >>>
  iret 0.

Definition modem_cmd (cmd : list Z) : io Q Z := rs232_cputs cmd >>> iret 0.

(** [snprintf (cmd, sizeof (cmd), ...)] into a cleared array of 128 bytes, then [modem_cmd]. *)
Definition modem_cmd128 (text : list Z) : io Q Z := modem_cmd (cstr (snprintf 128 text)).

Definition modem_make_call (num : list Z) : io Q Z :=
  let+ s := ilift (cstr_array num) in
  modem_cmd128 (str "ATD" ++ s ++ str ";" ++ [13; 10]).

Definition modem_answer_call : io Q Z := modem_cmd (str "ATA" ++ [13; 10]).
Definition modem_hangup_call : io Q Z := modem_cmd (str "ATH" ++ [13; 10]).

Definition modem_get_sms (index : list Z) : io Q Z :=
  modem_cmd128 (str "AT+CMGR=" ++ index ++ [13; 10]).
Definition modem_delete_sms (index : list Z) : io Q Z :=
  modem_cmd128 (str "AT+CMGD=" ++ index ++ [13; 10]).

(** The end mark 0x1a replaces the NUL of the text in an array of 4096 zero bytes. *)
Definition modem_send_sms (pdu : list Z) (tpdu_len : Z) : io Q Z :=
  modem_cmd128 (str "AT+CMGS=" ++ decimal tpdu_len ++ [13]) >>>
  usleep 300000 >>>
  let text := cstr (snprintf BUF_SIZE pdu) in
  let data := <[length text := 26]> (snprintf BUF_SIZE text ++ replicate (BUF_SIZE - 1 - length text) 0) in
  let+ s := ilift (cstr_array data) in
  modem_cmd s.
End Modem.

(** ** Lines *)

(** The line delivers the bytes [bs], interrupted any number of times, and then has [rest]. *)
Inductive arrives : list Z -> list rd -> list rd -> Prop :=
| arrives_done rest : arrives [] rest rest
| arrives_intr b bs ins rest : arrives (b :: bs) ins rest -> arrives (b :: bs) (RdIntr :: ins) rest
| arrives_byte b bs ins rest : arrives bs ins rest -> arrives (b :: bs) (RdByte b :: ins) rest.

#[export] Hint Constructors arrives : siproxy.

(** The first bytes of an array are [s], and a NUL follows. *)
Definition holds_str (s buf : list Z) : Prop := exists rest, buf = s ++ 0 :: rest.

Lemma holds_str_insert s c r : <[length s := 0]> (s ++ c :: r) = s ++ 0 :: r.
Proof. rewrite insert_app_r_alt, Nat.sub_diag by lia. done. Qed.

(** The array after some bytes were stored at its start. *)
Lemma insert_next (s r : list Z) b c : <[length s := b]> (s ++ c :: r) = (s ++ [b]) ++ r.
Proof. rewrite insert_app_r_alt, Nat.sub_diag by lia. by rewrite <- app_assoc. Qed.

Lemma drop_next (s r : list Z) b c n :
  (length s < n)%nat -> drop n ((s ++ [b]) ++ r) = drop n (s ++ c :: r).
Proof. intros H. by rewrite <- (insert_next s r b c), drop_insert_lt. Qed.

(** The loop on a line, with the bytes [s] of it stored; [r] is the rest of the array. *)
Lemma read_line_loop_spec bs ins rest : arrives bs ins rest -> forall l n s r,
  bs = l ++ [10] -> 10 ∉ l -> (length s < n)%nat -> (n <= length s + length r)%nat ->
  exists buf', read_line_loop ins n (length s) (s ++ r) =
      Ret (Z.of_nat (length (s ++ take (n - 1 - length s) bs)), buf', rest) /\
    holds_str (s ++ take (n - 1 - length s) bs) buf' /\
    length buf' = length (s ++ r) /\ drop n buf' = drop n (s ++ r).
Proof.
  induction 1 as [rest|b bs ins rest _ IH|b bs ins rest Ha IH]; intros l n s r Hl Hn Hs Hr.
  - by destruct l.
  - cbn [read_line_loop]. by eapply IH.
  - destruct r as [|c r]; [simpl in Hr; lia|]. simpl in Hr.
    cbn [read_line_loop]. case_bool_decide as Hlt.
    + replace (n - 1 - length s)%nat with (S (n - 1 - length (s ++ [b])))
        by (rewrite length_app; simpl; lia).
      rewrite insert_next. cbn [take]. rewrite <- (Nat.add_1_r (length s)).
      replace (length s + 1)%nat with (length (s ++ [b])) by (rewrite length_app; simpl; lia).
      rewrite (app_assoc s [b] (take _ _) : s ++ b :: take _ _ = _).
      destruct (Z.eqb_spec b 10) as [->|Hb].
      * destruct l as [|x l]; simplify_eq/=; [|set_solver]. inversion Ha; subst.
        rewrite take_nil, app_nil_r.
        destruct r as [|c1 r]; [rewrite length_app in *; simpl in *; lia|].
        eexists. split; [done|]. split_and!.
        -- exists r. by rewrite holds_str_insert.
        -- rewrite length_insert, !length_app. simpl. lia.
        -- rewrite drop_insert_lt by (rewrite length_app; simpl; lia).
           apply drop_next. lia.
      * destruct l as [|x l]; simplify_eq/=.
        destruct (IH l n (s ++ [x]) r) as (buf' & E & H1 & H2 & H3);
          [done|set_solver|rewrite length_app; simpl; lia|rewrite length_app; simpl; lia|].
        exists buf'. split_and!; [done|done| |rewrite H3; apply drop_next; lia].
        rewrite H2, !length_app. simpl. lia.
    + replace (n - 1 - length s)%nat with O by lia. rewrite take_0, app_nil_r.
      destruct (Z.eqb_spec b 10) as [->|Hb].
      * destruct l as [|x l]; simplify_eq/=; [|set_solver]. inversion Ha; subst.
        eexists. split; [done|]. rewrite holds_str_insert. split_and!.
        -- by exists r.
        -- rewrite !length_app. done.
        -- rewrite !drop_app, !drop_ge by lia. 
           replace (n - length s)%nat with 1%nat by lia. done.
      * destruct l as [|x l]; simplify_eq/=.
        destruct (IH l n s (c :: r)) as (buf' & E & H1 & H2 & H3); [done|set_solver|done|simpl; lia|].
        replace (n - 1 - length s)%nat with O in * by lia. rewrite take_0, app_nil_r in *.
        by exists buf'.
Qed.

(** C24: [read_line] reads exactly one line.  Whatever interruptions come in between, it consumes the
    bytes up to and including the newline, stores the first [n - 1] of them and a NUL, returns their
    number, and writes nothing beyond the first [n] bytes of the buffer. *)
Theorem read_line_reads_line (l : list Z) (ins rest : list rd) (n : nat) (buf : list Z) :
  arrives (l ++ [10]) ins rest -> 10 ∉ l -> (0 < n)%nat -> (n <= length buf)%nat ->
  exists buf', read_line_from ins false n buf =
      Ret (Z.of_nat (length (take (n - 1) (l ++ [10]))), buf', rest) /\
    holds_str (take (n - 1) (l ++ [10])) buf' /\
    length buf' = length buf /\ drop n buf' = drop n buf.
Proof.
  intros Ha Hl Hn Hb. unfold read_line_from.
  rewrite (bool_decide_eq_false_2 (n = 0%nat)) by lia. simpl.
  destruct (read_line_loop_spec _ _ _ Ha l n [] buf) as (buf' & E & H); simpl; try done.
  rewrite Nat.sub_0_r in *. by exists buf'.
Qed.

Lemma read_line_reads_line_witness :
  exists buf', read_line_from (RdIntr :: (RdByte <$> str "OK!") ++ [RdIntr; RdByte 10; RdByte 65])
      false 4 (replicate 6 7) = Ret (3, buf', [RdByte 65]) /\
    holds_str (str "OK!") buf' /\ length buf' = 6%nat /\ drop 4 buf' = [7; 7].
Proof.
  apply (read_line_reads_line (str "OK!")
    (RdIntr :: (RdByte <$> str "OK!") ++ [RdIntr; RdByte 10; RdByte 65]) [RdByte 65] 4 (replicate 6 7)).
  - repeat constructor.
  - decide_all.
  - lia.
  - simpl. lia.
Defined.

(** *** Waiting for an answer *)

Lemma dots_spec lt32 s buf :
  (forall b, lt32 b = false -> b <> 0) -> holds_str s buf ->
  cstr (dots lt32 (length s) (<[length s := 0]> buf)) = (fun b => if lt32 b then 46 else b) <$> s /\
  length (dots lt32 (length s) (<[length s := 0]> buf)) = length buf.
Proof.
  intros Hlt [r ->]. rewrite holds_str_insert. unfold dots. rewrite take_app_length, drop_app_length.
  split; [|by rewrite !length_app, length_fmap].
  apply cstr_app_nul. apply Forall_fmap, Forall_true. intros b. simpl.
  destruct (lt32 b) eqn:E; [done|by apply Hlt].
Qed.

Lemma ult32_nonzero b : ult32 b = false -> b <> 0.
Proof. unfold ult32. lia. Qed.

Lemma slt32_nonzero b : slt32 b = false -> b <> 0.
Proof. unfold slt32, schar. intros H ->. done. Qed.
#[export] Hint Resolve ult32_nonzero slt32_nonzero : siproxy.

(** What the program sees of a line: the bytes stored, with dots for the control characters. *)
Definition shown (lt32 : Z -> bool) (n : nat) (l : list Z) : list Z :=
  (fun b => if lt32 b then 46 else b) <$> take (n - 1) (l ++ [10]).

(** Several lines. *)
Definition wire (ls : list (list Z)) : list Z := ls ≫= (fun l => l ++ [10]).

Section Wait.
Context {Q : Type} `{!MsgQueue Q}.
Implicit Types w : world Q.

Lemma cputs_out text w :
  w_writes w = [] -> rs232_cputs text w = Ret (tt, add_out (OUart <$> text) w).
Proof.
  revert w. induction text as [|c text IH]; intros w Hw; simpl.
  - unfold iret, add_out. rewrite app_nil_r. by destruct w.
  - unfold ibind, rs232_send_byte. rewrite Hw. simpl. rewrite IH by done.
    unfold add_out. simpl. by rewrite <- app_assoc.
Qed.

Lemma arrives_app a b ins rest :
  arrives (a ++ b) ins rest -> exists mid, arrives a ins mid /\ arrives b mid rest.
Proof.
  intros H. remember (a ++ b) as ab eqn:E. revert a E.
  induction H as [rest|x bs ins rest H IH|x bs ins rest H IH]; intros a E.
  - symmetry in E. apply app_eq_nil in E as [-> ->]. eauto with siproxy.
  - destruct a as [|y a]; simplify_eq/=; [eauto with siproxy|].
    destruct (IH (y :: a)) as (mid & H1 & H2); eauto with siproxy.
  - destruct a as [|y a]; simplify_eq/=; [eauto with siproxy|].
    destruct (IH a) as (mid & H1 & H2); eauto with siproxy.
Qed.

(** One [read_line] of the loop. *)
Lemma read_line_world n l ins rest buf w :
  w_uart w = ins -> arrives (l ++ [10]) ins rest -> 10 ∉ l -> (0 < n <= length buf)%nat ->
  exists buf', read_line n buf w =
      Ret ((Z.of_nat (length (take (n - 1) (l ++ [10]))), buf'), set_uart rest w) /\
    holds_str (take (n - 1) (l ++ [10])) buf' /\ length buf' = length buf.
Proof.
  intros <- Ha Hl [Hn Hb]. unfold read_line, read_line_from.
  rewrite (bool_decide_eq_false_2 (n = 0%nat)) by lia. simpl.
  destruct (read_line_loop_spec _ _ _ Ha l n [] buf) as (buf' & E & H1 & H2 & _); simpl; try done.
  rewrite Nat.sub_0_r in *. simpl in E, H1, H2. rewrite E. by exists buf'.
Qed.

(** The length of what is stored of a line is positive. *)
Lemma stored_pos n l : (1 < n)%nat -> 0 < Z.of_nat (length (take (n - 1) (l ++ [10]))).
Proof. intros Hn. rewrite length_take, length_app. simpl. lia. Qed.

(** One turn of the loop reads one line. *)
Lemma wait_turn respond l rest fuel buf w :
  length buf = BUF_SIZE -> 10 ∉ l -> arrives (l ++ [10]) (w_uart w) rest ->
  exists buf2, length buf2 = BUF_SIZE /\
    modem_wait_loop (S fuel) respond buf w =
      if match_ respond (shown ult32 LINE_SIZE l) then Ret (tt, set_uart rest w)
      else modem_wait_loop fuel respond buf2 (set_uart rest w).
Proof.
  intros Hb Hl Ha. cbn [modem_wait_loop]. unfold ibind.
  assert (Hn : (1 < LINE_SIZE)%nat /\ (LINE_SIZE <= length buf)%nat) by (rewrite Hb; size_lia).
  unfold shown. set (n := LINE_SIZE) in *. clearbody n.
  destruct (read_line_world n l _ rest buf w eq_refl Ha Hl) as (buf' & E & Hs & Hlen); [lia|].
  rewrite E. cbn [obind]. pose proof (stored_pos n l ltac:(lia)) as Hpos.
  rewrite (proj2 (Z.ltb_lt _ _) Hpos), Nat2Z.id.
  destruct (dots_spec ult32 (take (n - 1) (l ++ [10])) buf' ult32_nonzero Hs) as [Hd1 Hd2].
  rewrite Hd1. eexists. split; [rewrite Hd2, Hlen; exact Hb|].
  by destruct (match_ respond _).
Qed.

Lemma wait_loop_lines respond ls l rest : forall fuel buf w,
  (length ls < fuel)%nat -> length buf = BUF_SIZE ->
  Forall (fun l' => 10 ∉ l' /\ match_ respond (shown ult32 LINE_SIZE l') = false) ls ->
  10 ∉ l -> match_ respond (shown ult32 LINE_SIZE l) = true ->
  arrives (wire (ls ++ [l])) (w_uart w) rest ->
  modem_wait_loop fuel respond buf w = Ret (tt, set_uart rest w).
Proof.
  induction ls as [|l' ls IH]; intros fuel buf w Hf Hb Hls Hl Hm Ha;
    (destruct fuel as [|fuel]; [simpl in Hf; lia|]);
    apply (arrives_app (_ ++ [10])) in Ha as (mid & Ha1 & Ha2).
  - inversion Ha2; subst. destruct (wait_turn respond l rest fuel buf w) as (buf2 & _ & E); try done.
    by rewrite E, Hm.
  - apply Forall_cons in Hls as [[Hl' Hm'] Hls].
    destruct (wait_turn respond l' mid fuel buf w) as (buf2 & Hb2 & E); try done.
    rewrite E, Hm'. rewrite (IH fuel buf2 (set_uart mid w)); try done. simpl in Hf. lia.
Qed.

Lemma arrives_length bs ins rest : arrives bs ins rest -> (length bs <= length ins)%nat.
Proof. induction 1; simpl in *; lia. Qed.

Lemma wire_length ls : (length ls <= length (wire ls))%nat.
Proof.
  induction ls as [|l ls IH]; [done|].
  change (wire (l :: ls)) with ((l ++ [10]) ++ wire ls). rewrite !length_app. simpl. lia.
Qed.
End Wait.

(** C25: [modem_cmd_wait] sends its command and returns at the first answer: when the modem sends
    lines that do not match [respond] and then one that does (control characters shown as dots, long
    lines cut), it returns having consumed exactly these lines, and has written the command and
    nothing else. *)
Theorem modem_cmd_wait_answers {Q : Type} `{!MsgQueue Q} (w : world Q) (cmd respond l : list Z)
    (ls : list (list Z)) (rest : list rd) :
  w_writes w = [] ->
  Forall (fun l' => 10 ∉ l' /\ match_ respond (shown ult32 LINE_SIZE l') = false) ls ->
  10 ∉ l -> match_ respond (shown ult32 LINE_SIZE l) = true ->
  arrives (wire (ls ++ [l])) (w_uart w) rest ->
  modem_cmd_wait cmd respond w =
    Ret (0, set_uart rest (add_out ((OUart <$> cmd) ++ [OSleep 300000]) w)).
Proof.
  intros Hw Hls Hl Hm Ha. unfold modem_cmd_wait, ibind. rewrite cputs_out by done. cbn [obind].
  unfold usleep, out, imod, iget, iret. cbn [obind].
  pose proof (arrives_length _ _ _ Ha) as Hlen. pose proof (wire_length (ls ++ [l])) as Hw2.
  rewrite length_app in Hw2. simpl in Hw2.
  rewrite (wait_loop_lines respond ls l rest); try done.
  - cbn [obind]. unfold add_out, set_uart. simpl. by rewrite <- app_assoc.
  - simpl. lia.
Qed.

Lemma modem_cmd_wait_answers_witness :
  exists w : world queue,
    modem_cmd_wait (str "AT" ++ [13; 10]) (str "OK") w =
      Ret (0, set_uart [] (add_out ((OUart <$> (str "AT" ++ [13; 10])) ++ [OSleep 300000]) w)).
Proof.
  exists (World siproxy_init queue_zero ∅ (telnet_init None 0 []) true
    (RdByte <$> wire [str "AT" ++ [13]; str "OK" ++ [13]]) [] [] [] [] []).
  apply (modem_cmd_wait_answers _ _ _ (str "OK" ++ [13]) [str "AT" ++ [13]]).
  - reflexivity.
  - apply Forall_singleton. split; [apply (bool_decide_unpack _)|]; vm_compute; done.
  - decide_all.
  - vm_compute. reflexivity.
  - repeat constructor.
Defined.
