(* ===== verification/Events.v ===== *)
(** * Events: from lines, text and messages to the event queue

    The event tables of main.c, [find_event], and the routines that make an event of a modem line, of
    a line of the SIP client and of an MQTT message, and add it to [events_queue]. *)

From Stdlib Require Import ZArith Lia String.
From stdpp Require Import base tactics numbers list gmap.
From S2P Require Import Prelude Match Queue QueueApi Telnet World Modem.

(** ** The tables *)

Definition CLIENTID : list Z := str "100001Alice".
Definition PEERID : list Z := str "200002Bob".
Definition TOPIC_STATUS : list Z := str "/" ++ CLIENTID ++ str "/Status".
Definition PEERID_STATUS : list Z := str "/" ++ PEERID ++ str "/Status".
Definition ONLINE : list Z := str "Online".
Definition OFFLINE : list Z := str "Offline".
Definition TOPIC_BOB_CALLING : list Z := str "/" ++ PEERID ++ str "/Calling/PhoneOther".
Definition TOPIC_ALICE_CALLED : list Z := str "/" ++ CLIENTID ++ str "/Called/PhoneOther".
Definition TOPIC_SMS : list Z := str "/" ++ CLIENTID ++ str "/SMS".
Definition PEERID_SMS : list Z := str "/" ++ PEERID ++ str "/SMS".
Definition TOPIC_ALICE_MODEM : list Z := str "/" ++ CLIENTID ++ str "/Modem/Status".
Definition MODEM_CALL_OK : list Z := str "Ok".

Definition event_map : Type := list (EVENT * list Z).

Definition modem_events : event_map :=
  [ (EVT_NONE, str "NONE");
    (EVT_MODEM_COLP, str "+COLP");
    (EVT_MODEM_CLIP, str "+CLIP");
    (EVT_MODEM_NO_CARRIER, str "NO CARRIER");
    (EVT_MODEM_NO_ANSWER, str "NO ANSWER");
    (EVT_MODEM_BUSY, str "BUSY");
    (EVT_MODEM_OK, str "OK");
    (EVT_MODEM_ERROR, str "ERROR");
    (EVT_MODEM_SMS, str "+CMTI: " ++ [34] ++ str "SM" ++ [34]) ].

Definition sip_events : event_map :=
  [ (EVT_SIP_CALLING, str "state changed to CALLING");
    (EVT_SIP_INCOMING, str "Press ca a to answer");
    (EVT_SIP_EARLY, str "NONE");
    (EVT_SIP_CONNECTING, str "state changed to CONNECTING");
    (EVT_SIP_CONFIRMED, str "state changed to CONFIRMED");
    (EVT_SIP_DISCONNCTD, str "is DISCONNECTED") ].

Definition mqtt_events : event_map :=
  [ (EVT_MQTT_CALLING, TOPIC_BOB_CALLING);
    (EVT_MQTT_STATUS, PEERID_STATUS);
    (EVT_MQTT_SMS, PEERID_SMS) ].

Fixpoint find_event (buf : list Z) (events : event_map) : EVENT :=
  match events with
  | [] => EVT_NONE
  | (event, regex) :: events' => if match_ regex buf then event else find_event buf events'
  end.

(** [snprintf (dst, size, "%s", s)] into an array of [cap] bytes whose C string is [old]: nothing is
    written when [size] is 0, and writing beyond the array is undefined. *)
Definition snprintf_into (cap : nat) (size : Z) (s : list Z) (old : option (list Z))
    : outcome (option (list Z)) :=
  if size =? 0 then Ret old
  else
    let text := take (Z.to_nat (Z.min (size - 1) (Z.of_nat (length s)))) s in
    if bool_decide (cap < length text + 1)%nat then Fault else Ret (Some text).

Section Events.
Context {Q : Type} `{!MsgQueue Q}.

(** ** Events in memory *)

(** [malloc (sizeof *evt)]: a fresh event with nothing written, or NULL. *)
Definition malloc_evt : io Q (option nat) :=
  let+ ok := next_malloc in
  if ok : bool then
    let+ w := iget in
    let a := fresh (dom (w_evts w)) in
    imod (set_events (w_queue w) (<[a := Evt None None]> (w_evts w))) >>> iret (Some a)
  else iret None.

Definition load_evt (a : nat) : io Q evt :=
  let+ w := iget in ilift (deref (w_evts w !! a)).

Definition store_evt (a : nat) (e : evt) : io Q unit :=
  load_evt a >>> imod (fun w => set_events (w_queue w) (<[a := e]> (w_evts w)) w).

(** [queue_add (&events_queue, evt, evt->event)], whose result is not looked at. *)
Definition queue_add_evt (a : nat) : io Q unit :=
  let+ e := load_evt a in
  let+ t := ilift (deref (event e)) in
  let+ ok := next_malloc in
  let+ w := iget in
  let+ (_, q) := ilift (mq_add ok (w_queue w) (Some a) (event_code t)) in
  imod (fun w' => set_events q (w_evts w') w').

(** The common end of the three routines: an event with its text. *)
Definition new_event (t : EVENT) (size : Z) (text : outcome (list Z)) : io Q unit :=
  let+ evt := malloc_evt in
  match evt with
  | None => iret tt
  | Some a =>
      store_evt a (Evt (Some t) None) >>>
      let+ s := ilift text in
      let+ v := ilift (snprintf_into VAL_SIZE size s None) in
      store_evt a (Evt (Some t) v) >>>
      queue_add_evt a
  end.

(** ** Messages of the SIM card *)

(** [memcpy (index, start + 1, end - (start + 1))] into an array of 8 zero bytes. *)
Definition sms_index (buf : list Z) : outcome (list Z) :=
  match strstr buf (str "."), strstr buf (str ",") with
  | None, _ => Ret (replicate 8 0)
  | Some _, None => Fault
  | Some e, Some s =>
      let n := Z.of_nat e - (Z.of_nat s + 1) in
      if (n <? 0) || (8 <? n) then Fault
      else Ret (take (Z.to_nat n) (drop (s + 1) buf) ++ replicate (8 - Z.to_nat n) 0)
  end.

(** The length [snprintf] gets for a line of the message. *)
Definition sms_len (s : list Z) : Z :=
  let buf_len := Z.of_nat (length s) in
  if (2 <? buf_len) && bool_decide (s !! (length s - 2)%nat = Some 46) then buf_len - 1 else buf_len.

(** The loop that reads the answer to AT+CMGR; each turn reads from the line, so that [fuel] is only
    a bound on the turns. *)
Fixpoint sms_loop (fuel : nat) (a : nat) (buffer : list Z) : io Q unit :=
  match fuel with
  | O => ifail Blocked
  | S fuel' =>
      let+ (n, buffer1) := read_line LINE_SIZE buffer in
      let buffer2 :=
        if 0 <? n then dots slt32 (Z.to_nat n) (<[Z.to_nat n := 0]> buffer1) else buffer1 in
      let s := cstr buffer2 in
      if (0 <? n) && match_ (str "AT+CMGR") s then sms_loop fuel' a buffer2
      else if (0 <? n) && match_ (str "+CMGR:") s then sms_loop fuel' a buffer2
      else if (0 <? n) && bool_decide (buffer2 !! 0%nat = Some 46) then sms_loop fuel' a buffer2
      else if (0 <? n) && match_ (str "OK") s then iret tt
      else
        let+ e := load_evt a in
        let+ v := ilift (snprintf_into VAL_SIZE (sms_len s) s (val e)) in
        store_evt a (Evt (Some EVT_MODEM_SMS) v) >>>
        sms_loop fuel' a buffer2
  end.

Definition modem_event_sms_queue (buf : list Z) : io Q unit :=
  if match_ (str "MMS PUSH") buf then iret tt
  else
    let+ evt := malloc_evt in
    match evt with
    | None => iret tt
    | Some a =>
        let+ index := ilift (sms_index buf) in
        (match strstr buf (str ",") with
         | Some _ =>
             let+ i := ilift (cstr_array index) in
             modem_get_sms i >>> usleep 300000
         | None => iret tt
         end) >>>
        let+ w := iget in
        sms_loop (S (length (w_uart w))) a (replicate BUF_SIZE 0) >>>
        let+ i := ilift (cstr_array index) in
        modem_delete_sms i >>>
        queue_add_evt a
    end.

(** ** The three sources *)

Definition modem_event_queue (buf : list Z) : io Q unit :=
  let event := find_event buf modem_events in
  if bool_decide (event = EVT_NONE) then iret tt
  else if bool_decide (event = EVT_MODEM_SMS) then modem_event_sms_queue buf
  else new_event event (Z.of_nat VAL_SIZE) (Ret buf).

Definition sip_event_queue (buf : list Z) : io Q unit :=
  let event := find_event buf sip_events in
  if bool_decide (event = EVT_NONE) then iret tt else new_event event (Z.of_nat VAL_SIZE) (Ret buf).

(** [playload] is the memory that can be read from the pointer on; MQTT does not end a payload with
    a NUL, so that the text may go on beyond [palyloadlen]. *)
Definition mqtt_event_queue (topic playload : list Z) (palyloadlen : Z) : io Q unit :=
  let event := find_event topic mqtt_events in
  if bool_decide (event = EVT_NONE) then iret tt
  else new_event event (size_t (palyloadlen + 1)) (cstr_array playload).

(** [modem_event (buf, n)] on the array [read_line] has filled; the new contents of the array. *)
Definition modem_event (buf : list Z) (n : Z) : io Q (list Z) :=
  if 0 <? n then
    let buf1 := dots ult32 (Z.to_nat n) (<[Z.to_nat n := 0]> buf) in
    modem_event_queue (cstr buf1) >>> iret buf1
  else iret buf.
End Events.

(** ** What is recognised *)

(** No expression of the tables uses the special characters of the matcher. *)
Lemma tables_plain :
  Forall (fun p => plain p.2) (modem_events ++ sip_events ++ mqtt_events).
Proof.
  decide_all.
Qed.

(** [e] is the event of the first expression of the table that occurs in the text; [EVT_NONE] when
    none does. *)
Definition recognised (buf : list Z) (events : event_map) (e : EVENT) : Prop :=
  (exists i re, events !! i = Some (e, re) /\ occurs re buf /\
     forall j e' re', (j < i)%nat -> events !! j = Some (e', re') -> ~ occurs re' buf) \/
  (e = EVT_NONE /\ forall j e' re', events !! j = Some (e', re') -> ~ occurs re' buf).

Lemma find_event_recognised buf events :
  Forall (fun p => plain p.2) events -> recognised buf events (find_event buf events).
Proof.
  induction 1 as [|[e re] events Hp _ IH]; simpl; [by right|]. simpl in Hp.
  pose proof (match_plain_occurs re buf Hp) as Hm.
  destruct (match_ re buf).
  - left. exists 0%nat, re. split; [done|]. split; [by apply Hm|]. lia.
  - assert (Hno : ~ occurs re buf) by (intros H; by apply Hm in H).
    destruct IH as [(i & re' & Hi & Ho & Hf)|[He Hf]]; [left|right].
    + exists (S i), re'. split_and!; [done|done|]. intros [|j] e' re'' Hj Hl; simplify_eq/=; [done|].
      eapply Hf; [|done]. lia.
    + split; [done|]. intros [|j] e' re' Hl; simplify_eq/=; [done|]. by eapply Hf.
Qed.

Section Specs.
Context {Q : Type} `{!MsgQueue Q}.
Implicit Types w : world Q.

(** The world after the event [e] was allocated at [a] and added to the queue, now [q]. *)
Definition with_event (a : nat) (e : evt) (q : Q) (w : world Q) : world Q :=
  set_events q (<[a := e]> (w_evts w)) w.

Lemma load_evt_at a e w : w_evts w !! a = Some e -> load_evt a w = Ret (e, w).
Proof. intros H. unfold load_evt, ibind, iget, ilift. simpl. by rewrite H. Qed.

Lemma store_evt_at a e e' w :
  w_evts w !! a = Some e -> store_evt a e' w = Ret (tt, with_event a e' (w_queue w) w).
Proof. intros H. unfold store_evt, ibind. by rewrite (load_evt_at _ _ _ H). Qed.

Lemma malloc_evt_ok w :
  w_mallocs w = [] ->
  malloc_evt w = Ret (Some (fresh (dom (w_evts w))),
                      with_event (fresh (dom (w_evts w))) (Evt None None) (w_queue w) w).
Proof. intros H. unfold malloc_evt, ibind, next_malloc. rewrite H. done. Qed.

(** Adding an event whose kind is written appends it to the queue. *)
Lemma queue_add_evt_spec a t v w l :
  w_mallocs w = [] -> mq_holds (w_queue w) l -> w_evts w !! a = Some (Evt (Some t) v) ->
  exists q, queue_add_evt a w = Ret (tt, set_events q (w_evts w) w) /\
    mq_holds q (l ++ [(Some a, event_code t)]).
Proof.
  intros Hm Hq Ha. unfold queue_add_evt, ibind. rewrite (load_evt_at _ _ _ Ha). simpl.
  unfold next_malloc. rewrite Hm. simpl.
  destruct (mq_add_law true _ (Some a) (event_code t) l Hq) as [(q & E & H)|(? & _)]; [|done].
  exists q. unfold ilift. rewrite E. done.
Qed.

Lemma new_event_spec t size text s v w l :
  w_mallocs w = [] -> mq_holds (w_queue w) l -> text = Ret s ->
  snprintf_into VAL_SIZE size s None = Ret v ->
  exists q, new_event t size text w =
      Ret (tt, with_event (fresh (dom (w_evts w))) (Evt (Some t) v) q w) /\
    mq_holds q (l ++ [(Some (fresh (dom (w_evts w))), event_code t)]).
Proof.
  intros Hm Hq -> Hv. set (a := fresh _). unfold new_event, ibind.
  rewrite malloc_evt_ok by done. cbn [obind]. fold a.
  rewrite (store_evt_at a (Evt None None)) by (by apply lookup_insert_eq). cbn [obind].
  unfold ilift at 1. cbn [obind]. unfold ilift at 1. rewrite Hv. cbn [obind].
  rewrite (store_evt_at a (Evt (Some t) None)) by (by apply lookup_insert_eq). cbn [obind].
  unfold with_event at 3. cbn [w_evts set_events].
  destruct (queue_add_evt_spec a t v (with_event a (Evt (Some t) v) (w_queue w) w) l) as (q & E & H);
    [done|done|by apply lookup_insert_eq|].
  exists q. split; [|done].
  transitivity (queue_add_evt a (with_event a (Evt (Some t) v) (w_queue w) w)); [|exact E].
  f_equal. unfold with_event, set_events. simpl. f_equal. by rewrite !insert_insert_eq.
Qed.

(** The array [val] takes the first 1023 bytes. *)
Lemma snprintf_into_val s old :
  snprintf_into VAL_SIZE (Z.of_nat VAL_SIZE) s old = Ret (Some (take (VAL_SIZE - 1) s)).
Proof.
  unfold snprintf_into. assert (H : (1 < VAL_SIZE)%nat) by size_lia.
  set (n := VAL_SIZE) in *. clearbody n. destruct (Z.eqb_spec (Z.of_nat n) 0); [lia|].
  assert (E : take (Z.to_nat (Z.min (Z.of_nat n - 1) (Z.of_nat (length s)))) s = take (n - 1) s).
  { destruct (decide (length s <= n - 1)%nat); [rewrite !take_ge by lia; done|f_equal; lia]. }
  rewrite E, bool_decide_eq_false_2; [done|]. rewrite length_take. lia.
Qed.
End Specs.

(** The control characters of a received line are shown as dots. *)
Definition dotted (lt32 : Z -> bool) (s : list Z) : list Z :=
  (fun b => if lt32 b then 46 else b) <$> s.

(** The table look-ups.  For each of the three tables, [find_event] returns the event of the first
    expression of the table that occurs in the text, and [EVT_NONE] when none does. *)
Theorem find_event_first (buf : list Z) :
  recognised buf modem_events (find_event buf modem_events) /\
  recognised buf sip_events (find_event buf sip_events) /\
  recognised buf mqtt_events (find_event buf mqtt_events).
Proof.
  pose proof tables_plain as H. apply Forall_app in H as [H1 [H2 H3]%Forall_app].
  auto using find_event_recognised.
Qed.

(** a line of the modem becomes one event.  For a received line [s], [modem_event] adds to the end
    of the queue one freshly allocated event, of the kind the table gives to the line with its control
    characters shown as dots, whose text is that line cut to 1023 bytes; a line without an event
    changes nothing.  (New messages of the SIM card are handled by [modem_event_sms_queue].) *)
Theorem modem_event_queues_line {Q : Type} `{!MsgQueue Q} (w : world Q) (s buf : list Z)
    (l : list (option nat * Z)) :
  w_mallocs w = [] -> mq_holds (w_queue w) l -> holds_str s buf -> s <> [] ->
  let e := find_event (dotted ult32 s) modem_events in
  let a := fresh (dom (w_evts w)) in
  e <> EVT_MODEM_SMS ->
  exists buf1 w', modem_event buf (Z.of_nat (length s)) w = Ret (buf1, w') /\
    holds_str (dotted ult32 s) buf1 /\
    if decide (e = EVT_NONE) then w' = w
    else exists q, w' = with_event a (Evt (Some e) (Some (take (VAL_SIZE - 1) (dotted ult32 s)))) q w /\
           mq_holds q (l ++ [(Some a, event_code e)]).
Proof.
  intros Hm Hq Hs Hne e a Hsms.
  destruct (dots_spec ult32 s buf ult32_nonzero Hs) as [Hd _]. unfold modem_event.
  rewrite (proj2 (Z.ltb_lt _ _)), Nat2Z.id by (destruct s; [done|simpl; lia]).
  assert (Hstr : holds_str (dotted ult32 s) (dots ult32 (length s) (<[length s := 0]> buf))).
  { destruct Hs as [r ->]. rewrite holds_str_insert. unfold dots.
    rewrite take_app_length, drop_app_length. by exists r. }
  rewrite Hd. fold (dotted ult32 s). unfold ibind, modem_event_queue. fold e.
  destruct (decide (e = EVT_NONE)) as [->|He].
  - do 2 eexists. split; [reflexivity|]. done.
  - rewrite !bool_decide_eq_false_2 by done.
    destruct (new_event_spec e (Z.of_nat VAL_SIZE) (Ret (dotted ult32 s)) (dotted ult32 s) _ w l
      Hm Hq eq_refl (snprintf_into_val _ _)) as (q & -> & H).
    do 2 eexists. split; [reflexivity|]. split; [done|]. by exists q.
Qed.

Lemma modem_event_queues_line_witness :
  let w := World siproxy_init queue_zero ∅ (telnet_init None 0 []) true [] [] [] [] [] [] in
  exists buf1 w', modem_event (str "NO CARRIER" ++ [13; 10] ++ replicate 8 0) 12 w = Ret (buf1, w') /\
    holds_str (str "NO CARRIER..") buf1 /\
    exists q, w' = with_event 0%nat (Evt (Some EVT_MODEM_NO_CARRIER) (Some (str "NO CARRIER.."))) q w /\
      mq_holds q [(Some 0%nat, 4)].
Proof.
  intros w.
  refine (modem_event_queues_line w (str "NO CARRIER" ++ [13; 10])
    (str "NO CARRIER" ++ [13; 10] ++ replicate 8 0) [] _ _ _ _ _).
  - reflexivity.
  - apply holds_zero.
  - exists (replicate 7 0). reflexivity.
  - discriminate.
  - vm_compute. discriminate.
Defined.

(** ** New messages of the SIM card *)

(** What the loop makes of a line of the answer, as it is shown. *)
Definition sms_skipped (s : list Z) : bool :=
  match_ (str "AT+CMGR") s || match_ (str "+CMGR:") s || bool_decide (head s = Some 46).
Definition sms_end (s : list Z) : bool := negb (sms_skipped s) && match_ (str "OK") s.

(** The text kept of a line: the length given to [snprintf] counts the NUL. *)
Definition sms_text (s : list Z) : list Z := take (Z.to_nat (sms_len s - 1)) s.

(** The event after the lines [ls]: each line that is not skipped replaces the text. *)
Definition sms_read (ls : list (list Z)) (e : evt) : evt :=
  foldl (fun e l =>
    let s := shown slt32 LINE_SIZE l in
    if sms_skipped s then e else Evt (Some EVT_MODEM_SMS) (Some (sms_text s))) e ls.

(** A line of the message the loop can store: it is not the end, and its text fits. *)
Definition sms_line_ok (l : list Z) : Prop :=
  10 ∉ l /\ sms_end (shown slt32 LINE_SIZE l) = false /\ (length (sms_text (shown slt32 LINE_SIZE l)) < VAL_SIZE)%nat.

Section Sms.
Context {Q : Type} `{!MsgQueue Q}.
Implicit Types w : world Q.

Lemma sms_len_range s : s <> [] -> 0 < sms_len s <= Z.of_nat (length s).
Proof.
  intros Hs. unfold sms_len. assert (0 < length s)%nat by (destruct s; [done|simpl; lia]).
  destruct (Z.ltb_spec 2 (Z.of_nat (length s))); simpl; [|lia].
  destruct (bool_decide _); lia.
Qed.

Lemma snprintf_into_sms s old :
  s <> [] -> (length (sms_text s) < VAL_SIZE)%nat ->
  snprintf_into VAL_SIZE (sms_len s) s old = Ret (Some (sms_text s)).
Proof.
  intros Hs Hfit. pose proof (sms_len_range s Hs). unfold snprintf_into.
  destruct (Z.eqb_spec (sms_len s) 0); [lia|].
  replace (Z.min (sms_len s - 1) (Z.of_nat (length s))) with (sms_len s - 1) by lia.
  fold (sms_text s). by rewrite bool_decide_eq_false_2 by lia.
Qed.

(** Reading one line of the answer. *)
Lemma sms_read_line l rest buf w :
  length buf = BUF_SIZE -> 10 ∉ l -> arrives (l ++ [10]) (w_uart w) rest ->
  exists buf1 n, read_line LINE_SIZE buf w = Ret ((n, buf1), set_uart rest w) /\ 0 < n /\
    let buf2 := dots slt32 (Z.to_nat n) (<[Z.to_nat n := 0]> buf1) in
    length buf2 = BUF_SIZE /\ holds_str (shown slt32 LINE_SIZE l) buf2.
Proof.
  intros Hb Hl Ha.
  assert (Hn : (1 < LINE_SIZE)%nat /\ (LINE_SIZE <= length buf)%nat) by (rewrite Hb; size_lia).
  unfold shown. set (n := LINE_SIZE) in *. clearbody n.
  destruct (read_line_world n l _ rest buf w eq_refl Ha Hl) as (buf1 & E & Hs & Hlen); [lia|].
  do 2 eexists. split; [exact E|]. split; [apply stored_pos; lia|].
  rewrite Nat2Z.id. destruct (dots_spec slt32 _ buf1 slt32_nonzero Hs) as [_ Hd2].
  split; [by rewrite Hd2, Hlen|]. destruct Hs as [r ->].
  rewrite holds_str_insert. unfold dots. rewrite take_app_length, drop_app_length. by exists r.
Qed.

Lemma cstr_holds s buf : holds_str s buf -> nonul s -> cstr buf = s.
Proof. intros [r ->] Hn. by apply cstr_app_nul. Qed.

Lemma shown_nonul n l : nonul (shown slt32 n l).
Proof.
  apply Forall_fmap, Forall_true. intros b. simpl. destruct (slt32 b) eqn:E; [done|].
  by apply slt32_nonzero.
Qed.

Lemma holds_str_head s buf : s <> [] -> holds_str s buf -> buf !! 0%nat = head s.
Proof. intros Hs [r ->]. by destruct s. Qed.

Lemma shown_nonempty n l : (1 < n)%nat -> shown slt32 n l <> [].
Proof.
  intros Hn H. apply (f_equal length) in H. unfold shown in H. rewrite length_fmap in H.
  pose proof (stored_pos n l Hn). simpl in H. lia.
Qed.

(** The lines before the end of the answer. *)
Lemma sms_loop_lines a ls : forall l rest fuel buf e w,
  (length ls < fuel)%nat -> length buf = BUF_SIZE -> Forall sms_line_ok ls ->
  10 ∉ l -> sms_end (shown slt32 LINE_SIZE l) = true ->
  w_evts w !! a = Some e -> arrives (wire (ls ++ [l])) (w_uart w) rest ->
  sms_loop fuel a buf w = Ret (tt, with_event a (sms_read ls e) (w_queue w) (set_uart rest w)).
Proof.
  assert (Hsize : (1 < LINE_SIZE)%nat) by size_lia.
  induction ls as [|l' ls IH]; intros l rest fuel buf e w Hf Hb Hls Hl Hend He Ha;
    (destruct fuel as [|fuel]; [simpl in Hf; lia|]);
    apply (arrives_app (_ ++ [10])) in Ha as (mid & Ha1 & Ha2); cbn [sms_loop]; unfold ibind at 1.
  - inversion Ha2; subst.
    destruct (sms_read_line l rest buf w Hb Hl Ha1) as (buf1 & n & -> & Hpos & Hb2 & Hs). cbn [obind].
    rewrite (proj2 (Z.ltb_lt _ _) Hpos). set (buf2 := dots _ _ _) in *.
    rewrite (cstr_holds _ _ Hs (shown_nonul _ _)), (holds_str_head _ _ (shown_nonempty _ _ Hsize) Hs).
    unfold sms_end, sms_skipped in Hend.
    apply andb_prop in Hend as [Hsk Hok]. apply negb_true_iff in Hsk.
    apply orb_false_iff in Hsk as [[-> ->]%orb_false_iff ->]. rewrite Hok. cbn [andb].
    unfold iret, with_event, sms_read. cbn [foldl]. cbn [set_uart w_evts].
    rewrite insert_id by done. by destruct w.
  - apply Forall_cons in Hls as [(Hl' & Hend' & Hfit) Hls].
    destruct (sms_read_line l' mid buf w Hb Hl' Ha1) as (buf1 & n & -> & Hpos & Hb2 & Hs). cbn [obind].
    rewrite (proj2 (Z.ltb_lt _ _) Hpos). set (buf2 := dots _ _ _) in *. cbn [andb].
    rewrite (cstr_holds _ _ Hs (shown_nonul _ _)), (holds_str_head _ _ (shown_nonempty _ _ Hsize) Hs).
    unfold sms_read. cbn [foldl]. fold (sms_read ls).
    assert (Hskip : sms_skipped (shown slt32 LINE_SIZE l') = true ->
      sms_loop fuel a buf2 (set_uart mid w) =
        Ret (tt, with_event a (sms_read ls e) (w_queue w) (set_uart rest w))).
    { intros _. rewrite (IH l rest fuel buf2 e) by (try done; simpl in Hf; lia). done. }
    unfold sms_end in Hend'. unfold sms_skipped in Hskip, Hend' |- *.
    destruct (match_ (str "AT+CMGR") _); [by apply Hskip|].
    destruct (match_ (str "+CMGR:") _); [by apply Hskip|].
    destruct (bool_decide _); [by apply Hskip|]. clear Hskip. cbn [negb andb orb] in Hend'. rewrite Hend'.
    unfold ibind. rewrite (load_evt_at a e) by done. cbn [obind].
    unfold ilift. rewrite snprintf_into_sms by (try done; by apply shown_nonempty). cbn [obind].
    rewrite (store_evt_at a e) by done. cbn [obind orb].
    rewrite (IH l rest fuel buf2 (Evt (Some EVT_MODEM_SMS) (Some (sms_text (shown slt32 LINE_SIZE l')))));
      try done; [|simpl in Hf; lia|by apply lookup_insert_eq].
    unfold with_event, set_events. simpl. by rewrite insert_insert_eq.
Qed.

Lemma strstr_char c pre post : c ∉ pre -> strstr (pre ++ c :: post) [c] = Some (length pre).
Proof.
  induction pre as [|b pre IH]; intros Hc; simpl.
  - by rewrite Z.eqb_refl.
  - assert (c <> b) by set_solver. destruct (Z.eqb_spec c b); [done|]. simpl.
    rewrite IH by set_solver. done.
Qed.

(** The text of a command of at most 127 bytes is sent whole. *)
Lemma modem_cmd128_out text w :
  w_writes w = [] -> nonul text -> (length text < 128)%nat ->
  modem_cmd128 text w = Ret (0, add_out (OUart <$> text) w).
Proof.
  intros Hw Hn Hl. unfold modem_cmd128, modem_cmd, ibind.
  rewrite snprintf_cstr by (try done; lia). rewrite take_ge by lia. by rewrite cputs_out.
Qed.

Lemma sms_index_spec pre idx post :
  44 ∉ pre -> 46 ∉ pre -> 46 ∉ idx -> (length idx < 8)%nat ->
  let buf := pre ++ 44 :: idx ++ 46 :: post in
  strstr buf (str ",") = Some (length pre) /\
  sms_index buf = Ret (idx ++ 0 :: replicate (7 - length idx) 0).
Proof.
  intros H1 H2 H3 Hl buf.
  assert (Hc : strstr buf (str ",") = Some (length pre)) by (by apply strstr_char).
  assert (Hd : strstr buf (str ".") = Some (length (pre ++ 44 :: idx))).
  { unfold buf. rewrite app_comm_cons, app_assoc. apply strstr_char. set_solver. }
  split; [done|]. unfold sms_index. rewrite Hc, Hd. rewrite length_app. simpl length.
  set (n := Z.of_nat (length pre + S (length idx)) - (Z.of_nat (length pre) + 1)).
  assert (Hn : n = Z.of_nat (length idx)) by lia. clearbody n. subst n.
  destruct (Z.ltb_spec (Z.of_nat (length idx)) 0); [lia|].
  destruct (Z.ltb_spec 8 (Z.of_nat (length idx))); [lia|]. simpl orb. cbn match. rewrite Nat2Z.id.
  unfold buf. rewrite Nat.add_1_r. rewrite (cons_middle 44), app_assoc.
  replace (S (length pre)) with (length (pre ++ [44])) by (rewrite length_app; simpl; lia).
  rewrite drop_app_length, take_app_length.
  by replace (8 - length idx)%nat with (S (7 - length idx)) by lia.
Qed.

Lemma cstr_array_spec s r : nonul s -> cstr_array (s ++ 0 :: r) = Ret s.
Proof.
  intros Hs. unfold cstr_array. rewrite bool_decide_eq_true_2 by set_solver. by rewrite cstr_app_nul.
Qed.

Lemma sms_read_last ls1 pdu ls2 e :
  sms_skipped (shown slt32 LINE_SIZE pdu) = false ->
  Forall (fun l => sms_skipped (shown slt32 LINE_SIZE l) = true) ls2 ->
  sms_read (ls1 ++ pdu :: ls2) e =
    Evt (Some EVT_MODEM_SMS) (Some (sms_text (shown slt32 LINE_SIZE pdu))).
Proof.
  intros Hp Hs. unfold sms_read. rewrite foldl_app. cbn [foldl]. rewrite Hp.
  generalize (Evt (Some EVT_MODEM_SMS) (Some (sms_text (shown slt32 LINE_SIZE pdu)))).
  induction Hs as [|l ls2 Hl _ IH]; intros e0; [done|]. cbn [foldl]. rewrite Hl. apply IH.
Qed.
End Sms.

(** a new message of the SIM card becomes one event.  For a notification with the index [idx]
    between the comma and the end of the line, the program asks the modem for the message, reads the
    answer up to OK, deletes the message, and adds to the end of the queue one event with the last
    line of the answer that is neither the echo, the +CMGR header nor empty, without its line end. *)
Theorem sms_queued {Q : Type} `{!MsgQueue Q} (w : world Q) (pre idx post : list Z)
    (ls1 ls2 : list (list Z)) (pdu ok : list Z) (rest : list rd) (l : list (option nat * Z)) :
  w_mallocs w = [] -> w_writes w = [] -> mq_holds (w_queue w) l ->
  44 ∉ pre -> 46 ∉ pre -> 46 ∉ idx -> (length idx < 8)%nat -> nonul idx ->
  let buf := pre ++ 44 :: idx ++ 46 :: post in
  match_ (str "MMS PUSH") buf = false ->
  Forall sms_line_ok (ls1 ++ pdu :: ls2) ->
  sms_skipped (shown slt32 LINE_SIZE pdu) = false ->
  Forall (fun l => sms_skipped (shown slt32 LINE_SIZE l) = true) ls2 ->
  10 ∉ ok -> sms_end (shown slt32 LINE_SIZE ok) = true ->
  arrives (wire ((ls1 ++ pdu :: ls2) ++ [ok])) (w_uart w) rest ->
  let a := fresh (dom (w_evts w)) in
  exists q, modem_event_sms_queue buf w =
      Ret (tt, with_event a (Evt (Some EVT_MODEM_SMS) (Some (sms_text (shown slt32 LINE_SIZE pdu)))) q
                 (set_uart rest
                   (add_out ((OUart <$> (str "AT+CMGR=" ++ idx ++ [13; 10])) ++ [OSleep 300000] ++
                             (OUart <$> (str "AT+CMGD=" ++ idx ++ [13; 10]))) w))) /\
    mq_holds q (l ++ [(Some a, event_code EVT_MODEM_SMS)]).
Proof.
  intros Hm Hw Hq H44 H46 Hi46 Hlen Hnn buf Hmms Hls Hpdu Hskip Hok Hend Ha a.
  destruct (sms_index_spec pre idx post H44 H46 Hi46 Hlen) as [Hc Hidx]. fold buf in Hc, Hidx.
  assert (Hcmd : forall s : list Z, (length s <= 8)%nat -> nonul s ->
    nonul (s ++ idx ++ [13; 10]) /\ (length (s ++ idx ++ [13; 10]%Z) < 128)%nat).
  { intros s Hs Hn. split; [|rewrite !length_app; simpl; lia].
    apply Forall_app. split; [done|]. apply Forall_app. split; [done|]. by repeat constructor. }
  destruct (Hcmd (str "AT+CMGR=")) as [Hr1 Hr2]; [simpl; lia|by repeat constructor|].
  destruct (Hcmd (str "AT+CMGD=")) as [Hd1 Hd2]; [simpl; lia|by repeat constructor|].
  unfold modem_event_sms_queue. rewrite Hmms. unfold ibind at 1.
  rewrite malloc_evt_ok by done. cbn [obind]. fold a. unfold ibind at 1, ilift at 1.
  rewrite Hidx. cbn [obind]. rewrite Hc. unfold ibind at 1 2 3, ilift at 1.
  rewrite cstr_array_spec by done. cbn [obind]. unfold modem_get_sms.
  rewrite modem_cmd128_out by done. cbn [obind]. unfold usleep, out, imod. cbn [obind].
  unfold ibind at 1, iget. cbn [obind]. unfold ibind at 1.
  rewrite (sms_loop_lines a (ls1 ++ pdu :: ls2) ok rest _ _ (Evt None None)); try done.
  - cbn [obind]. rewrite sms_read_last by done. unfold ibind at 1, ilift.
    cbn [obind]. unfold ibind, modem_delete_sms.
    rewrite modem_cmd128_out by done. cbn [obind].
    match goal with |- exists q, queue_add_evt a ?w0 = _ /\ _ => set (w1 := w0) end.
    destruct (queue_add_evt_spec a EVT_MODEM_SMS (Some (sms_text (shown slt32 LINE_SIZE pdu))) w1 l)
      as (q & -> & H); [done|done|by apply lookup_insert_eq|].
    exists q. split; [|done]. subst w1. clear. destruct w. unfold with_event. flatten_world.
    by rewrite insert_insert_eq, <- !app_assoc.
  - cbn. pose proof (arrives_length _ _ _ Ha) as H1.
    pose proof (wire_length ((ls1 ++ pdu :: ls2) ++ [ok])) as H2. rewrite length_app in H2. simpl in H2.
    unfold with_event. simpl. lia.
  - by apply lookup_insert_eq.
Qed.

(** Close a side condition by computation. *)


Lemma sms_queued_witness :
  let l1 := [str "AT+CMGR=3" ++ [13]; str "+CMGR: 0,,28" ++ [13]] in
  let ins := RdByte <$> wire ((l1 ++ [str "0891AB" ++ [13]; [13]]) ++ [str "OK" ++ [13]]) in
  let w := World siproxy_init queue_zero ∅ (telnet_init None 0 []) true ins [] [] [] [] [] in
  exists q, modem_event_sms_queue (str "+CMTI: SM,3..") w =
      Ret (tt, with_event 0%nat (Evt (Some EVT_MODEM_SMS) (Some (str "0891AB"))) q
                 (set_uart []
                   (add_out ((OUart <$> (str "AT+CMGR=" ++ str "3" ++ [13; 10])) ++ [OSleep 300000] ++
                             (OUart <$> (str "AT+CMGD=" ++ str "3" ++ [13; 10]))) w))) /\
    mq_holds q [(Some 0%nat, event_code EVT_MODEM_SMS)].
Proof.
  intros l1 ins w.
  refine (sms_queued w (str "+CMTI: SM") (str "3") (str ".") l1 [[13]] (str "0891AB" ++ [13])
    (str "OK" ++ [13]) [] [] _ _ _ _ _ _ _ _ _ _ _ _ _ _ _).
  - reflexivity.
  - reflexivity.
  - apply holds_zero.
  - decide_all.
  - decide_all.
  - decide_all.
  - apply Nat.ltb_lt. reflexivity.
  - repeat constructor; discriminate.
  - vm_compute. reflexivity.
  - unfold sms_line_ok. decide_all.
  - vm_compute. reflexivity.
  - decide_all.
  - decide_all.
  - vm_compute. reflexivity.
  - repeat constructor.
Defined.
