(* ===== verification/Sip.v ===== *)
(** * Sip: the telnet session with the SIP client

    [_send], [telnet_input] and the [sip_*] commands of main.c, and [sip_event], the handler of the
    events of telnet.c, which splits the received text into lines in place with [strtok]. *)

From Stdlib Require Import ZArith Lia String.
From stdpp Require Import base tactics numbers list gmap.
From S2P Require Import Prelude Match Queue QueueApi Telnet TelnetSub TelnetRecv World Modem Events.

(** ** [strtok (str, "\n")]

    The calls work on the array the received bytes lie in, from position [i]. *)

(** How many elements at the start of the list satisfy the test. *)
Fixpoint span (p : Z -> bool) (l : list Z) : nat :=
  match l with
  | b :: l' => if p b then S (span p l') else O
  | [] => O
  end.

Definition is_delim (b : Z) : bool := b =? 10.
Definition in_token (b : Z) : bool := negb (b =? 10) && negb (b =? 0).

(** The next token, if any, with the array and the position for the next call.  Running out of the
    array is undefined. *)
Definition strtok (mem : list Z) (i : nat) : outcome (option (list Z) * list Z * nat) :=
  let start := (i + span is_delim (drop i mem))%nat in
  let! c := deref (mem !! start) in
  if c =? 0 then Ret (None, mem, start)
  else
    let n := span in_token (drop start mem) in
    let stop := (start + n)%nat in
    let! d := deref (mem !! stop) in
    let token := take n (drop start mem) in
    if d =? 0 then Ret (Some token, mem, stop) else Ret (Some token, <[stop := 0]> mem, S stop).

Section Sip.
Context {Q : Type} `{!MsgQueue Q}.

(** [getenv ("TERM")]. *)
Variable TERM : option (list Z).

(** ** Sending *)

(** [send (sock, buffer, size, 0)]: -1, 0 or how much of the [size] bytes was sent. *)
Definition next_send (size : Z) : io Q Z := fun w =>
  match w_sends w with
  | [] => Ret (size, w)
  | r :: l => Ret (Z.max (-1) (Z.min r size), set_sends l w)
  end.

(** The loop of [_send]; each turn sends something or ends the program. *)
Fixpoint _send_loop (fuel : nat) (buffer : list Z) : io Q unit :=
  match fuel with
  | O => iret tt
  | S fuel' =>
      if bool_decide (buffer = []) then iret tt
      else
        let+ rs := next_send (Z.of_nat (length buffer)) in
        if rs =? -1 then ifail Exited
        else if rs =? 0 then ifail Exited
        else out (OSock (take (Z.to_nat rs) buffer)) >>> _send_loop fuel' (drop (Z.to_nat rs) buffer)
  end.

Definition _send (buffer : list Z) : io Q unit := _send_loop (length buffer) buffer.

(** [sip_event] on a SEND event. *)
Definition on_send (ev : telnet_event_t) : io Q unit :=
  match ev with TELNET_EV_SEND bytes => _send bytes | _ => iret tt end.

Fixpoint each_event (evs : list telnet_event_t) : io Q unit :=
  match evs with
  | [] => iret tt
  | e :: evs' => on_send e >>> each_event evs'
  end.

(** A sending routine of telnet.c on the tracker of the program; it has only SEND events
    ([Telnet.sends]), which [sip_event] writes to the socket. *)
Definition run_send (m : tm unit) : io Q unit :=
  let+ w := iget in
  let '(_, t, evs) := m (w_telnet w) in
  imod (set_telnet t) >>> each_event evs.

(** [telnet_input], without the local echo. *)
Fixpoint telnet_input (buffer : list Z) : io Q unit :=
  match buffer with
  | [] => iret tt
  | c :: buffer' =>
      (if (c =? 13) || (c =? 10) then run_send (telnet_send [13; 10]) else run_send (telnet_send [c])) >>>
      telnet_input buffer'
  end.

(** A command of 256 bytes at most. *)
Definition sip_cmd (text : list Z) : io Q unit := telnet_input (cstr (snprintf (Z.to_nat 256) text)).

Definition sip_make_call (peer : list Z) : io Q unit := sip_cmd (str "call new " ++ peer ++ [13; 10]).
Definition sip_answer_call : io Q unit := sip_cmd (str "call answer 200" ++ [13; 10]).
Definition sip_hangup_call : io Q unit := sip_cmd (str "hA" ++ [13; 10]).

(** ** Receiving *)

(** The loop over the tokens; each turn uses up a byte of the array. *)
Fixpoint sip_lines (fuel : nat) (mem : list Z) (i : nat) : io Q (list Z) :=
  match fuel with
  | O => ifail Fault
  | S fuel' =>
      let+ (token, mem1, i1) := ilift (strtok mem i) in
      match token with
      | None => iret mem1
      | Some s => sip_event_queue s >>> sip_lines fuel' mem1 i1
      end
  end.

(** The data of an event: a place in the receive buffer, or the local byte of [_process], behind
    which nothing may be read. *)
Definition sip_data (src : source) (off : Z) (mem : list Z) : io Q (list Z) :=
  match src with
  | SrcBuffer base => sip_lines (S (length mem)) mem (base + Z.to_nat off)
  | SrcByte _ => ifail Fault
  end.

Definition sip_event (ev : telnet_event_t) (mem : list Z) : io Q (list Z) :=
  match ev with
  | TELNET_EV_DATA src off _ => sip_data src off mem
  | TELNET_EV_SEND _ => on_send ev >>> iret mem
  | TELNET_EV_WILL telopt =>
      (if telopt =? TELNET_TELOPT_ECHO then imod (set_echo false) else iret tt) >>> iret mem
  | TELNET_EV_WONT telopt =>
      (if telopt =? TELNET_TELOPT_ECHO then imod (set_echo true) else iret tt) >>> iret mem
  | TELNET_EV_TTYPE cmd _ =>
      (if cmd =? TELNET_TTYPE_SEND then
         let+ term := ilift (deref TERM) in run_send (telnet_ttype_is term)
       else iret tt) >>> iret mem
  | TELNET_EV_ERROR _ _ _ => ifail Exited
  | _ => iret mem
  end.

(** The handler as [telnet_recv] runs it: after a call that does not return, nothing more happens. *)
Definition sip_handler (ow : outcome (world Q)) (mem : list Z) (ev : telnet_event_t)
    : outcome (world Q) * list Z :=
  match ow with
  | Ret w =>
      match sip_event ev mem w with
      | Ret (mem', w') => (Ret w', mem')
      | Blocked => (Blocked, mem)
      | Exited => (Exited, mem)
      | Fault => (Fault, mem)
      end
  | _ => (ow, mem)
  end.

(** [telnet_recv (telnet, buffer, rs)] on the program's tracker and receive buffer.  The handler does
    not use the tracker: [telnet_ttype_is], which it calls, only sends.  An access of the library outside
    of its block is undefined behaviour. *)
Definition sip_recv (mem : list Z) (rs : nat) : io Q (list Z) := fun w =>
  match telnet_recv sip_handler (w_telnet w) (Ret w) mem rs with
  | Some (t, ow, mem') =>
      let! w' := ow in
      if bool_decide (t_faults t = t_faults (w_telnet w)) then Ret (mem', set_telnet t w') else Fault
  | None => Blocked
  end.
End Sip.

(** ** What goes out *)

(** The bytes put on the socket by a log of outputs. *)
Definition sock_bytes (o : list action) : list Z :=
  o ≫= (fun a => match a with OSock bytes => bytes | _ => [] end).

Definition is_sock (a : action) : Prop := match a with OSock _ => True | _ => False end.

Lemma sock_bytes_app a b : sock_bytes (a ++ b) = sock_bytes a ++ sock_bytes b.
Proof. apply bind_app. Qed.

Section Sending.
Context {Q : Type} `{!MsgQueue Q}.
Implicit Types w : world Q.

(** The call puts [bytes] on the socket, and changes nothing else but the pending results of
    [send]. *)
Definition puts (m : io Q unit) (w : world Q) (bytes : list Z) : Prop :=
  exists o sends, m w = Ret (tt, add_out o (set_sends sends w)) /\
    Forall is_sock o /\ sock_bytes o = bytes /\ Forall (fun r => 0 < r) sends.

Lemma set_sends_same w : set_sends (w_sends w) w = w.
Proof. by destruct w. Qed.

Lemma add_out_nil w : add_out [] w = w.
Proof. unfold add_out. rewrite app_nil_r. by destruct w. Qed.

Lemma puts_ret w : Forall (fun r => 0 < r) (w_sends w) -> puts (iret tt) w [].
Proof.
  intros H. exists [], (w_sends w). rewrite set_sends_same, add_out_nil. by split_and!.
Qed.

Lemma puts_bind m k w a b :
  puts m w a -> (forall w', w_telnet w' = w_telnet w -> Forall (fun r => 0 < r) (w_sends w') -> puts k w' b) ->
  puts (m >>> k) w (a ++ b).
Proof.
  intros (o1 & s1 & E1 & H1 & B1 & S1) Hk.
  destruct (Hk (add_out o1 (set_sends s1 w))) as (o2 & s2 & E2 & H2 & B2 & S2); [done|done|].
  exists (o1 ++ o2), s2. unfold ibind. rewrite E1. cbn [obind]. rewrite E2. split_and!.
  - f_equal. f_equal. destruct w. flatten_world. by rewrite app_assoc.
  - by apply Forall_app.
  - by rewrite sock_bytes_app, B1, B2.
  - done.
Qed.

(** One [send]: a positive number of bytes. *)
Lemma next_send_pos size w :
  0 < size -> Forall (fun r => 0 < r) (w_sends w) ->
  exists r s, next_send size w = Ret (r, set_sends s w) /\ 0 < r <= size /\ Forall (fun r => 0 < r) s.
Proof.
  intros Hs Hw. unfold next_send. destruct (w_sends w) as [|r s] eqn:E.
  - exists size, []. rewrite <- E at 1. rewrite set_sends_same. split_and!; done || lia.
  - apply Forall_cons in Hw as [Hr Hw]. exists (Z.max (-1) (Z.min r size)), s.
    split_and!; [done|lia|lia|done].
Qed.

Lemma send_loop_puts fuel : forall buffer w,
  (length buffer <= fuel)%nat -> Forall (fun r => 0 < r) (w_sends w) ->
  puts (_send_loop fuel buffer) w buffer.
Proof.
  induction fuel as [|fuel IH]; intros buffer w Hf Hw.
  - destruct buffer; [by apply puts_ret|simpl in Hf; lia].
  - cbn [_send_loop]. case_bool_decide as Hb; [subst; by apply puts_ret|].
    assert (Hpos : (0 < length buffer)%nat) by (destruct buffer; [done|simpl; lia]).
    destruct (next_send_pos (Z.of_nat (length buffer)) w) as (r & s & E & Hr & Hs); [lia|done|].
    destruct (IH (drop (Z.to_nat r) buffer) (add_out [OSock (take (Z.to_nat r) buffer)] (set_sends s w)))
      as (o & s' & E' & Ho & Hb' & Hs'); [rewrite length_drop; lia|done|].
    exists (OSock (take (Z.to_nat r) buffer) :: o), s'. split_and!.
    + unfold ibind at 1. rewrite E. cbn [obind].
      destruct (Z.eqb_spec r (-1)); [lia|]. destruct (Z.eqb_spec r 0); [lia|].
      unfold ibind, out, imod. cbn [obind]. rewrite E'. f_equal. f_equal.
      destruct w. flatten_world. by rewrite <- app_assoc.
    + by constructor.
    + change (take (Z.to_nat r) buffer ++ sock_bytes o = buffer). by rewrite Hb', take_drop.
    + done.
Qed.

Lemma each_event_puts evs : forall w,
  Forall is_send evs -> Forall (fun r => 0 < r) (w_sends w) -> puts (each_event evs) w (sent_bytes evs).
Proof.
  induction evs as [|e evs IH]; intros w He Hw; [by apply puts_ret|].
  apply Forall_cons in He as [He Hes]. cbn [each_event].
  change (sent_bytes (e :: evs)) with (sent_bytes ([e] ++ evs)). rewrite sent_bytes_app.
  apply puts_bind; [|by auto]. destruct e; try done. unfold sent_bytes. simpl. rewrite app_nil_r.
  by apply send_loop_puts.
Qed.

Lemma run_send_puts m bytes w :
  sends m bytes -> Forall (fun r => 0 < r) (w_sends w) -> puts (run_send m) w bytes.
Proof.
  intros Hm Hw. destruct (Hm (w_telnet w)) as (evs & E & He & <-).
  unfold run_send, puts, ibind, iget, imod. cbn [obind]. rewrite E. cbn [obind].
  replace (set_telnet (w_telnet w) w) with w by (by destruct w). by apply each_event_puts.
Qed.

(** What [telnet_input] makes of a byte. *)
Definition input_wire (c : Z) : list Z := if (c =? 13) || (c =? 10) then [13; 10] else escape c.

Lemma telnet_input_puts buffer : forall w,
  Forall (fun r => 0 < r) (w_sends w) -> puts (telnet_input buffer) w (buffer ≫= input_wire).
Proof.
  induction buffer as [|c buffer IH]; intros w Hw; [by apply puts_ret|].
  change ((c :: buffer) ≫= input_wire) with (input_wire c ++ (buffer ≫= input_wire)).
  cbn [telnet_input]. apply puts_bind; [|by auto]. unfold input_wire.
  destruct (_ || _); (apply run_send_puts; [|done]).
  - apply (telnet_send_sends [13; 10]).
  - replace (escape c) with ([c] ≫= escape) by apply app_nil_r. apply telnet_send_sends.
Qed.

(** A command that fits its array is sent whole. *)
Lemma sip_cmd_puts text w :
  Forall (fun r => 0 < r) (w_sends w) -> nonul text -> (length text < 256)%nat ->
  puts (sip_cmd text) w (text ≫= input_wire).
Proof.
  intros Hw Hn Ht. unfold sip_cmd. rewrite snprintf_cstr by (try done; lia).
  rewrite take_ge by lia. by apply telnet_input_puts.
Qed.
End Sending.

(** ** What comes in *)

(** The lines of a text, without the empty ones; [cur] is the line being read. *)
Fixpoint tokens (s cur : list Z) : list (list Z) :=
  match s with
  | [] => if bool_decide (cur = []) then [] else [cur]
  | b :: s' =>
      if b =? 10 then (if bool_decide (cur = []) then [] else [cur]) ++ tokens s' []
      else tokens s' (cur ++ [b])
  end.
Definition lines_of (s : list Z) : list (list Z) := tokens s [].

Lemma tokens_run tok s cur :
  10 ∉ tok -> tokens (tok ++ s) cur = tokens s (cur ++ tok).
Proof.
  revert cur. induction tok as [|b tok IH]; intros cur Ht; simpl; [by rewrite app_nil_r|].
  destruct (Z.eqb_spec b 10) as [->|Hb]; [set_solver|]. rewrite IH by set_solver.
  by rewrite <- app_assoc.
Qed.

Lemma lines_of_cons tok s :
  10 ∉ tok -> tok <> [] -> lines_of (tok ++ 10 :: s) = tok :: lines_of s.
Proof. intros Ht Hn. unfold lines_of. rewrite tokens_run by done. simpl. by rewrite bool_decide_eq_false_2. Qed.

Lemma lines_of_last tok : 10 ∉ tok -> tok <> [] -> lines_of tok = [tok].
Proof.
  intros Ht Hn. unfold lines_of. rewrite <- (app_nil_r tok) at 1. rewrite tokens_run by done.
  simpl. by rewrite bool_decide_eq_false_2.
Qed.

(** A text is empty, starts with a newline, or starts with a token. *)
Lemma text_shape s :
  s = [] \/ (exists s', s = 10 :: s') \/
  (exists tok s', tok <> [] /\ 10 ∉ tok /\ (s = tok \/ s = tok ++ 10 :: s')).
Proof.
  induction s as [|b s IH]; [by left|]. right. destruct (decide (b = 10)) as [->|Hb]; [left; eauto|].
  right. destruct IH as [->|[(s' & ->)|(tok & s' & Hn & Ht & Hs)]].
  - exists [b], []. split_and!; [done|set_solver|by left].
  - exists [b], s'. split_and!; [done|set_solver|by right].
  - exists (b :: tok), s'. split_and!; [done|set_solver|].
    destruct Hs as [->| ->]; [by left|by right].
Qed.

Lemma span_app p l c r : Forall (fun b => p b = true) l -> p c = false -> span p (l ++ c :: r) = length l.
Proof. induction 1 as [|b l Hb _ IH]; intros Hc; simpl; [by rewrite Hc|]. by rewrite Hb, IH. Qed.

Lemma lookup_app_at (pre : list Z) c r : (pre ++ c :: r) !! length pre = Some c.
Proof. by rewrite lookup_app_r, Nat.sub_diag by lia. Qed.

Lemma strtok_delim pre s : strtok (pre ++ 10 :: s) (length pre) = strtok ((pre ++ [10]) ++ s) (length (pre ++ [10])).
Proof.
  unfold strtok. rewrite drop_app_length, drop_app_length, <- app_assoc. simpl.
  rewrite length_app. simpl. replace (length pre + 1 + span is_delim s)%nat
    with (length pre + S (span is_delim s))%nat by lia. done.
Qed.

(** A token that begins at the position. *)
Lemma strtok_token pre tok c r :
  tok <> [] -> 10 ∉ tok -> nonul tok -> c = 0 \/ c = 10 ->
  strtok (pre ++ tok ++ c :: r) (length pre) =
    Ret (Some tok, pre ++ tok ++ 0 :: r, if c =? 0 then length (pre ++ tok) else S (length (pre ++ tok))).
Proof.
  intros Hn Ht Hz Hc. unfold strtok. rewrite drop_app_length.
  assert (Hd : span is_delim (tok ++ c :: r) = 0%nat).
  { destruct tok as [|b tok]; [done|]. simpl. unfold is_delim. destruct (Z.eqb_spec b 10); [set_solver|done]. }
  rewrite Hd, Nat.add_0_r, drop_app_length.
  assert (Htok : Forall (fun b => in_token b = true) tok).
  { apply Forall_forall. intros b Hb. unfold in_token.
    destruct (Z.eqb_spec b 10) as [->|]; [done|]. destruct (Z.eqb_spec b 0) as [->|]; [|done].
    by pose proof (proj1 (Forall_forall _ _) Hz 0 Hb). }
  rewrite (span_app in_token) by (try done; unfold in_token; by destruct Hc as [->| ->]).
  assert (H1 : exists b, (pre ++ tok ++ c :: r) !! length pre = Some b /\ b <> 0).
  { destruct tok as [|b tok]; [done|]. exists b. split; [apply lookup_app_at|].
    by apply Forall_cons in Hz as [? _]. }
  destruct H1 as (b & -> & Hb). cbn [deref obind]. destruct (Z.eqb_spec b 0); [done|].
  assert (H2 : (pre ++ tok ++ c :: r) !! (length pre + length tok)%nat = Some c)
    by (by rewrite app_assoc, <- length_app, lookup_app_at).
  rewrite H2, take_app_length, length_app. cbn [deref obind].
  destruct Hc as [->| ->]; [done|]. cbn [Z.eqb].
  by rewrite (app_assoc pre), <- length_app, holds_str_insert, <- app_assoc.
Qed.

Section Receiving.
Context {Q : Type} `{!MsgQueue Q}.
Implicit Types w : world Q.

(** The events [xs], with their texts, were added to the queue in order, each in a fresh place;
    nothing else of the world changed. *)
Definition added (w w' : world Q) (l : fifo) (xs : list (EVENT * list Z)) : Prop :=
  exists locs q h, w' = set_events q h w /\
    mq_holds q (l ++ zip_with (fun a x => (Some a, event_code x.1)) locs xs) /\
    Forall2 (fun a x => h !! a = Some (Evt (Some x.1) (Some x.2))) locs xs /\
    w_evts w ⊆ h /\ Forall (fun a => w_evts w !! a = None) locs.

Lemma added_nil w l : mq_holds (w_queue w) l -> added w w l [].
Proof.
  intros H. exists [], (w_queue w), (w_evts w). rewrite app_nil_r.
  split_and!; [by destruct w|done|constructor|done|constructor].
Qed.

Lemma added_cons w w1 w' l a e s q xs :
  mq_holds q (l ++ [(Some a, event_code e)]) -> w_evts w !! a = None ->
  w1 = with_event a (Evt (Some e) (Some s)) q w ->
  added w1 w' (l ++ [(Some a, event_code e)]) xs -> added w w' l ((e, s) :: xs).
Proof.
  intros Hq Ha -> (locs & q' & h & -> & Hq' & Hl & Hsub & Hfresh).
  exists (a :: locs), q', h. cbn [w_evts with_event set_events] in *. split_and!.
  - done.
  - cbn [zip_with]. by rewrite <- app_assoc in Hq'.
  - constructor; [|done]. eapply lookup_weaken; [|exact Hsub]. apply lookup_insert_eq.
  - etrans; [|exact Hsub]. by apply insert_subseteq.
  - constructor; [done|]. eapply Forall_impl; [exact Hfresh|]. intros b Hb. simpl in Hb.
    by apply lookup_insert_None in Hb as [? _].
Qed.

(** The events a text stands for: its lines that the table recognises, cut to 1023 bytes. *)
Definition sip_events_of (text : list Z) : list (EVENT * list Z) :=
  lines_of text ≫= (fun s =>
    let e := find_event s sip_events in
    if decide (e = EVT_NONE) then [] else [(e, take (VAL_SIZE - 1) s)]).

(** A line taken out of the text: the event it stands for, if any, is added, then the rest goes on. *)
Lemma sip_line_added s w l (k : io Q (list Z)) xs mem' :
  w_mallocs w = [] -> mq_holds (w_queue w) l ->
  (forall w1 l1, w_mallocs w1 = [] -> mq_holds (w_queue w1) l1 ->
     exists w', k w1 = Ret (mem', w') /\ added w1 w' l1 xs) ->
  exists w', (sip_event_queue s >>> k) w = Ret (mem', w') /\
    added w w' l ((let e := find_event s sip_events in
                   if decide (e = EVT_NONE) then [] else [(e, take (VAL_SIZE - 1) s)]) ++ xs).
Proof.
  intros Hm Hq Hk. unfold ibind, sip_event_queue.
  destruct (decide (find_event s sip_events = EVT_NONE)) as [He|He].
  - rewrite bool_decide_eq_true_2 by done. unfold iret. cbn [obind]. by apply Hk.
  - rewrite bool_decide_eq_false_2 by done.
    destruct (new_event_spec (find_event s sip_events) (Z.of_nat VAL_SIZE) (Ret s) s _ w l
      Hm Hq eq_refl (snprintf_into_val _ _)) as (q & -> & H). cbn [obind].
    destruct (Hk (with_event (fresh (dom (w_evts w)))
      (Evt (Some (find_event s sip_events)) (Some (take (VAL_SIZE - 1) s))) q w) _ Hm H) as (w' & E & Ha).
    exists w'. split; [done|]. eapply added_cons; [exact H| |reflexivity|exact Ha].
    apply not_elem_of_dom, is_fresh.
Qed.

Lemma sip_lines_spec n : forall text fuel pre post,
  (length text <= n)%nat -> (length text < fuel)%nat -> nonul text ->
  exists mem', forall w l, w_mallocs w = [] -> mq_holds (w_queue w) l ->
    exists w', sip_lines fuel (pre ++ text ++ 0 :: post) (length pre) w = Ret (mem', w') /\
      added w w' l (sip_events_of text).
Proof.
  induction n as [|n IH]; intros text fuel pre post Hn Hf Hz;
    (destruct fuel as [|fuel]; [lia|]);
    destruct (text_shape text) as [->|[(s & ->)|(tok & s & Htok & H10 & Hs)]];
    try (simpl in Hn; lia); try (destruct Hs as [->| ->]; destruct tok; simpl in Hn; done || lia).
  - eexists. intros w l Hm Hq. exists w. cbn [sip_lines]. unfold ibind, ilift, strtok. simpl.
    rewrite drop_app_length. simpl. rewrite Nat.add_0_r, lookup_app_at. simpl.
    split; [done|by apply added_nil].
  - eexists. intros w l Hm Hq. exists w. cbn [sip_lines]. unfold ibind, ilift, strtok. simpl.
    rewrite drop_app_length. simpl. rewrite Nat.add_0_r, lookup_app_at. simpl.
    split; [done|by apply added_nil].
  - simpl in Hn, Hf. apply Forall_cons in Hz as [_ Hz].
    destruct (IH s (S fuel) (pre ++ [10]) post) as (mem' & H); [lia|lia|done|].
    exists mem'. intros w l Hm Hq. destruct (H w l Hm Hq) as (w' & E & Ha). exists w'.
    split; [|done]. rewrite <- E. cbn [sip_lines]. simpl app. by rewrite strtok_delim.
  - assert (Hlen : (0 < length tok)%nat) by (destruct tok; [done|simpl; lia]).
    destruct Hs as [->| ->].
    + destruct (IH [] fuel (pre ++ tok) post) as (mem' & H); [simpl; lia|simpl; lia|constructor|].
      exists mem'. intros w l Hm Hq. cbn [sip_lines]. unfold ibind at 1, ilift.
      rewrite (strtok_token pre tok 0 post) by auto. cbn [obind Z.eqb].
      unfold sip_events_of. rewrite lines_of_last by done. cbn [mbind list_bind].
      apply sip_line_added; [done|done|]. intros w1 l1 Hm1 Hq1. rewrite app_assoc. by apply H.
    + apply Forall_app in Hz as [Hz1 Hz2]. apply Forall_cons in Hz2 as [_ Hz2].
      rewrite length_app in Hn, Hf. simpl in Hn, Hf.
      destruct (IH s fuel (pre ++ tok ++ [0]) post) as (mem' & H); [lia|lia|done|].
      exists mem'. intros w l Hm Hq. cbn [sip_lines]. unfold ibind at 1, ilift.
      rewrite <- app_assoc. rewrite <- app_comm_cons. rewrite (strtok_token pre tok 10) by auto.
      cbn [obind Z.eqb].
      unfold sip_events_of. rewrite lines_of_cons by done. cbn [mbind list_bind].
      apply sip_line_added; [done|done|]. intros w1 l1 Hm1 Hq1.
      destruct (H w1 l1 Hm1 Hq1) as (w' & E & Ha). exists w'. split; [|exact Ha].
      rewrite <- E. f_equal; [by rewrite <- !app_assoc|rewrite !length_app; simpl; lia].
Qed.
End Receiving.

(** ** Properties *)

(** C26: [_send] sends everything.  However the socket splits the writes (each [send] accepting at least
    one byte), [_send] returns after putting exactly the bytes of the buffer on the socket, in
    order. *)
Theorem send_complete {Q : Type} `{!MsgQueue Q} (w : world Q) (buffer : list Z) :
  Forall (fun r => 0 < r) (w_sends w) -> puts (_send buffer) w buffer.
Proof. intros Hw. by apply send_loop_puts. Qed.

Lemma send_complete_witness :
  puts (_send (str "hello"))
    (World siproxy_init queue_zero ∅ (telnet_init None 0 []) true [] [] [] [2; 1] [] []) (str "hello").
Proof. apply send_complete. repeat constructor. Defined.

(** The commands to the SIP client.  [sip_make_call], [sip_answer_call] and [sip_hangup_call] put
    their command on the socket with IAC bytes doubled and with CR and LF each turned into CR LF, and
    change nothing in the program. *)
Theorem sip_commands_wire {Q : Type} `{!MsgQueue Q} (w : world Q) (peer : list Z) :
  Forall (fun r => 0 < r) (w_sends w) -> nonul peer -> (length peer < 245)%nat ->
  puts (sip_make_call peer) w (str "call new " ++ (peer ≫= input_wire) ++ [13; 10; 13; 10]) /\
  puts sip_answer_call w (str "call answer 200" ++ [13; 10; 13; 10]) /\
  puts sip_hangup_call w (str "hA" ++ [13; 10; 13; 10]).
Proof.
  intros Hw Hp Hl.
  pose proof (fun text => sip_cmd_puts text w Hw) as Hcmd.
  split_and!.
  - pose proof (Hcmd (str "call new " ++ peer ++ [13; 10])) as H. rewrite !bind_app in H. apply H.
    + apply Forall_app. split; [by repeat constructor|]. apply Forall_app. split; [done|].
      by repeat constructor.
    + rewrite !length_app. simpl. lia.
  - apply (Hcmd (str "call answer 200" ++ [13; 10])); [by repeat constructor|simpl; lia].
  - apply (Hcmd (str "hA" ++ [13; 10])); [by repeat constructor|simpl; lia].
Qed.

Lemma sip_commands_wire_witness :
  puts (sip_make_call (str "sip:bob"))
    (World siproxy_init queue_zero ∅ (telnet_init None 0 []) true [] [] [] [3] [] [])
    (str "call new sip:bob" ++ [13; 10; 13; 10]).
Proof.
  refine (proj1 (sip_commands_wire _ (str "sip:bob") _ _ _)).
  - repeat constructor.
  - repeat constructor; discriminate.
  - apply Nat.ltb_lt. vm_compute. reflexivity.
Defined.

(** C40: the lines of the SIP client become events.  When a chunk of text without IAC arrives in state
    DATA, the lines of the text in the receive buffer up to the first NUL (split at newlines, empty
    lines left out) that the table recognises are added to the queue, in order, as events with the
    line cut to 1023 bytes; nothing else changes.  The text is the chunk when a NUL follows it; else
    the bytes [stale] of earlier, longer chunks that follow it are handled again. *)
Theorem sip_recv_lines {Q : Type} `{!MsgQueue Q} (TERM : option (list Z)) (w : world Q)
    (chunk stale post : list Z) (l : list (option nat * Z)) :
  w_mallocs w = [] -> mq_holds (w_queue w) l -> t_state (w_telnet w) = TELNET_STATE_DATA ->
  chunk <> [] -> nonul (chunk ++ stale) -> Forall (fun b => b <> TELNET_IAC) chunk ->
  let buffer := (chunk ++ stale) ++ 0 :: post in
  Z.of_nat (length buffer) < 2 ^ 64 ->
  exists buffer' w', sip_recv TERM buffer (length chunk) w = Ret (buffer', w') /\
    added w w' l (sip_events_of (chunk ++ stale)).
Proof.
  intros Hm Hq Hs Hne Hz Hi buffer Hlen.
  assert (Hpos : (0 < length chunk)%nat) by (destruct chunk; [done|simpl; lia]).
  assert (Hbuf : (length (chunk ++ stale) < S (length buffer))%nat)
    by (unfold buffer; rewrite (length_app (chunk ++ stale)); lia).
  destruct (sip_lines_spec (length (chunk ++ stale)) (chunk ++ stale) (S (length buffer)) [] post)
    as (mem' & H); [done|done|done|].
  destruct (H w l Hm Hq) as (w' & E & Ha). exists mem', w'. split; [|exact Ha].
  unfold sip_recv. rewrite telnet_recv_plain; [|done| | |done].
  - unfold sip_handler, sip_event, sip_data. change (0 + Z.to_nat 0)%nat with 0%nat.
    cbn [app length] in E. fold buffer in E. rewrite E. cbn [obind].
    rewrite bool_decide_eq_true_2 by done. f_equal. f_equal.
    destruct Ha as (locs & q & h & -> & _). by destruct w.
  - unfold buffer. by rewrite <- app_assoc, take_app_length.
  - unfold buffer. rewrite !length_app. lia.
Qed.

Lemma sip_recv_lines_witness :
  let w := World siproxy_init queue_zero ∅ (telnet_init None 0 []) true [] [] [] [] [] [] in
  let chunk := str "Call 0 state changed to CONFIRMED" ++ [10; 10] ++ str "x" ++ [10] in
  let stale := str "Call 0 is DISCONNECTED" in
  exists buffer' w', sip_recv None ((chunk ++ stale) ++ 0 :: [1; 2]) (length chunk) w = Ret (buffer', w') /\
    added w w' [] [(EVT_SIP_CONFIRMED, str "Call 0 state changed to CONFIRMED");
                   (EVT_SIP_DISCONNCTD, str "Call 0 is DISCONNECTED")].
Proof.
  intros w chunk stale.
  refine (sip_recv_lines None w chunk stale [1; 2] [] _ _ _ _ _ _ _).
  - reflexivity.
  - apply holds_zero.
  - reflexivity.
  - discriminate.
  - unfold nonul. decide_all.
  - decide_all.
  - vm_compute. reflexivity.
Defined.
