(* ===== verification/Siproxy.v ===== *)
(** * Siproxy: the call state machine of main.c

    The MQTT calls, the [state_*] handlers, the dispatcher [state], the event thread [evt_handler]
    and the turns of the main loop. *)

From Stdlib Require Import ZArith Lia String.
From stdpp Require Import base tactics numbers list gmap.
From S2P Require Import Prelude Match Queue QueueApi Telnet World Modem Events Sip.

Definition QOS : Z := 2.

(** The array [phone] of the number in quotes of a +CLIP line: [memcpy (phone, start + 1,
    end - (start + 1))] into 256 zero bytes.  Without two quotes the copy has no sound source, and
    a longer number does not fit. *)
Definition clip_phone (v : list Z) : outcome (list Z) :=
  match strstr v [34] with
  | None => Fault
  | Some start =>
      match strstr (drop (S start) v) [34] with
      | None => Fault
      | Some n =>
          if bool_decide (256 < Z.of_nat n) then Fault
          else Ret (take n (drop (S start) v) ++ replicate (Z.to_nat 256 - n) 0)
      end
  end.

(** [memset] and [strncpy (siproxy.sim_num, val, strlen (val))]. *)
Definition copy_number (v : list Z) : outcome (list Z) :=
  if bool_decide (SIM_NUM_SIZE < length v)%nat then Fault
  else Ret (v ++ replicate (SIM_NUM_SIZE - length v) 0).

Definition siproxy_reset (c : siproxy_ctrl) : siproxy_ctrl :=
  set_sim_num (replicate SIM_NUM_SIZE 0)
    (set_init_dir INIT_NONE (set_state_ STATE_INIT
      (set_mqtt_state STATE_INIT (set_modem_state STATE_INIT (set_sip_state STATE_INIT c))))).

(** [(strlen (val) - 2) / 2] as the [int] argument. *)
Definition tpdu_len (v : list Z) : Z := s32 (size_t (Z.of_nat (length v) - 2) / 2).

Section Siproxy.
Context {Q : Type} `{!MsgQueue Q}.
Variable TERM : option (list Z).

(** ** MQTT *)

Definition mqtt_pub (topicName payload : list Z) (retained : Z) : io Q Z :=
  let+ rc := next_mqtt in
  if rc =? 0 then out (OPub topicName payload retained) >>> iret rc else ifail Exited.

Definition mqtt_sub (topicName : list Z) (qos : Z) : io Q Z :=
  let+ rc := next_mqtt in
  if rc =? 0 then out (OSub topicName qos) >>> iret rc else ifail Exited.

(** The first call is [MQTTAsync_sendMessage] of the online status, retained. *)
Definition onConnect : io Q unit :=
  mqtt_pub TOPIC_STATUS ONLINE 1 >>>
  mqtt_sub PEERID_STATUS QOS >>>
  mqtt_sub TOPIC_BOB_CALLING QOS >>>
  mqtt_sub PEERID_SMS QOS >>>
  iret tt.

Definition connlost : io Q unit :=
  let+ rc := next_mqtt in if rc =? 0 then out OConnect else iret tt.

Definition mqtt_init : io Q Z :=
  let+ rc := next_mqtt in if rc =? 0 then out OConnect >>> iret rc else ifail Exited.

Definition msgarrvd (topicName payload : list Z) (payloadlen : Z) : io Q Z :=
  mqtt_event_queue topicName payload payloadlen >>> iret 1.

(** ** The handlers *)

Definition ctrl (f : siproxy_ctrl -> siproxy_ctrl) : io Q unit := imod (set_ctrl f).

(** The fields of an event; reading one that is not written is undefined. *)
Definition evt_event (e : evt) : io Q EVENT := ilift (deref (event e)).
Definition evt_val (e : evt) : io Q (list Z) := ilift (deref (val e)).

Definition state_init (evt : evt) : io Q unit :=
  let+ ev := evt_event evt in
  match ev with
  | EVT_MQTT_CALLING =>
      let+ v := evt_val evt in
      let+ n := ilift (copy_number v) in
      ctrl (set_sim_num n) >>>
      ctrl (set_mqtt_state STATE_INCOMING)
  | EVT_MODEM_CLIP =>
      let+ w := iget in
      if bool_decide (init_dir (w_ctrl w) = INIT_NONE) then
        ctrl (set_init_dir INIT_FROM_MODEM) >>>
        ctrl (set_modem_state STATE_INCOMING) >>>
        let+ v := evt_val evt in
        let+ phone := ilift (clip_phone v) in
        let+ p := ilift (cstr_array phone) in
        mqtt_pub TOPIC_ALICE_CALLED p 0 >>>
        usleep 1200000 >>>
        let+ w1 := iget in
        sip_make_call (sip_peer (w_ctrl w1)) >>>
        ctrl (set_sip_state STATE_CALLING) >>>
        ctrl (set_state_ STATE_INCOMING)
      else iret tt
  | EVT_SIP_INCOMING =>
      let+ w := iget in
      if bool_decide (init_dir (w_ctrl w) = INIT_NONE) &&
         bool_decide (mqtt_state (w_ctrl w) = STATE_INCOMING) then
        ctrl (set_init_dir INIT_FROM_SIP) >>>
        ctrl (set_sip_state STATE_INCOMING) >>>
        sip_answer_call >>>
        ctrl (set_state_ STATE_INCOMING)
      else iret tt
  | _ => iret tt
  end.

(** The hang-ups of the two sides, then the reset. *)
Definition hangup_sip_and_reset : io Q unit :=
  let+ w := iget in
  (if bool_decide (init_dir (w_ctrl w) = INIT_FROM_SIP) then sip_hangup_call else iret tt) >>>
  (if bool_decide (init_dir (w_ctrl w) = INIT_FROM_MODEM) then sip_hangup_call else iret tt) >>>
  ctrl siproxy_reset.

Definition hangup_modem_and_reset : io Q unit :=
  let+ w := iget in
  (if bool_decide (init_dir (w_ctrl w) = INIT_FROM_MODEM) then modem_hangup_call >>> iret tt else iret tt) >>>
  (if bool_decide (init_dir (w_ctrl w) = INIT_FROM_SIP) then modem_hangup_call >>> iret tt else iret tt) >>>
  ctrl siproxy_reset.

Definition state_incoming (evt : evt) : io Q unit :=
  let+ ev := evt_event evt in
  match ev with
  | EVT_MODEM_COLP =>
      let+ w := iget in
      if bool_decide (init_dir (w_ctrl w) = INIT_FROM_SIP) then
        ctrl (set_modem_state STATE_CONFIRMED) >>>
        mqtt_pub TOPIC_ALICE_MODEM MODEM_CALL_OK 0 >>>
        ctrl (set_state_ STATE_CONFIRMED)
      else iret tt
  | EVT_MODEM_NO_CARRIER | EVT_MODEM_NO_ANSWER | EVT_MODEM_BUSY => hangup_sip_and_reset
  | EVT_SIP_CONFIRMED =>
      let+ w := iget in
      (if bool_decide (init_dir (w_ctrl w) = INIT_FROM_SIP) then
         ctrl (set_sip_state STATE_CONFIRMED) >>>
         modem_make_call (sim_num (w_ctrl w)) >>>
         ctrl (set_modem_state STATE_CALLING)
       else iret tt) >>>
      (if bool_decide (init_dir (w_ctrl w) = INIT_FROM_MODEM) then
         ctrl (set_sip_state STATE_CONFIRMED) >>>
         modem_answer_call >>>
         ctrl (set_modem_state STATE_CONFIRMED) >>>
         ctrl (set_state_ STATE_CONFIRMED)
       else iret tt)
  | EVT_SIP_DISCONNCTD => hangup_modem_and_reset
  | _ => iret tt
  end.

(** The handlers of the states the program never enters: every case only breaks. *)
Definition state_nothing (evt : evt) : io Q unit := let+ _ := evt_event evt in iret tt.

Definition state_calling : evt -> io Q unit := state_nothing.
Definition state_early : evt -> io Q unit := state_nothing.
Definition state_connecting : evt -> io Q unit := state_nothing.

Definition state_confirmed (evt : evt) : io Q unit :=
  let+ ev := evt_event evt in
  match ev with
  | EVT_MODEM_NO_CARRIER | EVT_MODEM_NO_ANSWER | EVT_MODEM_BUSY => hangup_sip_and_reset
  | EVT_SIP_DISCONNCTD => hangup_modem_and_reset
  | _ => iret tt
  end.

Definition state_disconnctd : evt -> io Q unit := state_nothing.
Definition state_terminated : evt -> io Q unit := state_nothing.
Definition state_unknow : evt -> io Q unit := state_nothing.

Definition state_tbl : list (STATE * (evt -> io Q unit)) :=
  [ (STATE_INIT, state_init);
    (STATE_INCOMING, state_incoming);
    (STATE_CALLING, state_calling);
    (STATE_EARLY, state_early);
    (STATE_CONNECTING, state_connecting);
    (STATE_CONFIRMED, state_confirmed);
    (STATE_DISCONNCTD, state_disconnctd);
    (STATE_TERMINATED, state_terminated);
    (STATE_UNKNOW, state_unknow) ].

(** The loop of [state]; [uuid] is the time of day the message topics are made from. *)
Fixpoint state_loop (tbl : list (STATE * (evt -> io Q unit))) (uuid : list Z) (evt : evt) : io Q unit :=
  match tbl with
  | [] => iret tt
  | (s, func) :: tbl' =>
      let+ ev := evt_event evt in
      match ev with
      | EVT_MODEM_SMS =>
          let+ v := evt_val evt in
          mqtt_pub (cstr (snprintf 64 (TOPIC_SMS ++ str "/" ++ uuid))) v 1 >>> iret tt
      | EVT_MQTT_SMS =>
          let+ v := evt_val evt in
          modem_send_sms v (tpdu_len v) >>> iret tt
      | _ =>
          let+ w := iget in
          (if bool_decide (state_ (w_ctrl w) = s) then func evt else iret tt) >>>
          state_loop tbl' uuid evt
      end
  end.

Definition state (uuid : list Z) (evt : evt) : io Q unit := state_loop state_tbl uuid evt.

(** ** The two threads *)

(** [free (evt)]. *)
Definition free_evt (a : nat) : io Q unit :=
  load_evt a >>> imod (fun w => set_events (w_queue w) (delete a (w_evts w)) w).

(** A turn of [evt_handler]. *)
Definition evt_handler_turn (uuid : list Z) : io Q unit :=
  let+ w := iget in
  if 0 <? mq_length (w_queue w) then
    let+ (ret, msg, q) := ilift (mq_get (w_queue w)) in
    imod (fun w => set_events q (w_evts w) w) >>>
    if ret =? 0 then
      let+ m := ilift (deref msg) in
      let+ a := ilift (deref (msg_data m)) in
      let+ e := load_evt a in
      state uuid e >>>
      free_evt a
    else usleep 200000
  else usleep 200000.

(** The two parts of a turn of the main loop, on the arrays [buf] and [buffer] of [main]. *)
Definition main_modem (buf : list Z) : io Q (list Z) :=
  let+ (rs, buf1) := read_line BUF_SIZE buf in
  if 0 <? rs then modem_event buf1 rs
  else if rs =? 0 then ifail Exited   (* break: [main] returns *)
  else ifail Exited.

(** [chunk] is what [recv] stored at the start of the array. *)
Definition main_sip (buffer chunk : list Z) : io Q (list Z) :=
  if bool_decide (chunk = []) then ifail Exited
  else sip_recv TERM (chunk ++ drop (length chunk) buffer) (length chunk).

(** The initialization of the modem in [main]. *)
Definition modem_init : io Q unit :=
  let ok := str "OK" in
  modem_cmd_wait (str "AT" ++ [13; 10]) ok >>>
  modem_cmd_wait (str "AT" ++ [13; 10]) ok >>>
  modem_cmd_wait (str "AT" ++ [13; 10]) ok >>>
  modem_cmd_wait (str "ATE1" ++ [13; 10]) ok >>>
  modem_cmd_wait (str "AT+COLP=1" ++ [13; 10]) ok >>>
  modem_cmd_wait (str "AT+CLIP=1" ++ [13; 10]) ok >>>
  modem_cmd_wait (str "AT+CMGF=0" ++ [13; 10]) ok >>>
  modem_cmd_wait (str "AT+CSCS=" ++ [34] ++ str "UCS2" ++ [34; 13; 10]) ok >>>
  iret tt.

(** The option table [telopts]. *)
Definition telopts : list telnet_telopt_t :=
  [ Telopt TELNET_TELOPT_ECHO TELNET_WONT TELNET_DO;
    Telopt TELNET_TELOPT_TTYPE TELNET_WILL TELNET_DONT;
    Telopt TELNET_TELOPT_COMPRESS2 TELNET_WONT TELNET_DO;
    Telopt TELNET_TELOPT_MSSP TELNET_WONT TELNET_DO;
    Telopt (-1) 0 0 ].

(** [main] up to its loop, once the host is connected and the serial line is open. *)
Definition main_init (peer uart_name : list Z) (fd sock : Z) : io Q unit :=
  imod (set_echo true) >>>
  modem_init >>>
  imod (set_telnet (telnet_init (Some telopts) 0 [])) >>>
  ctrl (set_conf (cstr (snprintf (Z.to_nat 255) uart_name)) (cstr (snprintf (Z.to_nat 255) peer)) fd sock) >>>
  mqtt_init >>>
  iret tt.
End Siproxy.
