(* ===== verification/Frame.v ===== *)
(** * Frame: what the parts of the program leave alone

    The class [EnvRel] collects the relations on worlds that hold across any change of the
    environment's part (inputs, results of system calls, outputs, the telnet tracker, the echo
    flag): every routine of the program that neither handles calls nor makes events keeps them.
    [EvtRel] adds the two routines that make events.  Instances: the control block is the same
    ([same_ctrl], here), and the queued events stay sound (in Program.v). *)

From Stdlib Require Import ZArith Lia String.
From stdpp Require Import base tactics numbers list gmap.
From S2P Require Import Prelude Match Queue QueueApi Telnet TelnetSub TelnetRecv World Modem Events Sip.
From S2P Require Import Siproxy.

Class EnvRel {Q : Type} (P : world Q -> world Q -> Prop) : Prop := {
  env_preorder :: PreOrder P;
  env_uart : forall w r, P w (set_uart r w);
  env_mallocs : forall w r, P w (set_wmallocs r w);
  env_writes : forall w r, P w (set_writes r w);
  env_sends : forall w r, P w (set_sends r w);
  env_mqtt : forall w r, P w (set_mqtt r w);
  env_out : forall w o, P w (add_out o w);
  env_telnet : forall w t, P w (set_telnet t w);
  env_echo : forall w b, P w (set_echo b w)
}.

Create HintDb frame discriminated.

(** An update of the environment's part, or no change. *)
Ltac env_tac :=
  first [ reflexivity | apply env_uart | apply env_mallocs | apply env_writes | apply env_sends
        | apply env_mqtt | apply env_out | apply env_telnet | apply env_echo ].
Ltac frame_tac :=
  first [solve [auto with frame] | solve [eauto with frame typeclass_instances] | assumption | env_tac].

Section Env.
Context {Q : Type} `{!MsgQueue Q} (P : world Q -> world Q -> Prop) `{!EnvRel P}.

Lemma next_malloc_frame : io_keeps P next_malloc.
Proof. intros w a w'. unfold next_malloc. case_match; intros [= _ <-]; env_tac. Qed.

Lemma next_mqtt_frame : io_keeps P next_mqtt.
Proof. intros w a w'. unfold next_mqtt. case_match; intros [= _ <-]; env_tac. Qed.

Lemma send_byte_frame b : io_keeps P (rs232_send_byte b).
Proof.
  intros w a w'. unfold rs232_send_byte. repeat case_match; intros [= _ <-]; try env_tac.
  etrans; [apply env_writes|apply env_out].
Qed.

Lemma next_send_frame n : io_keeps P (next_send n).
Proof. intros w a w'. unfold next_send. case_match; intros [= _ <-]; env_tac. Qed.

Lemma read_line_frame n buf : io_keeps P (read_line n buf).
Proof.
  intros w a w' H. unfold read_line in H. apply obind_Ret in H as ([[? ?] ?] & _ & [= _ <-]).
  apply env_uart.
Qed.
#[local] Hint Resolve next_malloc_frame next_mqtt_frame send_byte_frame next_send_frame
  read_line_frame : frame.

Lemma cputs_frame text : io_keeps P (rs232_cputs text).
Proof. induction text as [|c text IH]; simpl; io_keeps_tac frame_tac. Qed.
#[local] Hint Resolve cputs_frame : frame.

Lemma modem_cmd128_frame text : io_keeps P (modem_cmd128 text).
Proof. unfold modem_cmd128, modem_cmd. io_keeps_tac frame_tac. Qed.
#[local] Hint Resolve modem_cmd128_frame : frame.

Lemma make_call_frame n : io_keeps P (modem_make_call n).
Proof. unfold modem_make_call. io_keeps_tac frame_tac. Qed.

Lemma answer_call_frame : io_keeps P modem_answer_call.
Proof. unfold modem_answer_call, modem_cmd. io_keeps_tac frame_tac. Qed.

Lemma hangup_call_frame : io_keeps P modem_hangup_call.
Proof. unfold modem_hangup_call, modem_cmd. io_keeps_tac frame_tac. Qed.

Lemma get_sms_frame i : io_keeps P (modem_get_sms i).
Proof. apply modem_cmd128_frame. Qed.

Lemma delete_sms_frame i : io_keeps P (modem_delete_sms i).
Proof. apply modem_cmd128_frame. Qed.

Lemma usleep_frame n : io_keeps P (usleep n).
Proof. unfold usleep, out. io_keeps_tac frame_tac. Qed.
#[local] Hint Resolve usleep_frame : frame.

Lemma send_sms_frame p n : io_keeps P (modem_send_sms p n).
Proof. unfold modem_send_sms, modem_cmd. io_keeps_tac frame_tac. Qed.

Lemma wait_frame fuel respond buf : io_keeps P (modem_wait_loop fuel respond buf).
Proof.
  revert buf. induction fuel as [|fuel IH]; intros buf; cbn [modem_wait_loop]; io_keeps_tac frame_tac.
Qed.
#[local] Hint Resolve wait_frame : frame.

Lemma cmd_wait_frame cmd respond : io_keeps P (modem_cmd_wait cmd respond).
Proof. unfold modem_cmd_wait. io_keeps_tac frame_tac. Qed.

Lemma load_evt_frame a : io_keeps P (load_evt a).
Proof. unfold load_evt. io_keeps_tac frame_tac. Qed.

Lemma send_loop_frame fuel buffer : io_keeps P (_send_loop fuel buffer).
Proof.
  revert buffer. induction fuel as [|fuel IH]; intros buffer; cbn [_send_loop]; unfold out;
    io_keeps_tac frame_tac.
Qed.
#[local] Hint Resolve send_loop_frame : frame.

Lemma on_send_frame e : io_keeps P (on_send e).
Proof. unfold on_send, _send. io_keeps_tac frame_tac. Qed.
#[local] Hint Resolve on_send_frame : frame.

Lemma each_event_frame evs : io_keeps P (each_event evs).
Proof. induction evs as [|e evs IH]; cbn [each_event]; io_keeps_tac frame_tac. Qed.
#[local] Hint Resolve each_event_frame : frame.

Lemma run_send_frame m : io_keeps P (run_send m).
Proof. unfold run_send. io_keeps_tac frame_tac. Qed.
#[local] Hint Resolve run_send_frame : frame.

Lemma telnet_input_frame buffer : io_keeps P (telnet_input buffer).
Proof. induction buffer as [|c buffer IH]; cbn [telnet_input]; io_keeps_tac frame_tac. Qed.
#[local] Hint Resolve telnet_input_frame : frame.

Lemma sip_cmd_frame text : io_keeps P (sip_cmd text).
Proof. unfold sip_cmd. auto with frame. Qed.

Lemma mqtt_pub_frame t p r : io_keeps P (mqtt_pub t p r).
Proof. unfold mqtt_pub, out. io_keeps_tac frame_tac. Qed.

Lemma mqtt_sub_frame t q : io_keeps P (mqtt_sub t q).
Proof. unfold mqtt_sub, out. io_keeps_tac frame_tac. Qed.
#[local] Hint Resolve mqtt_pub_frame mqtt_sub_frame : frame.

Lemma onConnect_frame : io_keeps P onConnect.
Proof. unfold onConnect. io_keeps_tac frame_tac. Qed.

Lemma connlost_frame : io_keeps P connlost.
Proof. unfold connlost, out. io_keeps_tac frame_tac. Qed.
End Env.

#[export] Hint Resolve next_malloc_frame next_mqtt_frame send_byte_frame next_send_frame
  read_line_frame cputs_frame modem_cmd128_frame make_call_frame answer_call_frame
  hangup_call_frame get_sms_frame delete_sms_frame usleep_frame send_sms_frame cmd_wait_frame
  load_evt_frame on_send_frame run_send_frame telnet_input_frame sip_cmd_frame mqtt_pub_frame
  mqtt_sub_frame onConnect_frame connlost_frame : frame.

(** ** The routines that make events *)

Class EvtRel {Q : Type} `{!MsgQueue Q} (P : world Q -> world Q -> Prop) : Prop := {
  evt_env :: EnvRel P;
  evt_new : forall t size text, io_keeps P (new_event t size text);
  evt_sms : forall buf, io_keeps P (modem_event_sms_queue buf)
}.
#[export] Hint Resolve evt_new evt_sms : frame.

Section Evt.
Context {Q : Type} `{!MsgQueue Q} (P : world Q -> world Q -> Prop) `{!EvtRel P}.

Lemma modem_event_frame buf n : io_keeps P (modem_event buf n).
Proof.
  unfold modem_event, modem_event_queue. set (e := find_event _ _). clearbody e.
  io_keeps_tac frame_tac.
Qed.

Lemma sip_lines_frame fuel mem i : io_keeps P (sip_lines fuel mem i).
Proof.
  revert mem i. induction fuel as [|fuel IH]; intros mem i; cbn [sip_lines]; unfold sip_event_queue;
    io_keeps_tac frame_tac.
Qed.
#[local] Hint Resolve modem_event_frame sip_lines_frame : frame.

Lemma sip_event_frame TERM ev mem : io_keeps P (sip_event TERM ev mem).
Proof. unfold sip_event, sip_data. io_keeps_tac frame_tac. Qed.

Lemma sip_recv_frame TERM mem rs : io_keeps P (sip_recv TERM mem rs).
Proof.
  intros w b w' H. unfold sip_recv in H.
  destruct (telnet_recv _ _ _ _ _) as [[[t ow] mem']|] eqn:E; [|done].
  apply obind_Ret in H as (w1 & -> & H). case_bool_decide; [|done]. injection H as <- <-.
  set (I := fun ow : outcome (world Q) => match ow with Ret w2 => P w w2 | _ => True end).
  enough (HI : I (Ret w1)) by (etrans; [exact HI|apply env_telnet]).
  eapply (process_handler (sip_handler TERM) I); [|exact E|simpl; reflexivity].
  intros [w2| | |] mem2 e Hw; try done. unfold sip_handler.
  destruct (sip_event TERM e mem2 w2) as [[mem3 w3]| | |] eqn:Ee; try done.
  simpl. etrans; [exact Hw|]. by eapply sip_event_frame.
Qed.

Lemma main_modem_frame buf : io_keeps P (main_modem buf).
Proof. unfold main_modem. io_keeps_tac frame_tac. Qed.

Lemma main_sip_frame TERM buffer chunk : io_keeps P (main_sip TERM buffer chunk).
Proof. unfold main_sip. case_bool_decide; [apply io_keeps_fail|apply sip_recv_frame]. Qed.

Lemma msgarrvd_frame t p n : io_keeps P (msgarrvd t p n).
Proof.
  unfold msgarrvd, mqtt_event_queue. set (e := find_event _ _). clearbody e. io_keeps_tac frame_tac.
Qed.
End Evt.

#[export] Hint Resolve main_modem_frame main_sip_frame msgarrvd_frame : frame.

(** ** The control block *)

Section Ctrl.
Context {Q : Type} `{!MsgQueue Q}.

#[export] Instance same_ctrl_env : EnvRel (@same_ctrl Q).
Proof. split; done || apply _. Qed.

Lemma malloc_evt_ctrl : io_keeps (@same_ctrl Q) malloc_evt.
Proof. unfold malloc_evt. io_keeps_tac frame_tac. Qed.

Lemma store_evt_ctrl a e : io_keeps (@same_ctrl Q) (store_evt a e).
Proof. unfold store_evt. io_keeps_tac frame_tac. Qed.

Lemma queue_add_evt_ctrl a : io_keeps (@same_ctrl Q) (queue_add_evt a).
Proof. unfold queue_add_evt. io_keeps_tac frame_tac. Qed.
#[local] Hint Resolve malloc_evt_ctrl store_evt_ctrl queue_add_evt_ctrl : frame.

Lemma sms_loop_ctrl fuel a buffer : io_keeps (@same_ctrl Q) (sms_loop fuel a buffer).
Proof.
  revert buffer. induction fuel as [|fuel IH]; intros buffer; cbn [sms_loop]; io_keeps_tac frame_tac.
Qed.
#[local] Hint Resolve sms_loop_ctrl : frame.

#[export] Instance same_ctrl_evt : EvtRel (@same_ctrl Q).
Proof.
  split; [apply _|..].
  - intros t size text. unfold new_event. io_keeps_tac frame_tac.
  - intros buf. unfold modem_event_sms_queue. set (m := match_ _ _). clearbody m.
    set (c := strstr _ _). clearbody c. io_keeps_tac frame_tac.
Qed.
End Ctrl.
