(* ===== verification/Calls.v ===== *)
(** * Calls: what the state machine promises about a call

    The abstract call: who is calling whom and how far the call has come.  [call_step] says how an
    event moves it and what the program does to the two sides, [call_event] adds the short messages;
    [state], the dispatcher of main.c, implements it on every event.

    [call_step] is what the code means to do.  For a call of the SIP peer that is not what the documents
    say: doc/siproxy_protrol.odt (3.1.1) and doc/siproxy_app_init.msc have the modem dial on the INVITE
    and the 200 OK sent when the modem is connected, while main.c answers with 200 on the INVITE
    (line 1200) and dials when the SIP call is confirmed (line 1294, whose comment gives the reason: the
    peer is to hear the tones of the modem).  [dial_follows_answer] and [charted_call] below state the
    difference. *)

From Stdlib Require Import ZArith Lia String.
From stdpp Require Import base tactics numbers list gmap.
From S2P Require Import Prelude Match Queue QueueApi Telnet World Modem Events Sip Siproxy Frame.

(** ** The abstract call *)

(** [armed] is the number to dial, once the MQTT peer has sent it. *)
Inductive call : Type :=
| Idle (armed : option (list Z))
| ModemRinging (armed : option (list Z))    (** a caller on the modem; the SIP peer is being called *)
| ModemTalking (armed : option (list Z))    (** the SIP peer has answered, the modem has too *)
| SipRinging (num : list Z)                 (** a call of the SIP peer is being answered *)
| SipDialing (num : list Z)                 (** it is confirmed; the modem dials the number *)
| SipTalking (num : list Z) (confirmed : bool).  (** the modem is connected *)

Inductive effect : Type :=
| PubCaller (phone : list Z)
| CallSip | AnswerSip | HangupSip
| DialModem (num : list Z) | AnswerModem | HangupModem
| PubModemOk
| PubSms (time text : list Z)     (** a message of the modem, under the topic of its time *)
| SendSms (text : list Z).        (** a PDU of the MQTT peer *)

(** The number in the quotes of a +CLIP line. *)
Definition caller (v : list Z) : list Z :=
  match clip_phone v with Ret a => cstr a | _ => [] end.

Definition is_no_call (ev : EVENT) : bool :=
  bool_decide (ev = EVT_MODEM_NO_CARRIER) || bool_decide (ev = EVT_MODEM_NO_ANSWER) ||
  bool_decide (ev = EVT_MODEM_BUSY).

(** The other side goes away: the peer is told to hang up. *)
Definition call_end (k : call) (ev : EVENT) : call * list effect :=
  if is_no_call ev then (Idle None, [HangupSip])
  else if bool_decide (ev = EVT_SIP_DISCONNCTD) then (Idle None, [HangupModem])
  else (k, []).

Definition call_step (k : call) (ev : EVENT) (v : list Z) : call * list effect :=
  match k, ev with
  | Idle _, EVT_MQTT_CALLING => (Idle (Some v), [])
  | Idle armed, EVT_MODEM_CLIP => (ModemRinging armed, [PubCaller (caller v); CallSip])
  | Idle armed, EVT_SIP_INCOMING =>
      match armed with Some num => (SipRinging num, [AnswerSip]) | None => (k, []) end
  | Idle _, _ => (k, [])
  | ModemRinging armed, EVT_SIP_CONFIRMED => (ModemTalking armed, [AnswerModem])
  | SipRinging num, EVT_SIP_CONFIRMED => (SipDialing num, [DialModem num])
  | SipDialing num, EVT_SIP_CONFIRMED => (SipDialing num, [DialModem num])
  | SipRinging num, EVT_MODEM_COLP => (SipTalking num false, [PubModemOk])
  | SipDialing num, EVT_MODEM_COLP => (SipTalking num true, [PubModemOk])
  | _, _ => call_end k ev
  end.

(** All the events: the short messages pass in every state, at the time [uuid]. *)
Definition call_event (uuid : list Z) (k : call) (ev : EVENT) (v : list Z) : call * list effect :=
  match ev with
  | EVT_MODEM_SMS => (k, [PubSms uuid v])
  | EVT_MQTT_SMS => (k, [SendSms v])
  | _ => call_step k ev v
  end.

(** *** The order of a call

    What a sequence of events does, from a call on. *)
Fixpoint call_run (k : call) (l : list (EVENT * list Z)) : list effect :=
  match l with
  | [] => []
  | (ev, v) :: l => (call_step k ev v).2 ++ call_run (call_step k ev v).1 l
  end.

Lemma call_run_dials k l n :
  DialModem n ∈ call_run k l ->
  match k with
  | SipRinging _ | SipDialing _ => True
  | _ => exists pre post, call_run k l = pre ++ DialModem n :: post /\ AnswerSip ∈ pre
  end.
Proof.
  revert k. induction l as [|[ev v] l IH]; intros k; cbn [call_run]; [by intros ?%elem_of_nil|].
  rewrite elem_of_app. intros [H|H].
  - destruct k as [[]| | | | |], ev; cbn in H |- *; try done; exfalso; set_solver.
  - specialize (IH _ H).
    assert (Hs : (AnswerSip ∈ (call_step k ev v).2 /\ exists pre post,
                    call_run (call_step k ev v).1 l = pre ++ DialModem n :: post) \/
      match k with SipRinging _ | SipDialing _ => True | _ =>
        exists pre post, call_run (call_step k ev v).1 l = pre ++ DialModem n :: post /\ AnswerSip ∈ pre end).
    { pose proof (list_elem_of_split _ _ H) as (pre & post & E).
      destruct k as [[]| | | | |], ev; cbn in IH |- *; eauto; left; (split; [set_solver|eauto]). }
    set (es := (call_step k ev v).2) in *.
    destruct Hs as [(Ha & pre & post & ->)|Hk].
    + destruct k; try done; exists (es ++ pre), post; rewrite <- app_assoc; set_solver.
    + destruct k; try done; destruct Hk as (pre & post & -> & Ha);
        exists (es ++ pre), post; rewrite <- app_assoc; set_solver.
Qed.

(** From an idle program the modem is dialled only after the SIP peer has been answered. *)
Lemma dial_follows_answer armed l n :
  DialModem n ∈ call_run (Idle armed) l ->
  exists pre post, call_run (Idle armed) l = pre ++ DialModem n :: post /\ AnswerSip ∈ pre.
Proof. apply call_run_dials. Qed.

(** The call of doc/siproxy_app_init.msc: the number, the INVITE, then the connection of the modem. *)
Lemma charted_call num v1 v2 v3 :
  call_run (Idle None) [(EVT_MQTT_CALLING, num); (EVT_SIP_INCOMING, v1); (EVT_SIP_CONFIRMED, v2);
    (EVT_MODEM_COLP, v3)] = [AnswerSip; DialModem num; PubModemOk].
Proof. done. Qed.

(** ** How the control block represents it *)

(** The array [sim_num] with a number in it. *)
Definition sim_array (num : list Z) : list Z := num ++ replicate (SIM_NUM_SIZE - length num) 0.

Definition number_ok (num : list Z) : Prop := nonul num /\ (length num < SIM_NUM_SIZE)%nat.

Definition armed_rep (armed : option (list Z)) (c : siproxy_ctrl) : Prop :=
  match armed with
  | None => mqtt_state c = STATE_INIT
  | Some num => mqtt_state c = STATE_INCOMING /\ sim_num c = sim_array num /\ number_ok num
  end.

Definition fields (c : siproxy_ctrl) : STATE * CALL_INIT * STATE * STATE :=
  (state_ c, init_dir c, sip_state c, modem_state c).

Definition call_rep (k : call) (c : siproxy_ctrl) : Prop :=
  match k with
  | Idle armed =>
      fields c = (STATE_INIT, INIT_NONE, STATE_INIT, STATE_INIT) /\ armed_rep armed c
  | ModemRinging armed =>
      fields c = (STATE_INCOMING, INIT_FROM_MODEM, STATE_CALLING, STATE_INCOMING) /\ armed_rep armed c
  | ModemTalking armed =>
      fields c = (STATE_CONFIRMED, INIT_FROM_MODEM, STATE_CONFIRMED, STATE_CONFIRMED) /\ armed_rep armed c
  | SipRinging num =>
      fields c = (STATE_INCOMING, INIT_FROM_SIP, STATE_INCOMING, STATE_INIT) /\ armed_rep (Some num) c
  | SipDialing num =>
      fields c = (STATE_INCOMING, INIT_FROM_SIP, STATE_CONFIRMED, STATE_CALLING) /\ armed_rep (Some num) c
  | SipTalking num confirmed =>
      fields c = (STATE_CONFIRMED, INIT_FROM_SIP,
                  if confirmed then STATE_CONFIRMED else STATE_INCOMING, STATE_CONFIRMED) /\
      armed_rep (Some num) c
  end.

(** ** What the outside sees *)

Inductive vact : Type :=
| VUart (b : Z)
| VSock (b : Z)
| VPub (topic payload : list Z) (retained : Z).

Definition view_of (a : action) : list vact :=
  match a with
  | OUart b => [VUart b]
  | OSock bytes => VSock <$> bytes
  | OPub t p r => [VPub t p r]
  | _ => []
  end.
Definition view (o : list action) : list vact := o ≫= view_of.

Definition crlf2 : list Z := [13; 10; 13; 10].

(** What an effect is on the wire. *)
Definition render (peer : list Z) (e : effect) : list vact :=
  match e with
  | PubCaller phone => [VPub TOPIC_ALICE_CALLED phone 0]
  | CallSip => VSock <$> (str "call new " ++ (peer ≫= input_wire) ++ crlf2)
  | AnswerSip => VSock <$> (str "call answer 200" ++ crlf2)
  | HangupSip => VSock <$> (str "hA" ++ crlf2)
  | DialModem num => VUart <$> take 127 (str "ATD" ++ num ++ str ";" ++ [13; 10])
  | AnswerModem => VUart <$> (str "ATA" ++ [13; 10])
  | HangupModem => VUart <$> (str "ATH" ++ [13; 10])
  | PubModemOk => [VPub TOPIC_ALICE_MODEM MODEM_CALL_OK 0]
  | PubSms time text => [VPub (take 63 (TOPIC_SMS ++ str "/" ++ time)) text 1]
  | SendSms text =>
      VUart <$> (str "AT+CMGS=" ++ decimal ((Z.of_nat (length text) - 2) / 2) ++ [13] ++ text ++ [26])
  end.

Section Calls.
Context {Q : Type} `{!MsgQueue Q}.
Implicit Types w : world Q.

(** The environment takes what the program sends. *)
Definition healthy w : Prop :=
  w_writes w = [] /\ w_mqtt w = [] /\ Forall (fun r => 0 < r) (w_sends w).

(** The call returns, leaves the control block [c] and has shown [vs] to the outside. *)
Definition does {A} (m : io Q A) (w : world Q) (c : siproxy_ctrl) (vs : list vact) : Prop :=
  exists a o s, m w = Ret (a, add_out o (set_sends s (set_ctrl (fun _ => c) w))) /\
    Forall (fun r => 0 < r) s /\ view o = vs.

Lemma view_app a b : view (a ++ b) = view a ++ view b.
Proof. apply bind_app. Qed.

Lemma does_ret {A} (a : A) w : healthy w -> does (iret a) w (w_ctrl w) [].
Proof.
  intros (_ & _ & Hs). exists a, [], (w_sends w). split; [|done].
  rewrite add_out_nil. by destruct w.
Qed.

Lemma does_lift {A B} (o : outcome A) a (k : A -> io Q B) w c vs :
  o = Ret a -> does (k a) w c vs -> does (ibind (ilift o) k) w c vs.
Proof. intros -> H. exact H. Qed.

Lemma does_get {B} (k : world Q -> io Q B) w c vs : does (k w) w c vs -> does (ibind iget k) w c vs.
Proof. intros H. exact H. Qed.

Lemma does_bind {A B} (m : io Q A) (k : A -> io Q B) w c a c' b vs :
  healthy w -> does m w c a ->
  (forall x w', healthy w' -> w_ctrl w' = c -> does (k x) w' c' b) -> vs = a ++ b ->
  does (ibind m k) w c' vs.
Proof.
  intros (Hw1 & Hw2 & _) (x & o1 & s1 & E1 & S1 & V1) Hk ->.
  destruct (Hk x (add_out o1 (set_sends s1 (set_ctrl (fun _ => c) w)))) as (y & o2 & s2 & E2 & S2 & V2);
    [done|done|].
  exists y, (o1 ++ o2), s2. split; [|by rewrite view_app, V1, V2].
  unfold ibind. rewrite E1. cbn [obind]. rewrite E2. f_equal. f_equal.
  clear. destruct w. flatten_world. by rewrite app_assoc.
Qed.

Lemma does_ctrl f w : healthy w -> does (ctrl f) w (f (w_ctrl w)) [].
Proof.
  intros (_ & _ & Hs). exists tt, [], (w_sends w). split; [|done].
  rewrite add_out_nil. by destruct w.
Qed.

Lemma does_usleep n w : healthy w -> does (usleep n) w (w_ctrl w) [].
Proof. intros (_ & _ & Hs). exists tt, [OSleep n], (w_sends w). split; [|done]. by destruct w. Qed.

Lemma does_puts m w bytes : healthy w -> puts m w bytes -> does m w (w_ctrl w) (VSock <$> bytes).
Proof.
  intros _ (o & s & E & Ho & <- & Hs). exists tt, o, s. split_and!; [|done|].
  - rewrite E. by destruct w.
  - clear E. induction Ho as [|a o Ha _ IH]; [done|]. destruct a; try done.
    change ((VSock <$> bytes) ++ view o = VSock <$> (bytes ++ sock_bytes o)).
    by rewrite fmap_app, IH.
Qed.

Lemma view_uart text : view (OUart <$> text) = VUart <$> text.
Proof. induction text as [|c text IH]; [done|]. cbn [fmap list_fmap]. by rewrite <- IH. Qed.

Lemma does_cputs text w : healthy w -> does (rs232_cputs text) w (w_ctrl w) (VUart <$> text).
Proof.
  intros (Hw & _ & Hs). exists tt, (OUart <$> text), (w_sends w). split_and!; [|done|apply view_uart].
  rewrite cputs_out by done. by destruct w.
Qed.

Lemma does_modem_cmd text w : healthy w -> does (modem_cmd text) w (w_ctrl w) (VUart <$> text).
Proof.
  intros Hw. unfold modem_cmd. eapply does_bind; [done|by apply does_cputs| |by rewrite app_nil_r].
  intros x w' Hw' <-. by apply does_ret.
Qed.

Lemma does_make_call num w :
  healthy w -> number_ok num ->
  does (modem_make_call (sim_array num)) w (w_ctrl w)
    (VUart <$> take 127 (str "ATD" ++ num ++ str ";" ++ [13; 10])).
Proof.
  intros Hw [Hn Hl]. unfold modem_make_call, sim_array.
  replace (SIM_NUM_SIZE - length num)%nat with (S (SIM_NUM_SIZE - length num - 1)) by lia.
  eapply does_lift; [by apply cstr_array_spec|]. unfold modem_cmd128.
  rewrite snprintf_cstr; [by apply does_modem_cmd| |lia].
  apply Forall_app. split; [by repeat constructor|]. apply Forall_app. split; [done|]. by repeat constructor.
Qed.

Lemma does_pub t p r w : healthy w -> does (mqtt_pub t p r) w (w_ctrl w) [VPub t p r].
Proof.
  intros (_ & Hm & Hs). exists 0, [OPub t p r], (w_sends w). split_and!; [|done|done].
  unfold mqtt_pub, ibind, next_mqtt. rewrite Hm. cbn [obind]. by destruct w.
Qed.

(** *** The table *)

Lemma does_skip s f tbl uuid ev v w c vs :
  ev <> EVT_MODEM_SMS -> ev <> EVT_MQTT_SMS -> state_ (w_ctrl w) <> s ->
  does (state_loop tbl uuid (Evt (Some ev) v)) w c vs ->
  does (state_loop ((s, f) :: tbl) uuid (Evt (Some ev) v)) w c vs.
Proof.
  intros H1 H2 Hs Hd. cbn [state_loop]. eapply does_lift; [reflexivity|]. simpl.
  assert (E : does (let+ w0 := iget in
     (if bool_decide (state_ (w_ctrl w0) = s) then f (Evt (Some ev) v) else iret tt) >>>
     state_loop tbl uuid (Evt (Some ev) v)) w c vs).
  { apply does_get. by rewrite bool_decide_eq_false_2. }
  by destruct ev.
Qed.

Lemma does_hit s f tbl uuid ev v w c1 c2 a b vs :
  ev <> EVT_MODEM_SMS -> ev <> EVT_MQTT_SMS -> healthy w -> state_ (w_ctrl w) = s ->
  does (f (Evt (Some ev) v)) w c1 a ->
  (forall w', healthy w' -> w_ctrl w' = c1 -> does (state_loop tbl uuid (Evt (Some ev) v)) w' c2 b) ->
  vs = a ++ b ->
  does (state_loop ((s, f) :: tbl) uuid (Evt (Some ev) v)) w c2 vs.
Proof.
  intros H1 H2 Hw Hs Hf Hk ->. cbn [state_loop]. eapply does_lift; [reflexivity|]. simpl.
  assert (E : does (let+ w0 := iget in
     (if bool_decide (state_ (w_ctrl w0) = s) then f (Evt (Some ev) v) else iret tt) >>>
     state_loop tbl uuid (Evt (Some ev) v)) w c2 (a ++ b)).
  { apply does_get. rewrite bool_decide_eq_true_2 by done. by eapply does_bind; [|exact Hf|auto|]. }
  by destruct ev.
Qed.

(** *** Rules for the shapes of the handlers *)

Lemma does_ctrl_bind {B} f (k : unit -> io Q B) w c' vs :
  healthy w -> (forall w', healthy w' -> w_ctrl w' = f (w_ctrl w) -> does (k tt) w' c' vs) ->
  does (ibind (ctrl f) k) w c' vs.
Proof.
  intros Hw Hk. eapply does_bind; [done|by apply does_ctrl| |by rewrite app_nil_l].
  intros [] w' Hw' Hc. by apply Hk.
Qed.

Lemma does_seq {A B} (m : io Q A) (k : A -> io Q B) w a c' b :
  healthy w -> does m w (w_ctrl w) a ->
  (forall x w', healthy w' -> w_ctrl w' = w_ctrl w -> does (k x) w' c' b) ->
  does (ibind m k) w c' (a ++ b).
Proof. intros Hw Hm Hk. by eapply does_bind. Qed.

Lemma does_seq_nil {A B} (m : io Q A) (k : A -> io Q B) w c' b :
  healthy w -> does m w (w_ctrl w) [] ->
  (forall x w', healthy w' -> w_ctrl w' = w_ctrl w -> does (k x) w' c' b) ->
  does (ibind m k) w c' b.
Proof. intros Hw Hm Hk. by eapply does_bind. Qed.

Lemma does_sip_cmds peer w :
  healthy w -> nonul peer -> (length peer < 245)%nat ->
  does (sip_make_call peer) w (w_ctrl w) (render peer CallSip) /\
  does sip_answer_call w (w_ctrl w) (render peer AnswerSip) /\
  does sip_hangup_call w (w_ctrl w) (render peer HangupSip).
Proof.
  intros Hw Hp Hl. pose proof Hw as (_ & _ & Hs).
  split_and!; apply does_puts; try done; unfold sip_make_call, sip_answer_call, sip_hangup_call.
  - replace (str "call new " ++ (peer ≫= input_wire) ++ crlf2)
      with ((str "call new " ++ peer ++ [13; 10]) ≫= input_wire) by (by rewrite !bind_app).
    apply sip_cmd_puts; [done| |rewrite !length_app; simpl; lia].
    apply Forall_app. split; [by repeat constructor|]. apply Forall_app. split; [done|].
    by repeat constructor.
  - apply (sip_cmd_puts (str "call answer 200" ++ [13; 10])); [done|by repeat constructor|simpl; lia].
  - apply (sip_cmd_puts (str "hA" ++ [13; 10])); [done|by repeat constructor|simpl; lia].
Qed.

(** Decide the tests of the direction of a call. *)
Ltac decide_dirs :=
  change (bool_decide (INIT_FROM_MODEM = INIT_FROM_SIP)) with false;
  change (bool_decide (INIT_FROM_SIP = INIT_FROM_MODEM)) with false;
  change (bool_decide (INIT_FROM_MODEM = INIT_FROM_MODEM)) with true;
  change (bool_decide (INIT_FROM_SIP = INIT_FROM_SIP)) with true;
  cbv beta iota.

Lemma does_hangup_sip peer w :
  healthy w -> init_dir (w_ctrl w) <> INIT_NONE ->
  does hangup_sip_and_reset w (siproxy_reset (w_ctrl w)) (render peer HangupSip).
Proof.
  intros Hw Hd. unfold hangup_sip_and_reset. apply does_get.
  assert (Hh : forall w, healthy w -> does sip_hangup_call w (w_ctrl w) (render peer HangupSip)).
  { intros w0 Hw0. by apply (does_sip_cmds [] w0); [|constructor|simpl; lia]. }
  assert (Hlast : forall w', healthy w' -> w_ctrl w' = w_ctrl w ->
    does (ctrl siproxy_reset) w' (siproxy_reset (w_ctrl w)) []).
  { intros w' Hw' <-. by apply does_ctrl. }
  rewrite <- (app_nil_r (render peer HangupSip)).
  destruct (init_dir (w_ctrl w)) eqn:E; [done| |]; decide_dirs.
  - rewrite <- (app_nil_l (_ ++ [])). apply does_seq; [done|by apply does_ret|].
    intros _ w1 Hw1 E1. rewrite <- E1 in Hlast |- *. apply does_seq; [done|by apply Hh|auto].
  - apply does_seq; [done|by apply Hh|]. intros _ w1 Hw1 E1. rewrite <- (app_nil_l []).
    rewrite <- E1 in Hlast |- *. apply does_seq; [done|by apply does_ret|auto].
Qed.

Lemma does_hangup_modem peer w :
  healthy w -> init_dir (w_ctrl w) <> INIT_NONE ->
  does hangup_modem_and_reset w (siproxy_reset (w_ctrl w)) (render peer HangupModem).
Proof.
  intros Hw Hd. unfold hangup_modem_and_reset. apply does_get.
  assert (Hh : forall w, healthy w ->
    does (modem_hangup_call >>> iret tt) w (w_ctrl w) (render peer HangupModem)).
  { intros w0 Hw0. rewrite <- (app_nil_r (render _ _)).
    apply does_seq; [done|by apply does_modem_cmd|]. intros _ w1 Hw1 <-. by apply does_ret. }
  assert (Hlast : forall w', healthy w' -> w_ctrl w' = w_ctrl w ->
    does (ctrl siproxy_reset) w' (siproxy_reset (w_ctrl w)) []).
  { intros w' Hw' <-. by apply does_ctrl. }
  rewrite <- (app_nil_r (render peer HangupModem)).
  destruct (init_dir (w_ctrl w)) eqn:E; [done| |]; decide_dirs.
  - apply does_seq; [done|by apply Hh|]. intros _ w1 Hw1 E1. rewrite <- (app_nil_l []).
    rewrite <- E1 in Hlast |- *. apply does_seq; [done|by apply does_ret|auto].
  - rewrite <- (app_nil_l (_ ++ [])). apply does_seq; [done|by apply does_ret|].
    intros _ w1 Hw1 E1. rewrite <- E1 in Hlast |- *. apply does_seq; [done|by apply Hh|auto].
Qed.

(** States of the table the program is not in. *)
Lemma does_rest tbl uuid ev v w :
  ev <> EVT_MODEM_SMS -> ev <> EVT_MQTT_SMS -> healthy w ->
  Forall (fun p => p.1 <> state_ (w_ctrl w)) tbl ->
  does (state_loop tbl uuid (Evt (Some ev) v)) w (w_ctrl w) [].
Proof.
  intros H1 H2 Hw. induction 1 as [|[s f] tbl Hs _ IH]; [by apply does_ret|].
  by apply does_skip; try done; intros E.
Qed.

(** *** The handlers *)

(** What the text of an event must be for the handler of a call to read it. *)
Definition text_ok (k : call) (ev : EVENT) (v : list Z) : Prop :=
  match k, ev with
  | Idle _, EVT_MQTT_CALLING => number_ok v
  | Idle _, EVT_MODEM_CLIP => exists a, clip_phone v = Ret a /\ 0 ∈ a
  | _, _ => True
  end.

(** The handler [h] moves the call [k] on the event, and shows what [call_step] says. *)
Definition handles (h : io Q unit) (k : call) (ev : EVENT) (v : list Z) (w : world Q) : Prop :=
  exists c', does h w c' ((call_step k ev v).2 ≫= render (sip_peer (w_ctrl w))) /\
    call_rep (call_step k ev v).1 c' /\ sip_peer c' = sip_peer (w_ctrl w).

Lemma handles_ret k ev v w :
  healthy w -> call_rep k (w_ctrl w) -> call_step k ev v = (k, []) -> handles (iret tt) k ev v w.
Proof. intros Hw Hr E. exists (w_ctrl w). rewrite E. split; [by apply does_ret|done]. Qed.

Lemma fields_eq c s d sip modem :
  fields c = (s, d, sip, modem) ->
  state_ c = s /\ init_dir c = d /\ sip_state c = sip /\ modem_state c = modem.
Proof. unfold fields. intros H. by simplify_eq. Qed.

Lemma reset_rep c : call_rep (Idle None) (siproxy_reset c).
Proof. done. Qed.

Lemma handles_hangup_sip k ev v w :
  healthy w -> init_dir (w_ctrl w) <> INIT_NONE -> call_step k ev v = (Idle None, [HangupSip]) ->
  handles hangup_sip_and_reset k ev v w.
Proof.
  intros Hw Hd E. exists (siproxy_reset (w_ctrl w)). rewrite E.
  split; [|done]. cbn [snd mbind list_bind]. rewrite app_nil_r. by apply does_hangup_sip.
Qed.

Lemma handles_hangup_modem k ev v w :
  healthy w -> init_dir (w_ctrl w) <> INIT_NONE -> call_step k ev v = (Idle None, [HangupModem]) ->
  handles hangup_modem_and_reset k ev v w.
Proof.
  intros Hw Hd E. exists (siproxy_reset (w_ctrl w)). rewrite E.
  split; [|done]. cbn [snd mbind list_bind]. rewrite app_nil_r. by apply does_hangup_modem.
Qed.

Lemma init_mqtt armed v w :
  healthy w -> call_rep (Idle armed) (w_ctrl w) -> number_ok v ->
  handles (state_init (Evt (Some EVT_MQTT_CALLING) (Some v))) (Idle armed) EVT_MQTT_CALLING v w.
Proof.
  intros Hw [Hf _] Hv. pose proof Hv as [_ Hl].
  exists (set_mqtt_state STATE_INCOMING (set_sim_num (sim_array v) (w_ctrl w))).
  split; [|split; [split; [done|split; done]|done]].
  unfold state_init. eapply does_lift; [reflexivity|]. cbv beta iota.
  eapply does_lift; [reflexivity|]. cbv beta iota.
  eapply does_lift. { unfold copy_number. rewrite bool_decide_eq_false_2 by lia. reflexivity. }
  apply does_ctrl_bind; [done|]. intros w1 Hw1 E1.
  fold (sim_array v) in E1. rewrite <- E1. by apply does_ctrl.
Qed.

Lemma init_clip armed v w :
  healthy w -> call_rep (Idle armed) (w_ctrl w) ->
  nonul (sip_peer (w_ctrl w)) -> (length (sip_peer (w_ctrl w)) < 245)%nat ->
  (exists a, clip_phone v = Ret a /\ 0 ∈ a) ->
  handles (state_init (Evt (Some EVT_MODEM_CLIP) (Some v))) (Idle armed) EVT_MODEM_CLIP v w.
Proof.
  intros Hw [Hf Harm] Hp Hl (a & Ha & H0). apply fields_eq in Hf as (_ & Hd & _ & _).
  set (c1 := set_modem_state STATE_INCOMING (set_init_dir INIT_FROM_MODEM (w_ctrl w))).
  exists (set_state_ STATE_INCOMING (set_sip_state STATE_CALLING c1)). split; [|done].
  unfold state_init. eapply does_lift; [reflexivity|]. cbv beta iota. apply does_get.
  rewrite bool_decide_eq_true_2 by done.
  apply does_ctrl_bind; [done|]. intros w1 Hw1 E1. apply does_ctrl_bind; [done|]. intros w2 Hw2 E2.
  rewrite E1 in E2. eapply does_lift; [reflexivity|]. eapply does_lift; [exact Ha|].
  eapply does_lift. { unfold cstr_array. by rewrite bool_decide_eq_true_2. }
  set (peer := sip_peer (w_ctrl w)) in *.
  change (does (mqtt_pub TOPIC_ALICE_CALLED (cstr a) 0 >>> usleep 1200000 >>>
      let+ w1 := iget in sip_make_call (sip_peer (w_ctrl w1)) >>>
      ctrl (set_sip_state STATE_CALLING) >>> ctrl (set_state_ STATE_INCOMING)) w2
    (set_state_ STATE_INCOMING (set_sip_state STATE_CALLING c1))
    (render peer (PubCaller (caller v)) ++ render peer CallSip ++ [])).
  replace (caller v) with (cstr a) by (unfold caller; by rewrite Ha).
  apply does_seq; [done|by apply does_pub|]. intros _ w3 Hw3 E3. rewrite E2 in E3.
  apply does_seq_nil; [done|by apply does_usleep|].
  intros _ w4 Hw4 E4. rewrite E3 in E4. apply does_get.
  assert (Hpe : sip_peer (w_ctrl w4) = sip_peer (w_ctrl w)) by (by rewrite E4). rewrite Hpe. fold peer.
  apply does_seq; [done|exact (proj1 (does_sip_cmds peer w4 Hw4 Hp Hl))|]. intros _ w5 Hw5 E5. rewrite E4 in E5.
  apply does_ctrl_bind; [done|]. intros w6 Hw6 E6. rewrite E5 in E6.
  fold c1 in E6. rewrite <- E6. by apply does_ctrl.
Qed.

Lemma init_sip armed v w :
  healthy w -> call_rep (Idle armed) (w_ctrl w) ->
  handles (state_init (Evt (Some EVT_SIP_INCOMING) (Some v))) (Idle armed) EVT_SIP_INCOMING v w.
Proof.
  intros Hw Hr. pose proof Hr as [Hf Harm]. apply fields_eq in Hf as (_ & Hd & Hsip & Hmod).
  unfold state_init.
  destruct armed as [num|].
  - destruct Harm as (Hmq & Hnum).
    exists (set_state_ STATE_INCOMING (set_sip_state STATE_INCOMING (set_init_dir INIT_FROM_SIP (w_ctrl w)))).
    split; [|split; [split|]; [|done|done]; unfold fields; simpl; by rewrite Hmod].
    eapply does_lift; [reflexivity|]. cbv beta iota. apply does_get.
    rewrite Hd, Hmq. rewrite !bool_decide_eq_true_2 by done. cbn [andb].
    apply does_ctrl_bind; [done|]. intros w1 Hw1 E1. apply does_ctrl_bind; [done|]. intros w2 Hw2 E2.
    rewrite E1 in E2.
    change (does (sip_answer_call >>> ctrl (set_state_ STATE_INCOMING)) w2
      (set_state_ STATE_INCOMING (set_sip_state STATE_INCOMING (set_init_dir INIT_FROM_SIP (w_ctrl w))))
      (render [] AnswerSip ++ [])).
    apply does_seq; [done|apply (does_sip_cmds [] w2); [done|constructor|simpl; lia]|].
    intros _ w3 Hw3 E3. rewrite E2 in E3. rewrite <- E3. by apply does_ctrl.
  - exists (w_ctrl w). split; [|done]. eapply does_lift; [reflexivity|]. cbv beta iota. apply does_get.
    rewrite Hd, Harm. simpl. by apply does_ret.
Qed.

Lemma incoming_colp num k confirmed v w :
  k = SipRinging num /\ confirmed = false \/ k = SipDialing num /\ confirmed = true ->
  healthy w -> call_rep k (w_ctrl w) ->
  handles (state_incoming (Evt (Some EVT_MODEM_COLP) (Some v))) k EVT_MODEM_COLP v w.
Proof.
  intros Hk Hw Hr.
  set (c' := set_state_ STATE_CONFIRMED (set_modem_state STATE_CONFIRMED (w_ctrl w))).
  assert (Hd : init_dir (w_ctrl w) = INIT_FROM_SIP /\ call_step k EVT_MODEM_COLP v =
      (SipTalking num confirmed, [PubModemOk]) /\ call_rep (SipTalking num confirmed) c').
  { destruct Hk as [[-> ->]|[-> ->]]; destruct Hr as [Hf Harm];
      apply fields_eq in Hf as (_ & Hd & Hsip & _); (split; [done|split; [done|]]);
      (split; [unfold c', fields; simpl; by rewrite Hd, Hsip|exact Harm]). }
  destruct Hd as (Hd & Hstep & Hrep). exists c'. rewrite Hstep. split; [|done].
  unfold state_incoming. eapply does_lift; [reflexivity|]. cbv beta iota. apply does_get.
  rewrite Hd. decide_dirs. apply does_ctrl_bind; [done|]. intros w1 Hw1 E1.
  apply (does_seq _ _ _ [VPub TOPIC_ALICE_MODEM MODEM_CALL_OK 0] _ []);
    [done|by apply does_pub|].
  intros _ w2 Hw2 E2. rewrite E1 in E2. unfold c'. rewrite <- E2. by apply does_ctrl.
Qed.

Lemma incoming_colp_modem armed v w :
  healthy w -> call_rep (ModemRinging armed) (w_ctrl w) ->
  handles (state_incoming (Evt (Some EVT_MODEM_COLP) (Some v))) (ModemRinging armed) EVT_MODEM_COLP v w.
Proof.
  intros Hw Hr. pose proof Hr as [Hf _]. apply fields_eq in Hf as (_ & Hd & _ & _).
  exists (w_ctrl w). split; [|done].
  unfold state_incoming. eapply does_lift; [reflexivity|]. cbv beta iota. apply does_get.
  rewrite Hd. decide_dirs. by apply does_ret.
Qed.

(** The branches of a confirmed SIP call. *)
Lemma incoming_confirmed_sip num k v w :
  k = SipRinging num \/ k = SipDialing num ->
  healthy w -> call_rep k (w_ctrl w) ->
  handles (state_incoming (Evt (Some EVT_SIP_CONFIRMED) (Some v))) k EVT_SIP_CONFIRMED v w.
Proof.
  intros Hk Hw Hr.
  set (c' := set_modem_state STATE_CALLING (set_sip_state STATE_CONFIRMED (w_ctrl w))).
  assert (Hd : fields (w_ctrl w) = (STATE_INCOMING, INIT_FROM_SIP, sip_state (w_ctrl w), modem_state (w_ctrl w))
      /\ armed_rep (Some num) (w_ctrl w) /\
      call_step k EVT_SIP_CONFIRMED v = (SipDialing num, [DialModem num])).
  { destruct Hk as [-> | ->]; destruct Hr as [Hf Harm]; pose proof (fields_eq _ _ _ _ _ Hf) as (_ & _ & -> & ->);
      done. }
  destruct Hd as (Hf & Harm & Hstep). apply fields_eq in Hf as (Hst & Hd & _ & _).
  pose proof Harm as (_ & Hnum & Hok).
  exists c'. rewrite Hstep. split; [|split; [split|]; [|exact Harm|done]].
  2: { unfold c', fields. simpl. by rewrite Hst, Hd. }
  unfold state_incoming. eapply does_lift; [reflexivity|]. cbv beta iota. apply does_get.
  rewrite Hd. decide_dirs. rewrite Hnum.
  change ((SipDialing num, [DialModem num]).2 ≫= render (sip_peer (w_ctrl w)))
    with (render [] (DialModem num) ++ []).
  apply (does_bind _ _ _ c' (render [] (DialModem num)) c' []);
    [done| |intros _ w' Hw' E'; rewrite <- E'; by apply does_ret|done].
  apply does_ctrl_bind; [done|]. intros w1 Hw1 E1.
  rewrite <- (app_nil_r (render [] (DialModem num))).
  apply does_seq; [done|by apply does_make_call|].
  intros _ w2 Hw2 E2. rewrite E1 in E2. unfold c'. rewrite <- E2. by apply does_ctrl.
Qed.

Lemma incoming_confirmed_modem armed v w :
  healthy w -> call_rep (ModemRinging armed) (w_ctrl w) ->
  handles (state_incoming (Evt (Some EVT_SIP_CONFIRMED) (Some v))) (ModemRinging armed)
    EVT_SIP_CONFIRMED v w.
Proof.
  intros Hw [Hf Harm]. apply fields_eq in Hf as (Hst & Hd & _ & _).
  set (c' := set_state_ STATE_CONFIRMED (set_modem_state STATE_CONFIRMED (set_sip_state STATE_CONFIRMED (w_ctrl w)))).
  exists c'. split; [|split; [split|]; [|exact Harm|done]].
  2: { unfold c', fields. simpl. by rewrite Hd. }
  unfold state_incoming. eapply does_lift; [reflexivity|]. cbv beta iota. apply does_get.
  rewrite Hd. decide_dirs. apply does_seq_nil; [done|by apply does_ret|].
  intros _ w0 Hw0 E0. apply does_ctrl_bind; [done|]. intros w1 Hw1 E1. rewrite E0 in E1.
  change (does (modem_answer_call >>> ctrl (set_modem_state STATE_CONFIRMED) >>>
     ctrl (set_state_ STATE_CONFIRMED)) w1 c' (render [] AnswerModem ++ [])).
  apply does_seq; [done|by apply does_modem_cmd|].
  intros _ w2 Hw2 E2. rewrite E1 in E2. apply does_ctrl_bind; [done|].
  intros w3 Hw3 E3. rewrite E2 in E3. unfold c'. rewrite <- E3. by apply does_ctrl.
Qed.

(** The handler of the state a call is in. *)
Definition handler_of (k : call) : evt -> io Q unit :=
  match k with
  | Idle _ => state_init
  | ModemRinging _ | SipRinging _ | SipDialing _ => state_incoming
  | ModemTalking _ | SipTalking _ _ => state_confirmed
  end.

Lemma call_rep_dir k c : call_rep k c -> (forall a, k <> Idle a) -> init_dir c <> INIT_NONE.
Proof.
  intros Hr Hk. destruct k; [by destruct (Hk armed)|..]; destruct Hr as [Hf _];
    by apply fields_eq in Hf as (_ & -> & _).
Qed.

(** The handler of the state moves the call. *)
Lemma handler_handles k ev v w :
  healthy w -> call_rep k (w_ctrl w) -> nonul (sip_peer (w_ctrl w)) ->
  (length (sip_peer (w_ctrl w)) < 245)%nat -> text_ok k ev v ->
  handles (handler_of k (Evt (Some ev) (Some v))) k ev v w.
Proof.
  intros Hw Hr Hp Hl Ht. pose proof (call_rep_dir k _ Hr) as Hdir.
  assert (Hidle : (exists a, k = Idle a) \/ (forall a, k <> Idle a))
    by (destruct k; [left; eauto|right; done..]).
  destruct Hidle as [[a ->]|Hk].
  - destruct ev; try (by apply handles_ret); [by apply init_clip|by apply init_sip|by apply init_mqtt].
  - specialize (Hdir Hk).
    assert (He : forall m, m = (handler_of k (Evt (Some ev) (Some v))) ->
      is_no_call ev = true \/ ev = EVT_SIP_DISCONNCTD -> handles m k ev v w).
    { intros m -> [He| ->].
      - assert (Hev : ev = EVT_MODEM_NO_CARRIER \/ ev = EVT_MODEM_NO_ANSWER \/ ev = EVT_MODEM_BUSY)
          by (destruct ev; try done; auto).
        destruct k; try (by destruct (Hk armed)); destruct Hev as [->|[->| ->]];
          by apply handles_hangup_sip.
      - destruct k; try (by destruct (Hk armed)); by apply handles_hangup_modem. }
    destruct ev; try (apply He; [done|by auto]); clear He;
      destruct k; try (by destruct (Hk armed)); try (by apply handles_ret).
    all: first [ by eapply incoming_colp; eauto | by eapply incoming_confirmed_sip; eauto
               | by apply incoming_confirmed_modem | by apply incoming_colp_modem ].
Qed.

(** ** The dispatcher *)

(** A handler the table still reaches after the state has changed does nothing on the event. *)
Lemma later_nothing ev v w :
  healthy w ->
  (ev = EVT_MODEM_CLIP \/ ev = EVT_SIP_INCOMING ->
     does (state_incoming (Evt (Some ev) v)) w (w_ctrl w) []) /\
  (ev = EVT_MODEM_COLP \/ ev = EVT_SIP_CONFIRMED ->
     does (state_confirmed (Evt (Some ev) v)) w (w_ctrl w) []).
Proof. intros Hw. split; intros [->| ->]; by apply does_ret. Qed.

(** The value of [siproxy.state] in a call. *)
Definition state_of (k : call) : STATE :=
  match k with
  | Idle _ => STATE_INIT
  | ModemRinging _ | SipRinging _ | SipDialing _ => STATE_INCOMING
  | ModemTalking _ | SipTalking _ _ => STATE_CONFIRMED
  end.

Lemma call_rep_state k c : call_rep k c -> state_ c = state_of k.
Proof. destruct k; intros [Hf _]; by apply fields_eq in Hf as (-> & _). Qed.

(** The state of the program after a step is the old one or INIT, or a later one on the events that
    lead there. *)
Lemma step_state k ev v :
  let s := state_of k in let s' := state_of (call_step k ev v).1 in
  s' = s \/ s' = STATE_INIT \/
  (s = STATE_INIT /\ s' = STATE_INCOMING /\ (ev = EVT_MODEM_CLIP \/ ev = EVT_SIP_INCOMING)) \/
  (s = STATE_INCOMING /\ s' = STATE_CONFIRMED /\ (ev = EVT_MODEM_COLP \/ ev = EVT_SIP_CONFIRMED)).
Proof. destruct k as [[]| | | | |], ev; cbn; auto 10. Qed.

Section Dispatch.
Variables (ev : EVENT) (v : list Z) (uuid : list Z).
Hypothesis Hsms : ev <> EVT_MODEM_SMS.
Hypothesis Hmqtt : ev <> EVT_MQTT_SMS.

(** The rest of the table after the handler at a position of it has run. *)
Lemma after_handler tbl w :
  healthy w -> Forall (fun p => p.1 <> state_ (w_ctrl w)) tbl ->
  does (state_loop tbl uuid (Evt (Some ev) (Some v))) w (w_ctrl w) [].
Proof. intros Hw Hf. by apply does_rest. Qed.

(** The rest of the table after a move to a later state [s], whose handler [f] does nothing. *)
Lemma after_move pre s f post w :
  healthy w -> state_ (w_ctrl w) = s -> Forall (fun p => p.1 <> s) pre -> Forall (fun p => p.1 <> s) post ->
  (forall w', healthy w' -> does (f (Evt (Some ev) (Some v))) w' (w_ctrl w') []) ->
  does (state_loop (pre ++ (s, f) :: post) uuid (Evt (Some ev) (Some v))) w (w_ctrl w) [].
Proof.
  intros Hw Hs Hpre Hpost Hf. induction Hpre as [|[s0 f0] pre Hs0 _ IH]; cbn [app].
  - eapply does_hit; try done; [by apply Hf| |by rewrite app_nil_l].
    intros w' Hw' E. rewrite <- E. apply after_handler; [done|]. by rewrite E, Hs.
  - apply does_skip; try done. simpl in Hs0. congruence.
Qed.

(** The handler at its place in the table. *)
Lemma at_handler pre s f post w c vs :
  healthy w -> state_ (w_ctrl w) = s -> Forall (fun p => p.1 <> s) pre ->
  does (f (Evt (Some ev) (Some v))) w c vs ->
  (forall w', healthy w' -> w_ctrl w' = c ->
     does (state_loop post uuid (Evt (Some ev) (Some v))) w' c []) ->
  does (state_loop (pre ++ (s, f) :: post) uuid (Evt (Some ev) (Some v))) w c vs.
Proof.
  intros Hw Hs Hpre Hf Hpost. induction Hpre as [|[s0 f0] pre Hs0 _ IH]; cbn [app].
  - eapply does_hit; try done. by rewrite app_nil_r.
  - apply does_skip; try done. simpl in Hs0. congruence.
Qed.

Ltac all_other := repeat constructor; simpl; congruence.

(** The dispatcher does what the handler of the state does, once. *)
Lemma state_handles k w :
  healthy w -> call_rep k (w_ctrl w) ->
  handles (handler_of k (Evt (Some ev) (Some v))) k ev v w ->
  handles (state uuid (Evt (Some ev) (Some v))) k ev v w.
Proof.
  intros Hw Hr (c' & Hd & Hr' & Hp). exists c'. split; [|done].
  pose proof (call_rep_state _ _ Hr) as Hs. pose proof (call_rep_state _ _ Hr') as Hs'.
  pose proof (step_state k ev v) as Hstep. cbv zeta in Hstep. rewrite <- Hs' in Hstep.
  unfold state, state_tbl.
  assert (Hk : (state_of k = STATE_INIT /\ handler_of k = state_init) \/
    (state_of k = STATE_INCOMING /\ handler_of k = state_incoming) \/
    (state_of k = STATE_CONFIRMED /\ handler_of k = state_confirmed)) by (destruct k; auto).
  destruct Hk as [[Hk Hh]|[[Hk Hh]|[Hk Hh]]]; rewrite Hk in Hs, Hstep; rewrite Hh in Hd.
  - apply (at_handler [] STATE_INIT); [done|done|constructor|done|]. intros w' Hw' <-.
    destruct Hstep as [E|[E|[(_ & E & Hev)|(? & _)]]]; [| | |done].
    1-2: apply after_handler; [done|]; rewrite E; all_other.
    apply (after_move [] STATE_INCOMING); [done|done|constructor|all_other|].
    intros w2 Hw2. by apply later_nothing.
  - apply (at_handler [_] STATE_INCOMING); [done|done|all_other|done|]. intros w' Hw' <-.
    destruct Hstep as [E|[E|[(? & _)|(_ & E & Hev)]]]; [| |done|].
    1-2: apply after_handler; [done|]; rewrite E; all_other.
    apply (after_move [_; _; _] STATE_CONFIRMED); [done|done|all_other|all_other|].
    intros w2 Hw2. by apply later_nothing.
  - apply (at_handler [_; _; _; _; _] STATE_CONFIRMED); [done|done|all_other|done|]. intros w' Hw' <-.
    destruct Hstep as [E|[E|[(? & _)|(? & _)]]]; [| |done|done];
      (apply after_handler; [done|]; rewrite E; all_other).
Qed.
End Dispatch.
End Calls.

(** ** The short messages *)

(** The lengths of the messages in decimal. *)
Lemma decimal_short z : 0 <= z < 512 -> nonul (decimal z) /\ (length (decimal z) <= 3)%nat.
Proof.
  revert z. all_below. decide_all.
Qed.

Lemma tpdu_len_eq v : (2 <= length v < VAL_SIZE)%nat -> tpdu_len v = (Z.of_nat (length v) - 2) / 2.
Proof.
  intros Hl. assert (H : 0 <= Z.of_nat (length v) - 2 < 1022) by size_lia.
  unfold tpdu_len, size_t, s32. rewrite (Z.mod_small _ (2 ^ 64)) by lia.
  assert (0 <= (Z.of_nat (length v) - 2) / 2 < 512) by (split; [apply Z.div_pos|apply Z.div_lt_upper_bound]; lia).
  rewrite Z.mod_small by lia. lia.
Qed.

(** The array of the message with its end mark, as a string. *)
Lemma sms_data v :
  nonul v -> (length v < VAL_SIZE)%nat ->
  cstr_array (<[length v := 26]> (snprintf BUF_SIZE v ++ replicate (BUF_SIZE - 1 - length v) 0)) =
    Ret (v ++ [26]).
Proof.
  intros Hn Hl. assert (HB : exists n, BUF_SIZE = S (length v + S n)).
  { exists (BUF_SIZE - length v - 2)%nat. size_lia. }
  destruct HB as [n ->]. simpl snprintf. rewrite take_ge by lia. rewrite <- app_assoc.
  replace (length v) with (length v + 0)%nat at 1 by lia. rewrite insert_app_r. simpl.
  replace (length v + S n - 0 - length v)%nat with (S n) by lia. simpl.
  change (26 :: 0 :: replicate n 0) with ([26] ++ 0 :: replicate n 0). rewrite app_assoc.
  apply cstr_array_spec. apply Forall_app. split; [done|]. by repeat constructor.
Qed.

Lemma does_send_sms {Q : Type} `{!MsgQueue Q} v (w : world Q) :
  healthy w -> nonul v -> (2 <= length v < VAL_SIZE)%nat ->
  does (modem_send_sms v (tpdu_len v)) w (w_ctrl w)
    (VUart <$> (str "AT+CMGS=" ++ decimal ((Z.of_nat (length v) - 2) / 2) ++ [13] ++ v ++ [26])).
Proof.
  intros Hw Hn Hl. rewrite (tpdu_len_eq v Hl).
  destruct (decimal_short ((Z.of_nat (length v) - 2) / 2)) as [Hd Hd3].
  { split; [apply Z.div_pos|apply Z.div_lt_upper_bound]; size_lia. }
  unfold modem_send_sms. set (d := decimal _) in *. clearbody d.
  assert (E : cstr (snprintf 128 (str "AT+CMGS=" ++ d ++ [13])) = str "AT+CMGS=" ++ d ++ [13]).
  { rewrite snprintf_cstr; [|by repeat (apply Forall_app; split); repeat constructor|lia].
    apply take_ge. rewrite !length_app. simpl. lia. }
  assert (Et : cstr (snprintf BUF_SIZE v) = v).
  { rewrite snprintf_cstr; [|done|size_lia]. apply take_ge. size_lia. }
  cbv zeta. rewrite Et, sms_data by (done || lia).
  replace (str "AT+CMGS=" ++ d ++ [13] ++ v ++ [26]) with ((str "AT+CMGS=" ++ d ++ [13]) ++ v ++ [26])
    by (by rewrite <- !app_assoc).
  rewrite fmap_app. apply does_seq; [done| |].
  - unfold modem_cmd128. rewrite E. by apply does_modem_cmd.
  - intros _ w1 Hw1 E1. rewrite <- E1. apply does_seq_nil; [done|by apply does_usleep|].
    intros _ w2 Hw2 E2. rewrite <- E2. eapply does_lift; [reflexivity|]. by apply does_modem_cmd.
Qed.

(** The first turn of the loop forwards a message. *)
Lemma loop_forwards_sms {Q : Type} `{!MsgQueue Q} s f tbl (w : world Q) v uuid :
  healthy w -> nonul v -> nonul uuid -> (2 <= length v < VAL_SIZE)%nat ->
  does (state_loop ((s, f) :: tbl) uuid (Evt (Some EVT_MODEM_SMS) (Some v))) w (w_ctrl w)
    [VPub (take 63 (TOPIC_SMS ++ str "/" ++ uuid)) v 1] /\
  does (state_loop ((s, f) :: tbl) uuid (Evt (Some EVT_MQTT_SMS) (Some v))) w (w_ctrl w)
    (VUart <$> (str "AT+CMGS=" ++ decimal ((Z.of_nat (length v) - 2) / 2) ++ [13] ++ v ++ [26])).
Proof.
  intros Hw Hn Hu Hl. cbn [state_loop]. split.
  - eapply does_lift; [reflexivity|]. eapply does_lift; [reflexivity|].
    rewrite snprintf_cstr; [|by repeat (apply Forall_app; split); repeat constructor|lia].
    rewrite <- (app_nil_r [VPub _ _ _]). apply does_seq; [done|by apply does_pub|].
    intros _ w1 Hw1 <-. by apply does_ret.
  - eapply does_lift; [reflexivity|]. eapply does_lift; [reflexivity|].
    rewrite <- (app_nil_r (VUart <$> _)). apply does_seq; [done|by apply does_send_sms|].
    intros _ w1 Hw1 <-. by apply does_ret.
Qed.

(** C23: short messages pass in both directions in every state of a call, which they do not change.  A
    message of the modem is published once, retained, under the topic of its time; a PDU of the MQTT
    peer goes to the modem once, as AT+CMGS with the length of its TPDU (half of the digits, without
    the byte of the service centre), then the text and the end mark. *)
Theorem state_forwards_sms {Q : Type} `{!MsgQueue Q} (w : world Q) (v uuid : list Z) :
  healthy w -> nonul v -> nonul uuid -> (2 <= length v < VAL_SIZE)%nat ->
  does (state uuid (Evt (Some EVT_MODEM_SMS) (Some v))) w (w_ctrl w)
    [VPub (take 63 (TOPIC_SMS ++ str "/" ++ uuid)) v 1] /\
  does (state uuid (Evt (Some EVT_MQTT_SMS) (Some v))) w (w_ctrl w)
    (VUart <$> (str "AT+CMGS=" ++ decimal ((Z.of_nat (length v) - 2) / 2) ++ [13] ++ v ++ [26])).
Proof.
  intros Hw Hn Hu Hl. unfold state, state_tbl. by apply loop_forwards_sms.
Qed.

Lemma state_forwards_sms_witness :
  let w := World siproxy_init queue_zero ∅ (telnet_init None 0 []) true [] [] [] [5] [] [] in
  does (state (str "170101") (Evt (Some EVT_MODEM_SMS) (Some (str "0011000B91")))) w siproxy_init
    [VPub (TOPIC_SMS ++ str "/170101") (str "0011000B91") 1] /\
  does (state (str "170101") (Evt (Some EVT_MQTT_SMS) (Some (str "0011000B91")))) w siproxy_init
    (VUart <$> (str "AT+CMGS=4" ++ [13] ++ str "0011000B91" ++ [26])).
Proof.
  intros w. refine (state_forwards_sms w (str "0011000B91") (str "170101") _ _ _ _).
  - split; [reflexivity|]. split; [reflexivity|]. repeat constructor.
  - unfold nonul. decide_all.
  - unfold nonul. decide_all.
  - split; [apply Nat.leb_le|apply Nat.ltb_lt]; vm_compute; reflexivity.
Defined.

(** What the text of an event must be: a short message is a string with a service centre that fits the
    array of an event, the other texts are what [text_ok] says. *)
Definition event_ok (uuid : list Z) (k : call) (ev : EVENT) (v : list Z) : Prop :=
  match ev with
  | EVT_MODEM_SMS | EVT_MQTT_SMS => nonul v /\ nonul uuid /\ (2 <= length v < VAL_SIZE)%nat
  | _ => text_ok k ev v
  end.

(** The dispatcher moves the call on any event, and shows what [call_event] says. *)
Definition dispatches {Q : Type} `{!MsgQueue Q} (uuid : list Z) (k : call) (ev : EVENT) (v : list Z)
    (w : world Q) (c' : siproxy_ctrl) : Prop :=
  does (state uuid (Evt (Some ev) (Some v))) w c'
    ((call_event uuid k ev v).2 ≫= render (sip_peer (w_ctrl w))) /\
  call_rep (call_event uuid k ev v).1 c' /\ sip_peer c' = sip_peer (w_ctrl w).

Lemma state_dispatches {Q : Type} `{!MsgQueue Q} (w : world Q) k ev v uuid :
  healthy w -> call_rep k (w_ctrl w) -> nonul (sip_peer (w_ctrl w)) ->
  (length (sip_peer (w_ctrl w)) < 245)%nat -> event_ok uuid k ev v ->
  exists c', dispatches uuid k ev v w c'.
Proof.
  intros Hw Hr Hp Hl Ht. unfold dispatches.
  assert (Hsms : ev = EVT_MODEM_SMS \/ ev = EVT_MQTT_SMS \/ ev <> EVT_MODEM_SMS /\ ev <> EVT_MQTT_SMS)
    by (destruct ev; auto).
  destruct Hsms as [->|[->|[H1 H2]]]; [exists (w_ctrl w)..|].
  1-2: destruct Ht as (Hn & Hu & Hlv); (split; [|done]); cbn [call_event snd mbind list_bind];
    rewrite app_nil_r; unfold state, state_tbl; by apply loop_forwards_sms.
  replace (call_event uuid k ev v) with (call_step k ev v) by (by destruct ev).
  apply state_handles; try done. apply handler_handles; try done. by destruct ev.
Qed.

(** C1: the state machine implements the abstract call, on every event, the short messages included.  In a
    healthy environment (writes and sends succeed, the MQTT client accepts messages), from a control
    block that represents the call [k], with a SIP peer of fewer than 245 bytes and an event whose text is
    a string that its handler can read ([event_ok]), the dispatcher returns, shows the outside exactly the
    effects [call_event] gives, in order, and leaves a control block that represents the next call.  So a
    handler runs once per event although the loop of [state] goes on through the table.  The order of a
    call is that of the code: a SIP call is answered before the modem dials. *)
Theorem state_implements_call {Q : Type} `{!MsgQueue Q} (w : world Q) (k : call) (ev : EVENT)
    (v uuid : list Z) :
  healthy w -> call_rep k (w_ctrl w) -> nonul (sip_peer (w_ctrl w)) ->
  (length (sip_peer (w_ctrl w)) < 245)%nat -> event_ok uuid k ev v ->
  exists c', does (state uuid (Evt (Some ev) (Some v))) w c'
      ((call_event uuid k ev v).2 ≫= render (sip_peer (w_ctrl w))) /\
    call_rep (call_event uuid k ev v).1 c' /\ sip_peer c' = sip_peer (w_ctrl w).
Proof. apply state_dispatches. Qed.

Lemma state_implements_call_witness :
  let c := set_conf [] (str "sip:bob") 3 4 siproxy_init in
  let w := World c queue_zero ∅ (telnet_init None 0 []) true [] [] [] [5] [] [] in
  let v := str "+CLIP: " ++ [34] ++ str "13800138000" ++ [34] ++ str ",129.." in
  exists c', does (state [] (Evt (Some EVT_MODEM_CLIP) (Some v))) w c'
      ([PubCaller (str "13800138000"); CallSip] ≫= render (str "sip:bob")) /\
    call_rep (ModemRinging None) c' /\ sip_peer c' = str "sip:bob".
Proof.
  intros c w v.
  refine (state_implements_call w (Idle None) EVT_MODEM_CLIP v [] _ _ _ _ _).
  - split; [reflexivity|]. split; [reflexivity|]. repeat constructor.
  - split; reflexivity.
  - unfold nonul. decide_all.
  - apply Nat.ltb_lt. vm_compute. reflexivity.
  - exists (str "13800138000" ++ replicate 245 0). split; [vm_compute; reflexivity|decide_all].
Defined.
