(* ===== verification/Program.v ===== *)
(** * Program: the program as a transition system

    The steps of the program of main.c (a turn of the main loop for the modem or for the SIP socket, a
    callback of the MQTT client, a turn of the event thread) interleaved with changes of the
    environment, the worlds they reach, and what holds in all of them whatever the environment does. *)

From Stdlib Require Import ZArith Lia String.
From stdpp Require Import base tactics numbers list gmap relations.
From S2P Require Import Prelude Match Queue QueueApi Telnet World Modem Events Sip Siproxy Frame.
From S2P Require Import Calls.

(** ** The control block between two events *)

(** The combinations of call state, direction, SIP state, modem state and MQTT state.  A call of the SIP
    side goes on only with a number of the MQTT peer. *)
Inductive phase : STATE -> CALL_INIT -> STATE -> STATE -> STATE -> Prop :=
| ph_idle q : q = STATE_INIT \/ q = STATE_INCOMING ->
    phase STATE_INIT INIT_NONE STATE_INIT STATE_INIT q
| ph_modem_ringing q : q = STATE_INIT \/ q = STATE_INCOMING ->
    phase STATE_INCOMING INIT_FROM_MODEM STATE_CALLING STATE_INCOMING q
| ph_modem_talking q : q = STATE_INIT \/ q = STATE_INCOMING ->
    phase STATE_CONFIRMED INIT_FROM_MODEM STATE_CONFIRMED STATE_CONFIRMED q
| ph_sip_ringing : phase STATE_INCOMING INIT_FROM_SIP STATE_INCOMING STATE_INIT STATE_INCOMING
| ph_sip_dialing : phase STATE_INCOMING INIT_FROM_SIP STATE_CONFIRMED STATE_CALLING STATE_INCOMING
| ph_sip_early : phase STATE_CONFIRMED INIT_FROM_SIP STATE_INCOMING STATE_CONFIRMED STATE_INCOMING
| ph_sip_talking : phase STATE_CONFIRMED INIT_FROM_SIP STATE_CONFIRMED STATE_CONFIRMED STATE_INCOMING.

Definition ctrl_ok (c : siproxy_ctrl) : Prop :=
  length (sim_num c) = SIM_NUM_SIZE /\
  phase (state_ c) (init_dir c) (sip_state c) (modem_state c) (mqtt_state c).

#[export] Hint Constructors phase : siproxy.

Section Program.
Context {Q : Type} `{!MsgQueue Q}.
Variable TERM : option (list Z).

(** ** The transition system *)

(** The world, and the arrays [buf] and [buffer] of [main]. *)
Record prog : Type := Prog {
  p_world : world Q;
  p_buf : list Z;
  p_buffer : list Z
}.

(** The environment may offer other inputs and results. *)
Definition env_change (w w' : world Q) : Prop :=
  exists r m wr s q, w' = set_mqtt q (set_sends s (set_writes wr (set_wmallocs m (set_uart r w)))).

Inductive step : prog -> prog -> Prop :=
| step_modem w buf buffer buf' w' :
    main_modem buf w = Ret (buf', w') -> step (Prog w buf buffer) (Prog w' buf' buffer)
| step_sip w buf buffer chunk buffer' w' :
    main_sip TERM buffer chunk w = Ret (buffer', w') ->
    step (Prog w buf buffer) (Prog w' buf buffer')
| step_mqtt w buf buffer topic payload len rc w' :
    msgarrvd topic payload len w = Ret (rc, w') -> step (Prog w buf buffer) (Prog w' buf buffer)
| step_connect w buf buffer w' :
    onConnect w = Ret (tt, w') -> step (Prog w buf buffer) (Prog w' buf buffer)
| step_connlost w buf buffer w' :
    connlost w = Ret (tt, w') -> step (Prog w buf buffer) (Prog w' buf buffer)
| step_event w buf buffer uuid w' :
    evt_handler_turn uuid w = Ret (tt, w') -> step (Prog w buf buffer) (Prog w' buf buffer)
| step_env w buf buffer w' :
    env_change w w' -> step (Prog w buf buffer) (Prog w' buf buffer).

(** The program after its initialization. *)
Definition started (peer uart_name : list Z) (fd sock : Z) (p : prog) : Prop :=
  exists w0, w_ctrl w0 = siproxy_init /\ mq_holds (w_queue w0) [] /\ w_evts w0 = ∅ /\
    main_init peer uart_name fd sock w0 = Ret (tt, p_world p).

Definition reachable (peer uart_name : list Z) (fd sock : Z) (p : prog) : Prop :=
  exists p0, started peer uart_name fd sock p0 /\ rtc step p0 p.

(** ** Where a call that returns leads *)

Definition leads {A} (m : io Q A) (w : world Q) (R : siproxy_ctrl -> Prop) : Prop :=
  forall a w', m w = Ret (a, w') -> R (w_ctrl w').

Lemma leads_bind {A B} (m : io Q A) (k : A -> io Q B) w R1 R :
  leads m w R1 -> (forall a w1, R1 (w_ctrl w1) -> leads (k a) w1 R) -> leads (ibind m k) w R.
Proof.
  intros Hm Hk b w' H. unfold ibind in H. apply obind_Ret in H as ([a w1] & H1 & H2).
  eapply Hk; [|exact H2]. by eapply Hm.
Qed.

Lemma leads_frame {A} (m : io Q A) w (R : siproxy_ctrl -> Prop) :
  io_keeps same_ctrl m -> R (w_ctrl w) -> leads m w R.
Proof. intros Hm HR a w' H. by rewrite (Hm _ _ _ H). Qed.

Lemma leads_frame_bind {A B} (m : io Q A) (k : A -> io Q B) w R :
  io_keeps same_ctrl m -> (forall a w1, w_ctrl w1 = w_ctrl w -> leads (k a) w1 R) ->
  leads (ibind m k) w R.
Proof. intros Hm Hk. apply (leads_bind _ _ _ (fun c => c = w_ctrl w)); [by apply leads_frame|done]. Qed.

Lemma leads_ctrl f w (R : siproxy_ctrl -> Prop) : R (f (w_ctrl w)) -> leads (ctrl f) w R.
Proof. intros HR a w' [= _ <-]. exact HR. Qed.

Lemma leads_ctrl_bind {B} f (k : unit -> io Q B) w R :
  (forall w1, w_ctrl w1 = f (w_ctrl w) -> leads (k tt) w1 R) -> leads (ibind (ctrl f) k) w R.
Proof.
  intros Hk. apply (leads_bind _ _ _ (fun c => c = f (w_ctrl w))); [by apply leads_ctrl|].
  intros [] w1 E. by apply Hk.
Qed.

Lemma leads_get {B} (k : world Q -> io Q B) w R : leads (k w) w R -> leads (ibind iget k) w R.
Proof. intros H. exact H. Qed.

Lemma leads_lift {A B} (o : outcome A) (k : A -> io Q B) w R :
  (forall a, o = Ret a -> leads (k a) w R) -> leads (ibind (ilift o) k) w R.
Proof.
  intros Hk b w' H. unfold ibind, ilift in H. apply obind_Ret in H as ([a w1] & H1 & H2).
  apply obind_Ret in H1 as (a' & -> & [= <- <-]). by eapply Hk.
Qed.

Lemma leads_ret {A} (a : A) w (R : siproxy_ctrl -> Prop) : R (w_ctrl w) -> leads (iret a) w R.
Proof. intros HR b w' [= _ <-]. exact HR. Qed.

(** The hang-ups end in a reset. *)
Lemma leads_hangups w R :
  R (siproxy_reset (w_ctrl w)) ->
  leads hangup_sip_and_reset w R /\ leads hangup_modem_and_reset w R.
Proof.
  intros HR. unfold hangup_sip_and_reset, hangup_modem_and_reset, sip_hangup_call.
  split; apply leads_get; (apply leads_frame_bind; [io_keeps_tac frame_tac|intros _ w1 E1]);
    (apply leads_frame_bind; [io_keeps_tac frame_tac|intros _ w2 E2]);
    apply leads_ctrl; by rewrite E2, E1.
Qed.

(** ** The handlers keep the control block sound *)

Lemma ctrl_ok_reset c : ctrl_ok (siproxy_reset c).
Proof. split; [apply length_replicate|]. simpl. auto with siproxy. Qed.

Lemma copy_number_length v n : copy_number v = Ret n -> length n = SIM_NUM_SIZE.
Proof.
  unfold copy_number. case_bool_decide; [done|]. intros [= <-]. rewrite length_app, length_replicate. lia.
Qed.

(** Follow a handler to its end. *)
Ltac leads_step :=
  unfold evt_event, evt_val; cbv beta iota zeta;
  lazymatch goal with
  | |- leads (ibind iget _) _ _ => apply leads_get
  | |- leads (ibind (ilift _) _) _ _ => apply leads_lift; intros ? ?
  | |- leads (ibind (ctrl _) _) _ _ => apply leads_ctrl_bind; intros ? ?
  | |- leads (ibind _ _) _ _ => apply leads_frame_bind; [solve [io_keeps_tac frame_tac]|intros ? ? ?]
  | |- leads (ctrl _) _ _ => apply leads_ctrl
  | |- leads (iret _) _ _ => apply leads_ret
  end.

(** The fields of the control blocks on the way, from the equations between them. *)
Ltac ctrl_eqs :=
  repeat match goal with H : w_ctrl _ = _ |- _ => rewrite H; clear H end; simpl.

Lemma state_init_ok e w :
  ctrl_ok (w_ctrl w) -> state_ (w_ctrl w) = STATE_INIT -> leads (state_init e) w ctrl_ok.
Proof.
  intros [Hlen Hph] Hs. pose proof Hph as Hph0. rewrite Hs in Hph.
  inversion Hph as [q Hq Hs' Hd Hsip Hmod Hmq| | | | | |]; subst q.
  unfold state_init, sip_make_call, sip_answer_call. leads_step.
  destruct a; try (leads_step; by split).
  - leads_step. rewrite <- Hd. rewrite bool_decide_eq_true_2 by done. repeat leads_step.
    ctrl_eqs. split; simpl; [done|auto with siproxy].
  - leads_step. rewrite <- Hd. destruct Hq as [Hq|Hq]; rewrite Hq; simpl.
    + leads_step. by split.
    + repeat leads_step. ctrl_eqs. split; simpl; [done|]. rewrite <- Hmod, Hq. constructor.
  - repeat leads_step. ctrl_eqs. split; simpl; [by eapply copy_number_length|].
    rewrite <- Hd, <- Hsip, <- Hmod, Hs. auto with siproxy.
Qed.

Lemma state_incoming_ok e w :
  ctrl_ok (w_ctrl w) -> state_ (w_ctrl w) = STATE_INCOMING -> leads (state_incoming e) w ctrl_ok.
Proof.
  intros [Hlen Hph] Hs. pose proof Hph as Hph0. rewrite Hs in Hph.
  destruct (leads_hangups w ctrl_ok (ctrl_ok_reset _)) as [Hh1 Hh2].
  unfold state_incoming. leads_step.
  destruct a; try (leads_step; by split); try done.
  - leads_step. inversion Hph as [|q Hq Hs' Hd Hsip Hmod Hmq| |Hs' Hd Hsip Hmod Hmq|Hs' Hd Hsip Hmod Hmq| |];
      simpl; repeat leads_step; try (by split);
      ctrl_eqs; (split; simpl; [done|rewrite <- Hd, <- Hsip, <- Hmq; constructor]).
  - leads_step. inversion Hph as [|q Hq Hs' Hd Hsip Hmod Hmq| |Hs' Hd Hsip Hmod Hmq|Hs' Hd Hsip Hmod Hmq| |];
      simpl.
    + repeat leads_step. ctrl_eqs. split; simpl; [done|]. rewrite <- Hd. by constructor.
    + apply (leads_bind _ _ _ (fun c => c = set_modem_state STATE_CALLING
        (set_sip_state STATE_CONFIRMED (w_ctrl w)))); [by repeat leads_step; ctrl_eqs|].
      intros _ w1 E1. leads_step. rewrite E1. split; simpl; [done|]. rewrite Hs, <- Hd, <- Hmq. constructor.
    + apply (leads_bind _ _ _ (fun c => c = set_modem_state STATE_CALLING
        (set_sip_state STATE_CONFIRMED (w_ctrl w)))); [by repeat leads_step; ctrl_eqs|].
      intros _ w1 E1. leads_step. rewrite E1. split; simpl; [done|]. rewrite Hs, <- Hd, <- Hmq. constructor.
Qed.

Lemma state_confirmed_ok e w :
  ctrl_ok (w_ctrl w) -> leads (state_confirmed e) w ctrl_ok.
Proof.
  intros Hok. destruct (leads_hangups w ctrl_ok (ctrl_ok_reset _)) as [Hh1 Hh2].
  unfold state_confirmed. leads_step. by destruct a; try (leads_step; done).
Qed.

Lemma state_nothing_ok e w : ctrl_ok (w_ctrl w) -> leads (state_nothing e) w ctrl_ok.
Proof. intros Hok. unfold state_nothing. repeat leads_step. done. Qed.

(** The dispatcher keeps what its handlers keep in their states. *)
Lemma state_loop_ok tbl uuid e w :
  Forall (fun p => forall w, ctrl_ok (w_ctrl w) -> state_ (w_ctrl w) = p.1 -> leads (p.2 e) w ctrl_ok) tbl ->
  ctrl_ok (w_ctrl w) -> leads (state_loop tbl uuid e) w ctrl_ok.
Proof.
  intros Ht. revert w. induction Ht as [|[s f] tbl Hf _ IH]; intros w Hw; cbn [state_loop].
  - by leads_step.
  - leads_step.
    assert (Hgo : leads (let+ w0 := iget in
      (if bool_decide (state_ (w_ctrl w0) = s) then f e else iret tt) >>> state_loop tbl uuid e) w ctrl_ok).
    { leads_step. eapply (leads_bind _ _ _ ctrl_ok); [|intros _ w1 H1; by apply IH].
      case_bool_decide as Hs; [by apply Hf|by leads_step]. }
    destruct a; try exact Hgo; repeat leads_step; by ctrl_eqs.
Qed.

Lemma state_ok uuid e w : ctrl_ok (w_ctrl w) -> leads (state uuid e) w ctrl_ok.
Proof.
  apply state_loop_ok. unfold state_tbl.
  repeat (apply Forall_cons; split; [intros w' Hw' Hs; simpl in Hs |- *; auto using state_init_ok,
    state_incoming_ok, state_confirmed_ok, state_nothing_ok|]).
  constructor.
Qed.

(** A relation of [EnvRel] holds across a change of the environment. *)
Lemma env_change_rel (P : world Q -> world Q -> Prop) `{!EnvRel P} w w' : env_change w w' -> P w w'.
Proof.
  intros (r & m & wr & s & q & ->).
  transitivity (set_uart r w); [apply env_uart|].
  transitivity (set_wmallocs m (set_uart r w)); [apply env_mallocs|].
  transitivity (set_writes wr (set_wmallocs m (set_uart r w))); [apply env_writes|].
  transitivity (set_sends s (set_writes wr (set_wmallocs m (set_uart r w)))); [apply env_sends|].
  apply env_mqtt.
Qed.

Lemma free_evt_ctrl a : io_keeps (@same_ctrl Q) (free_evt a).
Proof. unfold free_evt. io_keeps_tac frame_tac. Qed.
#[local] Hint Resolve free_evt_ctrl : frame.

Lemma evt_handler_ok uuid w : ctrl_ok (w_ctrl w) -> leads (evt_handler_turn uuid) w ctrl_ok.
Proof.
  intros Hok. unfold evt_handler_turn. leads_step.
  destruct (0 <? _); [|apply leads_frame; [frame_tac|done]].
  apply leads_lift. intros [[ret msg] q] _. leads_step.
  destruct (ret =? 0); [|apply leads_frame; [frame_tac|by rewrite H]].
  repeat leads_step. eapply leads_bind; [apply state_ok|].
  - by ctrl_eqs.
  - intros _ w3 H3. apply leads_frame; [frame_tac|done].
Qed.

Lemma step_ctrl_ok p p' : step p p' -> ctrl_ok (w_ctrl (p_world p)) -> ctrl_ok (w_ctrl (p_world p')).
Proof.
  intros Hstep Hok. destruct Hstep as [? ? ? ? ? H|? ? ? ? ? ? H|? ? ? ? ? ? ? ? H|? ? ? ? H|? ? ? ? H|
    ? ? ? ? ? H|? ? ? ? H]; simpl in *.
  - by rewrite (main_modem_frame same_ctrl _ _ _ _ H).
  - by rewrite (main_sip_frame same_ctrl _ _ _ _ _ _ H).
  - by rewrite (msgarrvd_frame same_ctrl _ _ _ _ _ _ H).
  - by rewrite (onConnect_frame same_ctrl _ _ _ H).
  - by rewrite (connlost_frame same_ctrl _ _ _ H).
  - by eapply evt_handler_ok.
  - by rewrite (env_change_rel same_ctrl _ _ H).
Qed.

Lemma modem_init_frame (P : world Q -> world Q -> Prop) `{!EnvRel P} : io_keeps P modem_init.
Proof. unfold modem_init. io_keeps_tac frame_tac. Qed.

Lemma mqtt_init_frame (P : world Q -> world Q -> Prop) `{!EnvRel P} : io_keeps P mqtt_init.
Proof. unfold mqtt_init, out. io_keeps_tac frame_tac. Qed.

Lemma started_ctrl_ok peer uart_name fd sock p :
  started peer uart_name fd sock p -> ctrl_ok (w_ctrl (p_world p)).
Proof.
  intros (w0 & Hc & _ & _ & H). revert H. cut (leads (main_init peer uart_name fd sock) w0 ctrl_ok);
    [intros HL; apply HL|].
  pose proof (modem_init_frame same_ctrl). pose proof (mqtt_init_frame same_ctrl).
  unfold main_init. repeat leads_step. ctrl_eqs.
  split; simpl; [apply length_replicate|auto with siproxy].
Qed.

(** ** The events in memory *)

(** A message of the queue points to an allocated event of its kind. *)
Definition entry_ok (h : gmap nat evt) (x : option nat * Z) : Prop :=
  exists a ev v, x = (Some a, event_code ev) /\ h !! a = Some (Evt (Some ev) v).

(** The events [held] by a running routine and the queued ones are allocated and all different. *)
Definition events_ok (held : list nat) (w : world Q) : Prop :=
  exists l, mq_holds (w_queue w) l /\ Forall (entry_ok (w_evts w)) l /\
    NoDup (held ++ omap fst l) /\ Forall (fun a => is_Some (w_evts w !! a)) held.

Definition events_rel (w w' : world Q) : Prop := forall held, events_ok held w -> events_ok held w'.

#[export] Instance events_rel_env : EnvRel events_rel.
Proof.
  split; try (by intros w ? held H). split; [by intros w held H|].
  intros w1 w2 w3 H1 H2 held H. by apply H2, H1.
Qed.

(** From [Pre], when [m] returns, [Post] holds. *)
Definition triple {A} (Pre : world Q -> Prop) (m : io Q A) (Post : A -> world Q -> Prop) : Prop :=
  forall w a w', Pre w -> m w = Ret (a, w') -> Post a w'.

Lemma triple_bind {A B} Pre (m : io Q A) (k : A -> io Q B) Mid Post :
  triple Pre m Mid -> (forall a, triple (Mid a) (k a) Post) -> triple Pre (ibind m k) Post.
Proof.
  intros Hm Hk w b w' HP H. unfold ibind in H. apply obind_Ret in H as ([a w1] & H1 & H2).
  eapply Hk; [|exact H2]. by eapply Hm.
Qed.

Lemma triple_frame {A} held (m : io Q A) :
  io_keeps events_rel m -> triple (events_ok held) m (fun _ => events_ok held).
Proof. intros Hm w a w' HP H. by eapply Hm. Qed.

Lemma triple_frame_bind {A B} held (m : io Q A) (k : A -> io Q B) Post :
  io_keeps events_rel m -> (forall a, triple (events_ok held) (k a) Post) ->
  triple (events_ok held) (ibind m k) Post.
Proof. intros Hm Hk. eapply triple_bind; [by apply triple_frame|done]. Qed.

Lemma triple_ret {A} (Pre : world Q -> Prop) (a : A) Post :
  (forall w, Pre w -> Post a w) -> triple Pre (iret a) Post.
Proof. intros H w b w' HP [= <- <-]. by apply H. Qed.

Lemma entry_ok_in h l a : Forall (entry_ok h) l -> a ∈ omap fst l -> is_Some (h !! a).
Proof.
  intros Hl Ha. apply list_elem_of_omap in Ha as (x & Hx & Hfst).
  rewrite Forall_forall in Hl. destruct (Hl x Hx) as (b & ev & v & -> & Hb). simplify_eq/=. eauto.
Qed.

(** Entries do not change when another event does. *)
Lemma entries_frame h h' l :
  (forall a, a ∈ omap fst l -> h' !! a = h !! a) -> Forall (entry_ok h) l -> Forall (entry_ok h') l.
Proof.
  intros Hh Hl. apply Forall_forall. intros x Hx. rewrite Forall_forall in Hl.
  destruct (Hl x Hx) as (a & ev & v & -> & Ha). exists a, ev, v. split; [done|].
  rewrite Hh; [done|]. apply list_elem_of_omap. by exists (Some a, event_code ev).
Qed.

Lemma triple_malloc_evt held :
  triple (events_ok held) malloc_evt
    (fun r w => match r with Some a => events_ok (a :: held) w | None => events_ok held w end).
Proof.
  unfold malloc_evt. apply triple_frame_bind; [frame_tac|]. intros [].
  - intros w r w' (l & Hq & Hl & Hnd & Hh) H. unfold ibind, iget, imod, iret in H.
    cbn [obind] in H. injection H as <- <-. set (a := fresh (dom (w_evts w))).
    assert (Ha : w_evts w !! a = None) by (apply not_elem_of_dom, is_fresh).
    assert (Hne : a ∉ held ++ omap fst l).
    { intros [Hin|Hin]%elem_of_app.
      - rewrite Forall_forall in Hh. destruct (Hh a Hin). congruence.
      - destruct (entry_ok_in _ _ _ Hl Hin). congruence. }
    exists l. split_and!; simpl.
    + done.
    + eapply entries_frame; [|exact Hl]. intros b Hb. apply lookup_insert_ne. set_solver.
    + by constructor.
    + constructor; [by rewrite lookup_insert_eq|]. eapply Forall_impl; [exact Hh|].
      intros b Hb. simpl in Hb. apply lookup_insert_is_Some'. by right.
  - by apply triple_ret.
Qed.

(** Writing a held event. *)
Lemma triple_store_evt held a e :
  a ∈ held -> triple (events_ok held) (store_evt a e) (fun _ => events_ok held).
Proof.
  intros Ha. unfold store_evt. apply triple_frame_bind; [frame_tac|]. intros _.
  intros w r w' (l & Hq & Hl & Hnd & Hh) H. unfold imod in H. injection H as _ <-.
  exists l. split_and!; simpl; [done| |done|].
  - eapply entries_frame; [|exact Hl]. intros b Hb. apply lookup_insert_ne. intros <-.
    apply NoDup_app in Hnd as (_ & Hd & _). by apply (Hd a).
  - eapply Forall_impl; [exact Hh|]. intros b Hb. simpl in Hb. apply lookup_insert_is_Some'. by right.
Qed.

(** Handing a held event over to the queue, or leaking it when the queue has no memory. *)
Lemma triple_queue_add_evt held a :
  triple (events_ok (a :: held)) (queue_add_evt a) (fun _ => events_ok held).
Proof.
  intros w r w' (l & Hq & Hl & Hnd & Hh) H. unfold queue_add_evt, ibind in H.
  apply obind_Ret in H as ([e w1] & H1 & H). unfold load_evt, ibind, iget, ilift in H1. cbn [obind] in H1.
  destruct (w_evts w !! a) as [e'|] eqn:Ea; [|done]. cbn in H1. injection H1 as <- <-.
  apply obind_Ret in H as ([t w1] & H1 & H). unfold ilift in H1.
  destruct e' as [[t'|] v]; [|done]. cbn in H1. injection H1 as <- <-.
  apply obind_Ret in H as ([ok w1] & H1 & H).
  assert (E1 : w_queue w1 = w_queue w /\ w_evts w1 = w_evts w).
  { unfold next_malloc in H1. destruct (w_mallocs w); by injection H1 as _ <-. }
  destruct E1 as [Eq Ee]. cbn [iget obind] in H. unfold ilift in H.
  apply Forall_cons in Hh as [_ Hh]. simpl in Hnd. apply NoDup_cons in Hnd as [Hna Hnd]. rewrite Eq in H.
  destruct (mq_add_law ok (w_queue w) (Some a) (event_code t') l Hq) as [(q & E & Hq')|(_ & q & E & Hq')];
    rewrite E in H; cbn [obind] in H; unfold imod in H; injection H as _ <-;
    unfold events_ok; cbn [w_evts w_queue set_events]; rewrite Ee.
  - exists (l ++ [(Some a, event_code t')]). split_and!; simpl; [done| | |done].
    + apply Forall_app. split; [done|]. constructor; [|done]. by exists a, t', v.
    + rewrite omap_app, app_assoc. simpl. apply NoDup_app. split; [done|].
      split; [|by apply NoDup_singleton].
      intros b Hb Hb'. apply list_elem_of_singleton in Hb' as ->. done.
  - by exists l.
Qed.

Lemma triple_free_evt held a :
  triple (events_ok (a :: held)) (free_evt a) (fun _ => events_ok held).
Proof.
  unfold free_evt. apply triple_frame_bind; [frame_tac|]. intros _.
  intros w r w' (l & Hq & Hl & Hnd & Hh) H. unfold imod in H. injection H as _ <-.
  apply Forall_cons in Hh as [_ Hh]. simpl in Hnd. apply NoDup_cons in Hnd as [Hna Hnd].
  exists l. split_and!; simpl; [done| |done|].
  - eapply entries_frame; [|exact Hl]. intros b Hb. apply lookup_delete_ne. set_solver.
  - apply Forall_forall. intros b Hb. rewrite Forall_forall in Hh.
    rewrite lookup_delete_ne; [by apply Hh|]. set_solver.
Qed.

Lemma triple_keeps {A} (m : io Q A) :
  (forall held, triple (events_ok held) m (fun _ => events_ok held)) -> io_keeps events_rel m.
Proof. intros Hm w a w' H held Hok. by eapply Hm. Qed.

(** Follow a routine that holds events. *)
Ltac triple_step :=
  cbv beta iota zeta;
  lazymatch goal with
  | |- triple _ (iret _) _ => by apply triple_ret
  | |- triple _ (ibind malloc_evt _) _ => eapply triple_bind; [apply triple_malloc_evt|intros [|]]
  | |- triple _ (ibind (store_evt _ _) _) _ =>
      eapply triple_bind; [apply triple_store_evt; apply list_elem_of_here|intros ?]
  | |- triple _ (queue_add_evt _) _ => apply triple_queue_add_evt
  | |- triple _ (ibind (ilift _) _) _ => apply triple_frame_bind; [io_keeps_tac frame_tac|intros ?]
  | |- triple _ (ibind _ _) _ => apply triple_frame_bind; [solve [io_keeps_tac frame_tac]|intros ?]
  | |- triple _ (if ?b then _ else _) _ => destruct b
  end.

Lemma sms_loop_events fuel held a : forall buffer,
  triple (events_ok (a :: held)) (sms_loop fuel a buffer) (fun _ => events_ok (a :: held)).
Proof.
  induction fuel as [|fuel IH]; intros buffer; cbn [sms_loop].
  - apply triple_frame. apply io_keeps_fail.
  - triple_step. destruct a0 as [n buffer1]. repeat (triple_step || apply IH).
Qed.

#[export] Instance events_rel_evt : EvtRel events_rel.
Proof.
  split; [apply _|..].
  - intros t size text. apply triple_keeps. intros held. unfold new_event. repeat triple_step.
  - intros buf. apply triple_keeps. intros held. unfold modem_event_sms_queue.
    set (m := match_ _ _). clearbody m. set (c := strstr _ _). clearbody c.
    repeat triple_step. eapply triple_bind; [apply sms_loop_events|intros ?]. repeat triple_step.
Qed.

(** ** The dispatcher and the events *)

(** The queue and the events are the same. *)
Definition same_events (w w' : world Q) : Prop :=
  w_queue w' = w_queue w /\ w_evts w' = w_evts w.

#[export] Instance same_events_env : EnvRel same_events.
Proof.
  split; try done. split; [done|]. intros w1 w2 w3 [H1 H2] [H3 H4]. split; congruence.
Qed.

Section StateFrame.
Context (P : world Q -> world Q -> Prop) `{!EnvRel P}.
Hypothesis ctrl_rel : forall f w, P w (set_ctrl f w).

Lemma ctrl_frame f : io_keeps P (ctrl f).
Proof. unfold ctrl. apply io_keeps_mod. apply ctrl_rel. Qed.
#[local] Hint Resolve ctrl_frame : frame.

Lemma hangups_frame : io_keeps P hangup_sip_and_reset /\ io_keeps P hangup_modem_and_reset.
Proof.
  unfold hangup_sip_and_reset, hangup_modem_and_reset, sip_hangup_call. split; io_keeps_tac frame_tac.
Qed.

Lemma state_frame uuid e : io_keeps P (state uuid e).
Proof.
  destruct hangups_frame as [Hh1 Hh2].
  assert (Hf : Forall (fun p => io_keeps P (p.2 e)) state_tbl).
  { unfold state_tbl. repeat (apply Forall_cons; split); [..|constructor]; simpl;
      unfold state_init, state_incoming, state_confirmed, state_calling, state_early, state_connecting,
        state_disconnctd, state_terminated, state_unknow, state_nothing, evt_event, evt_val,
        sip_make_call, sip_answer_call; io_keeps_tac frame_tac. }
  unfold state. induction Hf as [|[s f] tbl Hf _ IH]; cbn [state_loop]; [io_keeps_tac frame_tac|].
  simpl in Hf. unfold evt_event, evt_val. io_keeps_tac frame_tac.
Qed.
End StateFrame.

(** Take a run of the monad apart. *)
Lemma ibind_Ret {A B} (m : io Q A) (k : A -> io Q B) w r :
  ibind m k w = Ret r -> exists a w1, m w = Ret (a, w1) /\ k a w1 = Ret r.
Proof. intros H. unfold ibind in H. apply obind_Ret in H as ([a w1] & H1 & H2). eauto. Qed.

Lemma ilift_Ret {A} (o : outcome A) (w : world Q) r : ilift o w = Ret r -> o = Ret r.1 /\ r.2 = w.
Proof. intros H. apply obind_Ret in H as (a & -> & [= <-]). done. Qed.

Lemma load_evt_Ret a (w : world Q) r : load_evt a w = Ret r -> w_evts w !! a = Some r.1 /\ r.2 = w.
Proof.
  intros H. unfold load_evt in H. apply ibind_Ret in H as (w1 & w2 & [= -> ->] & H).
  apply ilift_Ret in H as [H ->]. split; [|done]. destruct (w_evts w2 !! a) as [e|]; [|done].
  simpl in H. congruence.
Qed.

(** A turn of the event thread on a queue with a message. *)
Lemma turn_takes uuid w a c l w' :
  mq_holds (w_queue w) ((Some a, c) :: l) -> evt_handler_turn uuid w = Ret (tt, w') ->
  mq_holds (w_queue w') l /\ w_evts w' = delete a (w_evts w).
Proof.
  intros Hq H. unfold evt_handler_turn in H.
  apply ibind_Ret in H as (w0 & w1 & [= <- <-] & H).
  assert (E0 : (0 <? mq_length (w_queue w)) = true).
  { rewrite (mq_length_law _ _ Hq), length_cons. apply Z.ltb_lt. lia. }
  rewrite E0 in H. cbn iota in H. destruct (mq_get_law _ _ _ _ Hq) as (q' & n & E & Hq'). rewrite E in H.
  apply ibind_Ret in H as (r & w1 & H1 & H). apply ilift_Ret in H1 as [[= <-] H1]. simpl in H1. subst w1.
  apply ibind_Ret in H as ([] & w1 & [= <-] & H). change (0 =? 0) with true in H. cbn iota in H.
  apply ibind_Ret in H as (m & w1 & H1 & H). apply ilift_Ret in H1 as [[= <-] H1]. simpl in H1. subst w1.
  apply ibind_Ret in H as (b & w1 & H1 & H). apply ilift_Ret in H1 as [[= <-] H1]. simpl in H1. subst w1.
  apply ibind_Ret in H as (e & w1 & [_ H1]%load_evt_Ret & H). simpl in H1. subst w1.
  apply ibind_Ret in H as ([] & w2 & H2 & H).
  apply (state_frame same_events) in H2 as [Eq Ee]; [|done].
  unfold free_evt in H. apply ibind_Ret in H as (e2 & w3 & [_ H3]%load_evt_Ret & H). simpl in H3. subst w3.
  assert (E' : w' = set_events (w_queue w2) (delete a (w_evts w2)) w2) by (unfold imod in H; congruence).
  subst w'. split.
  - change (mq_holds (w_queue w2) l). rewrite Eq. exact Hq'.
  - change (delete a (w_evts w2) = delete a (w_evts w)). rewrite Ee. reflexivity.
Qed.

Lemma turn_idles uuid w w' :
  mq_holds (w_queue w) [] -> evt_handler_turn uuid w = Ret (tt, w') -> same_events w w'.
Proof.
  intros Hq H. unfold evt_handler_turn in H. apply ibind_Ret in H as (w0 & w1 & [= <- <-] & H).
  rewrite (mq_length_law _ _ Hq) in H. by apply (usleep_frame same_events) in H.
Qed.

Lemma turn_events uuid w w' :
  events_ok [] w -> evt_handler_turn uuid w = Ret (tt, w') -> events_ok [] w'.
Proof.
  intros (l & Hq & Hl & Hnd & _) H. destruct l as [|x l].
  - destruct (turn_idles _ _ _ Hq H) as [Eq Ee]. exists []. by rewrite Eq.
  - pose proof Hl as [Hx Hl']%Forall_cons. destruct Hx as (a & ev & v & -> & Ha).
    destruct (turn_takes _ _ _ _ _ _ Hq H) as [Hq' Ee]. simpl in Hnd. apply NoDup_cons in Hnd as [Hna Hnd].
    exists l. split_and!; [done| |done|constructor]. rewrite Ee. eapply entries_frame; [|exact Hl'].
    intros b Hb. apply lookup_delete_ne. by intros <-.
Qed.

Lemma step_events p p' : step p p' -> events_ok [] (p_world p) -> events_ok [] (p_world p').
Proof.
  intros Hstep Hok. destruct Hstep as [? ? ? ? ? H|? ? ? ? ? ? H|? ? ? ? ? ? ? ? H|? ? ? ? H|? ? ? ? H|
    ? ? ? ? ? H|? ? ? ? H]; simpl in *.
  - by eapply (main_modem_frame events_rel).
  - by eapply (main_sip_frame events_rel).
  - by eapply (msgarrvd_frame events_rel).
  - by eapply (onConnect_frame events_rel).
  - by eapply (connlost_frame events_rel).
  - by eapply turn_events.
  - by eapply (env_change_rel events_rel).
Qed.

Lemma started_events peer uart_name fd sock p :
  started peer uart_name fd sock p -> events_ok [] (p_world p).
Proof.
  intros (w0 & _ & Hq & Hev & H).
  assert (Hk : io_keeps same_events (main_init peer uart_name fd sock)).
  { pose proof (modem_init_frame same_events). pose proof (mqtt_init_frame same_events).
    assert (forall f, io_keeps same_events (ctrl f)) by (intros f; by apply io_keeps_mod).
    unfold main_init. io_keeps_tac frame_tac. }
  destruct (Hk _ _ _ H) as [Eq Ee]. exists []. rewrite Eq. split_and!; [done|constructor..].
Qed.
(** A turn whose handler returns: it takes the message, handles it and frees its event. *)
Lemma turn_does uuid w a c l e (R : siproxy_ctrl -> Prop) vs :
  mq_holds (w_queue w) ((Some a, c) :: l) -> w_evts w !! a = Some e ->
  (forall w' : world Q, healthy w' -> w_ctrl w' = w_ctrl w ->
     exists c', does (state uuid e) w' c' vs /\ R c') -> healthy w ->
  exists c' q' o s, R c' /\ evt_handler_turn uuid w =
      Ret (tt, set_events q' (delete a (w_evts w)) (add_out o (set_sends s (set_ctrl (fun _ => c') w)))) /\
    mq_holds q' l /\ view o = vs.
Proof.
  intros Hq Ha Hst Hw. destruct (mq_get_law _ _ _ _ Hq) as (q' & n & E & Hq').
  destruct (Hst (set_events q' (w_evts w) w)) as (c' & ([] & o & s & Es & _ & Hv) & HR); [exact Hw|done|].
  exists c', q', o, s. split; [done|]. split; [|done].
  assert (E0 : (0 <? mq_length (w_queue w)) = true).
  { rewrite (mq_length_law _ _ Hq), length_cons. apply Z.ltb_lt. lia. }
  unfold evt_handler_turn. unfold ibind at 1. unfold iget at 1. cbn [obind]. rewrite E0, E.
  unfold ibind at 1. cbn [ilift obind].
  unfold ibind at 1. unfold imod at 1. cbn [obind]. change (0 =? 0) with true. cbn iota.
  unfold ibind at 1. cbn [ilift obind deref].
  unfold ibind at 1. cbn [ilift obind deref msg_data].
  assert (Hload : forall w', w_evts w' !! a = Some e -> load_evt (Q:=Q) a w' = Ret (e, w')).
  { intros w' H. unfold load_evt, ibind, iget, ilift. cbn [obind]. by rewrite H. }
  unfold ibind at 1. rewrite Hload by exact Ha. cbn [obind].
  unfold ibind at 1. rewrite Es. cbn [obind].
  unfold free_evt. unfold ibind. rewrite Hload by exact Ha. cbn [obind]. unfold imod. done.
Qed.
End Program.

(** A program that starts: the modem answers OK to each of the eight commands. *)
Definition example_world : world queue :=
  World siproxy_init queue_zero ∅ (telnet_init None 0 []) false
    (concat (replicate 8 (RdByte <$> str "OK" ++ [13; 10]))) [] [] [] [] [].

Definition example_prog : prog :=
  Prog (default example_world
      match main_init (str "sip:bob") (str "/dev/ttyUSB0") 3 4 example_world with
      | Ret (_, w) => Some w | _ => None end) [] [].

Lemma example_started : started (str "sip:bob") (str "/dev/ttyUSB0") 3 4 example_prog.
Proof.
  exists example_world. split; [reflexivity|]. split; [apply holds_zero|]. split; [reflexivity|].
  vm_compute. reflexivity.
Qed.

(** The MQTT peer has sent the number to call. *)
Definition example_called : prog :=
  Prog (match msgarrvd TOPIC_BOB_CALLING (str "10086" ++ [0]) 5 (p_world example_prog) with
        | Ret (_, w) => w | _ => example_world end) [] [].

Lemma example_reachable : reachable None (str "sip:bob") (str "/dev/ttyUSB0") 3 4 example_called.
Proof.
  exists example_prog. split; [apply example_started|]. eapply rtc_l; [|apply rtc_refl].
  eapply (step_mqtt None (p_world example_prog) [] [] TOPIC_BOB_CALLING (str "10086" ++ [0]) 5 1).
  vm_compute. reflexivity.
Qed.

(** A queue with one message. *)
Definition example_queue : queue :=
  match queue_add true queue_zero (Some 0%nat) (event_code EVT_MQTT_CALLING) with
  | Ret (_, q) => q | _ => queue_zero end.

Lemma example_queue_holds : holds example_queue [(Some 0%nat, event_code EVT_MQTT_CALLING)].
Proof.
  destruct (queue_add_holds true _ (Some 0%nat) (event_code EVT_MQTT_CALLING) _ holds_zero)
    as [(q & E & H & _)|(_ & E & _)]; [|done].
  unfold example_queue. rewrite E. exact H.
Qed.

(** C3: in every state the program can reach, whatever the modem, the SIP program, the MQTT broker and
    the memory do, the control block is in one of the phases of a call: the call state, the side
    that started it and the states of the two sides and of MQTT go together, the states no handler
    is written for are never entered, and a call of the SIP side is going on only with a number of
    the MQTT peer to dial.  The number never leaves its array. *)
Theorem control_block_sound {Q : Type} `{!MsgQueue Q} (TERM : option (list Z)) (peer uart_name : list Z)
    (fd sock : Z) (p : prog) :
  reachable TERM peer uart_name fd sock p -> ctrl_ok (w_ctrl (p_world p)).
Proof.
  intros (p0 & Hs & Hr). apply started_ctrl_ok in Hs.
  induction Hr as [p|p1 p2 p3 Hstep _ IH]; [done|]. by eapply IH, step_ctrl_ok.
Qed.

Lemma control_block_sound_witness : ctrl_ok (w_ctrl (p_world example_called)).
Proof. refine (control_block_sound None _ _ _ _ _ example_reachable). Defined.

(** C4: in every reachable state the queue and the allocated events are in order: each message of the
    queue points to its own event, which is allocated, not freed and holds the kind the message
    announces.  So no event is queued twice or freed while it waits. *)
Theorem queued_events_sound {Q : Type} `{!MsgQueue Q} (TERM : option (list Z)) (peer uart_name : list Z)
    (fd sock : Z) (p : prog) :
  reachable TERM peer uart_name fd sock p -> events_ok [] (p_world p).
Proof.
  intros (p0 & Hs & Hr). apply started_events in Hs.
  induction Hr as [p|p1 p2 p3 Hstep _ IH]; [done|]. by eapply IH, step_events.
Qed.

Lemma queued_events_sound_witness : events_ok [] (p_world example_called).
Proof. refine (queued_events_sound None _ _ _ _ _ example_reachable). Defined.

(** A turn of the event thread handles the oldest message and frees its event, once: after a turn
    that returns, from a state with sound events, the queue holds the other messages, in order, the
    other events are untouched, and the freed event is in none of the messages left; on an empty
    queue nothing changes. *)
Theorem event_freed_once {Q : Type} `{!MsgQueue Q} (uuid : list Z) (w w' : world Q) :
  events_ok [] w -> evt_handler_turn uuid w = Ret (tt, w') ->
  (exists a c l, mq_holds (w_queue w) ((Some a, c) :: l) /\ is_Some (w_evts w !! a) /\
     mq_holds (w_queue w') l /\ w_evts w' = delete a (w_evts w) /\ a ∉ omap fst l) \/
  (mq_holds (w_queue w) [] /\ mq_holds (w_queue w') [] /\ w_evts w' = w_evts w).
Proof.
  intros (l & Hq & Hl & Hnd & _) H. destruct l as [|x l].
  - right. destruct (turn_idles _ _ _ Hq H) as [Eq Ee]. by rewrite Eq.
  - left. apply Forall_cons in Hl as [(a & ev & v & -> & Ha) _].
    destruct (turn_takes _ _ _ _ _ _ Hq H) as [Hq' Ee].
    exists a, (event_code ev), l. split_and!; [done|by rewrite Ha|done..|].
    simpl in Hnd. by apply NoDup_cons in Hnd as [? _].
Qed.

Definition example_world1 : world queue :=
  World (set_conf [] (str "sip:bob") 3 4 siproxy_init) example_queue
    {[0%nat := Evt (Some EVT_MQTT_CALLING) (Some (str "10086"))]} (telnet_init None 0 []) true
    [] [] [] [] [] [].

Lemma event_freed_once_witness :
  exists w', (exists a c l, mq_holds example_queue ((Some a, c) :: l) /\
    is_Some (w_evts example_world1 !! a) /\
    mq_holds (w_queue w') l /\ w_evts w' = delete a (w_evts example_world1) /\ a ∉ omap fst l) \/
  (mq_holds example_queue [] /\ mq_holds (w_queue w') [] /\ w_evts w' = w_evts example_world1).
Proof.
  eexists. refine (event_freed_once [] example_world1 _ _ _).
  - exists [(Some 0%nat, event_code EVT_MQTT_CALLING)]. split; [exact example_queue_holds|].
    split; [|split; [decide_all|constructor]]. constructor; [|constructor].
    exists 0%nat, EVT_MQTT_CALLING, (Some (str "10086")). split; reflexivity.
  - vm_compute. reflexivity.
Defined.

(** C2: a turn of the event thread implements a step of the abstract call, on every event, the short
    messages included.  In a healthy environment (writes and sends succeed, the MQTT client accepts
    messages), when the oldest message points to an event whose text its handler can read ([event_ok]),
    the SIP peer has fewer than 245 bytes and the control block represents the call [k], the turn returns;
    it takes that message alone, frees its event, shows the outside what [call_event] says, in order, and
    leaves a control block that represents the next call. *)
Theorem event_turn_implements_call {Q : Type} `{!MsgQueue Q} (w : world Q) (a : nat) (c : Z) (l : fifo)
    (k : call) (ev : EVENT) (v uuid : list Z) :
  mq_holds (w_queue w) ((Some a, c) :: l) -> w_evts w !! a = Some (Evt (Some ev) (Some v)) ->
  healthy w -> call_rep k (w_ctrl w) -> nonul (sip_peer (w_ctrl w)) ->
  (length (sip_peer (w_ctrl w)) < 245)%nat -> event_ok uuid k ev v ->
  exists w' o, evt_handler_turn uuid w = Ret (tt, w') /\
    mq_holds (w_queue w') l /\ w_evts w' = delete a (w_evts w) /\
    call_rep (call_event uuid k ev v).1 (w_ctrl w') /\
    w_out w' = w_out w ++ o /\ view o = (call_event uuid k ev v).2 ≫= render (sip_peer (w_ctrl w)).
Proof.
  intros Hq Ha Hw Hr Hp Hl Ht.
  destruct (turn_does uuid w a c l (Evt (Some ev) (Some v)) (call_rep (call_event uuid k ev v).1)
    ((call_event uuid k ev v).2 ≫= render (sip_peer (w_ctrl w)))) as (c' & q' & o & s & Hc & E & Hq' & Hv);
    [done|done| |done|].
  { intros w1 Hw1 E. rewrite <- E in Hr, Hp, Hl |- *.
    destruct (state_dispatches w1 k ev v uuid) as (c' & Hd & Hr' & _); [done..|]. by exists c'. }
  eexists _, o. rewrite E. split; [done|]. by destruct w.
Qed.

Lemma event_turn_implements_call_witness :
  exists w' o, evt_handler_turn [] example_world1 = Ret (tt, w') /\
    mq_holds (w_queue w') [] /\ w_evts w' = delete 0%nat (w_evts example_world1) /\
    call_rep (Idle (Some (str "10086"))) (w_ctrl w') /\
    w_out w' = w_out example_world1 ++ o /\ view o = [].
Proof.
  refine (event_turn_implements_call example_world1 _ _ _ (Idle None) EVT_MQTT_CALLING (str "10086") []
    example_queue_holds _ _ _ _ _ _).
  - reflexivity.
  - split; [reflexivity|]. split; [reflexivity|constructor].
  - split; reflexivity.
  - unfold nonul. decide_all.
  - apply Nat.ltb_lt. vm_compute. reflexivity.
  - split; [unfold nonul; decide_all|apply Nat.ltb_lt; vm_compute; reflexivity].
Defined.
