(* ===== verification/Utf8.v ===== *)
(** * Utf8: the UTF-8 validation of the MQTT client (utf-8.c)

    [UTF8_char_validate], [UTF8_validate] and [UTF8_validateString] on a memory block, compared with
    the encoding of Unicode scalar values (RFC 3629). *)

From Stdlib Require Import ZArith Lia String.
From stdpp Require Import base tactics numbers list.
From S2P Require Import Prelude.

(** ** The code *)

(** The ranges of the bytes of a character, with their number. *)
Definition valid_ranges : list (Z * list (Z * Z)) :=
  [ (1, [(0x00, 0x7F)]);
    (2, [(0xC2, 0xDF); (0x80, 0xBF)]);
    (3, [(0xE0, 0xE0); (0xA0, 0xBF); (0x80, 0xBF)]);
    (3, [(0xE1, 0xEC); (0x80, 0xBF); (0x80, 0xBF)]);
    (3, [(0xED, 0xED); (0x80, 0x9F); (0x80, 0xBF)]);
    (3, [(0xEE, 0xEF); (0x80, 0xBF); (0x80, 0xBF)]);
    (4, [(0xF0, 0xF0); (0x90, 0xBF); (0x80, 0xBF); (0x80, 0xBF)]);
    (4, [(0xF1, 0xF3); (0x80, 0xBF); (0x80, 0xBF); (0x80, 0xBF)]);
    (4, [(0xF4, 0xF4); (0x80, 0x8F); (0x80, 0xBF); (0x80, 0xBF)]) ].

(** The number of bytes the first one announces. *)
Definition charlen (b : Z) : Z :=
  if Z.land b 128 =? 0 then 1
  else if Z.land b 0xF0 =? 0xF0 then 4
  else if Z.land b 0xE0 =? 0xE0 then 3
  else 2.

(** The inner loop, over the bytes from [data] on; the comparisons are of signed characters. *)
Fixpoint check_row (ranges : list (Z * Z)) (data : list Z) : outcome bool :=
  match ranges with
  | [] => Ret true
  | (lower, upper) :: ranges' =>
      let! b := deref (head data) in
      if (schar b <? schar lower) || (schar upper <? schar b) then Ret false
      else check_row ranges' (tail data)
  end.

(** The outer loop: some row for this number of bytes has to match. *)
Fixpoint check_rows (rows : list (Z * list (Z * Z))) (n : Z) (data : list Z) : outcome bool :=
  match rows with
  | [] => Ret false
  | (rowlen, ranges) :: rows' =>
      if rowlen =? n then
        let! good := check_row ranges data in
        if good : bool then Ret true else check_rows rows' n data
      else check_rows rows' n data
  end.

(** The distance to the next character, or [None] for the NULL pointer. *)
Definition UTF8_char_validate (len : Z) (data : list Z) : outcome (option nat) :=
  let! b := deref (head data) in
  let n := charlen b in
  if len <? n then Ret None
  else
    let! good := check_rows valid_ranges n data in
    Ret (if good : bool then Some (Z.to_nat n) else None).

(** The loop of [UTF8_validate]; [curdata] is [data + cur].  A character takes at least one byte, so
    that [len] turns are enough. *)
Fixpoint validate_loop (fuel : nat) (len : Z) (data : list Z) (cur : nat) : outcome bool :=
  match fuel with
  | O => Ret false
  | S fuel' =>
      let! r := UTF8_char_validate len (drop cur data) in
      match r with
      | None => Ret false
      | Some n =>
          if Z.of_nat (cur + n) <? len then validate_loop fuel' len data (cur + n) else Ret true
      end
  end.

Definition UTF8_validate (len : Z) (data : list Z) : outcome bool :=
  if len =? 0 then Ret true else validate_loop (Z.to_nat len) len data 0.

(** [strlen] runs out of a block without a NUL. *)
Definition UTF8_validateString (string : list Z) : outcome bool :=
  if bool_decide (0 ∈ string) then UTF8_validate (s32 (Z.of_nat (strlen string))) string else Fault.

(** ** The encoding *)

(** Unicode scalar values. *)
Definition scalar (c : Z) : Prop := 0 <= c < 0xD800 \/ 0xE000 <= c <= 0x10FFFF.

Definition utf8 (c : Z) : list Z :=
  if c <? 0x80 then [c]
  else if c <? 0x800 then [0xC0 + c / 64; 0x80 + c mod 64]
  else if c <? 0x10000 then [0xE0 + c / 4096; 0x80 + (c / 64) mod 64; 0x80 + c mod 64]
  else [0xF0 + c / 262144; 0x80 + (c / 4096) mod 64; 0x80 + (c / 64) mod 64; 0x80 + c mod 64].

(** ** The check of one character *)

Lemma charlen_eq b :
  is_byte b -> charlen b = if b <? 128 then 1 else if b <? 224 then 2 else if b <? 240 then 3 else 4.
Proof.
  unfold is_byte. revert b. all_below. decide_all.
Qed.

(** A byte in a range. *)
Definition in_range (r : Z * Z) (b : Z) : Prop := fst r <= b <= snd r.

(** The ranges of the table lie on one side of 128, where signed and unsigned order agree. *)
Definition range_ok (r : Z * Z) : Prop := 0 <= fst r <= snd r /\ (snd r < 128 \/ 128 <= fst r /\ snd r < 256).

#[local] Instance range_ok_dec r : Decision (range_ok r).
Proof. unfold range_ok. apply _. Defined.

Lemma ranges_ok : Forall (fun row => Forall range_ok (snd row)) valid_ranges.
Proof. decide_all. Qed.

Lemma in_range_schar r b :
  range_ok r -> is_byte b ->
  (schar b <? schar (fst r)) || (schar (snd r) <? schar b) = false <-> in_range r b.
Proof.
  intros [? Hr] Hb. unfold in_range, is_byte, schar in *. rewrite orb_false_iff.
  repeat case_bool; split; intros; split; try lia; reflexivity || lia.
Qed.

Lemma check_row_true ranges : forall data,
  Forall range_ok ranges -> Forall is_byte data ->
  check_row ranges data = Ret true <-> exists l r, data = l ++ r /\ Forall2 in_range ranges l.
Proof.
  induction ranges as [|[lo hi] ranges IH]; intros data Hr Hd; cbn [check_row].
  - split; [intros _; by exists [], data|done].
  - apply Forall_cons in Hr as [Hr0 Hr]. destruct Hd as [|b data Hb Hd]; simpl.
    + split; [done|]. intros (l & r & E & HF). by inversion HF; subst.
    + destruct (_ || _) eqn:E.
      * split; [done|]. intros (l & r & El & HF). inversion HF as [|? b' ? l' Hb' ? ]; simplify_eq/=.
        apply (in_range_schar (lo, hi) b') in Hb'; [|done..]. simpl in Hb'. congruence.
      * apply (in_range_schar (lo, hi) b) in E; [|done..]. rewrite IH by done. split.
        -- intros (l & r & -> & HF). exists (b :: l), r. by split; [|constructor].
        -- intros (l & r & El & HF). inversion HF as [|? b' ? l' Hb' HF']; simplify_eq/=. by exists l', r.
Qed.

(** With enough bytes the check does not read beyond the block. *)
Lemma check_row_enough ranges : forall data,
  (length ranges <= length data)%nat -> exists b, check_row ranges data = Ret b.
Proof.
  induction ranges as [|[lo hi] ranges IH]; intros data Hl; cbn [check_row]; [eauto|].
  destruct data as [|b data]; simpl in *; [lia|]. destruct (_ || _); [eauto|]. apply IH. lia.
Qed.

(** A NUL ends the check: it is in none of the ranges after the first. *)
Lemma check_row_nul ranges : forall s rest,
  Forall (fun r => 0 < fst r) ranges -> Forall range_ok ranges ->
  exists b, check_row ranges (s ++ 0 :: rest) = Ret b.
Proof.
  induction ranges as [|[lo hi] ranges IH]; intros s rest H0 Hr; cbn [check_row]; [eauto|].
  apply Forall_cons in H0 as [H0 H0']. apply Forall_cons in Hr as [Hr Hr']. simpl in H0.
  destruct s as [|c s]; simpl.
  - destruct (_ || _) eqn:E; [eauto|]. apply (in_range_schar (lo, hi) 0) in E; [|done|unfold is_byte; lia].
    unfold in_range in E. simpl in E. lia.
  - destruct (_ || _); eauto.
Qed.

(** The rows for [n] bytes, when each can be checked. *)
Lemma check_rows_spec rows n data :
  Forall (fun row => row.1 = n -> exists b, check_row row.2 data = Ret b) rows ->
  exists b, check_rows rows n data = Ret b /\
    (b = true <-> Exists (fun row => row.1 = n /\ check_row row.2 data = Ret true) rows).
Proof.
  induction 1 as [|[m ranges] rows Hrow _ (b & E & IH)]; cbn [check_rows].
  - exists false. split; [done|]. by rewrite Exists_nil.
  - simpl in Hrow. destruct (Z.eqb_spec m n) as [->|Hne].
    + destruct (Hrow eq_refl) as [good Eg]. rewrite Eg. cbn [obind]. destruct good.
      * exists true. split; [done|]. split; [|done]. intros _. by left.
      * exists b. split; [done|]. rewrite IH, Exists_cons. simpl. rewrite Eg.
        split; [by right|]. by intros [[_ ?]|?].
    + exists b. split; [done|]. rewrite IH, Exists_cons. simpl. split; [by right|]. by intros [[? _]|?].
Qed.

(** A row that matches gives a scalar value. *)
Lemma row_scalar n ranges l :
  (n, ranges) ∈ valid_ranges -> Forall2 in_range ranges l ->
  exists c, scalar c /\ l = utf8 c /\ Z.of_nat (length l) = n.
Proof.
  intros Hin HF. unfold valid_ranges in Hin.
  repeat match goal with
  | H : _ ∈ _ :: _ |- _ => apply elem_of_cons in H as [H|H]; [injection H as -> ->|]
  | H : _ ∈ [] |- _ => by apply elem_of_nil in H
  | H : Forall2 _ (_ :: _) _ |- _ => inversion H; subst; clear H
  | H : Forall2 _ [] _ |- _ => inversion H; subst; clear H
  end; unfold in_range in *; simpl in *;
    match goal with
    | |- exists c, _ /\ [?a] = _ /\ _ => exists a
    | |- exists c, _ /\ [?a; ?b] = _ /\ _ => exists ((a - 0xC0) * 64 + (b - 0x80))
    | |- exists c, _ /\ [?a; ?b; ?d] = _ /\ _ =>
        exists ((a - 0xE0) * 4096 + (b - 0x80) * 64 + (d - 0x80))
    | |- exists c, _ /\ [?a; ?b; ?d; ?e] = _ /\ _ =>
        exists ((a - 0xF0) * 262144 + (b - 0x80) * 4096 + (d - 0x80) * 64 + (e - 0x80))
    end; (split; [unfold scalar; lia|]); (split; [|done]);
    unfold utf8; repeat case_bool; try lia; repeat f_equal; divlia.
Qed.

(** The place in the table of the row of a scalar value. *)
Definition row_index (c : Z) : nat :=
  if c <? 0x80 then 0
  else if c <? 0x800 then 1
  else if c <? 0x1000 then 2
  else if c <? 0xD000 then 3
  else if c <? 0xE000 then 4
  else if c <? 0x10000 then 5
  else if c <? 0x40000 then 6
  else if c <? 0x100000 then 7
  else 8.

Lemma scalar_row c :
  scalar c -> exists ranges, valid_ranges !! row_index c = Some (Z.of_nat (length (utf8 c)), ranges) /\
    Forall2 in_range ranges (utf8 c).
Proof.
  intros Hc. unfold scalar in Hc. unfold utf8, row_index.
  repeat case_bool; try lia; simpl; eexists; (split; [reflexivity|]);
    repeat (constructor; [unfold in_range; simpl; divlia|]); constructor.
Qed.

Lemma utf8_head c :
  scalar c -> exists b l, utf8 c = b :: l /\ is_byte b /\ charlen b = Z.of_nat (length (utf8 c)).
Proof.
  intros Hc. unfold scalar in Hc. unfold utf8.
  repeat case_bool; try lia; eexists _, _; (split; [reflexivity|]);
    match goal with |- is_byte ?b /\ _ => assert (Hb : is_byte b) by (unfold is_byte; divlia) end;
    (split; [done|]); rewrite charlen_eq by done; simpl; repeat case_bool; divlia || done.
Qed.

Lemma utf8_nonul c : scalar c -> c <> 0 -> nonul (utf8 c).
Proof.
  intros Hc H0. unfold scalar in Hc. unfold utf8. repeat case_bool; repeat constructor; divlia.
Qed.

Lemma check_rows_true rows n data :
  check_rows rows n data = Ret true ->
  exists ranges, (n, ranges) ∈ rows /\ check_row ranges data = Ret true.
Proof.
  induction rows as [|[m ranges] rows IH]; cbn [check_rows]; [done|].
  destruct (Z.eqb_spec m n) as [->|_].
  - intros H. apply obind_Ret in H as ([] & E & H).
    + exists ranges. split; [apply elem_of_cons; by left|done].
    + destruct (IH H) as (r & ? & ?). exists r. split; [apply elem_of_cons; by right|done].
  - intros H. destruct (IH H) as (r & ? & ?). exists r. split; [apply elem_of_cons; by right|done].
Qed.

Lemma row_ranges_ok n ranges :
  (n, ranges) ∈ valid_ranges ->
  Forall range_ok ranges /\ Forall (fun r => 0 < fst r) (tail ranges) /\ length ranges = Z.to_nat n.
Proof.
  intros H.
  assert (Ht : Forall (fun row : Z * list (Z * Z) => Forall range_ok row.2 /\
    Forall (fun r => 0 < fst r) (tail row.2) /\ length row.2 = Z.to_nat row.1) valid_ranges).
  { decide_all. }
  rewrite Forall_forall in Ht. exact (Ht _ H).
Qed.

(** An accepted character is the encoding of a scalar value. *)
Lemma char_validate_sound len data n :
  Forall is_byte data -> UTF8_char_validate len data = Ret (Some n) ->
  exists c r, scalar c /\ data = utf8 c ++ r /\ n = length (utf8 c).
Proof.
  intros Hd H. unfold UTF8_char_validate in H. apply obind_Ret in H as (b & Eb & H).
  destruct (len <? charlen b); [done|]. apply obind_Ret in H as ([] & E & H); [|done].
  apply check_rows_true in E as (ranges & Hin & E). injection H as <-.
  destruct (row_ranges_ok _ _ Hin) as (Hok & _).
  apply check_row_true in E as (l & r & -> & HF); [|done..].
  destruct (row_scalar _ _ _ Hin HF) as (c & Hc & -> & Hl). exists c, r.
  split; [done|]. split; [done|]. lia.
Qed.

Lemma char_validate_complete len c r :
  scalar c -> Forall is_byte (utf8 c ++ r) -> Z.of_nat (length (utf8 c)) <= len ->
  UTF8_char_validate len (utf8 c ++ r) = Ret (Some (length (utf8 c))).
Proof.
  intros Hc Hb Hl. destruct (utf8_head c Hc) as (b & l & E & _ & Hn).
  destruct (scalar_row c Hc) as (ranges & Hrow & HF).
  destruct (check_rows_spec valid_ranges (Z.of_nat (length (utf8 c))) (utf8 c ++ r)) as (good & Eg & Hg).
  { apply Forall_forall. intros [m rs] Hin Hm. simpl in Hm. subst m.
    apply check_row_enough. cbn [snd]. destruct (row_ranges_ok _ _ Hin) as (_ & _ & ->).
    rewrite length_app. lia. }
  assert (Ht : good = true).
  { apply Hg, Exists_exists. eexists. split; [eapply list_elem_of_lookup_2, Hrow|]. split; [done|].
    simpl. apply check_row_true; [|done|by exists (utf8 c), r].
    eapply (row_ranges_ok _ _), list_elem_of_lookup_2, Hrow. }
  unfold UTF8_char_validate. rewrite E at 1. cbn [app head deref obind]. rewrite Hn.
  destruct (Z.ltb_spec len (Z.of_nat (length (utf8 c)))); [lia|].
  rewrite Eg, Ht. cbn [obind]. by rewrite Nat2Z.id.
Qed.

(** Before a NUL the check stays inside the string. *)
Lemma char_validate_nul len s rest :
  s <> [] -> nonul s -> Forall is_byte (s ++ 0 :: rest) ->
  exists o, UTF8_char_validate len (s ++ 0 :: rest) = Ret o.
Proof.
  intros Hs Hn Hb. destruct s as [|b s]; [done|]. unfold UTF8_char_validate. cbn [app head deref obind].
  destruct (len <? charlen b); [eauto|].
  destruct (check_rows_spec valid_ranges (charlen b) (b :: s ++ 0 :: rest)) as (good & -> & _); [|simpl; eauto].
  apply Forall_forall. intros [m rs] Hin _. destruct (row_ranges_ok _ _ Hin) as (Hok & H0 & _). cbn [snd].
  destruct rs as [|[lo hi] rs]; [by exists true|]. cbn [check_row head deref obind tail].
  destruct (_ || _); [eauto|]. apply check_row_nul; [done|]. by apply Forall_cons in Hok as [_ ?].
Qed.

Lemma prefix_nonul (l s rest r : list Z) :
  nonul l -> l ++ r = s ++ 0 :: rest -> exists k, s = l ++ k /\ r = k ++ 0 :: rest.
Proof.
  intros Hl E. symmetry in E. apply app_eq_app in E as (k & [[-> ->]|[-> Hk]]); [by exists k|].
  destruct k as [|z k]; [exists []; by rewrite !app_nil_r|]. injection Hk as <- ->.
  apply Forall_app in Hl as [_ Hl]. by apply Forall_cons in Hl as [? _].
Qed.

(** ** Strings *)

Definition is_utf8 (s : list Z) : Prop := exists cs, Forall scalar cs /\ s = cs ≫= utf8.

Lemma is_utf8_cons s :
  s <> [] -> is_utf8 s <-> exists c r, scalar c /\ s = utf8 c ++ r /\ is_utf8 r.
Proof.
  intros Hs. split.
  - intros ([|c cs] & Hcs & ->); [done|]. apply Forall_cons in Hcs as [Hc Hcs].
    exists c, (cs ≫= utf8). split; [done|]. split; [done|]. by exists cs.
  - intros (c & r & Hc & -> & cs & Hcs & ->). exists (c :: cs). split; [by constructor|done].
Qed.

Lemma utf8_prefix_unique len c r n :
  scalar c -> Forall is_byte (utf8 c ++ r) -> Z.of_nat (length (utf8 c)) <= len ->
  UTF8_char_validate len (utf8 c ++ r) = Ret n -> n = Some (length (utf8 c)).
Proof. intros Hc Hb Hl H. rewrite char_validate_complete in H by done. by injection H. Qed.

Lemma validate_loop_spec fuel : forall s cur rest,
  nonul s -> Forall is_byte (s ++ 0 :: rest) -> (cur < length s)%nat -> (length s - cur <= fuel)%nat ->
  exists b, validate_loop fuel (Z.of_nat (length s)) (s ++ 0 :: rest) cur = Ret b /\
    (b = true <-> is_utf8 (drop cur s)).
Proof.
  induction fuel as [|fuel IH]; intros s cur rest Hn Hb Hc Hf; [lia|]. cbn [validate_loop].
  assert (Hne : drop cur s <> []) by (intros E; apply (f_equal length) in E; rewrite length_drop in E; simpl in E; lia).
  rewrite drop_app_le by lia.
  assert (Hb' : Forall is_byte (drop cur s ++ 0 :: rest)).
  { rewrite <- drop_app_le by lia. by apply Forall_drop. }
  assert (Hn' : nonul (drop cur s)) by by apply Forall_drop.
  destruct (char_validate_nul (Z.of_nat (length s)) (drop cur s) rest Hne Hn' Hb') as [o Eo].
  rewrite Eo. cbn [obind]. destruct o as [n|].
  - pose proof Eo as Eo'. apply char_validate_sound in Eo' as (c & r & Hs & Er & ->); [|done].
    assert (H0 : c <> 0).
    { intros ->. destruct (drop cur s) as [|z l]; [done|]. simpl in Er. injection Er as -> _.
      by apply Forall_cons in Hn' as [? _]. }
    symmetry in Er. apply prefix_nonul in Er as (k & Ek & ->); [|by apply utf8_nonul].
    assert (Hk : drop (cur + length (utf8 c)) s = k).
    { rewrite <- drop_drop, Ek. by rewrite drop_app_length. }
    assert (Hlen : length s = (cur + length (utf8 c) + length k)%nat).
    { apply (f_equal length) in Ek. rewrite length_drop, length_app in Ek. lia. }
    assert (Hstep : is_utf8 (drop cur s) <-> is_utf8 k).
    { rewrite is_utf8_cons by done. split; [|by exists c, k].
      intros (c' & r' & Hc' & Er' & Hr'). rewrite Er', <- app_assoc in Eo, Hb'.
      apply utf8_prefix_unique in Eo; [|done|done|].
      - injection Eo as Eo. rewrite Ek in Er'. apply app_inj_1 in Er' as [_ ->]; [done|congruence].
      - apply (f_equal length) in Er'. rewrite length_drop, length_app in Er'. lia. }
    destruct (Z.ltb_spec (Z.of_nat (cur + length (utf8 c))) (Z.of_nat (length s))).
    + destruct (IH s (cur + length (utf8 c))%nat rest) as (b & E & Hiff); [done|done|lia| |].
      { destruct (utf8_head c Hs) as (? & ? & -> & _). simpl. lia. }
      exists b. split; [done|]. by rewrite Hiff, Hk, Hstep.
    + exists true. split; [done|]. split; [|done]. intros _. apply Hstep.
      destruct k; [by exists []|simpl in Hlen; lia].
  - exists false. split; [done|]. split; [done|]. rewrite is_utf8_cons by done.
    intros (c & r & Hs & Er & _). rewrite Er, <- app_assoc in Eo, Hb'.
    apply utf8_prefix_unique in Eo; [done|done|done|].
    apply (f_equal length) in Er. rewrite length_drop, length_app in Er. lia.
Qed.

(** The whole of a C string. *)
Lemma validateString_run (s rest : list Z) :
  nonul s -> Forall is_byte (s ++ 0 :: rest) -> Z.of_nat (length s) < 2 ^ 31 ->
  exists b, UTF8_validateString (s ++ 0 :: rest) = Ret b /\
    (b = true <-> exists cs, Forall scalar cs /\ s = cs ≫= utf8).
Proof.
  intros Hn Hb Hl. unfold UTF8_validateString. rewrite bool_decide_eq_true_2
    by (apply elem_of_app; right; apply elem_of_cons; by left).
  unfold strlen. rewrite cstr_app_nul, s32_id by (done || lia). unfold UTF8_validate.
  destruct s as [|c s]; [exists true; split; [done|]; split; [by exists []|done]|].
  set (s0 := c :: s) in *. assert (Hs : (0 < length s0)%nat) by (simpl; lia).
  destruct (Z.eqb_spec (Z.of_nat (length s0)) 0); [lia|]. rewrite Nat2Z.id.
  apply (validate_loop_spec (length s0) s0 0 rest); [done|done|done|lia].
Qed.

(** C32: [UTF8_validateString] accepts exactly UTF-8.  On a C string of fewer than 2^31 bytes, wherever it
    lies, it returns without reading beyond the NUL; its answer is true when and only when the
    string is the encoding of a sequence of Unicode scalar values. *)
Theorem UTF8_validateString_correct (s rest : list Z) :
  nonul s -> Forall is_byte (s ++ 0 :: rest) -> Z.of_nat (length s) < 2 ^ 31 ->
  exists b, UTF8_validateString (s ++ 0 :: rest) = Ret b /\
    (b = true <-> exists cs, Forall scalar cs /\ s = cs ≫= utf8).
Proof. apply validateString_run. Qed.

Lemma UTF8_validateString_correct_witness :
  exists b, UTF8_validateString ([0x41; 0xE2; 0x89; 0xA2; 0xCE; 0x91; 0x2E] ++ 0 :: [0x80]) = Ret b /\
    (b = true <-> exists cs, Forall scalar cs /\ [0x41; 0xE2; 0x89; 0xA2; 0xCE; 0x91; 0x2E] = cs ≫= utf8).
Proof.
  refine (UTF8_validateString_correct [0x41; 0xE2; 0x89; 0xA2; 0xCE; 0x91; 0x2E] [0x80] _ _ _).
  - decide_all.
  - decide_all.
  - vm_compute. reflexivity.
Defined.

(** [UTF8_validate] on a block that is not ended by a NUL: the length handed on is that of the whole
    block, so that a truncated last character is completed with the bytes beyond it. *)
Lemma truncated_accepted :
  UTF8_validate 2 [0x61; 0xC3; 0xA9] = Ret true /\ ~ is_utf8 [0x61; 0xC3] /\
  UTF8_validate 2 [0x61; 0xC3] = Fault.
Proof.
  split; [reflexivity|]. split; [|reflexivity]. intros (cs & Hcs & E).
  destruct cs as [|c cs]; [done|]. apply Forall_cons in Hcs as [Hc Hcs]. unfold scalar in Hc.
  simpl in E. unfold utf8 in E at 1. repeat case_bool; simplify_eq/=; try divlia.
  destruct cs as [|c' cs]; [done|]. apply Forall_cons in Hcs as [Hc' _]. unfold scalar in Hc'.
  match goal with H : [195] = _ |- _ => simpl in H; unfold utf8 in H; rename H into E' end.
  repeat case_bool; simplify_eq/=; divlia.
Qed.
