(* ===== verification/MqttPacket.v ===== *)
(** * MqttPacket: building and reading MQTT packets (MQTTPacket.c, MQTTPacketOut.c)

    The fixed header, the remaining length, the fields of the variable headers, the constructors of
    the packets that are received and the bytes of the packets that are sent.  Reading and writing go
    through pointers into a block of memory; an access beyond the block is undefined. *)

From Stdlib Require Import ZArith Lia String.
From stdpp Require Import base tactics numbers list.
From S2P Require Import Prelude.

(** ** Packet types and the header byte *)

Definition CONNECT : Z := 1.
Definition CONNACK : Z := 2.
Definition PUBLISH : Z := 3.
Definition PUBACK : Z := 4.
Definition PUBREC : Z := 5.
Definition PUBREL : Z := 6.
Definition PUBCOMP : Z := 7.
Definition SUBSCRIBE : Z := 8.
Definition SUBACK : Z := 9.
Definition UNSUBSCRIBE : Z := 10.
Definition UNSUBACK : Z := 11.
Definition PINGREQ : Z := 12.
Definition PINGRESP : Z := 13.
Definition DISCONNECT : Z := 14.

(** The bit fields of the header byte. *)
Definition hd_type (b : Z) : Z := Z.land (Z.shiftr b 4) 15.
Definition hd_dup (b : Z) : Z := Z.land (Z.shiftr b 3) 1.
Definition hd_qos (b : Z) : Z := Z.land (Z.shiftr b 1) 3.
Definition hd_retain (b : Z) : Z := Z.land b 1.

(** A header byte from its bit fields; an assignment to a bit field keeps its low bits. *)
Definition Header (type dup qos retain : Z) : Z :=
  Z.lor (Z.shiftl (Z.land type 15) 4)
    (Z.lor (Z.shiftl (Z.land dup 1) 3) (Z.lor (Z.shiftl (Z.land qos 3) 1) (Z.land retain 1))).

(** ** The remaining length *)

(** The loop of [MQTTPacket_encode]; five digits are enough for an [int]. *)
Fixpoint encode_loop (fuel : nat) (length : Z) : list Z :=
  match fuel with
  | O => []
  | S fuel' =>
      let d := u8 (Z.rem length 128) in
      let length1 := Z.quot length 128 in
      if 0 <? length1 then Z.lor d 0x80 :: encode_loop fuel' length1 else [d]
  end.

Definition MQTTPacket_encode (length : Z) : list Z := encode_loop 5 length.

(** ** Reading *)

(** [readInt (&curdata)] for [curdata = mem + cur]. *)
Definition readInt (mem : list Z) (cur : nat) : outcome (Z * nat) :=
  let! a := deref (mem !! cur) in
  let! b := deref (mem !! S cur) in
  Ret (256 * a + b, (cur + 2)%nat).

Definition readChar (mem : list Z) (cur : nat) : outcome (Z * nat) :=
  let! a := deref (mem !! cur) in Ret (a, S cur).

(** [memcpy] out of a block. *)
Definition read_bytes (mem : list Z) (cur n : nat) : outcome (list Z) :=
  if bool_decide (cur + n <= length mem)%nat then Ret (take n (drop cur mem)) else Fault.

(** The string with its length, or NULL, and the position after it; a length that overruns
    [enddata] is consumed. *)
Definition readUTFlen (mem : list Z) (cur enddata : nat) : outcome (option (list Z * Z) * nat) :=
  if bool_decide (cur + 1 < enddata)%nat then
    let! (len, cur1) := readInt mem cur in
    if Z.of_nat cur1 + len <=? Z.of_nat enddata then
      let! string := read_bytes mem cur1 (Z.to_nat len) in
      Ret (Some (string, len), (cur1 + Z.to_nat len)%nat)
    else Ret (None, cur1)
  else Ret (None, cur).

Definition readUTF (mem : list Z) (cur enddata : nat) : outcome (option (list Z) * nat) :=
  let! (r, cur1) := readUTFlen mem cur enddata in Ret (fst <$> r, cur1).

(** ** The packets received *)

(** [p_payload] is the memory from the payload pointer on. *)
Record Publish : Type := MkPublish {
  p_header : Z;
  p_topic : list Z;
  p_topiclen : Z;
  p_msgId : Z;
  p_payload : list Z;
  p_payloadlen : Z
}.

Record Ack : Type := MkAck { a_header : Z; a_msgId : Z }.
Record Connack : Type := MkConnack { c_header : Z; c_flags : Z; c_rc : Z }.
Record Suback : Type := MkSuback { s_header : Z; s_msgId : Z; s_qoss : list Z }.

Inductive packet : Type :=
| PkPublish (p : Publish)
| PkAck (a : Ack)
| PkConnack (c : Connack)
| PkSuback (s : Suback)
| PkHeader (header : Z).

Definition MQTTPacket_header_only (aHeader : Z) (data : list Z) (datalen : nat) : outcome (option packet) :=
  Ret (Some (PkHeader aHeader)).

Definition MQTTPacket_publish (aHeader : Z) (data : list Z) (datalen : nat) : outcome (option packet) :=
  let! (r, cur) := readUTFlen data 0 datalen in
  match r with
  | None => Ret None
  | Some (topic, topiclen) =>
      let! (msgId, cur1) := if 0 <? hd_qos aHeader then readInt data cur else Ret (0, cur) in
      Ret (Some (PkPublish (MkPublish aHeader topic topiclen msgId (drop cur1 data)
        (s32 (size_t (Z.of_nat datalen - Z.of_nat cur1))))))
  end.

Definition MQTTPacket_ack (aHeader : Z) (data : list Z) (datalen : nat) : outcome (option packet) :=
  let! (msgId, _) := readInt data 0 in
  Ret (Some (PkAck (MkAck aHeader msgId))).

(** The return code is a [char]. *)
Definition MQTTPacket_connack (aHeader : Z) (data : list Z) (datalen : nat) : outcome (option packet) :=
  let! (flags, cur) := readChar data 0 in
  let! (rc, _) := readChar data cur in
  Ret (Some (PkConnack (MkConnack aHeader flags (schar rc)))).

(** The loop of [MQTTPacket_suback]; [n] bytes are left. *)
Fixpoint suback_loop (data : list Z) (cur n : nat) : outcome (list Z) :=
  match n with
  | O => Ret []
  | S n' =>
      let! (newint, cur1) := readChar data cur in
      let! qoss := suback_loop data cur1 n' in
      Ret (newint :: qoss)
  end.

Definition MQTTPacket_suback (aHeader : Z) (data : list Z) (datalen : nat) : outcome (option packet) :=
  let! (msgId, cur) := readInt data 0 in
  let! qoss := suback_loop data cur (datalen - cur) in
  Ret (Some (PkSuback (MkSuback aHeader msgId qoss))).

(** The table of the constructors; NULL for a packet the client does not receive. *)
Definition new_packets (ptype : Z) : option (Z -> list Z -> nat -> outcome (option packet)) :=
  if ptype =? CONNACK then Some MQTTPacket_connack
  else if ptype =? PUBLISH then Some MQTTPacket_publish
  else if (ptype =? PUBACK) || (ptype =? PUBREC) || (ptype =? PUBREL) || (ptype =? PUBCOMP) ||
          (ptype =? UNSUBACK) then Some MQTTPacket_ack
  else if ptype =? SUBACK then Some MQTTPacket_suback
  else if (ptype =? PINGREQ) || (ptype =? PINGRESP) || (ptype =? DISCONNECT) then
    Some MQTTPacket_header_only
  else None.

(** ** Writing *)

(** A block and the position of the pointer into it. *)
Definition wbuf : Type := list Z * nat.

Definition malloc_buf (len : nat) : wbuf := (replicate len 0, O).

Definition writeChar (c : Z) (w : wbuf) : outcome wbuf :=
  let (buf, ptr) := w in
  if bool_decide (ptr < length buf)%nat then Ret (<[ptr := u8 c]> buf, S ptr) else Fault.

Definition writeInt (anInt : Z) (w : wbuf) : outcome wbuf :=
  let! w1 := writeChar (Z.quot anInt 256) w in writeChar (Z.rem anInt 256) w1.

Fixpoint write_bytes (l : list Z) (w : wbuf) : outcome wbuf :=
  match l with
  | [] => Ret w
  | b :: l' => let! w1 := writeChar b w in write_bytes l' w1
  end.

(** [string] is the C string. *)
Definition writeUTF (string : list Z) (w : wbuf) : outcome wbuf :=
  let! w1 := writeInt (s32 (Z.of_nat (length string))) w in write_bytes string w1.

(** ** The packets sent

    Each is given as its header byte and the buffers that follow the remaining length. *)

Record willMessages : Type := Will {
  will_topic : list Z;
  will_msg : list Z;
  will_retained : Z;
  will_qos : Z
}.

(** The fields of [Clients] a CONNECT packet is made from. *)
Record connect_data : Type := ConnectData {
  cn_clientID : list Z;
  cn_username : option (list Z);
  cn_password : option (list Z);
  cn_cleansession : Z;
  cn_keepAliveInterval : Z;
  cn_will : option willMessages
}.

(** The flags byte of a CONNECT packet from its bit fields. *)
Definition connect_flags (username password willRetain willQoS will cleanstart : Z) : Z :=
  Z.lor (Z.shiftl (Z.land username 1) 7) (Z.lor (Z.shiftl (Z.land password 1) 6)
    (Z.lor (Z.shiftl (Z.land willRetain 1) 5) (Z.lor (Z.shiftl (Z.land willQoS 3) 3)
      (Z.lor (Z.shiftl (Z.land will 1) 2) (Z.shiftl (Z.land cleanstart 1) 1))))).

Definition opt_len (o : option (list Z)) : nat :=
  match o with Some s => (length s + 2)%nat | None => O end.

Definition writeUTF_opt (o : option (list Z)) (w : wbuf) : outcome wbuf :=
  match o with Some s => writeUTF s w | None => Ret w end.

(** [None] when the version is not known. *)
Definition MQTTPacket_send_connect (client : connect_data) (MQTTVersion : Z) :
    outcome (option (Z * list Z)) :=
  let len := ((if (MQTTVersion =? 3)%Z then 12 else 10) + (length (cn_clientID client) + 2) +
    (match cn_will client with
     | Some w => length (will_topic w) + 2 + (length (will_msg w) + 2)
     | None => O
     end) + opt_len (cn_username client) + opt_len (cn_password client))%nat in
  let w0 := malloc_buf len in
  if (MQTTVersion =? 3) || (MQTTVersion =? 4) then
    let! w1 := writeUTF (if MQTTVersion =? 3 then str "MQIsdp" else str "MQTT") w0 in
    let! w2 := writeChar MQTTVersion w1 in
    let flags := connect_flags
      (match cn_username client with Some _ => 1 | None => 0 end)
      (match cn_password client with Some _ => 1 | None => 0 end)
      (match cn_will client with Some w => will_retained w | None => 0 end)
      (match cn_will client with Some w => will_qos w | None => 0 end)
      (match cn_will client with Some _ => 1 | None => 0 end)
      (cn_cleansession client) in
    let! w3 := writeChar flags w2 in
    let! w4 := writeInt (cn_keepAliveInterval client) w3 in
    let! w5 := writeUTF (cn_clientID client) w4 in
    let! w6 := writeUTF_opt (will_topic <$> cn_will client) w5 in
    let! w7 := writeUTF_opt (will_msg <$> cn_will client) w6 in
    let! w8 := writeUTF_opt (cn_username client) w7 in
    let! w9 := writeUTF_opt (cn_password client) w8 in
    Ret (Some (Header CONNECT 0 0 0, fst w9))
  else Ret None.

(** The two bytes [writeInt] puts into a fresh buffer. *)
Definition int_buf (i : Z) : outcome (list Z) :=
  let! w := writeInt i (malloc_buf 2) in Ret (fst w).

Definition MQTTPacket_send_ack (type msgid dup : Z) : outcome (Z * list (list Z)) :=
  let! buf := int_buf msgid in
  Ret (Header type dup (if type =? PUBREL then 1 else 0) 0, [buf]).

Definition MQTTPacket_send_puback (msgid : Z) := MQTTPacket_send_ack PUBACK msgid 0.
Definition MQTTPacket_send_pubrec (msgid : Z) := MQTTPacket_send_ack PUBREC msgid 0.
Definition MQTTPacket_send_pubrel (msgid dup : Z) := MQTTPacket_send_ack PUBREL msgid dup.
Definition MQTTPacket_send_pubcomp (msgid : Z) := MQTTPacket_send_ack PUBCOMP msgid 0.

Definition MQTTPacket_send_disconnect : outcome (Z * list (list Z)) := Ret (Header DISCONNECT 0 0 0, [[]]).
Definition MQTTPacket_send_pingreq : outcome (Z * list (list Z)) := Ret (Header PINGREQ 0 0 0, [[]]).

(** The topic is a C string, the payload [payloadlen] bytes from its pointer on. *)
Definition MQTTPacket_send_publish (pack : Publish) (dup qos retained : Z) : outcome (Z * list (list Z)) :=
  let header := Header PUBLISH dup qos retained in
  let! topiclen := int_buf (s32 (Z.of_nat (length (p_topic pack)))) in
  let! payload := read_bytes (p_payload pack) 0 (Z.to_nat (p_payloadlen pack)) in
  if 0 <? qos then
    let! buf := int_buf (p_msgId pack) in
    Ret (header, [topiclen; p_topic pack; buf; payload])
  else Ret (header, [topiclen; p_topic pack; payload]).

(** The loops of [MQTTPacket_send_subscribe] and [MQTTPacket_send_unsubscribe] over the topics. *)
Fixpoint subscribe_loop (topics : list (list Z)) (qoss : list Z) (w : wbuf) : outcome wbuf :=
  match topics with
  | [] => Ret w
  | topic :: topics' =>
      match qoss with
      | [] => Fault
      | qos :: qoss' =>
          let! w1 := writeUTF topic w in
          let! w2 := writeChar qos w1 in
          subscribe_loop topics' qoss' w2
      end
  end.

Fixpoint unsubscribe_loop (topics : list (list Z)) (w : wbuf) : outcome wbuf :=
  match topics with
  | [] => Ret w
  | topic :: topics' => let! w1 := writeUTF topic w in unsubscribe_loop topics' w1
  end.

Definition MQTTPacket_send_subscribe (topics : list (list Z)) (qoss : list Z) (msgid dup : Z) :
    outcome (Z * list (list Z)) :=
  let datalen := (2 + length topics * 3 + sum_list (length <$> topics))%nat in
  let! w1 := writeInt msgid (malloc_buf datalen) in
  let! w2 := subscribe_loop topics qoss w1 in
  Ret (Header SUBSCRIBE dup 1 0, [fst w2]).

Definition MQTTPacket_send_unsubscribe (topics : list (list Z)) (msgid dup : Z) :
    outcome (Z * list (list Z)) :=
  let datalen := (2 + length topics * 2 + sum_list (length <$> topics))%nat in
  let! w1 := writeInt msgid (malloc_buf datalen) in
  let! w2 := unsubscribe_loop topics w1 in
  Ret (Header UNSUBSCRIBE dup 1 0, [fst w2]).

(** What [MQTTPacket_send] and [MQTTPacket_sends] hand to the socket: the first buffer, allocated with
    10 bytes, and the others. *)
Definition MQTTPacket_sends (header : Z) (buffers : list (list Z)) : list (list Z) :=
  (header :: MQTTPacket_encode (s32 (Z.of_nat (sum_list (length <$> buffers))))) :: buffers.

(** ** The header byte *)

Lemma Header_bits type dup qos retain :
  0 <= type < 16 -> 0 <= dup < 2 -> 0 <= qos < 4 -> 0 <= retain < 2 ->
  is_byte (Header type dup qos retain) /\ hd_type (Header type dup qos retain) = type /\
  hd_dup (Header type dup qos retain) = dup /\ hd_qos (Header type dup qos retain) = qos /\
  hd_retain (Header type dup qos retain) = retain.
Proof.
  intros Ht Hd Hq Hr.
  revert retain Hr. all_below. revert qos Hq. all_below. revert dup Hd. all_below. revert type Ht. all_below.
  decide_all.
Qed.

(** ** The remaining length *)

(** What [MQTTPacket_decode] computes from its bytes: the value, least significant digit first. *)
Fixpoint decode_value (bytes : list Z) : Z :=
  match bytes with
  | [] => 0
  | c :: bytes' => Z.land c 127 + 128 * decode_value bytes'
  end.

(** All bytes but the last have the continuation bit. *)
Fixpoint well_ended (bytes : list Z) : Prop :=
  match bytes with
  | [] => False
  | [c] => Z.land c 128 = 0
  | c :: bytes' => Z.land c 128 <> 0 /\ well_ended bytes'
  end.

Lemma digit_bits d :
  0 <= d < 128 -> Z.land d 127 = d /\ Z.land d 128 = 0 /\ Z.land (Z.lor d 128) 127 = d /\
  Z.land (Z.lor d 128) 128 <> 0 /\ is_byte (Z.lor d 128).
Proof.
  intros Hd.
  revert d Hd. all_below. decide_all.
Qed.

Lemma encode_loop_spec fuel : forall n,
  0 <= n < 128 ^ Z.of_nat fuel -> (0 < fuel)%nat ->
  decode_value (encode_loop fuel n) = n /\ well_ended (encode_loop fuel n) /\
  Forall is_byte (encode_loop fuel n) /\ (length (encode_loop fuel n) <= fuel)%nat /\
  (0 < n -> 128 ^ (Z.of_nat (length (encode_loop fuel n)) - 1) <= n).
Proof.
  induction fuel as [|fuel IH]; intros n Hn Hf; [lia|]. cbn [encode_loop].
  assert (E : u8 (Z.rem n 128) = n mod 128 /\ Z.quot n 128 = n / 128).
  { rewrite Z.rem_mod_nonneg, Z.quot_div_nonneg by lia. split; [apply Z.mod_small|done].
    pose proof (Z.mod_pos_bound n 128). lia. }
  destruct E as [-> ->].
  assert (Hd : 0 <= n mod 128 < 128) by (apply Z.mod_pos_bound; lia).
  destruct (digit_bits _ Hd) as (D1 & D2 & D3 & D4 & D5).
  destruct (Z.ltb_spec 0 (n / 128)) as [Hp|Hp].
  - rewrite Nat2Z.inj_succ, Z.pow_succ_r in Hn by lia.
    assert (Hq : 0 <= n / 128 < 128 ^ Z.of_nat fuel).
    { split; [lia|]. apply Z.div_lt_upper_bound; lia. }
    assert (Hf' : (0 < fuel)%nat) by (destruct fuel; [simpl in Hq; lia|lia]).
    destruct (IH (n / 128) Hq Hf') as (V & W & B & L & M). cbn [decode_value length].
    split_and!.
    + rewrite D3, V. pose proof (Z.div_mod n 128). lia.
    + destruct (encode_loop fuel (n / 128)); [done|]. by split.
    + by constructor.
    + lia.
    + intros _. specialize (M Hp).
      replace (Z.of_nat (S (length (encode_loop fuel (n / 128)))) - 1)
        with (Z.succ (Z.of_nat (length (encode_loop fuel (n / 128))) - 1)) by lia.
      rewrite Z.pow_succ_r; [pose proof (Z.div_mod n 128); lia|].
      destruct (encode_loop fuel (n / 128)); simpl in *; [done|lia].
  - assert (Hn0 : n / 128 = 0) by (pose proof (Z.div_pos n 128); lia).
    pose proof (Z.div_mod n 128). simpl. split_and!; [lia|lia| |lia|lia].
    repeat constructor; unfold is_byte; lia.
Qed.

(** ** Writing into a block *)

(** The block has [N] bytes, of which [s] are written, and the pointer is behind them. *)
Definition wrote (N : nat) (s : list Z) (w : wbuf) : Prop :=
  exists rest, w = (s ++ rest, length s) /\ length (s ++ rest) = N.

(** [f] writes [l] when there is room. *)
Definition writes (f : wbuf -> outcome wbuf) (l : list Z) : Prop :=
  forall N s w, wrote N s w -> (length s + length l <= N)%nat ->
    exists w', f w = Ret w' /\ wrote N (s ++ l) w'.

Definition be16 (n : Z) : list Z := [n / 256; n mod 256].
Definition field (s : list Z) : list Z := be16 (Z.of_nat (length s)) ++ s.
Definition opt_field (o : option (list Z)) : list Z := match o with Some s => field s | None => [] end.

(** A string that fits a length of two bytes. *)
Definition short (s : list Z) : Prop := Forall is_byte s /\ Z.of_nat (length s) < 65536.

#[export] Instance short_dec s : Decision (short s).
Proof. unfold short. apply _. Defined.

Lemma wrote_malloc N : wrote N [] (malloc_buf N).
Proof. exists (replicate N 0). split; [done|]. apply length_replicate. Qed.

Lemma wrote_full s w : wrote (length s) s w -> fst w = s.
Proof.
  intros (rest & -> & Hl). rewrite length_app in Hl. destruct rest; [|simpl in Hl; lia].
  by rewrite app_nil_r.
Qed.

Lemma writes_char c : is_byte c -> writes (writeChar c) [c].
Proof.
  intros Hc N s w (rest & -> & Hl) Hr. rewrite length_app in Hl. simpl in Hr.
  destruct rest as [|x rest]; [simpl in Hl; lia|]. unfold writeChar.
  rewrite bool_decide_eq_true_2 by (rewrite length_app; simpl; lia).
  eexists. split; [reflexivity|]. exists rest. rewrite u8_id by done.
  rewrite insert_app_r_alt, Nat.sub_diag by lia. simpl. rewrite <- app_assoc. simpl.
  split; [|rewrite length_app; simpl in *; lia]. f_equal. rewrite length_app. simpl. lia.
Qed.

Lemma writes_bind f g a b :
  writes f a -> writes g b -> writes (fun w => let! w1 := f w in g w1) (a ++ b).
Proof.
  intros Hf Hg N s w Hw Hl. rewrite length_app in Hl.
  destruct (Hf N s w Hw) as (w1 & -> & H1); [lia|]. cbn [obind].
  destruct (Hg N (s ++ a) w1 H1) as (w2 & -> & H2); [rewrite length_app; lia|].
  exists w2. by rewrite app_assoc.
Qed.

Lemma writes_int i : 0 <= i < 65536 -> writes (writeInt i) (be16 i).
Proof.
  intros Hi. unfold writeInt. rewrite Z.quot_div_nonneg, Z.rem_mod_nonneg by lia.
  apply (writes_bind (writeChar (i / 256)) (writeChar (i mod 256)) [_] [_]);
    apply writes_char; unfold is_byte; divlia.
Qed.

Lemma writes_ret : writes Ret [].
Proof. intros N s w Hw Hl. exists w. by rewrite app_nil_r. Qed.

Lemma writes_bytes l : Forall is_byte l -> writes (write_bytes l) l.
Proof.
  induction 1 as [|c l Hc _ IH]; [apply writes_ret|].
  apply (writes_bind (writeChar c) (write_bytes l) [c] l); [by apply writes_char|done].
Qed.

Lemma writes_utf s : short s -> writes (writeUTF s) (field s).
Proof.
  intros [Hs Hl]. unfold writeUTF. rewrite s32_id by lia.
  apply writes_bind; [apply writes_int; lia|by apply writes_bytes].
Qed.

Lemma writes_opt o : (forall s, o = Some s -> short s) -> writes (writeUTF_opt o) (opt_field o).
Proof. destruct o as [s|]; [intros H; by apply writes_utf, H|intros _; apply writes_ret]. Qed.

(** A routine that fills a fresh block. *)
Lemma writes_fresh f l N :
  writes f l -> length l = N -> exists w, f (malloc_buf N) = Ret w /\ fst w = l.
Proof.
  intros Hf <-. destruct (Hf (length l) [] (malloc_buf (length l)) (wrote_malloc _)) as (w & E & H); [done|].
  exists w. split; [done|]. by apply wrote_full.
Qed.

Lemma int_buf_eq i : 0 <= i < 65536 -> int_buf i = Ret (be16 i).
Proof.
  intros Hi. unfold int_buf. destruct (writes_fresh (writeInt i) (be16 i) 2) as (w & -> & <-);
    [by apply writes_int|done|done].
Qed.

(** ** Reading what was written *)

Lemma readInt_app pre n rest :
  0 <= n < 65536 -> readInt (pre ++ be16 n ++ rest) (length pre) = Ret (n, (length pre + 2)%nat).
Proof.
  intros Hn. unfold readInt.
  rewrite (lookup_app_r _ _ (length pre)), (lookup_app_r _ _ (S (length pre))), Nat.sub_diag by lia.
  replace (S (length pre) - length pre)%nat with 1%nat by lia. simpl. do 2 f_equal. divlia.
Qed.

Lemma readUTFlen_app pre s rest e :
  short s -> (length pre + 2 + length s <= e)%nat ->
  readUTFlen (pre ++ field s ++ rest) (length pre) e =
    Ret (Some (s, Z.of_nat (length s)), (length pre + 2 + length s)%nat).
Proof.
  intros [_ Hl] He. unfold readUTFlen, field. rewrite bool_decide_eq_true_2 by lia.
  rewrite <- !app_assoc, readInt_app by lia. cbn [obind].
  destruct (Z.leb_spec (Z.of_nat (length pre + 2) + Z.of_nat (length s)) (Z.of_nat e)); [|lia].
  unfold read_bytes. rewrite Nat2Z.id.
  rewrite bool_decide_eq_true_2 by (rewrite !length_app; simpl; lia). cbn [obind].
  rewrite drop_app_ge by lia. replace (length pre + 2 - length pre)%nat with 2%nat by lia. simpl.
  by rewrite drop_0, take_app_length.
Qed.

Lemma field_length s : length (field s) = (2 + length s)%nat.
Proof. unfold field. by rewrite length_app. Qed.

Lemma readUTFlen_first s rest e :
  short s -> (2 + length s <= e)%nat ->
  readUTFlen (field s ++ rest) 0 e = Ret (Some (s, Z.of_nat (length s)), length (field s)).
Proof. intros Hs He. rewrite field_length. exact (readUTFlen_app [] s rest e Hs He). Qed.

(** ** PUBLISH *)

(** The variable header and the payload of a PUBLISH packet. *)
Definition publish_body (topic : list Z) (qos msgId : Z) (payload : list Z) : list Z :=
  field topic ++ (if 0 <? qos then be16 msgId else []) ++ payload.

Lemma publish_read h topic msgId payload rest :
  short topic -> 0 <= msgId < 65536 ->
  Z.of_nat (length (publish_body topic (hd_qos h) msgId payload)) < 2 ^ 31 ->
  MQTTPacket_publish h (publish_body topic (hd_qos h) msgId payload ++ rest)
      (length (publish_body topic (hd_qos h) msgId payload)) =
    Ret (Some (PkPublish (MkPublish h topic (Z.of_nat (length topic))
      (if 0 <? hd_qos h then msgId else 0) (payload ++ rest) (Z.of_nat (length payload))))).
Proof.
  intros Ht Hm Hl. unfold MQTTPacket_publish.
  assert (Hlen : length (publish_body topic (hd_qos h) msgId payload) =
    (2 + length topic + (if (0 <? hd_qos h)%Z then 2 else 0) + length payload)%nat).
  { unfold publish_body, field. rewrite !length_app. destruct (0 <? hd_qos h); simpl; lia. }
  rewrite Hlen in Hl |- *. unfold publish_body. rewrite <- !app_assoc.
  rewrite readUTFlen_first by (done || lia). cbn [obind].
  destruct (0 <? hd_qos h).
  - rewrite readInt_app by lia. cbn [obind]. do 4 f_equal.
    + rewrite app_assoc, drop_app_ge by (rewrite length_app; simpl; lia).
      rewrite length_app. cbn [length be16].
      by replace (length (field topic) + 2 - (length (field topic) + 2))%nat with 0%nat by lia.
    + rewrite field_length, size_t_id, s32_id by lia. lia.
  - cbn [obind]. do 4 f_equal.
    + by rewrite drop_app_ge, Nat.sub_diag.
    + rewrite field_length, size_t_id, s32_id by lia. lia.
Qed.

(** ** CONNECT *)

Lemma connect_flags_bits u p wr wq w cs :
  0 <= u < 2 -> 0 <= p < 2 -> 0 <= wr < 2 -> 0 <= wq < 4 -> 0 <= w < 2 -> 0 <= cs < 2 ->
  let f := connect_flags u p wr wq w cs in
  is_byte f /\ Z.testbit f 7 = (u =? 1) /\ Z.testbit f 6 = (p =? 1) /\
  Z.land (Z.shiftr f 5) 1 = wr /\ Z.land (Z.shiftr f 3) 3 = wq /\ Z.testbit f 2 = (w =? 1) /\
  Z.land (Z.shiftr f 1) 1 = cs.
Proof.
  intros Hu Hp Hr Hq Hw Hc f. subst f. revert cs Hc. all_below. revert w Hw. all_below. revert wq Hq. all_below.
  revert wr Hr. all_below. revert p Hp. all_below. revert u Hu. all_below. decide_all.
Qed.

(** The reading of a CONNECT packet by a server, from the MQTT specification: the protocol name and
    level, the flags, the keep-alive time and the fields the flags announce. *)
Definition get_field (l : list Z) : option (list Z * list Z) :=
  match l with
  | a :: b :: l' =>
      let n := Z.to_nat (256 * a + b) in
      if bool_decide (n <= length l')%nat then Some (take n l', drop n l') else None
  | _ => None
  end.

Definition get_opt (present : bool) (l : list Z) : option (option (list Z) * list Z) :=
  if present then '(s, l') ← get_field l; Some (Some s, l') else Some (None, l).

Definition protocol_name (version : Z) : list Z := if version =? 3 then str "MQIsdp" else str "MQTT".

Definition parse_connect (l : list Z) : option (Z * connect_data) :=
  '(name, l1) ← get_field l;
  match l1 with
  | version :: flags :: k1 :: k0 :: l2 =>
      '(clientID, l3) ← get_field l2;
      '(topic, l4) ← get_opt (Z.testbit flags 2) l3;
      '(msg, l5) ← get_opt (Z.testbit flags 2) l4;
      '(username, l6) ← get_opt (Z.testbit flags 7) l5;
      '(password, l7) ← get_opt (Z.testbit flags 6) l6;
      if bool_decide (name = protocol_name version) && bool_decide (l7 = []) then
        Some (version, ConnectData clientID username password (Z.land (Z.shiftr flags 1) 1) (256 * k1 + k0)
          (match topic, msg with
           | Some t, Some m => Some (Will t m (Z.land (Z.shiftr flags 5) 1) (Z.land (Z.shiftr flags 3) 3))
           | _, _ => None
           end))
      else None
  | _ => None
  end.

(** The data of a client that a CONNECT packet can carry. *)
Definition connect_ok (c : connect_data) : Prop :=
  short (cn_clientID c) /\ (forall s, cn_username c = Some s -> short s) /\
  (forall s, cn_password c = Some s -> short s) /\ 0 <= cn_cleansession c < 2 /\
  0 <= cn_keepAliveInterval c < 65536 /\
  (forall w, cn_will c = Some w ->
     short (will_topic w) /\ short (will_msg w) /\ 0 <= will_retained w < 2 /\ 0 <= will_qos w < 4).

Lemma get_field_app s l : short s -> get_field (field s ++ l) = Some (s, l).
Proof.
  intros [_ Hl]. unfold field, be16. cbn [app get_field].
  replace (Z.to_nat (256 * (Z.of_nat (length s) / 256) + Z.of_nat (length s) mod 256)) with (length s) by divlia.
  rewrite bool_decide_eq_true_2 by (rewrite length_app; lia).
  by rewrite take_app_length, drop_app_length.
Qed.

Lemma get_opt_app o b l :
  (forall s, o = Some s -> short s) -> b = bool_decide (is_Some o) ->
  get_opt b (opt_field o ++ l) = Some (o, l).
Proof.
  intros Ho ->. destruct o as [s|]; [|done].
  unfold get_opt, opt_field. by rewrite bool_decide_eq_true_2, get_field_app by eauto.
Qed.

Lemma opt_field_length o : length (opt_field o) = opt_len o.
Proof. destruct o; [|done]. unfold opt_field. rewrite field_length. simpl. lia. Qed.

(** The flags byte of a client. *)
Definition flags_of (c : connect_data) : Z :=
  connect_flags
    (match cn_username c with Some _ => 1 | None => 0 end)
    (match cn_password c with Some _ => 1 | None => 0 end)
    (match cn_will c with Some w => will_retained w | None => 0 end)
    (match cn_will c with Some w => will_qos w | None => 0 end)
    (match cn_will c with Some _ => 1 | None => 0 end)
    (cn_cleansession c).

Definition connect_body (c : connect_data) (version : Z) : list Z :=
  field (protocol_name version) ++ [version] ++ [flags_of c] ++ be16 (cn_keepAliveInterval c) ++
  field (cn_clientID c) ++ opt_field (will_topic <$> cn_will c) ++ opt_field (will_msg <$> cn_will c) ++
  opt_field (cn_username c) ++ opt_field (cn_password c).

Lemma flags_of_bits c :
  connect_ok c -> is_byte (flags_of c) /\
  Z.testbit (flags_of c) 7 = bool_decide (is_Some (cn_username c)) /\
  Z.testbit (flags_of c) 6 = bool_decide (is_Some (cn_password c)) /\
  Z.testbit (flags_of c) 2 = bool_decide (is_Some (cn_will c)) /\
  Z.land (Z.shiftr (flags_of c) 1) 1 = cn_cleansession c /\
  (forall w, cn_will c = Some w ->
     Z.land (Z.shiftr (flags_of c) 5) 1 = will_retained w /\
     Z.land (Z.shiftr (flags_of c) 3) 3 = will_qos w).
Proof.
  intros (_ & _ & _ & Hc & _ & Hw). unfold flags_of.
  set (u := match cn_username c with Some _ => 1 | None => 0 end).
  set (p := match cn_password c with Some _ => 1 | None => 0 end).
  set (wr := match cn_will c with Some w => will_retained w | None => 0 end).
  set (wq := match cn_will c with Some w => will_qos w | None => 0 end).
  set (w := match cn_will c with Some _ => 1 | None => 0 end).
  assert (Hb : 0 <= u < 2 /\ 0 <= p < 2 /\ 0 <= wr < 2 /\ 0 <= wq < 4 /\ 0 <= w < 2).
  { subst u p wr wq w. destruct (cn_username c), (cn_password c), (cn_will c) as [w|];
      (destruct (Hw w eq_refl) as (_ & _ & ? & ?) || idtac); lia. }
  destruct Hb as (Hu & Hp & Hwr & Hwq & Hw1).
  destruct (connect_flags_bits u p wr wq w (cn_cleansession c)) as (B & B7 & B6 & B5 & B3 & B2 & B1); [done..|].
  split_and!; [done| | | |done|].
  - rewrite B7. subst u. by destruct (cn_username c).
  - rewrite B6. subst p. by destruct (cn_password c).
  - rewrite B2. subst w. by destruct (cn_will c).
  - intros w0 Ew. rewrite B5, B3. subst wr wq. by rewrite Ew.
Qed.

Lemma parse_connect_body c version :
  connect_ok c -> version = 3 \/ version = 4 -> parse_connect (connect_body c version) = Some (version, c).
Proof.
  intros Hok Hv. destruct (flags_of_bits c Hok) as (_ & B7 & B6 & B2 & B1 & Bw).
  destruct Hok as (Hid & Hu & Hp & _ & Hk & Hw). unfold connect_body, parse_connect.
  rewrite get_field_app by (destruct Hv as [-> | ->]; decide_all). cbn [mbind option_bind app be16].
  rewrite get_field_app by done. cbn [mbind option_bind].
  rewrite B2, B7, B6, B1.
  rewrite get_opt_app; [|intros s Hs; apply fmap_Some in Hs as (w & Ew & ->); by apply Hw|by destruct (cn_will c)].
  cbn [mbind option_bind].
  rewrite get_opt_app; [|intros s Hs; apply fmap_Some in Hs as (w & Ew & ->); by apply Hw|by destruct (cn_will c)].
  cbn [mbind option_bind]. rewrite get_opt_app by done. cbn [mbind option_bind].
  rewrite <- (app_nil_r (opt_field (cn_password c))), get_opt_app by done. cbn [mbind option_bind].
  rewrite !bool_decide_eq_true_2 by done. cbn [andb].
  replace (256 * (cn_keepAliveInterval c / 256) + cn_keepAliveInterval c mod 256) with (cn_keepAliveInterval c) by divlia.
  destruct (cn_will c) as [w|] eqn:Ew.
  - destruct (Bw w eq_refl) as [-> ->]. destruct c as [? ? ? ? ? ?]. simpl in *. subst. by destruct w.
  - destruct c as [? ? ? ? ? ?]. simpl in *. by subst.
Qed.

(** There is room for what is written next. *)
Ltac write_room := rewrite ?length_app; cbn [length be16]; lia.

(** C31: the CONNECT packet.  For protocol level 3 or 4 and client data within the limits of the
    protocol, [MQTTPacket_send_connect] writes within its block and fills it, and a server that reads
    the packet by the MQTT specification gets the level and exactly the client's identifier, user
    name, password, will, clean-session flag and keep-alive time. *)
Theorem connect_roundtrip (c : connect_data) (version : Z) :
  connect_ok c -> version = 3 \/ version = 4 ->
  exists body, MQTTPacket_send_connect c version = Ret (Some (0x10, body)) /\
    parse_connect body = Some (version, c).
Proof.
  intros Hok Hv. exists (connect_body c version). split; [|by apply parse_connect_body].
  destruct (flags_of_bits c Hok) as (Bf & _). destruct Hok as (Hid & Hu & Hp & _ & Hk & Hw).
  assert (Ht : forall s, will_topic <$> cn_will c = Some s -> short s).
  { intros s Hs. apply fmap_Some in Hs as (w & Ew & ->). by apply Hw. }
  assert (Hm : forall s, will_msg <$> cn_will c = Some s -> short s).
  { intros s Hs. apply fmap_Some in Hs as (w & Ew & ->). by apply Hw. }
  assert (Hn : short (protocol_name version)) by (destruct Hv as [-> | ->]; decide_all).
  assert (Hb : is_byte version) by (destruct Hv as [-> | ->]; decide_all).
  unfold MQTTPacket_send_connect.
  set (len := (_ + _ + _ + _ + _)%nat).
  assert (Hlen : len = length (connect_body c version)).
  { unfold connect_body. rewrite !length_app, !field_length, !opt_field_length. cbn [length be16].
    subst len. destruct Hv as [-> | ->]; destruct (cn_will c); simpl; lia. }
  replace ((version =? 3) || (version =? 4)) with true by (by destruct Hv as [-> | ->]).
  clearbody len. subst len. fold (protocol_name version). fold (flags_of c).
  pose proof (wrote_malloc (length (connect_body c version))) as W0.
  set (N := length (connect_body c version)) in *.
  assert (HN : N = (length (field (protocol_name version)) + 1 + 1 + 2 + length (field (cn_clientID c)) +
    length (opt_field (will_topic <$> cn_will c)) + length (opt_field (will_msg <$> cn_will c)) +
    length (opt_field (cn_username c)) + length (opt_field (cn_password c)))%nat).
  { subst N. unfold connect_body. rewrite !length_app. cbn [length be16]. lia. }
  clearbody N.
  destruct (writes_utf _ Hn _ _ _ W0) as (w1 & -> & W1); [write_room|]. cbn [obind].
  destruct (writes_char _ Hb _ _ _ W1) as (w2 & -> & W2); [write_room|]. cbn [obind].
  destruct (writes_char _ Bf _ _ _ W2) as (w3 & -> & W3); [write_room|]. cbn [obind].
  destruct (writes_int _ Hk _ _ _ W3) as (w4 & -> & W4); [write_room|]. cbn [obind].
  destruct (writes_utf _ Hid _ _ _ W4) as (w5 & -> & W5); [write_room|]. cbn [obind].
  destruct (writes_opt _ Ht _ _ _ W5) as (w6 & -> & W6); [write_room|]. cbn [obind].
  destruct (writes_opt _ Hm _ _ _ W6) as (w7 & -> & W7); [write_room|]. cbn [obind].
  destruct (writes_opt _ Hu _ _ _ W7) as (w8 & -> & W8); [write_room|]. cbn [obind].
  destruct (writes_opt _ Hp _ _ _ W8) as (w9 & -> & W9); [write_room|]. cbn [obind].
  rewrite <- !app_assoc in W9. change (wrote N (connect_body c version) w9) in W9.
  do 3 f_equal. apply wrote_full. replace (length (connect_body c version)) with N; [done|].
  rewrite HN. unfold connect_body. rewrite !length_app. cbn [length be16]. lia.
Qed.

Lemma connect_roundtrip_witness :
  let c := ConnectData (str "100001Alice") None None 1 20
    (Some (Will (str "/100001Alice/Status") (str "Offline") 1 2)) in
  exists body, MQTTPacket_send_connect c 4 = Ret (Some (0x10, body)) /\ parse_connect body = Some (4, c).
Proof.
  intros c. refine (connect_roundtrip c 4 _ _).
  - split; [decide_all|]. split; [discriminate|]. split; [discriminate|].
    split; [split; [discriminate|reflexivity]|]. split; [split; [discriminate|reflexivity]|].
    intros w [= <-]. split; [decide_all|]. split; [decide_all|]. split; (split; [discriminate|reflexivity]).
  - right. reflexivity.
Defined.
