(* ===== verification/SockBuf.v ===== *)
(** * SockBuf: partial reads and writes of the MQTT client (SocketBuffer.c, Socket.c)

    The queues that keep what has been read of a packet when a non-blocking read is interrupted, the
    list of writes that were not completed, and the socket calls on top of them.  The environment
    gives, per socket, what [recv] returns, and the results of [writev]; it receives the bytes
    written. *)

From Stdlib Require Import ZArith Lia String.
From stdpp Require Import base tactics numbers list gmap.
From S2P Require Import Prelude.

Definition TCPSOCKET_COMPLETE : Z := 0.
Definition SOCKET_ERROR : Z := -1.
Definition TCPSOCKET_INTERRUPTED : Z := -22.
Definition SOCKETBUFFER_COMPLETE : Z := 0.
Definition SOCKETBUFFER_INTERRUPTED : Z := -22.

(** ** The state *)

(** [headerlen] is not initialised in a new queue. [buf] is the whole allocated block. *)
Record socket_queue : Type := SQ {
  sq_socket : Z;
  index : nat;
  headerlen : option nat;
  fixed_header : list Z;
  buflen : Z;
  datalen : Z;
  buf : list Z
}.

(** The buffers of a write, by value. *)
Record pending_writes : Type := PW {
  pw_socket : Z;
  total : Z;
  bytes : Z;
  iovecs : list (list Z)
}.

(** What [recv] finds. *)
Inductive recvd : Type :=
| RData (b : Z) (l : list Z)    (** bytes that have arrived, at least one *)
| RAgain                        (** nothing yet *)
| RClosed                       (** the end of the stream *)
| RErr.                         (** another error *)

(** What a [writev] does. *)
Inductive wres : Type :=
| WOk (n : Z)                   (** it takes at most [n] bytes *)
| WAgain
| WErr.

Record net : Type := Net {
  def_queue : socket_queue;
  queues : list socket_queue;
  writes : list pending_writes;
  write_pending : list Z;            (** [s.write_pending], also as the set [s.pending_wset] *)
  wp_current : option Z;             (** its cached element [current] *)
  n_in : gmap Z (list recvd);
  n_wres : list wres;                (** the next results; then everything is written *)
  n_out : list (Z * list Z)
}.

Definition set_queues (d : socket_queue) (q : list socket_queue) (n : net) : net :=
  Net d q (writes n) (write_pending n) (wp_current n) (n_in n) (n_wres n) (n_out n).
Definition set_pending (w : list pending_writes) (p : list Z) (n : net) : net :=
  Net (def_queue n) (queues n) w p (wp_current n) (n_in n) (n_wres n) (n_out n).
Definition set_current (c : option Z) (n : net) : net :=
  Net (def_queue n) (queues n) (writes n) (write_pending n) c (n_in n) (n_wres n) (n_out n).
Definition set_in (i : gmap Z (list recvd)) (n : net) : net :=
  Net (def_queue n) (queues n) (writes n) (write_pending n) (wp_current n) i (n_wres n) (n_out n).
Definition set_wres (r : list wres) (n : net) : net :=
  Net (def_queue n) (queues n) (writes n) (write_pending n) (wp_current n) (n_in n) r (n_out n).
Definition add_wire (s : Z) (l : list Z) (n : net) : net :=
  Net (def_queue n) (queues n) (writes n) (write_pending n) (wp_current n) (n_in n) (n_wres n) (n_out n ++ [(s, l)]).

(** ** SocketBuffer.c *)

(** The length of the buffer is reset to 0 although 1000 bytes are allocated. *)
Definition SocketBuffer_newDefQ : socket_queue :=
  SQ 0 0 None (replicate 5 0) 0 0 (replicate (Z.to_nat 1000) 0).

(** [ListFindItem (queues, &socket, socketcompare)], the place and the queue. *)
Definition find_queue (socket : Z) (n : net) : option (nat * socket_queue) :=
  list_find (fun q => sq_socket q = socket) (queues n).

(** Change the queue of the socket, which is the default one when it has none of its own. *)
Definition update_queue (socket : Z) (f : socket_queue -> socket_queue) (n : net) : net :=
  match find_queue socket n with
  | Some (i, q) => set_queues (def_queue n) (<[i := f q]> (queues n)) n
  | None => set_queues (f (def_queue n)) (queues n) n
  end.

Definition cur_queue (socket : Z) (n : net) : socket_queue :=
  match find_queue socket n with Some (_, q) => q | None => def_queue n end.

Definition SocketBuffer_cleanup (socket : Z) (n : net) : net :=
  let n1 := match find_queue socket n with
            | Some (i, _) => set_queues (def_queue n) (delete i (queues n)) n
            | None => n
            end in
  let d := def_queue n1 in
  if sq_socket d =? socket then
    set_queues (SQ 0 0 (Some O) (fixed_header d) (buflen d) 0 (buf d)) (queues n1) n1
  else n1.

(** [malloc] of a larger block with a copy of the data, or [realloc]. *)
Definition grow (size : Z) (q : socket_queue) : socket_queue :=
  if buflen q <? size then
    let keep := if 0 <? datalen q then Z.to_nat (datalen q) else length (buf q) in
    let kept := take (Z.to_nat size) (take keep (buf q)) in
    SQ (sq_socket q) (index q) (headerlen q) (fixed_header q) size (datalen q)
      (kept ++ replicate (Z.to_nat size - length kept) 0)
  else q.

(** The queue that gets the data, and [*actual_len]. *)
Definition SocketBuffer_getQueuedData (socket size : Z) (n : net) : Z * net :=
  let actual_len := match find_queue socket n with Some (_, q) => datalen q | None => 0 end in
  (actual_len, update_queue socket (grow size) n).

Definition SocketBuffer_getQueuedChar (socket : Z) (n : net) : outcome (Z * option Z * net) :=
  match find_queue socket n with
  | Some (i, q) =>
      let! hl := deref (headerlen q) in
      if bool_decide (index q < hl)%nat then
        let! c := deref (fixed_header q !! index q) in
        Ret (SOCKETBUFFER_COMPLETE, Some c,
          set_queues (def_queue n) (<[i := SQ (sq_socket q) (S (index q)) (headerlen q) (fixed_header q)
            (buflen q) (datalen q) (buf q)]> (queues n)) n)
      else if bool_decide (4 < index q)%nat then Ret (SOCKET_ERROR, None, n)
      else Ret (SOCKETBUFFER_INTERRUPTED, None, n)
  | None => Ret (SOCKETBUFFER_INTERRUPTED, None, n)
  end.

Definition rewind (actual_len : Z) (q : socket_queue) : socket_queue :=
  SQ (sq_socket q) 0 (headerlen q) (fixed_header q) (buflen q) actual_len (buf q).

Definition SocketBuffer_interrupted (socket actual_len : Z) (n : net) : net :=
  match find_queue socket n with
  | Some (i, q) => set_queues (def_queue n) (<[i := rewind actual_len q]> (queues n)) n
  | None => set_queues SocketBuffer_newDefQ (queues n ++ [rewind actual_len (def_queue n)]) n
  end.

(** The returned pointer is the buffer of the new default queue. *)
Definition SocketBuffer_complete (socket : Z) (n : net) : net :=
  let n1 := match find_queue socket n with
            | Some (i, q) => set_queues q (delete i (queues n)) n
            | None => n
            end in
  let d := def_queue n1 in
  set_queues (SQ 0 0 (Some O) (fixed_header d) (buflen d) 0 (buf d)) (queues n1) n1.

Definition push_char (c : Z) (q : socket_queue) : socket_queue :=
  SQ (sq_socket q) (S (index q)) (Some (S (index q))) (<[index q := c]> (fixed_header q)) (buflen q)
    (datalen q) (buf q).

Definition SocketBuffer_queueChar (socket c : Z) (n : net) : net :=
  match find_queue socket n with
  | Some (i, q) =>
      if bool_decide (4 < index q)%nat then n
      else set_queues (def_queue n) (<[i := push_char c q]> (queues n)) n
  | None =>
      let d := def_queue n in
      if sq_socket d =? 0 then
        set_queues (push_char c (SQ socket 0 (headerlen d) (fixed_header d) (buflen d) 0 (buf d))) (queues n) n
      else if negb (sq_socket d =? socket) then n
      else if bool_decide (4 < index d)%nat then n
      else set_queues (push_char c d) (queues n) n
  end.

Definition SocketBuffer_pendingWrite (socket : Z) (bufs : list (list Z)) (tot done : Z) (n : net) : net :=
  set_pending (writes n ++ [PW socket tot done bufs]) (write_pending n) n.

Definition find_write (socket : Z) (n : net) : option (nat * pending_writes) :=
  list_find (fun pw => pw_socket pw = socket) (writes n).

Definition SocketBuffer_getWrite (socket : Z) (n : net) : option pending_writes :=
  snd <$> find_write socket n.

Definition SocketBuffer_writeComplete (socket : Z) (n : net) : bool * net :=
  match find_write socket n with
  | Some (i, _) => (true, set_pending (delete i (writes n)) (write_pending n) n)
  | None => (false, n)
  end.

Definition SocketBuffer_updateWrite (socket : Z) (topic payload : list Z) (n : net) : bool * net :=
  match find_write socket n with
  | Some (i, pw) =>
      (true,
       if bool_decide (length (iovecs pw) = 4)%nat then
         set_pending (<[i := PW (pw_socket pw) (total pw) (bytes pw)
           (<[3%nat := payload]> (<[2%nat := topic]> (iovecs pw)))]> (writes n)) (write_pending n) n
       else n)
  | None => (false, n)
  end.

(** ** Reading from a socket *)

(** [recv (socket, ..., size, 0)], its result and the inputs that are left. *)
Definition recv (socket : Z) (size : nat) (n : net) : recvd * net :=
  match default [] (n_in n !! socket) with
  | [] => (RAgain, n)
  | RData b l :: rest =>
      let rest' := match drop size (b :: l) with
                   | [] => rest
                   | b' :: l' => RData b' l' :: rest
                   end in
      (match take size (b :: l) with [] => RClosed | c :: k => RData c k end,
       set_in (<[socket := rest']> (n_in n)) n)
  | RAgain :: rest => (RAgain, set_in (<[socket := rest]> (n_in n)) n)
  | RClosed :: _ => (RClosed, n)
  | RErr :: rest => (RErr, set_in (<[socket := rest]> (n_in n)) n)
  end.

Definition Socket_getch (socket : Z) (n : net) : outcome (Z * option Z * net) :=
  let! (rc, c, n1) := SocketBuffer_getQueuedChar socket n in
  if negb (rc =? SOCKETBUFFER_INTERRUPTED) then Ret (rc, c, n1)
  else
    let (r, n2) := recv socket 1 n1 in
    match r with
    | RAgain => Ret (TCPSOCKET_INTERRUPTED, None, SocketBuffer_interrupted socket 0 n2)
    | RErr | RClosed => Ret (SOCKET_ERROR, None, n2)
    | RData b _ => Ret (TCPSOCKET_COMPLETE, Some b, SocketBuffer_queueChar socket b n2)
    end.

(** Put the bytes into the block from the offset on. *)
Definition splice (off : nat) (l mem : list Z) : outcome (list Z) :=
  if bool_decide (off + length l <= length mem)%nat then
    Ret (take off mem ++ l ++ drop (off + length l) mem)
  else Fault.

(** The block, or NULL, and [*actual_len]. *)
Definition Socket_getdata (socket size : Z) (n : net) : outcome (option (list Z) * Z * net) :=
  if size =? 0 then
    let n1 := SocketBuffer_complete socket n in Ret (Some (buf (def_queue n1)), 0, n1)
  else
    let (actual_len, n1) := SocketBuffer_getQueuedData socket size n in
    let (r, n2) := recv socket (Z.to_nat (size - actual_len)) n1 in
    match r with
    | RErr | RClosed => Ret (None, actual_len, n2)
    | RAgain => Ret (Some (buf (cur_queue socket n2)), actual_len, SocketBuffer_interrupted socket actual_len n2)
    | RData b l =>
        let! mem := splice (Z.to_nat actual_len) (b :: l) (buf (cur_queue socket n2)) in
        let n3 := update_queue socket (fun q => SQ (sq_socket q) (index q) (headerlen q) (fixed_header q)
          (buflen q) (datalen q) mem) n2 in
        let actual_len1 := actual_len + Z.of_nat (length (b :: l)) in
        Ret (Some mem, actual_len1,
          if actual_len1 =? size then SocketBuffer_complete socket n3
          else SocketBuffer_interrupted socket actual_len1 n3)
    end.

(** ** Writing to a socket *)

(** The search leaves [current] at the element it finds. *)
Definition Socket_noPendingWrites (socket : Z) (n : net) : bool * net :=
  if bool_decide (socket ∈ write_pending n) then (false, set_current (Some socket) n) else (true, n).

(** The result of [writev], the number of bytes it took. *)
Definition Socket_writev (socket : Z) (bufs : list (list Z)) (n : net) : Z * Z * net :=
  let all := concat bufs in
  match n_wres n with
  | [] => (Z.of_nat (length all), Z.of_nat (length all), add_wire socket all n)
  | WOk k :: r =>
      let sent := take (Z.to_nat k) all in
      (Z.of_nat (length sent), Z.of_nat (length sent), add_wire socket sent (set_wres r n))
  | WAgain :: r => (TCPSOCKET_INTERRUPTED, 0, set_wres r n)
  | WErr :: r => (SOCKET_ERROR, 0, set_wres r n)
  end.

Definition Socket_putdatas (socket : Z) (bufs : list (list Z)) (n : net) : Z * net :=
  let (free, n) := Socket_noPendingWrites socket n in
  if negb free then (SOCKET_ERROR, n)
  else
    let tot := Z.of_nat (length (concat bufs)) in
    let '(rc, done, n1) := Socket_writev socket bufs n in
    if rc =? SOCKET_ERROR then (rc, n1)
    else if done =? tot then (TCPSOCKET_COMPLETE, n1)
    else
      let n2 := SocketBuffer_pendingWrite socket bufs tot done n1 in
      (TCPSOCKET_INTERRUPTED, set_pending (writes n2) (write_pending n2 ++ [socket]) n2).

(** The loop of [Socket_continueWrite] that collects what is left: whole buffers, or the rest of the
    one the last write stopped in, where it stops too. *)
Fixpoint collect (iovs : list (list Z)) (done curbuflen : Z) : list (list Z) :=
  match iovs with
  | [] => []
  | v :: iovs' =>
      if done <=? curbuflen then v :: collect iovs' done (curbuflen + Z.of_nat (length v))
      else if done <? curbuflen + Z.of_nat (length v) then [drop (Z.to_nat (done - curbuflen)) v]
      else collect iovs' done (curbuflen + Z.of_nat (length v))
  end.

(** The result is true also for an error. *)
Definition Socket_continueWrite (socket : Z) (n : net) : outcome (Z * net) :=
  let! (i, pw) := deref (find_write socket n) in
  let '(rc, sent, n1) := Socket_writev socket (collect (iovecs pw) (bytes pw) 0) n in
  if rc =? SOCKET_ERROR then Ret (rc, n1)
  else
    let b := bytes pw + sent in
    let n2 := set_pending (<[i := PW (pw_socket pw) (total pw) b (iovecs pw)]> (writes n1)) (write_pending n1) n1 in
    Ret ((if b =? total pw then 1 else 0), n2).

(** The element after the one of [socket]. *)
Fixpoint next_pending (socket : Z) (l : list Z) : option Z :=
  match l with
  | [] => None
  | x :: l' => if x =? socket then head l' else next_pending socket l'
  end.

(** [ListRemove (s.write_pending, ...)]: [current] moves on only when it is the element removed. *)
Definition remove_pending (socket : Z) (n : net) : net :=
  let c := match wp_current n with
           | Some x => if x =? socket then next_pending socket (write_pending n) else Some x
           | None => None
           end in
  set_current c (set_pending (writes n) (filter (fun x => x <> socket) (write_pending n)) n).

(** The loop of [Socket_continueWrites] from an element on; after a removal it goes on at [current].
    [pwset] is the set of the writable sockets.  The list of the completed sockets stands for the
    calls of the callback. *)
Fixpoint continue_loop (fuel : nat) (cur : option Z) (pwset : list Z) (n : net) : outcome (list Z * net) :=
  match fuel, cur with
  | O, _ => Blocked
  | _, None => Ret ([], n)
  | S fuel', Some socket =>
      if bool_decide (socket ∈ pwset) then
        let! (rc, n1) := Socket_continueWrite socket n in
        if negb (rc =? 0) then
          let n2 := remove_pending socket (snd (SocketBuffer_writeComplete socket n1)) in
          let! (done, n3) := continue_loop fuel' (wp_current n2) pwset n2 in
          Ret (socket :: done, n3)
        else continue_loop fuel' (next_pending socket (write_pending n1)) pwset n1
      else continue_loop fuel' (next_pending socket (write_pending n)) pwset n
  end.

(** A turn moves on in the list or removes one of its [k] elements: [(k + 1)^2] turns are enough. *)
Definition Socket_continueWrites (pwset : list Z) (n : net) : outcome (list Z * net) :=
  let k := S (length (write_pending n)) in
  continue_loop (k * k) (head (write_pending n)) pwset n.

(** ** The store of a packet that is being read *)

Section Store.
Variable s : Z.
Hypothesis s_nonzero : s <> 0.

(** The inputs of the socket, without an end or an error, and their bytes. *)
Definition inputs (n : net) : list recvd := default [] (n_in n !! s).
Definition quiet (r : recvd) : Prop := match r with RData _ _ | RAgain => True | _ => False end.
Definition data_of (r : recvd) : list Z := match r with RData b l => b :: l | _ => [] end.
Definition flat (ins : list recvd) : list Z := ins ≫= data_of.

Definition absent (n : net) : Prop := Forall (fun q => sq_socket q <> s) (queues n).
Definition owned (q : socket_queue) (n : net) : Prop :=
  exists l1 l2, queues n = l1 ++ q :: l2 /\ Forall (fun q => sq_socket q <> s) l1 /\
    Forall (fun q => sq_socket q <> s) l2 /\ sq_socket q = s.

(** The queue holds the header bytes [hs] and the data [d]. *)
Definition block_ok (q : socket_queue) : Prop :=
  length (fixed_header q) = 5%nat /\ 0 <= buflen q <= Z.of_nat (length (buf q)).
Definition queue_ok (hs d : list Z) (q : socket_queue) : Prop :=
  block_ok q /\ headerlen q = Some (length hs) /\ take (length hs) (fixed_header q) = hs /\
  datalen q = Z.of_nat (length d) /\ exists r, buf q = d ++ r.

(** The default queue is free. *)
Definition def_ok (n : net) : Prop :=
  sq_socket (def_queue n) = 0 /\ datalen (def_queue n) = 0 /\ block_ok (def_queue n).

(** The header bytes [hs], of which [i] are read in this attempt, and the data [d] are kept for the
    socket: in a queue of its own, or in the default queue when nothing was interrupted yet. *)
Definition store (hs d : list Z) (i : nat) (n : net) : Prop :=
  (exists q, owned q n /\ index q = i /\ queue_ok hs d q /\ def_ok n) \/
  (absent n /\ i = length hs /\ d = [] /\
    ((hs = [] /\ def_ok n) \/
     (hs <> [] /\ sq_socket (def_queue n) = s /\ index (def_queue n) = length hs /\
      queue_ok hs [] (def_queue n)))).

Lemma find_absent n : absent n -> find_queue s n = None.
Proof. intros H. unfold find_queue. by apply list_find_None. Qed.

Lemma find_split l1 q l2 n :
  queues n = l1 ++ q :: l2 -> Forall (fun q => sq_socket q <> s) l1 -> sq_socket q = s ->
  find_queue s n = Some (length l1, q).
Proof.
  intros E H1 Hq. unfold find_queue. rewrite E, list_find_app_r by by apply list_find_None.
  simpl. rewrite decide_True by done. done.
Qed.

Lemma find_owned q n : owned q n -> exists i, find_queue s n = Some (i, q).
Proof. intros (l1 & l2 & E & H1 & H2 & Hq). eexists. by eapply find_split. Qed.

(** The queue of the socket is replaced. *)
Lemma owned_insert q q' n i :
  owned q n -> sq_socket q' = s -> find_queue s n = Some (i, q) ->
  owned q' (set_queues (def_queue n) (<[i := q']> (queues n)) n).
Proof.
  intros (l1 & l2 & E & H1 & H2 & Hq) Hq' Hf. erewrite find_split in Hf by done. injection Hf as <-.
  exists l1, l2. simpl. rewrite E, insert_app_r_alt, Nat.sub_diag by lia. done.
Qed.

Lemma owned_delete q n i d :
  owned q n -> find_queue s n = Some (i, q) -> absent (set_queues d (delete i (queues n)) n).
Proof.
  intros (l1 & l2 & E & H1 & H2 & Hq) Hf. erewrite find_split in Hf by done. injection Hf as <-.
  unfold absent. simpl. rewrite E, delete_middle. by apply Forall_app.
Qed.

Lemma owned_not_absent q n : owned q n -> ~ absent n.
Proof.
  intros (l1 & l2 & E & _ & _ & Hq) H. unfold absent in H. rewrite E in H.
  apply Forall_app in H as [_ H]. by apply Forall_cons in H as [? _].
Qed.

(** A byte of the header that was read before. *)
Lemma getQueuedChar_replay hs d i n c :
  store hs d i n -> hs !! i = Some c ->
  exists n', SocketBuffer_getQueuedChar s n = Ret (SOCKETBUFFER_COMPLETE, Some c, n') /\
    store hs d (S i) n' /\ n_in n' = n_in n.
Proof.
  intros Hs Hc. pose proof (lookup_lt_Some _ _ _ Hc) as Hi.
  destruct Hs as [(q & Ho & Hi' & (Hb & Hl & Ht & Hd & Hr) & Hdef)|(_ & -> & _)]; [|lia].
  destruct (find_owned q n Ho) as [j Hf]. unfold SocketBuffer_getQueuedChar. rewrite Hf, Hl, Hi'.
  cbn [obind deref]. rewrite bool_decide_eq_true_2 by lia.
  assert (Hfix : fixed_header q !! i = Some c) by (rewrite <- Ht, lookup_take_Some in Hc; tauto).
  rewrite Hfix. cbn [obind deref]. eexists. split; [reflexivity|]. split; [|done].
  left. match goal with |- context [<[j := ?q']> _] => exists q' end.
  split; [|split; [done|split; [|exact Hdef]]].
  - apply (owned_insert q); [done| |done]. simpl. by destruct Ho as (? & ? & _ & _ & _ & ?).
  - by split_and!.
Qed.

(** No byte is kept for the next read. *)
Lemma getQueuedChar_none hs d n :
  store hs d (length hs) n -> (length hs < 5)%nat ->
  SocketBuffer_getQueuedChar s n = Ret (SOCKETBUFFER_INTERRUPTED, None, n).
Proof.
  intros [(q & Ho & Hi & (_ & Hl & _) & _)|(Ha & _)] H5; unfold SocketBuffer_getQueuedChar.
  - destruct (find_owned q n Ho) as [j ->]. rewrite Hl, Hi. cbn [obind deref].
    by rewrite !bool_decide_eq_false_2 by lia.
  - by rewrite find_absent.
Qed.

Lemma push_char_ok hs q b :
  block_ok q -> take (length hs) (fixed_header q) = hs -> datalen q = 0 -> index q = length hs ->
  (length hs < 5)%nat -> queue_ok (hs ++ [b]) [] (push_char b q).
Proof.
  intros [Hf Hb] Ht Hd Hi H5. unfold push_char. rewrite Hi.
  unfold queue_ok, block_ok. simpl. split_and!; [by rewrite length_insert|lia|lia| | |done|by eexists].
  - f_equal. rewrite length_app. simpl. lia.
  - rewrite length_app. simpl. rewrite Nat.add_1_r.
    rewrite (take_S_r _ _ b) by (apply list_lookup_insert_eq; lia).
    rewrite take_insert_ge by lia. by rewrite Ht.
Qed.

(** The next byte of the header. *)
Lemma queueChar_store hs n b :
  store hs [] (length hs) n -> (length hs < 5)%nat ->
  store (hs ++ [b]) [] (S (length hs)) (SocketBuffer_queueChar s b n).
Proof.
  intros Hs H5. unfold SocketBuffer_queueChar.
  assert (Hne : hs ++ [b] <> []) by by destruct hs.
  assert (Hlen : S (length hs) = length (hs ++ [b])) by (rewrite length_app; simpl; lia).
  destruct Hs as [(q & Ho & Hi & (Hb & Hl & Ht & Hd & Hr) & Hdef)|(Ha & _ & _ & Hd)].
  - destruct (find_owned q n Ho) as [j Hf]. rewrite Hf, bool_decide_eq_false_2 by lia.
    left. exists (push_char b q). split_and!; [|simpl; congruence|by apply push_char_ok|exact Hdef].
    apply (owned_insert q); [done| |done]. simpl. by destruct Ho as (? & ? & _ & _ & _ & ?).
  - rewrite find_absent by done. right.
    destruct Hd as [(-> & (H0 & Hdl & Hb))|(Hne0 & Hsock & Hi & (Hb & Hl & Ht & Hd & Hr))].
    + rewrite H0, Z.eqb_refl. split_and!; [done..|]. right. split_and!; [done..|].
      by apply (push_char_ok []).
    + rewrite Hsock. destruct (Z.eqb_spec s 0); [done|]. rewrite Z.eqb_refl. cbn [negb].
      rewrite bool_decide_eq_false_2 by lia. split_and!; [done..|]. right. split_and!; [done|done| |].
      * simpl. lia.
      * by apply push_char_ok.
Qed.

(** An interruption: the next attempt starts again with what is kept.  [d'] is the data in the block. *)
Lemma rewind_ok hs d d' q :
  queue_ok hs d q -> (exists r, buf q = d' ++ r) -> queue_ok hs d' (rewind (Z.of_nat (length d')) q).
Proof. intros (Hb & Hl & Ht & Hd & Hr) Hr'. by split_and!. Qed.

Lemma def_ok_new q n : def_ok (set_queues SocketBuffer_newDefQ q n).
Proof.
  unfold SocketBuffer_newDefQ, def_ok, block_ok. cbn [set_queues def_queue sq_socket datalen buflen buf
    fixed_header]. rewrite !length_replicate. split_and!; lia || done.
Qed.

Lemma cur_owned q n : owned q n -> cur_queue s n = q.
Proof. intros H. destruct (find_owned q n H) as [j Hf]. unfold cur_queue. by rewrite Hf. Qed.

Lemma cur_absent n : absent n -> cur_queue s n = def_queue n.
Proof. intros H. unfold cur_queue. by rewrite find_absent. Qed.

Lemma store_cur hs d i n : store hs d i n -> hs <> [] -> queue_ok hs d (cur_queue s n).
Proof.
  intros [(q & Ho & _ & Hq & _)|(Ha & _ & -> & [[-> _]|(_ & _ & _ & Hq)])] Hne; [|done|].
  - by rewrite (cur_owned q).
  - by rewrite cur_absent.
Qed.

Lemma interrupted_store hs d d' i n r :
  store hs d i n -> hs <> [] -> buf (cur_queue s n) = d' ++ r ->
  store hs d' 0 (SocketBuffer_interrupted s (Z.of_nat (length d')) n).
Proof.
  intros Hs Hne Hr. pose proof (store_cur _ _ _ _ Hs Hne) as Hq. unfold SocketBuffer_interrupted. left.
  exists (rewind (Z.of_nat (length d')) (cur_queue s n)).
  assert (Hq' : queue_ok hs d' (rewind (Z.of_nat (length d')) (cur_queue s n))) by (eapply rewind_ok; eauto).
  destruct Hs as [(q & Ho & Hi & _ & Hdef)|(Ha & _ & _ & Hd)].
  - destruct (find_owned q n Ho) as [j Hf]. rewrite Hf. rewrite (cur_owned q n Ho) in Hq' |- *.
    split_and!; [|done|done|exact Hdef].
    apply (owned_insert q); [done| |done]. simpl. by destruct Ho as (? & ? & _ & _ & _ & ?).
  - rewrite find_absent by done. destruct Hd as [[-> _]|(_ & Hsock & _)]; [done|].
    rewrite cur_absent in Hq' |- * by done. split_and!; [|done|done|apply def_ok_new].
    by exists (queues n), [].
Qed.

Lemma interrupted_header hs n :
  store hs [] (length hs) n -> store hs [] 0 (SocketBuffer_interrupted s 0 n).
Proof.
  intros Hs. destruct hs as [|h hs].
  - unfold SocketBuffer_interrupted. destruct Hs as [(q & Ho & Hi & Hq & Hdef)|(Ha & _ & _ & [[_ Hdef]|[? _]])]; [| |done].
    + destruct (find_owned q n Ho) as [j Hf]. rewrite Hf. left. exists (rewind 0 q).
      split_and!; [|done| |exact Hdef].
      * apply (owned_insert q); [done| |done]. simpl. by destruct Ho as (? & ? & _ & _ & _ & ?).
      * by apply (rewind_ok [] [] [] q); [|eexists].
    + rewrite find_absent by done. right. split_and!; [|done|done|left; split; [done|apply def_ok_new]].
      apply Forall_app. split; [done|]. constructor; [|done]. simpl. destruct Hdef as [-> _]. congruence.
  - by eapply (interrupted_store _ [] [] _ n).
Qed.

Lemma complete_store hs d i n :
  store hs d i n -> hs <> [] -> store [] [] 0 (SocketBuffer_complete s n) /\
    buf (def_queue (SocketBuffer_complete s n)) = buf (cur_queue s n).
Proof.
  intros Hs Hne. pose proof (store_cur _ _ _ _ Hs Hne) as (Hb & _). unfold SocketBuffer_complete.
  destruct Hs as [(q & Ho & Hi & Hq & Hdef)|(Ha & _ & _ & Hd)].
  - destruct (find_owned q n Ho) as [j Hf]. rewrite Hf. rewrite (cur_owned q n Ho) in Hb |- *.
    split; [|done]. right. split_and!; [|done|done|].
    + apply (owned_delete q n j q Ho Hf).
    + left. by split_and!.
  - rewrite find_absent by done. rewrite cur_absent in Hb |- * by done. split; [|done].
    right. split_and!; [done..|]. left. by split_and!.
Qed.

(** A change of the queue that keeps what is stored. *)
Lemma update_store hs d i n f :
  store hs d i n -> hs <> [] ->
  (let q := cur_queue s n in
   queue_ok hs d (f q) /\ sq_socket (f q) = sq_socket q /\ index (f q) = index q) ->
  store hs d i (update_queue s f n) /\ cur_queue s (update_queue s f n) = f (cur_queue s n).
Proof.
  intros Hs Hne (Hq' & Hs' & Hi'). unfold update_queue.
  destruct Hs as [(q & Ho & Hi & Hq & Hdef)|(Ha & Hi & -> & Hd)].
  - destruct (find_owned q n Ho) as [j Hj]. rewrite Hj. rewrite (cur_owned _ _ Ho) in Hq', Hs', Hi'.
    assert (Ho' : owned (f q) (set_queues (def_queue n) (<[j := f q]> (queues n)) n)).
    { apply (owned_insert q); [done| |done]. rewrite Hs'. by destruct Ho as (? & ? & _ & _ & _ & ?). }
    rewrite (cur_owned _ _ Ho'), (cur_owned _ _ Ho). split; [|done]. left. exists (f q).
    split_and!; [done|congruence|done|exact Hdef].
  - rewrite find_absent by done. destruct Hd as [[-> _]|(_ & Hsock & Hidx & Hq)]; [done|].
    rewrite cur_absent in Hq', Hs', Hi' by done. split.
    + right. split_and!; [done..|]. right. split_and!; [done|simpl; congruence|simpl; congruence|done].
    + rewrite cur_absent by done. by rewrite cur_absent by done.
Qed.

Lemma grow_ok hs d q size :
  queue_ok hs d q -> Z.of_nat (length d) <= size ->
  queue_ok hs d (grow size q) /\ size <= Z.of_nat (length (buf (grow size q))).
Proof.
  intros ((Hf & Hb) & Hl & Ht & Hd & r & Hr) Hsz. unfold grow.
  destruct (Z.ltb_spec (buflen q) size) as [Hlt|Hge]; [|split; [by split_and!; eauto|lia]].
  set (keep := if 0 <? datalen q then _ else _).
  set (kept := take (Z.to_nat size) (take keep (buf q))).
  assert (Hk : (length kept <= Z.to_nat size)%nat) by (subst kept; rewrite length_take; lia).
  assert (Hkd : exists r', kept = d ++ r').
  { subst kept. rewrite take_take. exists (take (Z.to_nat size `min` keep - length d) r).
    rewrite Hr, take_app_ge; [done|]. subst keep. rewrite Hd, Hr, length_app.
    destruct (Z.ltb_spec 0 (Z.of_nat (length d))); lia. }
  destruct Hkd as [r' Hkd]. unfold queue_ok, block_ok. simpl. rewrite length_app, length_replicate.
  split_and!; try done; try lia. rewrite Hkd, <- app_assoc. by eexists.
Qed.

Lemma recv_spec size n :
  Forall quiet (inputs n) -> (0 < size)%nat ->
  (exists n', recv s size n = (RAgain, n') /\ flat (inputs n') = flat (inputs n) /\
     Forall quiet (inputs n') /\ (inputs n = [] \/ (length (inputs n') < length (inputs n))%nat) /\
     def_queue n' = def_queue n /\ queues n' = queues n) \/
  (exists b l n', recv s size n = (RData b l, n') /\ flat (inputs n) = (b :: l) ++ flat (inputs n') /\
     Forall quiet (inputs n') /\ (length (b :: l) <= size)%nat /\
     (length (b :: l) = size \/ (length (inputs n') < length (inputs n))%nat) /\
     (length (inputs n') <= length (inputs n))%nat /\
     def_queue n' = def_queue n /\ queues n' = queues n).
Proof.
  intros Hq Hs. unfold recv. fold (inputs n). destruct (inputs n) as [|[b l| | |] rest] eqn:E;
    try (by apply Forall_cons in Hq as [[] _]).
  - left. exists n. split; [done|]. rewrite E. split; [done|]. split; [done|]. split; [by left|done].
  - apply Forall_cons in Hq as [_ Hq]. destruct size as [|size]; [lia|]. right.
    exists b, (take size l). eexists. split; [reflexivity|].
    unfold inputs. simpl n_in. rewrite lookup_insert_eq. simpl drop. cbn [default].
    pose proof (take_drop size l) as Htd. destruct (drop size l) as [|b' l'] eqn:Ed.
    + rewrite app_nil_r in Htd. rewrite Htd. unfold flat. simpl. split_and!; [done|done| |right; lia|lia|done|done].
      apply (f_equal length) in Ed. rewrite length_drop in Ed. simpl in Ed. lia.
    + unfold flat. simpl. split_and!; [|by constructor| | |lia|done|done].
      * f_equal. rewrite <- Htd at 1. by rewrite <- app_assoc.
      * rewrite length_take. lia.
      * left. apply (f_equal length) in Ed. rewrite length_drop in Ed. simpl in Ed. rewrite length_take. lia.
  - apply Forall_cons in Hq as [_ Hq]. left. eexists. split; [reflexivity|].
    unfold inputs. simpl n_in. rewrite lookup_insert_eq. simpl. split_and!; [done|done|right; lia|done|done].
Qed.

Lemma store_same hs d i n n' :
  def_queue n' = def_queue n -> queues n' = queues n -> store hs d i n -> store hs d i n'.
Proof. unfold store, owned, absent, def_ok. by intros -> ->. Qed.

(** The buffers' operations leave the inputs alone. *)
Lemma buffers_inputs c z f n :
  n_in (SocketBuffer_interrupted s z n) = n_in n /\ n_in (SocketBuffer_complete s n) = n_in n /\
  n_in (SocketBuffer_queueChar s c n) = n_in n /\ n_in (update_queue s f n) = n_in n.
Proof.
  unfold SocketBuffer_interrupted, SocketBuffer_complete, SocketBuffer_queueChar, update_queue.
  destruct (find_queue s n) as [[? ?]|]; split_and!; try done; repeat case_match; done.
Qed.

Lemma getch_replay hs d i n c :
  store hs d i n -> hs !! i = Some c ->
  exists n', Socket_getch s n = Ret (TCPSOCKET_COMPLETE, Some c, n') /\ store hs d (S i) n' /\
    inputs n' = inputs n.
Proof.
  intros Hs Hc. destruct (getQueuedChar_replay hs d i n c Hs Hc) as (n' & E & Hs' & Hin).
  exists n'. unfold Socket_getch. rewrite E. split; [done|]. split; [done|]. unfold inputs. by rewrite Hin.
Qed.

(** [getch] and [getdata] make progress in the inputs, or have run out of them. *)
Definition progress (n n' : net) : Prop :=
  Forall quiet (inputs n') /\ (inputs n = [] \/ (length (inputs n') < length (inputs n))%nat).

Lemma getch_fresh hs n :
  store hs [] (length hs) n -> (length hs < 5)%nat -> Forall quiet (inputs n) ->
  (exists n', Socket_getch s n = Ret (TCPSOCKET_INTERRUPTED, None, n') /\ store hs [] 0 n' /\
     flat (inputs n') = flat (inputs n) /\ progress n n') \/
  (exists b n', Socket_getch s n = Ret (TCPSOCKET_COMPLETE, Some b, n') /\
     store (hs ++ [b]) [] (S (length hs)) n' /\ flat (inputs n) = b :: flat (inputs n') /\
     Forall quiet (inputs n') /\ (length (inputs n') <= length (inputs n))%nat).
Proof.
  intros Hs H5 Hq. unfold Socket_getch. rewrite (getQueuedChar_none _ _ _ Hs) by done. cbn [obind].
  change (negb (SOCKETBUFFER_INTERRUPTED =? SOCKETBUFFER_INTERRUPTED)) with false. cbn iota.
  destruct (recv_spec 1 n Hq ltac:(lia)) as
    [(n' & -> & Hf & Hq' & Hp & Hd & Hqs)|(b & l & n' & -> & Hf & Hq' & Hl & _ & Hle & Hd & Hqs)].
  - left. eexists. split; [reflexivity|]. destruct (buffers_inputs 0 0 id n') as (E & _).
    split; [by apply interrupted_header, (store_same _ _ _ n)|]. unfold progress, inputs. by rewrite E.
  - right. destruct l; [|simpl in Hl; lia]. exists b. eexists. split; [reflexivity|].
    destruct (buffers_inputs b 0 id n') as (_ & _ & E & _).
    split; [by apply queueChar_store; [apply (store_same _ _ _ n)|]|]. unfold inputs in *. by rewrite E.
Qed.

Lemma splice_spec (d l r : list Z) :
  (length l <= length r)%nat ->
  splice (length d) l (d ++ r) = Ret (d ++ l ++ drop (length l) r).
Proof.
  intros Hl. unfold splice. rewrite bool_decide_eq_true_2 by (rewrite length_app; lia).
  rewrite take_app_length. do 3 f_equal. by rewrite drop_app_add.
Qed.

(** The data [x] that arrived is put behind what the queue has. *)
Lemma arrived hs d x n :
  store hs d (length hs) n -> hs <> [] -> Z.of_nat (length (d ++ x)) <= Z.of_nat (length (buf (cur_queue s n))) ->
  exists mem r, splice (length d) x (buf (cur_queue s n)) = Ret mem /\ mem = (d ++ x) ++ r /\
    let n' := update_queue s (fun q => SQ (sq_socket q) (index q) (headerlen q) (fixed_header q) (buflen q) (datalen q) mem) n in
    inputs n' = inputs n /\ store hs d (length hs) n' /\ buf (cur_queue s n') = mem.
Proof.
  intros Hs Hne Hroom. destruct (store_cur _ _ _ _ Hs Hne) as ((Hfx & Hbl) & Hhl & Ht & Hdl & r & Hr).
  assert (Hlr : (length x <= length r)%nat) by (rewrite Hr, !length_app in Hroom; lia).
  rewrite Hr, splice_spec by done. set (mem := d ++ x ++ drop (length x) r).
  assert (Hmlen : length mem = length (buf (cur_queue s n))) by (subst mem; rewrite Hr, !length_app, length_drop; lia).
  exists mem, (drop (length x) r). split; [done|]. split; [subst mem; by rewrite app_assoc|]. cbv zeta.
  set (f := fun q => SQ (sq_socket q) (index q) (headerlen q) (fixed_header q) (buflen q) (datalen q) mem).
  split; [unfold inputs; by rewrite (proj2 (proj2 (proj2 (buffers_inputs 0 0 f n))))|].
  destruct (update_store hs d _ n f Hs Hne) as [? ->]; [|done]. split; [|done].
  unfold queue_ok, block_ok. simpl. rewrite Hmlen. split_and!; try done; try lia. by eexists.
Qed.

Lemma getdata_spec hs d size n :
  store hs d (length hs) n -> hs <> [] -> Z.of_nat (length d) < size -> Forall quiet (inputs n) ->
  (exists mem n', Socket_getdata s size n = Ret (Some mem, Z.of_nat (length d), n') /\ store hs d 0 n' /\
     flat (inputs n') = flat (inputs n) /\ progress n n') \/
  (exists l mem r n', Socket_getdata s size n = Ret (Some mem, Z.of_nat (length (d ++ l)), n') /\
     mem = (d ++ l) ++ r /\ flat (inputs n) = l ++ flat (inputs n') /\ Forall quiet (inputs n') /\
     Z.of_nat (length (d ++ l)) <= size /\
     (if Z.of_nat (length (d ++ l)) =? size then store [] [] 0 n' else store hs (d ++ l) 0 n' /\ progress n n')).
Proof.
  intros Hs Hne Hsz Hq. unfold Socket_getdata. destruct (Z.eqb_spec size 0); [lia|].
  assert (Ha : fst (SocketBuffer_getQueuedData s size n) = Z.of_nat (length d)).
  { unfold SocketBuffer_getQueuedData. simpl. destruct Hs as [(q & Ho & _ & Hqk & _)|(Hab & _ & -> & _)].
    - destruct (find_owned q n Ho) as [j ->]. apply Hqk.
    - by rewrite find_absent. }
  destruct (update_store hs d _ n (grow size) Hs Hne) as [Hs1 Hc1].
  { split; [apply grow_ok; [by eapply store_cur|lia]|]. unfold grow. by destruct (_ <? _). }
  destruct (SocketBuffer_getQueuedData s size n) as [al n1] eqn:E. simpl in Ha. subst al.
  unfold SocketBuffer_getQueuedData in E. injection E as _ E. rewrite E in Hs1, Hc1.
  assert (Hin1 : inputs n1 = inputs n).
  { rewrite <- E. unfold inputs. by rewrite (proj2 (proj2 (proj2 (buffers_inputs 0 0 _ _)))). }
  assert (Hroom : size <= Z.of_nat (length (buf (cur_queue s n1)))).
  { rewrite Hc1. eapply grow_ok; [by eapply store_cur|lia]. }
  clear E Hc1. rewrite <- Hin1 in Hq |- *. unfold progress. rewrite <- Hin1. clear Hin1 Hs.
  destruct (recv_spec (Z.to_nat (size - Z.of_nat (length d))) n1 Hq ltac:(lia)) as
    [(n2 & -> & Hf & Hq' & Hp & Hd & Hqs)|(b & l & n2 & -> & Hf & Hq' & Hl & Hl' & Hle & Hd & Hqs)];
    pose proof (store_same _ _ _ _ _ Hd Hqs Hs1) as Hs2.
  - left. eexists _, _. split; [reflexivity|].
    destruct (buffers_inputs 0 (Z.of_nat (length d)) id n2) as (E & _).
    destruct (store_cur _ _ _ _ Hs2 Hne) as (_ & _ & _ & _ & r & Hr).
    split; [by eapply interrupted_store|]. unfold inputs in *. by rewrite E.
  - right. assert (Hcur : cur_queue s n2 = cur_queue s n1) by (unfold cur_queue, find_queue; by rewrite Hqs, Hd).
    assert (Hsz' : Z.of_nat (length (d ++ b :: l)) <= size) by (rewrite length_app; lia).
    destruct (arrived hs d (b :: l) n2 Hs2 Hne) as (mem & r & E & Em & Hin3 & Hs3 & Hb3); [rewrite Hcur; lia|].
    rewrite Nat2Z.id, E. cbn [obind].
    replace (Z.of_nat (length d) + Z.of_nat (length (b :: l))) with (Z.of_nat (length (d ++ b :: l)))
      by (rewrite length_app; lia).
    exists (b :: l), mem, r. eexists. split; [reflexivity|]. split; [done|].
    set (n3 := update_queue s _ n2) in *. clearbody n3.
    destruct (buffers_inputs 0 (Z.of_nat (length (d ++ b :: l))) id n3) as (E1 & E2 & _).
    destruct (Z.eqb_spec (Z.of_nat (length (d ++ b :: l))) size) as [Es|Es]; unfold inputs in *;
      rewrite ?E1, ?E2, Hin3; (split; [done|split; [done|split; [done|]]]).
    + by eapply complete_store.
    + split; [|split; [done|]].
      * eapply interrupted_store; [done|done|]. by rewrite Hb3, Em.
      * right. destruct Hl' as [Hl'|?]; [|done]. rewrite length_app in Es. lia.
Qed.
End Store.
