(* ===== verification/LinkedList.v ===== *)
(** * LinkedList: the doubly linked lists of the MQTT client (LinkedList.c, LinkedList.h)

    The elements live in a heap; a pointer is an optional location, and following a pointer that is
    not allocated is a [Fault].  [current] is the element the last search found.  The list with a
    cursor, [clist], is what the rest of the client uses; the operations on the heap implement it. *)

From Stdlib Require Import ZArith Lia.
From stdpp Require Import base tactics numbers list gmap.
From S2P Require Import Prelude.

Notation loc := nat (only parsing).
Notation ptr := (option nat) (only parsing).

Section LinkedList.
(** The pointers to the contents. *)
Context {A : Type} `{!EqDecision A}.

Record ListElement : Type := LE {
  prev : ptr;
  next : ptr;
  content : A
}.

(** A list with its elements, and the contents that were freed. *)
Record List : Type := MkList {
  elems : gmap loc ListElement;
  first : ptr;
  last : ptr;
  current : ptr;
  count : Z;
  size : Z;
  freed : list A
}.

Definition set_elems (h : gmap loc ListElement) (l : List) : List :=
  MkList h (first l) (last l) (current l) (count l) (size l) (freed l).
Definition set_first (p : ptr) (l : List) : List :=
  MkList (elems l) p (last l) (current l) (count l) (size l) (freed l).
Definition set_last (p : ptr) (l : List) : List :=
  MkList (elems l) (first l) p (current l) (count l) (size l) (freed l).
Definition set_current (p : ptr) (l : List) : List :=
  MkList (elems l) (first l) (last l) p (count l) (size l) (freed l).
Definition set_count (n sz : Z) (l : List) : List :=
  MkList (elems l) (first l) (last l) (current l) n sz (freed l).
Definition add_freed (c : A) (l : List) : List :=
  MkList (elems l) (first l) (last l) (current l) (count l) (size l) (freed l ++ [c]).

Definition load (p : ptr) (l : List) : outcome ListElement :=
  let! a := deref p in deref (elems l !! a).

Definition store (p : ptr) (e : ListElement) (l : List) : outcome List :=
  let! a := deref p in
  let! _ := deref (elems l !! a) in
  Ret (set_elems (<[a := e]> (elems l)) l).

Definition set_next (p q : ptr) (l : List) : outcome List :=
  let! e := load p l in store p (LE (prev e) q (content e)) l.
Definition set_prev (p q : ptr) (l : List) : outcome List :=
  let! e := load p l in store p (LE q (next e) (content e)) l.

Definition free_elem (p : ptr) (l : List) : outcome List :=
  let! a := deref p in
  let! _ := deref (elems l !! a) in
  Ret (set_elems (delete a (elems l)) l).

(** [malloc (sizeof (ListElement))], with the fields written next. *)
Definition malloc_elem (e : ListElement) (l : List) : ptr * List :=
  let a := fresh (dom (elems l)) in (Some a, set_elems (<[a := e]> (elems l)) l).

(** ** The operations *)

Definition ListZero : List := MkList ∅ None None None 0 0 [].
Definition ListInitialize : List := ListZero.

Definition ListAppendNoMalloc (c : A) (newel : ptr) (sz : Z) (l : List) : outcome List :=
  let! l1 := store newel (LE (last l) None c) l in
  let! l2 := match first l1 with
             | None => Ret (set_first newel l1)
             | Some _ => set_next (last l1) newel l1
             end in
  let l3 := set_last newel l2 in
  Ret (set_count (count l3 + 1) (s32 (size l3 + sz)) l3).

Definition ListAppend (c : A) (sz : Z) (l : List) : outcome List :=
  let (newel, l1) := malloc_elem (LE None None c) l in ListAppendNoMalloc c newel sz l1.

Definition ListInsert (c : A) (sz : Z) (index : ptr) (l : List) : outcome List :=
  let (newel, l1) := malloc_elem (LE None None c) l in
  match index with
  | None => ListAppendNoMalloc c newel sz l1
  | Some _ =>
      let! e := load index l1 in
      let! l2 := store newel (LE (prev e) index c) l1 in
      let! l3 := set_prev index newel l2 in
      let! n := load newel l3 in
      let! l4 := match prev n with
                 | Some _ => set_next (prev n) newel l3
                 | None => Ret (set_first newel l3)
                 end in
      Ret (set_count (count l4 + 1) (s32 (size l4 + sz)) l4)
  end.

Definition ListNextElement (l : List) (pos : ptr) : outcome ptr :=
  match pos with None => Ret (first l) | Some _ => let! e := load pos l in Ret (next e) end.

Definition ListPrevElement (l : List) (pos : ptr) : outcome ptr :=
  match pos with None => Ret (last l) | Some _ => let! e := load pos l in Ret (prev e) end.

(** The search from the element after [pos] on.  [same] compares with the content looked for, by
    pointer or with the callback.  The loop runs once per element. *)
Fixpoint find_loop (fuel : nat) (same : A -> bool) (l : List) (pos : ptr) : outcome ptr :=
  match fuel with
  | O => Blocked
  | S fuel' =>
      let! p := ListNextElement l pos in
      match p with
      | None => Ret None
      | Some _ => let! e := load p l in if same (content e) then Ret p else find_loop fuel' same l p
      end
  end.

Definition ListFindItem (same : A -> bool) (l : List) : outcome (ptr * List) :=
  let! hit := match current l with
              | None => Ret false
              | Some _ => let! e := load (current l) l in Ret (same (content e))
              end in
  if hit then Ret (current l, l)
  else
    let! rc := find_loop (S (base.size (elems l))) same l None in
    Ret (rc, match rc with Some _ => set_current rc l | None => l end).

Definition ListFind (c : A) (l : List) : outcome (ptr * List) :=
  ListFindItem (fun x => bool_decide (x = c)) l.

(** The removal of the current element, where [saved] was current before the search. *)
Definition unlink_current (saved : ptr) (freeContent : bool) (l1 : List) : outcome (bool * List) :=
  let! e := load (current l1) l1 in
  let! l2 := match prev e with
             | None => Ret (set_first (next e) l1)
             | Some _ => set_next (prev e) (next e) l1
             end in
  let! e2 := load (current l2) l2 in
  let! l3 := match next e2 with
             | None => Ret (set_last (prev e2) l2)
             | Some _ => set_prev (next e2) (prev e2) l2
             end in
  let! e3 := load (current l3) l3 in
  let l4 := if freeContent then add_freed (content e3) l3 else l3 in
  let! l5 := free_elem (current l4) l4 in
  let l6 := set_current (if bool_decide (saved = current l4) then next e3 else saved) l5 in
  Ret (true, set_count (count l6 - 1) (size l6) l6).

Definition ListUnlink (same : A -> bool) (freeContent : bool) (l : List) : outcome (bool * List) :=
  let saved := current l in
  let! (found, l1) := ListFindItem same l in
  match found with
  | None => Ret (false, l1)
  | Some _ => unlink_current saved freeContent l1
  end.

Definition ListDetach (c : A) (l : List) : outcome (bool * List) :=
  ListUnlink (fun x => bool_decide (x = c)) false l.
Definition ListRemove (c : A) (l : List) : outcome (bool * List) :=
  ListUnlink (fun x => bool_decide (x = c)) true l.
Definition ListDetachItem (same : A -> bool) (l : List) : outcome (bool * List) := ListUnlink same false l.
Definition ListRemoveItem (same : A -> bool) (l : List) : outcome (bool * List) := ListUnlink same true l.

Definition ListDetachHead (l : List) : outcome (option A * List) :=
  if 0 <? count l then
    let fst := first l in
    let! e := load fst l in
    let l1 := if bool_decide (current l = fst) then set_current (next e) l else l in
    let l2 := if bool_decide (last l1 = fst) then set_last None l1 else l1 in
    let l3 := set_first (next e) l2 in
    let! l4 := match first l3 with Some _ => set_prev (first l3) None l3 | None => Ret l3 end in
    let! l5 := free_elem fst l4 in
    Ret (Some (content e), set_count (count l5 - 1) (size l5) l5)
  else Ret (None, l).

Definition ListRemoveHead (l : List) : outcome (Z * List) :=
  let! (c, l1) := ListDetachHead l in
  Ret (0, match c with Some x => add_freed x l1 | None => l1 end).

Definition ListPopTail (l : List) : outcome (option A * List) :=
  if 0 <? count l then
    let lst := last l in
    let! e := load lst l in
    let l1 := if bool_decide (current l = lst) then set_current (prev e) l else l in
    let l2 := if bool_decide (first l1 = lst) then set_first None l1 else l1 in
    let l3 := set_last (prev e) l2 in
    let! l4 := match last l3 with Some _ => set_next (last l3) None l3 | None => Ret l3 end in
    let! l5 := free_elem lst l4 in
    Ret (Some (content e), set_count (count l5 - 1) (size l5) l5)
  else Ret (None, l).

(** The loop of [ListEmpty] and of [ListFreeNoContent]. *)
Fixpoint empty_loop (fuel : nat) (freeContent : bool) (l : List) : outcome List :=
  match first l with
  | None => Ret l
  | Some _ =>
      match fuel with
      | O => Blocked
      | S fuel' =>
          let! e := load (first l) l in
          let l1 := if freeContent then add_freed (content e) l else l in
          let! l2 := free_elem (first l) (set_first (next e) l1) in
          empty_loop fuel' freeContent l2
      end
  end.

Definition ListEmpty (l : List) : outcome List :=
  let! l1 := empty_loop (base.size (elems l)) true l in
  Ret (MkList (elems l1) None None None 0 0 (freed l1)).

(** The contents freed. *)
Definition ListFree (l : List) : outcome (list A) := let! l1 := ListEmpty l in Ret (freed l1).
Definition ListFreeNoContent (l : List) : outcome (list A) :=
  let! l1 := empty_loop (base.size (elems l)) false l in Ret (freed l1).

(** ** Lists with a cursor

    The contents in order, the position of the last element found, and the contents that were freed. *)
Record clist : Type := CList {
  items : list A;
  cursor : option nat;
  released : list A
}.

Definition c_zero : clist := CList [] None [].
Definition c_append (c : A) (k : clist) : clist := CList (items k ++ [c]) (cursor k) (released k).

(** Insert before position [i]; at the end when there is no such position. *)
Definition c_insert (c : A) (i : nat) (k : clist) : clist :=
  if bool_decide (i < length (items k))%nat then
    CList (take i (items k) ++ c :: drop i (items k))
      ((fun j => if bool_decide (i <= j)%nat then S j else j) <$> cursor k) (released k)
  else c_append c k.

(** The content at the cursor is tried first. *)
Definition c_find (same : A -> bool) (k : clist) : option nat * clist :=
  if match cursor k ≫= fun i => items k !! i with Some x => same x | None => false end then (cursor k, k)
  else match list_find (fun x => same x = true) (items k) with
       | Some (i, _) => (Some i, CList (items k) (Some i) (released k))
       | None => (None, k)
       end.

(** The cursor after the removal. *)
Definition c_moved (i : nat) (k : clist) : option nat :=
  match cursor k with
  | None => None
  | Some j => if bool_decide (j = i) then (if bool_decide (S i < length (items k))%nat then Some i else None)
              else Some (if bool_decide (i < j)%nat then Nat.pred j else j)
  end.

Definition c_unlink (same : A -> bool) (freeContent : bool) (k : clist) : bool * clist :=
  let (r, k1) := c_find same k in
  match r with
  | None => (false, k1)
  | Some i =>
      (true, CList (delete i (items k)) (c_moved i k)
        (if freeContent then released k ++ from_option (fun x => [x]) [] (items k !! i) else released k))
  end.

Definition c_head (k : clist) : option A * clist :=
  match items k with
  | [] => (None, k)
  | x :: l => (Some x, CList l (c_moved 0 k) (released k))
  end.

Definition c_tail (k : clist) : option A * clist :=
  match list.last (items k) with
  | None => (None, k)
  | Some x =>
      let n := Nat.pred (length (items k)) in
      (Some x, CList (take n (items k))
        (cursor k ≫= fun j => if bool_decide (j = n) then (match n with O => None | S m => Some m end) else Some j)
        (released k))
  end.

Definition c_empty (k : clist) : clist := CList [] None (released k ++ items k).

(** ** Representation *)

Notation entry := (nat * A)%type (only parsing).
Notation locs l := (fmap (M:=list) (fst (A:=nat) (B:=A)) l).

Definition hd_ptr (l : list entry) (nx : ptr) : ptr := match l with [] => nx | (a, _) :: _ => Some a end.
Definition last_ptr (pv : ptr) (l : list entry) : ptr :=
  match list.last l with None => pv | Some (a, _) => Some a end.

(** The elements [l] in the heap, between the neighbours [pv] and [nx]. *)
Fixpoint dll (h : gmap nat ListElement) (pv : ptr) (l : list entry) (nx : ptr) : Prop :=
  match l with
  | [] => True
  | (a, x) :: l' => h !! a = Some (LE pv (hd_ptr l' nx) x) /\ dll h (Some a) l' nx
  end.

(** [l] is exactly the list [xs]. *)
Record rep (l : List) (xs : list entry) (k : clist) : Prop := {
  rep_items : (fun e : entry => e.2) <$> xs = items k;
  rep_first : first l = hd_ptr xs None;
  rep_last : last l = last_ptr None xs;
  rep_dll : dll (elems l) None xs None;
  rep_nodup : NoDup (locs xs);
  rep_dom : forall a, is_Some (elems l !! a) <-> a ∈ locs xs;
  rep_cursor : current l = cursor k ≫= fun i => locs xs !! i;
  rep_bound : forall i, cursor k = Some i -> (i < length xs)%nat;
  rep_count : count l = Z.of_nat (length xs);
  rep_freed : freed l = released k
}.

Lemma last_ptr_app pv l1 l2 : last_ptr pv (l1 ++ l2) = last_ptr (last_ptr pv l1) l2.
Proof.
  unfold last_ptr. destruct l2 as [|e l2] using rev_ind; [by rewrite app_nil_r|].
  by rewrite app_assoc, !last_snoc.
Qed.

Lemma last_ptr_snoc pv l a x : last_ptr pv (l ++ [(a, x)]) = Some a.
Proof. unfold last_ptr. by rewrite last_snoc. Qed.

Lemma last_ptr_any pv pv' a x l : last_ptr pv ((a, x) :: l) = last_ptr pv' ((a, x) :: l).
Proof.
  destruct l as [|[b y] l _] using rev_ind; [done|]. by rewrite app_comm_cons, !last_ptr_snoc.
Qed.

Lemma hd_ptr_app l1 l2 nx : hd_ptr (l1 ++ l2) nx = hd_ptr l1 (hd_ptr l2 nx).
Proof. destruct l1 as [|[]]; done. Qed.

Lemma dll_app h pv l1 l2 nx :
  dll h pv (l1 ++ l2) nx <-> dll h pv l1 (hd_ptr l2 nx) /\ dll h (last_ptr pv l1) l2 nx.
Proof.
  revert pv. induction l1 as [|[a x] l1 IH]; intros pv.
  - simpl. unfold last_ptr. simpl. tauto.
  - cbn [app dll]. rewrite IH, hd_ptr_app.
    replace (last_ptr pv ((a, x) :: l1)) with (last_ptr (Some a) l1); [tauto|].
    change ((a, x) :: l1) with ([(a, x)] ++ l1). by rewrite last_ptr_app.
Qed.

Lemma dll_frame h h' pv l nx :
  (forall a, a ∈ locs l -> h' !! a = h !! a) -> dll h pv l nx -> dll h' pv l nx.
Proof.
  revert pv. induction l as [|[a x] l IH]; intros pv Hf; [done|]. cbn [dll].
  intros [Ha Hd]. split.
  - rewrite Hf; [done|]. csimpl. set_solver.
  - apply IH; [|done]. intros b Hb. apply Hf. csimpl. set_solver.
Qed.

Lemma dll_insert h pv l nx a e : a ∉ locs l -> dll h pv l nx -> dll (<[a := e]> h) pv l nx.
Proof. intros Ha. apply dll_frame. intros b Hb. apply lookup_insert_ne. set_solver. Qed.

Lemma dll_delete h pv l nx a : a ∉ locs l -> dll h pv l nx -> dll (delete a h) pv l nx.
Proof. intros Ha. apply dll_frame. intros b Hb. apply lookup_delete_ne. set_solver. Qed.

(** The heap after the last element of [l] got the next element [nx']; after the first one got the
    previous element [pv']. *)
Lemma dll_set_next h pv l b y nx nx' :
  NoDup (locs (l ++ [(b, y)])) -> dll h pv (l ++ [(b, y)]) nx ->
  h !! b = Some (LE (last_ptr pv l) nx y) /\ dll (<[b := LE (last_ptr pv l) nx' y]> h) pv (l ++ [(b, y)]) nx'.
Proof.
  intros Hn. rewrite fmap_app in Hn. apply NoDup_app in Hn as (_ & Hn & _).
  rewrite !dll_app. cbn [hd_ptr dll]. intros (Hl & Hb & _). split; [done|].
  split; [|by rewrite lookup_insert_eq]. apply dll_insert; [|done]. intros H. apply (Hn _ H). csimpl. set_solver.
Qed.

Lemma dll_set_prev h pv l b y nx pv' :
  NoDup (locs ((b, y) :: l)) -> dll h pv ((b, y) :: l) nx ->
  h !! b = Some (LE pv (hd_ptr l nx) y) /\ dll (<[b := LE pv' (hd_ptr l nx) y]> h) pv' ((b, y) :: l) nx.
Proof.
  csimpl. intros [Hb Hn]%NoDup_cons [He Hd]. split; [done|]. rewrite lookup_insert_eq. split; [done|].
  by apply dll_insert.
Qed.

Lemma rep_elem l l1 a x l2 k :
  rep l (l1 ++ (a, x) :: l2) k -> elems l !! a = Some (LE (last_ptr None l1) (hd_ptr l2 None) x).
Proof. intros H. pose proof (rep_dll _ _ _ H) as Hd. apply dll_app in Hd as [_ [Ha _]]. done. Qed.

Lemma rep_lookup l xs k i a x :
  rep l xs k -> xs !! i = Some (a, x) -> exists e, elems l !! a = Some e /\ content e = x.
Proof.
  intros H Hi. apply list_elem_of_split_length in Hi as (l1 & l2 & -> & _).
  rewrite (rep_elem _ _ _ _ _ _ H). by eexists.
Qed.

Lemma rep_size l xs k : rep l xs k -> base.size (elems l) = length xs.
Proof.
  intros H. rewrite <- size_dom.
  replace (dom (elems l)) with (list_to_set (C:=gset nat) (locs xs)).
  - rewrite size_list_to_set by apply H. apply length_fmap.
  - apply set_eq. intros a. rewrite elem_of_list_to_set, elem_of_dom. symmetry. apply H.
Qed.

(** A change of the elements or of the header that keeps the list. *)
Lemma rep_current l xs k p j :
  rep l xs k -> p = j ≫= (fun i => locs xs !! i) -> (forall i, j = Some i -> (i < length xs)%nat) ->
  rep (set_current p l) xs (CList (items k) j (released k)).
Proof. intros [] Hp Hj. by split. Qed.

(** *** Searching *)

Lemma last_ptr_cons a x l : is_Some (last_ptr None ((a, x) :: l)).
Proof.
  destruct l as [|[b y] l] using rev_ind; [by eexists|].
  rewrite app_comm_cons, last_ptr_snoc. by eexists.
Qed.

Lemma next_spec l l1 l2 k :
  rep l (l1 ++ l2) k -> ListNextElement l (last_ptr None l1) = Ret (hd_ptr l2 None).
Proof.
  intros H. destruct l1 as [|[b y] l1] using rev_ind.
  - unfold ListNextElement, last_ptr. simpl. by rewrite (rep_first _ _ _ H).
  - rewrite last_ptr_snoc. simpl. unfold load. simpl.
    rewrite <- app_assoc in H. simpl in H. by rewrite (rep_elem _ _ _ _ _ _ H).
Qed.

Lemma find_loop_spec same l l2 k fuel : forall l1,
  rep l (l1 ++ l2) k -> (length l2 < fuel)%nat ->
  find_loop fuel same l (last_ptr None l1) =
    Ret (match list_find (fun x => same x = true) ((fun e : entry => e.2) <$> l2) with
         | Some (i, _) => locs l2 !! i
         | None => None
         end).
Proof.
  revert fuel. induction l2 as [|[a x] l2 IH]; intros fuel l1 H Hf; (destruct fuel as [|fuel]; [simpl in Hf; lia|]);
    cbn [find_loop]; rewrite (next_spec _ _ _ _ H); cbn [obind hd_ptr]; [done|].
  unfold load. cbn [obind deref]. rewrite (rep_elem _ _ _ _ _ _ H). cbn [obind deref content]. csimpl.
  destruct (decide (same x = true)) as [->|Hs]; [done|]. apply not_true_is_false in Hs as ->.
  replace (Some a) with (last_ptr None (l1 ++ [(a, x)])) by apply last_ptr_snoc.
  rewrite (IH fuel); [|by rewrite <- app_assoc|simpl in Hf; lia].
  by destruct (list_find _ _) as [[i ?]|].
Qed.

Lemma cursor_content l xs k :
  rep l xs k ->
  match current l with
  | None => Ret None
  | Some _ => let! e := load (current l) l in Ret (Some (content e))
  end = Ret (cursor k ≫= fun i => items k !! i).
Proof.
  intros H. rewrite (rep_cursor _ _ _ H), <- (rep_items _ _ _ H). destruct (cursor k) as [i|] eqn:E; [|done].
  cbn [mbind option_bind]. destruct (lookup_lt_is_Some_2 xs i) as [[a x] Hi]; [by eapply rep_bound|].
  rewrite !list_lookup_fmap, Hi. csimpl. unfold load. csimpl.
  destruct (rep_lookup _ _ _ _ _ _ H Hi) as (e & -> & <-). done.
Qed.

(** What [c_find] finds is an item, and becomes the cursor. *)
Lemma c_find_Some same k i k' :
  c_find same k = (Some i, k') -> is_Some (items k !! i) -> k' = CList (items k) (Some i) (released k).
Proof.
  unfold c_find. destruct (cursor k) as [j|] eqn:Ec; cbn [mbind option_bind].
  - destruct (items k !! j) as [x|] eqn:Ej; [destruct (same x)|].
    + intros [= -> <-] _. by destruct k; simpl in *; subst.
    + destruct (list_find _ _) as [[]|]; by intros [= -> <-].
    + destruct (list_find _ _) as [[]|]; by intros [= -> <-].
  - destruct (list_find _ _) as [[]|]; by intros [= -> <-].
Qed.

Lemma c_find_bound same k i k' :
  (forall j, cursor k = Some j -> (j < length (items k))%nat) -> c_find same k = (Some i, k') ->
  (i < length (items k))%nat.
Proof.
  intros Hb. unfold c_find. destruct (match _ with Some _ => _ | None => _ end).
  - intros [= E _]. by apply Hb.
  - destruct (list_find _ _) as [[j x]|] eqn:E; [|done]. intros [= <- _].
    apply list_find_Some in E as (E & _). by eapply lookup_lt_Some.
Qed.

Lemma c_find_None same k k' : c_find same k = (None, k') -> k' = k.
Proof.
  unfold c_find. destruct (match _ with Some _ => _ | None => _ end); [by intros [= _ <-]|].
  destruct (list_find _ _) as [[]|]; [done|]. by intros [= <-].
Qed.

Lemma rep_items_length l xs k : rep l xs k -> length (items k) = length xs.
Proof. intros H. rewrite <- (rep_items _ _ _ H). apply length_fmap. Qed.

Lemma ListFindItem_spec same l xs k r k' :
  rep l xs k -> c_find same k = (r, k') ->
  exists l', ListFindItem same l = Ret (r ≫= fun i => locs xs !! i, l') /\ rep l' xs k' /\
    (forall i, r = Some i -> current l' = locs xs !! i /\ (i < length xs)%nat).
Proof.
  intros H Hc. unfold ListFindItem.
  assert (E : match current l with
              | None => Ret false
              | Some _ => let! e := load (current l) l in Ret (same (content e))
              end = Ret (match cursor k ≫= fun i => items k !! i with Some x => same x | None => false end)).
  { pose proof (cursor_content _ _ _ H) as E. destruct (current l).
    - destruct (load _ _); simplify_eq/=. by rewrite <- E.
    - injection E as <-. done. }
  rewrite E. cbn [obind]. clear E.
  assert (Hb : forall i, r = Some i -> (i < length xs)%nat).
  { intros i ->. rewrite <- (rep_items_length _ _ _ H). eapply c_find_bound; [|done].
    intros j Hj. rewrite (rep_items_length _ _ _ H). by eapply rep_bound. }
  unfold c_find in Hc. destruct (match _ with Some _ => _ | None => _ end).
  - injection Hc as <- <-. exists l. rewrite (rep_cursor _ _ _ H). split; [done|]. split; [done|].
    intros i Hi. split; [by rewrite Hi|by apply Hb].
  - rewrite (find_loop_spec same l xs k _ [] H) by (rewrite (rep_size _ _ _ H); lia). cbn [obind].
    rewrite (rep_items _ _ _ H). destruct (list_find _ _) as [[i x]|]; injection Hc as <- <-.
    + cbn [mbind option_bind]. specialize (Hb i eq_refl).
      destruct (lookup_lt_is_Some_2 (locs xs) i) as [a Ha]; [by rewrite length_fmap|].
      rewrite Ha. eexists. split; [done|]. split.
      * apply (rep_current l xs k); [done|done|]. by intros j [= <-].
      * by intros j [= <-].
    + exists l. by split.
Qed.

Lemma load_eq l a e : elems l !! a = Some e -> load (Some a) l = Ret e.
Proof. intros H. unfold load. cbn. by rewrite H. Qed.

Lemma store_eq l a e e' : elems l !! a = Some e -> store (Some a) e' l = Ret (set_elems (<[a := e']> (elems l)) l).
Proof. intros H. unfold store. cbn. by rewrite H. Qed.

(** *** Linking *)

Lemma set_next_spec l l1 q nx :
  NoDup (locs l1) -> dll (elems l) None l1 nx -> l1 <> [] ->
  exists h', set_next (last_ptr None l1) q l = Ret (set_elems h' l) /\ dll h' None l1 q /\
    (forall c, c ∉ locs l1 -> h' !! c = elems l !! c) /\
    (forall c, is_Some (h' !! c) <-> is_Some (elems l !! c)).
Proof.
  intros Hn Hd Hne. destruct l1 as [|[b y] l1 _] using rev_ind; [done|].
  destruct (dll_set_next _ _ _ _ _ _ q Hn Hd) as [Hb Hd']. rewrite last_ptr_snoc.
  unfold set_next, load, store. cbn [obind deref]. rewrite Hb. cbn [obind deref prev content].
  eexists. split; [reflexivity|]. split; [done|]. rewrite fmap_app. split.
  - intros c Hc. apply lookup_insert_ne. intros <-. apply Hc. csimpl. set_solver.
  - intros c. destruct (decide (b = c)) as [<-|]; [|by rewrite lookup_insert_ne]. by rewrite lookup_insert_eq, Hb.
Qed.

Lemma set_prev_spec l l2 q pv nx :
  NoDup (locs l2) -> dll (elems l) pv l2 nx -> l2 <> [] ->
  exists h', set_prev (hd_ptr l2 None) q l = Ret (set_elems h' l) /\ dll h' q l2 nx /\
    (forall c, c ∉ locs l2 -> h' !! c = elems l !! c) /\
    (forall c, is_Some (h' !! c) <-> is_Some (elems l !! c)).
Proof.
  intros Hn Hd Hne. destruct l2 as [|[b y] l2]; [done|].
  destruct (dll_set_prev _ _ _ _ _ _ q Hn Hd) as [Hb Hd']. cbn [hd_ptr].
  unfold set_prev, load, store. cbn [obind deref]. rewrite Hb. cbn [obind deref next content].
  eexists. split; [reflexivity|]. split; [done|]. csimpl. split.
  - intros c Hc. apply lookup_insert_ne. set_solver.
  - intros c. destruct (decide (b = c)) as [<-|]; [|by rewrite lookup_insert_ne]. by rewrite lookup_insert_eq, Hb.
Qed.

(** The part [l1] of the list gets the next element [q]. *)
Lemma link_next l l1 q nx :
  first l = hd_ptr l1 nx -> NoDup (locs l1) -> dll (elems l) None l1 nx ->
  exists h', match last_ptr None l1 with
             | None => Ret (set_first q l)
             | Some _ => set_next (last_ptr None l1) q l
             end = Ret (set_elems h' (set_first (hd_ptr l1 q) l)) /\ dll h' None l1 q /\
    (forall c, c ∉ locs l1 -> h' !! c = elems l !! c) /\
    (forall c, is_Some (h' !! c) <-> is_Some (elems l !! c)).
Proof.
  intros Hf Hn Hd. destruct l1 as [|[b y] l1].
  - exists (elems l). split; [by destruct l|done].
  - destruct (set_next_spec l _ q nx Hn Hd) as (h' & E & ?); [done|].
    destruct (last_ptr_cons b y l1) as [c Ec]. rewrite Ec in *. exists h'. split; [|done].
    rewrite E. do 2 f_equal. destruct l. simpl in *. by subst.
Qed.

Lemma link_prev l l2 q pv :
  last l = last_ptr pv l2 -> NoDup (locs l2) -> dll (elems l) pv l2 None ->
  exists h', match hd_ptr l2 None with
             | None => Ret (set_last q l)
             | Some _ => set_prev (hd_ptr l2 None) q l
             end = Ret (set_elems h' (set_last (last_ptr q l2) l)) /\ dll h' q l2 None /\
    (forall c, c ∉ locs l2 -> h' !! c = elems l !! c) /\
    (forall c, is_Some (h' !! c) <-> is_Some (elems l !! c)).
Proof.
  intros Hf Hn Hd. destruct l2 as [|[b y] l2].
  - exists (elems l). split; [by destruct l|done].
  - destruct (set_prev_spec l _ q pv None Hn Hd) as (h' & E & ?); [done|]. exists h'. split; [|done].
    cbn [hd_ptr] in *. rewrite E. do 2 f_equal.
    assert (Hl : last l = last_ptr q ((b, y) :: l2)).
    { rewrite Hf. apply last_ptr_any. }
    rewrite <- Hl. by destruct l.
Qed.

(** *** Unlinking *)

(** The state after the element [(a, x)] was taken out between [l1] and [l2]; the cursor is [j]. *)
Lemma rep_without l l1 a x l2 k h' p j fr :
  rep l (l1 ++ (a, x) :: l2) k ->
  dll h' None (l1 ++ l2) None ->
  (forall c, is_Some (h' !! c) <-> is_Some (elems l !! c) /\ c <> a) ->
  p = j ≫= (fun i => locs (l1 ++ l2) !! i) ->
  (forall i, j = Some i -> (i < length (l1 ++ l2))%nat) ->
  rep (MkList h' (hd_ptr (l1 ++ l2) None) (last_ptr None (l1 ++ l2)) p (count l - 1) (size l) fr) (l1 ++ l2)
    (CList (delete (length l1) (items k)) j fr).
Proof.
  intros H Hd Hdom Hp Hj. pose proof (rep_nodup _ _ _ H) as Hn. rewrite fmap_app, fmap_cons in Hn.
  assert (Ha : a ∉ locs (l1 ++ l2) /\ NoDup (locs (l1 ++ l2))).
  { rewrite fmap_app. apply NoDup_app in Hn as (H1 & H2 & H3). apply NoDup_cons in H3 as [H3 H4]. split.
    - rewrite not_elem_of_app. split; [|done]. intros Hi. apply (H2 a Hi). set_solver.
    - apply NoDup_app. split_and!; [done| |done]. intros c Hc Hc2. apply (H2 c Hc). set_solver. }
  split; cbn [first last elems current count freed items cursor released]; try done; try tauto.
  - rewrite <- (rep_items _ _ _ H), !fmap_app, fmap_cons.
    rewrite <- (length_fmap (fun e : entry => e.2) l1). symmetry. apply delete_middle.
  - intros c. rewrite Hdom, (rep_dom _ _ _ H), !fmap_app, fmap_cons, !elem_of_app, elem_of_cons.
    rewrite fmap_app, elem_of_app in Ha. destruct (decide (c = a)) as [->|]; naive_solver.
  - rewrite (rep_count _ _ _ H), !length_app. simpl. lia.
Qed.

Lemma locs_middle (l1 l2 : list entry) a x :
  NoDup (locs (l1 ++ (a, x) :: l2)) ->
  NoDup (locs l1) /\ NoDup (locs l2) /\ a ∉ locs l1 /\ a ∉ locs l2 /\ (forall c, c ∈ locs l1 -> c ∉ locs l2).
Proof.
  rewrite fmap_app, fmap_cons. intros (H1 & H2 & H3)%NoDup_app. apply NoDup_cons in H3 as [H3 H4].
  split_and!; try done; [intros Ha; apply (H2 a Ha); set_solver|intros c Hc Hc2; apply (H2 c Hc); set_solver].
Qed.

(** The element at position [i] of the locations, around a position that goes away. *)
Lemma locs_delete (l1 l2 : list entry) a x (i : nat) :
  locs (l1 ++ l2) !! i = locs (l1 ++ (a, x) :: l2) !! (if bool_decide (i < length l1)%nat then i else S i).
Proof.
  rewrite !fmap_app, fmap_cons. case_bool_decide.
  - rewrite !lookup_app_l by (by rewrite length_fmap). done.
  - rewrite !lookup_app_r by (rewrite length_fmap; lia). rewrite length_fmap.
    by replace (S i - length l1)%nat with (S (i - length l1)) by lia.
Qed.

Lemma middle_lookup (l1 l2 : list entry) a x : locs (l1 ++ (a, x) :: l2) !! length l1 = Some a.
Proof. rewrite fmap_app, fmap_cons. by rewrite <- (length_fmap fst l1), list_lookup_middle. Qed.

(** Equal pointers to elements of the list are equal positions. *)
Lemma cursor_eq l xs k i a :
  rep l xs k -> locs xs !! i = Some a -> (current l = Some a <-> cursor k = Some i).
Proof.
  intros H Hi. rewrite (rep_cursor _ _ _ H). split; [|by intros ->].
  destruct (cursor k) as [j|]; [|done]. cbn [mbind option_bind]. intros Hj.
  f_equal. eapply NoDup_lookup; [apply (rep_nodup _ _ _ H)|done|done].
Qed.

Lemma unlink_current_spec saved fc l m1 a x m2 k :
  rep l (m1 ++ (a, x) :: m2) k -> current l = Some a ->
  exists h', unlink_current saved fc l =
      Ret (true, MkList h' (hd_ptr (m1 ++ m2) None) (last_ptr None (m1 ++ m2))
        (if bool_decide (saved = Some a) then hd_ptr m2 None else saved) (count l - 1) (size l)
        (if fc then freed l ++ [x] else freed l)) /\
    dll h' None (m1 ++ m2) None /\ (forall c, is_Some (h' !! c) <-> is_Some (elems l !! c) /\ c <> a).
Proof.
  intros H Hc. destruct (locs_middle _ _ _ _ (rep_nodup _ _ _ H)) as (Hn1 & Hn2 & Ha1 & Ha2 & H12).
  pose proof (rep_dll _ _ _ H) as Hd. apply dll_app in Hd as [Hd1 [Hda Hd2]]. cbn [hd_ptr] in Hd1.
  unfold unlink_current. rewrite Hc. unfold load at 1. cbn [obind deref]. rewrite Hda. cbn [obind deref prev next].
  destruct (link_next l m1 (hd_ptr m2 None) (Some a)) as (h2 & -> & Hl1 & Hf1 & Hs1); [|done..|].
  { rewrite (rep_first _ _ _ H). by rewrite hd_ptr_app. }
  cbn [obind set_elems set_first current]. rewrite ?Hc. unfold load at 1. cbn [obind deref elems].
  rewrite Hf1, Hda by done. cbn [obind deref prev next].
  assert (Hd2' : dll h2 (Some a) m2 None).
  { apply (dll_frame (elems l)); [|done]. intros c Hc'. apply Hf1. intros Hc1. by apply (H12 c). }
  destruct (link_prev (set_elems h2 (set_first (hd_ptr m1 (hd_ptr m2 None)) l)) m2 (last_ptr None m1) (Some a))
    as (h3 & E3 & Hl2 & Hf2 & Hs2); [|done..|].
  { cbn. rewrite (rep_last _ _ _ H), last_ptr_app. change ((a, x) :: m2) with ([(a, x)] ++ m2).
    by rewrite last_ptr_app. }
  assert (Ha3 : h3 !! a = Some (LE (last_ptr None m1) (hd_ptr m2 None) x)).
  { rewrite Hf2 by done. cbn. by rewrite Hf1. }
  cbn [set_elems set_first elems] in E3 |- *. rewrite E3. clear E3.
  cbn [obind]. unfold load, free_elem, set_last, set_elems, set_first, set_current, set_count.
  cbn [obind current first last elems count size freed deref]. rewrite ?Hc. cbn [obind deref].
  rewrite Ha3. cbn [obind deref content]. exists (delete a h3). rewrite hd_ptr_app, last_ptr_app. split; [|split].
  - destruct fc; cbn; rewrite Ha3; cbn; done.
  - apply dll_app. split; [|by apply dll_delete]. apply dll_delete; [done|].
    apply (dll_frame h2); [|done]. intros c Hc'. rewrite Hf2; [done|]. by apply H12.
  - intros c. rewrite <- Hs1. cbn in Hs2. rewrite <- Hs2. destruct (decide (c = a)) as [->|Hne].
    + rewrite lookup_delete_eq. split; by intros [].
    + rewrite lookup_delete_ne by done. tauto.
Qed.

Lemma moved_spec l m1 a x m2 k :
  rep l (m1 ++ (a, x) :: m2) k ->
  (if bool_decide (current l = Some a) then hd_ptr m2 None else current l) =
    c_moved (length m1) k ≫= (fun i => locs (m1 ++ m2) !! i) /\
  (forall i, c_moved (length m1) k = Some i -> (i < length (m1 ++ m2))%nat).
Proof.
  intros H. pose proof (cursor_eq _ _ _ _ _ H (middle_lookup m1 m2 a x)) as Hce. unfold c_moved.
  rewrite (rep_items_length _ _ _ H). destruct (cursor k) as [j|] eqn:Ej.
  - pose proof (rep_bound _ _ _ H _ Ej) as Hj. rewrite length_app in Hj |- *. csimpl. simpl in Hj.
    destruct (decide (j = length m1)) as [->|Hne].
    + rewrite (bool_decide_eq_true_2 (current l = Some a)) by (by apply Hce).
      rewrite (bool_decide_eq_true_2 (length m1 = length m1)) by done.
      destruct m2 as [|[b y] m2]; csimpl; case_bool_decide; try lia; [done|]. csimpl. rewrite middle_lookup.
      split; [done|]. intros i [= <-]. rewrite length_app. simpl. lia.
    + rewrite bool_decide_eq_false_2 by (intros E; apply Hne; apply Hce in E; congruence).
      rewrite (bool_decide_eq_false_2 (j = length m1)) by done. rewrite (rep_cursor _ _ _ H), Ej. csimpl.
      rewrite (locs_delete m1 m2 a x). split; [f_equal; repeat case_bool_decide; lia|].
      intros i [= <-]. rewrite length_app. case_bool_decide; lia.
  - rewrite (rep_cursor _ _ _ H), Ej. cbn. by rewrite bool_decide_eq_false_2.
Qed.

Lemma ListUnlink_spec same fc l xs k :
  rep l xs k ->
  exists l', ListUnlink same fc l = Ret (fst (c_unlink same fc k), l') /\
    rep l' (from_option (fun i => delete i xs) xs (fst (c_find same k))) (snd (c_unlink same fc k)).
Proof.
  intros H. unfold ListUnlink, c_unlink. destruct (c_find same k) as [r k1] eqn:Ec.
  destruct (ListFindItem_spec same l xs k r k1 H Ec) as (l1 & -> & H1 & Hcur). cbn [obind].
  destruct r as [i|]; cbn [mbind option_bind]; [|by exists l1].
  destruct (Hcur i eq_refl) as [Hci Hi].
  assert (Hk1 : k1 = CList (items k) (Some i) (released k)).
  { apply c_find_Some in Ec; [done|]. apply lookup_lt_is_Some_2. by rewrite (rep_items_length _ _ _ H). }
  destruct (lookup_lt_is_Some_2 xs i Hi) as [[a x] Hx].
  pose proof Hx as Hsp. apply list_elem_of_split_length in Hsp as (m1 & m2 & -> & ->).
  rewrite middle_lookup in Hci |- *.
  destruct (unlink_current_spec (current l) fc l1 m1 a x m2 k1 H1 Hci) as (h' & -> & Hd & Hdom).
  eexists. split; [reflexivity|]. cbn [fst snd from_option]. rewrite delete_middle.
  destruct (moved_spec l m1 a x m2 k H) as [Hm Hb]. fold (c_moved (length m1) k).
  replace (items k) with (items k1) by by rewrite Hk1.
  assert (Hitems : items k1 !! length m1 = Some x) by by rewrite <- (rep_items _ _ _ H1), list_lookup_fmap, Hx.
  rewrite Hitems. cbn [from_option]. replace (released k) with (released k1) by by rewrite Hk1.
  rewrite <- (rep_freed _ _ _ H1). by apply (rep_without l1 m1 a x m2 k1).
Qed.

(** *** Inserting *)

(** The state after the new element [(a, x)] was put between [l1] and [l2]. *)
Lemma rep_with l l1 a x l2 k h' sz :
  rep l (l1 ++ l2) k -> elems l !! a = None ->
  dll h' None (l1 ++ (a, x) :: l2) None ->
  (forall c, is_Some (h' !! c) <-> c = a \/ is_Some (elems l !! c)) ->
  rep (MkList h' (hd_ptr (l1 ++ (a, x) :: l2) None) (last_ptr None (l1 ++ (a, x) :: l2)) (current l) (count l + 1)
    sz (freed l)) (l1 ++ (a, x) :: l2)
    (CList (take (length l1) (items k) ++ x :: drop (length l1) (items k))
      ((fun j => if bool_decide (length l1 <= j)%nat then S j else j) <$> cursor k) (released k)).
Proof.
  intros H Ha Hd Hdom. assert (Hni : a ∉ locs (l1 ++ l2)).
  { intros Hi. apply (rep_dom _ _ _ H) in Hi. rewrite Ha in Hi. by destruct Hi. }
  split; cbn [first last elems current count freed items cursor released]; try done.
  - rewrite <- (rep_items _ _ _ H), !fmap_app, fmap_cons. rewrite <- (length_fmap (fun e : entry => e.2) l1).
    by rewrite take_app_length, drop_app_length.
  - rewrite fmap_app, fmap_cons. rewrite <- Permutation_middle. apply NoDup_cons.
    rewrite <- fmap_app. split; [done|apply H].
  - intros c. rewrite Hdom, (rep_dom _ _ _ H), !fmap_app, fmap_cons, !elem_of_app, elem_of_cons. simpl. tauto.
  - rewrite (rep_cursor _ _ _ H). destruct (cursor k) as [j|]; [|done]. csimpl. rewrite (locs_delete l1 l2 a x).
    repeat case_bool_decide; lia || done.
  - intros i. pose proof (rep_bound _ _ _ H) as Hb. destruct (cursor k) as [j|]; [|done]. csimpl. intros [= <-].
    specialize (Hb j eq_refl). rewrite length_app in Hb |- *. simpl. case_bool_decide; lia.
  - rewrite (rep_count _ _ _ H), !length_app. simpl. lia.
  - apply H.
Qed.

(** The new element is outside of the list. *)
Lemma malloc_spec l xs k a :
  rep l xs k -> a = fresh (dom (elems l)) -> elems l !! a = None /\ a ∉ locs xs.
Proof.
  intros H ->. assert (Hn : elems l !! fresh (dom (elems l)) = None) by apply not_elem_of_dom, is_fresh.
  split; [done|]. intros Hi. apply (rep_dom _ _ _ H) in Hi. rewrite Hn in Hi. by destruct Hi.
Qed.

Lemma fst_last_match {B} (xs : list entry) (f g : B) :
  match hd_ptr xs None with None => f | Some _ => g end = match last_ptr None xs with None => f | Some _ => g end.
Proof. destruct xs as [|[a x] xs]; [done|]. by destruct (last_ptr_cons a x xs) as [? ->]. Qed.

(** The first new element is at the end. *)
Lemma AppendNoMalloc_spec l xs k a x sz e :
  rep l xs k -> elems l !! a = None ->
  exists l', ListAppendNoMalloc x (Some a) sz (set_elems (<[a := e]> (elems l)) l) = Ret l' /\
    rep l' (xs ++ [(a, x)]) (c_append x k).
Proof.
  intros H Ha. assert (Hni : a ∉ locs xs).
  { intros Hi. apply (rep_dom _ _ _ H) in Hi. rewrite Ha in Hi. by destruct Hi. }
  unfold ListAppendNoMalloc, store. cbn. rewrite lookup_insert_eq. cbn. rewrite insert_insert_eq.
  set (h1 := <[a := LE (last l) None x]> (elems l)). set (L := set_elems h1 _).
  destruct (link_next L xs (Some a) None) as (h2 & E & Hd & Hf & Hs).
  { apply H. } { apply H. } { apply dll_insert; [done|]. apply H. }
  rewrite (rep_first _ _ _ H), fst_last_match, (rep_last _ _ _ H), E. subst L. cbn. eexists. split; [reflexivity|].
  replace (Some a) with (last_ptr None (xs ++ [(a, x)])) by apply last_ptr_snoc.
  replace (hd_ptr xs (last_ptr None (xs ++ [(a, x)]))) with (hd_ptr (xs ++ [(a, x)]) None)
    by (rewrite last_ptr_snoc, hd_ptr_app; done).
  assert (Hk : c_append x k = CList (take (length xs) (items k) ++ x :: drop (length xs) (items k))
      ((fun j => if bool_decide (length xs <= j)%nat then S j else j) <$> cursor k) (released k)).
  { unfold c_append. rewrite <- (rep_items_length _ _ _ H), take_ge, drop_ge by lia. f_equal.
    pose proof (rep_bound _ _ _ H) as Hb. destruct (cursor k) as [j|]; [|done]. csimpl.
    specialize (Hb j eq_refl). rewrite (rep_items_length _ _ _ H). by rewrite bool_decide_eq_false_2 by lia. }
  rewrite Hk. apply (rep_with l xs a x [] k h2).
  - by rewrite app_nil_r.
  - done.
  - apply dll_app. split; [done|]. split; [|done]. rewrite Hf by done. subst h1. cbn.
    by rewrite lookup_insert_eq, (rep_last _ _ _ H).
  - intros c. rewrite Hs. subst h1. cbn. destruct (decide (a = c)) as [<-|].
    + rewrite lookup_insert_eq. split; [by left|done].
    + rewrite lookup_insert_ne by done. naive_solver.
Qed.

Lemma ListAppend_spec l xs k x sz :
  rep l xs k -> exists l' a, ListAppend x sz l = Ret l' /\ rep l' (xs ++ [(a, x)]) (c_append x k).
Proof.
  intros H. unfold ListAppend, malloc_elem. destruct (malloc_spec l xs k _ H eq_refl) as [Hn _].
  destruct (AppendNoMalloc_spec l xs k _ x sz (LE None None x) H Hn) as (l' & -> & Hr).
  by exists l', (fresh (dom (elems l))).
Qed.

(** A new element [a] is linked between [l1] and [(b, y) :: l2], from both sides. *)
Lemma linked_between l l1 b y l2 k a x :
  rep l (l1 ++ (b, y) :: l2) k -> elems l !! a = None -> a ∉ locs (l1 ++ (b, y) :: l2) ->
  let h1 := <[a := LE (last_ptr None l1) (Some b) x]> (elems l) in
  exists h2 h3, set_prev (Some b) (Some a) (set_elems h1 l) = Ret (set_elems h2 l) /\
    h2 !! a = Some (LE (last_ptr None l1) (Some b) x) /\
    match last_ptr None l1 with
    | None => Ret (set_first (Some a) (set_elems h2 l))
    | Some _ => set_next (last_ptr None l1) (Some a) (set_elems h2 l)
    end = Ret (set_elems h3 (set_first (hd_ptr l1 (Some a)) (set_elems h2 l))) /\
    dll h3 None (l1 ++ (a, x) :: (b, y) :: l2) None /\
    (forall c, is_Some (h3 !! c) <-> c = a \/ is_Some (elems l !! c)).
Proof.
  intros H Hn Hni h1. pose proof (rep_dll _ _ _ H) as Hd. apply dll_app in Hd as [Hd1 Hd2]. cbn [hd_ptr] in Hd1.
  pose proof (rep_nodup _ _ _ H) as Hnd. destruct (locs_middle _ _ _ _ Hnd) as (Hn1 & Hn2 & Hb1 & Hb2 & H12).
  assert (Hn12 : NoDup (locs ((b, y) :: l2))) by (rewrite fmap_cons; by apply NoDup_cons).
  rewrite fmap_app, not_elem_of_app in Hni. destruct Hni as [Ha1 Ha2].
  pose proof (rep_elem _ _ _ _ _ _ H) as Hb.
  assert (Hab : a <> b) by (intros E; rewrite E in Hn; congruence).
  destruct (set_prev_spec (set_elems h1 l) ((b, y) :: l2) (Some a) (last_ptr None l1) None Hn12) as
    (h2 & E2 & Hd2' & Hf2 & Hs2); [by apply dll_insert|done|]. cbn [hd_ptr set_elems elems] in E2, Hf2, Hs2.
  destruct (link_next (set_elems h2 l) l1 (Some a) (Some b)) as (h3 & E3 & Hd1' & Hf3 & Hs3); [|done| |].
  { cbn. by rewrite (rep_first _ _ _ H), hd_ptr_app. }
  { apply (dll_frame (elems l)); [|done]. intros c Hc. rewrite Hf2.
    - apply lookup_insert_ne. by intros <-.
    - rewrite fmap_cons. apply not_elem_of_cons. split; [by intros ->|by apply H12]. }
  assert (Hh2a : h2 !! a = Some (LE (last_ptr None l1) (Some b) x)) by (rewrite Hf2; [apply lookup_insert_eq|done]).
  exists h2, h3. split; [exact E2|]. split; [done|]. split; [exact E3|]. split.
  - apply dll_app. cbn [hd_ptr dll]. split; [done|]. split; [by rewrite Hf3|].
    apply (dll_frame h2 h3 (Some a) ((b, y) :: l2) None); [|done]. intros c Hc. apply Hf3. intros Hc1. rewrite fmap_cons, elem_of_cons in Hc.
    destruct Hc as [->|Hc]; [done|by apply (H12 c)].
  - intros c. rewrite Hs3. cbn. rewrite Hs2. subst h1. destruct (decide (a = c)) as [<-|].
    + rewrite lookup_insert_eq. split; [by left|done].
    + rewrite lookup_insert_ne by done. naive_solver.
Qed.

Lemma ListInsert_spec l xs k x sz i :
  rep l xs k -> exists l' xs', ListInsert x sz (locs xs !! i) l = Ret l' /\ rep l' xs' (c_insert x i k).
Proof.
  intros H. unfold ListInsert, malloc_elem, c_insert. rewrite (rep_items_length _ _ _ H).
  set (a := fresh (dom (elems l))). destruct (malloc_spec l xs k a H eq_refl) as [Hn Hni].
  destruct (decide (i < length xs)%nat) as [Hi|Hi].
  2: { rewrite lookup_ge_None_2 by (rewrite length_fmap; lia). rewrite bool_decide_eq_false_2 by done.
    destruct (AppendNoMalloc_spec l xs k a x sz (LE None None x) H Hn) as (l' & -> & Hr).
    by exists l', (xs ++ [(a, x)]). }
  rewrite bool_decide_eq_true_2 by done.
  destruct (lookup_lt_is_Some_2 xs i Hi) as [[b y] Hx].
  apply list_elem_of_split_length in Hx as (l1 & l2 & -> & ->). rewrite middle_lookup.
  pose proof (rep_elem _ _ _ _ _ _ H) as Hb.
  assert (Hab : a <> b) by (intros E; rewrite E in Hn; congruence).
  destruct (linked_between l l1 b y l2 k a x H Hn Hni) as (h2 & h3 & E2 & Hh2a & E3 & Hd3 & Hs3).
  rewrite (load_eq _ _ _ (eq_trans (lookup_insert_ne _ _ _ _ Hab) Hb)). cbn [obind prev].
  erewrite store_eq by apply lookup_insert_eq. cbn [obind].
  change (set_elems ?h (set_elems ?g l)) with (set_elems h l). cbn [set_elems elems].
  rewrite insert_insert_eq. fold (set_elems (<[a := LE (last_ptr None l1) (Some b) x]> (elems l)) l). rewrite E2. cbn [obind].
  rewrite (load_eq (set_elems h2 l) _ _ Hh2a). cbn [obind prev]. rewrite E3. cbn [obind].
  exists (MkList h3 (hd_ptr l1 (Some a)) (last l) (current l) (count l + 1) (s32 (size l + sz)) (freed l)),
    (l1 ++ (a, x) :: (b, y) :: l2). split; [done|].
  replace (hd_ptr l1 (Some a)) with (hd_ptr (l1 ++ (a, x) :: (b, y) :: l2) None) by by rewrite hd_ptr_app.
  replace (last l) with (last_ptr None (l1 ++ (a, x) :: (b, y) :: l2)).
  2: { rewrite (rep_last _ _ _ H), !last_ptr_app. change ((a, x) :: (b, y) :: l2) with ([(a, x)] ++ (b, y) :: l2).
    rewrite last_ptr_app. apply last_ptr_any. }
  by apply (rep_with l l1 a x ((b, y) :: l2) k h3).
Qed.

(** *** Taking from the ends, emptying *)

Lemma count_pos l xs k : rep l xs k -> (0 <? count l) = negb (bool_decide (xs = [])).
Proof.
  intros H. rewrite (rep_count _ _ _ H). destruct xs; [done|]. simpl. destruct (Z.ltb_spec 0 (Z.of_nat (S (length xs)))); [done|lia].
Qed.

(** Freeing one element leaves the others allocated as they were. *)
Lemma delete_agree (h h' : gmap nat ListElement) (a : nat) :
  (forall c, is_Some (h' !! c) <-> is_Some (h !! c)) ->
  forall c, is_Some (delete a h' !! c) <-> is_Some (h !! c) /\ c <> a.
Proof.
  intros Hs c. rewrite <- Hs. destruct (decide (c = a)) as [->|].
  - rewrite lookup_delete_eq. split; by intros [].
  - rewrite lookup_delete_ne by done. tauto.
Qed.

(** What is left of a list gets an end of its own. *)
Lemma cut_before L l2 pv :
  NoDup (locs l2) -> dll (elems L) pv l2 None ->
  exists h', match hd_ptr l2 None with Some _ => set_prev (hd_ptr l2 None) None L | None => Ret L end =
      Ret (set_elems h' L) /\ dll h' None l2 None /\ (forall c, c ∉ locs l2 -> h' !! c = elems L !! c) /\
      (forall c, is_Some (h' !! c) <-> is_Some (elems L !! c)).
Proof.
  intros Hn Hd. destruct l2 as [|[b y] l2]; [exists (elems L); by destruct L|].
  destruct (set_prev_spec L ((b, y) :: l2) None pv None) as (h' & E & ?); [done..|]. by exists h'.
Qed.

Lemma cut_after L l1 nx :
  NoDup (locs l1) -> dll (elems L) None l1 nx ->
  exists h', match last_ptr None l1 with Some _ => set_next (last_ptr None l1) None L | None => Ret L end =
      Ret (set_elems h' L) /\ dll h' None l1 None /\ (forall c, c ∉ locs l1 -> h' !! c = elems L !! c) /\
      (forall c, is_Some (h' !! c) <-> is_Some (elems L !! c)).
Proof.
  intros Hn Hd. destruct l1 as [|[b y] l1]; [exists (elems L); by destruct L|].
  destruct (last_ptr_cons b y l1) as [c Ec]. rewrite Ec.
  destruct (set_next_spec L ((b, y) :: l1) None nx) as (h' & E & ?); [done..|]. rewrite Ec in E. by exists h'.
Qed.

(** The cursor after the tail was taken off: the element before it, if the cursor stood on the tail. *)
Lemma moved_tail l l1 a x k :
  rep l (l1 ++ [(a, x)]) k ->
  let j := cursor k ≫= fun j => if bool_decide (j = length l1) then (match length l1 with O => None | S m => Some m end)
                               else Some j in
  (if bool_decide (current l = Some a) then last_ptr None l1 else current l) = j ≫= (fun i => locs l1 !! i) /\
  (forall i, j = Some i -> (i < length l1)%nat).
Proof.
  intros H. pose proof (cursor_eq _ _ _ _ _ H (middle_lookup l1 [] a x)) as Hce. pose proof (rep_bound _ _ _ H) as Hb.
  rewrite length_app in Hb. simpl in Hb. rewrite (rep_cursor _ _ _ H) in *.
  cbv zeta. destruct (cursor k) as [j|]; csimpl; [|done].
  specialize (Hb j eq_refl). destruct (decide (j = length l1)) as [->|Hne].
  - rewrite !bool_decide_eq_true_2 by (done || by apply Hce). destruct l1 as [|[b y] l1 _] using rev_ind; [done|].
    rewrite last_ptr_snoc, length_app. simpl. replace (length l1 + 1)%nat with (S (length l1)) by lia. csimpl.
    rewrite middle_lookup. split; [done|]. intros i [= <-]. lia.
  - rewrite (bool_decide_eq_false_2 (j = length l1)) by done.
    rewrite bool_decide_eq_false_2 by (intros E; apply Hne; apply Hce in E; congruence). csimpl.
    rewrite fmap_app, lookup_app_l by (rewrite length_fmap; lia). split; [done|]. intros i [= <-]. lia.
Qed.

Lemma ListDetachHead_spec l xs k :
  rep l xs k ->
  exists l' xs', ListDetachHead l = Ret (fst (c_head k), l') /\ rep l' xs' (snd (c_head k)).
Proof.
  intros H. unfold ListDetachHead, c_head. rewrite (count_pos _ _ _ H), <- (rep_items _ _ _ H).
  destruct xs as [|[a x] l2]; csimpl.
  { exists l, []. done. }
  pose proof (rep_dll _ _ _ H) as [Ha Hd]. pose proof (rep_nodup _ _ _ H) as Hn. rewrite fmap_cons in Hn.
  apply NoDup_cons in Hn as [Hn Hn2].
  rewrite (rep_first _ _ _ H). cbn [hd_ptr]. rewrite (load_eq _ _ _ Ha). cbn [obind next].
  set (l1 := if bool_decide (current l = Some a) then _ else l).
  set (l2' := if bool_decide (last l1 = Some a) then _ else l1).
  assert (E2 : l2' = MkList (elems l) (first l) (if bool_decide (last l = Some a) then None else last l)
    (if bool_decide (current l = Some a) then hd_ptr l2 None else current l) (count l) (size l) (freed l)).
  { subst l2' l1. destruct l. cbn. repeat case_bool_decide; done. }
  rewrite E2. clear E2. clearbody l2' l1. cbn [set_first elems last current count size freed first].
  set (P := if bool_decide (current l = Some a) then hd_ptr l2 None else current l).
  assert (Hlast : (if bool_decide (last l = Some a) then None else last l) = last_ptr None l2).
  { rewrite (rep_last _ _ _ H). destruct l2 as [|[b y] l2 _] using rev_ind; [by rewrite bool_decide_eq_true_2|].
    rewrite app_comm_cons, !last_ptr_snoc. rewrite bool_decide_eq_false_2; [done|]. intros [= ->]. apply Hn.
    rewrite fmap_app, elem_of_app. right. by apply list_elem_of_here. }
  rewrite Hlast. set (L := MkList (elems l) (hd_ptr l2 None) (last_ptr None l2) P (count l) (size l) (freed l)).
  unfold set_first. cbn [elems last current count size freed]. fold L.
  destruct (cut_before L l2 (Some a) Hn2 Hd) as (h' & -> & Hd' & Hf & Hs). cbn [elems L] in Hf, Hs. cbn [obind]. unfold free_elem. cbn [obind deref set_elems elems].
  rewrite Hf, Ha by done. subst L. cbn. exists
    (MkList (delete a h') (hd_ptr l2 None) (last_ptr None l2) P (count l - 1) (size l) (freed l)), l2.
  split; [done|]. destruct (moved_spec l [] a x l2 k H) as [Hm Hb]. cbn [app length] in Hm, Hb. fold P in Hm.
  replace ((fun e : entry => e.2) <$> l2) with (delete 0%nat (items k)) by by rewrite <- (rep_items _ _ _ H).
  rewrite <- (rep_freed _ _ _ H). apply (rep_without l [] a x l2 k); try done.
  - by apply dll_delete.
  - by apply delete_agree.
Qed.

Lemma ListPopTail_spec l xs k :
  rep l xs k ->
  exists l' xs', ListPopTail l = Ret (fst (c_tail k), l') /\ rep l' xs' (snd (c_tail k)).
Proof.
  intros H. unfold ListPopTail, c_tail. rewrite (count_pos _ _ _ H), <- (rep_items _ _ _ H).
  destruct xs as [|[a x] l1 _] using rev_ind; csimpl.
  { exists l, []. done. }
  rewrite bool_decide_eq_false_2 by (by destruct l1). cbn [negb].
  rewrite !fmap_app. csimpl. rewrite last_snoc.
  pose proof (rep_elem _ _ _ _ _ _ H) as Ha. cbn [hd_ptr] in Ha.
  destruct (locs_middle _ _ _ _ (rep_nodup _ _ _ H)) as (Hn1 & _ & Ha1 & _).
  pose proof (rep_dll _ _ _ H) as Hd. apply dll_app in Hd as [Hd _]. cbn [hd_ptr] in Hd.
  pose proof (rep_last _ _ _ H) as Hlp. rewrite last_ptr_snoc in Hlp.
  rewrite Hlp. rewrite (load_eq _ _ _ Ha). cbn [obind prev].
  set (l1' := if bool_decide (current l = Some a) then _ else l).
  set (l2' := if bool_decide (first l1' = Some a) then _ else l1').
  assert (E2 : l2' = MkList (elems l) (if bool_decide (first l = Some a) then None else first l) (last l)
    (if bool_decide (current l = Some a) then last_ptr None l1 else current l) (count l) (size l) (freed l)).
  { subst l2' l1'. destruct l. cbn. repeat case_bool_decide; done. }
  rewrite E2. clear E2. clearbody l2' l1'. cbn [set_last elems last current count size freed first].
  set (P := if bool_decide (current l = Some a) then last_ptr None l1 else current l).
  assert (Hfirst : (if bool_decide (first l = Some a) then None else first l) = hd_ptr l1 None).
  { rewrite (rep_first _ _ _ H). destruct l1 as [|[b y] l1]; [by rewrite bool_decide_eq_true_2|]. cbn.
    rewrite bool_decide_eq_false_2; [done|]. intros [= ->]. apply Ha1. by apply list_elem_of_here. }
  rewrite Hfirst. set (L := MkList (elems l) (hd_ptr l1 None) (last_ptr None l1) P (count l) (size l) (freed l)).
  unfold set_last. cbn [elems first current count size freed]. fold L.
  destruct (cut_after L l1 (Some a) Hn1 Hd) as (h' & -> & Hd' & Hf & Hs). cbn [elems L] in Hf, Hs. cbn [obind]. unfold free_elem. cbn [obind deref set_elems elems].
  rewrite Hf, Ha by done. subst L. cbn. exists
    (MkList (delete a h') (hd_ptr l1 None) (last_ptr None l1) P (count l - 1) (size l) (freed l)), l1.
  split; [done|]. rewrite length_app, length_fmap. csimpl. replace (Nat.pred (length l1 + 1)) with (length l1) by lia.
  assert (Ht : take (length l1) (((fun e : entry => e.2) <$> l1) ++ [x]) = delete (length l1) (items k)).
  { rewrite <- (rep_items _ _ _ H), fmap_app. rewrite <- (length_fmap (fun e : entry => e.2) l1). csimpl.
    by rewrite delete_middle, app_nil_r, take_app_length. }
  rewrite Ht, <- (rep_freed _ _ _ H).
  destruct (moved_tail l l1 a x k H) as [Hm Hb].
  pose proof (rep_without l l1 a x [] k) as Hw. rewrite app_nil_r in Hw. apply Hw; try done; clear Hw.
  - by apply dll_delete.
  - by apply delete_agree.
Qed.

(** The loops of [ListEmpty] and [ListFreeNoContent] need only the forward pointers. *)
Lemma empty_loop_spec fc xs : forall l pv fuel,
  first l = hd_ptr xs None -> dll (elems l) pv xs None -> NoDup (locs xs) ->
  (forall a, is_Some (elems l !! a) <-> a ∈ locs xs) -> (length xs <= fuel)%nat ->
  exists l', empty_loop fuel fc l = Ret l' /\ elems l' = ∅ /\
    freed l' = freed l ++ (if fc then (fun e : entry => e.2) <$> xs else []).
Proof.
  induction xs as [|[a x] xs IH]; intros l pv fuel Hf Hd Hn Hdom Hl.
  - exists l. destruct fuel; cbn; rewrite Hf; (split; [done|]); (split; [|destruct fc; by rewrite app_nil_r]);
      apply map_empty; intros a; apply eq_None_not_Some; rewrite Hdom; set_solver.
  - destruct fuel as [|fuel]; [simpl in Hl; lia|]. cbn [empty_loop]. rewrite Hf. cbn [hd_ptr].
    destruct Hd as [Ha Hd]. rewrite (load_eq _ _ _ Ha). cbn [obind next content].
    rewrite fmap_cons in Hn. apply NoDup_cons in Hn as [Hna Hn]. unfold free_elem. cbn [obind deref].
    assert (E : elems (set_first (hd_ptr xs None) (if fc then add_freed x l else l)) = elems l) by by destruct fc.
    rewrite E, Ha. cbn [obind deref].
    edestruct (IH (set_elems (delete a (elems l)) (set_first (hd_ptr xs None) (if fc then add_freed x l else l))))
      as (l' & -> & He & Hfr); [..|exists l'; split; [done|split; [done|]]].
    + done.
    + apply dll_delete; [done|exact Hd].
    + done.
    + intros c. cbn. rewrite lookup_delete_is_Some, Hdom, fmap_cons, elem_of_cons. simpl.
      split; [naive_solver|]. intros Hc. split; [by intros ->|by right].
    + simpl in Hl. lia.
    + rewrite Hfr. destruct fc; cbn; [by rewrite <- app_assoc|done].
Qed.

Lemma ListEmpty_spec l xs k :
  rep l xs k -> exists l', ListEmpty l = Ret l' /\ rep l' [] (c_empty k).
Proof.
  intros H. unfold ListEmpty. destruct (empty_loop_spec true xs l None (base.size (elems l))) as (l1 & -> & He & Hf);
    try apply H. { by rewrite (rep_size _ _ _ H). }
  eexists. split; [done|]. split; cbn; try done.
  - constructor.
  - intros a. rewrite He, lookup_empty. split; [by intros []|]. set_solver.
  - by rewrite Hf, (rep_freed _ _ _ H), (rep_items _ _ _ H).
Qed.

Lemma ListFreeNoContent_spec l xs k : rep l xs k -> ListFreeNoContent l = Ret (released k).
Proof.
  intros H. unfold ListFreeNoContent.
  destruct (empty_loop_spec false xs l None (base.size (elems l))) as (l1 & -> & _ & Hf); try apply H.
  { by rewrite (rep_size _ _ _ H). }
  cbn. by rewrite Hf, app_nil_r, (rep_freed _ _ _ H).
Qed.

(** ** Refinement *)

(** The calls of a client; an index stands for the element that a loop of [ListNextElement] reaches. *)
Inductive list_op : Type :=
| Append (x : A) (sz : Z)
| Insert (x : A) (sz : Z) (i : nat)
| Find (same : A -> bool)
| Unlink (same : A -> bool) (freeContent : bool)
| DetachHead
| PopTail
| Empty.

Inductive result : Type := RNone | RBool (b : bool) | RContent (c : option A).

Fixpoint walk (i : nat) (l : List) (pos : ptr) : outcome ptr :=
  let! p := ListNextElement l pos in
  match i, p with
  | O, _ => Ret p
  | S _, None => Ret None
  | S i', Some _ => walk i' l p
  end.

Definition run (o : list_op) (l : List) : outcome (result * List) :=
  match o with
  | Append x sz => let! l' := ListAppend x sz l in Ret (RNone, l')
  | Insert x sz i => let! p := walk i l None in let! l' := ListInsert x sz p l in Ret (RNone, l')
  | Find same =>
      let! (p, l') := ListFindItem same l in
      match p with
      | None => Ret (RContent None, l')
      | Some _ => let! e := load p l' in Ret (RContent (Some (content e)), l')
      end
  | Unlink same fc => let! (b, l') := ListUnlink same fc l in Ret (RBool b, l')
  | DetachHead => let! (c, l') := ListDetachHead l in Ret (RContent c, l')
  | PopTail => let! (c, l') := ListPopTail l in Ret (RContent c, l')
  | Empty => let! l' := ListEmpty l in Ret (RNone, l')
  end.

Definition c_run (o : list_op) (k : clist) : result * clist :=
  match o with
  | Append x _ => (RNone, c_append x k)
  | Insert x _ i => (RNone, c_insert x i k)
  | Find same => let (r, k') := c_find same k in (RContent (r ≫= fun i => items k !! i), k')
  | Unlink same fc => let (b, k') := c_unlink same fc k in (RBool b, k')
  | DetachHead => let (c, k') := c_head k in (RContent c, k')
  | PopTail => let (c, k') := c_tail k in (RContent c, k')
  | Empty => (RNone, c_empty k)
  end.

Fixpoint run_all (os : list list_op) (l : List) : outcome (list result * List) :=
  match os with
  | [] => Ret ([], l)
  | o :: os' => let! (r, l1) := run o l in let! (rs, l2) := run_all os' l1 in Ret (r :: rs, l2)
  end.

Fixpoint c_run_all (os : list list_op) (k : clist) : list result * clist :=
  match os with
  | [] => ([], k)
  | o :: os' => let (r, k1) := c_run o k in let (rs, k2) := c_run_all os' k1 in (r :: rs, k2)
  end.

Lemma walk_spec i : forall l l1 l2 k,
  rep l (l1 ++ l2) k -> walk i l (last_ptr None l1) = Ret (locs l2 !! i).
Proof.
  induction i as [|i IH]; intros l l1 l2 k H; cbn [walk]; rewrite (next_spec _ _ _ _ H); cbn [obind];
    destruct l2 as [|[a x] l2]; csimpl; try done.
  rewrite <- (last_ptr_snoc None l1 a x). apply (IH _ _ _ k). by rewrite <- app_assoc.
Qed.

Lemma run_refines o l xs k :
  rep l xs k -> exists l' xs', run o l = Ret (fst (c_run o k), l') /\ rep l' xs' (snd (c_run o k)).
Proof.
  intros H. destruct o as [x sz|x sz i|same|same fc| | |]; cbn [run c_run].
  - destruct (ListAppend_spec l xs k x sz H) as (l' & a & -> & ?). by exists l', (xs ++ [(a, x)]).
  - pose proof (walk_spec i l [] xs k H) as Hw. change (last_ptr None []) with (@None nat) in Hw.
    rewrite Hw. cbn [obind].
    destruct (ListInsert_spec l xs k x sz i H) as (l' & xs' & -> & ?). by exists l', xs'.
  - destruct (c_find same k) as [r k'] eqn:E.
    destruct (ListFindItem_spec same l xs k r k' H E) as (l' & -> & H' & Hr). cbn [obind]. exists l', xs.
    split; [|done]. destruct r as [i|]; csimpl; [|done]. destruct (Hr i eq_refl) as [_ Hi].
    destruct (lookup_lt_is_Some_2 xs i Hi) as [[a x] Hx]. rewrite list_lookup_fmap, Hx. csimpl.
    destruct (rep_lookup _ _ _ _ _ _ H' Hx) as (e & He & <-). rewrite (load_eq _ _ _ He). cbn [obind].
    by rewrite <- (rep_items _ _ _ H), list_lookup_fmap, Hx.
  - destruct (ListUnlink_spec same fc l xs k H) as (l' & -> & ?). eexists l', _.
    by destruct (c_unlink same fc k).
  - destruct (ListDetachHead_spec l xs k H) as (l' & xs' & -> & ?). exists l', xs'. by destruct (c_head k).
  - destruct (ListPopTail_spec l xs k H) as (l' & xs' & -> & ?). exists l', xs'. by destruct (c_tail k).
  - destruct (ListEmpty_spec l xs k H) as (l' & -> & ?). by exists l', [].
Qed.

(** C33: the doubly linked list.  Any sequence of appends, insertions, searches, removals (of contents
    or of either end) and resets on the list of [LinkedList.c] behaves as on a plain list with a
    cursor: the same results, the same contents freed, no dangling pointer, and at the end the
    elements on the heap, forwards and backwards, are exactly the items, with [first], [last],
    [current] and [count] in place. *)
Theorem list_refines (os : list list_op) (l : List) (xs : list entry) (k : clist) :
  rep l xs k ->
  exists l' xs', run_all os l = Ret (fst (c_run_all os k), l') /\ rep l' xs' (snd (c_run_all os k)).
Proof.
  revert l xs k. induction os as [|o os IH]; intros l xs k H; cbn [run_all c_run_all].
  - by exists l, xs.
  - destruct (run_refines o l xs k H) as (l1 & xs1 & -> & H1). cbn [obind].
    destruct (c_run o k) as [r k1]. destruct (IH l1 xs1 k1 H1) as (l2 & xs2 & -> & H2). cbn [obind].
    exists l2, xs2. by destruct (c_run_all os k1).
Qed.

Lemma rep_zero : rep ListZero [] c_zero.
Proof.
  split; cbn; try done; [constructor|]. intros a. rewrite lookup_empty. split; [by intros []|set_solver].
Qed.

End LinkedList.

Lemma list_refines_witness :
  let os := [Append 10 8; Append 20 8; Insert 30 8 1; Find (Z.eqb 20); Unlink (Z.eqb 20) true; PopTail; DetachHead] in
  (exists l' xs', run_all os (ListZero (A:=Z)) = Ret (fst (c_run_all os c_zero), l') /\
    rep l' xs' (snd (c_run_all os c_zero))) /\
  fst (c_run_all os c_zero) =
    [RNone; RNone; RNone; RContent (Some 20); RBool true; RContent (Some 30); RContent (Some 10)].
Proof. intros os. split; [|reflexivity]. exact (list_refines os ListZero [] c_zero rep_zero). Defined.
