(* ===== verification/MqttRead.v ===== *)
(** * MqttRead: receiving MQTT packets (MQTTPacket_decode and MQTTPacket_Factory of MQTTPacket.c)

    Reading a packet from a non-blocking socket, restarted until the packet is complete. *)

From Stdlib Require Import ZArith Lia String.
From stdpp Require Import base tactics numbers list gmap.
From S2P Require Import Prelude MqttPacket SockBuf.

Definition BAD_MQTT_PACKET : Z := -4.
Definition MAX_NO_OF_REMAINING_LENGTH_BYTES : nat := 4.

(** The loop of [MQTTPacket_decode], which ends after [MAX_NO_OF_REMAINING_LENGTH_BYTES] bytes. *)
Fixpoint decode_loop (fuel : nat) (socket multiplier value : Z) (n : net) : outcome (Z * Z * net) :=
  match fuel with
  | O => Ret (SOCKET_ERROR, value, n)
  | S fuel' =>
      let! (rc, c, n1) := Socket_getch socket n in
      if negb (rc =? TCPSOCKET_COMPLETE) then Ret (rc, value, n1)
      else
        let! c := deref c in
        let value1 := value + Z.land c 127 * multiplier in
        if negb (Z.land c 128 =? 0) then decode_loop fuel' socket (multiplier * 128) value1 n1
        else Ret (rc, value1, n1)
  end.

(** The completion code and [*value]. *)
Definition MQTTPacket_decode (socket : Z) (n : net) : outcome (Z * Z * net) :=
  decode_loop MAX_NO_OF_REMAINING_LENGTH_BYTES socket 1 0 n.

(** The packet, if any, and [*error].  The client has no persistence, so that nothing is stored for a
    PUBLISH of QoS 2. *)
Definition MQTTPacket_Factory (socket : Z) (n : net) : outcome (option packet * Z * net) :=
  let! (rc, c, n1) := Socket_getch socket n in
  if negb (rc =? TCPSOCKET_COMPLETE) then Ret (None, rc, n1)
  else
    let! header := deref c in
    let! (rc1, remaining_length, n2) := MQTTPacket_decode socket n1 in
    if negb (rc1 =? TCPSOCKET_COMPLETE) then Ret (None, rc1, n2)
    else
      let! (data, actual_len, n3) := Socket_getdata socket remaining_length n2 in
      match data with
      | None => Ret (None, SOCKET_ERROR, n3)
      | Some mem =>
          if negb (actual_len =? remaining_length) then Ret (None, TCPSOCKET_INTERRUPTED, n3)
          else
            let ptype := hd_type header in
            if (ptype <? CONNECT) || (DISCONNECT <? ptype) then Ret (None, rc1, n3)
            else
              match new_packets ptype with
              | None => Ret (None, rc1, n3)
              | Some make =>
                  let! pack := make header mem (Z.to_nat remaining_length) in
                  Ret (pack, match pack with None => BAD_MQTT_PACKET | Some _ => rc1 end, n3)
              end
      end.

(** The caller tries again, when the socket is ready, as long as the read is interrupted. *)
Fixpoint read_packet (fuel : nat) (socket : Z) (n : net) : outcome (option packet * Z * net) :=
  match fuel with
  | O => Blocked
  | S fuel' =>
      let! (pack, error, n1) := MQTTPacket_Factory socket n in
      if error =? TCPSOCKET_INTERRUPTED then read_packet fuel' socket n1 else Ret (pack, error, n1)
  end.

Lemma known_type t : is_Some (new_packets t) -> (t <? CONNECT) || (DISCONNECT <? t) = false.
Proof.
  unfold new_packets, CONNECT, CONNACK, PUBLISH, PUBACK, PUBREC, PUBREL, PUBCOMP, UNSUBACK, SUBACK, PINGREQ,
    PINGRESP, DISCONNECT. intros H.
  destruct (Z.ltb_spec t 1), (Z.ltb_spec 14 t); try done; exfalso; revert H;
    repeat (match goal with |- context [t =? ?k] => destruct (Z.eqb_spec t k); [lia|] end); by intros [].
Qed.

Section Read.
Variable s : Z.
Hypothesis s_nonzero : s <> 0.

(** The packet: its header byte, the encoded length and the rest; and what follows it on the wire. *)
Variables (h : Z) (body more : list Z).
Let L := Z.of_nat (length body).
Let H : list Z := h :: MQTTPacket_encode L.
Hypothesis body_short : L < 128 ^ 4.

(** [hs] and [d] are received and kept, [i] bytes of the header are read in this attempt, and the rest
    is to come. *)
Definition reading (hs d : list Z) (i : nat) (n : net) : Prop :=
  store s hs d i n /\ Forall quiet (inputs s n) /\ (i <= length hs)%nat /\
  ((exists t, t <> [] /\ H = hs ++ t /\ d = [] /\ flat (inputs s n) = t ++ body ++ more) \/
   (hs = H /\ exists t, body = d ++ t /\ flat (inputs s n) = t ++ more)).

(** An attempt that was interrupted and left [n'] has made progress. *)
Definition retry (n n' : net) : Prop :=
  (exists hs d, reading hs d 0 n' /\ (hs = H -> (length d < length body)%nat)) /\
  (length (inputs s n') < length (inputs s n))%nat.

Lemma encode_ok :
  decode_value (MQTTPacket_encode L) = L /\ well_ended (MQTTPacket_encode L) /\
  (length (MQTTPacket_encode L) <= 4)%nat.
Proof.
  destruct (encode_loop_spec 5 L) as (V & W & _ & _ & M).
  - split; [lia|]. change (128 ^ Z.of_nat 5) with (128 ^ 4 * 128). lia.
  - lia.
  - split; [done|]. split; [done|]. fold (MQTTPacket_encode L) in *.
    destruct (decide (L = 0)) as [->|Hne]; [by vm_compute; repeat constructor|].
    specialize (M ltac:(lia)). destruct (decide (length (MQTTPacket_encode L) <= 4)%nat); [done|].
    assert (128 ^ 4 <= 128 ^ (Z.of_nat (length (MQTTPacket_encode L)) - 1)) by (apply Z.pow_le_mono_r; lia).
    lia.
Qed.

Lemma header_length : (2 <= length H <= 5)%nat.
Proof.
  destruct encode_ok as (_ & W & Hl). subst H. simpl.
  destruct (MQTTPacket_encode L); [done|]. simpl in *. lia.
Qed.

(** The next byte of the header. *)
Lemma getch_reading hs d i n c :
  reading hs d i n -> H !! i = Some c ->
  (exists n', Socket_getch s n = Ret (TCPSOCKET_INTERRUPTED, None, n') /\ retry n n') \/
  (exists hs' n', Socket_getch s n = Ret (TCPSOCKET_COMPLETE, Some c, n') /\ reading hs' d (S i) n' /\
     (length (inputs s n') <= length (inputs s n))%nat).
Proof.
  intros (Hs & Hq & Hi & Hrest) Hc. destruct (hs !! i) as [c'|] eqn:Ec.
  - assert (c' = c) as ->.
    { destruct Hrest as [(t & _ & E & _)|(-> & _)]; [|congruence].
      rewrite E, lookup_app_l in Hc by (by eapply lookup_lt_Some). congruence. }
    destruct (getch_replay s hs d i n c Hs Ec) as (n' & E & Hs' & Hin). right. exists hs, n'.
    split; [done|]. unfold reading. rewrite Hin. pose proof (lookup_lt_Some _ _ _ Ec).
    split; [|done]. split_and!; [done|done|lia|done].
  - apply lookup_ge_None in Ec. assert (i = length hs) as -> by lia.
    destruct Hrest as [(t & Ht & E & -> & Hf)|(-> & _)].
    2: { rewrite lookup_ge_None_2 in Hc by lia. done. }
    assert (Hl5 : (length hs < 5)%nat).
    { pose proof header_length as Hl. rewrite E, length_app in Hl. destruct t; [done|simpl in Hl; lia]. }
    destruct (getch_fresh s s_nonzero hs n Hs Hl5 Hq) as
      [(n' & Eg & Hs' & Hf' & Hq' & Hp)|(b & n' & Eg & Hs' & Hf' & Hq' & Hle)].
    + left. exists n'. split; [done|]. split.
      2: { destruct Hp as [Hp|Hp]; [|done]. rewrite Hp in Hf. destruct t; done. }
      exists hs, []. split.
      * split; [done|]. split; [done|]. split; [lia|]. left. exists t. by rewrite Hf'.
      * intros ->. rewrite <- (app_nil_r H) in E at 1. apply app_inv_head in E. congruence.
    + right. destruct t as [|b' t]; [done|]. rewrite Hf' in Hf. simpl in Hf. injection Hf as -> Hf.
      assert (b' = c) as ->.
      { rewrite E, lookup_app_r, Nat.sub_diag in Hc by lia. simpl in Hc. congruence. }
      exists (hs ++ [c]), n'. split; [done|]. split; [|done].
      split; [done|]. split; [done|]. split; [rewrite length_app; simpl; lia|].
      destruct t as [|c2 t].
      * right. split; [done|]. by exists body.
      * left. exists (c2 :: t). split; [done|]. split; [by rewrite <- app_assoc|done].
Qed.

(** The digits of the length from position [i] on. *)
Lemma decode_reading fuel : forall hs d i n e m v,
  reading hs d i n -> drop i H = e -> well_ended e -> (length e <= fuel)%nat ->
  (exists v' n', decode_loop fuel s m v n = Ret (TCPSOCKET_INTERRUPTED, v', n') /\ retry n n') \/
  (exists hs' n', decode_loop fuel s m v n = Ret (TCPSOCKET_COMPLETE, v + m * decode_value e, n') /\
     reading hs' d (length H) n' /\ (length (inputs s n') <= length (inputs s n))%nat).
Proof.
  induction fuel as [|fuel IH]; intros hs d i n e m v Hr He Hw Hl.
  - destruct e; [done|simpl in Hl; lia].
  - destruct e as [|c e]; [done|]. assert (Hc : H !! i = Some c).
    { rewrite <- (Nat.add_0_r i), <- lookup_drop, He. done. }
    assert (He' : drop (S i) H = e) by (rewrite <- Nat.add_1_r, <- drop_drop, He; done).
    cbn [decode_loop].
    destruct (getch_reading hs d i n c Hr Hc) as [(n' & -> & Hret)|(hs' & n' & -> & Hr' & Hle)].
    + left. cbn [obind]. by exists v, n'.
    + cbn [obind deref]. change (negb (TCPSOCKET_COMPLETE =? TCPSOCKET_COMPLETE)) with false. cbn iota.
      destruct (Z.eqb_spec (Z.land c 128) 0) as [H0|H0]; cbn [negb].
      * right. assert (e = []) as -> by (destruct e; [done|simpl in Hw; tauto]).
        exists hs', n'. split; [do 3 f_equal; simpl; lia|]. split; [|done].
        replace (length H) with (S i); [done|]. apply (f_equal length) in He.
        pose proof (lookup_lt_Some _ _ _ Hc). rewrite length_drop in He.
        change (length [c]) with 1%nat in He. lia.
      * destruct e as [|c2 e]; [done|]. destruct Hw as [_ Hw]. simpl in Hl.
        destruct (IH hs' d (S i) n' (c2 :: e) (m * 128) (v + Z.land c 127 * m) Hr' He' Hw ltac:(simpl; lia))
          as [(v' & n2 & -> & (Hx & Hp))|(hs2 & n2 & -> & Hr2 & Hle2)].
        -- left. exists v', n2. split; [done|]. split; [done|].
           lia.
        -- right. exists hs2, n2. split; [do 3 f_equal; cbn [decode_value]; lia|]. split; [done|lia].
Qed.

(** The result for the whole packet, whose constructor gets a block that starts with it. *)
Definition result (r : outcome (option packet * Z * net)) : Prop :=
  exists mem n', r = (let! pack := (default MQTTPacket_header_only (new_packets (hd_type h))) h (body ++ mem)
      (length body) in Ret (pack, match pack with None => BAD_MQTT_PACKET | Some _ => TCPSOCKET_COMPLETE end, n')) /\
    store s [] [] 0 n' /\ flat (inputs s n') = more /\ Forall quiet (inputs s n').

(** What is left of the body, [t], has arrived when the data is at hand. *)
Lemma data_left d t n : body = d ++ t -> flat (inputs s n) = t ++ more -> (length d < length body)%nat -> inputs s n <> [].
Proof.
  intros Eb Hf Hd Hi. rewrite Hi in Hf. apply (f_equal length) in Eb. rewrite length_app in Eb.
  destruct t; [simpl in Eb; lia|done].
Qed.

(** Data that was taken from what is left leaves the rest of it. *)
Lemma data_rest (l t rest : list Z) :
  t ++ more = l ++ rest -> (length l <= length t)%nat -> t = l ++ drop (length l) t /\ rest = drop (length l) t ++ more.
Proof.
  intros E Hl. pose proof (f_equal (take (length l)) E) as Ht. pose proof (f_equal (drop (length l)) E) as Hd.
  rewrite take_app_le, take_app_length in Ht by done. rewrite drop_app_le, drop_app_length in Hd by done.
  split; [|done]. by rewrite <- (take_drop (length l) t), Ht at 1.
Qed.

(** The read of a body of which [t] is to come, with the header behind it. *)
Lemma getdata_reading d t n :
  store s H d (length H) n -> Forall quiet (inputs s n) -> body = d ++ t -> flat (inputs s n) = t ++ more ->
  (length d < length body)%nat ->
  (exists mem k n', Socket_getdata s L n = Ret (Some mem, k, n') /\ k <> L /\ retry n n') \/
  (exists r n', Socket_getdata s L n = Ret (Some (body ++ r), L, n') /\ store s [] [] 0 n' /\
     flat (inputs s n') = more /\ Forall quiet (inputs s n')).
Proof.
  intros Hs Hq Eb Hf Hd. assert (HL : Z.of_nat (length d) < L) by (unfold L; lia).
  pose proof (data_left d t n Eb Hf Hd) as Hleft.
  assert (Hlen : length body = (length d + length t)%nat) by (by rewrite Eb, length_app).
  destruct (getdata_spec s H d L n Hs ltac:(done) HL Hq) as
    [(mem & n' & E & Hs' & Hf' & Hq' & Hp)|(l & mem & r & n' & E & Em & Hf' & Hq' & Hle & Hend)].
  - left. exists mem, (Z.of_nat (length d)), n'. split; [done|]. split; [lia|]. split; [|by destruct Hp].
    exists H, d. split; [|done]. split; [done|]. split; [done|]. split; [lia|]. right. split; [done|].
    exists t. by rewrite Hf'.
  - rewrite Hf in Hf'. rewrite length_app in Hle. destruct (data_rest l t _ Hf') as [El Er]; [unfold L in Hle; lia|].
    destruct (Z.eqb_spec (Z.of_nat (length (d ++ l))) L) as [EL|EL]; rewrite E.
    + right. exists r, n'. rewrite length_app in EL. assert (Hn : drop (length l) t = []) by (apply drop_ge; unfold L in EL; lia).
      rewrite Hn, ?app_nil_r in *. subst l. rewrite Em, <- Eb. done.
    + left. exists mem, (Z.of_nat (length (d ++ l))), n'. destruct Hend as (Hs' & _ & Hp). split; [done|]. split; [done|].
      split; [|by destruct Hp]. exists H, (d ++ l). rewrite length_app in *. unfold L in EL. split; [|intros _; lia].
      split; [done|]. split; [done|]. split; [lia|]. right. split; [done|]. exists (drop (length l) t).
      split; [|done]. by rewrite <- app_assoc, <- El.
Qed.

(** So is the read of an empty one. *)
Lemma getdata_empty n :
  store s H [] (length H) n -> L = 0 ->
  exists r, Socket_getdata s L n = Ret (Some r, L, SocketBuffer_complete s n) /\
    store s [] [] 0 (SocketBuffer_complete s n) /\ inputs s (SocketBuffer_complete s n) = inputs s n.
Proof.
  intros Hs HL. destruct (complete_store s H [] _ n Hs ltac:(done)) as [Hst Hbuf].
  destruct (store_cur s _ _ _ _ Hs ltac:(done)) as (_ & _ & _ & _ & r & Hr).
  destruct (buffers_inputs s 0 0 id n) as (_ & Ein & _). exists r. unfold Socket_getdata. rewrite HL, Z.eqb_refl, Hbuf, Hr.
  split; [done|]. split; [done|]. unfold inputs. by rewrite Ein.
Qed.

(** After the header and the length the whole header is known. *)
Lemma header_done hs d n :
  reading hs d (length H) n -> hs = H /\ store s H d (length H) n /\ Forall quiet (inputs s n) /\
    exists t, body = d ++ t /\ flat (inputs s n) = t ++ more.
Proof.
  intros (Hs & Hq & Hi & Hrest). assert (E : hs = H /\ exists t, body = d ++ t /\ flat (inputs s n) = t ++ more).
  { destruct Hrest as [(t & Ht & E & _)|?]; [|done]. exfalso. apply (f_equal length) in E.
    rewrite length_app in E. destruct t as [|x t]; [done|]. rewrite length_cons in E. lia. }
  destruct E as (-> & t & Eb & Hf). split_and!; [done..|by exists t].
Qed.

Lemma retry_le n n2 n' : (length (inputs s n2) <= length (inputs s n))%nat -> retry n2 n' -> retry n n'.
Proof. intros Hle [Hr Hp]. split; [done|lia]. Qed.

Lemma Factory_reading hs d n :
  reading hs d 0 n -> (hs = H -> (length d < length body)%nat) -> is_Some (new_packets (hd_type h)) ->
  (exists n', MQTTPacket_Factory s n = Ret (None, TCPSOCKET_INTERRUPTED, n') /\ retry n n') \/
  result (MQTTPacket_Factory s n).
Proof.
  intros Hr Hd [make Hm]. unfold MQTTPacket_Factory.
  destruct (getch_reading hs d 0 n h Hr eq_refl) as [(n1 & -> & Hret)|(hs1 & n1 & -> & Hr1 & Hle1)];
    [left; by exists n1|]. cbn [obind deref].
  change (negb (TCPSOCKET_COMPLETE =? TCPSOCKET_COMPLETE)) with false. cbn iota.
  destruct encode_ok as (V & W & Hl4). unfold MQTTPacket_decode.
  destruct (decode_reading 4 hs1 d 1 n1 (MQTTPacket_encode L) 1 0 Hr1 eq_refl W Hl4) as
    [(v & n2 & E & Hret)|(hs2 & n2 & E & Hr2 & Hle2)]; fold MAX_NO_OF_REMAINING_LENGTH_BYTES in E; rewrite E; cbn [obind].
  { left. exists n2. split; [done|]. by apply (retry_le n n1). }
  change (negb (TCPSOCKET_COMPLETE =? TCPSOCKET_COMPLETE)) with false. cbn iota. rewrite V. replace (0 + 1 * L) with L by lia. clear E.
  destruct (header_done _ _ _ Hr2) as (-> & Hs & Hq & t & Eb & Hf).
  destruct (decide (body = [])) as [E0|E0].
  - right. assert (HL : L = 0) by (unfold L; by rewrite E0). pose proof Eb as Eb'. rewrite E0 in Eb'. symmetry in Eb'.
    apply app_eq_nil in Eb' as [-> ->]. destruct (getdata_empty n2 Hs HL) as (r & -> & Hst & Ein). cbn [obind].
    rewrite Z.eqb_refl. cbn [negb]. exists r, (SocketBuffer_complete s n2). rewrite known_type, Hm, Ein by by rewrite Hm.
    split; [|done]. by rewrite HL, E0.
  - assert (Hdl : (length d < length body)%nat).
    { destruct Hr as (_ & _ & _ & [(t0 & _ & _ & -> & _)|(-> & _)]); [|by apply Hd]. apply Nat.neq_0_lt_0. by intros ?%nil_length_inv. }
    destruct (getdata_reading d t n2 Hs Hq Eb Hf Hdl) as [(mem & k & n3 & -> & Hk & Hret)|(r & n3 & -> & Hs3 & Hf3 & Hq3)]; cbn [obind].
    + left. apply Z.eqb_neq in Hk. rewrite Hk. cbn [negb]. exists n3. split; [done|]. apply (retry_le n n2); [lia|done].
    + right. rewrite Z.eqb_refl. cbn [negb]. exists r, n3. rewrite known_type, Hm by by rewrite Hm. split; [|done].
      unfold L. by rewrite Nat2Z.id.
Qed.

Lemma read_packet_reading fuel : forall hs d n,
  reading hs d 0 n -> (hs = H -> (length d < length body)%nat) -> is_Some (new_packets (hd_type h)) ->
  (length (inputs s n) < fuel)%nat -> result (read_packet fuel s n).
Proof.
  induction fuel as [|fuel IH]; intros hs d n Hr Hd Hm Hf; [lia|]. cbn [read_packet].
  destruct (Factory_reading hs d n Hr Hd Hm) as [(n' & -> & (hs' & d' & Hr' & Hd') & Hp)|Hres].
  - cbn [obind]. change (TCPSOCKET_INTERRUPTED =? TCPSOCKET_INTERRUPTED) with true. cbn iota.
    eapply IH; [done..|lia].
  - destruct Hres as (mem & n' & -> & Hst). exists mem, n'. split; [|done].
    destruct (default _ _ _ _ _) as [[pk|]| | |]; done.
Qed.
End Read.

(** A clean socket with the packet to come is the start of a reading. *)
Lemma reading_start s h body more n :
  store s [] [] 0 n -> Forall quiet (inputs s n) ->
  flat (inputs s n) = (h :: MQTTPacket_encode (Z.of_nat (length body))) ++ body ++ more ->
  reading s h body more [] [] 0 n.
Proof.
  intros Hs Hq Hf. split; [done|]. split; [done|]. split; [simpl; lia|]. left.
  by exists (h :: MQTTPacket_encode (Z.of_nat (length body))).
Qed.

(** What is sent, as the header byte, the length and the rest. *)
Lemma sends_eq h buffers :
  Z.of_nat (length (concat buffers)) < 128 ^ 4 ->
  concat (MQTTPacket_sends h buffers) =
    (h :: MQTTPacket_encode (Z.of_nat (length (concat buffers)))) ++ concat buffers.
Proof.
  intros Hl. unfold MQTTPacket_sends.
  assert (E : sum_list (length <$> buffers) = length (concat buffers)).
  { clear. induction buffers; [done|]. simpl. rewrite length_app. by f_equal. }
  rewrite E, s32_id by (change (128 ^ 4) with 268435456 in Hl; lia). done.
Qed.

(** The buffers of a packet [h] arrive on a clean socket, in any pieces, followed by [more]. *)
Definition arrives (s h : Z) (buffers : list (list Z)) (more : list Z) (n : net) : Prop :=
  store s [] [] 0 n /\ Forall quiet (inputs s n) /\
  flat (inputs s n) = concat (MQTTPacket_sends h buffers) ++ more.

(** The read gave [r] and left a clean socket and the bytes [more]. *)
Definition received (s : Z) (more : list Z) (r : outcome (option packet * Z * net)) (pack : packet) : Prop :=
  exists n', r = Ret (Some pack, TCPSOCKET_COMPLETE, n') /\ store s [] [] 0 n' /\
    flat (inputs s n') = more /\ Forall quiet (inputs s n').

Lemma packet_received s h buffers more fuel n make :
  s <> 0 -> Z.of_nat (length (concat buffers)) < 128 ^ 4 -> arrives s h buffers more n ->
  (length (inputs s n) < fuel)%nat -> new_packets (hd_type h) = Some make ->
  exists mem, forall pack, make h (concat buffers ++ mem) (length (concat buffers)) = Ret (Some pack) ->
    received s more (read_packet fuel s n) pack.
Proof.
  intros Hs Hl (Hst & Hq & Hf) Hfu Hm. rewrite sends_eq, <- app_assoc in Hf by done.
  destruct (read_packet_reading s Hs h (concat buffers) more Hl fuel [] [] n) as (mem & n' & E & H3);
    [by apply reading_start|done|by rewrite Hm|done|].
  exists mem. intros pack Hp. exists n'. rewrite E, Hm. cbn [from_option id]. by rewrite Hp.
Qed.

(** The bodies of the packets [MQTTPacket_send_publish] makes. *)
Lemma send_publish_eq pack dup qos retained :
  short (p_topic pack) -> 0 <= p_msgId pack < 65536 -> 0 <= p_payloadlen pack <= Z.of_nat (length (p_payload pack)) ->
  exists buffers, MQTTPacket_send_publish pack dup qos retained = Ret (Header PUBLISH dup qos retained, buffers) /\
    concat buffers = publish_body (p_topic pack) qos (p_msgId pack) (take (Z.to_nat (p_payloadlen pack)) (p_payload pack)).
Proof.
  intros [Ht Hl] Hm Hp. unfold MQTTPacket_send_publish, read_bytes, publish_body, field.
  rewrite s32_id, int_buf_eq by lia. cbn [obind].
  rewrite bool_decide_eq_true_2 by lia. cbn [obind]. rewrite drop_0.
  destruct (0 <? qos); [rewrite int_buf_eq by done; cbn [obind]|]; eexists; (split; [reflexivity|]);
    cbn [concat]; by rewrite app_nil_r, <- !app_assoc.
Qed.

(** The same message for the application: topic, identifier and payload. *)
Definition same_message (qos : Z) (p q : Publish) : Prop :=
  p_topic q = p_topic p /\ p_topiclen q = Z.of_nat (length (p_topic p)) /\
  p_msgId q = (if 0 <? qos then p_msgId p else 0) /\ p_payloadlen q = p_payloadlen p /\
  take (Z.to_nat (p_payloadlen q)) (p_payload q) = take (Z.to_nat (p_payloadlen p)) (p_payload p).

(** The packet that [MQTTPacket_send_publish] makes arrives. *)
Lemma publish_arrives (s : Z) (pack : Publish) (dup qos retained : Z) (header : Z) (buffers : list (list Z))
    (more : list Z) (n : net) (fuel : nat) :
  s <> 0 -> short (p_topic pack) -> 0 <= p_msgId pack < 65536 ->
  0 <= p_payloadlen pack <= Z.of_nat (length (p_payload pack)) ->
  0 <= dup < 2 -> 0 <= qos < 3 -> 0 <= retained < 2 ->
  Z.of_nat (length (p_topic pack)) + p_payloadlen pack + 4 < 128 ^ 4 ->
  (length (inputs s n) < fuel)%nat ->
  MQTTPacket_send_publish pack dup qos retained = Ret (header, buffers) -> arrives s header buffers more n ->
  exists q, received s more (read_packet fuel s n) (PkPublish q) /\ same_message qos pack q /\
    hd_type (p_header q) = PUBLISH /\ hd_dup (p_header q) = dup /\ hd_qos (p_header q) = qos /\
    hd_retain (p_header q) = retained.
Proof.
  intros Hs Ht Hm Hp Hd Hq Hr Hl Hf E Ha.
  destruct (send_publish_eq pack dup qos retained Ht Hm Hp) as (bufs & Es & Eb). rewrite E in Es. injection Es as -> ->.
  destruct (Header_bits PUBLISH dup qos retained) as (_ & B1 & B2 & B3 & B4); [done|done|lia|done|].
  set (h := Header PUBLISH dup qos retained) in *.
  set (payload := take (Z.to_nat (p_payloadlen pack)) (p_payload pack)) in *.
  assert (Hpl : Z.of_nat (length payload) = p_payloadlen pack) by (subst payload; rewrite length_take; lia).
  assert (Hlen : Z.of_nat (length (concat bufs)) < 128 ^ 4).
  { rewrite Eb. unfold publish_body. rewrite !length_app, field_length. destruct (0 <? qos); simpl length; lia. }
  destruct (packet_received s h bufs more fuel n MQTTPacket_publish Hs Hlen Ha Hf) as (mem & Hrec);
    [by rewrite B1|].
  eexists. split.
  - apply Hrec. rewrite Eb, <- B3. apply publish_read; [done|done|]. rewrite B3, <- Eb.
    change (128 ^ 4) with 268435456 in Hlen. lia.
  - unfold same_message. cbn [p_topic p_topiclen p_msgId p_payloadlen p_payload p_header]. rewrite B3, Hpl.
    split; [|done]. split_and!; [done..|]. change (take (Z.to_nat (p_payloadlen pack)) (p_payload pack)) with payload.
    rewrite take_app_le by (apply Nat2Z.inj_le; rewrite Hpl, Z2Nat.id; lia). apply take_ge. rewrite <- Hpl. lia.
Qed.

(** C27: a PUBLISH packet from one client to another.  [MQTTPacket_send_publish] makes a packet of any
    topic of less than 2^16 bytes, message identifier and payload; when its bytes arrive on a clean
    socket, cut into pieces in any way, with any number of interruptions between them, repeated calls
    of [MQTTPacket_Factory] give the same topic, identifier, payload, QoS, retain and duplicate flags,
    consume exactly the bytes of the packet and leave a clean socket for the next one. *)
Theorem publish_roundtrip (s : Z) (pack : Publish) (dup qos retained : Z) (more : list Z) (n : net) (fuel : nat) :
  s <> 0 -> short (p_topic pack) -> 0 <= p_msgId pack < 65536 ->
  0 <= p_payloadlen pack <= Z.of_nat (length (p_payload pack)) ->
  0 <= dup < 2 -> 0 <= qos < 3 -> 0 <= retained < 2 ->
  Z.of_nat (length (p_topic pack)) + p_payloadlen pack + 4 < 128 ^ 4 ->
  (length (inputs s n) < fuel)%nat ->
  exists header buffers, MQTTPacket_send_publish pack dup qos retained = Ret (header, buffers) /\
    (arrives s header buffers more n ->
     exists q, received s more (read_packet fuel s n) (PkPublish q) /\ same_message qos pack q /\
       hd_type (p_header q) = PUBLISH /\ hd_dup (p_header q) = dup /\ hd_qos (p_header q) = qos /\
       hd_retain (p_header q) = retained).
Proof.
  intros Hs Ht Hm Hp Hd Hq Hr Hl Hf. destruct (send_publish_eq pack dup qos retained Ht Hm Hp) as (bufs & Es & _).
  eexists _, bufs. split; [exact Es|]. intros Ha. by eapply publish_arrives.
Qed.

(** A stream of bytes on a socket, cut into two pieces with an interruption. *)
Definition example_net (s : Z) (l : list Z) : net :=
  Net SocketBuffer_newDefQ [] [] [] None
    {[s := [RData (hd 0 l) (take 6 (tl l)); RAgain; RData (nth 7 l 0) (drop 8 l)]]} [] [].

Lemma example_clean s l : s <> 0 -> store s [] [] 0 (example_net s l).
Proof.
  intros Hs. right. split; [by constructor|]. split; [done|]. split; [done|]. left. split; [done|].
  unfold def_ok, block_ok. split_and!; done.
Qed.

Lemma publish_roundtrip_witness :
  let pack := MkPublish 0 (str "/sms") 4 7 (str "hello, world") 5 in
  let n := example_net 5 (concat (MQTTPacket_sends 0x32 [[0; 4]; str "/sms"; [0; 7]; str "hello"]) ++ [0xd0; 0]) in
  exists header buffers, MQTTPacket_send_publish pack 0 1 0 = Ret (header, buffers) /\
    (arrives 5 header buffers [0xd0; 0] n ->
     exists q, received 5 [0xd0; 0] (read_packet 4 5 n) (PkPublish q) /\ same_message 1 pack q /\
       hd_type (p_header q) = PUBLISH /\ hd_dup (p_header q) = 0 /\ hd_qos (p_header q) = 1 /\
       hd_retain (p_header q) = 0) /\ arrives 5 0x32 [[0; 4]; str "/sms"; [0; 7]; str "hello"] [0xd0; 0] n.
Proof.
  intros pack n.
  destruct (publish_roundtrip 5 pack 0 1 0 [0xd0; 0] n 4) as (h & b & E & H);
    try (split; [discriminate|reflexivity]); try (split; vm_compute; discriminate);
    [discriminate|decide_all|apply Nat.ltb_lt; vm_compute; reflexivity|].
  exists h, b. split; [exact E|]. split; [exact H|].
  split; [apply example_clean; discriminate|]. split; [|vm_compute; reflexivity]. repeat constructor.
Defined.

(** The acknowledgements.  A PUBACK, PUBREC, PUBREL or PUBCOMP made by [MQTTPacket_send_ack]
    arrives, in any pieces, as an acknowledgement of the same type and message identifier; a PUBREL
    has the QoS bits 1 that the protocol requires. *)
Theorem ack_roundtrip (s type msgid dup : Z) (more : list Z) (n : net) (fuel : nat) :
  s <> 0 -> type ∈ [PUBACK; PUBREC; PUBREL; PUBCOMP] -> 0 <= msgid < 65536 -> 0 <= dup < 2 ->
  (length (inputs s n) < fuel)%nat ->
  exists header buffers, MQTTPacket_send_ack type msgid dup = Ret (header, buffers) /\
    hd_type header = type /\ hd_dup header = dup /\ hd_qos header = (if type =? PUBREL then 1 else 0) /\
    (arrives s header buffers more n ->
     received s more (read_packet fuel s n) (PkAck (MkAck header msgid))).
Proof.
  intros Hs Ht Hm Hd Hf. unfold MQTTPacket_send_ack. rewrite int_buf_eq by done. cbn [obind].
  set (q := if type =? PUBREL then 1 else 0). set (h := Header type dup q 0).
  destruct (Header_bits type dup q 0) as (_ & B1 & B2 & B3 & _); [|done|by subst q; destruct (_ =? _)|done|].
  { revert Ht. rewrite !elem_of_cons, elem_of_nil. unfold PUBACK, PUBREC, PUBREL, PUBCOMP. lia. }
  exists h, [be16 msgid]. fold h in B1, B2, B3. split; [done|]. split; [done|]. split; [done|].
  split; [done|]. intros Ha.
  destruct (packet_received s h [be16 msgid] more fuel n MQTTPacket_ack Hs eq_refl Ha Hf) as (mem & Hrec).
  - rewrite B1. revert Ht. rewrite !elem_of_cons, elem_of_nil. by intros [->|[->|[->|[->|[]]]]].
  - apply Hrec. unfold MQTTPacket_ack. cbn [concat]. rewrite app_nil_r.
    pose proof (readInt_app [] msgid mem Hm) as E. cbn [app length] in E. by rewrite E.
Qed.

Lemma ack_roundtrip_witness :
  exists header buffers, MQTTPacket_send_ack PUBREL 300 0 = Ret (header, buffers) /\
    hd_type header = PUBREL /\ hd_dup header = 0 /\ hd_qos header = 1 /\
    (arrives 5 header buffers [] (example_net 5 [0x62; 2; 1; 44]) ->
     received 5 [] (read_packet 5 5 (example_net 5 [0x62; 2; 1; 44])) (PkAck (MkAck header 300))).
Proof.
  destruct (ack_roundtrip 5 PUBREL 300 0 [] (example_net 5 [0x62; 2; 1; 44]) 5) as (h & b & E & H);
    [discriminate|decide_all|split; vm_compute; [discriminate|reflexivity]|
     split; vm_compute; [discriminate|reflexivity]|apply Nat.ltb_lt; vm_compute; reflexivity|].
  exists h, b. split; [exact E|exact H].
Defined.
