(* ===== verification/SockWrite.v ===== *)
(** * SockWrite: an interrupted write is completed

    The writes of [SockBuf] for one connection: what [Socket_putdatas] could not write is written by
    [Socket_continueWrites], each byte once and in order. *)

From Stdlib Require Import ZArith Lia String.
From stdpp Require Import base tactics numbers list gmap.
From S2P Require Import Prelude SockBuf.

(** The bytes a socket was given so far. *)
Definition wire (s : Z) (n : net) : list Z := (n_out n) ≫= (fun '(s', l) => if s' =? s then l else []).

(** The client calls [Socket_continueWrites] whenever the socket is writable. *)
Fixpoint resume (fuel : nat) (s : Z) (n : net) : outcome net :=
  match fuel with
  | O => Blocked
  | S fuel' =>
      let! (done, n1) := Socket_continueWrites [s] n in
      if bool_decide (s ∈ done) then Ret n1 else resume fuel' s n1
  end.

Lemma collect_whole iovs done c : done <= c -> collect iovs done c = iovs.
Proof.
  revert c. induction iovs as [|v iovs IH]; intros c Hc; [done|]. cbn [collect].
  destruct (Z.leb_spec done c); [|lia]. f_equal. apply IH. lia.
Qed.

(** The buffers of the next write: what is left, up to the end of the buffer the last one stopped in,
    or to the end when it stopped between two. *)
Lemma collect_spec iovs : forall done c,
  0 <= c <= done -> done < c + Z.of_nat (length (concat iovs)) ->
  exists rest, drop (Z.to_nat (done - c)) (concat iovs) = concat (collect iovs done c) ++ rest /\
    concat (collect iovs done c) <> [] /\
    (rest <> [] -> collect iovs (done + Z.of_nat (length (concat (collect iovs done c)))) c <> [] /\
       concat (collect iovs (done + Z.of_nat (length (concat (collect iovs done c)))) c) = rest).
Proof.
  induction iovs as [|v iovs IH]; intros done c Hc Hd; [simpl in Hd; lia|].
  cbn [collect concat] in *. rewrite length_app in Hd. destruct (Z.leb_spec done c) as [Hle|Hgt].
  - assert (done = c) as -> by lia. rewrite collect_whole by lia. exists [].
    rewrite Z.sub_diag, drop_0, app_nil_r. split; [done|]. split; [|done]. cbn [concat]. intros E.
    apply (f_equal length) in E. rewrite length_app in E. simpl in E. lia.
  - destruct (Z.ltb_spec done (c + Z.of_nat (length v))) as [Hlt|Hge].
    + exists (concat iovs). rewrite drop_app_le by lia. cbn [concat]. rewrite app_nil_r. split; [done|].
      assert (Hl : Z.of_nat (length (drop (Z.to_nat (done - c)) v)) = c + Z.of_nat (length v) - done)
        by (rewrite length_drop; lia).
      split; [intros E; rewrite E in Hl; simpl in Hl; lia|]. intros Hne. rewrite Hl.
      destruct (Z.leb_spec (done + (c + Z.of_nat (length v) - done)) c); [lia|].
      destruct (Z.ltb_spec (done + (c + Z.of_nat (length v) - done)) (c + Z.of_nat (length v))); [lia|].
      rewrite collect_whole by lia. split; [|done]. by intros ->.
    + destruct (IH done (c + Z.of_nat (length v))) as (rest & E & Hne & Hr); [lia|lia|].
      exists rest. rewrite drop_app_ge by lia.
      replace (Z.to_nat (done - c) - length v)%nat with (Z.to_nat (done - (c + Z.of_nat (length v)))) by lia.
      split; [done|]. split; [done|]. intros Hrest. destruct (Hr Hrest) as [H1 H2].
      set (l := Z.of_nat (length (concat (collect iovs done (c + Z.of_nat (length v)))))) in *.
      destruct (Z.leb_spec (done + l) c); [lia|].
      by destruct (Z.ltb_spec (done + l) (c + Z.of_nat (length v))); [lia|].
Qed.

Section Writes.
Variable s : Z.

(** A [writev] that does not fail. *)
Definition goes_on (r : wres) : Prop := match r with WErr => False | _ => True end.

(** The only pending write is [bufs] on [s], of which [sent] has been written, after [w]. *)
Definition owes (bufs : list (list Z)) (w sent left : list Z) (n : net) : Prop :=
  writes n = [PW s (Z.of_nat (length (concat bufs))) (Z.of_nat (length sent)) bufs] /\
  write_pending n = [s] /\ (wp_current n = None \/ wp_current n = Some s) /\
  concat bufs = sent ++ left /\ left <> [] /\ wire s n = w ++ sent.

(** Nothing is pending. *)
Definition idle (w : list Z) (n : net) : Prop :=
  writes n = [] /\ write_pending n = [] /\ wp_current n = None /\ wire s n = w.

Lemma wire_add l n : wire s (add_wire s l n) = wire s n ++ l.
Proof. unfold wire. simpl. rewrite bind_app. simpl. by rewrite Z.eqb_refl, app_nil_r. Qed.

(** A [writev] takes a part of the bytes, and all of them when nothing else is said. *)
Lemma writev_spec bufs n :
  Forall goes_on (n_wres n) ->
  exists rc a b n', Socket_writev s bufs n = (rc, Z.of_nat (length a), n') /\ (rc =? SOCKET_ERROR) = false /\
    concat bufs = a ++ b /\ wire s n' = wire s n ++ a /\ writes n' = writes n /\
    write_pending n' = write_pending n /\ wp_current n' = wp_current n /\ Forall goes_on (n_wres n') /\
    ((n_wres n = [] /\ b = [] /\ n_wres n' = []) \/ S (length (n_wres n')) = length (n_wres n)).
Proof.
  intros Hg. unfold Socket_writev. destruct (n_wres n) as [|[k| |] r] eqn:E.
  - eexists _, (concat bufs), [], _. split; [reflexivity|]. rewrite app_nil_r, wire_add. simpl. rewrite E.
    split_and!; try done; [|by left]. apply Z.eqb_neq. unfold SOCKET_ERROR. lia.
  - apply Forall_cons in Hg as [_ Hg]. eexists _, (take (Z.to_nat k) (concat bufs)), (drop (Z.to_nat k) (concat bufs)), _.
    split; [reflexivity|]. rewrite take_drop, wire_add. simpl. split_and!; try done; [|by right].
    apply Z.eqb_neq. unfold SOCKET_ERROR. lia.
  - apply Forall_cons in Hg as [_ Hg]. eexists _, [], (concat bufs), _. split; [reflexivity|].
    split; [done|]. split; [done|]. split; [by rewrite app_nil_r|]. simpl. split_and!; try done. by right.
  - by apply Forall_cons in Hg as [[] _].
Qed.

(** How many turns are enough: each uses a result of the environment, and when there are no more, the
    rest of a buffer and then the other buffers are written. *)
Definition turns (bufs : list (list Z)) (sent : list Z) (n : net) : nat :=
  (length (n_wres n) +
   if bool_decide (n_wres n = [] /\ concat (collect bufs (Z.of_nat (length sent)) 0) = drop (length sent) (concat bufs))
   then 1 else 2)%nat.

(** A write that leaves [b ++ rest] makes fewer turns needed: it used up an answer of the system, or
    it sent a whole batch and the next one is the last. *)
Lemma turns_less bufs sent a b rest n n' :
  concat bufs = sent ++ a ++ b ++ rest -> b ++ rest <> [] ->
  concat (collect bufs (Z.of_nat (length sent)) 0) = a ++ b ->
  (rest <> [] -> concat (collect bufs (Z.of_nat (length sent) + Z.of_nat (length (a ++ b))) 0) = rest) ->
  (n_wres n = [] /\ b = [] /\ n_wres n' = []) \/ S (length (n_wres n')) = length (n_wres n) ->
  (turns bufs (sent ++ a) n' < turns bufs sent n)%nat.
Proof.
  intros Hb Hne Eab Hr Hturn. unfold turns. rewrite Hb. rewrite drop_app_length.
  destruct Hturn as [(-> & -> & ->)|Hn].
  - rewrite app_nil_r in Eab, Hr. rewrite app_nil_l in Hne |- *. specialize (Hr Hne).
    rewrite length_app, Nat2Z.inj_add, Hr, Eab.
    rewrite bool_decide_eq_true_2 by (split; [done|]; by rewrite <- length_app, app_assoc, drop_app_length).
    rewrite bool_decide_eq_false_2; [simpl; lia|]. intros [_ E0].
    rewrite <- (app_nil_r a) in E0 at 1. by apply app_inv_head in E0.
  - rewrite (bool_decide_eq_false_2 (n_wres n = [] /\ _)) by (intros [E0 _]; by rewrite E0 in Hn).
    case_bool_decide; lia.
Qed.

(** One call while a write is pending. *)
Lemma continue_step bufs w sent left n :
  owes bufs w sent left n -> Forall goes_on (n_wres n) ->
  (exists n', Socket_continueWrites [s] n = Ret ([s], n') /\ idle (w ++ concat bufs) n' /\ Forall goes_on (n_wres n')) \/
  (exists sent' left' n', Socket_continueWrites [s] n = Ret ([], n') /\ owes bufs w sent' left' n' /\
     Forall goes_on (n_wres n') /\ (turns bufs sent' n' < turns bufs sent n)%nat).
Proof.
  intros (Hw & Hp & Hc & Hb & Hne & Hwire) Hg. unfold Socket_continueWrites. rewrite Hp.
  cbn [length head Nat.mul Nat.add]. cbn [continue_loop]. rewrite bool_decide_eq_true_2 by set_solver.
  unfold Socket_continueWrite, find_write. rewrite Hw. cbn [list_find].
  destruct (decide (pw_socket _ = s)) as [_|]; [|done].
  cbn [obind deref fst snd iovecs bytes pw_socket total].
  destruct (collect_spec bufs (Z.of_nat (length sent)) 0) as (rest & E & Hcne & Hr); [lia| |].
  { rewrite Hb, length_app. destruct left; [done|simpl; lia]. }
  rewrite Z.sub_0_r, Nat2Z.id, Hb, drop_app_length in E.
  destruct (writev_spec (collect bufs (Z.of_nat (length sent)) 0) n Hg) as
    (rc & a & b & n1 & -> & -> & Eab & Hwire1 & Hw1 & Hp1 & Hc1 & Hg1 & Hturn). cbn [obind].
  rewrite Hw1, Hw. cbn [list_insert insert].
  assert (El : left = a ++ (b ++ rest)) by (by rewrite app_assoc, <- Eab).
  assert (Hlen : Z.of_nat (length sent) + Z.of_nat (length a) = Z.of_nat (length (sent ++ a)))
    by (rewrite length_app; lia).
  rewrite Hlen. destruct (Z.eqb_spec (Z.of_nat (length (sent ++ a))) (Z.of_nat (length (concat bufs)))) as [Ed|Ed].
  - assert (Hrest : b ++ rest = []).
    { apply nil_length_inv. pose proof (f_equal length Hb) as Hbl. rewrite El, !length_app in Hbl.
      rewrite !length_app in Ed. rewrite length_app. lia. }
    rewrite Hrest, app_nil_r in El. subst a. cbn [negb Z.eqb]. left.
    set (n2 := remove_pending s _). assert (Hi : idle (w ++ concat bufs) n2 /\ Forall goes_on (n_wres n2)).
    { subst n2. unfold remove_pending, SocketBuffer_writeComplete, find_write, idle, wire. cbn.
      destruct (decide (s = s)) as [_|]; [|done]. cbn. rewrite Hp1, Hp, Hc1.
      split; [|done]. split; [done|]. split; [by rewrite filter_cons_False, filter_nil by auto|].
      split; [destruct Hc as [-> | ->]; [done|]; rewrite Z.eqb_refl; cbn; by rewrite Z.eqb_refl|].
      fold (wire s n1). by rewrite Hwire1, Hwire, <- app_assoc, <- Hb. }
    exists n2. destruct Hi as [Hi Hgn]. split; [|done]. destruct Hi as (_ & _ & -> & _). done.
  - right. exists (sent ++ a), (b ++ rest). eexists. cbn [negb Z.eqb]. cbn [set_pending write_pending]. rewrite Hp1, Hp.
    cbn [next_pending]. rewrite Z.eqb_refl. cbn [head]. split; [reflexivity|]. split; [|split; [done|]].
    + unfold owes, wire. cbn. rewrite Hc1. fold (wire s n1). rewrite Hwire1, Hwire. split_and!; try done.
      * by rewrite Hb, El, <- !app_assoc.
      * intros E0. rewrite E0, app_nil_r in El. apply Ed. by rewrite Hb, El.
      * by rewrite <- app_assoc.
    + apply (turns_less bufs sent a b rest); [by rewrite Hb, El| |done| |done].
      * intros E0. rewrite E0, app_nil_r in El. apply Ed. by rewrite Hb, El.
      * intros Hn. rewrite <- Eab. by apply Hr.
Qed.

Lemma resume_completes fuel : forall bufs w sent left n,
  owes bufs w sent left n -> Forall goes_on (n_wres n) -> (turns bufs sent n <= fuel)%nat ->
  exists n', resume fuel s n = Ret n' /\ idle (w ++ concat bufs) n'.
Proof.
  induction fuel as [|fuel IH]; intros bufs w sent left n Ho Hg Hf.
  - unfold turns in Hf. case_bool_decide; lia.
  - cbn [resume]. destruct (continue_step bufs w sent left n Ho Hg) as
      [(n' & -> & Hi & _)|(sent' & left' & n' & -> & Ho' & Hg' & Ht)]; cbn [obind].
    + rewrite bool_decide_eq_true_2 by set_solver. by exists n'.
    + rewrite bool_decide_eq_false_2 by set_solver. eapply IH; [done..|lia].
Qed.
End Writes.

(** C30: a packet is written whole.  On a connection without a pending write, whatever part of its
    buffers each [writev] takes, [Socket_putdatas] either writes all the bytes, or keeps what is left
    and reports an interruption; then no other packet can be written to the socket, and calls of
    [Socket_continueWrites] write the rest: at the end exactly the bytes of the buffers are on the
    wire, once and in order, and nothing is pending. *)
Theorem write_completes (s : Z) (bufs : list (list Z)) (n : net) (fuel : nat) :
  idle s (wire s n) n -> Forall goes_on (n_wres n) -> (length (n_wres n) + 2 <= fuel)%nat ->
  exists rc n1, Socket_putdatas s bufs n = (rc, n1) /\
    ((rc = TCPSOCKET_COMPLETE /\ idle s (wire s n ++ concat bufs) n1) \/
     (rc = TCPSOCKET_INTERRUPTED /\
      (forall bufs', exists n', Socket_putdatas s bufs' n1 = (SOCKET_ERROR, n') /\ wire s n' = wire s n1) /\
      exists n', resume fuel s n1 = Ret n' /\ idle s (wire s n ++ concat bufs) n')).
Proof.
  intros (Hw & Hp & Hc & _) Hg Hf. unfold Socket_putdatas at 1. unfold Socket_noPendingWrites at 1. rewrite Hp.
  rewrite bool_decide_eq_false_2 by set_solver. cbn [negb].
  destruct (writev_spec s bufs n Hg) as
    (rc & a & b & n1 & -> & -> & Eab & Hwire1 & Hw1 & Hp1 & Hc1 & Hg1 & Hturn).
  destruct (Z.eqb_spec (Z.of_nat (length a)) (Z.of_nat (length (concat bufs)))) as [Ed|Ed].
  - eexists _, _. split; [reflexivity|]. left. split; [done|]. rewrite Eab, length_app in Ed.
    assert (b = []) as -> by (apply nil_length_inv; lia). rewrite app_nil_r in Eab. rewrite Eab, <- Hwire1.
    by unfold idle; rewrite Hw1, Hp1, Hc1.
  - eexists _, _. split; [reflexivity|]. right. split; [done|]. unfold SocketBuffer_pendingWrite. cbn.
    rewrite Hw1, Hw, Hp1, Hp. cbn. split.
    + intros bufs'. unfold Socket_putdatas, Socket_noPendingWrites. cbn.
      rewrite bool_decide_eq_true_2 by set_solver. eexists. split; reflexivity.
    + eapply (resume_completes s fuel bufs _ a b); [|done|].
      * unfold owes, wire. cbn. rewrite Hc1. split_and!; try done; [by left|].
        intros ->. by rewrite Eab, app_nil_r in Ed.
      * unfold turns. cbn. destruct Hturn as [(? & -> & ?)|?]; [by rewrite app_nil_r in Eab; rewrite Eab in Ed|].
        case_bool_decide; lia.
Qed.

Lemma write_completes_witness :
  let n := Net SocketBuffer_newDefQ [] [] [] None ∅ [WOk 2; WAgain; WOk 3] [] in
  let bufs := [[48; 5]; [1; 2; 3]; [4; 5]] in
  (exists rc n1, Socket_putdatas 5 bufs n = (rc, n1) /\
    ((rc = TCPSOCKET_COMPLETE /\ idle 5 ([] ++ concat bufs) n1) \/
     (rc = TCPSOCKET_INTERRUPTED /\
      (forall bufs', exists n', Socket_putdatas 5 bufs' n1 = (SOCKET_ERROR, n') /\ wire 5 n' = wire 5 n1) /\
      exists n', resume 5 5 n1 = Ret n' /\ idle 5 ([] ++ concat bufs) n'))) /\
  fst (Socket_putdatas 5 bufs n) = TCPSOCKET_INTERRUPTED.
Proof.
  intros n bufs. split; [|reflexivity]. refine (write_completes 5 bufs n 5 _ _ _).
  - repeat split.
  - repeat constructor.
  - apply Nat.leb_le. reflexivity.
Defined.

(** After an error of [writev] the write is dropped, although it is reported as completed. *)
Example error_reported_complete :
  let n := Net SocketBuffer_newDefQ [] [PW 5 5 2 [[48; 3; 1; 2; 3]]] [5] None ∅ [WErr] [(5, [48; 3])] in
  exists n', Socket_continueWrites [5] n = Ret ([5], n') /\ idle 5 [48; 3] n'.
Proof. intros n. eexists. split; [vm_compute; reflexivity|repeat split]. Qed.
