(* ===== verification/MqttProto.v ===== *)
(** * MqttProto: the protocol engine of the MQTT client (MQTTProtocolClient.c, parts of
    MQTTProtocolOut.c and MQTTAsync.c)

    One client, as the program creates it: its messages in flight in both directions, the stored
    publications, the handlers of the packets received, keep-alive and retries.  Messages are values
    of the list that owns them; publications are shared and live in a heap.  [connected], [good] and
    the other bit fields are booleans. *)

From Stdlib Require Import ZArith Lia String.
From stdpp Require Import base tactics numbers list gmap.
From S2P Require Import Prelude LinkedList MqttPacket SockBuf.

Definition MAX_MSG_ID : Z := 65535.

(** ** Data *)

Record Publications : Type := Pub {
  pb_topic : list Z;
  pb_topiclen : Z;
  pb_payload : list Z;
  pb_payloadlen : Z;
  refcount : Z
}.

(** [None] is a field that is not initialised: [nextMessageType] unless the QoS is 2, [lastTouch] of
    an inbound message. *)
Record Messages : Type := Message {
  m_qos : Z;
  m_retain : Z;
  m_msgid : Z;
  m_publish : nat;
  m_lastTouch : option Z;
  m_nextMessageType : option Z
}.

#[export] Instance Messages_eq_dec : EqDecision Messages.
Proof. solve_decision. Defined.

(** [MQTTAsync_message] with its topic, as in [qEntry] and in the callback. *)
Record app_message : Type := AppMessage {
  am_topic : list Z;
  am_topiclen : Z;
  am_payload : list Z;
  am_payloadlen : Z;
  am_qos : Z;
  am_retained : Z;
  am_dup : Z;
  am_msgid : Z
}.

(** The part of a command that depends on its type; the list of server URIs is a value. *)
Inductive details : Type :=
| DConnect (timeout MQTTVersion : Z) (serverURIs : list (list Z)) (currentURI : Z)
| DSubscribe (topics : list (list Z)) (qoss : list Z)
| DUnsubscribe (topics : list (list Z))
| DPublish (destinationName : option (list Z)) (payloadlen : Z) (payload : list Z) (qos retained : Z)
| DDisconnect (internal : bool) (timeout : Z).

Definition command_type (d : details) : Z :=
  match d with
  | DConnect _ _ _ _ => CONNECT
  | DSubscribe _ _ => SUBSCRIBE
  | DUnsubscribe _ => UNSUBSCRIBE
  | DPublish _ _ _ _ _ => PUBLISH
  | DDisconnect _ _ => DISCONNECT
  end.

(** A queued command with its address; the callbacks are present or NULL. *)
Record command : Type := Command {
  cmd_addr : nat;
  cmd_token : Z;
  cmd_start_time : Z;
  cmd_onSuccess : bool;
  cmd_onFailure : bool;
  cmd_details : details
}.

(** A call of a callback of the application.  [CMisread] is the [onSuccess] of a command that is not a
    PUBLISH, called with the fields of a PUBLISH, which are read out of the union of its details. *)
Inductive call : Type :=
| CConnected (serverURI : list Z) (MQTTVersion : Z) (sessionPresent : Z)
| CConnectFailed (code : option Z)
| CSubscribed (token : Z) (qoss : list Z)
| CSubscribeFailed (token code : Z)
| CUnsubscribed (token : Z)
| CSent (token : Z) (destinationName : option (list Z)) (payload : list Z) (qos retained : Z)
| CMisread (token : Z)
| CFailed (token : Z)
| CDisconnected
| CConnectionLost
| CDelivered (msgid : Z).

(** [MQTTAsyncs], the queue of commands, and the environment of the client: the results of
    [Socket_new] and of [getsockopt]. [dc] is whether the callback is set; [connectionLost] and
    [messageArrived] always are. *)
Record asyncs : Type := Asyncs {
  serverURI : list Z;
  commands : clist (A:=command);
  responses : clist (A:=command);
  connect : command;
  disconnect : command;
  pending_write : option nat;
  dc : bool;
  next_addr : nat;
  calls : list call;
  new_results : list (Z * Z);
  so_errors : list Z;
  last_retry : Z;
  last_timeouts : Z
}.

Record Clients : Type := Client {
  clientID : list Z;
  username : option (list Z);
  password : option (list Z);
  will : option willMessages;
  MQTTVersion : Z;
  socket : Z;
  lastSent : Z;
  lastReceived : Z;
  cleansession : bool;
  connected : bool;
  good : bool;
  ping_outstanding : bool;
  connect_state : Z;
  msgID : Z;
  keepAliveInterval : Z;
  retryInterval : Z;
  inboundMsgs : clist (A:=Messages);
  outboundMsgs : clist (A:=Messages);
  messageQueue : list app_message
}.

(** The client, the stored publications ([state.publications] and the heap), the QoS 0 writes that are
    not complete, the API on top, and the environment: sockets, the clock in milliseconds, the results
    of the [messageArrived] callback (then it always accepts), and the calls of it with these results. *)
Record mqtt : Type := Mqtt {
  client : Clients;
  pubs : gmap nat Publications;
  publications : clist (A:=nat);
  pending : clist (A:=Z * nat);
  msgs_received : Z;
  msgs_sent : Z;
  api : asyncs;
  nt : net;
  clock : Z;
  ma_results : list bool;
  arrived : list (app_message * bool)
}.

Definition upd_client (f : Clients -> Clients) (s : mqtt) : mqtt :=
  Mqtt (f (client s)) (pubs s) (publications s) (pending s) (msgs_received s) (msgs_sent s) (api s) (nt s)
    (clock s) (ma_results s) (arrived s).
Definition set_pubs (h : gmap nat Publications) (l : clist) (s : mqtt) : mqtt :=
  Mqtt (client s) h l (pending s) (msgs_received s) (msgs_sent s) (api s) (nt s) (clock s) (ma_results s)
    (arrived s).
Definition set_pending_writes (l : clist) (s : mqtt) : mqtt :=
  Mqtt (client s) (pubs s) (publications s) l (msgs_received s) (msgs_sent s) (api s) (nt s) (clock s)
    (ma_results s) (arrived s).
Definition set_counts (r t : Z) (s : mqtt) : mqtt :=
  Mqtt (client s) (pubs s) (publications s) (pending s) r t (api s) (nt s) (clock s) (ma_results s) (arrived s).
Definition set_api (a : asyncs) (s : mqtt) : mqtt :=
  Mqtt (client s) (pubs s) (publications s) (pending s) (msgs_received s) (msgs_sent s) a (nt s) (clock s)
    (ma_results s) (arrived s).
Definition set_nt (n : net) (s : mqtt) : mqtt :=
  Mqtt (client s) (pubs s) (publications s) (pending s) (msgs_received s) (msgs_sent s) (api s) n (clock s)
    (ma_results s) (arrived s).
Definition set_arrived (r : list bool) (l : list (app_message * bool)) (s : mqtt) : mqtt :=
  Mqtt (client s) (pubs s) (publications s) (pending s) (msgs_received s) (msgs_sent s) (api s) (nt s) (clock s)
    r l.

Definition set_times (snt rcv : Z) (c : Clients) : Clients :=
  Client (clientID c) (username c) (password c) (will c) (MQTTVersion c) (socket c) snt rcv (cleansession c) (connected c) (good c) (ping_outstanding c) (connect_state c) (msgID c)
    (keepAliveInterval c) (retryInterval c) (inboundMsgs c) (outboundMsgs c) (messageQueue c).
Definition set_flags (conn gd ping : bool) (cs : Z) (c : Clients) : Clients :=
  Client (clientID c) (username c) (password c) (will c) (MQTTVersion c) (socket c) (lastSent c) (lastReceived c) (cleansession c) conn gd ping cs (msgID c)
    (keepAliveInterval c) (retryInterval c) (inboundMsgs c) (outboundMsgs c) (messageQueue c).
Definition set_msgID (i : Z) (c : Clients) : Clients :=
  Client (clientID c) (username c) (password c) (will c) (MQTTVersion c) (socket c) (lastSent c) (lastReceived c) (cleansession c) (connected c) (good c) (ping_outstanding c)
    (connect_state c) i (keepAliveInterval c) (retryInterval c) (inboundMsgs c) (outboundMsgs c) (messageQueue c).
Definition set_inbound (l : clist) (c : Clients) : Clients :=
  Client (clientID c) (username c) (password c) (will c) (MQTTVersion c) (socket c) (lastSent c) (lastReceived c) (cleansession c) (connected c) (good c) (ping_outstanding c)
    (connect_state c) (msgID c) (keepAliveInterval c) (retryInterval c) l (outboundMsgs c) (messageQueue c).
Definition set_outbound (l : clist) (c : Clients) : Clients :=
  Client (clientID c) (username c) (password c) (will c) (MQTTVersion c) (socket c) (lastSent c) (lastReceived c) (cleansession c) (connected c) (good c) (ping_outstanding c)
    (connect_state c) (msgID c) (keepAliveInterval c) (retryInterval c) (inboundMsgs c) l (messageQueue c).
Definition set_queue (q : list app_message) (c : Clients) : Clients :=
  Client (clientID c) (username c) (password c) (will c) (MQTTVersion c) (socket c) (lastSent c) (lastReceived c) (cleansession c) (connected c) (good c) (ping_outstanding c)
    (connect_state c) (msgID c) (keepAliveInterval c) (retryInterval c) (inboundMsgs c) (outboundMsgs c) q.

(** ** The monad *)

Definition M (A : Type) : Type := mqtt -> outcome (A * mqtt).

Definition pret {A : Type} (a : A) : M A := fun s => Ret (a, s).
Definition pbind {A B : Type} (m : M A) (k : A -> M B) : M B := fun s => let! (a, s1) := m s in k a s1.
Definition pget : M mqtt := fun s => Ret (s, s).
Definition pmod (f : mqtt -> mqtt) : M unit := fun s => Ret (tt, f s).
Definition plift {A : Type} (o : outcome A) : M A := fun s => let! a := o in Ret (a, s).

Notation "'let*' x ':=' m 'in' k" := (pbind m (fun x => k))
  (at level 10, x pattern, m at level 100, k at level 200) : siproxy_scope.
Notation "m >>; k" := (pbind m (fun _ => k)) (at level 100, right associativity) : siproxy_scope.

(** [time (&t)] and [MQTTAsync_start_clock]. *)
Definition time : M Z := let* s := pget in pret (clock s / 1000).
Definition MQTTAsync_start_clock : M Z := let* s := pget in pret (clock s).

Definition pclient (f : Clients -> Clients) : M unit := pmod (upd_client f).
Definition the_client : M Clients := let* s := pget in pret (client s).

(** ** Sending *)

(** [MQTTPacket_send] or [MQTTPacket_sends] of a packet made by one of the [MQTTPacket_send_*]. *)
Definition send (r : outcome (Z * list (list Z))) : M Z :=
  let* (header, buffers) := plift r in
  let* s := pget in
  let (rc, n) := Socket_putdatas (socket (client s)) (MQTTPacket_sends header buffers) (nt s) in
  pmod (set_nt n) >>;
  (if rc =? TCPSOCKET_COMPLETE
   then let* t := time in pclient (fun c => set_times t (lastReceived c) c)
   else pret tt) >>;
  pret rc.

Definition noPendingWrites : M bool :=
  let* s := pget in
  let (free, n) := Socket_noPendingWrites (socket (client s)) (nt s) in
  pmod (set_nt n) >>; pret free.

(** ** The queue of commands *)

Definition upd_api (f : asyncs -> asyncs) : M unit := pmod (fun s => set_api (f (api s)) s).

Definition set_commands (l : clist) (a : asyncs) : asyncs :=
  Asyncs (serverURI a) l (responses a) (connect a) (disconnect a) (pending_write a) (dc a) (next_addr a) (calls a)
    (new_results a) (so_errors a) (last_retry a) (last_timeouts a).
Definition set_responses (l : clist) (a : asyncs) : asyncs :=
  Asyncs (serverURI a) (commands a) l (connect a) (disconnect a) (pending_write a) (dc a) (next_addr a) (calls a)
    (new_results a) (so_errors a) (last_retry a) (last_timeouts a).
Definition set_next_addr (n : nat) (a : asyncs) : asyncs :=
  Asyncs (serverURI a) (commands a) (responses a) (connect a) (disconnect a) (pending_write a) (dc a) n (calls a)
    (new_results a) (so_errors a) (last_retry a) (last_timeouts a).

(** [malloc] and [memset] of a command, and its fields; the address is never used again. *)
Definition new_command (token : Z) (onSuccess onFailure : bool) (d : details) : M command :=
  let* s := pget in
  upd_api (set_next_addr (S (next_addr (api s)))) >>;
  pret (Command (next_addr (api s)) token 0 onSuccess onFailure d).

Definition MQTTAsync_addCommand (c : command) : M Z :=
  let* t := MQTTAsync_start_clock in
  let* s := pget in
  let cmd := Command (cmd_addr c) (cmd_token c) t (cmd_onSuccess c) (cmd_onFailure c) (cmd_details c) in
  (if match cmd_details cmd with DConnect _ _ _ _ => true | DDisconnect internal _ => internal | _ => false end then
     match items (commands (api s)) with
     | head :: _ =>
         if command_type (cmd_details head) =? command_type (cmd_details cmd) then pret tt
         else upd_api (fun a => set_commands (c_insert cmd 0 (commands a)) a)
     | [] => upd_api (fun a => set_commands (c_insert cmd 0 (commands a)) a)
     end
   else upd_api (fun a => set_commands (c_append cmd (commands a)) a)) >>;
  pret 0.

Definition MQTTASYNC_DISCONNECTED : Z := -3.

(** The request to disconnect is made and queued. *)
Definition queue_disconnect (onSuccess internal : bool) (timeout : Z) : M Z :=
  let* dis := new_command 0 onSuccess false (DDisconnect internal timeout) in
  MQTTAsync_addCommand dis.

(** [options], when given, are the callback, the timeout. *)
Definition MQTTAsync_disconnect1 (onSuccess internal : bool) (timeout : Z) : M Z :=
  let* c := the_client in
  if negb (connected c) then pret MQTTASYNC_DISCONNECTED else queue_disconnect onSuccess internal timeout.

Definition MQTTAsync_disconnect_internal (timeout : Z) : M Z := MQTTAsync_disconnect1 false true timeout.
Definition MQTTProtocol_closeSession : M unit := MQTTAsync_disconnect_internal 0 >>; pret tt.

(** ** Stored publications *)

(** [malloc (payloadlen)] and [memcpy]; a negative length does not fit any block. *)
Definition copy_payload (publish : Publish) : outcome (list Z) :=
  if p_payloadlen publish <? 0 then Fault
  else read_bytes (p_payload publish) 0 (Z.to_nat (p_payloadlen publish)).

(** The topic is taken over or copied, the payload is copied. *)
Definition MQTTProtocol_storePublication (publish : Publish) : M nat :=
  let* payload := plift (copy_payload publish) in
  let* s := pget in
  let p := fresh (dom (pubs s)) in
  pmod (set_pubs (<[p := Pub (p_topic publish) (p_topiclen publish) payload (p_payloadlen publish) 1]> (pubs s))
    (c_append p (publications s))) >>;
  pret p.

Definition load_pub (p : nat) : M Publications :=
  let* s := pget in plift (deref (pubs s !! p)).

(** [ListRemove (&(state.publications), p)], which frees the structure when it is in the list. *)
Definition unlist_pub (p : nat) : M unit :=
  let* s := pget in
  let (found, l) := c_unlink (fun x => bool_decide (x = p)) true (publications s) in
  pmod (set_pubs (if found then delete p (pubs s) else pubs s) l).

Definition MQTTProtocol_removePublication (p : nat) : M unit :=
  let* b := load_pub p in
  let* s := pget in
  let n := refcount b - 1 in
  pmod (set_pubs (<[p := Pub (pb_topic b) (pb_topiclen b) (pb_payload b) (pb_payloadlen b) n]> (pubs s))
    (publications s)) >>;
  if n =? 0 then unlist_pub p else pret tt.

(** [shared] is the publication of [*mm], when there is one. *)
Definition MQTTProtocol_createMessage (publish : Publish) (shared : option nat) (qos retained : Z) : M Messages :=
  let* p := match shared with
            | None => MQTTProtocol_storePublication publish
            | Some p =>
                let* b := load_pub p in
                let* s := pget in
                pmod (set_pubs (<[p := Pub (pb_topic b) (pb_topiclen b) (pb_payload b) (pb_payloadlen b)
                  (refcount b + 1)]> (pubs s)) (publications s)) >>;
                pret p
            end in
  let* t := time in
  pret (Message qos retained (p_msgId publish) p (Some t) (if qos =? 2 then Some PUBREC else None)).

(** ** Publishing *)

(** The loop of [MQTTProtocol_assignMsgId] and of [MQTTAsync_assignMsgId]; [used] looks an identifier
    up and moves the cursors of the lists it searches. *)
Fixpoint assign_loop {L : Type} (used : Z -> L -> bool * L) (fuel : nat) (start_msgid msgid : Z) (l : L) :
    outcome (Z * L) :=
  match fuel with
  | O => Blocked
  | S fuel' =>
      let (r, l1) := used msgid l in
      if negb r then Ret (msgid, l1)
      else
        let msgid1 := if msgid =? MAX_MSG_ID then 1 else msgid + 1 in
        if msgid1 =? start_msgid then Ret (0, l1) else assign_loop used fuel' start_msgid msgid1 l1
  end.

Definition first_msgid (start_msgid : Z) : Z := if start_msgid =? MAX_MSG_ID then 1 else start_msgid + 1.

(** [ListFindItem], whether there is one. *)
Definition has_item {A : Type} (same : A -> bool) (l : clist (A:=A)) : bool * clist (A:=A) :=
  let (r, l1) := c_find same l in (match r with Some _ => true | None => false end, l1).

Definition MQTTProtocol_assignMsgId : M Z :=
  let* c := the_client in
  let start_msgid := msgID c in
  let* (msgid, l) := plift (assign_loop (fun id => has_item (fun m => m_msgid m =? id)) (Z.to_nat MAX_MSG_ID + 1)
    start_msgid (first_msgid start_msgid) (outboundMsgs c)) in
  pclient (set_outbound l) >>;
  (if msgid =? 0 then pret tt else pclient (set_msgID msgid)) >>;
  pret msgid.

Definition cmdMessageIDCompare (id : Z) (c : command) : bool := cmd_token c =? id.

Definition find_id (id : Z) (l : clist (A:=command) * clist (A:=command)) : bool * (clist * clist) :=
  let (r, l1) := has_item (cmdMessageIDCompare id) l.1 in
  if r then (true, (l1, l.2)) else let (r2, l2) := has_item (cmdMessageIDCompare id) l.2 in (r2, (l1, l2)).

Definition MQTTAsync_assignMsgId : M Z :=
  let* s := pget in
  let start_msgid := msgID (client s) in
  let* (msgid, (l1, l2)) := plift (assign_loop find_id (Z.to_nat MAX_MSG_ID + 1) start_msgid (first_msgid start_msgid)
    (commands (api s), responses (api s))) in
  upd_api (fun a => set_responses l2 (set_commands l1 a)) >>;
  (if msgid =? 0 then pret tt else pclient (set_msgID msgid)) >>;
  pret msgid.

Definition MQTTProtocol_storeQoS0 (publish : Publish) : M unit :=
  let* p := MQTTProtocol_storePublication publish in
  let* s := pget in
  pmod (set_pending_writes (c_append (socket (client s), p) (pending s))) >>;
  let* b := load_pub p in
  let* s := pget in
  pmod (set_nt (snd (SocketBuffer_updateWrite (socket (client s)) (pb_topic b) (pb_payload b) (nt s)))).

Definition MQTTProtocol_startPublishCommon (publish : Publish) (qos retained : Z) : M Z :=
  let* rc := send (MQTTPacket_send_publish publish 0 qos retained) in
  (if (qos =? 0) && (rc =? TCPSOCKET_INTERRUPTED) then MQTTProtocol_storeQoS0 publish else pret tt) >>;
  pret rc.

Definition MQTTProtocol_startPublish (publish : Publish) (qos retained : Z) (shared : option nat) : M Z :=
  if 0 <? qos then
    let* m := MQTTProtocol_createMessage publish shared qos retained in
    pclient (fun c => set_outbound (c_append m (outboundMsgs c)) c) >>;
    let* b := load_pub (m_publish m) in
    MQTTProtocol_startPublishCommon
      (MkPublish (p_header publish) (pb_topic b) (p_topiclen publish) (p_msgId publish) (pb_payload b)
        (p_payloadlen publish)) qos retained
  else MQTTProtocol_startPublishCommon publish qos retained.

(** ** Passing messages on *)

(** [MQTTAsync_deliverMessage]: the call of the application. *)
Definition MQTTAsync_deliverMessage (am : app_message) : M bool :=
  let* s := pget in
  let '(rc, rest) := match ma_results s with [] => (true, []) | b :: l => (b, l) end in
  pmod (set_arrived rest (arrived s ++ [(am, rc)])) >>; pret rc.

Definition Protocol_processPublication (publish : Publish) : M unit :=
  let qos := hd_qos (p_header publish) in
  let* payload := plift (copy_payload publish) in
  let am := AppMessage (p_topic publish) (p_topiclen publish) payload (p_payloadlen publish) qos
    (hd_retain (p_header publish)) (if qos =? 2 then 0 else hd_dup (p_header publish)) (p_msgId publish) in
  let* c := the_client in
  let* rc := (if bool_decide (messageQueue c = []) && connected c then MQTTAsync_deliverMessage am else pret false) in
  if rc then pret tt else pclient (fun c => set_queue (messageQueue c ++ [am]) c).

(** ** The handlers *)

(** The client of the socket; there is always one when a packet arrives. *)
Definition client_of (sock : Z) : M Clients :=
  let* c := the_client in if socket c =? sock then pret c else plift Fault.

Definition by_msgid (id : Z) (m : Messages) : bool := m_msgid m =? id.

(** [ListFindItem] by message identifier: the message, which is now the current one. *)
Definition find_outbound (id : Z) : M (option (nat * Messages)) :=
  let* c := the_client in
  let (r, l) := c_find (by_msgid id) (outboundMsgs c) in
  pclient (set_outbound l) >>;
  pret (i ← r; m ← items l !! i; Some (i, m)).

Definition find_inbound (id : Z) : M (option (nat * Messages)) :=
  let* c := the_client in
  let (r, l) := c_find (by_msgid id) (inboundMsgs c) in
  pclient (set_inbound l) >>;
  pret (i ← r; m ← items l !! i; Some (i, m)).

(** [ListRemove], which finds the message by its address: it is the current one. *)
Definition remove_message (m : Messages) (l : clist (A:=Messages)) : clist (A:=Messages) :=
  snd (c_unlink (fun x => bool_decide (x = m)) true l).

(** A change of the message at a position. *)
Definition set_message (i : nat) (m : Messages) (l : clist (A:=Messages)) : clist (A:=Messages) :=
  CList (<[i := m]> (items l)) (cursor l) (released l).

Definition MQTTProtocol_handlePublishes (publish : Publish) (sock : Z) : M Z :=
  let* c := client_of sock in
  let qos := hd_qos (p_header publish) in
  if qos =? 0 then Protocol_processPublication publish >>; pret TCPSOCKET_COMPLETE
  else if qos =? 1 then
    let* rc := send (MQTTPacket_send_puback (p_msgId publish)) in
    Protocol_processPublication publish >>; pret rc
  else if qos =? 2 then
    let* p := MQTTProtocol_storePublication publish in
    let m := Message qos (hd_retain (p_header publish)) (p_msgId publish) p None (Some PUBREL) in
    let* found := find_inbound (m_msgid m) in
    match found with
    | Some (i, msg) =>
        MQTTProtocol_removePublication (m_publish msg) >>;
        pclient (fun c => set_inbound (remove_message msg (c_insert m i (inboundMsgs c))) c)
    | None => pclient (fun c => set_inbound (c_append m (inboundMsgs c)) c)
    end >>;
    send (MQTTPacket_send_pubrec (p_msgId publish))
  else pret TCPSOCKET_COMPLETE.

Definition MQTTProtocol_handlePubacks (puback : Ack) (sock : Z) : M Z :=
  let* c := client_of sock in
  let* found := find_outbound (a_msgId puback) in
  match found with
  | None => pret TCPSOCKET_COMPLETE
  | Some (_, m) =>
      if negb (m_qos m =? 1) then pret TCPSOCKET_COMPLETE
      else
        MQTTProtocol_removePublication (m_publish m) >>;
        pclient (fun c => set_outbound (remove_message m (outboundMsgs c)) c) >>;
        pret 0
  end.

Definition MQTTProtocol_handlePubrecs (pubrec : Ack) (sock : Z) : M Z :=
  let* c := client_of sock in
  pclient (fun c => set_outbound (CList (items (outboundMsgs c)) None (released (outboundMsgs c))) c) >>;
  let* found := find_outbound (a_msgId pubrec) in
  match found with
  | None => pret TCPSOCKET_COMPLETE
  | Some (i, m) =>
      if negb (m_qos m =? 2) then pret TCPSOCKET_COMPLETE
      else
        let* next := plift (deref (m_nextMessageType m)) in
        if negb (next =? PUBREC) then pret TCPSOCKET_COMPLETE
        else
          let* rc := send (MQTTPacket_send_pubrel (a_msgId pubrec) 0) in
          let* t := time in
          pclient (fun c => set_outbound (set_message i
            (Message (m_qos m) (m_retain m) (m_msgid m) (m_publish m) (Some t) (Some PUBCOMP)) (outboundMsgs c)) c) >>;
          pret rc
  end.

(** The publication is taken out of the list whatever its reference count; its topic and payload
    belong to the application now. *)
Definition MQTTProtocol_handlePubrels (pubrel : Ack) (sock : Z) : M Z :=
  let* c := client_of sock in
  let* found := find_inbound (a_msgId pubrel) in
  match found with
  | None =>
      if hd_dup (a_header pubrel) =? 0 then pret TCPSOCKET_COMPLETE
      else send (MQTTPacket_send_pubcomp (a_msgId pubrel))
  | Some (_, m) =>
      if negb (m_qos m =? 2) then pret TCPSOCKET_COMPLETE
      else
        let* next := plift (deref (m_nextMessageType m)) in
        if negb (next =? PUBREL) then pret TCPSOCKET_COMPLETE
        else
          let* rc := send (MQTTPacket_send_pubcomp (a_msgId pubrel)) in
          let* b := load_pub (m_publish m) in
          Protocol_processPublication
            (MkPublish (Header 0 0 (m_qos m) (m_retain m)) (pb_topic b) (pb_topiclen b) (m_msgid m) (pb_payload b)
              (pb_payloadlen b)) >>;
          unlist_pub (m_publish m) >>;
          pclient (fun c => set_inbound (remove_message m (inboundMsgs c)) c) >>;
          let* s := pget in
          pmod (set_counts ((msgs_received s + 1) mod 2 ^ 32) (msgs_sent s)) >>;
          pret rc
  end.

Definition MQTTProtocol_handlePubcomps (pubcomp : Ack) (sock : Z) : M Z :=
  let* c := client_of sock in
  let* found := find_outbound (a_msgId pubcomp) in
  match found with
  | None => pret TCPSOCKET_COMPLETE
  | Some (_, m) =>
      if negb (m_qos m =? 2) then pret TCPSOCKET_COMPLETE
      else
        let* next := plift (deref (m_nextMessageType m)) in
        if negb (next =? PUBCOMP) then pret TCPSOCKET_COMPLETE
        else
          MQTTProtocol_removePublication (m_publish m) >>;
          pclient (fun c => set_outbound (remove_message m (outboundMsgs c)) c) >>;
          let* s := pget in
          pmod (set_counts (msgs_received s) ((msgs_sent s + 1) mod 2 ^ 32)) >>;
          pret 0
  end.

Definition MQTTProtocol_handlePingresps (sock : Z) : M Z :=
  let* c := client_of sock in
  pclient (fun c => set_flags (connected c) (good c) false (connect_state c) c) >>;
  pret TCPSOCKET_COMPLETE.

(** ** Keep-alive, retries and clean-up *)

(** The body of the loop of [MQTTProtocol_keepalive] for the client. *)
Definition MQTTProtocol_keepalive (now : Z) : M unit :=
  let* c := the_client in
  if connected c && (0 <? keepAliveInterval c) &&
     ((keepAliveInterval c <=? now - lastSent c) || (keepAliveInterval c <=? now - lastReceived c)) then
    if negb (ping_outstanding c) then
      let* free := noPendingWrites in
      if free then
        let* rc := send MQTTPacket_send_pingreq in
        if negb (rc =? TCPSOCKET_COMPLETE) then MQTTProtocol_closeSession
        else
          pclient (fun c => set_times now (lastReceived c) c) >>;
          pclient (fun c => set_flags (connected c) (good c) true (connect_state c) c)
      else pret tt
    else MQTTProtocol_closeSession
  else pret tt.

(** [good] is cleared and the session is closed. *)
Definition abandon : M unit :=
  pclient (fun c => set_flags (connected c) false (ping_outstanding c) (connect_state c) c) >>;
  MQTTProtocol_closeSession.

Definition touch_message (i : nat) (m : Messages) : M unit :=
  let* t := time in
  pclient (fun c => set_outbound (set_message i
    (Message (m_qos m) (m_retain m) (m_msgid m) (m_publish m) (Some t) (m_nextMessageType m)) (outboundMsgs c)) c).

(** One turn of the loop of [MQTTProtocol_retries], for the message at position [i]; whether the loop
    goes on. *)
Definition retry_message (now : Z) (regardless : bool) (i : nat) (m : Messages) : M bool :=
  let* c := the_client in
  let* due := if regardless then pret true
              else let* t := plift (deref (m_lastTouch m)) in pret (Z.max (retryInterval c) 10 <? now - t) in
  if due then
    let* publ := if m_qos m =? 1 then pret true
                 else if m_qos m =? 2 then
                   let* next := plift (deref (m_nextMessageType m)) in pret (next =? PUBREC)
                 else pret false in
    if publ then
      let* b := load_pub (m_publish m) in
      let publish := MkPublish 0 (pb_topic b) 0 (m_msgid m) (pb_payload b) (pb_payloadlen b) in
      let* rc := send (MQTTPacket_send_publish publish 1 (m_qos m) (m_retain m)) in
      if rc =? SOCKET_ERROR then abandon >>; pret false
      else
        (if (m_qos m =? 0) && (rc =? TCPSOCKET_INTERRUPTED) then MQTTProtocol_storeQoS0 publish else pret tt) >>;
        touch_message i m >>; pret true
    else
      let* rel := if m_qos m =? 0 then pret false
                  else let* next := plift (deref (m_nextMessageType m)) in pret (next =? PUBCOMP) in
      if rel then
        let* rc := send (MQTTPacket_send_pubrel (m_msgid m) 0) in
        if negb (rc =? TCPSOCKET_COMPLETE) then abandon >>; pret false
        else touch_message i m >>; pret true
      else pret true
  else pret true.

(** The loop from position [i] on; it runs once per message. *)
Fixpoint retries_loop (fuel : nat) (now : Z) (regardless : bool) (i : nat) : M unit :=
  match fuel with
  | O => plift Blocked
  | S fuel' =>
      let* c := the_client in
      match items (outboundMsgs c) !! i with
      | None => pret tt
      | Some m =>
          if connected c && good c then
            let* free := noPendingWrites in
            if free then
              let* go := retry_message now regardless i m in
              if go then retries_loop fuel' now regardless (S i) else pret tt
            else pret tt
          else pret tt
      end
  end.

Definition MQTTProtocol_retries (now : Z) (regardless : bool) : M unit :=
  let* c := the_client in
  if negb regardless && (retryInterval c <=? 0) then pret tt
  else retries_loop (S (length (items (outboundMsgs c)))) now regardless 0.

Definition MQTTProtocol_retry (now : Z) (doRetry regardless : bool) : M unit :=
  let* c := the_client in
  if negb (connected c) then pret tt
  else if negb (good c) then MQTTProtocol_closeSession
  else
    let* free := noPendingWrites in
    if negb free then pret tt
    else if doRetry then MQTTProtocol_retries now regardless else pret tt.

(** The loop of [MQTTProtocol_emptyMessageList]. *)
Fixpoint remove_publications (l : list Messages) : M unit :=
  match l with
  | [] => pret tt
  | m :: l' => MQTTProtocol_removePublication (m_publish m) >>; remove_publications l'
  end.

Definition MQTTProtocol_emptyMessageList (l : clist (A:=Messages)) : M (clist (A:=Messages)) :=
  remove_publications (items l) >>; pret (c_empty l).

(** The loop of [MQTTProtocol_checkPendingWrites] from position [i] on. *)
Fixpoint check_loop (fuel : nat) (i : nat) : M unit :=
  match fuel with
  | O => plift Blocked
  | S fuel' =>
      let* s := pget in
      match items (pending s) !! i with
      | None => pret tt
      | Some (sock, p) =>
          let (free, n) := Socket_noPendingWrites sock (nt s) in
          pmod (set_nt n) >>;
          if free then
            MQTTProtocol_removePublication p >>;
            let* s := pget in
            let l := snd (c_unlink (fun x => bool_decide (x = (sock, p))) true
              (CList (items (pending s)) (Some i) (released (pending s)))) in
            pmod (set_pending_writes l) >>;
            match cursor l with None => pret tt | Some j => check_loop fuel' j end
          else check_loop fuel' (S i)
      end
  end.

Definition MQTTProtocol_checkPendingWrites : M unit :=
  let* s := pget in check_loop (S (length (items (pending s)))) 0.

(** ** Subscribing *)

Definition MQTTProtocol_subscribe (topics : list (list Z)) (qoss : list Z) (msgID : Z) : M Z :=
  send (MQTTPacket_send_subscribe topics qoss msgID 0).
Definition MQTTProtocol_unsubscribe (topics : list (list Z)) (msgID : Z) : M Z :=
  send (MQTTPacket_send_unsubscribe topics msgID 0).
Definition MQTTProtocol_handleSubacks (sock : Z) : M Z :=
  let* _ := client_of sock in pret TCPSOCKET_COMPLETE.
Definition MQTTProtocol_handleUnsubacks (sock : Z) : M Z :=
  let* _ := client_of sock in pret TCPSOCKET_COMPLETE.
