(* ===== verification/MqttSession.v ===== *)
(** * MqttSession: what the protocol engine does to a session

    The abstract session of a client: the flows in progress in both directions and the messages
    passed to the application.  The handlers of [MqttProto] implement its transitions; the memory of
    the stored publications is part of the invariant. *)

From Stdlib Require Import ZArith Lia String.
From stdpp Require Import base tactics numbers list gmap.
From S2P Require Import Prelude LinkedList MqttPacket SockBuf MqttProto.

(** ** The invariant *)

Notation out s := (items (outboundMsgs (client s))).
Notation inb s := (items (inboundMsgs (client s))).

(** The publications in use. *)
Definition refs (s : mqtt) : list nat :=
  (m_publish <$> out s) ++ (m_publish <$> inb s) ++ ((fun e : Z * nat => e.2) <$> items (pending s)).

(** A message to the server waits for its acknowledgement, one from the server for its release. *)
Definition out_ok (m : Messages) : Prop :=
  is_Some (m_lastTouch m) /\ 0 <= m_msgid m < 65536 /\
  (m_qos m = 1 \/ m_qos m = 2 /\ (m_nextMessageType m = Some PUBREC \/ m_nextMessageType m = Some PUBCOMP)).
Definition in_ok (m : Messages) : Prop :=
  0 <= m_msgid m < 65536 /\ 0 <= m_retain m < 2 /\ m_qos m = 2 /\ m_nextMessageType m = Some PUBREL.
Definition pub_ok (b : Publications) : Prop :=
  refcount b = 1 /\ pb_payloadlen b = Z.of_nat (length (pb_payload b)).

Record proto_ok (s : mqtt) : Prop := {
  ok_out : Forall out_ok (out s);
  ok_in : Forall in_ok (inb s);
  ok_out_ids : NoDup (m_msgid <$> out s);
  ok_in_ids : NoDup (m_msgid <$> inb s);
  ok_refs : NoDup (refs s);
  ok_list : items (publications s) ≡ₚ refs s;
  ok_dom : forall p, is_Some (pubs s !! p) <-> p ∈ refs s;
  ok_pubs : map_Forall (fun _ => pub_ok) (pubs s)
}.

(** ** The abstract session *)

Record flow : Type := Flow {
  f_id : Z;
  f_qos : Z;
  f_retain : Z;
  f_topic : list Z;
  f_topiclen : Z;
  f_payload : list Z;
  f_stage : option Z
}.

Definition flow_of (h : gmap nat Publications) (m : Messages) (f : flow) : Prop :=
  exists b, h !! m_publish m = Some b /\
    f = Flow (m_msgid m) (m_qos m) (m_retain m) (pb_topic b) (pb_topiclen b) (pb_payload b) (m_nextMessageType m).

Record session : Type := Session {
  se_out : list flow;
  se_in : list flow;
  se_passed : list app_message
}.

(** The messages the application took and those that wait for it. *)
Definition passed (s : mqtt) : list app_message :=
  (fst <$> filter (fun e : app_message * bool => e.2 = true) (arrived s)) ++ messageQueue (client s).

Record represents (s : mqtt) (se : session) : Prop := {
  re_ok : proto_ok s;
  re_out : Forall2 (flow_of (pubs s)) (out s) (se_out se);
  re_in : Forall2 (flow_of (pubs s)) (inb s) (se_in se);
  re_passed : passed s = se_passed se
}.

(** The position of a flow with an identifier. *)
Definition flow_at (id : Z) (l : list flow) : option (nat * flow) := list_find (fun f => f_id f = id) l.

(** The message of a PUBLISH packet and of a flow. *)
Definition message_of (p : Publish) : app_message :=
  AppMessage (p_topic p) (p_topiclen p) (take (Z.to_nat (p_payloadlen p)) (p_payload p)) (p_payloadlen p)
    (hd_qos (p_header p)) (hd_retain (p_header p)) (if hd_qos (p_header p) =? 2 then 0 else hd_dup (p_header p))
    (p_msgId p).
Definition flow_message (f : flow) : app_message :=
  AppMessage (f_topic f) (f_topiclen f) (f_payload f) (Z.of_nat (length (f_payload f))) (f_qos f) (f_retain f) 0 (f_id f).

(** An acknowledgement packet. *)
Definition ack_packet (type id : Z) : Z * list (list Z) :=
  (Header type 0 (if type =? PUBREL then 1 else 0) 0, [be16 id]).

(** What a packet of the server does to the session, and the packets sent in answer. *)
Definition se_publish (p : Publish) (se : session) : session * list (Z * list (list Z)) :=
  let f := Flow (p_msgId p) 2 (hd_retain (p_header p)) (p_topic p) (p_topiclen p)
    (take (Z.to_nat (p_payloadlen p)) (p_payload p)) (Some PUBREL) in
  if hd_qos (p_header p) =? 0 then (Session (se_out se) (se_in se) (se_passed se ++ [message_of p]), [])
  else if hd_qos (p_header p) =? 1 then
    (Session (se_out se) (se_in se) (se_passed se ++ [message_of p]), [ack_packet PUBACK (p_msgId p)])
  else if hd_qos (p_header p) =? 2 then
    (Session (se_out se)
       (match flow_at (p_msgId p) (se_in se) with Some (i, _) => <[i := f]> (se_in se) | None => se_in se ++ [f] end)
       (se_passed se), [ack_packet PUBREC (p_msgId p)])
  else (se, []).

Definition se_puback (id : Z) (se : session) : session * list (Z * list (list Z)) :=
  match flow_at id (se_out se) with
  | Some (i, f) => if f_qos f =? 1 then (Session (delete i (se_out se)) (se_in se) (se_passed se), []) else (se, [])
  | None => (se, [])
  end.

Definition se_pubrec (id : Z) (se : session) : session * list (Z * list (list Z)) :=
  match flow_at id (se_out se) with
  | Some (i, f) =>
      if bool_decide (f_qos f = 2 /\ f_stage f = Some PUBREC) then
        (Session (<[i := Flow id 2 (f_retain f) (f_topic f) (f_topiclen f) (f_payload f) (Some PUBCOMP)]> (se_out se))
           (se_in se) (se_passed se), [ack_packet PUBREL id])
      else (se, [])
  | None => (se, [])
  end.

Definition se_pubrel (dup : Z) (id : Z) (se : session) : session * list (Z * list (list Z)) :=
  match flow_at id (se_in se) with
  | Some (i, f) =>
      (Session (se_out se) (delete i (se_in se)) (se_passed se ++ [flow_message f]), [ack_packet PUBCOMP id])
  | None => (se, if dup =? 0 then [] else [ack_packet PUBCOMP id])
  end.

Definition se_pubcomp (id : Z) (se : session) : session * list (Z * list (list Z)) :=
  match flow_at id (se_out se) with
  | Some (i, f) =>
      if bool_decide (f_qos f = 2 /\ f_stage f = Some PUBCOMP) then
        (Session (delete i (se_out se)) (se_in se) (se_passed se), [])
      else (se, [])
  | None => (se, [])
  end.

Definition se_step (p : packet) (se : session) : session * list (Z * list (list Z)) :=
  match p with
  | PkPublish q => se_publish q se
  | PkAck a =>
      let t := hd_type (a_header a) in
      if t =? PUBACK then se_puback (a_msgId a) se
      else if t =? PUBREC then se_pubrec (a_msgId a) se
      else if t =? PUBREL then se_pubrel (hd_dup (a_header a)) (a_msgId a) se
      else if t =? PUBCOMP then se_pubcomp (a_msgId a) se
      else (se, [])
  | _ => (se, [])
  end.

(** The handler of a packet. *)
Definition handle (p : packet) (sock : Z) : M Z :=
  match p with
  | PkPublish q => MQTTProtocol_handlePublishes q sock
  | PkAck a =>
      let t := hd_type (a_header a) in
      if t =? PUBACK then MQTTProtocol_handlePubacks a sock
      else if t =? PUBREC then MQTTProtocol_handlePubrecs a sock
      else if t =? PUBREL then MQTTProtocol_handlePubrels a sock
      else if t =? PUBCOMP then MQTTProtocol_handlePubcomps a sock
      else if t =? UNSUBACK then MQTTProtocol_handleUnsubacks sock
      else pret 0
  | PkSuback _ => MQTTProtocol_handleSubacks sock
  | PkHeader h => if hd_type h =? PINGRESP then MQTTProtocol_handlePingresps sock else pret 0
  | PkConnack _ => pret 0
  end.

(** The packets were handed to the socket, in order. *)
Definition put (sock : Z) (n : net) (p : Z * list (list Z)) : net :=
  snd (Socket_putdatas sock (MQTTPacket_sends p.1 p.2) n).

(** ** Lists and positions *)

Lemma c_find_by {A} (same : A -> bool) (l : clist (A:=A)) :
  (exists i m, c_find same l = (Some i, CList (items l) (Some i) (released l)) /\ items l !! i = Some m /\ same m = true) \/
  (c_find same l = (None, l) /\ forall m, m ∈ items l -> same m = false).
Proof.
  unfold c_find. destruct (match _ with Some x => same x | None => false end) eqn:Eh.
  - destruct (cursor l) as [j|] eqn:Ec; [|done]. cbn [mbind option_bind] in Eh.
    destruct (items l !! j) as [x|] eqn:Ej; [|done]. left. exists j, x. by destruct l; simpl in *; subst.
  - destruct (list_find _ (items l)) as [[i m]|] eqn:E.
    + apply list_find_Some in E as (? & ? & _). left. by exists i, m.
    + right. split; [done|]. apply list_find_None in E. rewrite Forall_forall in E.
      intros m Hm. by apply not_true_is_false, E.
Qed.

(** The message removed is the one at the cursor. *)
Lemma remove_at m i (l : clist (A:=Messages)) :
  cursor l = Some i -> items l !! i = Some m -> items (remove_message m l) = delete i (items l).
Proof.
  intros Hc Hi. unfold remove_message, c_unlink, c_find. rewrite Hc. cbn [mbind option_bind]. rewrite Hi.
  by rewrite bool_decide_eq_true_2.
Qed.

(** Putting a message before the one at the cursor and removing that one replaces it. *)
Lemma replace_at m m' i (l : clist (A:=Messages)) :
  cursor l = Some i -> items l !! i = Some m -> items (remove_message m (c_insert m' i l)) = <[i := m']> (items l).
Proof.
  intros Hc Hi. pose proof (lookup_lt_Some _ _ _ Hi) as Hlt. unfold c_insert. rewrite bool_decide_eq_true_2 by done.
  rewrite Hc. cbn [fmap option_fmap option_map]. rewrite bool_decide_eq_true_2 by lia.
  assert (Hl : length (take i (items l)) = i) by (rewrite length_take; lia).
  rewrite (remove_at m (S i)); cbn [items cursor]; [|done|].
  - rewrite (insert_take_drop _ _ _ Hlt). rewrite delete_take_drop, take_app_ge, drop_app_ge by lia. rewrite Hl.
    replace (S i - i)%nat with 1%nat by lia. replace (S (S i) - i)%nat with 2%nat by lia. simpl.
    rewrite drop_drop, take_0, <- app_assoc. simpl. by replace (i + 1)%nat with (S i) by lia.
  - rewrite lookup_app_r by lia. rewrite Hl. replace (S i - i)%nat with 1%nat by lia. simpl.
    by rewrite lookup_drop, Nat.add_0_r.
Qed.

(** A message and its flow are at the same position. *)
Lemma flow_at_Some h l fs i m :
  Forall2 (flow_of h) l fs -> NoDup (m_msgid <$> l) -> l !! i = Some m ->
  exists f, flow_at (m_msgid m) fs = Some (i, f) /\ fs !! i = Some f /\ flow_of h m f.
Proof.
  intros Hf Hn Hi. destruct (Forall2_lookup_l _ _ _ _ _ Hf Hi) as (f & Hfi & Hm). exists f. split; [|done].
  apply list_find_Some. split; [done|]. destruct Hm as (b & _ & ->). split; [done|].
  intros j f' Hj Hlt Hid. destruct (Forall2_lookup_r _ _ _ _ _ Hf Hj) as (m' & Hm' & (b' & _ & ->)). cbn in Hid.
  assert (j = i); [|lia]. eapply (NoDup_lookup (m_msgid <$> l)); [done|..]; rewrite list_lookup_fmap.
  - by rewrite Hm'.
  - rewrite Hi. cbn. congruence.
Qed.

Lemma flow_at_None h l fs id :
  Forall2 (flow_of h) l fs -> (forall m, m ∈ l -> m_msgid m <> id) -> flow_at id fs = None.
Proof.
  intros Hf Hn. apply list_find_None. rewrite Forall_forall. intros f Hfs Hid.
  apply list_elem_of_lookup in Hfs as [i Hi]. destruct (Forall2_lookup_r _ _ _ _ _ Hf Hi) as (m & Hm & (b & _ & ->)).
  apply (Hn m); [by eapply list_elem_of_lookup_2|done].
Qed.

Lemma flows_frame h h' l fs :
  (forall m, m ∈ l -> h' !! m_publish m = h !! m_publish m) -> Forall2 (flow_of h) l fs -> Forall2 (flow_of h') l fs.
Proof.
  intros Hh Hf. induction Hf as [|m f l fs (b & Hb & ->) _ IH]; [constructor|]. constructor.
  - exists b. split; [|done]. rewrite Hh; [done|]. by apply list_elem_of_here.
  - apply IH. intros m' Hm'. apply Hh. by apply list_elem_of_further.
Qed.

(** ** Changes of a session *)

(** What [represents] looks at. *)
Definition same_session (s s' : mqtt) : Prop :=
  out s' = out s /\ inb s' = inb s /\ items (pending s') = items (pending s) /\ pubs s' = pubs s /\
  items (publications s') = items (publications s) /\ passed s' = passed s.

Lemma represents_frame s s' se : represents s se -> same_session s s' -> represents s' se.
Proof.
  intros [[] ] (E1 & E2 & E3 & E4 & E5 & E6).
  split; [split|..]; unfold refs in *; rewrite ?E1, ?E2, ?E3, ?E4, ?E5, ?E6; try done.
Qed.

Lemma refs_out s : refs s = (m_publish <$> out s) ++ (m_publish <$> inb s) ++ ((fun e : Z * nat => e.2) <$> items (pending s)).
Proof. done. Qed.

(** A publication is taken out of the heap and of the list. *)
Definition drop_pub (p : nat) (s s' : mqtt) : Prop :=
  pubs s' = delete p (pubs s) /\ p :: items (publications s') ≡ₚ items (publications s).

Lemma ok_drop s s' p r :
  proto_ok s -> drop_pub p s s' -> refs s ≡ₚ p :: r -> refs s' = r ->
  Forall out_ok (out s') -> Forall in_ok (inb s') -> NoDup (m_msgid <$> out s') -> NoDup (m_msgid <$> inb s') ->
  proto_ok s'.
Proof.
  intros H [Hp Hl] Hr <- H1 H2 H3 H4. pose proof (ok_refs _ H) as Hn. rewrite Hr in Hn. apply NoDup_cons in Hn as [Hni Hn].
  split; try done.
  - apply (Permutation_cons_inv (a := p)). rewrite <- Hr, Hl. apply H.
  - intros q. rewrite Hp, lookup_delete_is_Some, (ok_dom _ H), Hr, elem_of_cons.
    split; [naive_solver|]. intros Hq. split; [|by right]. by intros ->.
  - rewrite Hp. apply map_Forall_delete, H.
Qed.

Lemma fmap_delete_perm (l : list Messages) i m :
  l !! i = Some m -> m_publish <$> l ≡ₚ m_publish m :: (m_publish <$> delete i l).
Proof. intros Hi. rewrite (delete_Permutation _ _ _ Hi) at 1. done. Qed.

Lemma Forall2_delete_both {A B} (P : A -> B -> Prop) l k i :
  Forall2 P l k -> Forall2 P (delete i l) (delete i k).
Proof. intros H. revert i. induction H; intros [|i]; simpl; try constructor; auto. Qed.

Lemma NoDup_fmap_delete {A B} (f : A -> B) l i : NoDup (f <$> l) -> NoDup (f <$> delete i l).
Proof.
  intros H. eapply sublist_NoDup; [exact H|]. apply fmap_sublist. apply sublist_delete.
Qed.

Lemma not_in_rest s p r (l : list Messages) m :
  NoDup (refs s) -> refs s ≡ₚ p :: r -> (forall q, q ∈ m_publish <$> l -> q ∈ r) -> m ∈ l -> m_publish m <> p.
Proof.
  intros Hn Hr Hl Hm Hp. rewrite Hr in Hn. apply NoDup_cons in Hn as [Hn _]. apply Hn, Hl.
  rewrite <- Hp. by apply list_elem_of_fmap_2.
Qed.

(** Flows that keep their publications. *)
Lemma flows_drop s s' p r l fs :
  proto_ok s -> drop_pub p s s' -> refs s ≡ₚ p :: r -> (forall q, q ∈ m_publish <$> l -> q ∈ r) ->
  Forall2 (flow_of (pubs s)) l fs -> Forall2 (flow_of (pubs s')) l fs.
Proof.
  intros H [Hp _] Hr Hl. apply flows_frame. intros m Hm. rewrite Hp. apply lookup_delete_ne. intros E.
  by apply (not_in_rest s p r l m (ok_refs _ H) Hr Hl Hm).
Qed.

Lemma represents_drop_out s s' se i m :
  represents s se -> out s !! i = Some m -> out s' = delete i (out s) -> inb s' = inb s ->
  items (pending s') = items (pending s) -> drop_pub (m_publish m) s s' -> passed s' = passed s ->
  represents s' (Session (delete i (se_out se)) (se_in se) (se_passed se)).
Proof.
  intros [H Ho Hi Hp] Hm Eo Ei Ep Hd Hps.
  assert (Hr : refs s ≡ₚ m_publish m :: refs s').
  { unfold refs. rewrite Eo, Ei, Ep. by rewrite (fmap_delete_perm _ _ _ Hm). }
  split; cbn [se_out se_in se_passed]; [| | |congruence].
  - eapply (ok_drop s s'); [done|done|exact Hr|done|rewrite ?Eo, ?Ei..].
    + apply Forall_delete, H.
    + apply H.
    + apply NoDup_fmap_delete, H.
    + apply H.
  - rewrite Eo. apply (flows_drop s s' _ _ _ _ H Hd Hr); [|by apply Forall2_delete_both].
    intros q Hq. unfold refs. rewrite Eo. set_solver.
  - rewrite Ei. apply (flows_drop s s' _ _ _ _ H Hd Hr); [|done].
    intros q Hq. unfold refs. rewrite Ei. set_solver.
Qed.

Lemma represents_drop_in s s' se i m am :
  represents s se -> inb s !! i = Some m -> out s' = out s -> inb s' = delete i (inb s) ->
  items (pending s') = items (pending s) -> drop_pub (m_publish m) s s' -> passed s' = passed s ++ [am] ->
  represents s' (Session (se_out se) (delete i (se_in se)) (se_passed se ++ [am])).
Proof.
  intros [H Ho Hi Hp] Hm Eo Ei Ep Hd Hps.
  assert (Hr : refs s ≡ₚ m_publish m :: refs s').
  { unfold refs. rewrite Eo, Ei, Ep. rewrite (fmap_delete_perm _ _ _ Hm). solve_Permutation. }
  split; cbn [se_out se_in se_passed]; [| | |congruence].
  - eapply (ok_drop s s'); [done|done|exact Hr|done|rewrite ?Eo, ?Ei..].
    + apply H.
    + apply Forall_delete, H.
    + apply H.
    + apply NoDup_fmap_delete, H.
  - rewrite Eo. apply (flows_drop s s' _ _ _ _ H Hd Hr); [|done].
    intros q Hq. unfold refs. rewrite Eo. set_solver.
  - rewrite Ei. apply (flows_drop s s' _ _ _ _ H Hd Hr); [|by apply Forall2_delete_both].
    intros q Hq. unfold refs. rewrite Ei. set_solver.
Qed.

(** A publication was stored. *)
Definition add_pub (p : nat) (b : Publications) (s s' : mqtt) : Prop :=
  pubs s !! p = None /\ pub_ok b /\ pubs s' = <[p := b]> (pubs s) /\
  items (publications s') ≡ₚ p :: items (publications s).

Lemma ok_add s s' p b :
  proto_ok s -> add_pub p b s s' -> refs s' ≡ₚ p :: refs s ->
  Forall out_ok (out s') -> Forall in_ok (inb s') -> NoDup (m_msgid <$> out s') -> NoDup (m_msgid <$> inb s') ->
  proto_ok s'.
Proof.
  intros H (Hn & Hb & Hp & Hl) Hr H1 H2 H3 H4. split; try done.
  - rewrite Hr. apply NoDup_cons. split; [|apply H]. intros Hi. apply (ok_dom _ H) in Hi. rewrite Hn in Hi.
    by destruct Hi.
  - rewrite Hl, Hr. f_equiv. apply H.
  - intros q. rewrite Hp, Hr, elem_of_cons, <- (ok_dom _ H), lookup_insert_is_Some. split.
    + intros [->|[_ ?]]; auto.
    + intros [->|?]; [by left|]. destruct (decide (p = q)); [by left|right; done].
  - rewrite Hp. apply map_Forall_insert_2; [done|apply H].
Qed.

Lemma flows_add s s' p b l fs :
  add_pub p b s s' -> proto_ok s -> (forall q, q ∈ m_publish <$> l -> q ∈ refs s) ->
  Forall2 (flow_of (pubs s)) l fs -> Forall2 (flow_of (pubs s')) l fs.
Proof.
  intros (Hn & _ & Hp & _) H Hl. apply flows_frame. intros m Hm. rewrite Hp. apply lookup_insert_ne. intros ->.
  assert (Hi : m_publish m ∈ refs s) by (apply Hl; by apply list_elem_of_fmap_2).
  apply (ok_dom _ H) in Hi. rewrite Hn in Hi. by destruct Hi.
Qed.

(** The flow of a message with a publication. *)
Definition as_flow (m : Messages) (b : Publications) : flow :=
  Flow (m_msgid m) (m_qos m) (m_retain m) (pb_topic b) (pb_topiclen b) (pb_payload b) (m_nextMessageType m).

Lemma represents_add_in s s' se m b :
  represents s se -> (forall m', m' ∈ inb s -> m_msgid m' <> m_msgid m) -> in_ok m ->
  out s' = out s -> inb s' = inb s ++ [m] -> items (pending s') = items (pending s) ->
  add_pub (m_publish m) b s s' -> passed s' = passed s ->
  represents s' (Session (se_out se) (se_in se ++ [as_flow m b]) (se_passed se)).
Proof.
  intros [H Ho Hi Hp] Hnew Hm Eo Ei Ep Ha Hps. pose proof Ha as (_ & _ & Hpub & _).
  split; cbn [se_out se_in se_passed]; [| | |congruence].
  - eapply (ok_add s s'); [done|done| |rewrite ?Eo, ?Ei..].
    + unfold refs. rewrite Eo, Ei, Ep, fmap_app. cbn [fmap list_fmap]. solve_Permutation.
    + apply H.
    + apply Forall_app. split; [apply H|by apply Forall_singleton].
    + apply H.
    + rewrite fmap_app. apply NoDup_app. split; [apply H|]. split; [|apply NoDup_singleton].
      intros q Hq Hq'. apply list_elem_of_fmap in Hq as (m' & -> & Hm'). apply (Hnew m' Hm').
      set_solver.
  - rewrite Eo. eapply flows_add; [done|done| |done]. intros q Hq. unfold refs. set_solver.
  - rewrite Ei. apply Forall2_app.
    + eapply flows_add; [done|done| |done]. intros q Hq. unfold refs. set_solver.
    + constructor; [|constructor]. exists b. by rewrite Hpub, lookup_insert_eq.
Qed.

Lemma represents_add_out s s' se m b :
  represents s se -> (forall m', m' ∈ out s -> m_msgid m' <> m_msgid m) -> out_ok m ->
  out s' = out s ++ [m] -> inb s' = inb s -> items (pending s') = items (pending s) ->
  add_pub (m_publish m) b s s' -> passed s' = passed s ->
  represents s' (Session (se_out se ++ [as_flow m b]) (se_in se) (se_passed se)).
Proof.
  intros [H Ho Hi Hp] Hnew Hm Eo Ei Ep Ha Hps. pose proof Ha as (_ & _ & Hpub & _).
  split; cbn [se_out se_in se_passed]; [| | |congruence].
  - eapply (ok_add s s'); [done|done| |rewrite ?Eo, ?Ei..].
    + unfold refs. rewrite Eo, Ei, Ep, fmap_app. cbn [fmap list_fmap]. solve_Permutation.
    + apply Forall_app. split; [apply H|by apply Forall_singleton].
    + apply H.
    + rewrite fmap_app. apply NoDup_app. split; [apply H|]. split; [|apply NoDup_singleton].
      intros q Hq Hq'. apply list_elem_of_fmap in Hq as (m' & -> & Hm'). apply (Hnew m' Hm').
      set_solver.
    + apply H.
  - rewrite Eo. apply Forall2_app.
    + eapply flows_add; [done|done| |done]. intros q Hq. unfold refs. set_solver.
    + constructor; [|constructor]. exists b. by rewrite Hpub, lookup_insert_eq.
  - rewrite Ei. eapply flows_add; [done|done| |done]. intros q Hq. unfold refs. set_solver.
Qed.

Lemma insert_perm (l : list Messages) i m m' :
  l !! i = Some m -> <[i := m']> l ≡ₚ m' :: delete i l.
Proof.
  intros Hi. pose proof (lookup_lt_Some _ _ _ Hi) as Hl. rewrite (insert_take_drop _ _ _ Hl), delete_take_drop.
  by rewrite Permutation_middle.
Qed.

Lemma NoDup_fmap_insert (l : list Messages) i m m' :
  l !! i = Some m -> m_msgid m' = m_msgid m -> NoDup (m_msgid <$> l) -> NoDup (m_msgid <$> <[i := m']> l).
Proof.
  intros Hi Hid Hn. rewrite list_fmap_insert, list_insert_id; [done|]. by rewrite list_lookup_fmap, Hi, Hid.
Qed.

Lemma represents_replace_in s s' se i m m' b :
  represents s se -> inb s !! i = Some m -> m_msgid m' = m_msgid m -> in_ok m' ->
  out s' = out s -> inb s' = <[i := m']> (inb s) -> items (pending s') = items (pending s) ->
  pubs s !! m_publish m' = None -> pub_ok b ->
  pubs s' = delete (m_publish m) (<[m_publish m' := b]> (pubs s)) ->
  m_publish m :: items (publications s') ≡ₚ m_publish m' :: items (publications s) -> passed s' = passed s ->
  represents s' (Session (se_out se) (<[i := as_flow m' b]> (se_in se)) (se_passed se)).
Proof.
  intros [H Ho Hi Hp] Hm Hid Hm' Eo Ei Ep Hn Hb Epub El Hps.
  set (r := (m_publish <$> out s) ++ (m_publish <$> delete i (inb s)) ++ ((fun e : Z * nat => e.2) <$> items (pending s))).
  assert (Hr : refs s ≡ₚ m_publish m :: r).
  { unfold refs, r. rewrite (fmap_delete_perm _ _ _ Hm). solve_Permutation. }
  assert (Hr' : refs s' ≡ₚ m_publish m' :: r).
  { unfold refs, r. rewrite Eo, Ei, Ep, (insert_perm _ _ _ m' Hm). cbn [fmap list_fmap]. solve_Permutation. }
  assert (Hni : m_publish m' ∉ refs s).
  { intros Hx. apply (ok_dom _ H) in Hx. rewrite Hn in Hx. by destruct Hx. }
  pose proof (ok_refs _ H) as Hnd. rewrite Hr in Hnd. apply NoDup_cons in Hnd as [Hmr Hnd].
  assert (Hne : m_publish m <> m_publish m').
  { intros E. apply Hni. rewrite Hr, E. by apply list_elem_of_here. }
  assert (Hflows : forall l fs, (forall q, q ∈ m_publish <$> l -> q ∈ r) -> Forall2 (flow_of (pubs s)) l fs ->
    Forall2 (flow_of (pubs s')) l fs).
  { intros l fs Hl. apply flows_frame. intros x Hx. assert (m_publish x ∈ r) by (apply Hl; by apply list_elem_of_fmap_2).
    assert (m_publish m <> m_publish x) by (intros E; by rewrite E in Hmr).
    assert (m_publish m' <> m_publish x) by (intros E; apply Hni; rewrite Hr, E; by apply list_elem_of_further).
    by rewrite Epub, lookup_delete_ne, lookup_insert_ne by done. }
  split; cbn [se_out se_in se_passed]; [split|..].
  - rewrite Eo. apply H.
  - rewrite Ei. apply Forall_insert; [apply H|done].
  - rewrite Eo. apply H.
  - rewrite Ei. eapply NoDup_fmap_insert; [done|done|apply H].
  - rewrite Hr'. apply NoDup_cons. split; [|done]. intros Hx. apply Hni. rewrite Hr. by apply list_elem_of_further.
  - apply (Permutation_cons_inv (a := m_publish m)). rewrite El, Hr', (ok_list _ H), Hr. apply perm_swap.
  - intros q. rewrite Epub, lookup_delete_is_Some, Hr', elem_of_cons, lookup_insert_is_Some, (ok_dom _ H), Hr, elem_of_cons.
    split; [intros [Hq [<-|[_ [->|Hq']]]]; by auto|].
    intros Hq. split; [intros E; destruct Hq as [Hq|Hq]; [congruence|by rewrite E in Hmr]|].
    destruct (decide (m_publish m' = q)); [by left|right]. destruct Hq; [congruence|auto].
  - rewrite Epub. apply map_Forall_delete, map_Forall_insert_2; [done|apply H].
  - rewrite Eo. apply Hflows; [|done]. unfold r. set_solver.
  - rewrite Ei. 
    assert (Hd : Forall2 (flow_of (pubs s')) (delete i (inb s)) (delete i (se_in se))).
    { apply Hflows; [unfold r; set_solver|by apply Forall2_delete_both]. }
    destruct (Forall2_lookup_l _ _ _ _ _ Hi Hm) as (f & Hf & _).
    pose proof (lookup_lt_Some _ _ _ Hm) as Hl1. pose proof (lookup_lt_Some _ _ _ Hf) as Hl2.
    rewrite (insert_take_drop _ _ _ Hl1), (insert_take_drop _ _ _ Hl2). rewrite !delete_take_drop in Hd.
    apply Forall2_app_inv in Hd as [Hd1 Hd2]; [|rewrite !length_take; apply Forall2_length in Hi; lia].
    apply Forall2_app; [done|]. constructor; [|done]. exists b.
    rewrite Epub, lookup_delete_ne, lookup_insert_eq by done. done.
  - congruence.
Qed.

Lemma represents_stage_out s s' se i m m' b :
  represents s se -> out s !! i = Some m -> m_msgid m' = m_msgid m -> m_publish m' = m_publish m -> out_ok m' ->
  out s' = <[i := m']> (out s) -> inb s' = inb s -> items (pending s') = items (pending s) ->
  pubs s' = pubs s -> items (publications s') = items (publications s) -> passed s' = passed s ->
  pubs s !! m_publish m = Some b ->
  represents s' (Session (<[i := as_flow m' b]> (se_out se)) (se_in se) (se_passed se)).
Proof.
  intros [H Ho Hi Hp] Hm Hid Hpm Hm' Eo Ei Ep Epub El Hps Hb.
  assert (Hr : refs s' = refs s).
  { unfold refs. rewrite Eo, Ei, Ep, list_fmap_insert, list_insert_id; [done|]. by rewrite list_lookup_fmap, Hm, Hpm. }
  split; cbn [se_out se_in se_passed]; [split|..]; rewrite ?Hr, ?Epub, ?El, ?Ei; try apply H; try done.
  - rewrite Eo. apply Forall_insert; [apply H|done].
  - rewrite Eo. eapply NoDup_fmap_insert; [done|done|apply H].
  - rewrite Eo. apply Forall2_insert; [done|]. exists b. by rewrite Hpm.
  - congruence.
Qed.

(** ** The steps of the handlers *)

Lemma pbind_eq {A B} (m : M A) (k : A -> M B) s a s1 : m s = Ret (a, s1) -> pbind m k s = k a s1.
Proof. intros H. unfold pbind. by rewrite H. Qed.

Lemma load_pub_run p b s : pubs s !! p = Some b -> load_pub p s = Ret (b, s).
Proof. intros H. unfold load_pub, pbind, pget, plift. cbn. by rewrite H. Qed.

(** Everything but the network and the times is the same; [resp] was handed to the socket. *)
Definition sent (s s' : mqtt) (resp : list (Z * list (list Z))) : Prop :=
  inboundMsgs (client s') = inboundMsgs (client s) /\ outboundMsgs (client s') = outboundMsgs (client s) /\
  messageQueue (client s') = messageQueue (client s) /\ socket (client s') = socket (client s) /\
  connected (client s') = connected (client s) /\
  pending s' = pending s /\ pubs s' = pubs s /\ publications s' = publications s /\ arrived s' = arrived s /\
  nt s' = foldl (put (socket (client s))) (nt s) resp.

Lemma sent_session s s' resp : sent s s' resp -> same_session s s'.
Proof.
  intros (E1 & E2 & E3 & _ & _ & E4 & E5 & E6 & E7 & _). unfold same_session, passed.
  by rewrite E1, E2, E3, E4, E5, E6, E7.
Qed.

Lemma send_run p s :
  exists rc s', send (Ret p) s = Ret (rc, s') /\ sent s s' [p].
Proof.
  destruct p as [h b]. unfold send, plift, pbind, pget, pmod, time, pclient, pret. cbn.
  unfold sent, put. cbn. destruct (Socket_putdatas (socket (client s)) (MQTTPacket_sends h b) (nt s)) as [rc n].
  destruct (rc =? TCPSOCKET_COMPLETE); cbn; eexists _, _; (split; [reflexivity|]); by split_and!.
Qed.

Lemma ack_eq type id : 0 <= id < 65536 -> MQTTPacket_send_ack type id 0 = Ret (ack_packet type id).
Proof. intros H. unfold MQTTPacket_send_ack. by rewrite int_buf_eq. Qed.

(** A PUBLISH packet as the reader makes it. *)
Definition pack_ok (p : Publish) : Prop :=
  0 <= p_payloadlen p <= Z.of_nat (length (p_payload p)) /\ 0 <= p_msgId p < 65536.

#[export] Instance pack_ok_dec p : Decision (pack_ok p).
Proof. unfold pack_ok. apply _. Defined.

Lemma copy_run p : pack_ok p -> copy_payload p = Ret (take (Z.to_nat (p_payloadlen p)) (p_payload p)).
Proof.
  intros [H _]. unfold copy_payload, read_bytes. destruct (Z.ltb_spec (p_payloadlen p) 0); [lia|].
  rewrite bool_decide_eq_true_2 by lia. by rewrite drop_0.
Qed.

(** The publication of a packet. *)
Definition pub_of (p : Publish) : Publications :=
  Pub (p_topic p) (p_topiclen p) (take (Z.to_nat (p_payloadlen p)) (p_payload p)) (p_payloadlen p) 1.

Lemma store_run publish s :
  pack_ok publish ->
  exists p s1, MQTTProtocol_storePublication publish s = Ret (p, s1) /\ add_pub p (pub_of publish) s s1 /\
    s1 = set_pubs (pubs s1) (publications s1) s.
Proof.
  intros H. unfold MQTTProtocol_storePublication, plift, pbind, pget, pmod, pret. rewrite copy_run by done. cbn.
  eexists _, _. split; [reflexivity|]. cbn. split; [|done]. split; [apply not_elem_of_dom, is_fresh|].
  split; [|split; [done|]].
  - destruct H as [H _]. split; [done|]. cbn. rewrite length_take. lia.
  - cbn. by rewrite Permutation_app_comm.
Qed.

Lemma unlist_run p s :
  p ∈ items (publications s) ->
  exists l, unlist_pub p s = Ret (tt, set_pubs (delete p (pubs s)) l s) /\ p :: items l ≡ₚ items (publications s).
Proof.
  intros Hp. unfold unlist_pub, pbind, pget, pmod. cbn. unfold c_unlink.
  destruct (c_find_by (fun x => bool_decide (x = p)) (publications s)) as [(i & x & -> & Hi & Hx)|[_ Hn]].
  - apply bool_decide_eq_true in Hx as ->. eexists. split; [reflexivity|]. cbn [items].
    by rewrite <- (delete_Permutation _ _ _ Hi).
  - specialize (Hn p Hp). by apply bool_decide_eq_false in Hn.
Qed.

Lemma remove_run p b s :
  pubs s !! p = Some b -> refcount b = 1 -> p ∈ items (publications s) ->
  exists l, MQTTProtocol_removePublication p s = Ret (tt, set_pubs (delete p (pubs s)) l s) /\
    p :: items l ≡ₚ items (publications s).
Proof.
  intros Hb Hr Hp. unfold MQTTProtocol_removePublication. rewrite (pbind_eq _ _ _ _ _ (load_pub_run p b s Hb)).
  rewrite (pbind_eq pget _ s s s) by done. rewrite Hr.
  set (s1 := set_pubs (<[p := Pub (pb_topic b) (pb_topiclen b) (pb_payload b) (pb_payloadlen b) 0]> (pubs s))
    (publications s) s).
  rewrite (pbind_eq (pmod _) _ s tt s1) by done. change (1 - 1 =? 0) with true. cbn iota.
  destruct (unlist_run p s1 Hp) as (l & -> & Hl). exists l. split; [|done]. subst s1. cbn. by rewrite delete_insert_eq.
Qed.

Lemma find_out_run id s :
  exists r l, find_outbound id s = Ret (r, upd_client (set_outbound l) s) /\ items l = out s /\
    match r with
    | Some (i, m) => out s !! i = Some m /\ m_msgid m = id /\ cursor l = Some i
    | None => forall m, m ∈ out s -> m_msgid m <> id
    end.
Proof.
  unfold find_outbound, the_client, pclient, pbind, pget, pmod, pret. cbn.
  destruct (c_find_by (by_msgid id) (outboundMsgs (client s))) as [(i & m & -> & Hi & Hs)|[-> Hn]]; cbn.
  - rewrite Hi. eexists _, _. split; [reflexivity|]. split; [done|]. split; [done|].
    split; [|done]. by apply Z.eqb_eq.
  - eexists None, _. split; [reflexivity|]. split; [done|]. intros m Hm. apply Z.eqb_neq. by apply Hn.
Qed.

Lemma find_in_run id s :
  exists r l, find_inbound id s = Ret (r, upd_client (set_inbound l) s) /\ items l = inb s /\
    match r with
    | Some (i, m) => inb s !! i = Some m /\ m_msgid m = id /\ cursor l = Some i
    | None => forall m, m ∈ inb s -> m_msgid m <> id
    end.
Proof.
  unfold find_inbound, the_client, pclient, pbind, pget, pmod, pret. cbn.
  destruct (c_find_by (by_msgid id) (inboundMsgs (client s))) as [(i & m & -> & Hi & Hs)|[-> Hn]]; cbn.
  - rewrite Hi. eexists _, _. split; [reflexivity|]. split; [done|]. split; [done|].
    split; [|done]. by apply Z.eqb_eq.
  - eexists None, _. split; [reflexivity|]. split; [done|]. intros m Hm. apply Z.eqb_neq. by apply Hn.
Qed.

(** Everything but the messages passed on is the same. *)
Definition passes (s s' : mqtt) (am : app_message) : Prop :=
  inboundMsgs (client s') = inboundMsgs (client s) /\ outboundMsgs (client s') = outboundMsgs (client s) /\
  socket (client s') = socket (client s) /\ connected (client s') = connected (client s) /\
  pending s' = pending s /\ pubs s' = pubs s /\
  publications s' = publications s /\ nt s' = nt s /\ passed s' = passed s ++ [am].

Lemma process_run publish s :
  pack_ok publish ->
  exists s', Protocol_processPublication publish s = Ret (tt, s') /\ passes s s' (message_of publish).
Proof.
  intros H. unfold Protocol_processPublication, MQTTAsync_deliverMessage, the_client, plift, pclient, pbind, pget, pmod, pret.
  rewrite copy_run by done. cbn. destruct (bool_decide (messageQueue (client s) = []) && connected (client s)) eqn:E.
  - apply andb_true_iff in E as [E _]. apply bool_decide_eq_true in E.
    destruct (ma_results s) as [|[] rest]; cbn; (eexists; split; [reflexivity|]); split_and!; try done;
      unfold passed; cbn; rewrite E, filter_app, fmap_app; cbn; by rewrite ?app_nil_r.
  - eexists. split; [reflexivity|]. split_and!; try done. unfold passed. cbn. by rewrite app_assoc.
Qed.

(** ** The handlers implement the session *)

(** The call does what the abstract step says, on the client of the socket. *)
Definition implements (m : M Z) (sock : Z) (s : mqtt) (r : session * list (Z * list (list Z))) : Prop :=
  exists rc s', m s = Ret (rc, s') /\ represents s' r.1 /\ nt s' = foldl (put sock) (nt s) r.2 /\
    socket (client s') = sock.

Lemma client_of_run s sock : socket (client s) = sock -> client_of sock s = Ret (client s, s).
Proof. intros <-. unfold client_of, the_client, pbind, pget, pret. cbn. by rewrite Z.eqb_refl. Qed.

Lemma implements_skip s se sock : represents s se -> socket (client s) = sock -> implements (pret 0) sock s (se, []).
Proof. intros Hr Hs. by exists 0, s. Qed.

Lemma same_cursor s l :
  items l = out s -> same_session s (upd_client (set_outbound l) s).
Proof. intros H. by split_and!. Qed.

Lemma same_cursor_in s l :
  items l = inb s -> same_session s (upd_client (set_inbound l) s).
Proof. intros H. by split_and!. Qed.

Lemma passes_represents s s' se am :
  represents s se -> passes s s' am -> represents s' (Session (se_out se) (se_in se) (se_passed se ++ [am])).
Proof.
  intros [[] Ho Hi Hp] (E1 & E2 & _ & _ & E3 & E4 & E5 & _ & E6).
  split; [split|..]; unfold refs in *; cbn [se_out se_in se_passed]; rewrite ?E1, ?E2, ?E3, ?E4, ?E5, ?E6, ?Hp; done.
Qed.

(** A publication in use. *)
Lemma in_use s m : proto_ok s -> m_publish m ∈ refs s ->
  exists b, pubs s !! m_publish m = Some b /\ refcount b = 1 /\ pb_payloadlen b = Z.of_nat (length (pb_payload b)) /\
    m_publish m ∈ items (publications s).
Proof.
  intros H Hm. pose proof Hm as [b Hb]%(ok_dom _ H). exists b. split; [done|].
  destruct (ok_pubs _ H _ _ Hb) as [? ?]. split; [done|]. split; [done|]. by rewrite (ok_list _ H).
Qed.

Lemma out_refs s i m : out s !! i = Some m -> m_publish m ∈ refs s.
Proof. intros H. unfold refs. apply elem_of_app. left. by eapply list_elem_of_fmap_2, list_elem_of_lookup_2. Qed.

Lemma in_refs s i m : inb s !! i = Some m -> m_publish m ∈ refs s.
Proof.
  intros H. unfold refs. rewrite !elem_of_app. right. left. by eapply list_elem_of_fmap_2, list_elem_of_lookup_2.
Qed.

(** A message found in a list [l] of the client: its position, its publication and its flow. *)
Definition found_in (s : mqtt) (l : clist (A:=Messages)) (fs : list flow) (id : Z) (r : option (nat * Messages)) : Prop :=
  match r with
  | None => flow_at id fs = None /\ forall m, m ∈ items l -> m_msgid m <> id
  | Some (i, m) =>
      exists b, items l !! i = Some m /\ cursor l = Some i /\ m_msgid m = id /\ pubs s !! m_publish m = Some b /\
        refcount b = 1 /\ pb_payloadlen b = Z.of_nat (length (pb_payload b)) /\
        m_publish m ∈ items (publications s) /\ flow_at id fs = Some (i, as_flow m b)
  end.

(** Nothing but the cursors has changed. *)
Definition same_but_cursors (s s1 : mqtt) : Prop :=
  same_session s s1 /\ nt s1 = nt s /\ socket (client s1) = socket (client s).

Lemma find_out_flow id s se :
  represents s se ->
  exists r s1, find_outbound id s = Ret (r, s1) /\ represents s1 se /\ same_but_cursors s s1 /\
    found_in s1 (outboundMsgs (client s1)) (se_out se) id r.
Proof.
  intros Hr. destruct (find_out_run id s) as (r & l & E & Hl & Hf). exists r. eexists. split; [exact E|].
  pose proof (same_cursor s l Hl) as Hs. split; [by eapply represents_frame|]. split; [done|]. cbn.
  destruct r as [[i m]|]; cbn.
  - destruct Hf as (Hi & Hid & Hc).
    destruct (flow_at_Some _ _ _ i m (re_out _ _ Hr) (ok_out_ids _ (re_ok _ _ Hr)) Hi) as (f & Hat & _ & (b & Hb & ->)).
    destruct (in_use s m (re_ok _ _ Hr) (out_refs _ _ _ Hi)) as (b' & Hb' & ? & ? & ?).
    assert (b' = b) as -> by congruence. exists b. rewrite Hl. subst id. split_and!; done.
  - rewrite Hl. split; [|done]. by apply (flow_at_None _ _ _ _ (re_out _ _ Hr)).
Qed.

Lemma find_in_flow id s se :
  represents s se ->
  exists r s1, find_inbound id s = Ret (r, s1) /\ represents s1 se /\ same_but_cursors s s1 /\
    found_in s1 (inboundMsgs (client s1)) (se_in se) id r.
Proof.
  intros Hr. destruct (find_in_run id s) as (r & l & E & Hl & Hf). exists r. eexists. split; [exact E|].
  pose proof (same_cursor_in s l Hl) as Hs. split; [by eapply represents_frame|]. split; [done|]. cbn.
  destruct r as [[i m]|]; cbn.
  - destruct Hf as (Hi & Hid & Hc).
    destruct (flow_at_Some _ _ _ i m (re_in _ _ Hr) (ok_in_ids _ (re_ok _ _ Hr)) Hi) as (f & Hat & _ & (b & Hb & ->)).
    destruct (in_use s m (re_ok _ _ Hr) (in_refs _ _ _ Hi)) as (b' & Hb' & ? & ? & ?).
    assert (b' = b) as -> by congruence. exists b. rewrite Hl. subst id. split_and!; done.
  - rewrite Hl. split; [|done]. by apply (flow_at_None _ _ _ _ (re_in _ _ Hr)).
Qed.

(** Ending a flow to the server. *)
Definition end_outbound (m : Messages) : M unit :=
  MQTTProtocol_removePublication (m_publish m) >>;
  pclient (fun c => set_outbound (remove_message m (outboundMsgs c)) c).

Lemma end_outbound_run s se id i m :
  represents s se -> found_in s (outboundMsgs (client s)) (se_out se) id (Some (i, m)) ->
  exists s', end_outbound m s = Ret (tt, s') /\
    represents s' (Session (delete i (se_out se)) (se_in se) (se_passed se)) /\ nt s' = nt s /\
    socket (client s') = socket (client s).
Proof.
  intros Hr (b & Hi & Hc & _ & Hb & Hrc & _ & Hin & _). unfold end_outbound.
  destruct (remove_run _ _ _ Hb Hrc Hin) as (l' & E & Hl'). rewrite (pbind_eq _ _ _ _ _ E).
  eexists. split; [reflexivity|]. split; [|done].
  apply (represents_drop_out s _ se i m); try done. cbn. by rewrite (remove_at m i).
Qed.

(** The call did nothing more. *)
Lemma skip_run s s1 se sock :
  represents s1 se -> same_but_cursors s s1 -> socket (client s) = sock ->
  exists rc s', pret TCPSOCKET_COMPLETE s1 = Ret (rc, s') /\ represents s' se /\ nt s' = nt s /\
    socket (client s') = sock.
Proof. intros Hr (_ & Hn & Hs) Hsock. exists 0, s1. split_and!; try done. congruence. Qed.

Lemma handlePubacks_spec a s se sock :
  represents s se -> socket (client s) = sock ->
  implements (MQTTProtocol_handlePubacks a sock) sock s (se_puback (a_msgId a) se).
Proof.
  intros Hr Hs. unfold implements, MQTTProtocol_handlePubacks. rewrite (pbind_eq _ _ _ _ _ (client_of_run s sock Hs)).
  destruct (find_out_flow (a_msgId a) s se Hr) as (r & s1 & E & Hr1 & Hsame & Hf). rewrite (pbind_eq _ _ _ _ _ E).
  unfold se_puback. destruct r as [[i m]|]; [pose proof Hf as (b & Hi & _ & _ & _ & _ & _ & _ & Hat)|pose proof Hf as [Hat _]];
    rewrite Hat; [|by apply (skip_run s)]. cbn [as_flow f_qos].
  destruct (Z.eqb_spec (m_qos m) 1) as [Hq|Hq]; cbn [negb]; [|by apply (skip_run s)].
  destruct (end_outbound_run s1 se _ i m Hr1 Hf) as (s2 & E2 & Hr2 & Hn2 & Hs2). destruct Hsame as (_ & Hn & Hk).
  exists 0, s2. split; [|split; [done|split; cbn; congruence]].
  unfold end_outbound, pbind in E2 |- *. destruct (MQTTProtocol_removePublication _ _) as [[[] s3]| | |]; [|done..].
  cbn [obind] in E2 |- *. by rewrite E2.
Qed.

Lemma out_stage s i m :
  proto_ok s -> out s !! i = Some m -> m_qos m = 2 ->
  exists t, m_nextMessageType m = Some t /\ (t = PUBREC \/ t = PUBCOMP).
Proof.
  intros H Hi Hq. pose proof (Forall_lookup_1 _ _ _ _ (ok_out _ H) Hi) as (_ & _ & [Hq1|[_ [Ht|Ht]]]); [lia|eauto..].
Qed.

Lemma handlePubcomps_spec a s se sock :
  represents s se -> socket (client s) = sock ->
  implements (MQTTProtocol_handlePubcomps a sock) sock s (se_pubcomp (a_msgId a) se).
Proof.
  intros Hr Hs. unfold implements, MQTTProtocol_handlePubcomps. rewrite (pbind_eq _ _ _ _ _ (client_of_run s sock Hs)).
  destruct (find_out_flow (a_msgId a) s se Hr) as (r & s1 & E & Hr1 & Hsame & Hf). rewrite (pbind_eq _ _ _ _ _ E).
  unfold se_pubcomp. destruct r as [[i m]|]; [pose proof Hf as (b & Hi & _ & _ & _ & _ & _ & _ & Hat)|pose proof Hf as [Hat _]];
    rewrite Hat; [|by apply (skip_run s)]. cbn [as_flow f_qos f_stage].
  destruct (Z.eqb_spec (m_qos m) 2) as [Hq|Hq]; cbn [negb].
  2: { rewrite bool_decide_eq_false_2 by tauto. by apply (skip_run s). }
  destruct (out_stage _ _ _ (re_ok _ _ Hr1) Hi Hq) as (t & Et & _). rewrite Et.
  rewrite (pbind_eq (plift (deref (Some t))) _ s1 t s1) by done.
  destruct (Z.eqb_spec t PUBCOMP) as [->|Ht]; cbn [negb].
  2: { rewrite bool_decide_eq_false_2 by (intros [_ [= ->]]; done). by apply (skip_run s). }
  rewrite bool_decide_eq_true_2 by done.
  destruct (end_outbound_run s1 se _ i m Hr1 Hf) as (s2 & E2 & Hr2 & Hn2 & Hs2). destruct Hsame as (_ & Hn & Hk).
  exists 0, (set_counts (msgs_received s2) ((msgs_sent s2 + 1) mod 2 ^ 32) s2).
  split; [|split; [by apply (represents_frame s2)|split; cbn; congruence]].
  unfold end_outbound, pbind in E2 |- *. destruct (MQTTProtocol_removePublication _ _) as [[[] s3]| | |]; [|done..].
  cbn [obind] in E2 |- *. by rewrite E2.
Qed.

Lemma handlePubrecs_spec a s se sock :
  represents s se -> socket (client s) = sock -> 0 <= a_msgId a < 65536 ->
  implements (MQTTProtocol_handlePubrecs a sock) sock s (se_pubrec (a_msgId a) se).
Proof.
  intros Hr Hs Hid0. unfold implements, MQTTProtocol_handlePubrecs. rewrite (pbind_eq _ _ _ _ _ (client_of_run s sock Hs)).
  set (s0 := upd_client (fun c => set_outbound (CList (items (outboundMsgs c)) None (released (outboundMsgs c))) c) s).
  rewrite (pbind_eq (pclient _) _ s tt s0) by done.
  assert (Hr0 : represents s0 se) by (apply (represents_frame s); [done|by split_and!]).
  destruct (find_out_flow (a_msgId a) s0 se Hr0) as (r & s1 & E & Hr1 & Hsame & Hf). rewrite (pbind_eq _ _ _ _ _ E).
  unfold se_pubrec. destruct r as [[i m]|]; [pose proof Hf as (b & Hi & _ & Hid & Hb & _ & _ & _ & Hat)|pose proof Hf as [Hat _]];
    rewrite Hat; [|by apply (skip_run s0)]. cbn [as_flow f_qos f_stage f_retain f_topic f_topiclen f_payload].
  destruct (Z.eqb_spec (m_qos m) 2) as [Hq|Hq]; cbn [negb].
  2: { rewrite bool_decide_eq_false_2 by tauto. by apply (skip_run s0). }
  destruct (out_stage _ _ _ (re_ok _ _ Hr1) Hi Hq) as (t & Et & _). rewrite Et.
  rewrite (pbind_eq (plift (deref (Some t))) _ s1 t s1) by done.
  destruct (Z.eqb_spec t PUBREC) as [->|Ht]; cbn [negb].
  2: { rewrite bool_decide_eq_false_2 by (intros [_ [= ->]]; done). by apply (skip_run s0). }
  rewrite bool_decide_eq_true_2 by done. unfold MQTTPacket_send_pubrel. rewrite (ack_eq PUBREL _ Hid0).
  destruct (send_run (ack_packet PUBREL (a_msgId a)) s1) as (rc & s2 & E2 & Hsent). rewrite (pbind_eq _ _ _ _ _ E2).
  pose proof (represents_frame s1 s2 se Hr1 (sent_session _ _ _ Hsent)) as Hr2.
  destruct Hsent as (_ & F2 & _ & F4 & _ & _ & F6 & _ & _ & F9). destruct Hsame as (_ & Hn & Hk).
  unfold time, pclient, pbind, pmod, pget, pret. cbn [obind]. eexists _, _. split; [reflexivity|].
  split; [|split; [cbn; rewrite F9; cbn; rewrite Hn, Hk; cbn; by rewrite Hs|cbn; rewrite F4, Hk; done]]. cbn [fst].
  assert (Hi2 : out s2 !! i = Some m) by by rewrite F2.
  pose proof (Forall_lookup_1 _ _ _ _ (ok_out _ (re_ok _ _ Hr2)) Hi2) as (_ & Hidr & _). rewrite <- Hq, <- Hid.
  apply (represents_stage_out s2 _ se i m
    (Message (m_qos m) (m_retain m) (m_msgid m) (m_publish m) (Some (clock s2 / 1000)) (Some PUBCOMP)) b); try done.
  - split; [done|]. split; [done|]. right. by split; [|right].
  - cbn. by rewrite F6.
Qed.

Lemma in_stage s i m :
  proto_ok s -> inb s !! i = Some m -> in_ok m.
Proof. intros H Hi. apply (Forall_lookup_1 _ _ _ _ (ok_in _ H) Hi). Qed.

Lemma handlePubrels_spec a s se sock :
  represents s se -> socket (client s) = sock -> 0 <= a_msgId a < 65536 ->
  implements (MQTTProtocol_handlePubrels a sock) sock s (se_pubrel (hd_dup (a_header a)) (a_msgId a) se).
Proof.
  intros Hr Hs Hid0. unfold implements, MQTTProtocol_handlePubrels. rewrite (pbind_eq _ _ _ _ _ (client_of_run s sock Hs)).
  destruct (find_in_flow (a_msgId a) s se Hr) as (r & s1 & E & Hr1 & Hsame & Hf). rewrite (pbind_eq _ _ _ _ _ E).
  unfold se_pubrel, MQTTPacket_send_pubcomp. rewrite (ack_eq PUBCOMP _ Hid0).
  destruct (send_run (ack_packet PUBCOMP (a_msgId a)) s1) as (rc & s2 & E2 & Hsent).
  pose proof (represents_frame s1 s2 se Hr1 (sent_session _ _ _ Hsent)) as Hr2.
  destruct Hsent as (F1 & F2 & F3 & F4 & F5 & F6 & F7 & F8 & F9 & F10). pose proof Hsame as (_ & Hn & Hk).
  rewrite Hn, Hk, Hs in F10. rewrite Hk, Hs in F4.
  destruct r as [[i m]|]; [pose proof Hf as (b & Hi & Hc & Hid & Hb & _ & Hpl & Hin & Hat)|pose proof Hf as [Hat _]];
    rewrite Hat.
  2: { destruct (hd_dup (a_header a) =? 0); [by apply (skip_run s)|]. exists rc, s2. by split_and!. }
  destruct (in_stage _ _ _ (re_ok _ _ Hr1) Hi) as (Hidr & Hret & Hq & Hst). rewrite Hq, Hst.
  change (2 =? 2) with true. cbn [negb]. rewrite (pbind_eq (plift (deref (Some PUBREL))) _ s1 PUBREL s1) by done.
  change (PUBREL =? PUBREL) with true. cbn [negb]. rewrite (pbind_eq _ _ _ _ _ E2).
  rewrite (pbind_eq _ _ _ _ _ (load_pub_run (m_publish m) b s2 ltac:(by rewrite F7))).
  set (q := MkPublish (Header 0 0 2 (m_retain m)) (pb_topic b) (pb_topiclen b) (m_msgid m) (pb_payload b) (pb_payloadlen b)).
  destruct (Header_bits 0 0 2 (m_retain m)) as (_ & _ & _ & B1 & B2); [lia..|].
  destruct (process_run q s2) as (s3 & E3 & Hpass); [split; cbn; lia|]. rewrite (pbind_eq _ _ _ _ _ E3).
  assert (Hmq : message_of q = flow_message (as_flow m b)).
  { unfold message_of, flow_message, q. cbn. rewrite B1, B2, Hpl, Nat2Z.id, firstn_all. cbn. by rewrite Hq. }
  rewrite Hmq in Hpass. destruct Hpass as (G1 & G2 & G3 & G4 & G5 & G6 & G7 & G8 & G9).
  destruct (unlist_run (m_publish m) s3) as (l & E4 & Hl); [by rewrite G7, F8|]. rewrite (pbind_eq _ _ _ _ _ E4).
  unfold pclient, pbind, pmod, pget, pret. cbn [obind]. eexists _, _. split; [reflexivity|]. cbn [fst snd].
  split; [|split; [cbn; by rewrite G8, F10|cbn; by rewrite G3]].
  apply (represents_drop_in s2 _ se i m); try done; cbn; rewrite ?G2, ?G5, ?G6, ?G7; try done.
  - by rewrite F1.
  - rewrite G1, F1. by apply (remove_at m i).
  - split; cbn; [done|by rewrite Hl, G7].
Qed.

Lemma represents_session_eta se : Session (se_out se) (se_in se) (se_passed se) = se.
Proof. by destruct se. Qed.

(** The case of QoS 2: the publication replaces one with the same identifier, or is new. *)
Definition keep_inbound (qos : Z) (publish : Publish) : M unit :=
  let* p := MQTTProtocol_storePublication publish in
  let m := Message qos (hd_retain (p_header publish)) (p_msgId publish) p None (Some PUBREL) in
  let* found := find_inbound (m_msgid m) in
  match found with
  | Some (i, msg) =>
      MQTTProtocol_removePublication (m_publish msg) >>;
      pclient (fun c => set_inbound (remove_message msg (c_insert m i (inboundMsgs c))) c)
  | None => pclient (fun c => set_inbound (c_append m (inboundMsgs c)) c)
  end.

Lemma hd_retain_bit h : 0 <= hd_retain h < 2.
Proof.
  unfold hd_retain. change 1 with (Z.ones 1). rewrite Z.land_ones by lia. apply Z.mod_pos_bound. lia.
Qed.

Lemma keep_inbound_run publish s se :
  represents s se -> pack_ok publish ->
  exists s', keep_inbound 2 publish s = Ret (tt, s') /\ nt s' = nt s /\ socket (client s') = socket (client s) /\
    represents s' (Session (se_out se)
      (let f := Flow (p_msgId publish) 2 (hd_retain (p_header publish)) (p_topic publish) (p_topiclen publish)
         (take (Z.to_nat (p_payloadlen publish)) (p_payload publish)) (Some PUBREL) in
       match flow_at (p_msgId publish) (se_in se) with Some (i, _) => <[i := f]> (se_in se) | None => se_in se ++ [f] end)
      (se_passed se)).
Proof.
  intros Hr Hok. unfold keep_inbound. destruct (store_run publish s Hok) as (p & s1 & E & Ha & Es1).
  rewrite (pbind_eq _ _ _ _ _ E). set (m := Message 2 _ _ p None _).
  assert (Hm : in_ok m).
  { destruct Hok as [_ ?]. split; [done|]. split; [apply hd_retain_bit|done]. }
  destruct (find_in_run (m_msgid m) s1) as (r & l & E2 & Hl & Hf). rewrite (pbind_eq _ _ _ _ _ E2).
  assert (Hinb : inb s1 = inb s) by by rewrite Es1. assert (Hout : out s1 = out s) by by rewrite Es1.
  rewrite Hinb in Hl, Hf. destruct Ha as (Hnone & Hpok & Hpubs & Hlist).
  assert (Hkeep : nt s1 = nt s /\ socket (client s1) = socket (client s) /\ pending s1 = pending s /\ passed s1 = passed s).
  { by rewrite Es1. }
  destruct Hkeep as (K1 & K2 & K3 & K4). destruct r as [[i m0]|].
  - destruct Hf as (Hi & Hid & Hc).
    destruct (flow_at_Some _ _ _ i m0 (re_in _ _ Hr) (ok_in_ids _ (re_ok _ _ Hr)) Hi) as (f & Hat & _ & _).
    rewrite Hid in Hat. cbn [m_msgid m] in Hat. rewrite Hat.
    destruct (in_use s m0 (re_ok _ _ Hr) (in_refs _ _ _ Hi)) as (b & Hb & Hrc & _ & Hin).
    assert (Hne : p <> m_publish m0) by (intros ->; congruence).
    destruct (remove_run (m_publish m0) b (upd_client (set_inbound l) s1)) as (l' & E3 & Hl').
    { cbn. by rewrite Hpubs, lookup_insert_ne. } { done. } { cbn. rewrite Hlist. by apply list_elem_of_further. }
    rewrite (pbind_eq _ _ _ _ _ E3). eexists. split; [reflexivity|]. cbn. split; [done|]. split; [done|].
    apply (represents_replace_in s _ se i m0 m (pub_of publish)); try done; cbn.
    + rewrite <- Hl. apply (replace_at m0); [done|by rewrite Hl].
    + by rewrite K3.
    + by rewrite Hpubs.
    + by rewrite Hl', <- Hlist.
  - rewrite (flow_at_None _ _ _ (p_msgId publish) (re_in _ _ Hr) Hf).
    eexists. split; [reflexivity|]. cbn. split; [done|]. split; [done|].
    apply (represents_add_in s _ se m (pub_of publish)); try done; cbn.
    + by rewrite Hl.
    + by rewrite K3.
Qed.

Lemma handlePublishes_spec p s se sock :
  represents s se -> socket (client s) = sock -> pack_ok p ->
  implements (MQTTProtocol_handlePublishes p sock) sock s (se_publish p se).
Proof.
  intros Hr Hs Hok. unfold implements, MQTTProtocol_handlePublishes. rewrite (pbind_eq _ _ _ _ _ (client_of_run s sock Hs)).
  unfold se_publish. set (qos := hd_qos (p_header p)). destruct (Z.eqb_spec qos 0) as [Hq|_].
  { destruct (process_run p s Hok) as (s1 & E & Hp). rewrite (pbind_eq _ _ _ _ _ E).
    exists 0, s1. split; [done|]. cbn. pose proof Hp as (_ & _ & Hk & _ & _ & _ & _ & Hn & _).
    split; [by apply (passes_represents s)|]. split; congruence. }
  destruct Hok as [Hpl Hid] eqn:Eok. clear Eok. destruct (Z.eqb_spec qos 1) as [Hq|_].
  { unfold MQTTPacket_send_puback. rewrite (ack_eq PUBACK _ Hid).
    destruct (send_run (ack_packet PUBACK (p_msgId p)) s) as (rc & s1 & E & Hsent). rewrite (pbind_eq _ _ _ _ _ E).
    pose proof (represents_frame s s1 se Hr (sent_session _ _ _ Hsent)) as Hr1.
    destruct Hsent as (_ & _ & _ & F4 & _ & _ & _ & _ & _ & F10).
    destruct (process_run p s1 Hok) as (s2 & E2 & Hp). rewrite (pbind_eq _ _ _ _ _ E2).
    exists rc, s2. split; [done|]. cbn. pose proof Hp as (_ & _ & Hk & _ & _ & _ & _ & Hn & _).
    split; [by apply (passes_represents s1)|]. rewrite Hn, Hk, F10, F4, Hs. done. }
  destruct (Z.eqb_spec qos 2) as [Hq|_].
  2: { exists 0, s. by split_and!. }
  destruct (keep_inbound_run p s se Hr Hok) as (s1 & E & Hn1 & Hk1 & Hr1).
  unfold MQTTPacket_send_pubrec. rewrite (ack_eq PUBREC _ Hid), Hq.
  destruct (send_run (ack_packet PUBREC (p_msgId p)) s1) as (rc & s2 & E2 & Hsent).
  exists rc, s2. split.
  - unfold keep_inbound, pbind in E |- *. destruct (MQTTProtocol_storePublication p s) as [[q s3]| | |]; [|done..].
    cbn [obind] in E |- *. destruct (find_inbound _ s3) as [[r s4]| | |]; [|done..]. cbn [obind] in E |- *.
    by rewrite E.
  - destruct Hsent as (G1 & G2 & G3 & G4 & G5 & G6 & G7 & G8 & G9 & G10).
    split; [|cbn; rewrite G10, Hn1, Hk1, G4, Hk1, Hs; done]. cbn [fst].
    apply (represents_frame s1); [done|]. unfold same_session, passed. by rewrite G1, G2, G3, G6, G7, G8, G9.
Qed.

(** ** Sequences of packets *)

(** A packet as the reader makes it. *)
Definition pk_ok (p : packet) : Prop :=
  match p with
  | PkPublish q => pack_ok q
  | PkAck a => 0 <= a_msgId a < 65536
  | _ => True
  end.

Fixpoint handle_all (ps : list packet) (sock : Z) : M (list Z) :=
  match ps with
  | [] => pret []
  | p :: ps' => let* rc := handle p sock in let* rcs := handle_all ps' sock in pret (rc :: rcs)
  end.

Fixpoint se_run (ps : list packet) (se : session) : session * list (Z * list (list Z)) :=
  match ps with
  | [] => (se, [])
  | p :: ps' => let (se1, r1) := se_step p se in let (se2, r2) := se_run ps' se1 in (se2, r1 ++ r2)
  end.

Lemma handle_spec p s se sock :
  represents s se -> socket (client s) = sock -> pk_ok p -> implements (handle p sock) sock s (se_step p se).
Proof.
  intros Hr Hs Hok. destruct p as [q|a|c|sb|h]; cbn [handle se_step].
  - by apply handlePublishes_spec.
  - destruct (_ =? PUBACK); [by apply handlePubacks_spec|]. destruct (_ =? PUBREC); [by apply handlePubrecs_spec|].
    destruct (_ =? PUBREL); [by apply handlePubrels_spec|]. destruct (_ =? PUBCOMP); [by apply handlePubcomps_spec|].
    destruct (_ =? UNSUBACK); [|by apply implements_skip]. unfold MQTTProtocol_handleUnsubacks, implements.
    rewrite (pbind_eq _ _ _ _ _ (client_of_run s sock Hs)). by apply implements_skip.
  - by apply implements_skip.
  - unfold MQTTProtocol_handleSubacks, implements. rewrite (pbind_eq _ _ _ _ _ (client_of_run s sock Hs)).
    by apply implements_skip.
  - destruct (_ =? PINGRESP); [|by apply implements_skip]. unfold MQTTProtocol_handlePingresps, implements.
    rewrite (pbind_eq _ _ _ _ _ (client_of_run s sock Hs)). eexists 0, _. split; [reflexivity|]. cbn.
    split; [|done]. by apply (represents_frame s).
Qed.

(** C7: the handshakes of the qualities of service.  The handlers of the client implement the abstract
    session for any sequence of packets from the server, duplicates and packets out of order included:
    a QoS 0 or QoS 1 message is passed to the application when it arrives, a QoS 2 message is kept until
    its PUBREL and passed exactly then, once, however often its PUBLISH and its PUBREL are repeated; a
    message to the server stays in flight until the PUBACK, or the PUBREC and then the PUBCOMP, of its
    identifier.  Each packet is answered by the acknowledgement the session names and no handler touches
    a publication that was freed. *)
Theorem handlers_implement_session (ps : list packet) (sock : Z) (s : mqtt) (se : session) :
  represents s se -> socket (client s) = sock -> Forall pk_ok ps ->
  exists rcs s', handle_all ps sock s = Ret (rcs, s') /\ represents s' (se_run ps se).1 /\
    nt s' = foldl (put sock) (nt s) (se_run ps se).2.
Proof.
  revert s se. induction ps as [|p ps IH]; intros s se Hr Hs Hok; cbn [handle_all se_run].
  - exists [], s. by split_and!.
  - apply Forall_cons in Hok as [Hp Hok]. destruct (handle_spec p s se sock Hr Hs Hp) as (rc & s1 & E & Hr1 & Hn1 & Hs1).
    rewrite (pbind_eq _ _ _ _ _ E). destruct (se_step p se) as [se1 r1]. cbn [fst snd] in Hr1, Hn1.
    destruct (IH s1 se1 Hr1 Hs1 Hok) as (rcs & s2 & E2 & Hr2 & Hn2). rewrite (pbind_eq _ _ _ _ _ E2).
    exists (rc :: rcs), s2. split; [done|]. destruct (se_run ps se1) as [se2 r2]. cbn [fst snd] in Hr2, Hn2 |- *.
    split; [done|]. by rewrite foldl_app, <- Hn1.
Qed.

(** A new session of a connected client on socket 5. *)
Definition example_api : asyncs :=
  let c := Command 0 0 0 true true (DConnect 30 4 [] 0) in
  Asyncs (str "localhost:1883") c_zero c_zero c c None false 1 [] [] [] 0 0.

Definition example_state : mqtt :=
  Mqtt (Client (str "bob") None None None 0 5 0 0 true true true false 0 0 20 0 c_zero c_zero [])
    ∅ c_zero c_zero 0 0 example_api (Net SocketBuffer_newDefQ [] [] [] None ∅ [] []) 0 [] [].

Lemma example_represents : represents example_state (Session [] [] []).
Proof.
  split; [split|constructor|constructor|done]; try constructor.
  - intros H. change (pubs example_state) with (∅ : gmap nat Publications) in H. rewrite lookup_empty in H. by destruct H.
  - intros H. by apply not_elem_of_nil in H.
  - change (pubs example_state !! i) with ((∅ : gmap nat Publications) !! i) in H. by rewrite lookup_empty in H.
  - change (pubs example_state !! i) with ((∅ : gmap nat Publications) !! i) in H. by rewrite lookup_empty in H.
Qed.

(** A QoS 2 message that is sent twice and released twice. *)
Definition example_packets : list packet :=
  let publish h := PkPublish (MkPublish h (str "/sms") 4 7 (str "hello") 5) in
  [publish 0x34; publish 0x3c; PkAck (MkAck 0x62 7); PkAck (MkAck 0x62 7)].

Lemma handlers_implement_session_witness :
  (exists rcs s', handle_all example_packets 5 example_state = Ret (rcs, s') /\
    represents s' (se_run example_packets (Session [] [] [])).1 /\
    nt s' = foldl (put 5) (nt example_state) (se_run example_packets (Session [] [] [])).2) /\
  (se_run example_packets (Session [] [] [])).1 =
    Session [] [] [AppMessage (str "/sms") 4 (str "hello") 5 2 0 0 7].
Proof.
  split; [|vm_compute; reflexivity]. apply (handlers_implement_session example_packets 5).
  - exact example_represents.
  - reflexivity.
  - repeat apply Forall_cons_2; try apply Forall_nil_2; cbn; decide_all.
Defined.
