(* ===== verification/MqttArrive.v ===== *)
(** * MqttArrive: a packet of the server on its way

    The packets a server sends, as bytes, and the read of one of which only a part has arrived, and which
    the end of the connection may cut off: an attempt of [MQTTPacket_Factory] gives the packet, is
    interrupted and leaves the rest for the next one, or reports the end. *)

From Stdlib Require Import ZArith Lia String.
From stdpp Require Import base tactics numbers list gmap.
From S2P Require Import Prelude LinkedList MqttPacket SockBuf MqttRead MqttProto MqttSession.

(** ** The packets *)

(** What a server sends behind the header byte, which has the type and the QoS. *)
Inductive from_server : Type :=
| FsConnack (flags rc : Z)
| FsPublish (topic : list Z) (msgId : Z) (payload : list Z)
| FsAck (msgId : Z)
| FsSuback (msgId : Z) (qoss : list Z)
| FsPingresp.

Definition body_of (h : Z) (m : from_server) : list Z :=
  match m with
  | FsConnack flags rc => [flags; rc]
  | FsPublish topic msgId payload => publish_body topic (hd_qos h) msgId payload
  | FsAck msgId => be16 msgId
  | FsSuback msgId qoss => be16 msgId ++ qoss
  | FsPingresp => []
  end.

Definition well_sent (h : Z) (m : from_server) : Prop :=
  Z.of_nat (length (body_of h m)) < 128 ^ 4 /\
  match m with
  | FsConnack _ _ => hd_type h = CONNACK
  | FsPublish topic msgId _ => hd_type h = PUBLISH /\ short topic /\ 0 <= msgId < 65536
  | FsAck msgId => hd_type h ∈ [PUBACK; PUBREC; PUBREL; PUBCOMP; UNSUBACK] /\ 0 <= msgId < 65536
  | FsSuback msgId _ => hd_type h = SUBACK /\ 0 <= msgId < 65536
  | FsPingresp => hd_type h = PINGRESP
  end.

(** The packet the client makes of it. *)
Definition read_as (h : Z) (m : from_server) (p : packet) : Prop :=
  match m with
  | FsConnack flags rc => p = PkConnack (MkConnack h flags (schar rc))
  | FsPublish topic _ _ => exists q, p = PkPublish q /\ p_topic q = topic
  | FsAck msgId => p = PkAck (MkAck h msgId)
  | FsSuback msgId qoss => p = PkSuback (MkSuback h msgId qoss)
  | FsPingresp => p = PkHeader h
  end.

Lemma suback_loop_run l : forall pre rest,
  suback_loop (pre ++ l ++ rest) (length pre) (length l) = Ret l.
Proof.
  induction l as [|b l IH]; intros pre rest; [done|]. cbn [suback_loop length app]. unfold readChar.
  rewrite list_lookup_middle by done. cbn [obind deref].
  specialize (IH (pre ++ [b]) rest). rewrite <- app_assoc, length_app in IH. cbn [length app] in IH.
  rewrite Nat.add_1_r in IH. by rewrite IH.
Qed.

(** Whatever the block has behind the body. *)
Lemma constructor_reads h m :
  well_sent h m -> exists make, new_packets (hd_type h) = Some make /\
    forall mem, exists p, make h (body_of h m ++ mem) (length (body_of h m)) = Ret (Some p) /\ pk_ok p /\ read_as h m p.
Proof.
  intros [Hl Hm]. destruct m as [flags rc|topic msgId payload|msgId|msgId qoss|]; cbn [body_of read_as] in *.
  - rewrite Hm. eexists. split; [reflexivity|]. intros mem. by eexists.
  - destruct Hm as (-> & Ht & Hid). eexists. split; [reflexivity|]. intros mem.
    eexists. split; [apply publish_read; [done..|change (2 ^ 31) with (128 ^ 4 * 8); lia]|].
    split; [|by eexists]. split; cbn; [rewrite length_app; lia|]. case_match; lia.
  - destruct Hm as (Ht & Hid). exists MQTTPacket_ack. split.
    { revert Ht. rewrite !elem_of_cons, elem_of_nil. by intros [->|[->|[->|[->|[->|[]]]]]]. }
    intros mem. eexists. split; [|by split; [|reflexivity]]. unfold MQTTPacket_ack.
    pose proof (readInt_app [] msgId mem Hid) as E. cbn [app length] in E. by rewrite E.
  - destruct Hm as (-> & Hid). eexists. split; [reflexivity|]. intros mem. eexists.
    split; [|by split; [|reflexivity]]. unfold MQTTPacket_suback.
    pose proof (readInt_app [] msgId (qoss ++ mem) Hid) as E. cbn [app length] in E.
    rewrite <- app_assoc, E. cbn [obind]. rewrite length_app. cbn [length be16].
    replace (2 + length qoss - (0 + 2))%nat with (length qoss) by lia.
    pose proof (suback_loop_run qoss (be16 msgId) mem) as El. change (length (be16 msgId)) with (0 + 2)%nat in El.
    by rewrite El.
  - rewrite Hm. eexists. split; [reflexivity|]. intros mem. by eexists.
Qed.

(** ** Reading while the bytes arrive *)

Section Arrive.
Variable s : Z.
Hypothesis s_nonzero : s <> 0.

(** Behind what has arrived there is nothing yet, or the end of the connection. *)
Definition stops (e : list recvd) : Prop := match e with [] | RClosed :: _ | RErr :: _ => True | _ => False end.

(** [n0] is [n] if the bytes [f] had arrived too. *)
Definition ahead (P : list recvd -> list recvd -> Prop) (n n0 : net) : Prop :=
  def_queue n = def_queue n0 /\ queues n = queues n0 /\
  exists ins e f, inputs s n = ins ++ e /\ inputs s n0 = ins ++ f /\ stops e /\ P e f.

(** They come after a pause. *)
Definition paused (e f : list recvd) : Prop := e = [] -> exists f', f = RAgain :: f'.
Definition anyhow (e f : list recvd) : Prop := True.

Lemma ahead_weaken P n n0 : ahead P n n0 -> ahead anyhow n n0.
Proof. intros (E1 & E2 & ins & e & f & Hn & Hn0 & He & _). split; [done|]. split; [done|]. by exists ins, e, f. Qed.

(** A change of the queues. *)
Lemma ahead_queues P n n0 n' n0' :
  ahead P n n0 -> n_in n' = n_in n -> n_in n0' = n_in n0 -> def_queue n' = def_queue n0' -> queues n' = queues n0' ->
  ahead P n' n0'.
Proof.
  intros (_ & _ & ins & e & f & Hn & Hn0 & He) Ei Ei0 E1 E2. split; [done|]. split; [done|].
  exists ins, e, f. unfold inputs in *. by rewrite Ei, Ei0.
Qed.

Lemma inputs_put l n : inputs s (set_in (<[s := l]> (n_in n)) n) = l.
Proof. unfold inputs. cbn. by rewrite lookup_insert_eq. Qed.

Definition ended (r : recvd) : Prop := r = RClosed \/ r = RErr.

Lemma recv_ahead size n n0 :
  ahead paused n n0 ->
  exists r n1, recv s size n = (r, n1) /\
    (ended r \/ exists n01, recv s size n0 = (r, n01) /\ ahead (match r with RAgain => anyhow | _ => paused end) n1 n01).
Proof.
  intros (E1 & E2 & ins & e & f & Hn & Hn0 & He & Hf). unfold recv. fold (inputs s n) (inputs s n0).
  rewrite Hn, Hn0. destruct ins as [|r ins]; cbn [app].
  - destruct e as [|[b l| | |] e]; [|done|done|..].
    + destruct (Hf eq_refl) as [f' ->]. eexists _, _. split; [reflexivity|]. right. eexists. split; [reflexivity|].
      split; [done|]. split; [done|]. exists [], [], f'. rewrite inputs_put. by rewrite Hn.
    + eexists _, _. split; [reflexivity|]. left. by left.
    + eexists _, _. split; [reflexivity|]. left. by right.
  - destruct r as [b l| | |].
    + eexists _, _. split; [reflexivity|]. destruct (take size (b :: l)) as [|c k] eqn:Et; [left; by left|].
      right. eexists. split; [reflexivity|]. split; [done|]. split; [done|].
      destruct (drop size (b :: l)) as [|b' l'].
      * exists ins, e, f. by rewrite !inputs_put.
      * exists (RData b' l' :: ins), e, f. by rewrite !inputs_put.
    + eexists _, _. split; [reflexivity|]. right. eexists. split; [reflexivity|].
      split; [done|]. split; [done|]. exists ins, e, f. by rewrite !inputs_put.
    + eexists _, _. split; [reflexivity|]. left. by left.
    + eexists _, _. split; [reflexivity|]. left. by right.
Qed.

(** The buffers are used in the same way. *)
Lemma find_ahead P n n0 : ahead P n n0 -> find_queue s n = find_queue s n0.
Proof. intros (_ & E & _). unfold find_queue. by rewrite E. Qed.

Lemma buffers_ahead P n n0 c z f :
  ahead P n n0 ->
  ahead P (SocketBuffer_interrupted s z n) (SocketBuffer_interrupted s z n0) /\
  ahead P (SocketBuffer_complete s n) (SocketBuffer_complete s n0) /\
  ahead P (SocketBuffer_queueChar s c n) (SocketBuffer_queueChar s c n0) /\
  ahead P (update_queue s f n) (update_queue s f n0).
Proof.
  intros H. pose proof (find_ahead _ _ _ H) as Ef. pose proof H as (E1 & E2 & _).
  destruct (buffers_inputs s c z f n) as (I1 & I2 & I3 & I4), (buffers_inputs s c z f n0) as (J1 & J2 & J3 & J4).
  split_and!; eapply ahead_queues; try eassumption;
    unfold SocketBuffer_interrupted, SocketBuffer_complete, SocketBuffer_queueChar, update_queue;
    rewrite Ef; destruct (find_queue s n0) as [[? ?]|]; cbn; rewrite ?E1, ?E2; try done; repeat case_match; cbn; done.
Qed.

Lemma getQueuedChar_ahead n n0 rc c n01 :
  ahead paused n n0 -> SocketBuffer_getQueuedChar s n0 = Ret (rc, c, n01) ->
  exists n1, SocketBuffer_getQueuedChar s n = Ret (rc, c, n1) /\ ahead paused n1 n01.
Proof.
  intros H E. pose proof (find_ahead _ _ _ H) as Ef. pose proof H as (E1 & E2 & _).
  unfold SocketBuffer_getQueuedChar in *. rewrite Ef. destruct (find_queue s n0) as [[i q]|].
  2: { injection E as <- <- <-. by exists n. }
  destruct (headerlen q); [|done]. cbn [obind deref] in *.
  destruct (bool_decide (index q < n1)%nat); [|case_match; injection E as <- <- <-; by exists n].
  destruct (fixed_header q !! index q); [|done]. cbn [obind deref] in *. injection E as <- <- <-.
  eexists. split; [reflexivity|]. eapply ahead_queues; [exact H|done|done|done|]. cbn. by rewrite E2.
Qed.

Lemma getch_ahead n n0 rc c n01 :
  ahead paused n n0 -> Socket_getch s n0 = Ret (rc, c, n01) ->
  (exists n1, Socket_getch s n = Ret (SOCKET_ERROR, None, n1)) \/
  (exists n1, Socket_getch s n = Ret (rc, c, n1) /\ ahead (if rc =? TCPSOCKET_COMPLETE then paused else anyhow) n1 n01).
Proof.
  intros H E. unfold Socket_getch in *.
  destruct (SocketBuffer_getQueuedChar s n0) as [[[rc1 c1] m0]| | |] eqn:Eq; [|done..].
  destruct (getQueuedChar_ahead _ _ _ _ _ H Eq) as (m & -> & Hm). cbn [obind] in *.
  destruct (negb (rc1 =? SOCKETBUFFER_INTERRUPTED)).
  { injection E as <- <- <-. right. exists m. split; [done|]. case_match; [done|by eapply ahead_weaken]. }
  destruct (recv_ahead 1 m m0 Hm) as (r & m1 & -> & [Hr|(m01 & E1 & Hm1)]).
  - left. destruct Hr as [-> | ->]; by eexists.
  - rewrite E1 in E. right. destruct r as [b l| | |]; injection E as <- <- <-; eexists; (split; [reflexivity|]).
    + cbn. by apply (buffers_ahead paused _ _ b 0 id).
    + cbn. by apply (buffers_ahead anyhow _ _ 0 0 id).
    + cbn. by eapply ahead_weaken.
    + cbn. by eapply ahead_weaken.
Qed.

Lemma decode_ahead fuel : forall m v n n0 rc v' n01,
  ahead paused n n0 -> decode_loop fuel s m v n0 = Ret (rc, v', n01) ->
  (exists v1 n1, decode_loop fuel s m v n = Ret (SOCKET_ERROR, v1, n1)) \/
  (exists n1, decode_loop fuel s m v n = Ret (rc, v', n1) /\
     ahead (if rc =? TCPSOCKET_COMPLETE then paused else anyhow) n1 n01).
Proof.
  induction fuel as [|fuel IH]; intros m v n n0 rc v' n01 H E; cbn [decode_loop] in *.
  { left. by eexists _, _. }
  destruct (Socket_getch s n0) as [[[rc1 c] m0]| | |] eqn:Eg; [|done..]. cbn [obind] in E.
  destruct (getch_ahead _ _ _ _ _ H Eg) as [(m1 & ->)|(m1 & -> & Hm)]; cbn [obind].
  { left. by eexists _, _. }
  destruct (rc1 =? TCPSOCKET_COMPLETE) eqn:Ec; cbn [negb] in *.
  2: { injection E as <- <- <-. right. exists m1. by rewrite Ec. }
  destruct c as [c|]; [|done]. cbn [obind deref] in *. destruct (negb (Z.land c 128 =? 0)); [by eapply IH|].
  injection E as <- <- <-. right. exists m1. by rewrite Ec.
Qed.

Lemma getdata_ahead size n n0 d a n01 :
  ahead paused n n0 -> Socket_getdata s size n0 = Ret (d, a, n01) ->
  (exists a1 n1, Socket_getdata s size n = Ret (None, a1, n1)) \/
  (exists n1, Socket_getdata s size n = Ret (d, a, n1) /\ ahead anyhow n1 n01).
Proof.
  intros H E. unfold Socket_getdata in *. destruct (size =? 0).
  { injection E as <- <- <-. right. destruct (buffers_ahead _ _ _ 0 0 id H) as (_ & Hc & _ & _).
    pose proof Hc as (Ed & _). rewrite Ed. eexists. split; [reflexivity|]. by eapply ahead_weaken. }
  unfold SocketBuffer_getQueuedData in *. rewrite (find_ahead _ _ _ H). set (al := match find_queue s n0 with Some (_, q) => datalen q | None => 0 end) in *.
  destruct (buffers_ahead _ _ _ 0 0 (grow size) H) as (_ & _ & _ & Hg).
  destruct (recv_ahead (Z.to_nat (size - al)) _ _ Hg) as (r & m1 & -> & [Hr|(m01 & E1 & Hm)]).
  - left. destruct Hr as [-> | ->]; by eexists _, _.
  - rewrite E1 in E. apply ahead_weaken in Hm. right.
    assert (Ec : cur_queue s m1 = cur_queue s m01).
    { unfold cur_queue. rewrite (find_ahead _ _ _ Hm). by destruct Hm as (-> & _). }
    destruct r as [b l| | |].
    + rewrite Ec. destruct (splice _ _ _) as [mem| | |]; [|done..]. cbn [obind] in *. injection E as <- <- <-.
      eexists. split; [reflexivity|]. set (f := fun q => SQ _ _ _ _ _ _ mem).
      destruct (buffers_ahead _ _ _ 0 0 f Hm) as (_ & _ & _ & Hu).
      destruct (buffers_ahead _ _ _ 0 (al + Z.of_nat (length (b :: l))) id Hu) as (H1 & H2 & _).
      cbn [length] in *. by case_match.
    + injection E as <- <- <-. rewrite Ec. eexists. split; [reflexivity|]. by apply (buffers_ahead anyhow _ _ 0 al id).
    + injection E as <- <- <-. by exists m1.
    + injection E as <- <- <-. by exists m1.
Qed.

Lemma Factory_ahead n n0 p rc n01 :
  ahead paused n n0 -> MQTTPacket_Factory s n0 = Ret (p, rc, n01) ->
  (exists n1, MQTTPacket_Factory s n = Ret (None, SOCKET_ERROR, n1)) \/
  (exists n1, MQTTPacket_Factory s n = Ret (p, rc, n1) /\ ahead anyhow n1 n01).
Proof.
  intros H E. unfold MQTTPacket_Factory in *.
  destruct (Socket_getch s n0) as [[[rc1 c] m0]| | |] eqn:Eg; [|done..]. cbn [obind] in E.
  destruct (getch_ahead _ _ _ _ _ H Eg) as [(m1 & ->)|(m1 & -> & Hm)]; cbn [obind]; [left; by eexists|].
  destruct (rc1 =? TCPSOCKET_COMPLETE); cbn [negb] in *; [|injection E as <- <- <-; right; by eexists].
  destruct c as [header|]; [|done]. cbn [obind deref] in *. unfold MQTTPacket_decode in *.
  destruct (decode_loop _ s 1 0 m0) as [[[rc2 len] m02]| | |] eqn:Ed; [|done..]. cbn [obind] in E.
  destruct (decode_ahead _ _ _ _ _ _ _ _ Hm Ed) as [(v & m2 & ->)|(m2 & -> & Hm2)]; cbn [obind]; [left; by eexists|].
  destruct (rc2 =? TCPSOCKET_COMPLETE); cbn [negb] in *; [|injection E as <- <- <-; right; by eexists].
  destruct (Socket_getdata s len m02) as [[[d a] m03]| | |] eqn:Ea; [|done..]. cbn [obind] in E.
  destruct (getdata_ahead _ _ _ _ _ _ Hm2 Ea) as [(a1 & m3 & ->)|(m3 & -> & Hm3)]; cbn [obind]; [left; by eexists|].
  right. destruct d as [mem|]; [|injection E as <- <- <-; by eexists].
  destruct (a =? len); cbn [negb] in *; [|injection E as <- <- <-; by eexists].
  destruct (_ || _); [injection E as <- <- <-; by eexists|].
  destruct (new_packets _) as [make|]; [|injection E as <- <- <-; by eexists].
  destruct (make header mem _) as [q| | |]; [|done..]. cbn [obind] in *. injection E as <- <- <-. by eexists.
Qed.

(** A packet with the header byte [h] and the rest [body] is arriving: what has been read of it is kept, and
    what has arrived goes on with it, in any pieces; after it the connection may end. *)
Definition arriving (h : Z) (body : list Z) (n : net) : Prop :=
  exists ins e f more hs d, inputs s n = ins ++ e /\ stops e /\
    reading s h body more hs d 0 (set_in (<[s := ins ++ f]> (n_in n)) n) /\
    (hs = h :: MQTTPacket_encode (Z.of_nat (length body)) -> (length d < length body)%nat).

Lemma flat_app l k : flat (l ++ k) = flat l ++ flat k.
Proof. apply bind_app. Qed.

(** A pause where the bytes end changes nothing. *)
Lemma arriving_paused h body n :
  arriving h body n -> exists n0 more hs d, ahead paused n n0 /\ reading s h body more hs d 0 n0 /\
    (hs = h :: MQTTPacket_encode (Z.of_nat (length body)) -> (length d < length body)%nat).
Proof.
  intros (ins & e & f & more & hs & d & Hn & He & (Hst & Hq & Hi & Hr) & Hd). rewrite inputs_put in Hq, Hr.
  apply Forall_app in Hq as [Hq1 Hq2].
  exists (set_in (<[s := ins ++ RAgain :: f]> (n_in n)) n), more, hs, d. split; [|split; [|done]].
  - split; [done|]. split; [done|]. exists ins, e, (RAgain :: f). rewrite inputs_put.
    split; [done|]. split; [done|]. split; [done|]. intros _. by eexists.
  - split; [by eapply store_same; [..|exact Hst]|]. rewrite inputs_put. rewrite flat_app in *.
    split; [apply Forall_app; split; [done|by constructor]|]. split; [done|exact Hr].
Qed.

(** An attempt to read it: the connection has ended, or the packet is not complete and the rest of it is
    still arriving, or it is read. *)
Lemma Factory_arriving h m n :
  well_sent h m -> arriving h (body_of h m) n ->
  (exists rc n', MQTTPacket_Factory s n = Ret (None, rc, n') /\
     (rc = SOCKET_ERROR \/ (rc = TCPSOCKET_INTERRUPTED /\ arriving h (body_of h m) n'))) \/
  (exists p n', MQTTPacket_Factory s n = Ret (Some p, TCPSOCKET_COMPLETE, n') /\ pk_ok p /\ read_as h m p).
Proof.
  intros Hw Ha. destruct (constructor_reads h m Hw) as (make & Em & Hmake). destruct Hw as [Hl _].
  destruct (arriving_paused h _ n Ha) as (n0 & more & hs & d & Hn & Hr & Hd).
  destruct (Factory_reading s s_nonzero h _ more Hl hs d n0 Hr Hd) as [(n01 & E & (hs' & d' & Hr' & Hd') & _)|(mem & n01 & E & _)];
    [by rewrite Em| |].
  - left. destruct (Factory_ahead _ _ _ _ _ Hn E) as [(n1 & ->)|(n1 & -> & Hn1)]; [eexists _, _; split; [done|by left]|].
    eexists _, _. split; [reflexivity|]. right. split; [done|].
    destruct Hn1 as (E1 & E2 & ins & e & f & Hi & Hi0 & He & _). exists ins, e, f, more, hs', d'.
    split; [done|]. split; [done|]. split; [|done]. destruct Hr' as (Hst & Hq & Hi' & Hrest). unfold reading.
    rewrite inputs_put. rewrite Hi0 in Hq, Hrest. split; [|done]. by eapply store_same; [..|exact Hst].
  - destruct (Hmake mem) as (p & Ep & Hp). rewrite Em in E. cbn [default from_option id] in E. rewrite Ep in E. cbn [obind] in E.
    destruct (Factory_ahead _ _ _ _ _ Hn E) as [(n1 & ->)|(n1 & -> & _)]; [left; eexists _, _; split; [done|by left]|].
    right. by exists p, n1.
Qed.

(** On a socket from which everything was read the next packet arrives, as much of it as there is. *)
Lemma arriving_start h body n ins e f more :
  store s [] [] 0 n -> inputs s n = ins ++ e -> stops e -> Forall quiet (ins ++ f) ->
  flat (ins ++ f) = (h :: MQTTPacket_encode (Z.of_nat (length body))) ++ body ++ more -> arriving h body n.
Proof.
  intros Hs Hn He Hq Hf. exists ins, e, f, more, [], []. split; [done|]. split; [done|]. split; [|done].
  apply reading_start; rewrite ?inputs_put; [by eapply store_same; [..|exact Hs]|done|done].
Qed.
End Arrive.
