(* ===== verification/MqttEngine.v ===== *)
(** * MqttEngine: message identifiers, publishing, retries

    The operations of [MqttProto] that the client starts itself, on the session of [MqttSession]. *)

From Stdlib Require Import ZArith Lia String.
From stdpp Require Import base tactics numbers list gmap.
From S2P Require Import Prelude LinkedList MqttPacket SockBuf SockWrite MqttProto MqttSession.

(** ** Message identifiers *)

(** The number of identifiers tried before [id] when the search starts after [start]. *)
Definition rank (start id : Z) : Z := (id - start - 1) mod MAX_MSG_ID.

Notation next_id := first_msgid (only parsing).

Lemma rank_next start id :
  0 <= start <= MAX_MSG_ID -> 1 <= id <= MAX_MSG_ID -> rank start id < MAX_MSG_ID - 1 ->
  1 <= next_id id <= MAX_MSG_ID /\ rank start (next_id id) = rank start id + 1.
Proof.
  unfold rank, first_msgid, MAX_MSG_ID. intros Hs Hi Hr. destruct (Z.eqb_spec id 65535) as [->|Hne];
    split; try lia; divlia.
Qed.

Lemma rank_inj start id id' :
  1 <= id <= MAX_MSG_ID -> 1 <= id' <= MAX_MSG_ID -> rank start id = rank start id' -> id = id'.
Proof. unfold rank, MAX_MSG_ID. intros H1 H2 H. divlia. Qed.

Lemma rank_start start : 1 <= start <= MAX_MSG_ID -> rank start start = MAX_MSG_ID - 1.
Proof. unfold rank, MAX_MSG_ID. intros H. divlia. Qed.

Lemma rank_bound start id : 0 <= rank start id < MAX_MSG_ID.
Proof. apply Z.mod_pos_bound. done. Qed.

(** A search in lists that only moves their cursors. *)
Section Assign.
Context {L : Type} (used : Z -> L -> bool * L) (ok : L -> Prop) (taken : Z -> Prop).
Hypothesis used_spec : forall id l, ok l -> exists b l', used id l = (b, l') /\ ok l' /\ (b = true <-> taken id).

(** The identifiers before [id] are taken. *)
Definition all_before (start id : Z) : Prop :=
  forall id', 1 <= id' <= MAX_MSG_ID -> rank start id' < rank start id -> taken id'.

(** The first free identifier but [start], or 0 when there was a [start] and all but it are taken. *)
Definition first_free (start id : Z) : Prop :=
  (1 <= id <= MAX_MSG_ID /\ id <> start /\ ~ taken id /\ all_before start id) \/
  (id = 0 /\ 1 <= start /\ forall id', 1 <= id' <= MAX_MSG_ID -> id' <> start -> taken id').

Lemma before_last start msgid :
  0 <= start <= MAX_MSG_ID -> 1 <= msgid <= MAX_MSG_ID -> (1 <= start -> msgid <> start) ->
  (1 <= start \/ exists id, 1 <= id <= MAX_MSG_ID /\ ~ taken id) ->
  (forall id, 1 <= id <= MAX_MSG_ID -> rank start id <= rank start msgid -> taken id) ->
  rank start msgid < MAX_MSG_ID - 1.
Proof.
  intros Hs Hm Hne Hfree Hupto. pose proof (rank_bound start msgid) as Hb.
  destruct (decide (rank start msgid = MAX_MSG_ID - 1)) as [E|]; [|lia]. exfalso.
  destruct (decide (1 <= start)) as [H1|H1].
  - apply (Hne H1). apply (rank_inj start); [done|lia|]. rewrite rank_start by lia. done.
  - destruct Hfree as [?|(id & Hid' & Hnot)]; [lia|]. apply Hnot, Hupto; [done|].
    pose proof (rank_bound start id). lia.
Qed.

Lemma assign_loop_spec start fuel : forall msgid l,
  ok l -> 0 <= start <= MAX_MSG_ID -> 1 <= msgid <= MAX_MSG_ID -> (1 <= start -> msgid <> start) ->
  (1 <= start \/ exists id, 1 <= id <= MAX_MSG_ID /\ ~ taken id) ->
  all_before start msgid -> MAX_MSG_ID - rank start msgid < Z.of_nat fuel ->
  exists id l', assign_loop used fuel start msgid l = Ret (id, l') /\ ok l' /\ first_free start id.
Proof.
  induction fuel as [|fuel IH]; intros msgid l Hok Hs Hm Hne Hfree Hused Hf.
  - pose proof (rank_bound start msgid). lia.
  - cbn [assign_loop]. destruct (used_spec msgid l Hok) as (b & l' & -> & Hok' & Hb). destruct b; cbn [negb].
    2: { exists msgid, l'. split; [done|]. split; [done|]. left. split; [done|].
         split; [destruct (decide (1 <= start)); [by apply Hne|lia]|]. split; [|done].
         intros Ht. by apply Hb in Ht. }
    change (if msgid =? MAX_MSG_ID then 1 else msgid + 1) with (next_id msgid).
    assert (Hupto : forall id, 1 <= id <= MAX_MSG_ID -> rank start id <= rank start msgid -> taken id).
    { intros id Hid' Hle. destruct (decide (rank start id = rank start msgid)) as [E|E].
      - rewrite (rank_inj start id msgid Hid' Hm E). by apply Hb.
      - apply Hused; [done|lia]. }
    pose proof (before_last start msgid Hs Hm Hne Hfree Hupto) as Hlt.
    destruct (rank_next start msgid Hs Hm Hlt) as [Hr1 Hr2].
    destruct (Z.eqb_spec (next_id msgid) start) as [E|E].
    + exists 0, l'. split; [done|]. split; [done|]. right. split; [done|]. split; [lia|].
      intros id' Hid' Hns. apply Hupto; [done|]. rewrite E in Hr2. rewrite rank_start in Hr2 by lia.
      pose proof (rank_bound start id'). destruct (decide (rank start id' = MAX_MSG_ID - 1)) as [E'|]; [|lia].
      exfalso. apply Hns. apply (rank_inj start); [done|lia|]. rewrite rank_start by lia. done.
    + apply IH; [done|done|done|done|done| |lia]. intros id' Hid' Hlt'. apply Hupto; [done|lia].
Qed.

Lemma assign_spec start l :
  ok l -> 0 <= start <= MAX_MSG_ID -> (1 <= start \/ exists id, 1 <= id <= MAX_MSG_ID /\ ~ taken id) ->
  exists id l', assign_loop used (Z.to_nat MAX_MSG_ID + 1) start (first_msgid start) l = Ret (id, l') /\ ok l' /\
    first_free start id.
Proof.
  intros Hok Hs Hfree. apply assign_loop_spec; [done|done| | |done| |].
  - unfold first_msgid, MAX_MSG_ID in *. case_bool; lia.
  - unfold first_msgid, MAX_MSG_ID in *. case_bool; lia.
  - intros id Hid Hlt. exfalso. pose proof (rank_bound start id).
    assert (rank start (next_id start) = 0); [|lia].
    unfold rank, first_msgid, MAX_MSG_ID in *. destruct (Z.eqb_spec start 65535) as [->|]; [done|].
    by replace (start + 1 - start - 1) with 0 by lia.
  - pose proof (rank_bound start (next_id start)). unfold MAX_MSG_ID in *. lia.
Qed.

(** Without a start and with every identifier taken the search goes round for ever. *)
Lemma assign_loop_blocks fuel : forall msgid l,
  ok l -> 1 <= msgid <= MAX_MSG_ID -> (forall id, 1 <= id <= MAX_MSG_ID -> taken id) ->
  assign_loop used fuel 0 msgid l = Blocked.
Proof.
  induction fuel as [|fuel IH]; intros msgid l Hok Hm Hall; [done|]. cbn [assign_loop].
  destruct (used_spec msgid l Hok) as (b & l' & -> & Hok' & Hb). rewrite (proj2 Hb (Hall _ Hm)). cbn [negb].
  change (if msgid =? MAX_MSG_ID then 1 else msgid + 1) with (next_id msgid).
  assert (1 <= next_id msgid <= MAX_MSG_ID) by (unfold first_msgid, MAX_MSG_ID in *; case_bool; lia).
  destruct (Z.eqb_spec (next_id msgid) 0); [lia|]. by apply IH.
Qed.
End Assign.

Lemma has_item_run {A} (same : A -> bool) (l : clist (A:=A)) :
  exists b l', has_item same l = (b, l') /\ items l' = items l /\ (b = true <-> exists x, x ∈ items l /\ same x = true).
Proof.
  unfold has_item. destruct (c_find_by same l) as [(i & x & -> & Hi & Hx)|[-> Hn]].
  - eexists true, _. split; [done|]. split; [done|]. split; [|done]. intros _. exists x.
    split; [by eapply list_elem_of_lookup_2|done].
  - exists false, l. split; [done|]. split; [done|]. split; [done|]. intros (x & Hin & Hx). by rewrite Hn in Hx.
Qed.

(** The identifiers of the commands that wait and of those that were sent. *)
Definition tokens (s : mqtt) : list Z :=
  (cmd_token <$> items (commands (api s))) ++ (cmd_token <$> items (responses (api s))).

Lemma find_id_run id (l : clist * clist) :
  exists b l', find_id id l = (b, l') /\ items l'.1 = items l.1 /\ items l'.2 = items l.2 /\
    (b = true <-> id ∈ (cmd_token <$> items l.1) ++ (cmd_token <$> items l.2)).
Proof.
  unfold find_id. destruct (has_item_run (cmdMessageIDCompare id) l.1) as (b & l1 & -> & E1 & H1).
  destruct (has_item_run (cmdMessageIDCompare id) l.2) as (b2 & l2 & -> & E2 & H2).
  assert (Hin : forall k : list command, id ∈ cmd_token <$> k <-> exists x, x ∈ k /\ cmdMessageIDCompare id x = true).
  { intros k. rewrite list_elem_of_fmap. unfold cmdMessageIDCompare.
    split; intros (x & Hx); exists x; rewrite ?Z.eqb_eq in *; naive_solver. }
  destruct b.
  - eexists true, (l1, l.2). split_and!; [done..|]. split; [|done]. intros _. rewrite elem_of_app, !Hin.
    left. by apply H1.
  - exists b2, (l1, l2). split_and!; [done..|]. rewrite elem_of_app, !Hin, H2. split; [by right|]. intros [Hx|?]; [|done]. by apply H1 in Hx.
Qed.

(** The state after an identifier was assigned: the cursors of the lists have moved. *)
Definition assigned (id : Z) (l1 l2 : clist) (s : mqtt) : mqtt :=
  let s1 := set_api (set_responses l2 (set_commands l1 (api s))) s in
  if id =? 0 then s1 else upd_client (set_msgID id) s1.

(** Looking an identifier up, in lists with the items of the client's. *)
Lemma find_id_ok (s : mqtt) id (l : clist * clist) :
  items l.1 = items (commands (api s)) /\ items l.2 = items (responses (api s)) ->
  exists b l', find_id id l = (b, l') /\
    (items l'.1 = items (commands (api s)) /\ items l'.2 = items (responses (api s))) /\
    (b = true <-> id ∈ tokens s).
Proof.
  intros [H1 H2]. destruct (find_id_run id l) as (b & l' & ? & ? & ? & Hb). exists b, l'.
  split; [done|]. split; [split; congruence|]. unfold tokens. by rewrite <- H1, <- H2.
Qed.

Lemma assignMsgId_run (s : mqtt) :
  0 <= msgID (client s) <= MAX_MSG_ID ->
  1 <= msgID (client s) \/ (exists id, 1 <= id <= MAX_MSG_ID /\ id ∉ tokens s) ->
  exists id l1 l2, MQTTAsync_assignMsgId s = Ret (id, assigned id l1 l2 s) /\
    items l1 = items (commands (api s)) /\ items l2 = items (responses (api s)) /\
    first_free (fun i => i ∈ tokens s) (msgID (client s)) id.
Proof.
  intros Hm Hfree. set (start := msgID (client s)) in *.
  destruct (assign_spec find_id (fun l => items l.1 = items (commands (api s)) /\ items l.2 = items (responses (api s)))
    (fun i => i ∈ tokens s)) with (start := start) (l := (commands (api s), responses (api s)))
    as (id & [l1 l2] & E & [Hl1 Hl2] & Hres); [apply find_id_ok|done..|].
  exists id, l1, l2. split; [|done].
  unfold MQTTAsync_assignMsgId, upd_api, pclient, pbind, pget, pmod, plift, pret, assigned. cbn. fold start.
  rewrite E. cbn. by destruct (id =? 0).
Qed.

(** No identifier is free and none was given yet. *)
Definition none_free (s : mqtt) : Prop :=
  msgID (client s) = 0 /\ forall id, 1 <= id <= MAX_MSG_ID -> id ∈ tokens s.

Lemma none_free_or s :
  0 <= msgID (client s) <= MAX_MSG_ID ->
  none_free s \/ 1 <= msgID (client s) \/ (exists id, 1 <= id <= MAX_MSG_ID /\ id ∉ tokens s).
Proof.
  intros Hm. destruct (decide (1 <= msgID (client s))) as [?|Hz]; [by right; left|].
  destruct (decide (Exists (fun id => id ∉ tokens s) (seqZ 1 MAX_MSG_ID))) as [He|Hn].
  - right. right. apply Exists_exists in He as (id & Hi & Hid). exists id. apply elem_of_seqZ in Hi.
    split; [lia|done].
  - left. split; [lia|]. intros id Hid. apply not_Exists_Forall in Hn; [|apply _]. rewrite Forall_forall in Hn.
    destruct (decide (id ∈ tokens s)) as [|Hi]; [done|]. exfalso. apply (Hn id); [|done]. apply elem_of_seqZ. lia.
Qed.

(** C38: message identifiers, in every case.  From a last identifier in range (0 at the start of a session)
    [MQTTAsync_assignMsgId] either returns the first identifier after the last one, modulo 65535 and
    without the last one itself, that no command waiting or sent has, and remembers it; or, when there is a
    last one and every other identifier is taken, it returns 0 and keeps the last one, which is not tried
    even when it is free.  The one other case is that there is no last identifier and all are taken: the
    search does not end, however many turns it is given. *)
Theorem assignMsgId_fresh (s : mqtt) (se : session) :
  represents s se -> 0 <= msgID (client s) <= MAX_MSG_ID ->
  (exists id s', MQTTAsync_assignMsgId s = Ret (id, s') /\ represents s' se /\ tokens s' = tokens s /\
    first_free (fun i => i ∈ tokens s) (msgID (client s)) id /\ ~ none_free s /\
    msgID (client s') = (if id =? 0 then msgID (client s) else id)) \/
  (none_free s /\ MQTTAsync_assignMsgId s = Blocked /\
   forall fuel, assign_loop find_id fuel (msgID (client s)) (first_msgid (msgID (client s)))
     (commands (api s), responses (api s)) = Blocked).
Proof.
  intros Hr Hm. destruct (none_free_or s Hm) as [Hnone|Hfree]; [right|left].
  - pose proof Hnone as [Hz Hall]. rewrite Hz.
    assert (Hb : forall fuel, assign_loop find_id fuel 0 (first_msgid 0) (commands (api s), responses (api s)) = Blocked).
    { intros fuel. apply (assign_loop_blocks find_id _ _ (find_id_ok s)); [done|done|exact Hall]. }
    split; [done|]. split; [|exact Hb].
    unfold MQTTAsync_assignMsgId, pbind, pget, plift. cbn. by rewrite Hz, Hb.
  - destruct (assignMsgId_run s Hm Hfree) as (id & l1 & l2 & E & Hl1 & Hl2 & Hres).
    exists id, (assigned id l1 l2 s). split; [done|].
    assert (Hnone : ~ none_free s).
    { intros [Hz Hall]. destruct Hfree as [|(i & Hi & Hni)]; [lia|]. by apply Hni, Hall. }
    unfold assigned. destruct (id =? 0); (split; [by apply (represents_frame s)|]);
      (split; [unfold tokens; cbn; by rewrite Hl1, Hl2|]); by split.
Qed.

Lemma assignMsgId_fresh_witness :
  (exists id s', MQTTAsync_assignMsgId example_state = Ret (id, s') /\ represents s' (Session [] [] []) /\
    tokens s' = tokens example_state /\
    first_free (fun i => i ∈ tokens example_state) (msgID (client example_state)) id /\ ~ none_free example_state /\
    msgID (client s') = (if id =? 0 then msgID (client example_state) else id)) \/
  (none_free example_state /\ MQTTAsync_assignMsgId example_state = Blocked /\
   forall fuel, assign_loop find_id fuel (msgID (client example_state)) (first_msgid (msgID (client example_state)))
     (commands (api example_state), responses (api example_state)) = Blocked).
Proof.
  apply (assignMsgId_fresh example_state (Session [] [] [])).
  - exact example_represents.
  - split; vm_compute; discriminate.
Defined.

(** ** Sending again after a reconnection *)

(** The packet a flow to the server waits for an answer to, marked as a duplicate. *)
Definition resend (f : flow) : Z * list (list Z) :=
  if bool_decide (f_qos f = 2 /\ f_stage f = Some PUBCOMP) then ack_packet PUBREL (f_id f)
  else (Header PUBLISH 1 (f_qos f) (f_retain f),
        [be16 (Z.of_nat (length (f_topic f))); f_topic f; be16 (f_id f); f_payload f]).

Definition packet_bytes (p : Z * list (list Z)) : list Z := concat (MQTTPacket_sends p.1 p.2).

(** A connection that takes everything. *)
Definition takes_all (sock : Z) (w : list Z) (n : net) : Prop := idle sock w n /\ n_wres n = [].

(** What has been read and what is to be read are the same. *)
Definition same_reads (n n' : net) : Prop :=
  def_queue n' = def_queue n /\ queues n' = queues n /\ n_in n' = n_in n.

Lemma putdatas_all sock w bufs n :
  takes_all sock w n ->
  exists n', Socket_putdatas sock bufs n = (TCPSOCKET_COMPLETE, n') /\ takes_all sock (w ++ concat bufs) n' /\
    same_reads n n'.
Proof.
  intros [(Hw & Hp & Hc & Hwire) Hr]. unfold Socket_putdatas, Socket_noPendingWrites, Socket_writev.
  rewrite Hp, bool_decide_eq_false_2 by apply not_elem_of_nil. cbn [negb]. rewrite Hr.
  destruct (Z.eqb_spec (Z.of_nat (length (concat bufs))) SOCKET_ERROR); [unfold SOCKET_ERROR in *; lia|].
  rewrite Z.eqb_refl. eexists. split; [reflexivity|]. split; [|done]. split; [|done]. split; [done|]. split; [done|].
  split; [done|]. rewrite wire_add. by rewrite Hwire.
Qed.

(** What a retry leaves as it is. *)
Definition flags (s : mqtt) : Z * bool * bool * bool :=
  (socket (client s), connected (client s), good (client s), cleansession (client s)).
Definition stable (s s' : mqtt) : Prop := flags s' = flags s /\ same_reads (nt s) (nt s').

Lemma stable_trans s1 s2 s3 : stable s1 s2 -> stable s2 s3 -> stable s1 s3.
Proof. intros [E1 (A1 & B1 & C1)] [E2 (A2 & B2 & C2)]. split; [congruence|]. split_and!; congruence. Qed.

Lemma stable_flags s s' :
  stable s s' -> socket (client s') = socket (client s) /\ connected (client s') = connected (client s) /\
    good (client s') = good (client s).
Proof. intros [E _]. unfold flags in E. by injection E as -> -> -> _. Qed.

Lemma send_all p s w :
  takes_all (socket (client s)) w (nt s) ->
  exists s', send (Ret p) s = Ret (TCPSOCKET_COMPLETE, s') /\ same_session s s' /\ stable s s' /\
    takes_all (socket (client s)) (w ++ packet_bytes p) (nt s').
Proof.
  intros H. destruct p as [h b]. destruct (putdatas_all _ _ (MQTTPacket_sends h b) _ H) as (n & E & Hn & Hrd).
  unfold send, plift, pbind, pget, pmod, time, pclient, pret. cbn. rewrite E. cbn. eexists. split; [reflexivity|].
  by split_and!.
Qed.

Lemma noPendingWrites_all s w :
  takes_all (socket (client s)) w (nt s) ->
  exists s', noPendingWrites s = Ret (true, s') /\ same_session s s' /\ stable s s' /\ nt s' = nt s.
Proof.
  intros [(_ & Hp & _) _]. unfold noPendingWrites, pbind, pget, pmod, pret, Socket_noPendingWrites. cbn.
  rewrite Hp, bool_decide_eq_false_2 by apply not_elem_of_nil. cbn. eexists. split; [reflexivity|]. by split_and!.
Qed.

(** A touched message has the same flow. *)
Lemma touch_run s se i m :
  represents s se -> out s !! i = Some m ->
  exists s', touch_message i m s = Ret (tt, s') /\ represents s' se /\ stable s s' /\ nt s' = nt s.
Proof.
  intros Hr Hi. destruct (in_use s m (re_ok _ _ Hr) (out_refs _ _ _ Hi)) as (b & Hb & _).
  eexists. split; [reflexivity|]. split; [|by split_and!].
  pose proof (Forall_lookup_1 _ _ _ _ (ok_out _ (re_ok _ _ Hr)) Hi) as (_ & H1 & H2).
  destruct (Forall2_lookup_l _ _ _ _ _ (re_out _ _ Hr) Hi) as (f & Hf & (b' & Hb' & ->)).
  rewrite <- (represents_session_eta se), <- (list_insert_id (se_out se) i _ Hf).
  assert (b' = b) as -> by congruence.
  apply (represents_stage_out s _ se i m
    (Message (m_qos m) (m_retain m) (m_msgid m) (m_publish m) (Some (clock s / 1000)) (m_nextMessageType m)) b); try done.
Qed.

Definition short_topic (f : flow) : Prop := Z.of_nat (length (f_topic f)) < 65536.

(** The packet is a PUBREL, or else the PUBLISH of the message. *)
Definition due_release (m : Messages) : bool := bool_decide (m_qos m = 2 /\ m_nextMessageType m = Some PUBCOMP).

Lemma due_publish m (s : mqtt) :
  out_ok m ->
  (if m_qos m =? 1 then pret true
   else if m_qos m =? 2 then let* next := plift (deref (m_nextMessageType m)) in pret (next =? PUBREC)
   else pret false) s = Ret (negb (due_release m), s).
Proof. unfold due_release. intros (_ & _ & [->|[-> [-> | ->]]]); reflexivity. Qed.

Lemma resend_publish h m f b :
  h !! m_publish m = Some b -> flow_of h m f -> out_ok m -> pub_ok b -> short_topic f -> due_release m = false ->
  MQTTPacket_send_publish (MkPublish 0 (pb_topic b) 0 (m_msgid m) (pb_payload b) (pb_payloadlen b)) 1
    (m_qos m) (m_retain m) = Ret (resend f).
Proof.
  intros Hb (b' & Hb' & Ef) (_ & Hid & Hq) [_ Hl] Hs Hd. assert (b' = b) as -> by congruence.
  unfold MQTTPacket_send_publish, resend, short_topic, due_release in *. rewrite Ef in *. cbn in *. rewrite Hd.
  rewrite s32_id, int_buf_eq by lia. cbn [obind]. unfold read_bytes. rewrite bool_decide_eq_true_2 by lia.
  cbn [obind]. destruct (Z.ltb_spec 0 (m_qos m)); [|lia]. rewrite int_buf_eq by done. cbn [obind].
  by rewrite drop_0, Hl, Nat2Z.id, firstn_all.
Qed.

(** One message is sent again. *)
Lemma retry_message_all now s se i m f w :
  represents s se -> out s !! i = Some m -> se_out se !! i = Some f -> short_topic f ->
  takes_all (socket (client s)) w (nt s) ->
  exists s', retry_message now true i m s = Ret (true, s') /\ represents s' se /\ stable s s' /\
    takes_all (socket (client s)) (w ++ packet_bytes (resend f)) (nt s').
Proof.
  intros Hr Hi Hf Hs Hn. destruct (Forall2_lookup_l _ _ _ _ _ (re_out _ _ Hr) Hi) as (f' & Hf' & Hfl).
  assert (f' = f) as -> by congruence. clear Hf'.
  destruct (in_use s m (re_ok _ _ Hr) (out_refs _ _ _ Hi)) as (b & Hb & Hrc & Hl & _).
  pose proof (Forall_lookup_1 _ _ _ _ (ok_out _ (re_ok _ _ Hr)) Hi) as Hok. pose proof Hok as (_ & Hid & _).
  destruct (send_all (resend f) s w Hn) as (s1 & E1 & Hss & Hst1 & Hn1).
  pose proof (represents_frame _ _ _ Hr Hss) as Hr1. assert (Hi1 : out s1 !! i = Some m) by (destruct Hss as [-> _]; done).
  destruct (touch_run s1 se i m Hr1 Hi1) as (s2 & E2 & Hr2 & Hst2 & En).
  exists s2. split; [|split; [done|split; [by apply (stable_trans _ s1)|by rewrite En]]].
  unfold retry_message. rewrite (pbind_eq the_client _ s (client s) s) by done.
  rewrite (pbind_eq (pret true) _ s true s) by done. cbn iota. rewrite (pbind_eq _ _ _ _ _ (due_publish m s Hok)).
  destruct (due_release m) eqn:Ed; cbn [negb].
  - apply bool_decide_eq_true in Ed as [Hq2 Hst].
    assert (Eres : resend f = ack_packet PUBREL (m_msgid m)).
    { destruct Hfl as (b' & _ & ->). unfold resend. cbn. by rewrite bool_decide_eq_true_2. }
    rewrite Hq2, Hst. rewrite (pbind_eq _ _ s true s) by done.
    cbn iota. unfold MQTTPacket_send_pubrel. rewrite (ack_eq PUBREL _ Hid), <- Eres, (pbind_eq _ _ _ _ _ E1).
    change (negb (TCPSOCKET_COMPLETE =? TCPSOCKET_COMPLETE)) with false. cbn iota. by rewrite (pbind_eq _ _ _ _ _ E2).
  - rewrite (pbind_eq _ _ _ _ _ (load_pub_run _ _ _ Hb)).
    rewrite (resend_publish _ m f b Hb Hfl Hok (conj Hrc Hl) Hs Ed), (pbind_eq _ _ _ _ _ E1).
    change (TCPSOCKET_COMPLETE =? SOCKET_ERROR) with false. cbn iota.
    destruct (Z.eqb_spec (m_qos m) 0) as [Hq0|]; [destruct Hok as (_ & _ & [?|[? _]]); lia|]. cbn [andb].
    rewrite (pbind_eq (pret tt) _ s1 tt s1) by done. by rewrite (pbind_eq _ _ _ _ _ E2).
Qed.

(** The packets of some flows. *)
Definition resends (fs : list flow) : list Z := concat ((fun f => packet_bytes (resend f)) <$> fs).

(** A message is sent again, or it is not due. *)
Lemma retry_message_some now reg s se i m f w :
  represents s se -> out s !! i = Some m -> se_out se !! i = Some f -> short_topic f ->
  takes_all (socket (client s)) w (nt s) ->
  exists s' (b : bool), retry_message now reg i m s = Ret (true, s') /\ represents s' se /\ stable s s' /\
    takes_all (socket (client s)) (w ++ (if b then packet_bytes (resend f) else [])) (nt s') /\ (reg = true -> b = true).
Proof.
  intros Hr Hi Hf Hs Hn. destruct (retry_message_all now s se i m f w Hr Hi Hf Hs Hn) as (s' & E & ? & ? & ?).
  destruct reg; [by exists s', true|].
  destruct (Forall_lookup_1 _ _ _ _ (ok_out _ (re_ok _ _ Hr)) Hi) as ([t Ht] & _).
  destruct (Z.max (retryInterval (client s)) 10 <? now - t) eqn:Ed.
  - exists s', true. split; [|done]. rewrite <- E. unfold retry_message. rewrite !(pbind_eq the_client _ s (client s) s) by done.
    rewrite Ht. rewrite (pbind_eq _ _ s true s); [done|]. unfold pbind, plift, pret. cbn. by rewrite Ed.
  - exists s, false. split; [|split_and!; try done; by rewrite app_nil_r].
    unfold retry_message. rewrite !(pbind_eq the_client _ s (client s) s) by done.
    rewrite Ht. rewrite (pbind_eq _ _ s false s); [done|]. unfold pbind, plift, pret. cbn. by rewrite Ed.
Qed.

Lemma retries_loop_some now reg fuel : forall i s se w,
  represents s se -> connected (client s) = true -> good (client s) = true -> Forall short_topic (se_out se) ->
  takes_all (socket (client s)) w (nt s) -> (i <= length (out s))%nat -> (length (out s) < fuel + i)%nat ->
  exists s' fs, retries_loop fuel now reg i s = Ret (tt, s') /\ represents s' se /\ stable s s' /\
    takes_all (socket (client s)) (w ++ resends fs) (nt s') /\ fs `sublist_of` drop i (se_out se) /\
    (reg = true -> fs = drop i (se_out se)).
Proof.
  induction fuel as [|fuel IH]; intros i s se w Hr Hc Hg Hs Hn Hi Hf; [lia|]. cbn [retries_loop].
  rewrite (pbind_eq the_client _ s (client s) s) by done.
  pose proof (Forall2_length _ _ _ (re_out _ _ Hr)) as Hlen.
  destruct (out s !! i) as [m|] eqn:Em.
  2: { apply lookup_ge_None in Em. exists s, []. rewrite drop_ge, app_nil_r by lia. by split_and!. }
  rewrite Hc, Hg. cbn [andb]. destruct (noPendingWrites_all s w Hn) as (s1 & E1 & Hss & Hst1 & En1).
  rewrite (pbind_eq _ _ _ _ _ E1). pose proof (represents_frame _ _ _ Hr Hss) as Hr1.
  destruct (stable_flags _ _ Hst1) as (T1 & T2 & T3).
  destruct (Forall2_lookup_l _ _ _ _ _ (re_out _ _ Hr) Em) as (f & Ef & _).
  destruct (retry_message_some now reg s1 se i m f w) as (s2 & b & E2 & Hr2 & Hst2 & Hn2 & Hb); [done| |done| | |].
  { destruct Hss as [-> _]. done. } { by eapply Forall_lookup_1. } { by rewrite En1, T1. }
  rewrite (pbind_eq _ _ _ _ _ E2). pose proof (Forall2_length _ _ _ (re_out _ _ Hr2)) as Hlen2.
  pose proof (lookup_lt_Some _ _ _ Em) as Hlt. destruct (stable_flags _ _ Hst2) as (U1 & U2 & U3).
  destruct (IH (S i) s2 se (w ++ (if b then packet_bytes (resend f) else []))) as (s3 & fs & E3 & Hr3 & Hst3 & Hn3 & Hfs & Hall);
    try done; try congruence; try lia.
  exists s3, (if b then f :: fs else fs). split; [done|]. split; [done|].
  split; [eapply stable_trans; [exact Hst1|by eapply stable_trans]|]. rewrite (drop_S _ f) by done.
  split; [|split]; [| |intros Hreg; by rewrite (Hb Hreg), (Hall Hreg)].
  - rewrite <- T1, <- U1. rewrite <- app_assoc in Hn3. by destruct b.
  - destruct b; by constructor.
Qed.

(** What [MQTTProtocol_retry] puts on the wire. *)
Lemma retry_some now reg s se w :
  represents s se -> connected (client s) = true -> good (client s) = true ->
  Forall short_topic (se_out se) -> takes_all (socket (client s)) w (nt s) ->
  exists s' fs, MQTTProtocol_retry now true reg s = Ret (tt, s') /\ represents s' se /\ stable s s' /\
    takes_all (socket (client s)) (w ++ resends fs) (nt s') /\ fs `sublist_of` se_out se /\
    (reg = true -> fs = se_out se).
Proof.
  intros Hr Hc Hg Hs Hn. unfold MQTTProtocol_retry. rewrite (pbind_eq the_client _ s (client s) s) by done.
  rewrite Hc, Hg. cbn [negb]. destruct (noPendingWrites_all s w Hn) as (s1 & E1 & Hss & Hst1 & En1).
  rewrite (pbind_eq _ _ _ _ _ E1). cbn [negb]. unfold MQTTProtocol_retries.
  rewrite (pbind_eq the_client _ s1 (client s1) s1) by done. pose proof (represents_frame _ _ _ Hr Hss) as Hr1.
  destruct (stable_flags _ _ Hst1) as (T1 & T2 & T3).
  destruct (negb reg && (retryInterval (client s1) <=? 0)) eqn:Eoff.
  { exists s1, []. cbn. rewrite app_nil_r, En1. split_and!; try done; [apply sublist_nil_l|]. intros ->. done. }
  destruct (retries_loop_some now reg (S (length (out s1))) 0 s1 se w) as (s2 & fs & E2 & Hr2 & Hst2 & Hn2 & Hfs & Hall);
    try done; try congruence; try lia.
  exists s2, fs. rewrite T1, drop_0 in *. split_and!; try done. by apply (stable_trans _ s1).
Qed.

(** nothing is lost by a reconnection.  When the session is kept, [MQTTProtocol_retry] sends again
    on the new connection every message that is not acknowledged, in the order they were started: the
    PUBLISH with the duplicate flag, or the PUBREL when the server has received the message; the bytes
    of these packets and no others are on the wire, and the session is as before. *)
Theorem retry_resends (now : Z) (s : mqtt) (se : session) (w : list Z) :
  represents s se -> connected (client s) = true -> good (client s) = true ->
  Forall short_topic (se_out se) -> takes_all (socket (client s)) w (nt s) ->
  exists s', MQTTProtocol_retry now true true s = Ret (tt, s') /\ represents s' se /\
    takes_all (socket (client s)) (w ++ concat ((fun f => packet_bytes (resend f)) <$> se_out se)) (nt s').
Proof.
  intros Hr Hc Hg Hs Hn. destruct (retry_some now true s se w Hr Hc Hg Hs Hn) as (s' & fs & E & Hr' & _ & Hn' & _ & Hall).
  exists s'. by rewrite (Hall eq_refl) in Hn'.
Qed.

(** A message of each kind in flight. *)
Definition example_flows : mqtt :=
  let c := client example_state in
  let msg q id p st := Message q 0 id p (Some 0) st in
  set_pubs (<[0%nat := Pub (str "/a") 2 [1] 1 1]> (<[1%nat := Pub (str "/b") 2 [2] 1 1]> (pubs example_state)))
    (CList [0%nat; 1%nat] None [])
    (upd_client (set_outbound (CList [msg 1 1 0%nat None; msg 2 2 1%nat (Some PUBCOMP)] None [])) example_state).

Lemma retry_resends_witness :
  (exists s', MQTTProtocol_retry 100 true true example_flows = Ret (tt, s') /\
    takes_all 5 ([] ++ [0x3a; 7; 0; 2; 47; 97; 0; 1; 1; 0x62; 2; 0; 2]) (nt s')).
Proof.
  destruct (retry_resends 100 example_flows
    (Session [Flow 1 1 0 (str "/a") 2 [1] None; Flow 2 2 0 (str "/b") 2 [2] (Some PUBCOMP)] [] []) [])
    as (s' & E & _ & H).
  - split; [split| | |reflexivity].
    + apply Forall_cons_2; [|apply Forall_cons_2; [|apply Forall_nil_2]]; (split; [by eexists|]); (split; [by vm_compute|]).
      * by left.
      * right. split; [done|by right].
    + constructor.
    + vm_compute. apply NoDup_cons_2; [|apply NoDup_cons_2; [|apply NoDup_nil_2]]; set_solver.
    + constructor.
    + vm_compute. apply NoDup_cons_2; [|apply NoDup_cons_2; [|apply NoDup_nil_2]]; set_solver.
    + reflexivity.
    + intros p. unfold example_flows. cbn. rewrite !lookup_insert_is_Some, lookup_empty. set_solver.
    + repeat apply map_Forall_insert_2; try done. 
    + repeat constructor; eexists; split; reflexivity.
    + constructor.
  - reflexivity.
  - reflexivity.
  - repeat constructor.
  - repeat split.
  - exists s'. split; [exact E|exact H].
Defined.
