(* ===== verification/MqttAsync.v ===== *)
(** * MqttAsync: the asynchronous client (MQTTAsync.c, MQTTProtocol_connect of MQTTProtocolOut.c)

    The API calls, the command queue, and the bodies of the loops of the send and the receive thread,
    for the one client the program creates.  The threads work in sections that hold [mqttasync_mutex]:
    [MQTTAsync_processCommand], [MQTTAsync_checkTimeouts], [MQTTAsync_cycle] after its call of
    [Socket_getReadySocket], and the part of [MQTTAsync_receiveThread] behind it, here [finish_cycle].
    The calls of the application hold it only in [MQTTAsync_assignMsgId]; they read [connected] and check
    their arguments without it, and [MQTTAsync_addCommand] holds [mqttcommand_mutex] only.  So each call
    is a definition for what it checks, one for the identifier and one for what it queues, and is their
    composition.  [MqttClient] interleaves the sections and the parts of the calls.  Callbacks of the
    application are logged. *)

From Stdlib Require Import ZArith Lia String.
From stdpp Require Import base tactics numbers list gmap.
From S2P Require Import Prelude LinkedList Utf8 MqttPacket SockBuf MqttRead MqttProto.

Definition MQTTASYNC_SUCCESS : Z := 0.
Definition MQTTASYNC_FAILURE : Z := -1.
Definition MQTTASYNC_BAD_UTF8_STRING : Z := -5.
Definition MQTTASYNC_NULL_PARAMETER : Z := -6.
Definition MQTTASYNC_BAD_STRUCTURE : Z := -8.
Definition MQTTASYNC_BAD_QOS : Z := -9.
Definition MQTTASYNC_NO_MORE_MSGIDS : Z := -10.
Definition MQTTVERSION_DEFAULT : Z := 0.
Definition MQTTVERSION_3_1 : Z := 3.
Definition MQTTVERSION_3_1_1 : Z := 4.
Definition MQTT_BAD_SUBSCRIBE : Z := 0x80.
Definition EINPROGRESS : Z := 115.
Definition EWOULDBLOCK : Z := 11.
Definition DEFAULT_PORT : Z := 1883.

(** ** The fields *)

Definition set_connect (c : command) (a : asyncs) : asyncs :=
  Asyncs (serverURI a) (commands a) (responses a) c (disconnect a) (pending_write a) (dc a) (next_addr a) (calls a)
    (new_results a) (so_errors a) (last_retry a) (last_timeouts a).
Definition set_disconnect (c : command) (a : asyncs) : asyncs :=
  Asyncs (serverURI a) (commands a) (responses a) (connect a) c (pending_write a) (dc a) (next_addr a) (calls a)
    (new_results a) (so_errors a) (last_retry a) (last_timeouts a).
Definition set_pending_write (w : option nat) (a : asyncs) : asyncs :=
  Asyncs (serverURI a) (commands a) (responses a) (connect a) (disconnect a) w (dc a) (next_addr a) (calls a)
    (new_results a) (so_errors a) (last_retry a) (last_timeouts a).
Definition add_call (c : call) (a : asyncs) : asyncs :=
  Asyncs (serverURI a) (commands a) (responses a) (connect a) (disconnect a) (pending_write a) (dc a) (next_addr a)
    (calls a ++ [c]) (new_results a) (so_errors a) (last_retry a) (last_timeouts a).
Definition set_results (r : list (Z * Z)) (e : list Z) (a : asyncs) : asyncs :=
  Asyncs (serverURI a) (commands a) (responses a) (connect a) (disconnect a) (pending_write a) (dc a) (next_addr a)
    (calls a) r e (last_retry a) (last_timeouts a).
Definition set_lasts (r t : Z) (a : asyncs) : asyncs :=
  Asyncs (serverURI a) (commands a) (responses a) (connect a) (disconnect a) (pending_write a) (dc a) (next_addr a)
    (calls a) (new_results a) (so_errors a) r t.

Definition set_socket (s : Z) (c : Clients) : Clients :=
  Client (clientID c) (username c) (password c) (will c) (MQTTVersion c) s (lastSent c) (lastReceived c)
    (cleansession c) (connected c) (good c) (ping_outstanding c) (connect_state c) (msgID c) (keepAliveInterval c)
    (retryInterval c) (inboundMsgs c) (outboundMsgs c) (messageQueue c).
Definition set_connect_state (cs : Z) (c : Clients) : Clients :=
  set_flags (connected c) (good c) (ping_outstanding c) cs c.

(** A callback of the application. *)
Definition call_back (c : call) : M unit := upd_api (add_call c).

(** ** Lists of commands *)

(** [ListDetach] of the command at a position, which is found by its address. *)
Definition detach_at {A : Type} (i : nat) (l : clist (A:=A)) : clist (A:=A) :=
  CList (delete i (items l)) (c_moved i l) (released l).

(** The command with an address; it must not have been freed. *)
Definition load_response (a : nat) : M command :=
  let* s := pget in
  plift (deref (snd <$> list_find (fun c => cmd_addr c = a) (items (responses (api s))))).

(** The details of a CONNECT command. *)
Definition conn_details (c : command) : outcome (Z * Z * list (list Z) * Z) :=
  match cmd_details c with
  | DConnect timeout version uris current => Ret (timeout, version, uris, current)
  | _ => Fault
  end.

Definition MQTTAsync_elapsed (start : Z) : M Z := let* s := pget in pret (clock s - start).

(** ** Connecting *)

(** [Socket_close]: the kernel drops what the connection still held. *)
Definition Socket_close (socket : Z) (n : net) : net :=
  let n1 := SocketBuffer_cleanup socket (remove_pending socket n) in set_in (delete socket (n_in n1)) n1.

Definition URI_TCP : list Z := str "tcp://".
Definition strip_tcp (uri : list Z) : list Z :=
  if prefixb URI_TCP uri then drop (length URI_TCP) uri else uri.

Definition connect_data_of (c : Clients) : connect_data :=
  ConnectData (clientID c) (username c) (password c) (if cleansession c then 1 else 0) (keepAliveInterval c) (will c).

(** [MQTTPacket_send_connect]: the packet is made and sent. *)
Definition send_connect (version : Z) : M Z :=
  let* c := the_client in
  let* r := plift (MQTTPacket_send_connect (connect_data_of c) version) in
  match r with
  | None => pret SOCKET_ERROR
  | Some (h, buf) => send (Ret (h, [buf]))
  end.

(** [Socket_new]: its result and the socket. *)
Definition Socket_new : M (Z * Z) :=
  let* s := pget in
  match new_results (api s) with
  | [] => pret (SOCKET_ERROR, -1)
  | r :: rest => upd_api (fun a => set_results rest (so_errors a) a) >>; pret r
  end.

Definition MQTTProtocol_connect (version : Z) : M Z :=
  pclient (fun c => set_flags (connected c) true (ping_outstanding c) (connect_state c) c) >>;
  let* (rc, sock) := Socket_new in
  pclient (set_socket sock) >>;
  if (rc =? EINPROGRESS) || (rc =? EWOULDBLOCK) then pclient (set_connect_state 1) >>; pret rc
  else if rc =? 0 then
    let* rc := send_connect version in
    pclient (set_connect_state (if rc =? 0 then 3 else 0)) >>; pret rc
  else pret rc.

(** Whether there is another server or another version to try. *)
Definition MQTTAsync_checkConn (c : command) : M bool :=
  let* (timeout, version, uris, current) := plift (conn_details c) in
  let* cl := the_client in
  pret ((current <? Z.of_nat (length uris)) || ((version =? 4) && (MqttProto.MQTTVersion cl =? MQTTVERSION_DEFAULT))).

(** ** Closing *)

Definition MQTTAsync_emptyMessageQueue : M unit := pclient (set_queue []).

Definition MQTTAsync_removeResponsesAndCommands : M unit :=
  upd_api (fun a => set_responses (c_empty (responses a)) a) >>;
  upd_api (fun a => set_commands (Nat.iter (length (items (commands a))) (detach_at 0) (commands a)) a).

Definition MQTTAsync_cleanSession : M Z :=
  let* c := the_client in
  let* l := MQTTProtocol_emptyMessageList (inboundMsgs c) in
  pclient (set_inbound l) >>;
  let* c := the_client in
  let* l := MQTTProtocol_emptyMessageList (outboundMsgs c) in
  pclient (set_outbound l) >>;
  MQTTAsync_emptyMessageQueue >>;
  pclient (set_msgID 0) >>;
  MQTTAsync_removeResponsesAndCommands >>;
  pret 0.

Definition MQTTAsync_closeOnly : M unit :=
  pclient (fun c => set_flags (connected c) false false (connect_state c) c) >>;
  let* c := the_client in
  (if 0 <? socket c then
     (if connected c then send MQTTPacket_send_disconnect >>; pret tt else pret tt) >>;
     pmod (fun s => set_nt (Socket_close (socket (client s)) (nt s)) s) >>;
     pclient (set_socket 0)
   else pret tt) >>;
  pclient (fun c => set_flags false (good c) (ping_outstanding c) 0 c).

Definition MQTTAsync_closeSession : M unit :=
  MQTTAsync_closeOnly >>;
  let* c := the_client in
  if cleansession c then MQTTAsync_cleanSession >>; pret tt else pret tt.

(** All flows are finished, or the time is over. *)
Definition MQTTAsync_checkDisconnect (c : command) : M unit :=
  match cmd_details c with
  | DDisconnect internal timeout =>
      let* cl := the_client in
      let* e := MQTTAsync_elapsed (cmd_start_time c) in
      if bool_decide (length (items (outboundMsgs cl)) = 0%nat) || (timeout <=? e) then
        MQTTAsync_closeSession >>;
        if internal && connected cl then call_back CConnectionLost
        else if negb internal && cmd_onSuccess c then call_back CDisconnected
        else pret tt
      else pret tt
  | _ => plift Fault
  end.

(** The code that follows a failed attempt to connect in [MQTTAsync_checkTimeouts], [MQTTAsync_connecting],
    [MQTTAsync_cycle] and [MQTTAsync_receiveThread]: try again, or give up. *)
Definition next_connection (code : option Z) : M unit :=
  let* s := pget in
  let c := connect (api s) in
  let* more := MQTTAsync_checkConn c in
  if more then
    MQTTAsync_closeOnly >>;
    let* conn := new_command (cmd_token c) (cmd_onSuccess c) (cmd_onFailure c) (cmd_details c) in
    MQTTAsync_addCommand conn >>; pret tt
  else
    MQTTAsync_closeSession >>;
    if cmd_onFailure c then call_back (CConnectFailed code) else pret tt.

(** ** The send thread *)

(** The loop of [MQTTAsync_processCommand] that looks for a command, from position [i] on: only the first
    command of a client is tried. *)
Fixpoint pick_command (l : list command) (i : nat) (ignored : bool) : M (option (nat * command)) :=
  match l with
  | [] => pret None
  | cmd :: l' =>
      if ignored then pick_command l' (S i) ignored
      else
        let t := command_type (cmd_details cmd) in
        let* c := the_client in
        let* ready := (if (t =? CONNECT) || (t =? DISCONNECT) then pret true
                       else if connected c && (connect_state c =? 0) then noPendingWrites else pret false) in
        if ready &&
           negb (((t =? PUBLISH) || (t =? SUBSCRIBE) || (t =? UNSUBSCRIBE)) &&
                 (MAX_MSG_ID - 1 <=? Z.of_nat (length (items (outboundMsgs c)))))
        then pret (Some (i, cmd))
        else pick_command l' (S i) true
  end.

(** The CONNECT branch of [MQTTAsync_processCommand]: the next server and version; the command with them. *)
Definition process_connect (command : command) : M (Z * MqttProto.command) :=
  let* (timeout, version, uris, current) := plift (conn_details command) in
  let* c := the_client in
  if negb (connect_state c =? 0) || connected c then pret (0, command)
  else
    let '(version1, current1) :=
      if bool_decide (uris = []) then (version, current)
      else if MqttProto.MQTTVersion c =? MQTTVERSION_DEFAULT then
        (if version =? 3 then (4, current + 1) else (version, current))
      else (version, current + 1) in
    (if bool_decide (uris = []) then pret tt
     else if current1 <? 0 then plift Fault
     else let* _ := plift (deref (uris !! Z.to_nat current1)) in pret tt) >>;
    let version2 :=
      if MqttProto.MQTTVersion c =? MQTTVERSION_DEFAULT then
        (if version1 =? 0 then MQTTVERSION_3_1_1
         else if version1 =? MQTTVERSION_3_1_1 then MQTTVERSION_3_1 else version1)
      else MqttProto.MQTTVersion c in
    let command1 := Command (cmd_addr command) (cmd_token command) (cmd_start_time command)
      (cmd_onSuccess command) (cmd_onFailure command) (DConnect timeout version2 uris current1) in
    let* rc := MQTTProtocol_connect version2 in
    let* c := the_client in
    pret (if connect_state c =? 0 then SOCKET_ERROR else rc, command1).

(** The PUBLISH branch; the topic is no longer the command's unless the packet was written at once.
    [topiclen] is not initialised and not used. *)
Definition process_publish (command : command) (destinationName : option (list Z)) (payloadlen : Z)
    (payload : list Z) (qos retained : Z) : M (Z * MqttProto.command) :=
  let* topic := plift (deref destinationName) in
  let* rc := MQTTProtocol_startPublish (MkPublish 0 topic 0 (cmd_token command) payload payloadlen) qos retained None in
  let taken := Command (cmd_addr command) (cmd_token command) (cmd_start_time command)
    (cmd_onSuccess command) (cmd_onFailure command) (DPublish None payloadlen payload qos retained) in
  if qos =? 0 then
    if rc =? TCPSOCKET_COMPLETE then
      (if cmd_onSuccess command
       then call_back (CSent (cmd_token command) destinationName payload qos retained) else pret tt) >>;
      pret (rc, command)
    else upd_api (set_pending_write (Some (cmd_addr command))) >>; pret (rc, taken)
  else pret (rc, taken).

(** What is done with a command: its result, and the command as it is afterwards. *)
Definition process_details (command : command) : M (Z * MqttProto.command) :=
  match cmd_details command with
  | DConnect _ _ _ _ => process_connect command
  | DSubscribe topics qoss =>
      let* rc := MQTTProtocol_subscribe topics qoss (cmd_token command) in pret (rc, command)
  | DUnsubscribe topics =>
      let* rc := MQTTProtocol_unsubscribe topics (cmd_token command) in pret (rc, command)
  | DPublish destinationName payloadlen payload qos retained =>
      process_publish command destinationName payloadlen payload qos retained
  | DDisconnect _ _ =>
      let* c := the_client in
      (if negb (connect_state c =? 0) || connected c then
         pclient (set_connect_state (-2)) >>; MQTTAsync_checkDisconnect command
       else pret tt) >>;
      pret (0, command)
  end.

Definition MQTTASYNC_PERSISTENCE_ERROR : Z := -2.

(** The end of [MQTTAsync_processCommand]: the command is kept, waits for its response, or failed. *)
Definition finish_command (rc : Z) (command : command) : M unit :=
  let t := command_type (cmd_details command) in
  let failed := (rc =? SOCKET_ERROR) || (rc =? MQTTASYNC_PERSISTENCE_ERROR) in
  let respond := upd_api (fun a => set_responses (c_append command (responses a)) a) in
  if (t =? CONNECT) && negb failed then upd_api (set_connect command)
  else if t =? DISCONNECT then upd_api (set_disconnect command)
  else if match cmd_details command with DPublish _ _ _ qos _ => qos =? 0 | _ => false end then
    if rc =? TCPSOCKET_INTERRUPTED then respond else pret tt
  else if failed then
    (if t =? CONNECT then MQTTAsync_disconnect1 false false 0 else MQTTAsync_disconnect_internal 0) >>;
    let* more := (if t =? CONNECT then MQTTAsync_checkConn command else pret false) in
    if more then MQTTAsync_addCommand command >>; pret tt
    else if cmd_onFailure command
    then call_back (if t =? CONNECT then CConnectFailed None else CFailed (cmd_token command)) else pret tt
  else respond.

Definition MQTTAsync_processCommand : M unit :=
  let* s := pget in
  let* found := pick_command (items (commands (api s))) 0 false in
  match found with
  | None => pret tt
  | Some (i, command) =>
      upd_api (fun a => set_commands (detach_at i (commands a)) a) >>;
      let* (rc, command) := process_details command in
      finish_command rc command
  end.

(** The time-outs of responses are switched off in the code. *)
Definition MQTTAsync_checkTimeouts : M unit :=
  let* now := time in
  let* s := pget in
  if now - last_timeouts (api s) <? 3 then pret tt
  else
    upd_api (fun a => set_lasts (last_retry a) now a) >>;
    let* c := the_client in
    let* e := MQTTAsync_elapsed (cmd_start_time (connect (api s))) in
    let* (timeout, version, uris, current) := plift (conn_details (connect (api s))) in
    if negb (connect_state c =? 0) && (timeout * 1000 <? e) then next_connection None
    else if connect_state c =? -2 then MQTTAsync_checkDisconnect (disconnect (api s))
    else pret tt.

(** ** The receive thread *)

(** A write that was interrupted is complete.  The loop over the responses compares the pending write of
    the client with itself, so that it stops at the first response. *)
Definition MQTTAsync_writeComplete (sock : Z) : M unit :=
  MQTTProtocol_checkPendingWrites >>;
  let* c := the_client in
  if negb (socket c =? sock) then pret tt
  else
    let* t := time in
    pclient (fun c => set_times t (lastReceived c) c) >>;
    let* s := pget in
    match pending_write (api s) with
    | None => pret tt
    | Some a =>
        match items (responses (api s)) with
        | [] => plift Fault
        | com :: _ =>
            let* command := load_response a in
            (if cmd_onSuccess command then
               match cmd_details command with
               | DPublish d _ payload qos retained => call_back (CSent (cmd_token command) d payload qos retained)
               | _ => plift Fault
               end
             else pret tt) >>;
            upd_api (set_pending_write None) >>;
            upd_api (fun a => set_responses (detach_at 0 (responses a)) a)
        end
    end.

Definition MQTTAsync_completeConnection (connack : Connack) : M Z :=
  let* c := the_client in
  if connect_state c =? 3 then
    if c_rc connack =? MQTTASYNC_SUCCESS then
      pclient (fun c => set_flags true true (ping_outstanding c) 0 c) >>;
      let* c := the_client in
      let* rc := (if cleansession c then MQTTAsync_cleanSession else pret MQTTASYNC_SUCCESS) in
      let* c := the_client in
      if bool_decide (length (items (outboundMsgs c)) = 0%nat) then pret rc
      else
        pclient (fun c => set_outbound (CList
          ((fun m => Message (m_qos m) (m_retain m) (m_msgid m) (m_publish m) (Some 0) (m_nextMessageType m)) <$>
             items (outboundMsgs c)) (cursor (outboundMsgs c)) (released (outboundMsgs c))) c) >>;
        MQTTProtocol_retry 0 true true >>;
        let* c := the_client in
        pret (if connected c then rc else MQTTASYNC_DISCONNECTED)
    else pret (c_rc connack)
  else pret MQTTASYNC_FAILURE.

Definition MQTTAsync_retry : M unit :=
  let* now := time in
  let* s := pget in
  if 5 <? now - last_retry (api s) then
    upd_api (fun a => set_lasts now (last_timeouts a) a) >>;
    MQTTProtocol_keepalive now >>;
    MQTTProtocol_retry now true false
  else MQTTProtocol_retry now false false.

(** [getsockopt (..., SO_ERROR, ...)], which succeeds. *)
Definition getsockopt_error : M Z :=
  let* s := pget in
  match so_errors (api s) with
  | [] => pret 0
  | e :: rest => upd_api (fun a => set_results (new_results a) rest a) >>; pret e
  end.

Definition MQTTAsync_connecting : M Z :=
  let* s := pget in
  let* rc := (if connect_state (client s) =? 1 then
                let* rc := getsockopt_error in
                if negb (rc =? 0) then pret rc
                else
                  pclient (set_connect_state 3) >>;
                  let* (timeout, version, uris, current) := plift (conn_details (connect (api s))) in
                  send_connect version
              else pret (-1)) in
  let* c := the_client in
  (if negb (rc =? 0) && negb (rc =? TCPSOCKET_INTERRUPTED) && negb (connect_state c =? 2)
   then next_connection None else pret tt) >>;
  pret rc.

(** [MQTTPacket_Factory] on the connection of the client. *)
Definition read_from (sock : Z) : M (option packet * Z) :=
  let* s := pget in
  let* (pack, error, n) := plift (MQTTPacket_Factory sock (nt s)) in
  pmod (set_nt n) >>;
  (match pack with
   | None => pret tt
   | Some _ => let* t := time in pclient (fun c => set_times (lastSent c) t c)
   end) >>;
  pret (pack, error).

(** The loops that look for the command of a message identifier: it is taken out of the responses. *)
Definition take_response (msgid : Z) : M (option command) :=
  let* s := pget in
  match list_find (fun c => cmd_token c = msgid) (items (responses (api s))) with
  | Some (i, c) => upd_api (fun a => set_responses (detach_at i (responses a)) a) >>; pret (Some c)
  | None => pret None
  end.

(** What a PUBACK or a PUBCOMP tells the application. *)
Definition delivered (msgid : Z) : M unit :=
  let* s := pget in
  (if dc (api s) then call_back (CDelivered msgid) else pret tt) >>;
  let* r := take_response msgid in
  match r with
  | Some c =>
      if cmd_onSuccess c then
        match cmd_details c with
        | DPublish d _ payload qos retained => call_back (CSent (cmd_token c) d payload qos retained)
        | _ => call_back (CMisread (cmd_token c))
        end
      else pret tt
  | None => pret tt
  end.

(** The packet is handled, unless it is one for the receive thread; the packet that is left. *)
Definition handle_packet (pack : packet) (sock rc : Z) : M (option packet * Z) :=
  match pack with
  | PkPublish p => let* rc := MQTTProtocol_handlePublishes p sock in pret (None, rc)
  | PkAck a =>
      let t := hd_type (a_header a) in
      if (t =? PUBACK) || (t =? PUBCOMP) then
        let* rc := (if t =? PUBCOMP then MQTTProtocol_handlePubcomps a sock
                    else MQTTProtocol_handlePubacks a sock) in
        delivered (a_msgId a) >>; pret (None, rc)
      else if t =? PUBREC then let* rc := MQTTProtocol_handlePubrecs a sock in pret (None, rc)
      else if t =? PUBREL then let* rc := MQTTProtocol_handlePubrels a sock in pret (None, rc)
      else pret (Some pack, rc)
  | PkHeader h =>
      if hd_type h =? PINGRESP then let* rc := MQTTProtocol_handlePingresps sock in pret (None, rc)
      else pret (Some pack, rc)
  | _ => pret (Some pack, rc)
  end.

(** [MQTTAsync_cycle] once a socket is ready, 0 when none is. *)
Definition MQTTAsync_cycle (sock : Z) : M (option packet * Z) :=
  let* r := (if 0 <? sock then
    let* c := the_client in
    let found := socket c =? sock in
    let* (pack, rc) := (if found then
        let* (pack, rc) := (if (connect_state c =? 1) || (connect_state c =? 2)
          then let* rc := MQTTAsync_connecting in pret (None, rc) else read_from sock) in
        let* c := the_client in
        (if (connect_state c =? 3) && (rc =? SOCKET_ERROR) then next_connection None else pret tt) >>;
        pret (pack, rc)
      else pret (None, SOCKET_ERROR)) in
    match pack with
    | Some p => handle_packet p sock rc
    | None => pret (None, rc)
    end
  else pret (None, SOCKET_ERROR)) in
  MQTTAsync_retry >>; pret r.

(** The first message that waits is offered again. *)
Definition offer_message : M unit :=
  let* c := the_client in
  match messageQueue c with
  | [] => pret tt
  | am :: _ =>
      let topiclen := if Z.of_nat (length (am_topic am)) =? am_topiclen am then 0 else am_topiclen am in
      let* rc := MQTTAsync_deliverMessage
        (AppMessage (am_topic am) topiclen (am_payload am) (am_payloadlen am) (am_qos am) (am_retained am) (am_dup am)
          (am_msgid am)) in
      if rc then pclient (fun c => set_queue (drop 1 (messageQueue c)) c) else pret tt
  end.

(** The packets [MQTTAsync_receiveThread] handles itself. *)
Definition receive_connack (p : Connack) : M unit :=
  let* rc := MQTTAsync_completeConnection p in
  if rc =? MQTTASYNC_SUCCESS then
    let* s := pget in
    let c := connect (api s) in
    let* (timeout, version, uris, current) := plift (conn_details c) in
    if cmd_onSuccess c then
      let* uri := (if bool_decide (uris = []) then pret (serverURI (api s))
                   else if current <? 0 then plift Fault else plift (deref (uris !! Z.to_nat current))) in
      call_back (CConnected uri version (Z.land (c_flags p) 1))
    else pret tt
  else next_connection (Some rc).

Definition receive_suback (p : Suback) : M unit :=
  let* r := take_response (s_msgId p) in
  (match r with
   | Some c =>
       match s_qoss p with
       | [qos] =>
           if qos =? MQTT_BAD_SUBSCRIBE
           then (if cmd_onFailure c then call_back (CSubscribeFailed (cmd_token c) qos) else pret tt)
           else (if cmd_onSuccess c then call_back (CSubscribed (cmd_token c) [qos]) else pret tt)
       | qoss => if cmd_onSuccess c then call_back (CSubscribed (cmd_token c) qoss) else pret tt
       end
   | None => pret tt
   end) >>;
  let* c := the_client in
  MQTTProtocol_handleSubacks (socket c) >>; pret tt.

Definition receive_unsuback (p : Ack) : M unit :=
  let* r := take_response (a_msgId p) in
  let* c := the_client in
  MQTTProtocol_handleUnsubacks (socket c) >>;
  match r with
  | Some cmd => if cmd_onSuccess cmd then call_back (CUnsubscribed (cmd_token cmd)) else pret tt
  | None => pret tt
  end.

(** The section of [MQTTAsync_receiveThread] after [MQTTAsync_cycle], up to the end of the turn or to the
    place where the mutex is released around [MQTTAsync_disconnect_internal]: the result says which. *)
Definition finish_cycle (sock : Z) (pack : option packet) (rc : Z) : M bool :=
  if sock =? 0 then pret false
  else
    let* c := the_client in
    if negb (socket c =? sock) then pret false
    else if rc =? SOCKET_ERROR then
      if connected c then pret true else MQTTAsync_closeOnly >>; pret false
    else
      offer_message >>;
      match pack with
      | Some (PkConnack p) => receive_connack p
      | Some (PkSuback p) => receive_suback p
      | Some (PkAck p) => if hd_type (a_header p) =? UNSUBACK then receive_unsuback p else pret tt
      | _ => pret tt
      end >>;
      pret false.

(** [Socket_getReadySocket] completes the writes of the sockets that are writable before it looks for
    input. *)
Fixpoint complete_writes (socks : list Z) : M unit :=
  match socks with
  | [] => pret tt
  | sock :: socks' => MQTTAsync_writeComplete sock >>; complete_writes socks'
  end.

Definition continue_writes (pwset : list Z) : M unit :=
  let* s := pget in
  let* (socks, n) := plift (Socket_continueWrites pwset (nt s)) in
  pmod (set_nt n) >>; complete_writes socks.

(** ** The API *)

(** The callbacks of [MQTTAsync_responseOptions], when there are any. *)
Record responseOptions : Type := ResponseOptions { ro_onSuccess : bool; ro_onFailure : bool }.

Definition on_success (r : option responseOptions) : bool := match r with Some o => ro_onSuccess o | None => false end.
Definition on_failure (r : option responseOptions) : bool := match r with Some o => ro_onFailure o | None => false end.

(** A C string of the application. *)
Definition valid_utf8 (s : list Z) : M bool := plift (UTF8_validateString (s ++ [0])).

(** The loop over the topics of [MQTTAsync_subscribeMany] and [MQTTAsync_unsubscribeMany]; the error, or 0. *)
Fixpoint check_topics (topics : list (list Z)) (qoss : list Z) : M Z :=
  match topics, qoss with
  | topic :: topics', qos :: qoss' =>
      let* ok := valid_utf8 topic in
      if negb ok then pret MQTTASYNC_BAD_UTF8_STRING
      else if (qos <? 0) || (2 <? qos) then pret MQTTASYNC_BAD_QOS
      else check_topics topics' qoss'
  | [], _ => pret 0
  | _, [] => plift Fault
  end.

(** What [MQTTAsync_subscribeMany] and [MQTTAsync_unsubscribeMany] check, without the mutex; the error, or 0. *)
Definition check_many (topics : list (list Z)) (qoss : list Z) : M Z :=
  let* c := the_client in
  if negb (connected c) then pret MQTTASYNC_DISCONNECTED else check_topics topics qoss.

(** The request is made and queued. *)
Definition queue_subscribe (msgid : Z) (topics : list (list Z)) (qoss : list Z) (response : option responseOptions) :
    M Z :=
  let* sub := new_command msgid (on_success response) (on_failure response)
    (DSubscribe topics (take (length topics) qoss)) in
  MQTTAsync_addCommand sub.

Definition MQTTAsync_subscribeMany (topics : list (list Z)) (qoss : list Z) (response : option responseOptions) : M Z :=
  let* rc := check_many topics qoss in
  if negb (rc =? 0) then pret rc
  else
    let* msgid := MQTTAsync_assignMsgId in
    if msgid =? 0 then pret MQTTASYNC_NO_MORE_MSGIDS else queue_subscribe msgid topics qoss response.

Definition MQTTAsync_subscribe (topic : list Z) (qos : Z) (response : option responseOptions) : M Z :=
  MQTTAsync_subscribeMany [topic] [qos] response.

Definition queue_unsubscribe (msgid : Z) (topics : list (list Z)) (response : option responseOptions) : M Z :=
  let* unsub := new_command msgid (on_success response) (on_failure response) (DUnsubscribe topics) in
  MQTTAsync_addCommand unsub.

Definition MQTTAsync_unsubscribeMany (topics : list (list Z)) (response : option responseOptions) : M Z :=
  let* rc := check_many topics (replicate (length topics) 0) in
  if negb (rc =? 0) then pret rc
  else
    let* msgid := MQTTAsync_assignMsgId in
    if msgid =? 0 then pret MQTTASYNC_NO_MORE_MSGIDS else queue_unsubscribe msgid topics response.

Definition MQTTAsync_unsubscribe (topic : list Z) (response : option responseOptions) : M Z :=
  MQTTAsync_unsubscribeMany [topic] response.

(** What [MQTTAsync_send] checks, without the mutex; the error, or 0. *)
Definition check_send (destinationName : list Z) (qos : Z) : M Z :=
  let* c := the_client in
  if negb (connected c) then pret MQTTASYNC_DISCONNECTED
  else
    let* ok := valid_utf8 destinationName in
    pret (if negb ok then MQTTASYNC_BAD_UTF8_STRING
          else if (qos <? 0) || (2 <? qos) then MQTTASYNC_BAD_QOS else 0).

Definition queue_publish (msgid : Z) (destinationName : list Z) (payloadlen : Z) (payload : list Z)
    (qos retained : Z) (response : option responseOptions) : M Z :=
  let* copy := plift (if payloadlen <? 0 then Fault else read_bytes payload 0 (Z.to_nat payloadlen)) in
  let* pub := new_command msgid (on_success response) (on_failure response)
    (DPublish (Some destinationName) payloadlen copy qos retained) in
  MQTTAsync_addCommand pub.

Definition MQTTAsync_send (destinationName : list Z) (payloadlen : Z) (payload : list Z) (qos retained : Z)
    (response : option responseOptions) : M Z :=
  let* rc := check_send destinationName qos in
  if negb (rc =? 0) then pret rc
  else
    let* msgid := (if 0 <? qos then MQTTAsync_assignMsgId else pret 0) in
    if (0 <? qos) && (msgid =? 0) then pret MQTTASYNC_NO_MORE_MSGIDS
    else queue_publish msgid destinationName payloadlen payload qos retained response.

(** [MQTTAsync_message] with its head. *)
Record message : Type := Msg {
  msg_struct_id : list Z;
  msg_struct_version : Z;
  msg_payloadlen : Z;
  msg_payload : list Z;
  msg_qos : Z;
  msg_retained : Z
}.

(** What [MQTTAsync_sendMessage] checks of the message; the error, or 0. *)
Definition check_message (m : option message) : Z :=
  match m with
  | None => MQTTASYNC_NULL_PARAMETER
  | Some m =>
      if negb (bool_decide (msg_struct_id m = str "MQTM")) || negb (msg_struct_version m =? 0)
      then MQTTASYNC_BAD_STRUCTURE else 0
  end.

Definition MQTTAsync_sendMessage (destinationName : list Z) (m : option message) (response : option responseOptions) :
    M Z :=
  let rc := check_message m in
  if negb (rc =? 0) then pret rc
  else
    let* m := plift (deref m) in
    MQTTAsync_send destinationName (msg_payloadlen m) (msg_payload m) (msg_qos m) (msg_retained m) response.

(** [MQTTAsync_willOptions] and [MQTTAsync_connectOptions], without TLS. *)
Record willOptions : Type := WillOptions {
  wo_struct_id : list Z;
  wo_struct_version : Z;
  wo_topicName : list Z;
  wo_message : list Z;
  wo_retained : Z;
  wo_qos : Z
}.

Record connectOptions : Type := ConnectOptions {
  co_struct_id : list Z;
  co_struct_version : Z;
  co_keepAliveInterval : Z;
  co_cleansession : bool;
  co_will : option willOptions;
  co_username : option (list Z);
  co_password : option (list Z);
  co_connectTimeout : Z;
  co_retryInterval : Z;
  co_onSuccess : bool;
  co_onFailure : bool;
  co_serverURIs : list (list Z);
  co_MQTTVersion : Z
}.

(** The checks of [MQTTAsync_connect]; the error, or 0. *)
Definition check_options (o : connectOptions) : M Z :=
  if negb (bool_decide (co_struct_id o = str "MQTC")) ||
     negb ((co_struct_version o =? 0) || (co_struct_version o =? 1) || (co_struct_version o =? 2) ||
           (co_struct_version o =? 3))
  then pret MQTTASYNC_BAD_STRUCTURE
  else
    let* rc := match co_will o with
               | Some w =>
                   pret (if negb (bool_decide (wo_struct_id w = str "MQTW")) || negb (wo_struct_version w =? 0)
                         then MQTTASYNC_BAD_STRUCTURE
                         else if (wo_qos w <? 0) || (2 <? wo_qos w) then MQTTASYNC_BAD_QOS else 0)
               | None => pret 0
               end in
    if negb (rc =? 0) then pret rc
    else
      let* user_ok := match co_username o with Some u => valid_utf8 u | None => pret true end in
      if negb user_ok then pret MQTTASYNC_BAD_UTF8_STRING
      else
        let* password_ok := match co_password o with Some p => valid_utf8 p | None => pret true end in
        pret (if password_ok then 0 else MQTTASYNC_BAD_UTF8_STRING).

(** The callbacks go into [m->connect], the other options into the client; the code writes these fields
    without a mutex. *)
Definition take_options (o : connectOptions) : M unit :=
  upd_api (fun a => let c := connect a in
    set_connect (Command (cmd_addr c) (cmd_token c) (cmd_start_time c) (co_onSuccess o) (co_onFailure o)
      (cmd_details c)) a) >>;
  pclient (fun c => Client (clientID c) (co_username o) (co_password o)
    ((fun w => Will (wo_topicName w) (wo_message w) (wo_retained w) (wo_qos w)) <$> co_will o)
    (if co_struct_version o =? 3 then co_MQTTVersion o else 0) (socket c) (lastSent c) (lastReceived c)
    (co_cleansession o) (connected c) (good c) (ping_outstanding c) (connect_state c) (msgID c)
    (co_keepAliveInterval o) (co_retryInterval o) (inboundMsgs c) (outboundMsgs c) (messageQueue c)).

Definition queue_connect (o : connectOptions) : M Z :=
  let* conn := new_command 0 (co_onSuccess o) (co_onFailure o)
    (DConnect (co_connectTimeout o) 0 (if 2 <=? co_struct_version o then co_serverURIs o else []) 0) in
  MQTTAsync_addCommand conn.

Definition MQTTAsync_connect (options : option connectOptions) : M Z :=
  match options with
  | None => pret MQTTASYNC_NULL_PARAMETER
  | Some o =>
      let* rc := check_options o in
      if negb (rc =? 0) then pret rc else take_options o >>; queue_connect o
  end.

Definition MQTTAsync_disconnect (onSuccess : bool) (timeout : Z) : M Z :=
  MQTTAsync_disconnect1 onSuccess false timeout.

Definition MQTTAsync_isConnected : M bool := let* c := the_client in pret (connected c).

(** The tokens before the sentinel -1; NULL when there are none. *)
Definition MQTTAsync_getPendingTokens : M (option (list Z)) :=
  let* s := pget in
  let l := (cmd_token <$> items (commands (api s))) ++ (m_msgid <$> items (outboundMsgs (client s))) in
  pret (if bool_decide (l = []) then None else Some (l ++ [-1])).

Definition MQTTAsync_isComplete (dt : Z) : M bool :=
  let* s := pget in
  pret (negb (existsb (fun c => cmd_token c =? dt) (items (commands (api s))) ||
              existsb (fun m => m_msgid m =? dt) (items (outboundMsgs (client s))))).

(** [MQTTAsync_create] and [MQTTAsync_setCallbacks], without persistence: the error, or the new client.
    Its memory is cleared. *)
Definition MQTTAsync_create (uri clientId : option (list Z)) (delivery : bool) (n : net) (now : Z) :
    outcome (Z + mqtt) :=
  match uri, clientId with
  | Some uri, Some id =>
      let! ok := UTF8_validateString (id ++ [0]) in
      if negb ok then Ret (inl MQTTASYNC_BAD_UTF8_STRING)
      else
        Ret (inr (Mqtt (Client id None None None 0 0 0 0 false false false false 0 0 0 0 c_zero c_zero [])
          ∅ c_zero c_zero 0 0
          (Asyncs (strip_tcp uri) c_zero c_zero (Command 0 0 0 false false (DConnect 0 0 [] 0))
             (Command 0 0 0 false false (DDisconnect false 0)) None delivery 1 [] [] [] 0 0)
          n now [] []))
  | _, _ => Ret (inl MQTTASYNC_NULL_PARAMETER)
  end.
