(* ===== verification/MqttWait.v ===== *)
(** * MqttWait: waiting for a delivery (MQTTAsync_waitForCompletion of MQTTAsync.c)

    The call looks again and again whether a token is still in use, with the mutex of the library
    taken for each look.  What the other threads do between the looks is input: the state of the client
    at each look, and the time that has passed then. *)

From Stdlib Require Import ZArith Lia.
From stdpp Require Import base tactics numbers list gmap.
From S2P Require Import Prelude LinkedList MqttProto MqttAsync.

(** ** The mutex *)

(** The thread that holds it.  [errorcheck] is the type [MQTTAsync_init] gives to the mutex: a thread
    that locks it twice gets an error, which is ignored, where the default type waits for ever. *)
Definition mutex : Type := option Z.

Definition MQTTAsync_lock_mutex (errorcheck : bool) (t : Z) (m : mutex) : outcome mutex :=
  match m with
  | None => Ret (Some t)
  | Some t' => if errorcheck && (t' =? t) then Ret m else Blocked
  end.

Definition MQTTAsync_unlock_mutex (t : Z) (m : mutex) : mutex :=
  match m with Some t' => if t' =? t then None else m | None => None end.

(** ** The call *)

Section Wait.
Context (errorcheck : bool) (t : Z) (dt : Z).

(** [MQTTAsync_isComplete] as the thread [t] calls it. *)
Definition isComplete (s : mqtt) (m : mutex) : outcome (bool * mutex) :=
  let! m1 := MQTTAsync_lock_mutex errorcheck t m in
  let! (b, _) := MQTTAsync_isComplete dt s in
  Ret (b, MQTTAsync_unlock_mutex t m1).

(** The client at a look, and the milliseconds since the start when the clock is read after it. *)
Record moment : Type := Moment {
  at_state : mqtt;
  at_ms : Z
}.

(** [later] are the looks that can be made; without any the call is still waiting. *)
Fixpoint wait_loop (timeout elapsed : Z) (later : list moment) (m : mutex) : outcome (Z * mutex) :=
  if elapsed <? timeout then
    match later with
    | [] => Blocked
    | x :: later' =>
        let! (b, m1) := isComplete (at_state x) m in
        if b then Ret (MQTTASYNC_SUCCESS, m1) else wait_loop timeout (at_ms x) later' m1
    end
  else Ret (MQTTASYNC_FAILURE, m).

(** [handle] is the client when the call is made, or NULL.  The mutex is not unlocked where the code
    leaves early. *)
Definition MQTTAsync_waitForCompletion (handle : option mqtt) (timeout : Z) (first : moment) (later : list moment)
    (m : mutex) : outcome (Z * mutex) :=
  let! m1 := MQTTAsync_lock_mutex errorcheck t m in
  match handle with
  | None => Ret (MQTTASYNC_FAILURE, m1)
  | Some s =>
      if negb (connected (client s)) then Ret (MQTTASYNC_DISCONNECTED, m1)
      else
        let m2 := MQTTAsync_unlock_mutex t m1 in
        let! (b, m3) := isComplete (at_state first) m2 in
        if b then Ret (MQTTASYNC_SUCCESS, m3) else wait_loop timeout (at_ms first) later m3
  end.

(** ** What it answers *)

(** No command that waits has the token, and no message in flight the identifier. *)
Definition delivered_at (x : moment) : Prop :=
  (forall c, c ∈ items (commands (api (at_state x))) -> cmd_token c <> dt) /\
  (forall m, m ∈ items (outboundMsgs (client (at_state x))) -> m_msgid m <> dt).

Lemma existsb_spec {A} (f : A -> Z) (l : list A) :
  existsb (fun a => f a =? dt) l = false <-> forall a, a ∈ l -> f a <> dt.
Proof.
  induction l as [|a l IH]; cbn; [split; [by intros _ a ?%elem_of_nil|done]|].
  rewrite orb_false_iff, IH, Z.eqb_neq. split.
  - intros [Ha Hl] b [->|Hb]%elem_of_cons; [done|by apply Hl].
  - intros H. split; [apply H, list_elem_of_here|]. intros b Hb. by apply H, list_elem_of_further.
Qed.

Lemma isComplete_spec x : exists b, isComplete (at_state x) None = Ret (b, None) /\ (b = true <-> delivered_at x).
Proof.
  unfold isComplete. cbn. rewrite Z.eqb_refl. eexists. split; [reflexivity|].
  rewrite negb_true_iff, orb_false_iff, !existsb_spec. done.
Qed.

(** The look that ends the wait: the first one that finds the message delivered, in time. *)
Definition found (timeout : Z) (looks : list moment) : Prop :=
  exists pre x post, looks = pre ++ x :: post /\ delivered_at x /\ Forall (fun y => at_ms y < timeout) pre.

Lemma found_cons timeout x looks :
  ~ delivered_at x -> found timeout (x :: looks) <-> at_ms x < timeout /\ found timeout looks.
Proof.
  intros Hx. split.
  - intros (pre & y & post & E & Hy & Hpre). destruct pre as [|z pre]; injection E as -> ->; [done|].
    apply Forall_cons in Hpre as [Hz Hpre]. split; [done|]. by exists pre, y, post.
  - intros (Ht & pre & y & post & -> & Hy & Hpre). exists (x :: pre), y, post. split; [done|]. split; [done|]. by constructor.
Qed.

Lemma wait_loop_spec timeout later : forall y,
  ~ delivered_at y -> Exists (fun x => timeout <= at_ms x) (y :: later) ->
  exists rc, wait_loop timeout (at_ms y) later None = Ret (rc, None) /\
    (rc = MQTTASYNC_SUCCESS /\ found timeout (y :: later) \/ rc = MQTTASYNC_FAILURE /\ ~ found timeout (y :: later)).
Proof.
  induction later as [|x later IH]; intros y Hy Hl; cbn [wait_loop].
  - apply Exists_cons in Hl as [Hl|Hl%Exists_nil]; [|done]. replace (at_ms y <? timeout) with false by lia. eexists. split; [reflexivity|]. right. split; [done|].
    intros [? _]%found_cons; [lia|done].
  - destruct (Z.ltb_spec (at_ms y) timeout) as [Ht|Ht].
    2: { eexists. split; [reflexivity|]. right. split; [done|].
      intros [? _]%found_cons; [lia|done]. }
    destruct (isComplete_spec x) as (b & -> & Hb). cbn [obind]. pose proof (found_cons timeout y (x :: later) Hy) as Hf.
    destruct b.
    + eexists. split; [reflexivity|]. left. split; [done|]. apply Hf. split; [done|]. exists [], x, later.
      split; [done|]. split; [by apply Hb|done].
    + destruct (IH x) as (rc & E & Hrc); [by intros H%Hb|by apply Exists_cons in Hl as [?|?]; [lia|]|].
      exists rc. split; [exact E|]. tauto.
Qed.

(** A call on a connected client returns as soon as the message is delivered, or when the time is over,
    and leaves the mutex free. *)
Theorem wait_answers s timeout first later :
  connected (client s) = true -> Exists (fun x => timeout <= at_ms x) (first :: later) ->
  exists rc, MQTTAsync_waitForCompletion (Some s) timeout first later None = Ret (rc, None) /\
    (rc = MQTTASYNC_SUCCESS /\ found timeout (first :: later) \/
     rc = MQTTASYNC_FAILURE /\ ~ found timeout (first :: later)).
Proof.
  intros Hc Hl. unfold MQTTAsync_waitForCompletion. cbn [MQTTAsync_lock_mutex obind]. rewrite Hc. cbn [negb MQTTAsync_unlock_mutex].
  rewrite Z.eqb_refl. destruct (isComplete_spec first) as (b & -> & Hb). cbn [obind]. destruct b.
  - eexists. split; [reflexivity|]. left. split; [done|]. exists [], first, later. split; [done|]. split; [by apply Hb|done].
  - apply wait_loop_spec; [by intros H%Hb|done].
Qed.

(** On a client that is not connected, or NULL, it returns with the mutex locked. *)
Theorem wait_keeps_mutex handle timeout first later :
  match handle with Some s => connected (client s) = false | None => True end ->
  exists rc, MQTTAsync_waitForCompletion handle timeout first later None = Ret (rc, Some t) /\
    rc = match handle with Some _ => MQTTASYNC_DISCONNECTED | None => MQTTASYNC_FAILURE end.
Proof. intros H. unfold MQTTAsync_waitForCompletion. cbn. destruct handle as [s|]; [rewrite H|]; by eexists. Qed.
End Wait.

(** Then every other thread waits for the mutex for ever, the threads of the library too. *)
Lemma locked_out errorcheck t t' dt s : t' <> t -> isComplete errorcheck t' dt s (Some t) = Blocked.
Proof.
  intros H. unfold isComplete. cbn. replace (t =? t') with false by lia. by rewrite andb_false_r.
Qed.
