(* ===== verification/MqttRuns.v ===== *)
(** * MqttRuns: reasoning about the client's monad

    Operations that return with a property, the packets the client can always make, and the invariant
    of the interrupted writes. *)

From Stdlib Require Import ZArith Lia String.
From stdpp Require Import base tactics numbers list gmap.
From S2P Require Import Prelude LinkedList Utf8 MqttPacket SockBuf MqttRead MqttProto MqttSession MqttEngine MqttAsync.

(** ** Runs

    The operation returns, with a result and a state of which [Q] holds. *)

Definition runs {A : Type} (m : M A) (s : mqtt) (Q : A -> mqtt -> Prop) : Prop :=
  exists a s', m s = Ret (a, s') /\ Q a s'.

Lemma runs_ret {A} (a : A) s Q : Q a s -> runs (pret a) s Q.
Proof. intros H. by exists a, s. Qed.

Lemma runs_bind {A B} (m : M A) (k : A -> M B) s Q :
  runs m s (fun a s1 => runs (k a) s1 Q) -> runs (pbind m k) s Q.
Proof. intros (a & s1 & E & b & s2 & E2 & H). exists b, s2. by rewrite (pbind_eq _ _ _ _ _ E). Qed.

Lemma runs_mono {A} (m : M A) s (P Q : A -> mqtt -> Prop) :
  runs m s P -> (forall a s', P a s' -> Q a s') -> runs m s Q.
Proof. intros (a & s' & E & H) HPQ. exists a, s'. by auto. Qed.

Lemma runs_get s (Q : mqtt -> mqtt -> Prop) : Q s s -> runs pget s Q.
Proof. intros H. by exists s, s. Qed.

Lemma runs_client s (Q : Clients -> mqtt -> Prop) : Q (client s) s -> runs the_client s Q.
Proof. intros H. by exists (client s), s. Qed.

Lemma runs_mod f s (Q : unit -> mqtt -> Prop) : Q tt (f s) -> runs (pmod f) s Q.
Proof. intros H. by exists tt, (f s). Qed.

Lemma runs_lift {A} (o : outcome A) a s (Q : A -> mqtt -> Prop) : o = Ret a -> Q a s -> runs (plift o) s Q.
Proof. intros -> H. by exists a, s. Qed.

Lemma runs_time s (Q : Z -> mqtt -> Prop) : Q (clock s / 1000) s -> runs time s Q.
Proof. intros H. by exists (clock s / 1000), s. Qed.

Lemma runs_clock s (Q : Z -> mqtt -> Prop) : Q (clock s) s -> runs MQTTAsync_start_clock s Q.
Proof. intros H. by exists (clock s), s. Qed.

(** The steps that read or change the state. *)
Ltac run1 :=
  lazymatch goal with
  | |- runs (pbind _ _) _ _ => apply runs_bind
  | |- runs (pret _) _ _ => apply runs_ret
  | |- runs pget _ _ => apply runs_get
  | |- runs the_client _ _ => apply runs_client
  | |- runs (pmod _) _ _ => apply runs_mod
  | |- runs time _ _ => apply runs_time
  | |- runs MQTTAsync_start_clock _ _ => apply runs_clock
  | |- runs (upd_api _) _ _ => apply runs_mod
  | |- runs (pclient _) _ _ => apply runs_mod
  | |- runs (plift (Ret _)) _ _ => apply (runs_lift _ _ _ _ eq_refl)
  end.
Ltac run := repeat (run1; cbv beta).

(** A step with a lemma of its own. *)
Tactic Notation "step" uconstr(H) :=
  lazymatch goal with |- runs (pbind _ _) _ _ => apply runs_bind | _ => idtac end;
  eapply runs_mono; [eapply H|cbv beta].

(** ** Packets that are made *)

(** [f] writes [n] bytes when there is room. *)
Definition fills (f : wbuf -> outcome wbuf) (n : nat) : Prop :=
  forall buf ptr, (ptr + n <= length buf)%nat ->
    exists buf', f (buf, ptr) = Ret (buf', (ptr + n)%nat) /\ length buf' = length buf.

Lemma fills_char c : fills (writeChar c) 1.
Proof.
  intros buf ptr H. unfold writeChar. rewrite bool_decide_eq_true_2 by lia. eexists.
  split; [by replace (ptr + 1)%nat with (S ptr) by lia|]. apply length_insert.
Qed.

Lemma fills_ret : fills Ret 0.
Proof. intros buf ptr _. exists buf. by rewrite Nat.add_0_r. Qed.

Lemma fills_bind f g a b : fills f a -> fills g b -> fills (fun w => let! w1 := f w in g w1) (a + b).
Proof.
  intros Hf Hg buf ptr H. destruct (Hf buf ptr) as (buf1 & -> & H1); [lia|]. cbn [obind].
  destruct (Hg buf1 (ptr + a)%nat) as (buf2 & -> & H2); [lia|]. exists buf2.
  by rewrite H2, H1, Nat.add_assoc.
Qed.

Lemma fills_int i : fills (writeInt i) 2.
Proof. apply (fills_bind (writeChar _) (writeChar _) 1 1); apply fills_char. Qed.

Lemma fills_bytes l : fills (write_bytes l) (length l).
Proof.
  induction l as [|b l IH]; [apply fills_ret|]. apply (fills_bind (writeChar b) (write_bytes l) 1 (length l));
    [apply fills_char|done].
Qed.

Lemma fills_utf s : fills (writeUTF s) (length s + 2).
Proof. rewrite Nat.add_comm. apply (fills_bind (writeInt _) (write_bytes s) 2); [apply fills_int|apply fills_bytes]. Qed.

Lemma fills_opt o : fills (writeUTF_opt o) (opt_len o).
Proof. destruct o; [apply fills_utf|apply fills_ret]. Qed.

Lemma fills_fresh f n : fills f n -> exists w, f (malloc_buf n) = Ret w.
Proof.
  intros H. destruct (H (replicate n 0) 0%nat) as (b & E & _); [rewrite length_replicate; lia|]. by exists (b, (0 + n)%nat).
Qed.

Lemma int_buf_total i : exists l, int_buf i = Ret l.
Proof. unfold int_buf. destruct (fills_fresh _ _ (fills_int i)) as (w & ->). by exists (fst w). Qed.

Lemma fills_subscribe topics : forall qoss, (length topics <= length qoss)%nat ->
  fills (subscribe_loop topics qoss) (length topics * 3 + sum_list (length <$> topics)).
Proof.
  induction topics as [|t topics IH]; intros qoss H; [apply fills_ret|].
  destruct qoss as [|q qoss]; [simpl in H; lia|]. cbn [subscribe_loop].
  replace (length (t :: topics) * 3 + sum_list (length <$> t :: topics))%nat with
    ((length t + 2) + (1 + (length topics * 3 + sum_list (length <$> topics))))%nat by (cbn; lia).
  apply (fills_bind (writeUTF t) (fun w => let! w2 := writeChar q w in subscribe_loop topics qoss w2)); [apply fills_utf|].
  apply (fills_bind (writeChar q)); [apply fills_char|]. apply IH. simpl in H. lia.
Qed.

Lemma fills_unsubscribe topics : fills (unsubscribe_loop topics) (length topics * 2 + sum_list (length <$> topics)).
Proof.
  induction topics as [|t topics IH]; [apply fills_ret|]. cbn [unsubscribe_loop].
  replace (length (t :: topics) * 2 + sum_list (length <$> t :: topics))%nat with
    ((length t + 2) + (length topics * 2 + sum_list (length <$> topics)))%nat by (cbn; lia).
  apply (fills_bind (writeUTF t)); [apply fills_utf|done].
Qed.

Lemma send_subscribe_total topics qoss id dup :
  (length topics <= length qoss)%nat -> exists p, MQTTPacket_send_subscribe topics qoss id dup = Ret p.
Proof.
  intros H. unfold MQTTPacket_send_subscribe.
  destruct (fills_fresh (fun w => let! w1 := writeInt id w in subscribe_loop topics qoss w1)
    (2 + (length topics * 3 + sum_list (length <$> topics)))) as (w & E).
  { apply (fills_bind (writeInt id)); [apply fills_int|by apply fills_subscribe]. }
  rewrite Nat.add_assoc in E. destruct (writeInt id _); [|done..]. cbn [obind] in *. rewrite E. by eexists.
Qed.

Lemma send_unsubscribe_total topics id dup : exists p, MQTTPacket_send_unsubscribe topics id dup = Ret p.
Proof.
  unfold MQTTPacket_send_unsubscribe.
  destruct (fills_fresh (fun w => let! w1 := writeInt id w in unsubscribe_loop topics w1)
    (2 + (length topics * 2 + sum_list (length <$> topics)))) as (w & E).
  { apply (fills_bind (writeInt id)); [apply fills_int|apply fills_unsubscribe]. }
  rewrite Nat.add_assoc in E. destruct (writeInt id _); [|done..]. cbn [obind] in *. rewrite E. by eexists.
Qed.

Lemma send_publish_total p dup qos retained :
  0 <= p_payloadlen p <= Z.of_nat (length (p_payload p)) ->
  exists q, MQTTPacket_send_publish p dup qos retained = Ret q.
Proof.
  intros H. unfold MQTTPacket_send_publish. destruct (int_buf_total (s32 (Z.of_nat (length (p_topic p))))) as (l & ->).
  cbn [obind]. unfold read_bytes. rewrite bool_decide_eq_true_2 by lia. cbn [obind].
  destruct (int_buf_total (p_msgId p)) as (l2 & ->). destruct (0 <? qos); by eexists.
Qed.

Lemma send_ack_total t id dup : exists q, MQTTPacket_send_ack t id dup = Ret q.
Proof. unfold MQTTPacket_send_ack. destruct (int_buf_total id) as (l & ->). by eexists. Qed.

(** The body of a CONNECT packet behind the name and the version. *)
Lemma send_connect_total c version : exists q, MQTTPacket_send_connect c version = Ret q.
Proof.
  unfold MQTTPacket_send_connect. set (will_part := match cn_will c with Some w => _ | None => O end).
  set (len := (_ + _ + will_part + opt_len (cn_username c) + opt_len (cn_password c))%nat).
  destruct ((version =? 3) || (version =? 4)); [|by eexists]. cbv zeta.
  set (name := if version =? 3 then str "MQIsdp" else str "MQTT"). set (flags := connect_flags _ _ _ _ _ _).
  destruct (fills_fresh (fun w => let! w1 := writeUTF name w in let! w2 := writeChar version w1 in
      let! w3 := writeChar flags w2 in let! w4 := writeInt (cn_keepAliveInterval c) w3 in
      let! w5 := writeUTF (cn_clientID c) w4 in let! w6 := writeUTF_opt (will_topic <$> cn_will c) w5 in
      let! w7 := writeUTF_opt (will_msg <$> cn_will c) w6 in let! w8 := writeUTF_opt (cn_username c) w7 in
      writeUTF_opt (cn_password c) w8) len) as (w & E).
  { replace len with ((length name + 2) + (1 + (1 + (2 + ((length (cn_clientID c) + 2) +
      (opt_len (will_topic <$> cn_will c) + (opt_len (will_msg <$> cn_will c) +
        (opt_len (cn_username c) + opt_len (cn_password c)))))))))%nat.
    - repeat (apply fills_bind; [first [apply fills_utf|apply fills_char|apply fills_int|apply fills_opt]|]).
      apply fills_opt.
    - subst len will_part name. destruct (version =? 3), (cn_will c); cbn; lia. }
  repeat (match type of E with obind ?m _ = Ret _ => destruct m; cbn [obind] in E |- *; [|done..] end).
  rewrite E. by eexists.
Qed.

(** ** The sockets *)

(** What the loop over the interrupted writes needs. *)
Record net_ok (n : net) : Prop := {
  nk_nodup : NoDup (write_pending n);
  nk_writes : forall x, x ∈ write_pending n -> is_Some (find_write x n);
  nk_current : forall x, wp_current n = Some x -> x ∈ write_pending n
}.

(** The part of the state that is about writes. *)
Definition wr (n : net) : list pending_writes * list Z * option Z := (SockBuf.writes n, write_pending n, wp_current n).

Lemma net_ok_same n n' : net_ok n -> wr n' = wr n -> net_ok n'.
Proof. intros [] [= E1 E2 E3]. split; unfold find_write in *; rewrite ?E1, ?E2, ?E3; done. Qed.

Lemma noPendingWrites_ok s n b n' : net_ok n -> Socket_noPendingWrites s n = (b, n') -> net_ok n'.
Proof.
  intros H. unfold Socket_noPendingWrites. case_bool_decide; intros [= <- <-]; [|done].
  destruct H. split; cbn; [done|done|]. by intros x [= <-].
Qed.

Lemma writev_wr s bufs n rc k n' : Socket_writev s bufs n = (rc, k, n') -> wr n' = wr n.
Proof. unfold Socket_writev. destruct (n_wres n) as [|[] ?]; by intros [= _ _ <-]. Qed.

(** The writes after one more. *)
Lemma pending_ok s bufs tot done n :
  net_ok n -> s ∉ write_pending n ->
  net_ok (set_pending (SockBuf.writes (SocketBuffer_pendingWrite s bufs tot done n)) (write_pending n ++ [s]) n).
Proof.
  intros [H1 H2 H3] Hs. split; cbn.
  - apply NoDup_app. split; [done|]. split; [|apply NoDup_singleton]. set_solver.
  - intros x Hx. unfold find_write. cbn. destruct (decide (x ∈ write_pending n)) as [Hin|Hin].
    + destruct (H2 x Hin) as [[i w] Hi]. unfold find_write in Hi. exists (i, w). by apply list_find_app_l.
    + assert (x = s) as -> by set_solver.
      destruct (list_find (fun pw => pw_socket pw = s) (SockBuf.writes n)) as [[i w]|] eqn:E.
      * exists (i, w). by apply list_find_app_l.
      * rewrite list_find_app_r by done. cbn. rewrite decide_True by done. by eexists.
  - intros x Hx. apply elem_of_app. left. by apply H3.
Qed.

Lemma putdatas_ok s bufs n rc n' : net_ok n -> Socket_putdatas s bufs n = (rc, n') -> net_ok n'.
Proof.
  intros H. unfold Socket_putdatas. destruct (Socket_noPendingWrites s n) as [free n1] eqn:E1.
  pose proof (noPendingWrites_ok _ _ _ _ H E1) as H1.
  assert (Hs : free = true -> s ∉ write_pending n1).
  { unfold Socket_noPendingWrites in E1. case_bool_decide; by injection E1 as <- <-. }
  destruct free; cbn [negb]; [|by intros [= _ <-]]. specialize (Hs eq_refl).
  destruct (Socket_writev s bufs n1) as [[rc1 k] n2] eqn:E2. pose proof (writev_wr _ _ _ _ _ _ E2) as E.
  assert (H2 : net_ok n2) by by apply (net_ok_same n1).
  destruct (rc1 =? SOCKET_ERROR); [by intros [= _ <-]|]. destruct (k =? _); [by intros [= _ <-]|].
  intros [= _ <-]. apply (net_ok_same (set_pending (SockBuf.writes (SocketBuffer_pendingWrite s bufs
    (Z.of_nat (length (concat bufs))) k n2)) (write_pending n2 ++ [s]) n2)); [|done].
  apply pending_ok; [done|]. by injection E as _ -> _.
Qed.

Lemma next_pending_in s l x : next_pending s l = Some x -> x ∈ l.
Proof.
  induction l as [|y l IH]; [done|]. cbn. destruct (y =? s).
  - destruct l; [done|]. intros [= ->]. apply list_elem_of_further, list_elem_of_here.
  - intros H. by apply list_elem_of_further, IH.
Qed.

Lemma next_pending_ne s l x : NoDup l -> next_pending s l = Some x -> x <> s.
Proof.
  induction l as [|y l IH]; [done|]. intros [Hy Hl]%NoDup_cons. cbn. destruct (Z.eqb_spec y s) as [->|].
  - destruct l; [done|]. intros [= ->] ->. apply Hy, list_elem_of_here.
  - by apply IH.
Qed.

Lemma remove_pending_ok s n : net_ok n -> net_ok (remove_pending s n).
Proof.
  intros [H1 H2 H3]. unfold remove_pending. split; cbn.
  - by apply NoDup_filter.
  - intros x [_ Hx]%list_elem_of_filter. by apply H2.
  - intros x Hx. apply list_elem_of_filter. destruct (wp_current n) as [y|] eqn:E; [|done].
    destruct (Z.eqb_spec y s) as [->|Hne].
    + split; [by eapply next_pending_ne|by eapply next_pending_in].
    + injection Hx as ->. split; [done|by apply H3].
Qed.

Lemma close_ok s n : net_ok n -> net_ok (Socket_close s n).
Proof.
  intros H. apply (net_ok_same (remove_pending s n)); [by apply remove_pending_ok|].
  unfold Socket_close, SocketBuffer_cleanup. destruct (find_queue s _) as [[i q]|]; cbn; by case_match.
Qed.

(** *** Completing the writes *)

Lemma find_write_iff s n : is_Some (find_write s n) <-> exists w, w ∈ SockBuf.writes n /\ pw_socket w = s.
Proof.
  unfold find_write. destruct (list_find _ _) as [[i w]|] eqn:E.
  - apply list_find_Some in E as (Hi & Hw & _). split; [|by eexists]. intros _. exists w.
    split; [by eapply list_elem_of_lookup_2|done].
  - apply list_find_None in E. rewrite Forall_forall in E. split; [by intros []|]. intros (w & Hin & Hw).
    by destruct (E w Hin).
Qed.

Lemma continueWrite_ok s n :
  net_ok n -> s ∈ write_pending n ->
  exists rc n', Socket_continueWrite s n = Ret (rc, n') /\ net_ok n' /\ write_pending n' = write_pending n.
Proof.
  intros H Hs. destruct (nk_writes _ H s Hs) as [[i w] Hi]. unfold Socket_continueWrite. rewrite Hi.
  cbn [obind deref]. destruct (Socket_writev s _ n) as [[rc k] n1] eqn:E. pose proof (writev_wr _ _ _ _ _ _ E) as Ew.
  pose proof (net_ok_same _ _ H Ew) as H1. injection Ew as Ew1 Ew2 Ew3.
  destruct (rc =? SOCKET_ERROR); [by eexists _, n1|]. eexists _, _. split; [reflexivity|]. cbn. split; [|done].
  destruct H1 as [N1 N2 N3]. split; [done| |done]. intros x Hx. apply find_write_iff. cbn in Hx |- *.
  apply N2, find_write_iff in Hx as (w0 & Hin & Hw0). apply list_elem_of_lookup in Hin as [j Hj].
  destruct (decide (i = j)) as [<-|Hne].
  - eexists. split; [apply list_elem_of_insert; by eapply lookup_lt_Some|]. cbn. rewrite Ew1 in Hj.
    apply list_find_Some in Hi as (Hi & _). congruence.
  - exists w0. split; [|done]. eapply list_elem_of_lookup_2. by rewrite list_lookup_insert_ne.
Qed.

Lemma complete_ok s n :
  net_ok n -> s ∈ write_pending n ->
  let n' := remove_pending s (snd (SocketBuffer_writeComplete s n)) in
  net_ok n' /\ (length (write_pending n') < length (write_pending n))%nat.
Proof.
  intros H Hs n'. split.
  2: { subst n'. unfold SocketBuffer_writeComplete. destruct (find_write s n) as [[i w]|]; cbn;
       apply length_filter_lt with s; by auto. }
  destruct H as [N1 N2 N3]. subst n'. unfold remove_pending. split.
  - unfold SocketBuffer_writeComplete. destruct (find_write s n) as [[i w]|]; cbn; by apply NoDup_filter.
  - intros x Hx. assert (Hx' : x <> s /\ x ∈ write_pending n).
    { unfold SocketBuffer_writeComplete in Hx. destruct (find_write s n) as [[i w]|];
        cbn in Hx; by apply list_elem_of_filter in Hx. }
    destruct Hx' as [Hne Hin]. apply find_write_iff. pose proof (N2 x Hin) as (w0 & Hw0 & Hx0)%find_write_iff.
    exists w0. split; [|done]. unfold SocketBuffer_writeComplete. destruct (find_write s n) as [[i w]|] eqn:E; cbn; [|done].
    unfold find_write in E. apply list_find_Some in E as (Hi & Hw & _).
    apply list_elem_of_lookup in Hw0 as [j Hj].
    eapply list_elem_of_lookup_2 in Hj. rewrite (delete_Permutation _ _ _ Hi) in Hj.
    apply elem_of_cons in Hj as [->|Hj]; [congruence|done].
  - intros x Hx. assert (E : write_pending (snd (SocketBuffer_writeComplete s n)) = write_pending n /\
      wp_current (snd (SocketBuffer_writeComplete s n)) = wp_current n).
    { unfold SocketBuffer_writeComplete. by destruct (find_write s n) as [[i w]|]. }
    destruct E as [E1 E2]. cbn in Hx |- *. rewrite E2 in Hx. rewrite E1 in *. apply list_elem_of_filter.
    destruct (wp_current n) as [y|] eqn:Ey; [|done]. destruct (Z.eqb_spec y s) as [->|Hne].
    + split; [by eapply next_pending_ne|by eapply next_pending_in].
    + injection Hx as ->. split; [done|by apply N3].
Qed.

(** The elements from [x] on. *)
Fixpoint from (x : Z) (l : list Z) : list Z :=
  match l with
  | [] => []
  | y :: l' => if y =? x then l else from x l'
  end.

Lemma from_length x l : (length (from x l) <= length l)%nat.
Proof. induction l as [|y l IH]; [done|]. cbn. destruct (y =? x); cbn; lia. Qed.

Lemma from_in x l : x ∈ l -> (0 < length (from x l))%nat.
Proof.
  induction l as [|y l IH]; [by intros ?%not_elem_of_nil|]. cbn. destruct (Z.eqb_spec y x); [cbn; lia|].
  intros [->|?]%elem_of_cons; [done|by apply IH].
Qed.

Lemma from_next x y l : NoDup l -> next_pending x l = Some y -> (length (from y l) < length (from x l))%nat.
Proof.
  induction l as [|z l IH]; [done|]. intros [Hz Hl]%NoDup_cons. cbn. destruct (Z.eqb_spec z x) as [->|Hne].
  - destruct l as [|w l]; [done|]. intros [= ->]. destruct (Z.eqb_spec x y) as [->|].
    + destruct Hz. apply list_elem_of_here.
    + pose proof (from_length y (y :: l)). cbn [length] in *. lia.
  - intros H. destruct (Z.eqb_spec z y) as [->|]; [|by apply IH]. destruct Hz. by eapply next_pending_in.
Qed.

Definition dist (cur : option Z) (l : list Z) : nat := match cur with Some x => length (from x l) | None => 0 end.

Lemma dist_le cur l : (dist cur l <= length l)%nat.
Proof. destruct cur; [apply from_length|cbn; lia]. Qed.

Lemma dist_next x l : NoDup l -> x ∈ l -> (dist (next_pending x l) l < dist (Some x) l)%nat.
Proof. intros Hn Hx. destruct (next_pending x l) eqn:E; [by apply from_next|by apply from_in]. Qed.

Lemma continue_loop_ok pwset fuel : forall cur n,
  net_ok n -> (forall x, cur = Some x -> x ∈ write_pending n) ->
  (dist cur (write_pending n) + length (write_pending n) * pred (length (write_pending n)) < fuel)%nat ->
  exists done n', continue_loop fuel cur pwset n = Ret (done, n') /\ net_ok n'.
Proof.
  induction fuel as [|fuel IH]; intros cur n H Hc Hf; [lia|]. destruct cur as [s|]; [|by exists [], n].
  specialize (Hc s eq_refl). cbn [continue_loop]. pose proof (dist_next s _ (nk_nodup _ H) Hc) as Hd.
  assert (Hskip : forall n', net_ok n' -> write_pending n' = write_pending n ->
    exists done n'', continue_loop fuel (next_pending s (write_pending n')) pwset n' = Ret (done, n'') /\ net_ok n'').
  { intros n' H' E. apply IH; [done|by intros x Hx; eapply next_pending_in|]. rewrite E. lia. }
  case_bool_decide; [|by apply Hskip].
  destruct (continueWrite_ok s n H Hc) as (rc & n1 & -> & H1 & E1). cbn [obind].
  destruct (rc =? 0); cbn [negb]; [by apply Hskip|]. rewrite <- E1 in Hc.
  destruct (complete_ok s n1 H1 Hc) as [H2 Hlt]. set (n2 := remove_pending s _) in *. rewrite E1 in Hlt.
  destruct (IH (wp_current n2) n2 H2) as (d & n3 & -> & H3).
  - intros x Hx. by apply (nk_current _ H2).
  - pose proof (dist_le (wp_current n2) (write_pending n2)). nia.
  - by exists (s :: d), n3.
Qed.

Lemma continueWrites_ok pwset n :
  net_ok n -> exists done n', Socket_continueWrites pwset n = Ret (done, n') /\ net_ok n'.
Proof.
  intros H. unfold Socket_continueWrites. apply continue_loop_ok; [done| |].
  - intros x Hx. destruct (write_pending n); [done|]. injection Hx as ->. apply list_elem_of_here.
  - pose proof (dist_le (head (write_pending n)) (write_pending n)). nia.
Qed.

(** *** Reading leaves the writes alone *)

(** The side of the network that is written to. *)
Definition wside (n : net) : list pending_writes * list Z * option Z * list wres * list (Z * list Z) :=
  (wr n, n_wres n, n_out n).

Lemma wside_wr n n' : wside n' = wside n -> wr n' = wr n.
Proof. unfold wside. congruence. Qed.

Lemma recv_wr s k n r n' : recv s k n = (r, n') -> wside n' = wside n.
Proof. unfold recv. intros H. repeat case_match; by injection H as <- <-. Qed.

Lemma update_queue_wr s f n : wside (update_queue s f n) = wside n.
Proof. unfold update_queue. by destruct (find_queue s n) as [[i q]|]. Qed.

Lemma interrupted_wr s k n : wside (SocketBuffer_interrupted s k n) = wside n.
Proof. unfold SocketBuffer_interrupted. by destruct (find_queue s n) as [[i q]|]. Qed.

Lemma complete_wr s n : wside (SocketBuffer_complete s n) = wside n.
Proof. unfold SocketBuffer_complete. by destruct (find_queue s n) as [[i q]|]. Qed.

Lemma queueChar_wr s c n : wside (SocketBuffer_queueChar s c n) = wside n.
Proof. unfold SocketBuffer_queueChar. by repeat case_match. Qed.

Lemma getQueuedChar_wr s n rc c n' : SocketBuffer_getQueuedChar s n = Ret (rc, c, n') -> wside n' = wside n.
Proof.
  unfold SocketBuffer_getQueuedChar. intros H. destruct (find_queue s n) as [[i q]|]; [|congruence].
  destruct (headerlen q); [|done]. cbn [obind deref] in H. case_bool_decide.
  - destruct (fixed_header q !! index q); [|done]. cbn [obind deref] in H. injection H as <- <- <-. done.
  - case_bool_decide; congruence.
Qed.

Lemma getch_wr s n rc c n' : Socket_getch s n = Ret (rc, c, n') -> wside n' = wside n.
Proof.
  unfold Socket_getch. intros H. destruct (SocketBuffer_getQueuedChar s n) as [[[rc1 c1] n1]| | |] eqn:Eq; [|done..].
  apply getQueuedChar_wr in Eq. cbn [obind] in H. destruct (rc1 =? SOCKETBUFFER_INTERRUPTED); cbn [negb] in H; [|congruence].
  destruct (recv s 1 n1) as [r n2] eqn:E. apply recv_wr in E. rewrite <- Eq, <- E.
  destruct r; injection H as <- <- <-; by rewrite ?queueChar_wr, ?interrupted_wr.
Qed.

Lemma decode_wr fuel : forall s m v n rc v' n', decode_loop fuel s m v n = Ret (rc, v', n') -> wside n' = wside n.
Proof.
  induction fuel as [|fuel IH]; intros s m v n rc v' n' H; cbn [decode_loop] in H; [congruence|].
  destruct (Socket_getch s n) as [[[rc1 c] n1]| | |] eqn:E; [|done..]. apply getch_wr in E. cbn [obind] in H.
  destruct (rc1 =? TCPSOCKET_COMPLETE); cbn [negb] in H; [|congruence].
  destruct c as [c|]; [|done]. cbn [obind deref] in H. destruct (Z.land c 128 =? 0); cbn [negb] in H; [congruence|].
  rewrite <- E. by eapply IH.
Qed.

Lemma getdata_wr s k n d a n' : Socket_getdata s k n = Ret (d, a, n') -> wside n' = wside n.
Proof.
  unfold Socket_getdata. intros H. destruct (k =? 0); [injection H as <- <- <-; apply complete_wr|].
  unfold SocketBuffer_getQueuedData in H. set (a0 := match find_queue s n with Some (_, q) => datalen q | None => 0 end) in H.
  destruct (recv s (Z.to_nat (k - a0)) _) as [r n2] eqn:E. apply recv_wr in E. rewrite update_queue_wr in E.
  rewrite <- E. destruct r as [b l| | |]; try (injection H as <- <- <-; by rewrite ?interrupted_wr).
  destruct (splice _ _ _) as [mem| | |]; [|done..]. cbn [obind] in H.
  destruct (_ =? k); injection H as <- <- <-; by rewrite ?complete_wr, ?interrupted_wr, update_queue_wr.
Qed.

Lemma factory_wr s n p rc n' :
  MQTTPacket_Factory s n = Ret (p, rc, n') -> wside n' = wside n /\ (is_Some p -> rc = TCPSOCKET_COMPLETE).
Proof.
  unfold MQTTPacket_Factory, MQTTPacket_decode. intros H.
  destruct (Socket_getch s n) as [[[rc1 c] n1]| | |] eqn:E; [|done..]. apply getch_wr in E. cbn [obind] in H.
  destruct (rc1 =? TCPSOCKET_COMPLETE); cbn [negb] in H; [|injection H as <- <- <-; split; [done|by intros []]].
  destruct c as [c|]; [|done]. cbn [obind deref] in H.
  destruct (decode_loop _ s 1 0 n1) as [[[rc2 v] n2]| | |] eqn:E2; [|done..]. apply decode_wr in E2. cbn [obind] in H.
  destruct (Z.eqb_spec rc2 TCPSOCKET_COMPLETE) as [->|]; cbn [negb] in H; [|injection H as <- <- <-; split; [congruence|by intros []]].
  destruct (Socket_getdata s v n2) as [[[d a] n3]| | |] eqn:E3; [|done..]. apply getdata_wr in E3. cbn [obind] in H.
  assert (Ew : wside n3 = wside n) by congruence.
  destruct d as [mem|]; [|injection H as <- <- <-; split; [done|by intros []]].
  destruct (a =? v); cbn [negb] in H; [|injection H as <- <- <-; split; [done|by intros []]].
  destruct (_ || _) in H; [injection H as <- <- <-; split; [done|by intros []]|].
  destruct (new_packets _) as [make|]; [|injection H as <- <- <-; split; [done|by intros []]].
  destruct (make c mem _) as [q| | |]; [|done..]. cbn [obind] in H. injection H as <- <- <-. split; [done|]. by intros [? ->].
Qed.

Lemma read_packet_wr fuel : forall s n p rc n', read_packet fuel s n = Ret (p, rc, n') -> wside n' = wside n.
Proof.
  induction fuel as [|fuel IH]; intros s n p rc n' H; cbn [read_packet] in H; [done|].
  destruct (MQTTPacket_Factory s n) as [[[q e] n1]| | |] eqn:E; [|done..]. apply factory_wr in E as [E _].
  cbn [obind] in H. destruct (e =? TCPSOCKET_INTERRUPTED); [|congruence]. rewrite <- E. by eapply IH.
Qed.
