(* ===== verification/Select.v ===== *)
(** * Select: the sockets the client waits on (Socket.c)

    The descriptors given to [select], the list of the client's sockets with the position
    [cur_clientsds] the last round stopped at, and the sockets whose TCP connect is pending.  The lists
    are those of [LinkedList], so that a position is a pointer into the heap; the buffered reads and
    writes are the [net] of [SockBuf].  The kernel is an argument of the calls: which descriptors it
    finds readable and writable, and what the calls that make a socket answer. *)

From Stdlib Require Import ZArith Lia.
From stdpp Require Import base tactics numbers list gmap.
From S2P Require Import Prelude SockBuf LinkedList MqttAsync.

(** ** Sets of descriptors *)

Definition FD_SETSIZE : Z := 1024.
Notation fd_set := (gset Z) (only parsing).

(** The bits of an [fd_set] are those below [FD_SETSIZE]; other descriptors are outside of the array. *)
Definition fd_ok (fd : Z) : bool := (0 <=? fd) && (fd <? FD_SETSIZE).
Definition FD_SET (fd : Z) (s : fd_set) : outcome fd_set := if fd_ok fd then Ret ({[fd]} ∪ s) else Fault.
Definition FD_CLR (fd : Z) (s : fd_set) : outcome fd_set := if fd_ok fd then Ret (s ∖ {[fd]}) else Fault.
Definition FD_ISSET (fd : Z) (s : fd_set) : outcome bool := if fd_ok fd then Ret (bool_decide (fd ∈ s)) else Fault.

(** What [select (nfds, ...)] leaves of a set: the descriptors below [nfds] that are ready. *)
Definition selected (nfds : Z) (s ready : fd_set) : fd_set := filter (fun fd => fd < nfds) (s ∩ ready).

(** ** The state *)

(** A list of descriptors. *)
Notation fd_list := (List (A := Z)) (only parsing).

(** [s] and [wset]. *)
Record Sockets : Type := MkSockets {
  rset : fd_set;
  rset_saved : fd_set;
  pending_wset : fd_set;
  wset : fd_set;
  maxfdp1 : Z;
  clientsds : fd_list;
  cur_clientsds : option nat;
  connect_pending : fd_list;
  buffers : net
}.

Definition set_rset (r : fd_set) (s : Sockets) : Sockets :=
  MkSockets r (rset_saved s) (pending_wset s) (wset s) (maxfdp1 s) (clientsds s) (cur_clientsds s) (connect_pending s) (buffers s).
Definition set_pending_wset (p : fd_set) (s : Sockets) : Sockets :=
  MkSockets (rset s) (rset_saved s) p (wset s) (maxfdp1 s) (clientsds s) (cur_clientsds s) (connect_pending s) (buffers s).
Definition set_wset (w : fd_set) (s : Sockets) : Sockets :=
  MkSockets (rset s) (rset_saved s) (pending_wset s) w (maxfdp1 s) (clientsds s) (cur_clientsds s) (connect_pending s) (buffers s).
Definition set_clients (l : fd_list) (c : option nat) (s : Sockets) : Sockets :=
  MkSockets (rset s) (rset_saved s) (pending_wset s) (wset s) (maxfdp1 s) l c (connect_pending s) (buffers s).
Definition set_watched (r : fd_set) (m : Z) (s : Sockets) : Sockets :=
  MkSockets (rset s) r (pending_wset s) (wset s) m (clientsds s) (cur_clientsds s) (connect_pending s) (buffers s).
Definition set_connect_pending (l : fd_list) (s : Sockets) : Sockets :=
  MkSockets (rset s) (rset_saved s) (pending_wset s) (wset s) (maxfdp1 s) (clientsds s) (cur_clientsds s) l (buffers s).
Definition set_buffers (n : net) (s : Sockets) : Sockets :=
  MkSockets (rset s) (rset_saved s) (pending_wset s) (wset s) (maxfdp1 s) (clientsds s) (cur_clientsds s) (connect_pending s) n.

(** [intcompare (content, &socket)] *)
Definition intcompare (socket content : Z) : bool := content =? socket.

(** The state of the buffers at the start; what arrives and what [writev] does are the environment's. *)
Definition SocketBuffer_initialize (ins : gmap Z (list recvd)) (res : list wres) : net :=
  Net SocketBuffer_newDefQ [] [] [] None ins res [].

Definition Socket_outInitialize (ins : gmap Z (list recvd)) (res : list wres) : Sockets :=
  MkSockets ∅ ∅ ∅ ∅ 0 ListInitialize None ListInitialize (SocketBuffer_initialize ins res).

(** The blocks that are freed: the one of each queue, and of the default queue. *)
Definition SocketBuffer_terminate (n : net) : list (list Z) := (buf <$> queues n) ++ [buf (def_queue n)].

(** What is freed, the contents of the three lists and the blocks of the queues. *)
Definition Socket_outTerminate (s : Sockets) : outcome (list Z * list Z * list Z * list (list Z)) :=
  let! p := ListFree (connect_pending s) in
  let! l := ListFree (clientsds s) in
  Ret (p, write_pending (buffers s), l, SocketBuffer_terminate (buffers s)).

(** ** New sockets *)

Definition O_NONBLOCK : Z := 2048.

(** [getfl] is what [F_GETFL] answers, [setfl] what [F_SETFL] answers for the flags. *)
Definition Socket_setnonblocking (getfl : Z) (setfl : Z -> Z) : Z :=
  let flags := if getfl =? 0 then getfl else 0 in setfl (Z.lor flags O_NONBLOCK).

Definition Socket_addSocket (getfl : Z) (setfl : Z -> Z) (newSd : Z) (s : Sockets) : outcome (Z * Sockets) :=
  let! (p, l) := ListFindItem (intcompare newSd) (clientsds s) in
  match p with
  | None =>
      let! l1 := ListAppend newSd 4 l in
      let! r := FD_SET newSd (rset_saved s) in
      Ret (Socket_setnonblocking getfl setfl,
        set_watched r (Z.max (maxfdp1 s) (newSd + 1)) (set_clients l1 (cur_clientsds s) s))
  | Some _ => Ret (0, set_clients l (cur_clientsds s) s)
  end.

Definition AF_INET : Z := 2.
Definition AF_INET6 : Z := 10.
Definition INVALID_SOCKET : Z := -1.

(** What the kernel and the resolver answer to one [Socket_new]: the result of [getaddrinfo] and the
    families of the addresses, the descriptor, the [errno] when there is none or its flags cannot be set,
    the flags, and the [errno] of [connect], when it fails. *)
Record answers : Type := Answers {
  an_resolved : Z;
  an_families : list Z;
  an_socket : Z;
  an_errno : Z;
  an_getfl : Z;
  an_setfl : Z -> Z;
  an_connect : option Z
}.

(** The first address of IPv4, else the first address. *)
Definition preferred (families : list Z) : option Z :=
  match list_find (fun f => f = AF_INET) families with
  | Some (_, f) => Some f
  | None => head families
  end.

(** The result, and [*sock]. *)
Definition Socket_new (a : answers) (s : Sockets) : outcome (Z * Z * Sockets) :=
  let rc := if an_resolved a =? 0 then
      match preferred (an_families a) with
      | None => -1
      | Some f => if f =? AF_INET6 then 0 else if f =? AF_INET then 0 else -1
      end
    else an_resolved a in
  if negb (rc =? 0) then Ret (rc, -1, s)
  else
    let sock := an_socket a in
    if sock =? INVALID_SOCKET then Ret (an_errno a, sock, s)
    else
      let! (rc1, s1) := Socket_addSocket (an_getfl a) (an_setfl a) sock s in
      if rc1 =? SOCKET_ERROR then Ret (an_errno a, sock, s1)
      else
        let rc2 := match an_connect a with None => 0 | Some errno => errno end in
        if (rc2 =? EINPROGRESS) || (rc2 =? EWOULDBLOCK) then
          let! l := ListAppend sock 4 (connect_pending s1) in Ret (rc2, sock, set_connect_pending l s1)
        else Ret (rc2, sock, s1).

(** ** Waiting *)

(** A socket whose connect is pending is ready when it can be written, another one when it can be read
    and written and no write of the client is pending. *)
Definition isReady (socket : Z) (s : Sockets) : outcome (bool * Sockets) :=
  let! (p, l) := ListFindItem (intcompare socket) (connect_pending s) in
  let s1 := set_connect_pending l s in
  let! w := FD_ISSET socket (wset s1) in
  match p, w with
  | Some _, true =>
      let! (_, l2) := ListRemoveItem (intcompare socket) (connect_pending s1) in
      Ret (true, set_connect_pending l2 s1)
  | _, _ =>
      let! r := FD_ISSET socket (rset s1) in
      if r && w then
        let (free, n) := Socket_noPendingWrites socket (buffers s1) in Ret (free, set_buffers n s1)
      else Ret (false, s1)
  end.

(** The loops over the sockets from [cur_clientsds] on. *)
Fixpoint ready_loop (fuel : nat) (s : Sockets) : outcome Sockets :=
  match cur_clientsds s with
  | None => Ret s
  | Some _ =>
      match fuel with
      | O => Blocked
      | S fuel' =>
          let! e := load (cur_clientsds s) (clientsds s) in
          let! (ready, s1) := isReady (content e) s in
          if ready then Ret s1
          else
            let! p := ListNextElement (clientsds s1) (cur_clientsds s1) in
            ready_loop fuel' (set_clients (clientsds s1) p s1)
      end
  end.

Definition find_ready (s : Sockets) : outcome Sockets := ready_loop (base.size (elems (clientsds s))) s.

(** The socket at [cur_clientsds], which moves on. *)
Definition take_ready (s : Sockets) : outcome (Z * Sockets) :=
  match cur_clientsds s with
  | None => Ret (0, s)
  | Some _ =>
      let! e := load (cur_clientsds s) (clientsds s) in
      let! p := ListNextElement (clientsds s) (cur_clientsds s) in
      Ret (content e, set_clients (clientsds s) p s)
  end.

(** What the kernel answers to the two calls of [select]: the descriptors that can be read and written,
    and those that can be written; nothing for an error, which leaves the sets as they are. *)
Record kernel : Type := Kernel {
  k_first : option (fd_set * fd_set);
  k_second : option fd_set
}.

(** [zero] and [one], in seconds and microseconds. *)
Definition timeval : Type := (Z * Z)%type.
Definition zero : timeval := (0, 0).
Definition one : timeval := (1, 0).

(** What a call tells: its result, the timeout of the first [select], and the sockets whose writes were
    completed, for which the callback was called. *)
Record told : Type := Told {
  t_socket : Z;
  t_waited : option timeval;
  t_completed : list Z
}.

(** The result of [Socket_continueWrites] is always 0. *)
Definition Socket_getReadySocket (more_work : bool) (tp : option timeval) (k : kernel) (s : Sockets) :
    outcome (told * Sockets) :=
  if count (clientsds s) =? 0 then Ret (Told 0 None [], s)
  else
    let timeout := if more_work then zero else default one tp in
    let! s1 := find_ready s in
    match cur_clientsds s1 with
    | Some _ => let! (rc, s2) := take_ready s1 in Ret (Told rc None [], s2)
    | None =>
        match k_first k with
        | None => Ret (Told SOCKET_ERROR (Some timeout) [], set_rset (rset_saved s1) s1)
        | Some (r, w) =>
            let r1 := selected (maxfdp1 s1) (rset_saved s1) r in
            let pwset := selected (maxfdp1 s1) (pending_wset s1) w in
            let! (done, n) := Socket_continueWrites (elements pwset) (buffers s1) in
            let s2 := set_buffers n (set_pending_wset (pending_wset s1 ∖ list_to_set done) (set_rset r1 s1)) in
            match k_second k with
            | None => Ret (Told SOCKET_ERROR (Some timeout) done, set_wset (rset_saved s2) s2)
            | Some w2 =>
                let w1 := selected (maxfdp1 s2) (rset_saved s2) w2 in
                let s3 := set_wset w1 s2 in
                if bool_decide (r1 = ∅ /\ pwset = ∅ /\ w1 = ∅) then Ret (Told 0 (Some timeout) done, s3)
                else
                  let! s4 := find_ready (set_clients (clientsds s3) (first (clientsds s3)) s3) in
                  let! (rc, s5) := take_ready s4 in
                  Ret (Told rc (Some timeout) done, s5)
            end
        end
    end.

(** ** Writing *)

Definition Socket_putdatas (socket : Z) (bufs : list (list Z)) (s : Sockets) : outcome (Z * Sockets) :=
  let (rc, n) := SockBuf.Socket_putdatas socket bufs (buffers s) in
  let s1 := set_buffers n s in
  if rc =? TCPSOCKET_INTERRUPTED then
    let! p := FD_SET socket (pending_wset s1) in Ret (rc, set_pending_wset p s1)
  else Ret (rc, s1).

Definition Socket_addPendingWrite (socket : Z) (s : Sockets) : outcome Sockets :=
  let! p := FD_SET socket (pending_wset s) in Ret (set_pending_wset p s).

Definition Socket_clearPendingWrite (socket : Z) (s : Sockets) : outcome Sockets :=
  let! b := FD_ISSET socket (pending_wset s) in
  if b then let! p := FD_CLR socket (pending_wset s) in Ret (set_pending_wset p s) else Ret s.

(** ** Closing *)

(** The largest descriptor of the list. *)
Fixpoint max_loop (fuel : nat) (l : fd_list) (pos : option nat) (m : Z) : outcome Z :=
  match fuel with
  | O => Blocked
  | S fuel' =>
      let! p := ListNextElement l pos in
      match p with
      | None => Ret m
      | Some _ => let! e := load p l in max_loop fuel' l p (Z.max (content e) m)
      end
  end.

Definition Socket_close (socket : Z) (s : Sockets) : outcome Sockets :=
  let! r := FD_CLR socket (rset_saved s) in
  let! s1 := Socket_clearPendingWrite socket s in
  let! cur := match cur_clientsds s1 with
              | None => Ret None
              | Some _ =>
                  let! e := load (cur_clientsds s1) (clientsds s1) in
                  Ret (if content e =? socket then next e else cur_clientsds s1)
              end in
  let! (_, cp) := ListRemoveItem (intcompare socket) (connect_pending s1) in
  let! (_, l) := ListRemoveItem (intcompare socket) (clientsds s1) in
  let! m := if maxfdp1 s1 <=? socket + 1 then
              let! m := max_loop (S (base.size (elems l))) l None 0 in Ret (m + 1)
            else Ret (maxfdp1 s1) in
  Ret (set_buffers (MqttAsync.Socket_close socket (buffers s1))
        (set_connect_pending cp (set_watched r m (set_clients l cur s1)))).

(** ** Sequences of calls *)

Inductive call : Type :=
| CNew (a : answers)
| CGet (more_work : bool) (tp : option timeval) (k : kernel)
| CPut (socket : Z) (bufs : list (list Z))
| CAddPending (socket : Z)
| CClearPending (socket : Z)
| CClose (socket : Z).

Inductive reply : Type :=
| RNew (rc sock : Z)
| RGet (t : told)
| RPut (rc : Z)
| RDone.

Definition do_call (c : call) (s : Sockets) : outcome (reply * Sockets) :=
  match c with
  | CNew a => let! (rc, sock, s1) := Socket_new a s in Ret (RNew rc sock, s1)
  | CGet more_work tp k => let! (t, s1) := Socket_getReadySocket more_work tp k s in Ret (RGet t, s1)
  | CPut socket bufs => let! (rc, s1) := Socket_putdatas socket bufs s in Ret (RPut rc, s1)
  | CAddPending socket => let! s1 := Socket_addPendingWrite socket s in Ret (RDone, s1)
  | CClearPending socket => let! s1 := Socket_clearPendingWrite socket s in Ret (RDone, s1)
  | CClose socket => let! s1 := Socket_close socket s in Ret (RDone, s1)
  end.

Fixpoint do_calls (cs : list call) (s : Sockets) : outcome (list reply * Sockets) :=
  match cs with
  | [] => Ret ([], s)
  | c :: cs' =>
      let! (r, s1) := do_call c s in
      let! (rs, s2) := do_calls cs' s1 in
      Ret (r :: rs, s2)
  end.
