(* ===== verification/SelectSpec.v ===== *)
(** * SelectSpec: what the client's wait for its sockets promises

    The abstract selector has no pointers, no bound on the descriptors it looks at and no copies of the
    sets: a list of sockets, and of those that are still to be looked at in this round.  Any sequence of
    calls on the sockets of the client gives what it gives, so that the position never dangles and no
    ready socket is out of sight of [select]; and a socket that stays ready is returned within two
    rounds, whatever the others do. *)

From Stdlib Require Import ZArith Lia.
From stdpp Require Import base tactics numbers list gmap.
From S2P Require Import Prelude SockBuf LinkedList MqttAsync MqttRuns Select.

(** ** The abstract selector *)

Record selector : Type := Selector {
  socks : list Z;
  todo : list Z;
  connecting : list Z;
  readable : gset Z;
  writable : gset Z;
  waiting : gset Z;
  io : net
}.

Definition put_todo (l : list Z) (a : selector) : selector :=
  Selector (socks a) l (connecting a) (readable a) (writable a) (waiting a) (io a).
Definition put_connecting (l : list Z) (a : selector) : selector :=
  Selector (socks a) (todo a) l (readable a) (writable a) (waiting a) (io a).
Definition put_readable (r : gset Z) (a : selector) : selector :=
  Selector (socks a) (todo a) (connecting a) r (writable a) (waiting a) (io a).
Definition put_writable (w : gset Z) (a : selector) : selector :=
  Selector (socks a) (todo a) (connecting a) (readable a) w (waiting a) (io a).
Definition put_io (w : gset Z) (n : net) (a : selector) : selector :=
  Selector (socks a) (todo a) (connecting a) (readable a) (writable a) w n.

Definition selector_start (n : net) : selector := Selector [] [] [] ∅ ∅ ∅ n.

Definition without (x : Z) (l : list Z) : list Z := filter (fun y => y <> x) l.

(** A new socket is looked at in the round that goes on, if there is one. *)
Definition a_new (an : answers) (a : selector) : Z * Z * selector :=
  let rc := if an_resolved an =? 0 then
      match preferred (an_families an) with
      | None => -1
      | Some f => if f =? AF_INET6 then 0 else if f =? AF_INET then 0 else -1
      end
    else an_resolved an in
  if negb (rc =? 0) then (rc, -1, a)
  else if an_socket an =? INVALID_SOCKET then (an_errno an, an_socket an, a)
  else
    let x := an_socket an in
    let a1 := Selector (socks a ++ [x]) (match todo a with [] => [] | l => l ++ [x] end) (connecting a)
      (readable a) (writable a) (waiting a) (io a) in
    if Socket_setnonblocking (an_getfl an) (an_setfl an) =? SOCKET_ERROR then (an_errno an, x, a1)
    else
      let rc := default 0 (an_connect an) in
      (rc, x, if (rc =? EINPROGRESS) || (rc =? EWOULDBLOCK) then put_connecting (connecting a1 ++ [x]) a1 else a1).

Definition a_ready (x : Z) (a : selector) : bool * selector :=
  if bool_decide (x ∈ connecting a /\ x ∈ writable a) then (true, put_connecting (without x (connecting a)) a)
  else if bool_decide (x ∈ readable a /\ x ∈ writable a) then
    let (free, n) := Socket_noPendingWrites x (io a) in (free, put_io (waiting a) n a)
  else (false, a).

(** The first ready socket of [l]; the ones behind it are still to be looked at. *)
Fixpoint a_round (l : list Z) (a : selector) : option Z * selector :=
  match l with
  | [] => (None, put_todo [] a)
  | x :: l' => let (b, a1) := a_ready x a in if b then (Some x, put_todo l' a1) else a_round l' a1
  end.

Definition a_writes (ready : gset Z) (n : net) : list Z * net :=
  match Socket_continueWrites (elements ready) n with Ret r => r | _ => ([], n) end.

Definition a_get (more_work : bool) (tp : option timeval) (k : kernel) (a : selector) : told * selector :=
  if bool_decide (socks a = []) then (Told 0 None [], a)
  else
    let timeout := if more_work then zero else default one tp in
    let watched := list_to_set (socks a) in
    match a_round (todo a) a with
    | (Some x, a1) => (Told x None [], a1)
    | (None, a1) =>
        match k_first k with
        | None => (Told SOCKET_ERROR (Some timeout) [], put_readable watched a1)
        | Some (r, w) =>
            let (done, n) := a_writes (waiting a1 ∩ w) (io a1) in
            let a2 := put_io (waiting a1 ∖ list_to_set done) n (put_readable (watched ∩ r) a1) in
            match k_second k with
            | None => (Told SOCKET_ERROR (Some timeout) done, put_writable watched a2)
            | Some w2 =>
                let a3 := put_writable (watched ∩ w2) a2 in
                if bool_decide (watched ∩ r = ∅ /\ waiting a1 ∩ w = ∅ /\ watched ∩ w2 = ∅)
                then (Told 0 (Some timeout) done, a3)
                else let (x, a4) := a_round (socks a3) a3 in (Told (default 0 x) (Some timeout) done, a4)
            end
        end
    end.

Definition a_put (x : Z) (bufs : list (list Z)) (a : selector) : Z * selector :=
  let (rc, n) := SockBuf.Socket_putdatas x bufs (io a) in
  (rc, put_io (if rc =? TCPSOCKET_INTERRUPTED then {[x]} ∪ waiting a else waiting a) n a).

Definition a_close (x : Z) (a : selector) : selector :=
  Selector (without x (socks a)) (without x (todo a)) (without x (connecting a)) (readable a) (writable a)
    (waiting a ∖ {[x]}) (MqttAsync.Socket_close x (io a)).

Definition a_call (c : call) (a : selector) : reply * selector :=
  match c with
  | CNew an => let '(rc, x, a1) := a_new an a in (RNew rc x, a1)
  | CGet more_work tp k => let (t, a1) := a_get more_work tp k a in (RGet t, a1)
  | CPut x bufs => let (rc, a1) := a_put x bufs a in (RPut rc, a1)
  | CAddPending x => (RDone, put_io ({[x]} ∪ waiting a) (io a) a)
  | CClearPending x => (RDone, put_io (waiting a ∖ {[x]}) (io a) a)
  | CClose x => (RDone, a_close x a)
  end.

Fixpoint a_calls (cs : list call) (a : selector) : list reply * selector :=
  match cs with
  | [] => ([], a)
  | c :: cs' => let (r, a1) := a_call c a in let (rs, a2) := a_calls cs' a1 in (r :: rs, a2)
  end.

(** What the callers keep to, and the kernel: a new descriptor is not one of an open socket, and fits
    into an [fd_set]; the client writes only to its sockets. *)
Definition call_fits (c : call) (a : selector) : Prop :=
  match c with
  | CNew an => an_socket an = INVALID_SOCKET \/ (fd_ok (an_socket an) = true /\ an_socket an ∉ socks a)
  | CGet _ _ _ => True
  | CPut x _ | CAddPending x => x ∈ socks a
  | CClearPending x | CClose x => fd_ok x = true
  end.

Fixpoint calls_fit (cs : list call) (a : selector) : Prop :=
  match cs with
  | [] => True
  | c :: cs' => call_fits c a /\ calls_fit cs' (snd (a_call c a))
  end.

(** ** Lists of descriptors *)

(** The descriptors of the elements. *)
Notation values := (fmap (M:=list) (snd (A:=nat) (B:=Z))).

(** The list has the elements [xs], a location and a descriptor each. *)
Definition holds (l : fd_list) (xs : list (nat * Z)) : Prop := exists k, rep l xs k.

Lemma holds_items l xs k : rep l xs k -> items k = values xs.
Proof. intros H. by rewrite <- (rep_items _ _ _ H). Qed.

Lemma c_find_hit x (k : clist (A := Z)) i k' : c_find (intcompare x) k = (Some i, k') -> items k !! i = Some x.
Proof.
  unfold c_find, intcompare. destruct (cursor k ≫= _) as [y|] eqn:E; [destruct (Z.eqb_spec y x) as [->|]|].
  - destruct (cursor k); [|done]. by intros [= -> _].
  - destruct (list_find _ _) as [[j y']|] eqn:F; [|done]. intros [= -> _].
    apply list_find_Some in F as (F & Hy%Z.eqb_eq & _). by subst.
  - destruct (list_find _ _) as [[j y']|] eqn:F; [|done]. intros [= -> _].
    apply list_find_Some in F as (F & Hy%Z.eqb_eq & _). by subst.
Qed.

Lemma c_find_miss x (k : clist (A := Z)) k' : c_find (intcompare x) k = (None, k') -> x ∉ items k.
Proof.
  unfold c_find, intcompare. destruct (match _ with Some _ => _ | None => _ end) eqn:E.
  - intros [= E2 _]. rewrite E2 in E. done.
  - destruct (list_find _ _) as [[j y']|] eqn:F; [done|]. intros _ Hx. apply list_find_None in F.
    rewrite Forall_forall in F. apply (F x Hx). apply Z.eqb_refl.
Qed.

Lemma find_holds x l xs :
  holds l xs ->
  exists p l', ListFindItem (intcompare x) l = Ret (p, l') /\ holds l' xs /\ (is_Some p <-> x ∈ values xs).
Proof.
  intros [k H]. destruct (c_find (intcompare x) k) as [r k'] eqn:E.
  destruct (ListFindItem_spec _ _ _ _ _ _ H E) as (l' & E2 & H' & Hi). eexists _, l'.
  split; [exact E2|]. split; [by exists k'|]. rewrite <- (holds_items _ _ _ H). destruct r as [i|]; cbn.
  - apply c_find_hit in E. split; [|intros _; apply lookup_lt_is_Some_2; rewrite length_fmap; by apply Hi].
    intros _. by eapply list_elem_of_lookup_2.
  - apply c_find_miss in E. split; [by intros []|done].
Qed.

Notation keep x := (filter (fun e : nat * Z => e.2 <> x)).

Lemma keep_absent x (xs : list (nat * Z)) : x ∉ values xs -> keep x xs = xs.
Proof.
  intros Hx. induction xs as [|[b y] xs IH]; [done|]. cbn in Hx. apply not_elem_of_cons in Hx as [Hy Hx].
  rewrite filter_cons_True by (simpl; congruence). by rewrite IH.
Qed.

Lemma remove_values x (xs : list (nat * Z)) i :
  NoDup (values xs) -> values xs !! i = Some x -> delete i xs = keep x xs.
Proof.
  revert i. induction xs as [|[b y] xs IH]; intros i Hn Hi; [done|]. cbn in Hn. apply NoDup_cons in Hn as [Hy Hn].
  destruct i as [|i]; cbn in Hi.
  - injection Hi as ->. cbn [delete list_delete]. rewrite filter_cons_False by (simpl; tauto).
    symmetry. by apply keep_absent.
  - cbn [delete list_delete]. rewrite filter_cons_True; [f_equal; by apply IH|]. simpl. intros ->.
    apply Hy. by eapply list_elem_of_lookup_2.
Qed.

Lemma keep_values x (xs : list (nat * Z)) : values (keep x xs) = without x (values xs).
Proof.
  induction xs as [|[b y] xs IH]; [done|]. unfold without in *. cbn. destruct (decide (y <> x)); [exact (f_equal (cons y) IH)|exact IH].
Qed.

Lemma remove_holds x l xs :
  holds l xs -> NoDup (values xs) ->
  exists b l', ListRemoveItem (intcompare x) l = Ret (b, l') /\ holds l' (keep x xs).
Proof.
  intros [k H] Hn. destruct (ListUnlink_spec (intcompare x) true l xs k H) as (l' & E & H').
  eexists _, l'. split; [exact E|]. destruct (c_find (intcompare x) k) as [[i|] k'] eqn:Ec; cbn in H'.
  - apply c_find_hit in Ec. rewrite (holds_items _ _ _ H) in Ec. rewrite <- (remove_values x xs i Hn Ec). by eexists.
  - apply c_find_miss in Ec. rewrite (holds_items _ _ _ H) in Ec. rewrite (keep_absent x xs Ec). by eexists.
Qed.

Lemma append_holds x l xs :
  holds l xs -> exists l' c, ListAppend x 4 l = Ret l' /\ holds l' (xs ++ [(c, x)]).
Proof. intros [k H]. destruct (ListAppend_spec l xs k x 4 H) as (l' & c & E & H'). exists l', c. split; [done|]. by eexists. Qed.

Lemma load_holds l xs1 c x xs2 : holds l (xs1 ++ (c, x) :: xs2) ->
  load (Some c) l = Ret (LE (last_ptr None xs1) (hd_ptr xs2 None) x).
Proof. intros [k H]. apply load_eq. by eapply rep_elem. Qed.

Lemma next_holds l xs1 c x xs2 : holds l (xs1 ++ (c, x) :: xs2) -> ListNextElement l (Some c) = Ret (hd_ptr xs2 None).
Proof. intros H. cbn [ListNextElement]. by rewrite (load_holds _ _ _ _ _ H). Qed.

Lemma first_holds l xs : holds l xs -> first l = hd_ptr xs None.
Proof. intros [k H]. by eapply rep_first. Qed.

Lemma count_holds l xs : holds l xs -> (count l =? 0) = bool_decide (values xs = []).
Proof.
  intros [k H]. rewrite (rep_count _ _ _ H). destruct xs; [done|]. rewrite bool_decide_eq_false_2 by done.
  apply Z.eqb_neq. simpl. lia.
Qed.

Lemma size_holds l xs : holds l xs -> base.size (elems l) = length xs.
Proof. intros [k H]. by eapply rep_size. Qed.

Lemma max_loop_holds l xs2 fuel : forall xs1 m,
  holds l (xs1 ++ xs2) -> (length xs2 < fuel)%nat ->
  exists m', max_loop fuel l (last_ptr None xs1) m = Ret m' /\ m <= m' /\
    (forall x, x ∈ values xs2 -> x <= m') /\ (m' = m \/ m' ∈ values xs2).
Proof.
  revert fuel. induction xs2 as [|[c x] xs2 IH]; intros fuel xs1 m H Hf; (destruct fuel as [|fuel]; [simpl in Hf; lia|]);
    cbn [max_loop]; destruct H as [k H]; rewrite (next_spec _ _ _ _ H); cbn [obind hd_ptr].
  - exists m. split; [done|]. split; [lia|]. split; [by intros x ?%elem_of_nil|by left].
  - rewrite (load_holds _ _ _ _ _ (ex_intro _ k H)). cbn [obind content].
    destruct (IH fuel (xs1 ++ [(c, x)]) (Z.max x m)) as (m' & E & Hm & Hall & Hin).
    { exists k. by rewrite <- app_assoc. } { simpl in Hf. lia. }
    rewrite last_ptr_snoc in E. exists m'. split; [done|]. split; [lia|]. split.
    + intros y. rewrite fmap_cons. intros [->|Hy]%elem_of_cons; [simpl; lia|by apply Hall].
    + rewrite fmap_cons. destruct Hin as [->|Hin]; [|right; by apply elem_of_cons; right].
      destruct (Z.max_spec x m) as [[_ ->]|[_ ->]]; [by left|right; by apply elem_of_cons; left].
Qed.

(** ** The abstraction *)

(** [xs1] was looked at in this round, [xs2] is still to come, [cs] wait for their connect. *)
Record tracks (s : Sockets) (a : selector) (xs1 xs2 cs : list (nat * Z)) : Prop := {
  tr_clients : holds (clientsds s) (xs1 ++ xs2);
  tr_cur : cur_clientsds s = hd_ptr xs2 None;
  tr_socks : socks a = values (xs1 ++ xs2);
  tr_todo : todo a = values xs2;
  tr_pending : holds (connect_pending s) cs;
  tr_connecting : connecting a = values cs;
  tr_distinct : NoDup (socks a);
  tr_once : NoDup (connecting a);
  tr_among : forall x, x ∈ connecting a -> x ∈ socks a;
  tr_waiting : forall x, x ∈ waiting a -> x ∈ socks a;
  tr_saved : rset_saved s = list_to_set (socks a);
  tr_read : rset s = readable a;
  tr_write : wset s = writable a;
  tr_pwset : pending_wset s = waiting a;
  tr_io : buffers s = io a;
  tr_net : net_ok (io a);
  tr_fds : forall x, x ∈ socks a -> fd_ok x = true /\ x < maxfdp1 s;
  tr_max : 0 <= maxfdp1 s <= FD_SETSIZE
}.

Definition tracked (s : Sockets) (a : selector) : Prop := exists xs1 xs2 cs, tracks s a xs1 xs2 cs.

Lemma without_in x y l : y ∈ without x l <-> y <> x /\ y ∈ l.
Proof. unfold without. by rewrite list_elem_of_filter. Qed.

Lemma a_ready_todo x a : todo (snd (a_ready x a)) = todo a /\ socks (snd (a_ready x a)) = socks a.
Proof. unfold a_ready, Socket_noPendingWrites. by repeat case_bool_decide. Qed.

Lemma isReady_tracked x s a xs1 xs2 cs :
  tracks s a xs1 xs2 cs -> x ∈ socks a ->
  exists s' cs', isReady x s = Ret (fst (a_ready x a), s') /\ tracks s' (snd (a_ready x a)) xs1 xs2 cs'.
Proof.
  intros [] Hx. unfold isReady, a_ready, FD_ISSET. destruct (tr_fds0 x Hx) as [-> _].
  destruct (find_holds x _ _ tr_pending0) as (p & l & -> & Hl & Hp). cbn [obind]. rewrite <- tr_connecting0 in Hp.
  cbn [set_connect_pending wset rset]. rewrite tr_write0, tr_read0.
  destruct (decide (x ∈ connecting a /\ x ∈ writable a)) as [[Hc Hw]|Hn].
  - rewrite (bool_decide_eq_true_2 (x ∈ writable a)), (bool_decide_eq_true_2 (_ /\ _)) by done.
    destruct p; [|by apply Hp in Hc as []]. cbn [connect_pending set_connect_pending].
    rewrite tr_connecting0 in tr_once0. destruct (remove_holds x l cs Hl tr_once0) as (b & l2 & -> & Hl2). cbn [obind fst snd].
    eexists _, (keep x cs). split; [reflexivity|]. split; cbn; try done.
    + by rewrite keep_values, tr_connecting0.
    + rewrite tr_connecting0. by apply NoDup_filter.
    + intros y [_ Hy]%without_in. by apply tr_among0.
  - rewrite (bool_decide_eq_false_2 (x ∈ connecting a /\ _)) by done.
    assert (E : forall (A : Type) (u v : A), match p, bool_decide (x ∈ writable a) with Some _, true => u | _, _ => v end = v).
    { intros A u v. destruct p; [|done]. rewrite bool_decide_eq_false_2; [done|]. intros Hw. apply Hn. split; [by apply Hp|done]. }
    rewrite E. cbn [obind]. destruct (decide (x ∈ readable a /\ x ∈ writable a)) as [[Hr Hw]|Hn2].
    + rewrite !bool_decide_eq_true_2 by done. cbn [andb set_connect_pending buffers]. rewrite tr_io0.
      destruct (Socket_noPendingWrites x (io a)) as [free n] eqn:En. cbn [fst snd].
      eexists _, cs. split; [reflexivity|]. split; cbn; try done. by eapply noPendingWrites_ok.
    + rewrite (bool_decide_eq_false_2 (x ∈ readable a /\ _)) by done. cbn [fst snd].
      assert (bool_decide (x ∈ readable a) && bool_decide (x ∈ writable a) = false) as ->.
      { rewrite <- bool_decide_and. by apply bool_decide_eq_false_2. }
      eexists _, cs. split; [reflexivity|]. by split.
Qed.

Lemma a_ready_put x t a : a_ready x (put_todo t a) = (fst (a_ready x a), put_todo t (snd (a_ready x a))).
Proof. unfold a_ready. cbn. repeat case_bool_decide; try done. by destruct (Socket_noPendingWrites x (io a)). Qed.

Lemma a_round_put l : forall t a, a_round l (put_todo t a) = a_round l a.
Proof.
  induction l as [|x l IH]; intros t a; [done|]. cbn [a_round]. rewrite a_ready_put.
  destruct (a_ready x a) as [[] a1]; cbn [fst snd]; [done|apply IH].
Qed.

(** The position moves past a socket. *)
Lemma tracks_next s a xs1 c x xs2 cs :
  tracks s a xs1 ((c, x) :: xs2) cs ->
  ListNextElement (clientsds s) (cur_clientsds s) = Ret (hd_ptr xs2 None) /\
  tracks (set_clients (clientsds s) (hd_ptr xs2 None) s) (put_todo (values xs2) a) (xs1 ++ [(c, x)]) xs2 cs.
Proof.
  intros []. rewrite tr_cur0. split; [by eapply next_holds|].
  split; cbn; rewrite <- ?app_assoc; done.
Qed.

Lemma ready_loop_tracked xs2 : forall xs1 cs fuel s a,
  tracks s a xs1 xs2 cs -> (length xs2 <= fuel)%nat ->
  exists s1, ready_loop fuel s = Ret s1 /\
    match a_round (values xs2) a with
    | (Some x, a1) => exists ys1 c ys2 cs', tracks s1 (put_todo (x :: todo a1) a1) ys1 ((c, x) :: ys2) cs'
    | (None, a1) => exists ys1 cs', tracks s1 a1 ys1 [] cs'
    end.
Proof.
  induction xs2 as [|[c x] xs2 IH]; intros xs1 cs fuel s a H Hf.
  - exists s. pose proof (tr_cur _ _ _ _ _ H) as Hc. cbn in Hc. split; [destruct fuel; cbn; by rewrite Hc|].
    cbn. exists xs1, cs. destruct H. by split.
  - destruct fuel as [|fuel]; [simpl in Hf; lia|]. cbn [ready_loop].
    pose proof (tr_cur _ _ _ _ _ H) as Hc. cbn in Hc. rewrite Hc.
    rewrite (load_holds _ _ _ _ _ (tr_clients _ _ _ _ _ H)). cbn [obind content].
    assert (Hx : x ∈ socks a).
    { rewrite (tr_socks _ _ _ _ _ H), fmap_app. apply elem_of_app. right. apply list_elem_of_here. }
    destruct (isReady_tracked x s a _ _ _ H Hx) as (s1 & cs1 & -> & H1). cbn [obind]. rewrite fmap_cons. cbn [a_round snd].
    destruct (a_ready x a) as [[] a1]; cbn [fst snd] in *.
    + exists s1. split; [done|]. exists xs1, c, xs2, cs1. destruct H1. by split.
    + destruct (tracks_next _ _ _ _ _ _ _ H1) as [-> H2]. cbn [obind].
      destruct (IH _ _ fuel _ _ H2 ltac:(simpl in Hf; lia)) as (s2 & E & Hs2). exists s2. split; [done|].
      by rewrite a_round_put in Hs2.
Qed.

(** A round from the position on, and the socket it ends at. *)
Lemma round_tracked s a xs1 xs2 cs :
  tracks s a xs1 xs2 cs ->
  exists s1, find_ready s = Ret s1 /\
    match a_round (todo a) a with
    | (Some x, a1) => is_Some (cur_clientsds s1) /\ exists s2, take_ready s1 = Ret (x, s2) /\ tracked s2 a1
    | (None, a1) => cur_clientsds s1 = None /\ take_ready s1 = Ret (0, s1) /\ tracked s1 a1
    end.
Proof.
  intros H. unfold find_ready. rewrite (size_holds _ _ (tr_clients _ _ _ _ _ H)), (tr_todo _ _ _ _ _ H).
  destruct (ready_loop_tracked xs2 xs1 cs (length (xs1 ++ xs2)) s a H) as (s1 & -> & Hs1); [rewrite length_app; lia|].
  exists s1. split; [done|]. destruct (a_round (values xs2) a) as [[x|] a1].
  - destruct Hs1 as (ys1 & c & ys2 & cs' & H1). pose proof (tr_cur _ _ _ _ _ H1) as Hc. cbn in Hc.
    unfold take_ready. rewrite Hc. split; [by eexists|]. rewrite (load_holds _ _ _ _ _ (tr_clients _ _ _ _ _ H1)).
    cbn [obind]. rewrite <- Hc. destruct (tracks_next _ _ _ _ _ _ _ H1) as [-> H2]. cbn [obind content].
    eexists. split; [reflexivity|]. exists (ys1 ++ [(c, x)]), ys2, cs'.
    pose proof (tr_todo _ _ _ _ _ H1) as Ht. cbn in Ht. injection Ht as Ht. rewrite <- Ht in H2. by destruct a1.
  - destruct Hs1 as (ys1 & cs' & H1). pose proof (tr_cur _ _ _ _ _ H1) as Hc. cbn in Hc.
    split; [done|]. split; [unfold take_ready; by rewrite Hc|]. by exists ys1, [], cs'.
Qed.

(** A round that starts at the first socket. *)
Lemma restart_tracked s a : tracked s a ->
  tracked (set_clients (clientsds s) (first (clientsds s)) s) (put_todo (socks a) a).
Proof.
  intros (xs1 & xs2 & cs & []). exists [], (xs1 ++ xs2), cs. split; try done. by apply first_holds.
Qed.

(** All the sockets are below [maxfdp1]: [select] sees those that are ready. *)
Lemma selected_all m (u r : gset Z) : (forall x, x ∈ u -> x < m) -> selected m u r = u ∩ r.
Proof. intros H. apply leibniz_equiv. intros x. unfold selected. rewrite elem_of_filter, elem_of_intersection. naive_solver. Qed.

(** ** The calls *)

Lemma tracked_rset r s a : tracked s a -> tracked (set_rset r s) (put_readable r a).
Proof. intros (xs1 & xs2 & cs & []). by exists xs1, xs2, cs. Qed.

Lemma tracked_wset w s a : tracked s a -> tracked (set_wset w s) (put_writable w a).
Proof. intros (xs1 & xs2 & cs & []). by exists xs1, xs2, cs. Qed.

Lemma tracked_io w n s a :
  tracked s a -> net_ok n -> (forall x, x ∈ w -> x ∈ socks a) ->
  tracked (set_buffers n (set_pending_wset w s)) (put_io w n a).
Proof. intros (xs1 & xs2 & cs & []) Hn Hw. by exists xs1, xs2, cs. Qed.

Lemma a_round_keeps l : forall a,
  socks (snd (a_round l a)) = socks a /\ readable (snd (a_round l a)) = readable a /\
  writable (snd (a_round l a)) = writable a /\ waiting (snd (a_round l a)) = waiting a /\
  write_pending (io (snd (a_round l a))) = write_pending (io a).
Proof.
  induction l as [|x l IH]; intros a; [done|]. cbn [a_round]. unfold a_ready, Socket_noPendingWrites.
  repeat case_bool_decide; cbn [fst snd]; try done; destruct (IH a) as (E1 & E2 & E3 & E4 & E5); try done.
  apply (IH (put_io (waiting a) (SockBuf.set_current (Some x) (io a)) a)).
Qed.

Lemma a_writes_ok r n :
  net_ok n -> Socket_continueWrites (elements r) n = Ret (a_writes r n) /\ net_ok (snd (a_writes r n)).
Proof. intros H. unfold a_writes. by destruct (continueWrites_ok (elements r) n H) as (d & n' & -> & Hn). Qed.

Lemma get_tracked more_work tp k s a :
  tracked s a ->
  exists s', Socket_getReadySocket more_work tp k s = Ret (fst (a_get more_work tp k a), s') /\
    tracked s' (snd (a_get more_work tp k a)).
Proof.
  intros (xs1 & xs2 & cs & H). unfold Socket_getReadySocket, a_get.
  rewrite (count_holds _ _ (tr_clients _ _ _ _ _ H)), <- (tr_socks _ _ _ _ _ H).
  case_bool_decide; [exists s; split; [done|by exists xs1, xs2, cs]|].
  destruct (round_tracked s a xs1 xs2 cs H) as (s1 & -> & H1). cbn [obind].
  destruct (a_round_keeps (todo a) a) as (E1 & _ & _ & E4 & _).
  destruct (a_round (todo a) a) as [[x|] a1]; cbn [fst snd] in *.
  { destruct H1 as ([c ->] & s2 & -> & H2). cbn [obind fst snd]. by exists s2. }
  destruct H1 as (-> & _ & H1). clear H.
  assert (Hs1 : rset_saved s1 = list_to_set (socks a) /\ pending_wset s1 = waiting a1 /\ buffers s1 = io a1 /\
    net_ok (io a1) /\ (forall x, x ∈ socks a -> x < maxfdp1 s1) /\ (forall x, x ∈ waiting a1 -> x ∈ socks a)).
  { destruct H1 as (ys1 & ys2 & cs1 & []). rewrite <- E1. split_and!; try done. intros x Hx. by apply tr_fds0. }
  destruct Hs1 as (Es & Ep & Eb & Hn & Hm & Hw). destruct (k_first k) as [[r w]|]; cbn [fst snd].
  2: { eexists. split; [reflexivity|]. rewrite Es. by apply tracked_rset. }
  assert (Hsel : forall u, selected (maxfdp1 s1) (list_to_set (socks a)) u = list_to_set (socks a) ∩ u).
  { intros u. apply selected_all. intros x Hx%elem_of_list_to_set. by apply Hm. }
  rewrite Es, Ep, Eb, Hsel, (selected_all _ (waiting a1)) by (intros x Hx; by apply Hm, Hw).
  destruct (a_writes_ok (waiting a1 ∩ w) (io a1) Hn) as [-> Hn2]. destruct (a_writes _ _) as [done n]; cbn [obind snd] in *.
  set (s2 := set_buffers n _). set (a2 := put_io _ n _).
  assert (H2 : tracked s2 a2).
  { apply tracked_io; [by apply tracked_rset|done|]. intros x [Hx _]%elem_of_difference. cbn. rewrite E1. by apply Hw. }
  assert (Es2 : rset_saved s2 = list_to_set (socks a)) by done. assert (Em2 : maxfdp1 s2 = maxfdp1 s1) by done.
  assert (E2 : socks a2 = socks a) by done.
  destruct (k_second k) as [w2|]; cbn [fst snd].
  2: { eexists. split; [reflexivity|]. rewrite Es2. by apply tracked_wset. }
  rewrite Es2, Em2, Hsel.
  apply (tracked_wset (list_to_set (socks a) ∩ w2)) in H2. case_bool_decide; [eexists; split; [reflexivity|done]|].
  apply restart_tracked in H2 as (ys1 & ys2 & cs2 & H2).
  destruct (round_tracked _ _ _ _ _ H2) as (s3 & -> & H3). cbn [obind]. cbn [put_todo todo] in H3. rewrite a_round_put in H3.
  destruct (a_round (socks (put_writable _ a2)) _) as [[x|] a4]; cbn [fst snd default].
  - destruct H3 as (_ & s4 & -> & H4). cbn [obind]. by exists s4.
  - destruct H3 as (_ & -> & H4). cbn [obind]. by exists s3.
Qed.

Lemma fd_ok_spec x : fd_ok x = true -> 0 <= x < FD_SETSIZE.
Proof. unfold fd_ok. lia. Qed.

(** A new element at the end is still to come, unless the round is over. *)
Lemma add_tracked getfl setfl x s a :
  tracked s a -> fd_ok x = true -> x ∉ socks a ->
  exists s', Socket_addSocket getfl setfl x s = Ret (Socket_setnonblocking getfl setfl, s') /\
    tracked s' (Selector (socks a ++ [x]) (match todo a with [] => [] | l => l ++ [x] end) (connecting a)
      (readable a) (writable a) (waiting a) (io a)).
Proof.
  intros (xs1 & xs2 & cs & []) Hx Hn. unfold Socket_addSocket.
  destruct (find_holds x _ _ tr_clients0) as (p & l & -> & Hl & Hp). cbn [obind]. rewrite <- tr_socks0 in Hp.
  destruct p; [by destruct Hn; apply Hp|]. destruct (append_holds x l _ Hl) as (l1 & c & -> & Hl1). cbn [obind].
  unfold FD_SET. rewrite Hx. cbn [obind]. apply fd_ok_spec in Hx as Hb. eexists. split; [reflexivity|].
  assert (Hsaved : {[x]} ∪ rset_saved s = list_to_set (socks a ++ [x])) by (rewrite tr_saved0; set_solver).
  assert (Hd : NoDup (socks a ++ [x])).
  { apply NoDup_app. split; [done|]. split; [|apply NoDup_singleton]. intros y Hy ->%list_elem_of_singleton. done. }
  assert (Hfds : forall y, y ∈ socks a ++ [x] -> fd_ok y = true /\ y < Z.max (maxfdp1 s) (x + 1)).
  { intros y [Hy| ->%list_elem_of_singleton]%elem_of_app; [destruct (tr_fds0 y Hy); split; [done|lia]|split; [done|lia]]. }
  exists (match xs2 with [] => xs1 ++ [(c, x)] | _ => xs1 end), (match xs2 with [] => [] | _ => xs2 ++ [(c, x)] end), cs.
  split; cbn; try done.
  - destruct xs2; rewrite ?app_nil_r in *; [done|by rewrite app_assoc].
  - rewrite tr_cur0. by destruct xs2.
  - rewrite tr_socks0. destruct xs2; rewrite ?app_nil_r, !fmap_app; [done|by rewrite <- app_assoc].
  - rewrite tr_todo0. destruct xs2; [done|]. by rewrite !fmap_app.
  - intros y Hy. apply elem_of_app. left. by apply tr_among0.
  - intros y Hy. apply elem_of_app. left. by apply tr_waiting0.
  - lia.
Qed.

Lemma new_tracked an s a :
  tracked s a -> call_fits (CNew an) a ->
  exists s', Socket_new an s = Ret (fst (a_new an a), s') /\ tracked s' (snd (a_new an a)).
Proof.
  intros H Hf. unfold Socket_new, a_new. set (rc := if an_resolved an =? 0 then _ else _). cbv zeta.
  destruct (rc =? 0); cbn [negb]; [|by exists s]. destruct (Z.eqb_spec (an_socket an) INVALID_SOCKET) as [E|E]; [by exists s|].
  destruct Hf as [?|[Hx Hn]]; [done|].
  assert (Hc : an_socket an ∉ connecting a) by (destruct H as (? & ? & ? & []); eauto).
  destruct (add_tracked (an_getfl an) (an_setfl an) _ s a H Hx Hn) as (s1 & -> & H1). cbn [obind].
  destruct (Socket_setnonblocking _ _ =? SOCKET_ERROR); [by exists s1|].
  replace (match an_connect an with None => 0 | Some errno => errno end) with (default 0 (an_connect an)) by by destruct (an_connect an).
  destruct ((_ =? EINPROGRESS) || _); [|by exists s1].
  destruct H1 as (xs1 & xs2 & cs & []). destruct (append_holds (an_socket an) _ _ tr_pending0) as (l & c & -> & Hl).
  cbn [obind]. eexists. split; [reflexivity|]. exists xs1, xs2, (cs ++ [(c, an_socket an)]). cbn in *. split; cbn; try done.
  - by rewrite tr_connecting0, fmap_app.
  - apply NoDup_app. split; [done|]. split; [|apply NoDup_singleton]. by intros y Hy ->%list_elem_of_singleton.
  - intros y [Hy| ->%list_elem_of_singleton]%elem_of_app; [by apply tr_among0|]. apply elem_of_app. right. apply list_elem_of_here.
Qed.

Lemma put_tracked x bufs s a :
  tracked s a -> x ∈ socks a ->
  exists s', Socket_putdatas x bufs s = Ret (fst (a_put x bufs a), s') /\ tracked s' (snd (a_put x bufs a)).
Proof.
  intros (xs1 & xs2 & cs & H) Hx. unfold Socket_putdatas, a_put. rewrite (tr_io _ _ _ _ _ H).
  destruct (SockBuf.Socket_putdatas x bufs (io a)) as [rc n] eqn:E.
  pose proof (putdatas_ok _ _ _ _ _ (tr_net _ _ _ _ _ H) E) as Hn. cbn [fst snd].
  destruct (rc =? TCPSOCKET_INTERRUPTED); unfold FD_SET; [rewrite (proj1 (tr_fds _ _ _ _ _ H x Hx)); cbn [obind]|];
    (eexists; split; [reflexivity|]); exists xs1, xs2, cs; destruct H; split; cbn; try done.
  - intros y [->%elem_of_singleton|Hy]%elem_of_union; [done|by apply tr_waiting0].
  - by rewrite tr_pwset0.
Qed.

Lemma clear_tracked x s a :
  tracked s a -> fd_ok x = true ->
  Socket_clearPendingWrite x s = Ret (set_pending_wset (waiting a ∖ {[x]}) s).
Proof.
  intros (xs1 & xs2 & cs & H) Hx. unfold Socket_clearPendingWrite, FD_ISSET, FD_CLR. rewrite Hx, (tr_pwset _ _ _ _ _ H).
  cbn [obind]. case_bool_decide; [done|]. replace (waiting a ∖ {[x]}) with (pending_wset s); [by destruct s|].
  rewrite (tr_pwset _ _ _ _ _ H). set_solver.
Qed.

Lemma keep_app x (l1 l2 : list (nat * Z)) : keep x (l1 ++ l2) = keep x l1 ++ keep x l2.
Proof. apply filter_app. Qed.

(** The position of the next round moves off the socket that is closed. *)
Lemma cur_moves x s a xs1 xs2 cs :
  tracks s a xs1 xs2 cs ->
  match cur_clientsds s with
  | None => Ret None
  | Some _ =>
      let! e := load (cur_clientsds s) (clientsds s) in
      Ret (if content e =? x then next e else cur_clientsds s)
  end = Ret (hd_ptr (keep x xs2) None).
Proof.
  intros H. rewrite (tr_cur _ _ _ _ _ H). destruct xs2 as [|[c y] xs2]; [done|]. cbn [hd_ptr].
  rewrite (load_holds _ _ _ _ _ (tr_clients _ _ _ _ _ H)). cbn [obind content next].
  destruct (Z.eqb_spec y x) as [->|Hy]; [|by rewrite filter_cons_True].
  rewrite filter_cons_False by (simpl; tauto). rewrite keep_absent; [done|]. intros Hx.
  pose proof (tr_distinct _ _ _ _ _ H) as Hd. rewrite (tr_socks _ _ _ _ _ H), fmap_app in Hd.
  apply NoDup_app in Hd as (_ & _ & Hd). apply NoDup_cons in Hd as [Hd _]. done.
Qed.

(** [maxfdp1] stays above the sockets that are left. *)
Lemma max_kept x m l xs :
  holds l xs -> (forall y, y ∈ values xs -> fd_ok y = true /\ y < m) -> 0 <= m <= FD_SETSIZE ->
  exists m', (if m <=? x + 1 then let! m := max_loop (S (base.size (elems l))) l None 0 in Ret (m + 1) else Ret m) = Ret m' /\
    (forall y, y ∈ values xs -> fd_ok y = true /\ y < m') /\ 0 <= m' <= FD_SETSIZE.
Proof.
  intros Hl Hy Hm. destruct (m <=? x + 1); [|by exists m].
  destruct (max_loop_holds l xs (S (base.size (elems l))) [] 0) as (m' & E & H0 & Hall & Hin); [done|rewrite (size_holds _ _ Hl); lia|].
  change (last_ptr None []) with (@None nat) in E. rewrite E. cbn [obind]. exists (m' + 1). split; [done|]. split.
  - intros y Hx. split; [by apply Hy|]. specialize (Hall y Hx). lia.
  - split; [lia|]. destruct Hin as [->|Hin]; [unfold FD_SETSIZE; lia|]. destruct (Hy m' Hin) as [Hf _].
    apply fd_ok_spec in Hf. lia.
Qed.

Lemma close_tracked x s a :
  tracked s a -> fd_ok x = true -> exists s', Socket_close x s = Ret s' /\ tracked s' (a_close x a).
Proof.
  intros H Hx. unfold Socket_close, FD_CLR. rewrite Hx. cbn [obind]. rewrite (clear_tracked x s a H Hx). cbn [obind].
  destruct H as (xs1 & xs2 & cs & H). cbn [set_pending_wset cur_clientsds clientsds connect_pending maxfdp1 buffers].
  rewrite (cur_moves x s a xs1 xs2 cs H). cbn [obind]. destruct H.
  rewrite tr_connecting0 in tr_once0. rewrite tr_socks0 in tr_distinct0.
  destruct (remove_holds x _ cs tr_pending0 tr_once0) as (b & cp & -> & Hcp). cbn [obind].
  destruct (remove_holds x _ _ tr_clients0 tr_distinct0) as (b2 & l & -> & Hl). cbn [obind].
  destruct (max_kept x (maxfdp1 s) l _ Hl) as (m & -> & Hfds & Hm); [|done|].
  { intros y Hy. rewrite keep_values in Hy. apply without_in in Hy as [_ Hy]. apply tr_fds0. by rewrite tr_socks0. }
  cbn [obind]. eexists. split; [reflexivity|]. rewrite keep_app in *. rewrite <- tr_socks0 in tr_distinct0.
  exists (keep x xs1), (keep x xs2), (keep x cs). split; cbn; try done.
  - by rewrite <- keep_app, keep_values, tr_socks0.
  - by rewrite keep_values, tr_todo0.
  - by rewrite keep_values, tr_connecting0.
  - by apply NoDup_filter.
  - rewrite tr_connecting0. by apply NoDup_filter.
  - intros y [Hne Hy]%without_in. apply without_in. split; [done|by apply tr_among0].
  - intros y [Hy Hne]%elem_of_difference. apply without_in. split; [set_solver|by apply tr_waiting0].
  - rewrite tr_saved0. apply leibniz_equiv. intros y. rewrite elem_of_difference, !elem_of_list_to_set, without_in. set_solver.
  - by rewrite tr_io0.
  - by apply close_ok.
  - intros y Hy. apply Hfds. by rewrite <- keep_app, keep_values, <- tr_socks0.
Qed.

Lemma call_tracked c s a :
  tracked s a -> call_fits c a ->
  exists s', do_call c s = Ret (fst (a_call c a), s') /\ tracked s' (snd (a_call c a)).
Proof.
  intros H Hf. destruct c as [an|more_work tp k|x bufs|x|x|x]; cbn [do_call a_call].
  - destruct (new_tracked an s a H Hf) as (s' & -> & H'). destruct (a_new an a) as [[rc x] a']. by exists s'.
  - destruct (get_tracked more_work tp k s a H) as (s' & -> & H'). destruct (a_get _ _ _ _) as [t a']. by exists s'.
  - destruct (put_tracked x bufs s a H Hf) as (s' & -> & H'). destruct (a_put _ _ _) as [rc a']. by exists s'.
  - destruct H as (xs1 & xs2 & cs & H). unfold Socket_addPendingWrite, FD_SET. cbn in Hf.
    rewrite (proj1 (tr_fds _ _ _ _ _ H x Hf)), (tr_pwset _ _ _ _ _ H). cbn [obind]. eexists. split; [reflexivity|].
    destruct H. exists xs1, xs2, cs. split; cbn; try done.
    intros y [->%elem_of_singleton|Hy]%elem_of_union; [done|by apply tr_waiting0].
  - rewrite (clear_tracked x s a H Hf). cbn [obind]. eexists. split; [reflexivity|].
    destruct H as (xs1 & xs2 & cs & []). exists xs1, xs2, cs. split; cbn; try done.
    intros y [Hy _]%elem_of_difference. by apply tr_waiting0.
  - destruct (close_tracked x s a H Hf) as (s' & -> & H'). by exists s'.
Qed.

Lemma calls_tracked cs : forall s a,
  tracked s a -> calls_fit cs a ->
  exists s', do_calls cs s = Ret (fst (a_calls cs a), s') /\ tracked s' (snd (a_calls cs a)).
Proof.
  induction cs as [|c cs IH]; intros s a H Hf; [by exists s|]. destruct Hf as [Hc Hf]. cbn [do_calls a_calls].
  destruct (call_tracked c s a H Hc) as (s1 & -> & H1). cbn [obind]. destruct (a_call c a) as [r a1]. cbn [fst snd] in *.
  destruct (IH s1 a1 H1 Hf) as (s2 & -> & H2). destruct (a_calls cs a1) as [rs a2]. by exists s2.
Qed.

Lemma start_tracked ins res :
  tracked (Socket_outInitialize ins res) (selector_start (SocketBuffer_initialize ins res)).
Proof.
  exists [], [], []. split; cbn; try done; [..|split; cbn; try done|]; try apply NoDup_nil_2; try (eexists; apply rep_zero);
    try (by intros x ?%elem_of_nil); try set_solver; unfold FD_SETSIZE; lia.
Qed.

(** C28: Whatever sequence of calls the client makes, with whatever answers of the kernel, they return
    and answer as the abstract selector does: the position in the list never points to an element that
    was freed, no loop runs out, and [select] is always given a bound above every socket. *)
Theorem sockets_implement_selector (cs : list call) (ins : gmap Z (list recvd)) (res : list wres) :
  let a := selector_start (SocketBuffer_initialize ins res) in
  calls_fit cs a ->
  exists s, do_calls cs (Socket_outInitialize ins res) = Ret (fst (a_calls cs a), s) /\ tracked s (snd (a_calls cs a)).
Proof. intros a Hf. by apply calls_tracked; [apply start_tracked|]. Qed.

(** At the end every descriptor that is still in a list is freed, after those that were freed before. *)
Lemma terminate_frees s a :
  tracked s a -> exists p l, Socket_outTerminate s =
    Ret (p ++ connecting a, write_pending (io a), l ++ socks a, SocketBuffer_terminate (io a)).
Proof.
  intros (xs1 & xs2 & cs & []). destruct tr_clients0 as [k1 H1], tr_pending0 as [k2 H2]. unfold Socket_outTerminate, ListFree.
  destruct (ListEmpty_spec _ _ _ H2) as (l2 & -> & E2). destruct (ListEmpty_spec _ _ _ H1) as (l1 & -> & E1). cbn [obind].
  rewrite (rep_freed _ _ _ E1), (rep_freed _ _ _ E2), tr_io0. cbn [c_empty released].
  rewrite (holds_items _ _ _ H1), (holds_items _ _ _ H2), tr_socks0, tr_connecting0. by eexists _, _.
Qed.

(** ** A socket that is ready is served *)

(** The kernel finds [x] ready in both calls of [select]. *)
Definition serves (x : Z) (k : kernel) : Prop :=
  exists r w w2, k_first k = Some (r, w) /\ k_second k = Some w2 /\ x ∈ r /\ x ∈ w2.

(** One of the results is [x]. *)
Definition returned (x : Z) (rs : list reply) : Prop := exists t, RGet t ∈ rs /\ t_socket t = x.

(** In a round that is to come to [x], which is ready, it ends there or earlier. *)
Lemma round_reaches x l : forall a,
  x ∈ l -> x ∈ readable a -> x ∈ writable a -> x ∉ write_pending (io a) ->
  exists y a1, a_round l a = (Some y, a1) /\ (length (todo a1) < length l)%nat /\ (y = x \/ x ∈ todo a1).
Proof.
  induction l as [|y l IH]; intros a Hx Hr Hw Hp; [by apply elem_of_nil in Hx|]. cbn [a_round].
  destruct (decide (x = y)) as [<-|Hne].
  - exists x. unfold a_ready, Socket_noPendingWrites.
    destruct (decide (x ∈ connecting a)); [rewrite bool_decide_eq_true_2 by done|
      rewrite bool_decide_eq_false_2 by tauto; rewrite bool_decide_eq_true_2 by done; rewrite bool_decide_eq_false_2 by done];
      (eexists; split; [reflexivity|]); cbn; (split; [lia|by left]).
  - apply elem_of_cons in Hx as [?|Hx]; [done|]. pose proof (a_round_keeps [y] a) as Hk. cbn [a_round] in Hk.
    destruct (a_ready y a) as [[] a1]; cbn [fst snd put_todo readable writable io] in Hk;
      destruct Hk as (_ & E2 & E3 & _ & E5).
    + exists y, (put_todo l a1). split; [done|]. cbn. split; [lia|by right].
    + destruct (IH a1 Hx) as (z & a2 & -> & Hl & Hz); [by rewrite E2|by rewrite E3|by rewrite E5|].
      exists z, a2. split; [done|]. split; [simpl; lia|done].
Qed.

Lemma round_shrinks l : forall a x a1, a_round l a = (Some x, a1) -> (length (todo a1) < length l)%nat.
Proof.
  induction l as [|y l IH]; intros a x a1; [done|]. cbn [a_round]. destruct (a_ready y a) as [[] a2].
  - intros [= <- <-]. cbn. lia.
  - intros E%IH. cbn. lia.
Qed.

(** Completing writes makes none pending. *)
Lemma continue_loop_pending fuel : forall cur pw n d n',
  continue_loop fuel cur pw n = Ret (d, n') -> forall x, x ∈ write_pending n' -> x ∈ write_pending n.
Proof.
  induction fuel as [|fuel IH]; intros cur pw n d n' E x Hx; [done|]. cbn [continue_loop] in E.
  destruct cur as [y|]; [|by injection E as <- <-]. case_bool_decide; [|by eapply IH].
  apply obind_Ret in E as ([rc n1] & E1 & E). assert (Hn1 : write_pending n1 = write_pending n).
  { unfold Socket_continueWrite in E1. apply obind_Ret in E1 as ([i w] & _ & E1).
    destruct (Socket_writev y _ n) as [[rc1 k] n2] eqn:Ew. apply writev_wr in Ew. injection Ew as _ Ew _.
    destruct (rc1 =? SOCKET_ERROR); injection E1 as <- <-; done. }
  destruct (negb (rc =? 0)); [|rewrite <- Hn1; by eapply IH].
  apply obind_Ret in E as ([d2 n3] & E & E'). injection E' as <- <-. rewrite <- Hn1.
  specialize (IH _ _ _ _ _ E x Hx). cbn in IH. apply list_elem_of_filter in IH as [_ IH].
  unfold SocketBuffer_writeComplete in IH. by destruct (find_write y n1) as [[??]|].
Qed.

Lemma a_writes_pending r n x : x ∉ write_pending n -> x ∉ write_pending (snd (a_writes r n)).
Proof.
  unfold a_writes. destruct (Socket_continueWrites _ n) as [[d n']| | |] eqn:E; try done.
  intros Hx Hx'. apply Hx. by eapply continue_loop_pending.
Qed.

(** A call during which [x] is ready, and not returned, gets nearer to it: it takes a socket out of the
    round, or starts a round that comes to [x]. *)
Lemma get_nearer x more_work tp k a :
  serves x k -> x ∈ socks a -> x ∉ write_pending (io a) ->
  let t := fst (a_get more_work tp k a) in let a1 := snd (a_get more_work tp k a) in
  socks a1 = socks a /\ x ∉ write_pending (io a1) /\
  (t_socket t = x \/
   ((length (todo a1) < length (todo a))%nat /\ readable a1 = readable a /\ writable a1 = writable a /\
      (x ∈ todo a -> x ∈ readable a -> x ∈ writable a -> x ∈ todo a1)) \/
   ((length (todo a1) < length (socks a))%nat /\ x ∈ todo a1 /\ x ∈ readable a1 /\ x ∈ writable a1 /\
      ~ (x ∈ todo a /\ x ∈ readable a /\ x ∈ writable a))).
Proof.
  intros (r & w & w2 & E1 & E2 & Hr & Hw2) Hx Hp. unfold a_get. rewrite E1, E2.
  rewrite bool_decide_eq_false_2 by (intros E; rewrite E in Hx; by apply elem_of_nil in Hx).
  destruct (a_round_keeps (todo a) a) as (K1 & K2 & K3 & K4 & K5).
  destruct (a_round (todo a) a) as [[y|] a1] eqn:Er; cbn [fst snd t_socket] in *.
  - split; [done|]. split; [by rewrite K5|]. pose proof (round_shrinks _ _ _ _ Er) as Hl.
    destruct (decide (y = x)) as [->|Hne]; [by left|]. right. left. split_and!; try done.
    intros Ht Hra Hwa. destruct (round_reaches x (todo a) a Ht Hra Hwa Hp) as (z & a2 & E & _ & Hz).
    rewrite Er in E. injection E as <- <-. by destruct Hz.
  - pose proof (a_writes_pending (waiting a1 ∩ w) (io a1) x) as Hp2. rewrite K5 in Hp2. specialize (Hp2 Hp).
    destruct (a_writes _ _) as [done n]. cbn [snd] in Hp2.
    rewrite bool_decide_eq_false_2 by (intros (E & _); assert (x ∈ (list_to_set (socks a) ∩ r : gset Z)) by set_solver; set_solver).
    set (a3 := put_writable _ _). assert (Hs3 : socks a3 = socks a) by done.
    assert (H3 : x ∈ readable a3 /\ x ∈ writable a3 /\ x ∉ write_pending (io a3)) by (cbn; set_solver).
    destruct H3 as (R3 & W3 & P3). rewrite Hs3. destruct (a_round_keeps (socks a) a3) as (J1 & J2 & J3 & _ & J5).
    destruct (round_reaches x (socks a) a3 Hx R3 W3 P3) as (y & a4 & E & Hl & Hy). rewrite E in *. cbn [fst snd default t_socket] in *.
    split; [by rewrite J1|]. split; [by rewrite J5|]. destruct Hy as [->|Hy]; [by left|]. right. right.
    rewrite J2, J3. split_and!; try done. intros (Ht & Hra & Hwa).
    destruct (round_reaches x (todo a) a Ht Hra Hwa Hp) as (z & a5 & E5 & _). by rewrite Er in E5.
Qed.

Lemma returned_cons x r rs : returned x rs -> returned x (r :: rs).
Proof. intros (t & Ht & E). exists t. split; [by apply list_elem_of_further|done]. Qed.

Lemma gets_return x more_work tp ks : forall a,
  Forall (serves x) ks -> x ∈ socks a -> x ∉ write_pending (io a) ->
  (length (todo a) + length (socks a) <= length ks)%nat \/
    ((length (todo a) <= length ks)%nat /\ x ∈ todo a /\ x ∈ readable a /\ x ∈ writable a) ->
  returned x (fst (a_calls (CGet more_work tp <$> ks) a)).
Proof.
  induction ks as [|k ks IH]; intros a Hk Hx Hp Hl.
  - destruct Hl as [Hl|(Hl & Ht & _)]; [destruct (socks a)|destruct (todo a)]; try (by apply elem_of_nil in Hx);
      try (by apply elem_of_nil in Ht); simpl in Hl; lia.
  - apply Forall_cons in Hk as [Hk Hks]. rewrite fmap_cons. cbn [a_calls a_call].
    destruct (get_nearer x more_work tp k a Hk Hx Hp) as (Es & Hp1 & Hn).
    destruct (a_get more_work tp k a) as [t a1]. cbn [fst snd] in *.
    destruct (a_calls (CGet more_work tp <$> ks) a1) as [rs a2] eqn:E. cbn [fst].
    destruct Hn as [Ht|Hn]; [exists t; split; [apply list_elem_of_here|done]|].
    apply returned_cons. change rs with (fst (rs, a2)). rewrite <- E. rewrite <- Es in Hx. apply IH; [done..|].
    rewrite Es. simpl in Hl. destruct Hn as [(Hlt & R & W & Hin)|(Hlt & Hin & R & W & Hno)].
    + rewrite R, W. destruct Hl as [Hl|(Hl & Ht & Hr & Hw)]; [left; lia|right]. split; [lia|]. by split; [apply Hin|].
    + right. destruct Hl as [Hl|(_ & Hl)]; [split_and!; try done; lia|by destruct Hno].
Qed.

Lemma calls_fit_gets more_work tp ks : forall a, calls_fit (CGet more_work tp <$> ks) a.
Proof. induction ks as [|k ks IH]; intros a; [done|]. split; [done|]. apply IH. Qed.

Lemma todo_bounded s a : tracked s a -> (length (todo a) <= length (socks a))%nat.
Proof.
  intros (xs1 & xs2 & cs & []). rewrite tr_socks0, tr_todo0, fmap_app, length_app. lia.
Qed.

(** C29: After any calls, a socket without a write of the client pending that the kernel finds ready
    whenever it is asked is returned after at most twice as many calls as there are sockets, whichever
    others are ready. *)
Theorem ready_socket_returned (cs : list call) (ins : gmap Z (list recvd)) (res : list wres) (s : Sockets)
    (rs : list reply) (more_work : bool) (tp : option timeval) (x : Z) (ks : list kernel) :
  calls_fit cs (selector_start (SocketBuffer_initialize ins res)) ->
  do_calls cs (Socket_outInitialize ins res) = Ret (rs, s) ->
  x ∈ rset_saved s -> x ∉ write_pending (buffers s) -> Forall (serves x) ks ->
  (2 * base.size (rset_saved s) <= length ks)%nat ->
  exists rs' s', do_calls (CGet more_work tp <$> ks) s = Ret (rs', s') /\ returned x rs'.
Proof.
  intros Hf E Hx Hp Hk Hl. destruct (calls_tracked cs _ _ (start_tracked ins res) Hf) as (s1 & E1 & H).
  rewrite E in E1. injection E1 as -> <-. set (a := snd (a_calls cs _)) in *.
  pose proof (todo_bounded _ _ H) as Ht. assert (Hs : rset_saved s = list_to_set (socks a) /\ NoDup (socks a) /\ buffers s = io a).
  { by destruct H as (? & ? & ? & []). }
  destruct Hs as (Hs & Hd & Hb). rewrite Hs in Hx, Hl. rewrite Hb in Hp. rewrite size_list_to_set in Hl by done.
  apply elem_of_list_to_set in Hx. destruct (calls_tracked _ s a H (calls_fit_gets more_work tp ks a)) as (s2 & E2 & _).
  eexists _, s2. split; [exact E2|]. apply gets_return; [done..|]. left. lia.
Qed.

(** ** Examples *)

(** The buffers at the start; a [writev] takes two bytes, and the next ones everything. *)
Definition example_buffers : net := SocketBuffer_initialize ∅ [WOk 2].

(** A socket [x] of an IPv4 address, whose connect ends with [errno], if it fails. *)
Definition opened (x : Z) (errno : option Z) : call := CNew (Answers 0 [AF_INET6; AF_INET] x 0 2 (fun _ => 0) errno).

Definition busy (l : list Z) : kernel := Kernel (Some (list_to_set l, list_to_set l)) (Some (list_to_set l)).

(** Two sockets, one of them connecting; a write that is not finished keeps a socket from being read. *)
Definition example_waits : list call :=
  [opened 5 None; opened 6 (Some EINPROGRESS); CAddPending 6; CPut 5 [[1; 2; 3]];
   CGet false (Some (0, 1000)) (Kernel (Some (list_to_set [5], ∅)) (Some (list_to_set [5; 6])));
   CClearPending 6; CGet false None (busy [5]); CGet false None (Kernel None None); CClose 5].

Lemma sockets_implement_selector_witness :
  calls_fit example_waits (selector_start example_buffers) /\
  exists s, do_calls example_waits (Socket_outInitialize ∅ [WOk 2]) =
      Ret ([RNew 0 5; RNew 115 6; RDone; RPut (-22); RGet (Told 6 (Some (0, 1000)) []); RDone;
            RGet (Told 5 (Some one) [5]); RGet (Told (-1) (Some one) []); RDone], s) /\
    tracked s (snd (a_calls example_waits (selector_start example_buffers))).
Proof.
  assert (Hf : calls_fit example_waits (selector_start example_buffers)).
  { unfold example_waits. cbn -[a_call call_fits]. repeat split; vm_compute; try done; set_solver. }
  split; [exact Hf|].
  destruct (sockets_implement_selector example_waits ∅ [WOk 2] Hf) as (s & E & H).
  exists s. split; [|exact H]. rewrite E. vm_compute. reflexivity.
Defined.

Definition three_sockets : list call := [opened 5 None; opened 6 None; opened 7 None].

Lemma three_fit : calls_fit three_sockets (selector_start example_buffers).
Proof.
  unfold three_sockets. cbn -[a_call call_fits].
  repeat split; vm_compute; right; (split; [done|set_solver]).
Qed.

Lemma ready_socket_returned_witness :
  exists s rs, do_calls three_sockets (Socket_outInitialize ∅ [WOk 2]) = Ret (rs, s) /\ 7 ∈ rset_saved s /\
    exists rs' s', do_calls (CGet true None <$> replicate 6 (busy [5; 6; 7])) s = Ret (rs', s') /\ returned 7 rs'.
Proof.
  destruct (do_calls three_sockets (Socket_outInitialize ∅ [WOk 2])) as [[rs s]| | |] eqn:E;
    vm_compute in E; [|done..]. injection E as <- <-. eexists _, _. split; [reflexivity|].
  assert (H7 : forall m : Sockets, bool_decide (7 ∈ rset_saved m) = true -> 7 ∈ rset_saved m) by (intros m Hm; by apply bool_decide_eq_true_1 in Hm).
  split; [apply H7; vm_compute; reflexivity|].
  eapply (ready_socket_returned three_sockets ∅ [WOk 2]); [apply three_fit|vm_compute; reflexivity| | | |].
  - apply H7. vm_compute. reflexivity.
  - by apply not_elem_of_nil.
  - repeat constructor; exists (list_to_set [5; 6; 7]), (list_to_set [5; 6; 7]), (list_to_set [5; 6; 7]);
      (split; [reflexivity|]); (split; [reflexivity|]); set_solver.
  - vm_compute. lia.
Defined.

(** A descriptor that is closed and opened again in one round is taken for ready because the one before
    it was: the connect of the new socket 7 is pending, and no [select] looked at it. *)
Definition reuse_calls : list call :=
  three_sockets ++ [CGet false None (busy [5; 6; 7]); CClose 7; opened 7 (Some EINPROGRESS);
    CGet false None (Kernel None None); CGet false None (Kernel None None)].

Lemma reused_descriptor_ready :
  drop 5 (fst (a_calls reuse_calls (selector_start example_buffers))) =
    [RNew EINPROGRESS 7; RGet (Told 6 None []); RGet (Told 7 None [])].
Proof. vm_compute. reflexivity. Qed.

(** A descriptor that does not fit into an [fd_set] is added without a check. *)
Lemma large_descriptor_overflows x getfl setfl ins res :
  FD_SETSIZE <= x -> Socket_addSocket getfl setfl x (Socket_outInitialize ins res) = Fault.
Proof.
  intros Hx. unfold Socket_addSocket. destruct (find_holds x ListInitialize []) as (p & l & E & Hl & Hp); [eexists; apply rep_zero|].
  cbn [Socket_outInitialize clientsds]. rewrite E. cbn [obind]. destruct p; [by destruct (not_elem_of_nil x); apply Hp|].
  destruct (append_holds x l [] Hl) as (l1 & c & -> & _). cbn [obind]. unfold FD_SET, fd_ok.
  replace (x <? FD_SETSIZE) with false by lia. by rewrite andb_false_r.
Qed.
