(* ===== verification/MqttInv.v ===== *)
(** * MqttInv: the invariant of the client and the send thread

    The invariant of the asynchronous client of [MqttAsync]; retries, cleaning and closing of a session,
    and the sections of the send thread keep it.  It holds between the parts of an API call and of a turn
    of the receive thread as well, with the identifier the call was given and has not queued yet, and
    the identifier of the acknowledgement the receive thread has read and not handled yet. *)

From Stdlib Require Import ZArith Lia String.
From stdpp Require Import base tactics numbers list gmap.
From S2P Require Import Prelude LinkedList Utf8 MqttPacket SockBuf MqttRead MqttProto MqttSession MqttEngine MqttAsync MqttRuns.

(** ** The invariant *)

(** What the invariant looks at, besides the network. *)
Definition mem (s : mqtt) : list Messages * list Messages * list (Z * nat) * gmap nat Publications * list nat :=
  (out s, inb s, items (pending s), pubs s, items (publications s)).
Definition rest (s : mqtt) : asyncs * Z * (bool * Z * Z * bool * Z) :=
  (api s, clock s, (connected (client s), connect_state (client s), msgID (client s), cleansession (client s),
    socket (client s))).

(** Nothing of it has changed. *)
Definition minor (s s' : mqtt) : Prop :=
  mem s' = mem s /\ rest s' = rest s /\ (net_ok (nt s) -> net_ok (nt s')).

Lemma minor_refl s : minor s s.
Proof. done. Qed.

Lemma minor_trans s1 s2 s3 : minor s1 s2 -> minor s2 s3 -> minor s1 s3.
Proof. intros (E1 & E2 & E3) (F1 & F2 & F3). split; [congruence|]. split; [congruence|auto]. Qed.

Lemma proto_ok_mem s s' : proto_ok s -> mem s' = mem s -> proto_ok s'.
Proof.
  intros [] [= E1 E2 E3 E4 E5]. split; unfold refs in *; rewrite ?E1, ?E2, ?E3, ?E4, ?E5; done.
Qed.

(** The identifiers a command may have. *)
Definition in_range (t : Z) : Prop := 1 <= t <= MAX_MSG_ID.

(** The commands of the program: publications of QoS 1 and 2, no list of servers, and only the client
    itself disconnects. *)
Definition command_ok (now : Z) (c : command) : Prop :=
  match cmd_details c with
  | DConnect _ _ uris _ => uris = [] /\ cmd_token c = 0
  | DSubscribe topics qoss => in_range (cmd_token c) /\ (length topics <= length qoss)%nat
  | DUnsubscribe topics => in_range (cmd_token c)
  | DPublish d len payload qos _ =>
      in_range (cmd_token c) /\ is_Some d /\ len = Z.of_nat (length payload) /\ (qos = 1 \/ qos = 2)
  | DDisconnect internal timeout => internal = true /\ timeout = 0 /\ cmd_token c = 0 /\ cmd_start_time c <= now
  end.

(** The next command that is not a CONNECT closes the session. *)
Fixpoint doomed (l : list command) : Prop :=
  match l with
  | [] => False
  | c :: l' => command_type (cmd_details c) = DISCONNECT \/ (command_type (cmd_details c) = CONNECT /\ doomed l')
  end.

(** The commands that wait for the response to a PUBLISH, and those that wait for a SUBACK or UNSUBACK. *)
Definition publish_tokens (s : mqtt) : list Z :=
  cmd_token <$> filter (fun c => command_type (cmd_details c) = PUBLISH) (items (responses (api s))).
Definition other_tokens (s : mqtt) : list Z :=
  cmd_token <$> filter (fun c => command_type (cmd_details c) <> PUBLISH) (items (responses (api s))).

Lemma publish_waits s : publish_tokens s ⊆ cmd_token <$> items (responses (api s)).
Proof.
  intros x Hx. apply list_elem_of_fmap in Hx as (c & -> & Hc). apply list_elem_of_filter in Hc as [_ Hc].
  by apply list_elem_of_fmap_2.
Qed.

Section Invariant.
(** The identifiers that are assigned and not queued, and those of SUBACK and UNSUBACK packets that are
    read and not handled. *)
Context {R L : list Z}.

(** The identifiers in use. *)
Definition ids (s : mqtt) : list Z := R ++ filter (fun t => t <> 0) (tokens s).

Lemma tokens_ids t s : t <> 0 -> t ∈ tokens s -> t ∈ ids s.
Proof. intros Hz Ht. apply elem_of_app. right. by apply list_elem_of_filter. Qed.

(** An identifier that can be added to them. *)
Definition fresh (t : Z) (s : mqtt) : Prop := t ∉ ids s /\ (msgID (client s) = 0 -> ids s = []).

Record base_ok (s : mqtt) : Prop := {
  bk_proto : proto_ok s;
  bk_net : net_ok (nt s);
  bk_commands : Forall (command_ok (clock s)) (items (commands (api s)));
  bk_responses : Forall in_range (cmd_token <$> items (responses (api s)));
  bk_ids : NoDup (ids s);
  bk_reserved : (length R <= 1)%nat /\ Forall in_range R;
  bk_connect : cmd_token (connect (api s)) = 0 /\
    exists timeout version current, cmd_details (connect (api s)) = DConnect timeout version [] current;
  bk_state : connect_state (client s) = 0 \/ (connected (client s) = false /\
    (connect_state (client s) = 1 \/ connect_state (client s) = 3));
  bk_msgid : 0 <= msgID (client s) <= MAX_MSG_ID /\ (msgID (client s) = 0 -> (length (ids s) <= 1)%nat);
  bk_write : pending_write (api s) = None;
  bk_clean : cleansession (client s) = true
}.

(** While the client is connected, an acknowledgement that was read belongs to a command that waits for
    it, and every message in flight has its command among the responses, or the session is about to be
    closed. *)
Definition flows_ok (s : mqtt) : Prop :=
  connected (client s) = true ->
  L ⊆ other_tokens s /\ (doomed (items (commands (api s))) \/ m_msgid <$> out s ⊆ publish_tokens s).

Definition acks_ok (s : mqtt) : Prop := connected (client s) = true -> L ⊆ other_tokens s.

Definition client_ok (s : mqtt) : Prop := base_ok s /\ flows_ok s.

Lemma flows_acks s : flows_ok s -> acks_ok s.
Proof. intros H Hc. by apply H. Qed.

Lemma base_minor s s' : base_ok s -> minor s s' -> base_ok s'.
Proof.
  intros [] (Em & Er & En). injection Er as E1 E2 E3 E4 E5 E6 E7.
  split; unfold ids, tokens in *; rewrite ?E1, ?E2, ?E3, ?E4, ?E5, ?E6; auto. by eapply proto_ok_mem.
Qed.

Lemma flows_minor s s' : flows_ok s -> minor s s' -> flows_ok s'.
Proof.
  intros H (Em & Er & _). injection Er as E1 E2 E3 E4 E5 E6 E7. injection Em as F1 F2 F3 F4 F5.
  unfold flows_ok, publish_tokens, other_tokens in *. by rewrite E1, E3, F1.
Qed.

Lemma client_minor s s' : client_ok s -> minor s s' -> client_ok s'.
Proof. intros [H1 H2] Hm. split; [by eapply base_minor|by eapply flows_minor]. Qed.

(** *** Steps that change nothing of it *)

Lemma minor_times t r s : minor s (upd_client (set_times t r) s).
Proof. done. Qed.

Lemma minor_net n s : (net_ok (nt s) -> net_ok n) -> minor s (set_nt n s).
Proof. done. Qed.

Lemma send_minor p s : runs (send (Ret p)) s (fun _ s' => minor s s').
Proof.
  destruct p as [h b]. unfold send. run.
  destruct (Socket_putdatas (socket (client s)) (MQTTPacket_sends h b) (nt s)) as [rc n] eqn:E.
  pose proof (fun H => putdatas_ok _ _ _ _ _ H E) as Hn. run.
  destruct (rc =? TCPSOCKET_COMPLETE); unfold pclient; run; done.
Qed.

Lemma noPendingWrites_minor s : runs noPendingWrites s (fun _ s' => minor s s').
Proof.
  unfold noPendingWrites. run. destruct (Socket_noPendingWrites (socket (client s)) (nt s)) as [b n] eqn:E.
  pose proof (fun H => noPendingWrites_ok _ _ _ _ H E) as Hn. run. done.
Qed.

(** *** Adding a command *)

Lemma items_insert0 {A} (x : A) (l : clist (A:=A)) : items (c_insert x 0 l) = x :: items l.
Proof.
  unfold c_insert, c_append. case_bool_decide; cbn; [done|]. destruct (items l); [done|cbn in *; lia].
Qed.

Lemma doomed_app l k : doomed l -> doomed (l ++ k).
Proof. induction l as [|c l IH]; [done|]. cbn. intuition. Qed.

Definition set_cmds (l : clist) (s : mqtt) : mqtt := set_api (set_commands l (api s)) s.

Definition stamp (now : Z) (c : command) : command :=
  Command (cmd_addr c) (cmd_token c) now (cmd_onSuccess c) (cmd_onFailure c) (cmd_details c).

Lemma tokens_perm s s' t :
  tokens s' ≡ₚ t :: tokens s -> ids s' ≡ₚ (if t =? 0 then ids s else t :: ids s).
Proof.
  intros H. unfold ids. rewrite H. destruct (Z.eqb_spec t 0) as [->|Hne].
  - by rewrite filter_cons_False by auto.
  - rewrite filter_cons_True by auto. by rewrite Permutation_middle.
Qed.

Lemma base_more c l s :
  base_ok s -> items l ≡ₚ c :: items (commands (api s)) -> command_ok (clock s) c ->
  (cmd_token c = 0 \/ fresh (cmd_token c) s) -> base_ok (set_cmds l s).
Proof.
  intros H Hl Hc Ht. pose proof H as [].
  assert (Hp : tokens (set_cmds l s) ≡ₚ cmd_token c :: tokens s) by (unfold tokens; cbn; by rewrite Hl).
  apply tokens_perm in Hp. split; try done.
  - by apply (proto_ok_mem s).
  - cbn. rewrite Hl. by apply Forall_cons.
  - rewrite Hp. destruct (Z.eqb_spec (cmd_token c) 0); [done|]. apply NoDup_cons. unfold fresh in Ht. naive_solver.
  - destruct bk_msgid0 as [Hm H0]. split; [done|]. intros Hz. cbn in Hz. rewrite Hp.
    destruct (Z.eqb_spec (cmd_token c) 0); [by apply H0|]. destruct Ht as [?|[_ ->]]; [done|simpl; lia|done].
Qed.

Lemma addCommand_ok c s :
  base_ok s -> command_ok (clock s) (stamp (clock s) c) ->
  (cmd_token c = 0 \/ fresh (cmd_token c) s) ->
  runs (MQTTAsync_addCommand c) s (fun rc s' => rc = 0 /\ base_ok s' /\ (flows_ok s -> flows_ok s') /\
    (acks_ok s -> command_type (cmd_details c) = DISCONNECT -> flows_ok s') /\ client s' = client s /\
    clock s' = clock s).
Proof.
  intros H Hc Ht. unfold MQTTAsync_addCommand. run. cbn [cmd_details]. fold (stamp (clock s) c).
  set (head_type := match cmd_details c with DConnect _ _ _ _ => true | DDisconnect i _ => i | _ => false end).
  assert (Hadd : forall l, (l = c_insert (stamp (clock s) c) 0 (commands (api s)) /\ head_type = true \/
      l = c_append (stamp (clock s) c) (commands (api s)) /\ head_type = false) ->
    base_ok (set_cmds l s) /\ (flows_ok s -> flows_ok (set_cmds l s)) /\
    (acks_ok s -> command_type (cmd_details c) = DISCONNECT -> flows_ok (set_cmds l s))).
  { intros l Hl. split; [|split].
    - apply (base_more (stamp (clock s) c)); [done| |done|done].
      destruct Hl as [[-> _]|[-> _]]; [by rewrite items_insert0|]. cbn. by rewrite Permutation_app_comm.
    - intros Hf Hcon. destruct (Hf Hcon) as [HL Hf']. split; [done|]. cbn. destruct Hf' as [Hd|Hsub]; [left|by right].
      destruct Hl as [[-> Hh]|[-> _]]; [|by apply doomed_app]. rewrite items_insert0. cbn.
      subst head_type. destruct (cmd_details c); cbn; try done; [by right|by left].
    - intros Ha Hd Hcon. split; [by apply Ha|left]. cbn. destruct Hl as [[-> _]|[-> Hh]]; [rewrite items_insert0; by left|].
      exfalso. subst head_type. unfold command_ok in Hc. cbn in Hc. destruct (cmd_details c); try done.
      destruct Hc as (-> & _). done. }
  destruct head_type eqn:Eh.
  - destruct (items (commands (api s))) as [|hd l] eqn:El.
    + unfold upd_api. run. destruct (Hadd _ (or_introl (conj eq_refl eq_refl))) as (? & ? & ?). done.
    + destruct (Z.eqb_spec (command_type (cmd_details hd)) (command_type (cmd_details c))) as [E|E]; unfold upd_api; run.
      * split_and!; try done. intros Ha Hd Hcon. split; [by apply Ha|left]. rewrite El. left. congruence.
      * destruct (Hadd _ (or_introl (conj eq_refl eq_refl))) as (? & ? & ?). done.
  - unfold upd_api. run. destruct (Hadd _ (or_intror (conj eq_refl eq_refl))) as (? & ? & ?). done.
Qed.

(** A new command in memory. *)
Lemma new_command_run t f g d s :
  runs (new_command t f g d) s (fun c s' => c = Command (next_addr (api s)) t 0 f g d /\
    s' = set_api (set_next_addr (S (next_addr (api s))) (api s)) s).
Proof. unfold new_command. run. done. Qed.

Lemma base_addr n s : base_ok s -> base_ok (set_api (set_next_addr n (api s)) s).
Proof. intros []. split; try done. by apply (proto_ok_mem s). Qed.

(** The client closes its session. *)
Lemma queue_disconnect_ok onSuccess s :
  base_ok s -> acks_ok s ->
  runs (queue_disconnect onSuccess true 0) s (fun _ s' => base_ok s' /\ flows_ok s' /\ client s' = client s).
Proof.
  intros H Ha. unfold queue_disconnect. step new_command_run. intros d s1 [-> ->].
  eapply runs_mono; [apply addCommand_ok|].
  - by apply base_addr.
  - cbn. split_and!; try done.
  - by left.
  - cbn. intros rc s' (_ & Hb & _ & Hd & Hc & _). split; [done|]. split; [|done]. by apply Hd.
Qed.

Lemma disconnect_ok onSuccess timeout s :
  base_ok s -> acks_ok s -> timeout = 0 ->
  runs (MQTTAsync_disconnect1 onSuccess true timeout) s (fun _ s' => base_ok s' /\ flows_ok s' /\ client s' = client s).
Proof.
  intros H Ha ->. unfold MQTTAsync_disconnect1. run. destruct (connected (client s)) eqn:Ec; cbn [negb].
  2: { run. split; [done|]. split; [|done]. intros E. congruence. }
  by apply queue_disconnect_ok.
Qed.

Lemma closeSession_ok s :
  base_ok s -> acks_ok s -> runs MQTTProtocol_closeSession s (fun _ s' => client_ok s' /\ client s' = client s).
Proof.
  intros H Ha. unfold MQTTProtocol_closeSession, MQTTAsync_disconnect_internal. step disconnect_ok; [done|done|done|].
  intros _ s' (? & ? & ?). run. split; [by split|done].
Qed.

(** *** The session behind the invariant *)

Lemma flows_exist s (l : list Messages) :
  proto_ok s -> (forall m, m ∈ l -> m_publish m ∈ refs s) -> exists fs, Forall2 (flow_of (pubs s)) l fs.
Proof.
  intros H. induction l as [|m l IH]; intros Hl; [by exists []|].
  destruct IH as (fs & Hf); [intros m' Hm'; apply Hl; by apply list_elem_of_further|].
  destruct (in_use s m H (Hl m (list_elem_of_here _ _))) as (b & Hb & _).
  exists (as_flow m b :: fs). constructor; [by exists b|done].
Qed.

Lemma proto_represents s : proto_ok s -> exists se, represents s se.
Proof.
  intros H. destruct (flows_exist s (out s) H) as (fo & Ho).
  { intros m Hm. apply elem_of_app. left. by apply list_elem_of_fmap_2. }
  destruct (flows_exist s (inb s) H) as (fi & Hi).
  { intros m Hm. unfold refs. rewrite !elem_of_app. right. left. by apply list_elem_of_fmap_2. }
  by exists (Session fo fi (passed s)).
Qed.

Lemma flow_ids h l fs : Forall2 (flow_of h) l fs -> m_msgid <$> l = f_id <$> fs.
Proof. induction 1 as [|m f l fs (b & _ & ->) _ IH]; [done|]. cbn. by rewrite IH. Qed.

(** A change of the messages in flight that keeps their identifiers and publications. *)
Lemma base_out l s :
  base_ok s -> m_msgid <$> items l = m_msgid <$> out s -> m_publish <$> items l = m_publish <$> out s ->
  Forall out_ok (items l) -> base_ok (upd_client (set_outbound l) s).
Proof.
  intros [Hp ? ? ? ? ? ? ? ? ?] Hid Hpub Hok. split; try done. destruct Hp. unfold refs in *.
  assert (Er : refs (upd_client (set_outbound l) s) = refs s) by (unfold refs; cbn; by rewrite Hpub).
  split; cbn in *; rewrite ?Er, ?Hid; done.
Qed.

Lemma flows_out l s :
  flows_ok s -> m_msgid <$> items l = m_msgid <$> out s -> flows_ok (upd_client (set_outbound l) s).
Proof. intros H Hid Hc. cbn. rewrite Hid. by apply H. Qed.

(** The messages in flight are the same ones. *)
Definition same_out (s s' : mqtt) : Prop := m_msgid <$> out s' = m_msgid <$> out s.

Lemma minor_out s s' : minor s s' -> out s' = out s.
Proof. by intros ([= -> _ _ _ _] & _). Qed.

Lemma touch_ok i m s :
  client_ok s -> out s !! i = Some m ->
  runs (touch_message i m) s (fun _ s' => client_ok s' /\ same_out s s').
Proof.
  intros [Hb Hf] Hi. unfold touch_message. run. set (m' := Message _ _ _ _ _ _).
  assert (E : m_msgid <$> <[i := m']> (out s) = m_msgid <$> out s /\ m_publish <$> <[i := m']> (out s) = m_publish <$> out s).
  { split; rewrite list_fmap_insert; apply list_insert_id; by rewrite list_lookup_fmap, Hi. }
  destruct E as [E1 E2]. split; [|done].
  change (client_ok (upd_client (set_outbound (set_message i m' (outboundMsgs (client s)))) s)).
  split; [|by apply flows_out]. apply base_out; [done..|]. cbn. apply Forall_insert; [apply Hb|].
  pose proof (Forall_lookup_1 _ _ _ _ (ok_out _ (bk_proto _ Hb)) Hi) as (_ & ? & ?). by split.
Qed.

Lemma abandon_ok s : client_ok s -> runs abandon s (fun _ s' => client_ok s' /\ same_out s s').
Proof.
  intros [Hb Hf]. unfold abandon. run. eapply runs_mono; [apply closeSession_ok|].
  2: { by apply flows_acks. }
  2: { intros _ s' [H E]. split; [done|]. unfold same_out. by rewrite E. }
  destruct Hb. split; try done. by apply (proto_ok_mem s).
Qed.

(** One message is sent again. *)
Lemma retry_message_ok now regardless i m s :
  client_ok s -> out s !! i = Some m ->
  runs (retry_message now regardless i m) s (fun _ s' => client_ok s' /\ same_out s s').
Proof.
  intros Hc Hi. pose proof (Forall_lookup_1 _ _ _ _ (ok_out _ (bk_proto _ (proj1 Hc))) Hi) as (Ht & _ & Hq).
  unfold retry_message. run. set (due := if regardless then _ else _).
  assert (Hdue : exists b, due s = Ret (b, s)).
  { subst due. destruct regardless; [by eexists|]. destruct Ht as [t ->]. by eexists. }
  destruct Hdue as (b & Eb). exists b, s. split; [exact Eb|]. destruct b; [|run; done].
  apply runs_bind. assert (Hp : exists b, (if m_qos m =? 1 then pret true else if m_qos m =? 2 then
      let* next := plift (deref (m_nextMessageType m)) in pret (next =? PUBREC) else pret false) s = Ret (b, s) /\
      (b = false -> m_qos m = 2 /\ m_nextMessageType m = Some PUBCOMP)).
  { destruct Hq as [->|[-> [->| ->]]]; by eexists. }
  destruct Hp as (pb & Ep & Hpb). exists pb, s. split; [exact Ep|]. destruct pb.
  - destruct (in_use s m (bk_proto _ (proj1 Hc)) (out_refs _ _ _ Hi)) as (b & Hb & _ & Hl & _). run.
    exists b, s. split; [by apply load_pub_run|].
    destruct (send_publish_total (MkPublish 0 (pb_topic b) 0 (m_msgid m) (pb_payload b) (pb_payloadlen b)) 1
      (m_qos m) (m_retain m)) as (q & ->); [cbn; lia|]. step send_minor. intros rc s1 Hm.
    pose proof (client_minor _ _ Hc Hm) as H1. pose proof (minor_out _ _ Hm) as Ho. unfold same_out. rewrite <- Ho.
    destruct (rc =? SOCKET_ERROR). { step abandon_ok; [done|]. intros _ s2 H2. by run. }
    destruct (Z.eqb_spec (m_qos m) 0); [destruct Hq as [?|[? _]]; congruence|]. cbn [andb]. run.
    eapply runs_mono; [apply touch_ok; [done|]|].
    + by rewrite Ho.
    + intros ? s2 H2. by run.
  - destruct (Hpb eq_refl) as [E2 E3]. rewrite E2, E3. change (2 =? 0) with false. cbn iota. run. cbn [deref]. run.
    destruct (send_ack_total PUBREL (m_msgid m) 0) as (q & Eq). unfold MQTTPacket_send_pubrel.
    change (PUBCOMP =? PUBCOMP) with true. cbn iota. rewrite Eq. step send_minor. intros rc s1 Hm.
    pose proof (client_minor _ _ Hc Hm) as H1. pose proof (minor_out _ _ Hm) as Ho. unfold same_out. rewrite <- Ho.
    destruct (rc =? TCPSOCKET_COMPLETE); cbn [negb]. 2: { step abandon_ok; [done|]. intros _ s2 H2. by run. }
    step touch_ok; [done| |].
    + by rewrite Ho.
    + intros _ s2 H2. by run.
Qed.

(** The messages in flight are kept. *)
Definition kept (s s' : mqtt) : Prop := client_ok s' /\ same_out s s'.

Lemma kept_minor s s' : client_ok s -> minor s s' -> kept s s'.
Proof. intros H Hm. split; [by eapply client_minor|]. unfold same_out. by rewrite (minor_out _ _ Hm). Qed.

Lemma kept_trans s1 s2 s3 : same_out s1 s2 -> kept s2 s3 -> kept s1 s3.
Proof. intros H1 [H2 H3]. split; [done|]. unfold same_out in *. congruence. Qed.

Lemma closeSession_kept s : client_ok s -> runs MQTTProtocol_closeSession s (fun _ s' => kept s s').
Proof.
  intros [Hb Hf]. eapply runs_mono; [apply closeSession_ok; [done|by apply flows_acks]|]. intros ? s' [H E]. split; [done|].
  unfold same_out. by rewrite E.
Qed.

Lemma retries_loop_ok now regardless fuel : forall i s,
  client_ok s -> (i <= length (out s))%nat -> (length (out s) < fuel + i)%nat ->
  runs (retries_loop fuel now regardless i) s (fun _ s' => kept s s').
Proof.
  induction fuel as [|fuel IH]; intros i s Hc Hi Hl; [lia|]. cbn [retries_loop].
  run. destruct (out s !! i) as [m|] eqn:Hm; [|by run].
  destruct (connected (client s) && good (client s)); [|by run].
  step noPendingWrites_minor. intros free s1 H1. pose proof (kept_minor _ _ Hc H1) as [Hc1 Ho1].
  destruct free; [|by run]. step retry_message_ok; [done|by rewrite (minor_out _ _ H1)|].
  intros go s2 [H2 Ho]. assert (Ho2 : same_out s s2) by (unfold same_out in *; congruence).
  destruct go; [|by run]. apply (f_equal length) in Ho2 as Hlen. rewrite !length_fmap in Hlen.
  apply lookup_lt_Some in Hm. eapply runs_mono; [apply IH; [done|lia..]|]. intros ? s3. by apply kept_trans.
Qed.

Lemma retries_ok now regardless s :
  client_ok s -> runs (MQTTProtocol_retries now regardless) s (fun _ s' => kept s s').
Proof.
  intros H. unfold MQTTProtocol_retries. run. case_match; [by run|]. apply retries_loop_ok; [done|lia..].
Qed.

Lemma retry_ok now doRetry regardless s :
  client_ok s -> runs (MQTTProtocol_retry now doRetry regardless) s (fun _ s' => kept s s').
Proof.
  intros H. unfold MQTTProtocol_retry. run. destruct (connected (client s)); cbn [negb]; [|by run].
  destruct (good (client s)); cbn [negb]; [|by apply closeSession_kept].
  step noPendingWrites_minor. intros free s1 H1. pose proof (kept_minor _ _ H H1) as [Hc1 Ho1].
  destruct free; cbn [negb]; [|by run]. destruct doRetry; [|by run].
  eapply runs_mono; [by apply retries_ok|]. intros ? s3. by apply kept_trans.
Qed.

Lemma keepalive_ok now s : client_ok s -> runs (MQTTProtocol_keepalive now) s (fun _ s' => kept s s').
Proof.
  intros H. unfold MQTTProtocol_keepalive. run.
  destruct (_ && _ && _); [|by run]. destruct (ping_outstanding (client s)); cbn [negb]; [by apply closeSession_kept|].
  step noPendingWrites_minor. intros free s1 H1. pose proof (kept_minor _ _ H H1) as [Hc1 Ho1].
  destruct free; [|by run]. step send_minor. intros rc s2 H2. pose proof (minor_trans _ _ _ H1 H2) as H3.
  pose proof (kept_minor _ _ H H3) as [Hc2 Ho2].
  destruct (rc =? TCPSOCKET_COMPLETE); cbn [negb].
  - run. apply kept_minor; [done|]. by apply (minor_trans s s2).
  - eapply runs_mono; [by apply closeSession_kept|]. intros ? s3. by apply kept_trans.
Qed.

Lemma MQTTAsync_retry_ok s : client_ok s -> runs MQTTAsync_retry s (fun _ s' => kept s s').
Proof.
  intros H. unfold MQTTAsync_retry. run. case_match; [|by apply retry_ok]. run.
  set (s1 := set_api _ s). assert (H1 : client_ok s1).
  { destruct H as [[] Hf]. split; [|done]. split; try done. by apply (proto_ok_mem s). }
  eapply runs_mono; [by apply keepalive_ok|]. intros ? s2 [H2 Ho]. eapply runs_mono; [by apply retry_ok|].
  intros ? s3. by apply kept_trans.
Qed.

(** *** Cleaning a session *)

(** The publications of [l] are released: what is left is that of the others. *)
Record cleared (l : list nat) (r : list nat) (s : mqtt) : Prop := {
  cl_nodup : NoDup (l ++ r);
  cl_list : items (publications s) ≡ₚ l ++ r;
  cl_dom : forall p, is_Some (pubs s !! p) <-> p ∈ l ++ r;
  cl_pubs : map_Forall (fun _ => pub_ok) (pubs s)
}.

(** Only the stored publications differ. *)
Definition only_pubs (s s' : mqtt) : Prop := s' = set_pubs (pubs s') (publications s') s.

Lemma remove_publications_ok l : forall r s,
  cleared (m_publish <$> l) r s -> runs (remove_publications l) s (fun _ s' => cleared [] r s' /\ only_pubs s s').
Proof.
  induction l as [|m l IH]; intros r s H; cbn [remove_publications].
  - run. split; [done|by destruct s].
  - destruct H as [H1 H2 H3 H4]. cbn in H1, H2, H3. apply NoDup_cons in H1 as [Hn H1].
    destruct (proj2 (H3 (m_publish m)) (list_elem_of_here _ _)) as [b Hb]. pose proof (H4 _ _ Hb) as [Hr _].
    destruct (remove_run (m_publish m) b s Hb Hr) as (k & E & Hk); [rewrite H2; apply list_elem_of_here|].
    apply runs_bind. eexists _, _. split; [exact E|]. eapply runs_mono; [apply IH|].
    + split; cbn; [done| | |by apply map_Forall_delete].
      * apply (Permutation_cons_inv (a := m_publish m)). by rewrite Hk, H2.
      * intros p. rewrite lookup_delete_is_Some, H3, elem_of_cons. split; [naive_solver|].
        intros Hp. split; [by intros <-|by right].
    + intros ? s' [Hc Ho]. split; [done|]. unfold only_pubs in *. by rewrite Ho.
Qed.

(** The lists of messages are emptied one after the other. *)
Lemma emptyMessageList_ok l r s :
  cleared (m_publish <$> items l) r s ->
  runs (MQTTProtocol_emptyMessageList l) s (fun l' s' => l' = c_empty l /\ cleared [] r s' /\ only_pubs s s').
Proof.
  intros H. unfold MQTTProtocol_emptyMessageList. step remove_publications_ok; [done|]. intros _ s' Hs. by run.
Qed.

Lemma cleared_intro s l r : proto_ok s -> refs s ≡ₚ l ++ r -> cleared l r s.
Proof.
  intros Hp H. split; rewrite <- ?H; try apply Hp. intros p. rewrite <- H. apply Hp.
Qed.

Lemma detach_all {A} n (l : clist (A:=A)) : items (Nat.iter n (detach_at 0) l) = drop n (items l).
Proof.
  induction n as [|n IH]; [by rewrite drop_0|]. rewrite Nat.iter_succ. cbn [detach_at items]. rewrite IH.
  replace (S n) with (n + 1)%nat by lia. rewrite <- drop_drop. by destruct (drop n (items l)).
Qed.

(** The state after [MQTTAsync_cleanSession]. *)
Record cleaned (s s' : mqtt) : Prop := {
  cd_out : out s' = [];
  cd_in : inb s' = [];
  cd_pending : items (pending s') = items (pending s);
  cd_cleared : cleared [] ((fun e : Z * nat => e.2) <$> items (pending s)) s';
  cd_nt : nt s' = nt s;
  cd_clock : clock s' = clock s;
  cd_api : items (commands (api s')) = [] /\ items (responses (api s')) = [] /\ connect (api s') = connect (api s) /\
    pending_write (api s') = pending_write (api s);
  cd_client : connected (client s') = connected (client s) /\ connect_state (client s') = connect_state (client s) /\
    msgID (client s') = 0 /\ cleansession (client s') = cleansession (client s) /\
    socket (client s') = socket (client s)
}.

Lemma cleanSession_ok s : proto_ok s -> runs MQTTAsync_cleanSession s (fun rc s' => rc = 0 /\ cleaned s s').
Proof.
  intros H. unfold MQTTAsync_cleanSession. run.
  step emptyMessageList_ok. { apply cleared_intro; [done|]. rewrite refs_out, app_assoc, (Permutation_app_comm _ (m_publish <$> inb s)), <- app_assoc. done. }
  intros l s1 (-> & H1 & Ho1). run. cbn. set (s2 := upd_client _ s1).
  assert (E2 : outboundMsgs (client s1) = outboundMsgs (client s) /\ pending s1 = pending s) by by rewrite Ho1.
  step (emptyMessageList_ok (outboundMsgs (client s1)) ((fun e : Z * nat => e.2) <$> items (pending s))).
  { destruct E2 as [-> _]. destruct H1 as [F1 F2 F3 F4]. by split. }
  intros l s3 (-> & H3 & Ho3). unfold MQTTAsync_emptyMessageQueue, MQTTAsync_removeResponsesAndCommands. run.
  split; [done|]. rewrite Ho3. subst s2. rewrite Ho1. destruct H3 as [F1 F2 F3 F4].
  split; cbn; try done. split; [|done]. rewrite detach_all. by rewrite drop_all.
Qed.

Lemma cleaned_ok s s' : base_ok s -> connected (client s) = false \/ L = [] -> cleaned s s' -> client_ok s'.
Proof.
  intros H HL [C1 C2 C3 C4 C5 C6 (A1 & A2 & A3 & A4) (D1 & D2 & D3 & D4 & D5)]. pose proof H as [].
  assert (Hids : ids s' = R) by (unfold ids, tokens; by rewrite A1, A2, app_nil_r).
  apply NoDup_app in bk_ids0 as (HR & _).
  assert (Er : refs s' = (fun e : Z * nat => e.2) <$> items (pending s)) by (unfold refs; by rewrite C1, C2, C3).
  split.
  - split; rewrite ?C5, ?A1, ?A2, ?A3, ?A4, ?D1, ?D2, ?D3, ?D4, ?Hids; try done; [|split; [unfold MAX_MSG_ID; lia|by intros _; apply bk_reserved0]].
    destruct C4 as [F1 F2 F3 F4]. split; rewrite ?C1, ?C2, ?Er; try done; by apply NoDup_nil.
  - intros Hc. destruct HL as [HL| ->]; [congruence|]. rewrite C1. split; [set_solver|right; set_solver].
Qed.

(** *** Closing a session *)

Definition with_state (k : Z) (s : mqtt) : mqtt := upd_client (set_connect_state k) s.

Lemma with_state_same s : with_state (connect_state (client s)) s = s.
Proof. by destruct s as [[] ? ? ? ? ? ? ? ? ? ?]. Qed.

(** The client is not connected any more. *)
Record closed (s s' : mqtt) : Prop := {
  cs_ok : base_ok s';
  cs_mem : mem s' = mem s;
  cs_api : api s' = api s;
  cs_clock : clock s' = clock s;
  cs_state : connected (client s') = false /\ connect_state (client s') = 0
}.

Lemma closeOnly_ok k s : base_ok s -> runs MQTTAsync_closeOnly (with_state k s) (fun _ s' => closed s s').
Proof.
  intros H. unfold MQTTAsync_closeOnly. run. set (s1 := upd_client _ _).
  assert (Hfin : forall s2, mem s2 = mem s -> api s2 = api s -> clock s2 = clock s -> net_ok (nt s2) ->
    msgID (client s2) = msgID (client s) -> cleansession (client s2) = cleansession (client s) ->
    closed s (upd_client (fun c => set_flags false (good c) (ping_outstanding c) 0 c) s2)).
  { intros s2 E1 E2 E3 E4 E5 E6. split; [|done..]. destruct H.
    split; unfold ids, tokens in *; cbn; rewrite ?E2, ?E3, ?E5, ?E6; try done; [|by left]. by apply (proto_ok_mem s). }
  destruct (0 <? socket (client s1)).
  - apply runs_bind. apply (runs_mono _ _ (fun _ s2 => minor s1 s2)).
    { destruct (connected (client s1)); [|by run]. unfold MQTTPacket_send_disconnect. step send_minor.
      intros ? s2 Hm. by run. }
    intros _ s2 (Em & [= E1 E2 E3 E4 E5 E6 E7] & En). unfold pclient. run. apply Hfin; try done.
    cbn. apply close_ok, En, H.
  - run. apply Hfin; try done. apply H.
Qed.

Lemma closed_flows s s' : closed s s' -> client_ok s'.
Proof. intros []. split; [done|]. intros E. destruct cs_state0. congruence. Qed.

Lemma closeSession_client_ok k s :
  base_ok s -> runs MQTTAsync_closeSession (with_state k s) (fun _ s' => client_ok s').
Proof.
  intros H. unfold MQTTAsync_closeSession. step closeOnly_ok; [done|]. intros _ s1 H1. run.
  rewrite (bk_clean _ (cs_ok _ _ H1)). step cleanSession_ok; [apply H1|]. intros rc s2 [_ H2]. run.
  eapply cleaned_ok; [apply H1| |done]. left. apply H1.
Qed.

Lemma call_back_minor c s :
  client_ok s -> runs (call_back c) s (fun _ s' => client_ok s').
Proof.
  intros [[] Hf]. unfold call_back. run. split; [|done]. split; try done. by apply (proto_ok_mem s).
Qed.

(** The rest of a step that only calls the application. *)
Lemma maybe_call (b : bool) c s :
  client_ok s -> runs (if b then call_back c else pret tt) s (fun _ s' => client_ok s').
Proof. intros H. destruct b; [by apply call_back_minor|by run]. Qed.

Lemma checkDisconnect_ok k c s :
  base_ok s -> command_ok (clock s) c -> command_type (cmd_details c) = DISCONNECT ->
  runs (MQTTAsync_checkDisconnect c) (with_state k s) (fun _ s' => client_ok s').
Proof.
  intros H Hc Ht. unfold MQTTAsync_checkDisconnect. unfold command_ok in Hc.
  destruct (cmd_details c) as [| | | |internal timeout]; try done. destruct Hc as (-> & -> & _ & Hs).
  unfold MQTTAsync_elapsed. run. cbn. destruct (Z.leb_spec 0 (clock s - cmd_start_time c)); [|lia].
  rewrite orb_true_r. step closeSession_client_ok; [done|]. intros _ s1 H1. cbn.
  destruct (connected (client s)); [by apply call_back_minor|by run].
Qed.

(** *** Another attempt to connect *)

Lemma next_connection_ok code s : base_ok s -> runs (next_connection code) s (fun _ s' => client_ok s').
Proof.
  intros H. unfold next_connection. run. destruct (bk_connect _ H) as (Et & timeout & version & n & E).
  unfold MQTTAsync_checkConn, conn_details. rewrite E. run. rewrite <- (with_state_same s) at 1.
  destruct (_ || _).
  - step closeOnly_ok; [done|]. intros _ s1 H1. step new_command_run. intros c s2 [-> ->].
    step addCommand_ok; [apply base_addr, H1|by rewrite Et|by left|]. intros rc s3 (_ & Hb & Hf & _ & _ & _). run.
    split; [done|]. apply Hf. pose proof (closed_flows _ _ H1) as [_ ?]. done.
  - step closeSession_client_ok; [done|]. intros _ s1 H1. by apply maybe_call.
Qed.

(** ** The send thread *)

Lemma pick_ignored l : forall i s, pick_command l i true s = Ret (None, s).
Proof. induction l as [|c l IH]; intros i s; [done|]. cbn [pick_command]. apply IH. Qed.

(** The command that is taken is the first one; it needs a connection unless it opens or closes one. *)
Lemma pick_ok l s :
  runs (pick_command l 0 false) s (fun r s' => minor s s' /\
    match r with
    | None => True
    | Some (i, c) => i = 0%nat /\ l !! 0%nat = Some c /\
        (command_type (cmd_details c) = CONNECT \/ command_type (cmd_details c) = DISCONNECT \/
         connected (client s) = true)
    end).
Proof.
  destruct l as [|c l]; cbn [pick_command]; [by run|]. run.
  set (t := command_type (cmd_details c)). apply (runs_mono _ _ (fun b s' => minor s s' /\
    (b = true -> t = CONNECT \/ t = DISCONNECT \/ connected (client s) = true))).
  { destruct (_ || _) eqn:Et.
    - run. split; [done|]. apply orb_true_iff in Et as [Et|Et]; apply Z.eqb_eq in Et; auto.
    - destruct (connected (client s)); cbn [andb]; [|by run].
      destruct (connect_state (client s) =? 0); [|by run].
      eapply runs_mono; [apply noPendingWrites_minor|]. cbv beta. auto. }
  intros b s1 [Hm Hb]. destruct b; cbn [andb].
  - destruct (negb _); [run; auto|]. exists None, s1. by rewrite pick_ignored.
  - exists None, s1. by rewrite pick_ignored.
Qed.

(** *** Publishing *)

Lemma startPublish_ok p qos retained s :
  proto_ok s -> pack_ok p -> qos = 1 \/ qos = 2 -> (forall m, m ∈ out s -> m_msgid m <> p_msgId p) ->
  runs (MQTTProtocol_startPublish p qos retained None) s (fun _ s' => proto_ok s' /\
    m_msgid <$> out s' = (m_msgid <$> out s) ++ [p_msgId p] /\ rest s' = rest s /\ (net_ok (nt s) -> net_ok (nt s'))).
Proof.
  intros H Hp Hq Hnew. unfold MQTTProtocol_startPublish. destruct (Z.ltb_spec 0 qos); [|lia].
  destruct (proto_represents s H) as (se & Hr). destruct (store_run p s Hp) as (q & s1 & E & Ha & Es1).
  unfold MQTTProtocol_createMessage. run. exists q, s1. split; [exact E|]. run.
  set (m := Message qos retained (p_msgId p) q _ _). set (s2 := upd_client _ s1).
  pose proof Ha as (_ & Hpub & Hpubs & _).
  assert (Hr2 : represents s2 (Session (se_out se ++ [as_flow m (pub_of p)]) (se_in se) (se_passed se))).
  { apply (represents_add_out s); try done.
    - split; [by eexists|]. split; [apply Hp|]. cbn. destruct Hq as [-> | ->]; [by left|right]. by split; [|left].
    - cbn. by rewrite Es1.
    - cbn. by rewrite Es1.
    - cbn. by rewrite Es1.
    - unfold passed. cbn. by rewrite Es1. }
  exists (pub_of p), s2. split; [apply load_pub_run; cbn; by rewrite Hpubs, lookup_insert_eq|].
  unfold MQTTProtocol_startPublishCommon. destruct Hp as [Hl Hid].
  destruct (send_publish_total (MkPublish (p_header p) (pb_topic (pub_of p)) (p_topiclen p) (p_msgId p)
    (pb_payload (pub_of p)) (p_payloadlen p)) 0 qos retained) as (k & ->); [cbn; rewrite length_take; lia|].
  step send_minor. intros rc s3 Hm. destruct (Z.eqb_spec qos 0); [lia|]. cbn [andb]. run.
  destruct Hm as (Em & Er & En). split; [by apply (proto_ok_mem s2); [apply (re_ok _ _ Hr2)|]|].
  injection Em as -> _ _ _ _. rewrite Er. subst s2. cbn. rewrite Es1. split; [by rewrite fmap_app|]. split; [done|].
  intros Hn. apply En. cbn. by rewrite Es1.
Qed.

(** *** Connecting *)

Lemma Socket_new_ok s :
  base_ok s -> runs Socket_new s (fun r s' => base_ok s' /\ connected (client s') = connected (client s)).
Proof.
  intros H. unfold Socket_new. run. destruct (new_results (api s)) as [|r l]; run; [done|].
  destruct H. split; [|done]. split; try done. by apply (proto_ok_mem s).
Qed.

(** A client without a connection, in any state of connecting. *)
Lemma base_connecting k sock s :
  base_ok s -> connected (client s) = false -> k = 0 \/ k = 1 \/ k = 3 ->
  base_ok (upd_client (fun c => set_connect_state k (set_socket sock c)) s).
Proof.
  intros [] Hc Hk. split; try done; [by apply (proto_ok_mem s)|]. cbn. tauto.
Qed.

Lemma send_connect_minor version s : runs (send_connect version) s (fun _ s' => minor s s').
Proof.
  unfold send_connect. run. destruct (send_connect_total (connect_data_of (client s)) version) as (q & ->). run.
  destruct q as [[h buf]|]; [apply send_minor|by run].
Qed.

(** The state in which a connection is being opened. *)
Definition opening (s : mqtt) : Prop := base_ok s /\ connected (client s) = false.

Lemma opening_minor s s' : opening s -> minor s s' -> opening s'.
Proof. intros [H1 H2] Hm. split; [by eapply base_minor|]. by destruct Hm as (_ & [= _ _ -> _ _ _ _] & _). Qed.

Lemma opening_state k s : opening s -> k = 0 \/ k = 1 \/ k = 3 -> opening (with_state k s).
Proof.
  intros [H1 H2] Hk. split; [|done]. pose proof (base_connecting k (socket (client s)) s H1 H2 Hk) as [].
  by split; try apply (proto_ok_mem _ _ bk_proto0).
Qed.

Lemma connect_ok version s : opening s -> runs (MQTTProtocol_connect version) s (fun _ s' => opening s').
Proof.
  intros H. unfold MQTTProtocol_connect. run. set (s1 := upd_client _ s).
  assert (H1 : opening s1) by by apply (opening_minor s).
  step Socket_new_ok; [apply H1|]. intros [rc sock] s2 [Hb Hc]. cbv iota. run. set (s3 := upd_client _ s2).
  assert (H3 : opening s3).
  { split; [|by destruct H1 as [_ <-]]. destruct Hb. split; try done. by apply (proto_ok_mem s2). }
  destruct (_ || _); [run; apply opening_state; [done|tauto]|]. destruct (rc =? 0); [|by run].
  step send_connect_minor. intros rc2 s4 Hm. run. apply opening_state; [by eapply opening_minor|].
  destruct (rc2 =? 0); tauto.
Qed.

(** *** Processing a command *)

(** A command that was taken out of the queue. *)
Record taken (c : command) (s : mqtt) : Prop := {
  tk_base : base_ok s;
  tk_command : command_ok (clock s) c;
  tk_token : cmd_token c = 0 \/ fresh (cmd_token c) s;
  tk_acks : acks_ok s;
  tk_flows : connected (client s) = true ->
    command_type (cmd_details c) = DISCONNECT \/
    (command_type (cmd_details c) = CONNECT /\ doomed (items (commands (api s)))) \/
    m_msgid <$> out s ⊆ publish_tokens s
}.

Lemma detach_taken c s :
  client_ok s -> items (commands (api s)) !! 0%nat = Some c -> taken c (set_cmds (detach_at 0 (commands (api s))) s).
Proof.
  intros [H Hf] Hc. destruct (items (commands (api s))) as [|c' l] eqn:El; [done|]. injection Hc as ->.
  pose proof H as []. rewrite El in bk_commands0. apply Forall_cons in bk_commands0 as [Hc Hl].
  set (s1 := set_cmds _ s). assert (Ei : items (commands (api s1)) = l) by (cbn; by rewrite El).
  assert (Hp : ids s ≡ₚ (if cmd_token c =? 0 then ids s1 else cmd_token c :: ids s1)).
  { apply tokens_perm. unfold tokens. rewrite El, Ei. done. }
  assert (Hids : NoDup (ids s1) /\ (cmd_token c = 0 \/ fresh (cmd_token c) s1) /\
    (msgID (client s) = 0 -> (length (ids s1) <= 1)%nat)).
  { rewrite Hp in bk_ids0. destruct bk_msgid0 as [_ Hm]. rewrite Hp in Hm. destruct (Z.eqb_spec (cmd_token c) 0) as [E|E].
    - split; [done|]. split; [by left|done].
    - apply NoDup_cons in bk_ids0 as [Hn Hd]. split; [done|]. cbn in Hm. split.
      + right. split; [done|]. intros Hz. apply nil_length_inv. specialize (Hm Hz). lia.
      + intros Hz. specialize (Hm Hz). lia. }
  destruct Hids as (I1 & I2 & I3). split.
  - split; try done; [by apply (proto_ok_mem s)|by rewrite Ei|]. split; [apply bk_msgid0|done].
  - done.
  - done.
  - intros Hcon. by apply Hf.
  - intros Hcon. rewrite Ei. destruct (Hf Hcon) as [_ Hf']. rewrite El in Hf'. cbn in Hf'. tauto.
Qed.

(** The identifier of the message it publishes. *)
Definition published (c : command) : list Z :=
  if command_type (cmd_details c) =? PUBLISH then [cmd_token c] else [].

(** What has been done with the command. *)
Definition processed (rc : Z) (c : command) (s : mqtt) : Prop :=
  base_ok s /\
  match cmd_details c with
  | DConnect _ _ uris _ => uris = [] /\ cmd_token c = 0 /\ flows_ok s /\ (rc = 0 \/ connected (client s) = false)
  | DDisconnect _ _ => flows_ok s
  | d =>
      in_range (cmd_token c) /\ fresh (cmd_token c) s /\ acks_ok s /\ connected (client s) = true /\
      m_msgid <$> out s ⊆ published c ++ publish_tokens s /\
      match d with DPublish _ _ _ qos _ => qos <> 0 | _ => True end
  end.

Lemma base_same s s' :
  base_ok s -> proto_ok s' -> (net_ok (nt s) -> net_ok (nt s')) -> rest s' = rest s -> base_ok s'.
Proof.
  intros [] Hp Hn Er. injection Er as E1 E2 E3 E4 E5 E6 E7.
  split; unfold ids, tokens in *; rewrite ?E1, ?E2, ?E3, ?E4, ?E5, ?E6; auto.
Qed.

(** The commands that need a connection. *)
Lemma sent_processed c s s' rc d :
  taken c s -> connected (client s) = true ->
  in_range (cmd_token c) -> command_type (cmd_details c) <> DISCONNECT -> command_type (cmd_details c) <> CONNECT ->
  match d with DConnect _ _ _ _ | DDisconnect _ _ => False | DPublish _ _ _ qos _ => qos <> 0 | _ => True end ->
  proto_ok s' -> (net_ok (nt s) -> net_ok (nt s')) -> rest s' = rest s ->
  m_msgid <$> out s' ⊆ (if command_type d =? PUBLISH then [cmd_token c] else []) ++ (m_msgid <$> out s) ->
  processed rc (Command (cmd_addr c) (cmd_token c) (cmd_start_time c) (cmd_onSuccess c) (cmd_onFailure c) d) s'.
Proof.
  intros [Hb _ Ht Ha Hf] Hcon Hr H1 H2 Hd Hp Hn Er Ho. split; [by eapply base_same|].
  specialize (Hf Hcon). destruct Hf as [?|[[? _]|Hf]]; [done..|].
  assert (Hids : ids s' = ids s) by (unfold ids, tokens; by injection Er as -> _ _ _ _ _ _).
  assert (Hz : cmd_token c <> 0) by (unfold in_range in Hr; lia). destruct Ht as [?|Ht]; [done|].
  pose proof Er as [= E1 _ E3 _ E5 _ _].
  unfold published, fresh, acks_ok, publish_tokens, other_tokens in *. cbn [cmd_details cmd_token]. rewrite Hids, E5, E3, E1.
  assert (Ho' : m_msgid <$> out s' ⊆ (if command_type d =? PUBLISH then [cmd_token c] else []) ++ publish_tokens s).
  { intros x Hx. apply Ho in Hx. apply elem_of_app in Hx as [?|?]; apply elem_of_app; [by left|right; by apply Hf]. }
  by destruct d.
Qed.

Lemma connect_processed c s timeout version current :
  taken c s -> cmd_details c = DConnect timeout version [] current ->
  runs (process_connect c) s (fun r s' => processed r.1 r.2 s').
Proof.
  intros [Hb Hc Ht Ha Hf] Ed. unfold process_connect, conn_details. rewrite Ed. run.
  unfold command_ok in Hc. rewrite Ed in Hc, Hf. destruct Hc as [_ Hz].
  destruct (negb (connect_state (client s) =? 0) || connected (client s)) eqn:E.
  - run. split; [done|]. cbn. rewrite Ed. split_and!; try done; [|by left].
    intros Hcon. split; [by apply Ha|]. destruct (Hf Hcon) as [?|[[_ ?]|?]]; [done|by left|by right].
  - apply orb_false_iff in E as [_ Hcon]. rewrite !bool_decide_eq_true_2 by done. run.
    step connect_ok; [by split|]. intros rc s1 [H1 H2]. run. split; [done|]. cbn. split_and!; try done; [|by right].
    intros E. congruence.
Qed.

(** The unchanged command. *)
Lemma command_eta c d : cmd_details c = d ->
  Command (cmd_addr c) (cmd_token c) (cmd_start_time c) (cmd_onSuccess c) (cmd_onFailure c) d = c.
Proof. intros <-. by destruct c. Qed.

Lemma details_processed c s :
  taken c s -> (command_type (cmd_details c) = CONNECT \/ command_type (cmd_details c) = DISCONNECT \/
    connected (client s) = true) ->
  runs (process_details c) s (fun r s' => processed r.1 r.2 s').
Proof.
  intros H Hk. pose proof H as [Hb Hc Ht Ha Hf]. unfold process_details. unfold command_ok in Hc.
  destruct (cmd_details c) as [timeout version uris n|topics qoss|topics|d len payload qos retained|internal timeout] eqn:Ed.
  - destruct Hc as [-> _]. by eapply connect_processed.
  - destruct Hk as [?|[?|Hcon]]; [done..|]. destruct Hc as [Hr Hl].
    destruct (send_subscribe_total topics qoss (cmd_token c) 0 Hl) as (q & Eq).
    unfold MQTTProtocol_subscribe. rewrite Eq. step send_minor. intros rc s1 Hm. run. cbn [fst snd].
    rewrite <- (command_eta c _ Ed). pose proof Hm as (Em & Er & En).
    eapply (sent_processed c s s1); try done; rewrite ?Ed; try done; [by eapply proto_ok_mem; [apply Hb|]|].
    rewrite (minor_out _ _ Hm). set_solver.
  - destruct Hk as [?|[?|Hcon]]; [done..|].
    destruct (send_unsubscribe_total topics (cmd_token c) 0) as (q & Eq).
    unfold MQTTProtocol_unsubscribe. rewrite Eq. step send_minor. intros rc s1 Hm. run. cbn [fst snd].
    rewrite <- (command_eta c _ Ed). pose proof Hm as (Em & Er & En).
    eapply (sent_processed c s s1); try done; rewrite ?Ed; try done; [by eapply proto_ok_mem; [apply Hb|]|].
    rewrite (minor_out _ _ Hm). set_solver.
  - destruct Hk as [?|[?|Hcon]]; [done..|]. destruct Hc as (Hr & [topic ->] & -> & Hq).
    unfold process_publish. cbn [deref]. run. pose proof Hr as Hr'. unfold in_range, MAX_MSG_ID in Hr'.
    step startPublish_ok; [apply Hb|split; cbn; lia|done| |].
    + cbn. intros m Hm Hid. destruct (Hf Hcon) as [?|[[? _]|Hsub]]; [done..|].
      destruct Ht as [?|[Ht _]]; [lia|]. apply Ht. apply tokens_ids; [lia|]. apply elem_of_app. right.
      apply publish_waits, Hsub. rewrite <- Hid. by apply list_elem_of_fmap_2.
    + cbn. intros rc s1 (Hp & Ho & Er & En). destruct (Z.eqb_spec qos 0); [lia|]. run. cbn [fst snd].
      eapply (sent_processed c s s1); try done; rewrite ?Ed; try done. by rewrite Ho, Permutation_app_comm.
  - run. apply (runs_mono _ _ (fun _ s' => client_ok s')).
    + destruct (_ || _) eqn:E; run.
      * apply (checkDisconnect_ok (-2) c s); [done| |by rewrite Ed]. unfold command_ok. by rewrite Ed.
      * apply orb_false_iff in E as [_ E]. split; [done|]. intros ?. congruence.
    + intros ? s1 [H1 H2]. run. split; [done|]. cbn. by rewrite Ed.
Qed.

(** The command waits for its response. *)
Lemma respond_ok c s :
  base_ok s -> acks_ok s -> in_range (cmd_token c) -> fresh (cmd_token c) s ->
  m_msgid <$> out s ⊆ published c ++ publish_tokens s ->
  client_ok (set_api (set_responses (c_append c (responses (api s))) (api s)) s).
Proof.
  intros H Ha Hr [Hn Hm] Ho. set (s' := set_api _ s). pose proof H as [].
  assert (Hp : tokens s' ≡ₚ cmd_token c :: tokens s).
  { unfold tokens. cbn. rewrite fmap_app. cbn. solve_Permutation. }
  apply tokens_perm in Hp. unfold in_range in Hr. destruct (Z.eqb_spec (cmd_token c) 0); [lia|]. split.
  - split; try done; [by apply (proto_ok_mem s)| | |].
    + cbn. rewrite fmap_app. apply Forall_app. split; [done|by apply Forall_singleton].
    + rewrite Hp. by apply NoDup_cons.
    + split; [apply bk_msgid0|]. intros Hz. cbn in Hz. by rewrite Hp, Hm.
  - intros Hcon. specialize (Ha Hcon). unfold other_tokens, publish_tokens, published in *. cbn.
    rewrite !filter_app, !fmap_app. split; [set_solver|right]. intros x Hx. apply Ho in Hx.
    apply elem_of_app. apply elem_of_app in Hx as [Hx|Hx]; [right|by left]. rewrite filter_cons.
    destruct (Z.eqb_spec (command_type (cmd_details c)) PUBLISH); [|by apply not_elem_of_nil in Hx].
    by rewrite decide_True.
Qed.

Lemma set_command_ok f s :
  client_ok s -> (forall a, commands (f a) = commands a /\ responses (f a) = responses a /\
    pending_write (f a) = pending_write a) ->
  cmd_token (connect (f (api s))) = 0 ->
  (exists timeout version current, cmd_details (connect (f (api s))) = DConnect timeout version [] current) ->
  runs (upd_api f) s (fun _ s' => client_ok s').
Proof.
  intros [[] Hfl] Hf Ht Hc. run. destruct (Hf (api s)) as (E1 & E2 & E3). split.
  - split; unfold ids, tokens in *; cbn; rewrite ?E1, ?E2, ?E3; try done. by apply (proto_ok_mem s).
  - unfold flows_ok, publish_tokens, other_tokens in *. cbn. by rewrite E1, E2.
Qed.

Lemma finish_ok rc c s : processed rc c s -> runs (finish_command rc c) s (fun _ s' => client_ok s').
Proof.
  intros [H Hc]. unfold finish_command. destruct (cmd_details c) as [timeout version uris n|topics qoss|topics|d len payload qos retained|internal dt] eqn:Ed;
    cbv zeta; cbn [command_type].
  - destruct Hc as (-> & Hz & Hf & Hrc). change (CONNECT =? CONNECT) with true. cbn [andb].
    destruct (_ || _) eqn:E; cbn [negb].
    + destruct Hrc as [->|Hcon]; [done|]. clear E. change (CONNECT =? DISCONNECT) with false. cbn iota.
      unfold MQTTAsync_disconnect1. run. rewrite Hcon. cbn [negb]. run. unfold MQTTAsync_checkConn, conn_details.
      rewrite Ed. run. destruct (_ || _); [|by apply maybe_call].
      step addCommand_ok; [done|unfold command_ok; cbn; by rewrite Ed|by left|]. intros ? s1 (_ & Hb & Hf1 & _). run.
      split; [done|by apply Hf1].
    + apply set_command_ok; [by split|done|done|]. cbn. rewrite Ed. by eexists _, _, _.
  - destruct Hc as (Hr & Hn & Ha & Hcon & Ho & _). change (SUBSCRIBE =? CONNECT) with false.
    change (SUBSCRIBE =? DISCONNECT) with false. cbn [andb]. destruct (_ || _); [|run; by apply respond_ok].
    unfold MQTTAsync_disconnect_internal. step disconnect_ok; [done..|]. intros ? s1 (Hb & Hf & _). run.
    by apply maybe_call.
  - destruct Hc as (Hr & Hn & Ha & Hcon & Ho & _). change (UNSUBSCRIBE =? CONNECT) with false.
    change (UNSUBSCRIBE =? DISCONNECT) with false. cbn [andb]. destruct (_ || _); [|run; by apply respond_ok].
    unfold MQTTAsync_disconnect_internal. step disconnect_ok; [done..|]. intros ? s1 (Hb & Hf & _). run.
    by apply maybe_call.
  - destruct Hc as (Hr & Hn & Ha & Hcon & Ho & Hq). change (PUBLISH =? CONNECT) with false.
    change (PUBLISH =? DISCONNECT) with false. cbn [andb]. destruct (Z.eqb_spec qos 0); [done|].
    destruct (_ || _); [|run; by apply respond_ok].
    unfold MQTTAsync_disconnect_internal. step disconnect_ok; [done..|]. intros ? s1 (Hb & Hf & _). run.
    by apply maybe_call.
  - change (DISCONNECT =? CONNECT) with false. change (DISCONNECT =? DISCONNECT) with true. cbn [andb].
    destruct (bk_connect _ H) as [? ?]. by apply set_command_ok.
Qed.

Lemma processCommand_ok s : client_ok s -> runs MQTTAsync_processCommand s (fun _ s' => client_ok s').
Proof.
  intros H. unfold MQTTAsync_processCommand. run. step pick_ok. intros r s1 [Hm Hr].
  pose proof (client_minor _ _ H Hm) as H1. destruct r as [[i c]|]; [|by run].
  destruct Hr as (-> & Hc & Hk). run. pose proof Hm as (_ & [= E1 _ E3 _ _ _ _] & _).
  step details_processed; [apply detach_taken; [done|by rewrite E1]|cbn; by rewrite E3|].
  intros [rc c'] s2 Hp. by apply finish_ok.
Qed.

Lemma set_lasts_ok r t s : client_ok s -> runs (upd_api (set_lasts r t)) s (fun _ s' => client_ok s').
Proof. intros H. pose proof (bk_connect _ (proj1 H)) as [? ?]. by apply set_command_ok. Qed.

Lemma checkTimeouts_ok s : client_ok s -> runs MQTTAsync_checkTimeouts s (fun _ s' => client_ok s').
Proof.
  intros H. unfold MQTTAsync_checkTimeouts. run. case_match; [by run|]. run.
  set (s1 := set_api _ s). assert (H1 : client_ok s1).
  { destruct (set_lasts_ok (last_retry (api s)) (clock s / 1000) s H) as (? & ? & [= <- <-] & Hs). done. }
  unfold MQTTAsync_elapsed, conn_details. run. destruct (bk_connect _ (proj1 H)) as (_ & timeout & version & n & E).
  rewrite E. run. destruct (_ && _); [by apply next_connection_ok, H1|].
  assert (Hs : connect_state (client s1) <> -2) by (destruct (bk_state _ (proj1 H1)) as [?|[_ [?|?]]]; lia).
  apply Z.eqb_neq in Hs. change (connect_state (client s)) with (connect_state (client s1)). rewrite Hs. by run.
Qed.
End Invariant.

Arguments ids R s : clear implicits.
Arguments fresh R t s : clear implicits.
Arguments base_ok R s : clear implicits.
Arguments acks_ok L s : clear implicits.
Arguments flows_ok L s : clear implicits.
Arguments client_ok R L s : clear implicits.
Arguments kept R L s s' : clear implicits.
Arguments opening R s : clear implicits.
