(* ===== verification/MqttTurns.v ===== *)
(** * MqttTurns: the sections of the receive thread

    What the server sends and the client is entitled to expect, and the sections of a turn of the receive
    thread, which keep the invariant of [MqttInv]. *)

From Stdlib Require Import ZArith Lia String.
From stdpp Require Import base tactics numbers list gmap.
From S2P Require Import Prelude LinkedList Utf8 MqttPacket SockBuf MqttRead MqttProto MqttSession MqttArrive MqttEngine MqttAsync MqttRuns MqttInv.

(** ** The receive thread *)

(** *** The handlers touch nothing but the messages and the network *)

Definition stays {A : Type} (m : M A) : Prop :=
  forall s a s', m s = Ret (a, s') -> rest s' = rest s /\ (net_ok (nt s) -> net_ok (nt s')).

Lemma stays_ret {A} (a : A) : stays (pret a).
Proof. by intros s b s' [= <- <-]. Qed.

Lemma stays_bind {A B} (m : M A) (k : A -> M B) : stays m -> (forall a, stays (k a)) -> stays (pbind m k).
Proof.
  intros Hm Hk s b s' E. unfold pbind in E. destruct (m s) as [[a s1]| | |] eqn:E1; [|done..].
  destruct (Hm _ _ _ E1) as [R1 N1]. destruct (Hk a _ _ _ E) as [R2 N2]. split; [congruence|auto].
Qed.

Lemma stays_get : stays pget.
Proof. by intros s b s' [= <- <-]. Qed.

Lemma stays_client : stays the_client.
Proof. by intros s b s' [= <- <-]. Qed.

Lemma stays_lift {A} (o : outcome A) : stays (plift o).
Proof. intros s a s' E. unfold plift in E. destruct o; [|done..]. by injection E as <- <-. Qed.

Lemma stays_mod f : (forall s, rest (f s) = rest s /\ nt (f s) = nt s) -> stays (pmod f).
Proof. intros H s a s' [= <- <-]. destruct (H s) as [-> ->]. done. Qed.

Lemma stays_pclient f :
  (forall c, connected (f c) = connected c /\ connect_state (f c) = connect_state c /\ msgID (f c) = msgID c /\
    cleansession (f c) = cleansession c /\ socket (f c) = socket c) -> stays (pclient f).
Proof.
  intros H. apply stays_mod. intros s. destruct (H (client s)) as (E1 & E2 & E3 & E4 & E5). unfold rest. cbn.
  by rewrite E1, E2, E3, E4, E5.
Qed.

Lemma stays_send r : stays (send r).
Proof.
  intros s a s' E. destruct r as [p| | |]; [|done..]. destruct (send_minor p s) as (a' & s1 & E1 & Hm).
  rewrite E1 in E. injection E as <- <-. apply Hm.
Qed.

Create HintDb stays discriminated.
#[export] Hint Resolve stays_ret stays_bind stays_get stays_client stays_lift stays_send : stays.

Ltac stays :=
  repeat (match goal with
    | |- stays (pbind _ _) => apply stays_bind; [|intros]
    | |- stays (pmod _) => apply stays_mod; done
    | |- stays (pclient _) => apply stays_pclient; done
    | |- stays (if ?b then _ else _) => destruct b
    | |- stays (match ?x with _ => _ end) => destruct x
    | |- stays _ => solve [eauto with stays]
    | |- stays (let _ := _ in _) => cbv zeta
    end).

Lemma stays_store p : stays (MQTTProtocol_storePublication p).
Proof. unfold MQTTProtocol_storePublication. stays. Qed.

Lemma stays_load p : stays (load_pub p).
Proof. unfold load_pub. stays. Qed.
#[export] Hint Resolve stays_store stays_load : stays.

Lemma stays_unlist p : stays (unlist_pub p).
Proof. unfold unlist_pub. stays. Qed.
#[export] Hint Resolve stays_unlist : stays.

Lemma stays_remove p : stays (MQTTProtocol_removePublication p).
Proof. unfold MQTTProtocol_removePublication. stays. Qed.

Lemma stays_find_out id : stays (find_outbound id).
Proof. unfold find_outbound. stays. Qed.

Lemma stays_find_in id : stays (find_inbound id).
Proof. unfold find_inbound. stays. Qed.

Lemma stays_deliver am : stays (MQTTAsync_deliverMessage am).
Proof. unfold MQTTAsync_deliverMessage. stays. Qed.

Lemma stays_time : stays time.
Proof. unfold time. stays. Qed.

Lemma stays_client_of sock : stays (client_of sock).
Proof. unfold client_of. stays. Qed.
#[export] Hint Resolve stays_remove stays_find_out stays_find_in stays_deliver stays_time stays_client_of : stays.

Lemma stays_process p : stays (Protocol_processPublication p).
Proof. unfold Protocol_processPublication. stays. Qed.
#[export] Hint Resolve stays_process : stays.

Lemma stays_handle p sock : stays (handle p sock).
Proof.
  unfold handle, MQTTProtocol_handlePublishes, MQTTProtocol_handlePubacks, MQTTProtocol_handlePubrecs,
    MQTTProtocol_handlePubrels, MQTTProtocol_handlePubcomps, MQTTProtocol_handleUnsubacks,
    MQTTProtocol_handleSubacks, MQTTProtocol_handlePingresps. stays.
Qed.

(** A packet of the server is handled, and the session behind the client changes as it says. *)
Lemma handle_ok R p sock s :
  base_ok R s -> socket (client s) = sock -> pk_ok p ->
  exists se, represents s se /\
    runs (handle p sock) s (fun _ s' => base_ok R s' /\ rest s' = rest s /\
      m_msgid <$> out s' = f_id <$> se_out (se_step p se).1).
Proof.
  intros H Hs Hp. destruct (proto_represents s (bk_proto _ H)) as (se & Hr). exists se. split; [done|].
  destruct (handle_spec p s se sock Hr Hs Hp) as (rc & s' & E & Hr' & _ & _).
  destruct (stays_handle p sock s rc s' E) as [Er En]. exists rc, s'. split; [done|].
  split; [by eapply base_same; [done|apply (re_ok _ _ Hr')|done|]|]. split; [done|].
  eapply flow_ids, (re_out _ _ Hr').
Qed.

(** *** Identifiers *)

(** The command with the identifier waits for a SUBACK or an UNSUBACK. *)
Definition awaited (id : Z) (s : mqtt) : Prop := connected (client s) = true -> id ∈ other_tokens s.

(** The server answers what it was sent: a PUBACK is for a message of QoS 1, a PUBCOMP for one that was
    released, a SUBACK or an UNSUBACK for a command that waits for it. *)
Definition answers (p : packet) (s : mqtt) : Prop :=
  match p with
  | PkAck a =>
      let t := hd_type (a_header a) in
      if t =? PUBACK then forall m, m ∈ out s -> m_msgid m = a_msgId a -> m_qos m = 1
      else if t =? PUBCOMP then
        forall m, m ∈ out s -> m_msgid m = a_msgId a -> m_qos m = 2 /\ m_nextMessageType m = Some PUBCOMP
      else if t =? UNSUBACK then awaited (a_msgId a) s
      else True
  | PkSuback b => awaited (s_msgId b) s
  | _ => True
  end.

Lemma delete_subset (l : list flow) i : f_id <$> delete i l ⊆ f_id <$> l.
Proof.
  intros x Hx. apply list_elem_of_fmap in Hx as (f & -> & Hf). apply list_elem_of_fmap_2.
  by eapply list_elem_of_delete_inv.
Qed.

(** The identifier of the flow that is deleted is gone. *)
Lemma delete_gone (l : list flow) i f : NoDup (f_id <$> l) -> l !! i = Some f -> f_id f ∉ f_id <$> delete i l.
Proof.
  intros Hn Hi. rewrite (delete_Permutation _ _ _ Hi) in Hn. by apply NoDup_cons in Hn as [? _].
Qed.

Lemma flow_at_found id l i f : flow_at id l = Some (i, f) -> l !! i = Some f /\ f_id f = id.
Proof. intros H. apply list_find_Some in H as (? & ? & _). done. Qed.

Lemma flow_at_none id l : flow_at id l = None -> id ∉ f_id <$> l.
Proof.
  intros H Hin. apply list_find_None in H. rewrite Forall_forall in H.
  apply list_elem_of_fmap in Hin as (f & -> & Hf). by apply (H f Hf).
Qed.

(** No identifier is new. *)
Lemma step_subset p se : f_id <$> se_out (se_step p se).1 ⊆ f_id <$> se_out se.
Proof.
  destruct p as [q|a|c|b|h]; cbn [se_step]; try done.
  - unfold se_publish. repeat case_match; done.
  - repeat (case_match; [|]); try done.
    + unfold se_puback. case_match; [|done]. destruct p as [i f]. case_match; [apply delete_subset|done].
    + unfold se_pubrec. destruct (flow_at _ _) as [[i f]|] eqn:E; [|done]. case_bool_decide; [|done]. cbn.
      apply flow_at_found in E as [Hi Hid]. rewrite list_fmap_insert, list_insert_id; [done|].
      by rewrite list_lookup_fmap, Hi, <- Hid.
    + unfold se_pubrel. by case_match; [destruct p|].
    + unfold se_pubcomp. case_match; [|done]. destruct p as [i f]. case_bool_decide; [apply delete_subset|done].
Qed.

Lemma flow_of_at s l se_l i f :
  Forall2 (flow_of (pubs s)) l se_l -> se_l !! i = Some f ->
  exists m, m ∈ l /\ f_id f = m_msgid m /\ f_qos f = m_qos m /\ f_stage f = m_nextMessageType m.
Proof.
  intros Hf Hi. destruct (Forall2_lookup_r _ _ _ _ _ Hf Hi) as (m & Hm & (b & _ & ->)).
  exists m. split; [by eapply list_elem_of_lookup_2|done].
Qed.

(** A message that is acknowledged is no longer in flight. *)
Lemma acked_gone a s se :
  represents s se -> answers (PkAck a) s -> hd_type (a_header a) = PUBACK \/ hd_type (a_header a) = PUBCOMP ->
  a_msgId a ∉ f_id <$> se_out (se_step (PkAck a) se).1.
Proof.
  intros Hr Ha Ht. cbn [se_step]. unfold answers in Ha.
  pose proof (ok_out_ids _ (re_ok _ _ Hr)) as Hn. rewrite (flow_ids _ _ _ (re_out _ _ Hr)) in Hn.
  assert (Hcase : forall r, (r = se_puback (a_msgId a) se /\ (forall m, m ∈ out s -> m_msgid m = a_msgId a -> m_qos m = 1) \/
      r = se_pubcomp (a_msgId a) se /\ (forall m, m ∈ out s -> m_msgid m = a_msgId a ->
        m_qos m = 2 /\ m_nextMessageType m = Some PUBCOMP)) -> a_msgId a ∉ f_id <$> se_out r.1).
  { intros r Hc. unfold se_puback, se_pubcomp in Hc.
    destruct (flow_at (a_msgId a) (se_out se)) as [[i f]|] eqn:E.
    - apply flow_at_found in E as [Hi Hid]. destruct (flow_of_at s _ _ _ _ (re_out _ _ Hr) Hi) as (m & Hm & E1 & E2 & E3).
      rewrite <- Hid. destruct Hc as [[-> Hq]|[-> Hq]].
      + rewrite E2, (Hq m Hm) by congruence. by apply delete_gone.
      + destruct (Hq m Hm) as [Q1 Q2]; [congruence|]. rewrite bool_decide_eq_true_2 by (split; congruence).
        by apply delete_gone.
    - apply flow_at_none in E. by destruct Hc as [[-> _]|[-> _]]. }
  destruct Ht as [E|E]; rewrite E in Ha |- *; apply Hcase; [left|right]; by split.
Qed.

(** A response is taken out that no message in flight waits for. *)
Lemma take_response_ok R id s :
  client_ok R [] s -> (connected (client s) = true -> doomed (items (commands (api s))) \/ id ∉ m_msgid <$> out s) ->
  runs (take_response id) s (fun _ s' => client_ok R [] s').
Proof.
  intros [H Hf] Hid. unfold take_response. run.
  destruct (list_find _ (items (responses (api s)))) as [[i c]|] eqn:E; [|by run]. run.
  apply list_find_Some in E as (Hi & Hc & _). set (s' := set_api _ s).
  assert (Hp : tokens s ≡ₚ id :: tokens s').
  { unfold tokens. rewrite (delete_Permutation _ _ _ Hi). cbn. rewrite Hc. solve_Permutation. }
  apply (tokens_perm (R := R)) in Hp. pose proof (bk_responses _ H) as Hr. pose proof (bk_ids _ H) as Hn.
  rewrite (delete_Permutation _ _ _ Hi) in Hr. cbn in Hr.
  apply Forall_cons in Hr as [Hrange Hr]. rewrite Hc in Hrange. unfold in_range in Hrange.
  destruct (Z.eqb_spec id 0); [lia|]. split.
  - pose proof (bk_msgid _ H) as Hm. destruct H. split; try done; [by apply (proto_ok_mem s)| |].
    + rewrite Hp in Hn. by apply NoDup_cons in Hn as [_ ?].
    + split; [apply Hm|]. intros Hz. apply Hm in Hz. rewrite Hp in Hz. cbn in Hz. lia.
  - intros Hcon. split; [set_solver|]. destruct (Hf Hcon) as [_ [Hd|Hsub]]; [by left|].
    destruct (Hid Hcon) as [?|Ho]; [by left|right]. intros x Hx. pose proof (Hsub x Hx) as Hin.
    unfold publish_tokens in *. cbn. rewrite (delete_Permutation _ _ _ Hi), filter_cons in Hin.
    destruct (decide _); [|done]. cbn in Hin. apply elem_of_cons in Hin as [->|?]; [|done]. by rewrite Hc in Hx.
Qed.

Lemma delivered_ok R id s :
  client_ok R [] s -> (id ∉ m_msgid <$> out s) -> runs (delivered id) s (fun _ s' => client_ok R [] s').
Proof.
  intros H Hid. unfold delivered. run. apply (runs_mono _ _ (fun _ s1 => client_ok R [] s1 /\ id ∉ m_msgid <$> out s1)).
  { destruct (dc (api s)); [|by run]. unfold call_back. run. split; [|done].
    destruct (call_back_minor (CDelivered id) s H) as (? & ? & [= <- <-] & Hs). done. }
  intros ? s1 [H1 Hid1]. step take_response_ok; [done|by right|]. intros r s2 H2. destruct r as [c|]; [|by run].
  destruct (cmd_onSuccess c); [|by run]. destruct (cmd_details c); by apply call_back_minor.
Qed.

(** *** A turn of the receive thread *)

Lemma handle_kept R p sock s :
  client_ok R [] s -> socket (client s) = sock -> pk_ok p -> answers p s ->
  runs (handle p sock) s (fun _ s' => client_ok R [] s' /\ m_msgid <$> out s' ⊆ m_msgid <$> out s /\
    match p with
    | PkAck a => hd_type (a_header a) = PUBACK \/ hd_type (a_header a) = PUBCOMP -> a_msgId a ∉ m_msgid <$> out s'
    | _ => True
    end).
Proof.
  intros [H Hf] Hs Hp Ha. destruct (handle_ok R p sock s H Hs Hp) as (se & Hr & Hrun).
  eapply runs_mono; [exact Hrun|]. intros rc s' (Hb & Er & Ho). cbv beta.
  assert (Hsub : m_msgid <$> out s' ⊆ m_msgid <$> out s).
  { rewrite Ho, (flow_ids _ _ _ (re_out _ _ Hr)). apply step_subset. }
  split; [split; [done|]|split; [done|]].
  - intros Hc. injection Er as E1 _ E3 _ _ _ _. rewrite E3 in Hc. unfold publish_tokens. rewrite E1.
    split; [set_solver|]. destruct (Hf Hc) as [_ [Hd|Hp']]; [by left|right]. by etrans.
  - destruct p as [q|a|c|b|h]; try done. intros Ht. rewrite Ho. by apply (acked_gone a s).
Qed.

(** The identifiers of the acknowledgement that is left for the receive thread. *)
Definition left_ids (p : option packet) : list Z :=
  match p with
  | Some (PkSuback b) => [s_msgId b]
  | Some (PkAck a) => if hd_type (a_header a) =? UNSUBACK then [a_msgId a] else []
  | _ => []
  end.

Lemma client_left R p s : client_ok R [] s -> answers p s -> client_ok R (left_ids (Some p)) s.
Proof.
  intros [H Hf] Ha. split; [done|]. intros Hc. split; [|by apply Hf]. unfold answers, awaited in Ha.
  destruct p as [q|a|c|b|h]; cbn [left_ids]; try set_solver.
  destruct (Z.eqb_spec (hd_type (a_header a)) UNSUBACK) as [E|]; [|set_solver]. rewrite E in Ha. cbn in Ha. set_solver.
Qed.

Lemma client_weaken R L s : client_ok R L s -> client_ok R [] s.
Proof. intros [H Hf]. split; [done|]. intros Hc. split; [set_solver|]. by apply Hf. Qed.

(** The packet is handled; one that is left is for the receive thread. *)
Lemma handle_packet_ok R p sock rc s :
  client_ok R [] s -> socket (client s) = sock -> pk_ok p -> answers p s ->
  runs (handle_packet p sock rc) s (fun r s' => client_ok R (left_ids r.1) s').
Proof.
  intros H Hs Hp Ha. pose proof (handle_kept R p sock s H Hs Hp Ha) as Hk.
  destruct p as [q|a|c|b|h]; cbn [handle_packet handle] in *.
  - step Hk. intros rc1 s1 (H1 & _). by run.
  - cbv zeta in *. set (t := hd_type (a_header a)) in *.
    destruct (Z.eqb_spec t PUBACK) as [Et|Et]; cbn [orb].
    { rewrite Et. change (PUBACK =? PUBCOMP) with false. cbn iota. step Hk. intros rc1 s1 (H1 & _ & Hg).
      step delivered_ok; [done|apply Hg; by left|]. intros ? s2 H2. by run. }
    destruct (Z.eqb_spec t PUBCOMP) as [Ec|Ec].
    { rewrite Ec in Hk. cbn in Hk. step Hk. intros rc1 s1 (H1 & _ & Hg).
      step delivered_ok; [done|apply Hg; by right|]. intros ? s2 H2. by run. }
    destruct (Z.eqb_spec t PUBREC); [step Hk; intros rc1 s1 (H1 & _); by run|].
    destruct (Z.eqb_spec t PUBREL); [step Hk; intros rc1 s1 (H1 & _); by run|].
    run. by apply client_left.
  - by run.
  - run. by apply client_left.
  - destruct (hd_type h =? PINGRESP); [|by run]. step Hk. intros rc1 s1 (H1 & _). by run.
Qed.

(** What the server may send at this moment. *)
Definition answered (h : Z) (m : from_server) (s : mqtt) : Prop :=
  match m with
  | FsAck msgId => answers (PkAck (MkAck h msgId)) s
  | FsSuback msgId qoss => answers (PkSuback (MkSuback h msgId qoss)) s
  | _ => True
  end.

(** The bytes that are arriving are those of a packet the server may send; some of them may have been read,
    some may not have arrived yet, and the connection may end behind any of them. *)
Definition conforms (sock : Z) (s : mqtt) : Prop :=
  exists h m, well_sent h m /\ arriving sock h (body_of h m) (nt s) /\ answered h m s.

Lemma read_answers h m p s : read_as h m p -> answered h m s -> answers p s.
Proof. destruct m; cbn [read_as answered]; [by intros -> _|by intros (q & -> & _)|by intros ->|by intros ->|by intros -> _]. Qed.

Lemma answers_minor p s s' : answers p s -> minor s s' -> answers p s'.
Proof.
  intros Ha ([= E1 _ _ _ _] & [= E2 _ E3 _ _ _ _] & _). unfold answers, awaited, other_tokens in *. by rewrite E1, E2, E3.
Qed.

Lemma read_from_ok sock s :
  0 < sock -> conforms sock s ->
  runs (read_from sock) s (fun r s' => minor s s' /\
    match r.1 with Some p => r.2 = TCPSOCKET_COMPLETE /\ pk_ok p /\ answers p s' | None => True end).
Proof.
  intros Hsock (h & m & Hw & Harr & Ha).
  assert (Hnet : forall p rc n, MQTTPacket_Factory sock (nt s) = Ret (p, rc, n) -> minor s (set_nt n s)).
  { intros p rc n E. destruct (factory_wr _ _ _ _ _ E) as [Ew _]. apply wside_wr in Ew.
    apply minor_net. intros H. by eapply net_ok_same. }
  unfold read_from. run. destruct (Factory_arriving sock ltac:(lia) h m (nt s) Hw Harr) as [(rc & n & E & _)|(p & n & E & Hp & Hr)];
    rewrite E; pose proof (Hnet _ _ _ E) as Hm; run; cbn [fst snd]; [done|].
  split; [done|]. split; [done|]. split; [done|]. eapply (answers_minor p s); [by eapply read_answers|exact Hm].
Qed.

Lemma opening_ok R L s : opening R s -> client_ok R L s.
Proof. intros [H Hc]. split; [done|]. intros E. congruence. Qed.

Lemma connecting_ok R L s :
  client_ok R L s -> connect_state (client s) = 1 -> runs MQTTAsync_connecting s (fun _ s' => client_ok R L s').
Proof.
  intros H Hs. assert (Ho : opening R s).
  { split; [apply H|]. destruct (bk_state _ (proj1 H)) as [?|[? _]]; [lia|done]. }
  unfold MQTTAsync_connecting. run. rewrite Hs. change (1 =? 1) with true. cbn iota. run.
  apply (runs_mono _ _ (fun _ s1 => opening R s1)).
  { unfold getsockopt_error. run. destruct (so_errors (api s)) as [|e l]; run; [done|].
    destruct Ho as [[] ?]. split; [|done]. split; try done. by apply (proto_ok_mem s). }
  intros rc s1 H1. run. apply (runs_mono _ _ (fun _ s1 => opening R s1)).
  { destruct (rc =? 0); cbn [negb]; [|by run]. run. unfold conn_details.
    destruct (bk_connect _ (proj1 Ho)) as (_ & timeout & version & k & E). rewrite E. run.
    eapply runs_mono; [apply send_connect_minor|]. intros ? s2 Hm. apply (opening_minor (with_state 3 s1)); [|done].
    apply opening_state; [done|tauto]. }
  intros rc2 s2 H2. run. apply (runs_mono _ _ (fun _ s3 => client_ok R L s3)).
  { destruct (_ && _ && _); [apply next_connection_ok, H2|]. run. by apply opening_ok. }
  intros ? s3 H3. by run.
Qed.

Lemma cycle_ok R sock s :
  client_ok R [] s -> (0 < sock -> socket (client s) = sock -> connect_state (client s) <> 1 -> conforms sock s) ->
  runs (MQTTAsync_cycle sock) s (fun r s' => client_ok R (left_ids r.1) s').
Proof.
  intros H Hc. unfold MQTTAsync_cycle. apply runs_bind.
  apply (runs_mono _ _ (fun r s' => client_ok R (left_ids r.1) s')).
  2: { intros r s1 H1. step MQTTAsync_retry_ok; [done|]. intros ? s2 [H2 Ho]. by run. }
  destruct (Z.ltb_spec 0 sock); [|by run]. run.
  destruct (Z.eqb_spec (socket (client s)) sock) as [Es|]; [|by run].
  assert (Hread : runs (if (connect_state (client s) =? 1) || (connect_state (client s) =? 2)
      then let* rc := MQTTAsync_connecting in pret (None, rc) else read_from sock) s
    (fun r s' => client_ok R [] s' /\ match r.1 with
      | Some p => r.2 = TCPSOCKET_COMPLETE /\ socket (client s') = sock /\ pk_ok p /\ answers p s' | None => True end)).
  { destruct (Z.eqb_spec (connect_state (client s)) 1); cbn [orb].
    - step connecting_ok; [done|done|]. intros rc s1 H1. by run.
    - destruct (Z.eqb_spec (connect_state (client s)) 2).
      { exfalso. destruct (bk_state _ (proj1 H)) as [?|[_ [?|?]]]; lia. }
      eapply runs_mono; [apply read_from_ok; [done|by apply Hc]|]. intros r s1 [Hm Hr]. cbv beta.
      split; [by eapply client_minor|]. destruct (r.1); [|done]. destruct Hr as (? & ? & ?).
      split_and!; try done. destruct Hm as (_ & Er & _). injection Er as _ _ _ _ _ _ ->. done. }
  step Hread. intros [pack rc] s1 [H1 Hp]. cbn [fst snd] in Hp. run.
  apply (runs_mono _ _ (fun _ s2 => client_ok R [] s2 /\ (is_Some pack -> s2 = s1))).
  { destruct (_ && (rc =? SOCKET_ERROR)) eqn:E; [|by run].
    eapply runs_mono; [apply (next_connection_ok (R := R) (L := [])), H1|]. intros ? s2 H2. split; [done|]. intros [p ->].
    destruct Hp as [-> _]. by rewrite andb_false_r in E. }
  intros ? s2 [H2 Hs]. run. destruct pack as [p|]; [|by run]. rewrite Hs in * by done.
  destruct Hp as (_ & Hsock & Hpk & Ha). by apply handle_packet_ok.
Qed.

Lemma offer_ok R L s : client_ok R L s -> runs offer_message s (fun _ s' => kept R L s s').
Proof.
  intros H. unfold offer_message. run. destruct (messageQueue (client s)) as [|am q]; [by run|].
  unfold MQTTAsync_deliverMessage. run. destruct (ma_results s) as [|[] l]; cbn; run; by apply kept_minor.
Qed.

Lemma completeConnection_ok R p s :
  client_ok R [] s -> runs (MQTTAsync_completeConnection p) s (fun _ s' => client_ok R [] s').
Proof.
  intros [H Hf]. unfold MQTTAsync_completeConnection. run.
  destruct (Z.eqb_spec (connect_state (client s)) 3); [|by run]. destruct (c_rc p =? MQTTASYNC_SUCCESS); [|by run].
  run. set (s1 := upd_client _ s).
  assert (H1 : base_ok R s1).
  { destruct H. split; try done; [by apply (proto_ok_mem s)|by left]. }
  change (cleansession (client s1)) with (cleansession (client s)). rewrite (bk_clean _ H). cbn iota.
  step cleanSession_ok; [apply H1|]. intros rc s2 [-> H2]. run. rewrite (cd_out _ _ H2).
  rewrite bool_decide_eq_true_2 by done. run. eapply cleaned_ok; [done|by right|done].
Qed.

Lemma receive_connack_ok R p s : client_ok R [] s -> runs (receive_connack p) s (fun _ s' => client_ok R [] s').
Proof.
  intros H. unfold receive_connack. step completeConnection_ok; [done|]. intros rc s1 H1.
  destruct (rc =? MQTTASYNC_SUCCESS); [|apply next_connection_ok, H1]. run. unfold conn_details.
  destruct (bk_connect _ (proj1 H1)) as (_ & timeout & version & k & E). rewrite E. run.
  destruct (cmd_onSuccess _); [|by run]. rewrite bool_decide_eq_true_2 by done. run. by apply call_back_minor.
Qed.

Lemma filter_true {A} (P : A -> Prop) `{!forall x, Decision (P x)} (l : list A) : Forall P l -> filter P l = l.
Proof. induction 1 as [|x l Hx _ IH]; [done|]. by rewrite filter_cons_True, IH. Qed.

(** The response an acknowledgement is for is taken out. *)
Lemma take_awaited_ok R id s :
  client_ok R [id] s -> runs (take_response id) s (fun _ s' => client_ok R [] s').
Proof.
  intros H. apply take_response_ok; [by eapply client_weaken|]. intros Hc. destruct H as [Hb Hf].
  destruct (Hf Hc) as [Hid [?|Hsub]]; [by left|right]. intros Ho. apply Hsub in Ho.
  specialize (Hid id (list_elem_of_here _ _)). pose proof (bk_ids _ Hb) as Hn. pose proof (bk_responses _ Hb) as Hr.
  unfold ids, tokens, publish_tokens, other_tokens in *.
  apply NoDup_app in Hn as (_ & _ & Hn). set (l := items (responses (api s))) in *.
  assert (Hz : Forall (fun t => t <> 0) (cmd_token <$> l)).
  { eapply Forall_impl; [exact Hr|]. unfold in_range. intros. lia. }
  rewrite filter_app in Hn. apply NoDup_app in Hn as (_ & _ & Hn). rewrite (filter_true _ _ Hz) in Hn.
  clear -Hid Ho Hn. induction l as [|c l IH]; [by apply not_elem_of_nil in Ho|].
  apply NoDup_cons in Hn as [Hc Hn]. rewrite !filter_cons in *.
  assert (Hin : forall P (HP : forall c, Decision (P c)), id ∈ cmd_token <$> filter P l -> id ∈ cmd_token <$> l).
  { intros P HP Hx. apply list_elem_of_fmap in Hx as (c' & -> & Hx). apply list_elem_of_filter in Hx as [_ Hx].
    by apply list_elem_of_fmap_2. }
  destruct (decide (command_type (cmd_details c) = PUBLISH)), (decide (command_type (cmd_details c) <> PUBLISH));
    try done; cbn in Hid, Ho.
  - apply elem_of_cons in Ho as [->|?]; [by apply Hc, (Hin _ _ Hid)|by apply IH].
  - apply elem_of_cons in Hid as [->|?]; [by apply Hc, (Hin _ _ Ho)|by apply IH].
Qed.

Lemma receive_suback_ok R p s :
  client_ok R [s_msgId p] s -> runs (receive_suback p) s (fun _ s' => client_ok R [] s').
Proof.
  intros H. unfold receive_suback. step take_awaited_ok; [done|]. intros r s1 H1. run.
  apply (runs_mono _ _ (fun _ s2 => client_ok R [] s2)).
  { destruct r as [c|]; [|by run]. destruct (s_qoss p) as [|q [|q2 l]]; [by apply maybe_call| |by apply maybe_call].
    destruct (q =? MQTT_BAD_SUBSCRIBE); by apply maybe_call. }
  intros ? s2 H2. unfold MQTTProtocol_handleSubacks. run. eexists _, _. split; [by apply client_of_run|]. by run.
Qed.

Lemma receive_unsuback_ok R p s :
  client_ok R [a_msgId p] s -> runs (receive_unsuback p) s (fun _ s' => client_ok R [] s').
Proof.
  intros H. unfold receive_unsuback, MQTTProtocol_handleUnsubacks. step take_awaited_ok; [done|].
  intros r s1 H1. run. eexists _, _. split; [by apply client_of_run|]. run.
  destruct r as [c|]; [|by run]. by apply maybe_call.
Qed.

(** The second section of a turn. *)
Lemma finish_cycle_ok R sock pack rc s :
  client_ok R (left_ids pack) s -> runs (finish_cycle sock pack rc) s (fun _ s' => client_ok R [] s').
Proof.
  intros H. pose proof (client_weaken _ _ _ H) as H0. unfold finish_cycle. destruct (sock =? 0); [by run|]. run.
  destruct (socket (client s) =? sock); cbn [negb]; [|by run].
  destruct (rc =? SOCKET_ERROR).
  - destruct (connected (client s)); [by run|]. rewrite <- (with_state_same s) at 1.
    step closeOnly_ok; [apply H0|]. intros ? s2 Hc. run. by eapply closed_flows.
  - step (offer_ok R (left_ids pack)); [done|]. intros ? s2 [H2 Ho]. run. apply (runs_mono _ _ (fun _ s3 => client_ok R [] s3)).
    2: { intros ? s3 H3. by run. }
    pose proof (client_weaken _ _ _ H2) as H20. destruct pack as [[q|p|c|b|h]|]; cbn [left_ids] in H2; try (by run).
    + destruct (hd_type (a_header p) =? UNSUBACK); [by apply receive_unsuback_ok|by run].
    + by apply receive_connack_ok.
    + by apply receive_suback_ok.
Qed.

(** *** Writes that are completed *)

Lemma check_loop_ok R L fuel : forall i s,
  client_ok R L s -> (i <= length (items (pending s)))%nat -> (length (items (pending s)) < fuel + i)%nat ->
  runs (check_loop fuel i) s (fun _ s' => client_ok R L s').
Proof.
  induction fuel as [|fuel IH]; intros i s H Hi Hf; [lia|]. cbn [check_loop]. run.
  destruct (items (pending s) !! i) as [[sock p]|] eqn:Ei; [|by run]. pose proof (lookup_lt_Some _ _ _ Ei) as Hlt.
  destruct (Socket_noPendingWrites sock (nt s)) as [free n] eqn:En. run.
  assert (Hm : minor s (set_nt n s)) by (apply minor_net; intros Hn; by eapply noPendingWrites_ok).
  pose proof (client_minor _ _ H Hm) as [H1 Hf1]. destruct free; [|apply IH; cbn; [by split|lia..]].
  assert (Hp : p ∈ refs (set_nt n s)).
  { unfold refs. rewrite !elem_of_app. right. right. cbn. apply list_elem_of_fmap. exists (sock, p).
    split; [done|by eapply list_elem_of_lookup_2]. }
  destruct (proj2 (ok_dom _ (bk_proto _ H1) p) Hp) as [b Hb]. pose proof (ok_pubs _ (bk_proto _ H1) _ _ Hb) as [Hr _].
  destruct (remove_run p b (set_nt n s) Hb Hr) as (l & E & Hl); [by rewrite (ok_list _ (bk_proto _ H1))|].
  run. eexists _, _. split; [exact E|]. run. cbn [pending set_pubs set_nt].
  unfold c_unlink, c_find. cbn [cursor items mbind option_bind]. rewrite Ei, bool_decide_eq_true_2 by done.
  cbn [snd]. set (s2 := set_pending_writes _ _).
  assert (H2 : client_ok R L s2).
  { split; [|done]. eapply (base_same (set_nt n s)); [done| |done|done].
    set (r := (m_publish <$> out s) ++ (m_publish <$> inb s) ++ ((fun e : Z * nat => e.2) <$> delete i (items (pending s)))).
    apply (ok_drop (set_nt n s) _ p r); try apply H1; try done.
    unfold refs, r. cbn. rewrite (delete_Permutation (items (pending s)) i _ Ei) at 1. cbn. solve_Permutation. }
  unfold c_moved. cbn [cursor items]. rewrite bool_decide_eq_true_2 by done.
  pose proof (length_delete (items (pending s)) i ltac:(by eexists)) as Hd.
  case_bool_decide; [|by run]. apply IH; [done|cbn; lia..].
Qed.

Lemma writeComplete_ok R L sock s :
  client_ok R L s -> runs (MQTTAsync_writeComplete sock) s (fun _ s' => client_ok R L s').
Proof.
  intros H. unfold MQTTAsync_writeComplete, MQTTProtocol_checkPendingWrites. run.
  step check_loop_ok; [done|lia..|]. intros ? s1 H1. run. destruct (negb _); [by run|]. run.
  change (pending_write (api (upd_client _ s1))) with (pending_write (api s1)). rewrite (bk_write _ (proj1 H1)).
  run. by apply (client_minor s1).
Qed.

Lemma complete_writes_ok R L socks : forall s,
  client_ok R L s -> runs (complete_writes socks) s (fun _ s' => client_ok R L s').
Proof.
  induction socks as [|sock socks IH]; intros s H; cbn [complete_writes]; [by run|].
  step writeComplete_ok; [done|]. intros ? s1 H1. by apply IH.
Qed.

Lemma continue_writes_ok R L pwset s :
  client_ok R L s -> runs (continue_writes pwset) s (fun _ s' => client_ok R L s').
Proof.
  intros H. unfold continue_writes. run. destruct (continueWrites_ok pwset (nt s) (bk_net _ (proj1 H))) as (d & n & E & Hn).
  rewrite E. run. apply complete_writes_ok. by apply (client_minor s).
Qed.

