(* ===== verification/MqttClient.v ===== *)
(** * MqttClient: the client as a whole never fails

    The parts of the calls of the application keep the invariant of [MqttInv], as the sections of the
    threads do; the client in every state that the threads and the application reach together. *)

From Stdlib Require Import ZArith Lia String.
From stdpp Require Import base tactics numbers list gmap.
From S2P Require Import Prelude LinkedList Utf8 MqttPacket SockBuf MqttRead MqttProto MqttSession MqttArrive MqttEngine MqttAsync MqttRuns MqttInv MqttTurns.

(** ** The application *)

(** A C string of bytes. *)
Definition c_string (s : list Z) : Prop := nonul s /\ Forall is_byte s /\ Z.of_nat (length s) < 2 ^ 31.

Lemma valid_utf8_run s t : c_string s -> exists b, valid_utf8 s t = Ret (b, t).
Proof.
  intros (H1 & H2 & H3). unfold valid_utf8, plift.
  destruct (validateString_run s [] H1) as (b & -> & _); [|done|by exists b].
  apply Forall_app. split; [done|]. apply Forall_singleton. done.
Qed.

Lemma check_topics_run topics : forall qoss s,
  Forall c_string topics -> (length topics <= length qoss)%nat -> exists rc, check_topics topics qoss s = Ret (rc, s).
Proof.
  induction topics as [|t topics IH]; intros qoss s Ht Hl; [by eexists|].
  apply Forall_cons in Ht as [Ht Hts]. destruct qoss as [|q qoss]; [simpl in Hl; lia|]. cbn [check_topics].
  destruct (valid_utf8_run t s Ht) as (b & E). rewrite (pbind_eq _ _ _ _ _ E). destruct b; cbn [negb]; [|by eexists].
  case_match; [by eexists|]. apply IH; [done|simpl in Hl; lia].
Qed.

(** *** Identifiers *)

(** A fresh identifier is given to a call. *)
Lemma reserve L id s :
  client_ok [] L s -> in_range id -> id ∉ ids [] s -> msgID (client s) <> 0 -> client_ok [id] L s.
Proof.
  intros [[] Hf] Hr Hn Hm. split; [|done]. split; try done.
  - cbn. by apply NoDup_cons.
  - split; [simpl; lia|by apply Forall_singleton].
  - split; [apply bk_msgid|done].
Qed.

(** The call gives it back with the command. *)
Lemma release L id s : client_ok [id] L s -> client_ok [] L s /\ in_range id /\ fresh [] id s.
Proof.
  intros [[] Hf]. destruct bk_reserved as [_ Hr]. rewrite Forall_singleton in Hr.
  cbn in bk_ids. apply NoDup_cons in bk_ids as [Hn Hd]. destruct bk_msgid as [Hm H1].
  assert (Hz : msgID (client s) = 0 -> ids [] s = []).
  { intros Hz. specialize (H1 Hz). unfold ids in *. cbn in *. apply nil_length_inv. lia. }
  split; [|split; [done|by split]]. split; [|done]. split; try done.
  - split; [simpl; lia|by constructor].
  - split; [done|]. intros H0. rewrite (Hz H0). simpl. lia.
Qed.

Lemma assign_ok L s :
  client_ok [] L s ->
  runs MQTTAsync_assignMsgId s (fun id s' => (id = 0 /\ client_ok [] L s') \/ (id <> 0 /\ client_ok [id] L s')).
Proof.
  intros [H Hf]. pose proof (bk_msgid _ H) as [Hm H0].
  destruct (assignMsgId_run s Hm) as (id & l1 & l2 & E & E1 & E2 & Hfree).
  { destruct (decide (msgID (client s) = 0)) as [Hz|]; [right|left; lia]. specialize (H0 Hz).
    assert (Hfree : exists k, 1 <= k <= 2 /\ k ∉ ids [] s).
    { destruct (ids [] s) as [|x [|y l]]; [|exists (if x =? 1 then 2 else 1)|simpl in H0; lia].
      - exists 1. split; [lia|apply not_elem_of_nil].
      - split; [case_match; lia|]. intros Hx%list_elem_of_singleton. destruct (Z.eqb_spec x 1); lia. }
    destruct Hfree as (k & Hk & Hn). exists k. split; [unfold MAX_MSG_ID; lia|]. intros Hi. apply Hn, tokens_ids; [lia|done]. }
  eexists _, _. split; [exact E|]. set (s1 := assigned id l1 l2 s).
  assert (Hs : items (commands (api s1)) = items (commands (api s)) /\ items (responses (api s1)) = items (responses (api s)) /\
    msgID (client s1) = (if id =? 0 then msgID (client s) else id)).
  { unfold s1, assigned. rewrite <- E1, <- E2. by destruct (id =? 0). }
  destruct Hs as (S1 & S2 & S3).
  assert (Hids : ids [] s1 = ids [] s) by (unfold ids, tokens; by rewrite S1, S2).
  assert (Hr : id <> 0 -> in_range id /\ id ∉ tokens s).
  { intros Hz. destruct Hfree as [(? & _ & ? & _)|[-> _]]; [done|done]. }
  assert (H1 : client_ok [] L s1).
  { split.
    - destruct H. assert (Hp : proto_ok s1).
      { apply (proto_ok_mem s); [done|]. unfold s1, assigned. by destruct (id =? 0). }
      split; rewrite ?Hids, ?S1, ?S2, ?S3; try done; try (unfold s1, assigned; by destruct (id =? 0)).
      destruct (Z.eqb_spec id 0) as [|Hz]; [done|]. destruct (Hr Hz) as [Hr1 _]. unfold in_range in Hr1. split; [lia|done].
    - unfold flows_ok, other_tokens, publish_tokens in *. rewrite S1, S2. unfold s1, assigned. by destruct (id =? 0). }
  destruct (Z.eqb_spec id 0) as [->|Hz]; [by left|right]. split; [done|]. destruct (Hr Hz) as [Hr1 Hr2].
  apply reserve; [done|done| |by rewrite S3]. rewrite Hids. by intros [_ ?]%list_elem_of_filter.
Qed.

(** A command with the identifier of the call goes into the queue. *)
Lemma enqueue_ok L id f g d s :
  client_ok [id] L s -> command_ok (clock s) (Command 0 id (clock s) f g d) ->
  runs (new_command id f g d) s (fun c s1 => runs (MQTTAsync_addCommand c) s1 (fun _ s' => client_ok [] L s')).
Proof.
  intros H Hc. apply release in H as ([H Hf] & Hr & Hn). step new_command_run. intros c s1 [-> ->].
  eapply runs_mono; [apply (addCommand_ok (R := []) (L := L))|].
  - by apply base_addr.
  - done.
  - by right.
  - intros rc s' (_ & Hb & Hf' & _). split; [done|by apply Hf'].
Qed.

(** *** The calls *)

(** The options of the program: a clean session and no list of servers. *)
Definition options_ok (o : connectOptions) : Prop :=
  co_cleansession o = true /\ co_serverURIs o = [] /\
  (forall u, co_username o = Some u -> c_string u) /\ (forall p, co_password o = Some p -> c_string p).

Lemma check_options_run o s : options_ok o -> exists rc, check_options o s = Ret (rc, s).
Proof.
  intros (_ & _ & Hu & Hp). unfold check_options. case_match; [by eexists|].
  assert (Hw : exists rc, match co_will o with
    | Some w => pret (if negb (bool_decide (wo_struct_id w = str "MQTW")) || negb (wo_struct_version w =? 0)
        then MQTTASYNC_BAD_STRUCTURE else if (wo_qos w <? 0) || (2 <? wo_qos w) then MQTTASYNC_BAD_QOS else 0)
    | None => pret 0 end s = Ret (rc, s)) by (destruct (co_will o); by eexists).
  destruct Hw as (rc & E). rewrite (pbind_eq _ _ _ _ _ E). destruct (rc =? 0); cbn [negb]; [|by eexists].
  assert (Hv : forall x : option (list Z), (forall u, x = Some u -> c_string u) ->
    exists b, match x with Some u => valid_utf8 u | None => pret true end s = Ret (b, s)).
  { intros [u|] Hx; [by apply valid_utf8_run, Hx|by eexists]. }
  destruct (Hv _ Hu) as (b & Eb). rewrite (pbind_eq _ _ _ _ _ Eb). destruct b; cbn [negb]; [|by eexists].
  destruct (Hv _ Hp) as (b & Eb2). rewrite (pbind_eq _ _ _ _ _ Eb2). by eexists.
Qed.

(** The invariant but for the kind of session, which the first connection sets. *)
Definition but_clean (R L : list Z) (s : mqtt) : Prop :=
  client_ok R L (upd_client (fun c => Client (clientID c) (username c) (password c) (will c) (MqttProto.MQTTVersion c)
    (socket c) (lastSent c) (lastReceived c) true (connected c) (good c) (ping_outstanding c) (connect_state c) (msgID c)
    (keepAliveInterval c) (retryInterval c) (inboundMsgs c) (outboundMsgs c) (messageQueue c)) s).

Lemma client_but_clean R L s : client_ok R L s -> but_clean R L s.
Proof.
  intros [H Hf]. split; [|done]. destruct H. split; try done. by apply (proto_ok_mem s).
Qed.

Lemma take_options_ok R L o s :
  but_clean R L s -> options_ok o -> runs (take_options o) s (fun _ s' => client_ok R L s').
Proof.
  intros [H Hf] (Hc & _). unfold take_options. run. split; [|done]. destruct H.
  split; try done; cbn; rewrite ?Hc; try done. by eapply proto_ok_mem.
Qed.

Lemma queue_connect_ok R L o s :
  client_ok R L s -> options_ok o -> runs (queue_connect o) s (fun _ s' => client_ok R L s').
Proof.
  intros [H Hf] (_ & Hu & _). unfold queue_connect. step new_command_run. intros c s2 [-> ->].
  eapply runs_mono; [apply (addCommand_ok (R := R) (L := L))|].
  - by apply base_addr.
  - cbn. rewrite Hu. by destruct (2 <=? co_struct_version o).
  - by left.
  - intros rc' s' (_ & Hb & Hf' & _). split; [done|]. by apply Hf'.
Qed.

Lemma MQTTAsync_connect_ok o s :
  but_clean [] [] s -> options_ok o ->
  runs (MQTTAsync_connect (Some o)) s (fun rc s' => rc = 0 -> client_ok [] [] s').
Proof.
  intros H Ho. unfold MQTTAsync_connect. destruct (check_options_run o s Ho) as (rc & E).
  run. exists rc, s. split; [exact E|]. destruct (Z.eqb_spec rc 0); cbn [negb]; [|by run].
  step take_options_ok; [done..|]. intros ? s1 H1. eapply runs_mono; [by apply queue_connect_ok|]. done.
Qed.

(** The calls of the program, and the parts of each. *)
Inductive api_call : Type :=
| CallConnect (o : connectOptions)
| CallSend (topic : list Z) (payloadlen : Z) (payload : list Z) (qos retained : Z) (r : option responseOptions)
| CallSendMessage (topic : list Z) (m : option message) (r : option responseOptions)
| CallSubscribe (topics : list (list Z)) (qoss : list Z) (r : option responseOptions)
| CallUnsubscribe (topics : list (list Z)) (r : option responseOptions).

(** What is checked first; the error, or 0. *)
Definition check_call (c : api_call) : M Z :=
  match c with
  | CallConnect o => check_options o
  | CallSend topic _ _ qos _ _ => check_send topic qos
  | CallSendMessage topic m _ =>
      let rc := check_message m in
      if negb (rc =? 0) then pret rc else let* m := plift (deref m) in check_send topic (msg_qos m)
  | CallSubscribe topics qoss _ => check_many topics qoss
  | CallUnsubscribe topics _ => check_many topics (replicate (length topics) 0)
  end.

Definition needs_id (c : api_call) : bool :=
  match c with
  | CallConnect _ => false
  | CallSend _ _ _ qos _ _ => 0 <? qos
  | CallSendMessage _ m _ => match m with Some m => 0 <? msg_qos m | None => false end
  | CallSubscribe _ _ _ | CallUnsubscribe _ _ => true
  end.

(** The identifier the call gets; a connection takes its options instead. *)
Definition identify (c : api_call) : M Z :=
  match c with
  | CallConnect o => take_options o >>; pret 0
  | _ => if needs_id c then MQTTAsync_assignMsgId else pret 0
  end.

Definition refused (c : api_call) (id : Z) : bool := needs_id c && (id =? 0).

Definition queue_call (c : api_call) (id : Z) : M Z :=
  match c with
  | CallConnect o => queue_connect o
  | CallSend topic len payload qos retained r => queue_publish id topic len payload qos retained r
  | CallSendMessage topic m r =>
      let* m := plift (deref m) in
      queue_publish id topic (msg_payloadlen m) (msg_payload m) (msg_qos m) (msg_retained m) r
  | CallSubscribe topics qoss r => queue_subscribe id topics qoss r
  | CallUnsubscribe topics r => queue_unsubscribe id topics r
  end.

(** A call that nothing interrupts is the function of the library. *)
Definition whole_call (c : api_call) : M Z :=
  let* rc := check_call c in
  if negb (rc =? 0) then pret rc
  else
    let* id := identify c in
    if refused c id then pret MQTTASYNC_NO_MORE_MSGIDS else queue_call c id.

Lemma whole_call_is c s :
  whole_call c s =
    match c with
    | CallConnect o => MQTTAsync_connect (Some o)
    | CallSend topic len payload qos retained r => MQTTAsync_send topic len payload qos retained r
    | CallSendMessage topic m r => MQTTAsync_sendMessage topic m r
    | CallSubscribe topics qoss r => MQTTAsync_subscribeMany topics qoss r
    | CallUnsubscribe topics r => MQTTAsync_unsubscribeMany topics r
    end s.
Proof.
  unfold whole_call. destruct c as [o|topic len payload qos retained r|topic [m|] r|topics qoss r|topics r];
    cbn [check_call identify queue_call refused needs_id andb]; try done.
  unfold MQTTAsync_sendMessage. cbv zeta. destruct (negb (check_message (Some m) =? 0)) eqn:E; [|done].
  rewrite (pbind_eq _ _ s (check_message (Some m)) s) by done. by rewrite E.
Qed.

(** What the application passes: strings and blocks of the lengths it says; it publishes with QoS 1 or 2. *)
Definition publish_args (topic : list Z) (len : Z) (payload : list Z) (qos : Z) : Prop :=
  c_string topic /\ 0 <= len <= Z.of_nat (length payload) /\ qos <> 0.

Definition valid_call (c : api_call) : Prop :=
  match c with
  | CallConnect o => options_ok o
  | CallSend topic len payload qos _ _ => publish_args topic len payload qos
  | CallSendMessage topic m _ =>
      match m with Some m => publish_args topic (msg_payloadlen m) (msg_payload m) (msg_qos m) | None => True end
  | CallSubscribe topics qoss _ => Forall c_string topics /\ (length topics <= length qoss)%nat
  | CallUnsubscribe topics _ => Forall c_string topics
  end.

(** A call that was checked. *)
Definition publish_ready (len : Z) (payload : list Z) (qos : Z) : Prop :=
  0 <= len <= Z.of_nat (length payload) /\ (qos = 1 \/ qos = 2).

Definition ready (c : api_call) : Prop :=
  match c with
  | CallConnect o => options_ok o
  | CallSend _ len payload qos _ _ => publish_ready len payload qos
  | CallSendMessage _ m _ => exists m', m = Some m' /\ publish_ready (msg_payloadlen m') (msg_payload m') (msg_qos m')
  | CallSubscribe topics qoss _ => (length topics <= length qoss)%nat
  | CallUnsubscribe _ _ => True
  end.

Lemma check_send_run topic len payload qos s :
  publish_args topic len payload qos ->
  runs (check_send topic qos) s (fun rc s' => s' = s /\ (rc = 0 -> publish_ready len payload qos)).
Proof.
  intros (Ht & Hl & Hq). unfold check_send. run. destruct (connected (client s)); cbn [negb]; [|by run]. run.
  destruct (valid_utf8_run topic s Ht) as (b & E). exists b, s. split; [exact E|]. run. split; [done|].
  destruct b; cbn [negb]; [|done]. unfold publish_ready.
  destruct (Z.ltb_spec qos 0); cbn [orb]; [done|]. destruct (Z.ltb_spec 2 qos); [done|]. lia.
Qed.

Lemma check_many_run topics qoss s :
  Forall c_string topics -> (length topics <= length qoss)%nat -> runs (check_many topics qoss) s (fun _ s' => s' = s).
Proof.
  intros Ht Hl. unfold check_many. run. destruct (connected (client s)); cbn [negb]; [|by run].
  destruct (check_topics_run topics qoss s Ht Hl) as (rc & E). by exists rc, s.
Qed.

Lemma check_call_run c s :
  valid_call c -> runs (check_call c) s (fun rc s' => s' = s /\ (rc = 0 -> ready c)).
Proof.
  destruct c as [o|topic len payload qos retained r|topic m r|topics qoss r|topics r]; cbn [valid_call check_call ready].
  - intros Ho. destruct (check_options_run o s Ho) as (rc & E). by exists rc, s.
  - apply check_send_run.
  - intros Hm. cbv zeta. destruct m as [m|]; [|by exists MQTTASYNC_NULL_PARAMETER, s].
    destruct (Z.eqb_spec (check_message (Some m)) 0); cbn [negb]; [|by run].
    cbn [deref]. run. eapply runs_mono; [by eapply check_send_run|]. intros rc s' [-> H]. split; [done|]. intros Hz. exists m. auto.
  - intros [Ht Hl]. eapply runs_mono; [by apply check_many_run|]. done.
  - intros Ht. eapply runs_mono; [apply check_many_run; [done|by rewrite length_replicate]|]. done.
Qed.

(** The identifiers of a call between [MQTTAsync_assignMsgId] and [MQTTAsync_addCommand]. *)
Definition reserved_id (id : Z) : list Z := if id =? 0 then [] else [id].

Lemma identify_ok L c s :
  client_ok [] L s -> ready c ->
  runs (identify c) s (fun id s' => client_ok (reserved_id id) L s' /\ (id = 0 <-> (needs_id c = false \/ refused c id = true))).
Proof.
  intros H Hr. assert (Ha : needs_id c = true -> runs MQTTAsync_assignMsgId s (fun id s' =>
    client_ok (reserved_id id) L s' /\ (id = 0 <-> (needs_id c = false \/ refused c id = true)))).
  { intros Hn. eapply runs_mono; [by apply assign_ok|]. unfold refused, reserved_id. rewrite Hn.
    intros id s' [[-> H']|[Hz H']]; cbn; [split; [done|naive_solver]|].
    destruct (Z.eqb_spec id 0); [done|]. split; [done|naive_solver]. }
  destruct c as [o|topic len payload qos retained r|topic m r|topics qoss r|topics r]; cbn [identify ready] in *.
  - step take_options_ok; [by apply client_but_clean|done|]. intros ? s1 H1. run. split; [done|]. cbn. naive_solver.
  - cbn [needs_id] in *. destruct Hr as [_ Hq]. destruct (Z.ltb_spec 0 qos); [by apply Ha|lia].
  - destruct Hr as (m' & -> & _ & Hq). cbn [needs_id] in *. destruct (Z.ltb_spec 0 (msg_qos m')); [by apply Ha|lia].
  - by apply Ha.
  - by apply Ha.
Qed.

Lemma queue_publish_ok L id topic len payload qos retained r s :
  client_ok [id] L s -> publish_ready len payload qos ->
  runs (queue_publish id topic len payload qos retained r) s (fun _ s' => client_ok [] L s').
Proof.
  intros H [Hl Hq]. unfold queue_publish. destruct (Z.ltb_spec len 0); [lia|]. unfold read_bytes.
  rewrite bool_decide_eq_true_2 by lia. run. apply enqueue_ok; [done|].
  apply release in H as (_ & Hr & _). unfold command_ok. cbn. split; [done|]. split; [by eexists|].
  rewrite drop_0, length_take. split; [lia|done].
Qed.

Lemma queue_call_ok L c id s :
  client_ok (reserved_id id) L s -> ready c -> (id = 0 <-> needs_id c = false) ->
  runs (queue_call c id) s (fun _ s' => client_ok [] L s').
Proof.
  intros H Hr Hid. assert (Hn : needs_id c = true -> client_ok [id] L s).
  { intros E. unfold reserved_id in H. destruct (Z.eqb_spec id 0) as [Hz|]; [|done]. apply Hid in Hz. congruence. }
  destruct c as [o|topic len payload qos retained r|topic m r|topics qoss r|topics r]; cbn [queue_call ready needs_id] in *.
  - rewrite (proj2 Hid eq_refl) in H. by apply queue_connect_ok.
  - pose proof Hr as [_ Hq]. apply queue_publish_ok; [|done]. apply Hn, Z.ltb_lt. lia.
  - destruct Hr as (m' & -> & Hr). cbn [deref]. run. pose proof Hr as [_ Hq]. apply queue_publish_ok; [|done]. apply Hn, Z.ltb_lt. lia.
  - pose proof (release _ _ _ (Hn eq_refl)) as (_ & Hrange & _). unfold queue_subscribe.
    apply runs_bind, enqueue_ok; [by apply Hn|]. unfold command_ok. cbn. split; [done|]. rewrite length_take. lia.
  - pose proof (release _ _ _ (Hn eq_refl)) as (_ & Hrange & _). unfold queue_unsubscribe.
    apply runs_bind, enqueue_ok; [by apply Hn|done].
Qed.

(** ** The threads and the application together *)

(** Where the receive thread is: before a turn, behind [MQTTAsync_cycle] with what that returned, and, with
    the mutex released because the connection is lost, before and behind the test of [connected] in
    [MQTTAsync_disconnect1]. *)
Inductive receiver : Type :=
| RxIdle
| RxRead (sock : Z) (pack : option packet) (rc : Z)
| RxLost
| RxClosing.

(** Where the application is: in no call, behind the checks of one, or behind its identifier. *)
Inductive application : Type :=
| AppIdle
| AppChecked (c : api_call)
| AppAssigned (c : api_call) (id : Z).

Record config : Type := Config { c_state : mqtt; c_receiver : receiver; c_application : application }.

(** The sections of the threads, and the parts of the calls. *)
Inductive step : Type :=
| SendCommand
| SendTimeouts
| ReceiveWrites (pwset : list Z)
| ReceiveCycle (sock : Z)
| ReceiveFinish
| ReceiveCheck
| ReceiveClose
| CallCheck (c : api_call)
| CallIdentify
| CallQueue.

Definition within {A : Type} (m : M A) (c : config) (next : A -> receiver * application) : outcome config :=
  let! (a, s) := m (c_state c) in let (r, p) := next a in Ret (Config s r p).

(** A step of a thread that is somewhere else is none. *)
Definition perform (e : step) (c : config) : outcome config :=
  match e, c_receiver c, c_application c with
  | SendCommand, r, a => within MQTTAsync_processCommand c (fun _ => (r, a))
  | SendTimeouts, r, a => within MQTTAsync_checkTimeouts c (fun _ => (r, a))
  | ReceiveWrites pwset, RxIdle, a => within (continue_writes pwset) c (fun _ => (RxIdle, a))
  | ReceiveCycle sock, RxIdle, a => within (MQTTAsync_cycle sock) c (fun r => (RxRead sock r.1 r.2, a))
  | ReceiveFinish, RxRead sock pack rc, a =>
      within (finish_cycle sock pack rc) c (fun lost => (if lost then RxLost else RxIdle, a))
  | ReceiveCheck, RxLost, a => within the_client c (fun cl => (if connected cl then RxClosing else RxIdle, a))
  | ReceiveClose, RxClosing, a => within (queue_disconnect false true 0) c (fun _ => (RxIdle, a))
  | CallCheck call, r, AppIdle => within (check_call call) c (fun rc => (r, if rc =? 0 then AppChecked call else AppIdle))
  | CallIdentify, r, AppChecked call =>
      within (identify call) c (fun id => (r, if refused call id then AppIdle else AppAssigned call id))
  | CallQueue, r, AppAssigned call id => within (queue_call call id) c (fun _ => (r, AppIdle))
  | _, _, _ => Ret c
  end.

(** The application passes valid arguments; the server follows the protocol. *)
Definition expected (e : step) (c : config) : Prop :=
  match e with
  | CallCheck call => valid_call call
  | ReceiveCycle sock =>
      c_receiver c = RxIdle -> 0 < sock -> socket (client (c_state c)) = sock ->
      connect_state (client (c_state c)) <> 1 -> conforms sock (c_state c)
  | _ => True
  end.

(** Time passes, input arrives, and the results of the system calls to come are determined. *)
Definition environment (s s' : mqtt) : Prop :=
  exists ins wres now results errors answers, clock s <= now /\
    s' = Mqtt (client s) (pubs s) (publications s) (pending s) (msgs_received s) (msgs_sent s)
      (set_results results errors (api s)) (set_wres wres (set_in ins (nt s))) now answers (arrived s).

Inductive reachable : config -> Prop :=
| reach_create uri id delivery n now s0 o s :
    MQTTAsync_create (Some uri) (Some id) delivery n now = Ret (inr s0) -> net_ok n -> options_ok o ->
    MQTTAsync_connect (Some o) s0 = Ret (0, s) -> reachable (Config s RxIdle AppIdle)
| reach_step e c c' : reachable c -> expected e c -> perform e c = Ret c' -> reachable c'
| reach_env c s' : reachable c -> environment (c_state c) s' -> reachable (Config s' (c_receiver c) (c_application c)).

(** The identifier that is assigned and not queued; the acknowledgement that is read and not handled. *)
Definition reserved (c : config) : list Z :=
  match c_application c with AppAssigned _ id => reserved_id id | _ => [] end.
Definition unhandled (c : config) : list Z :=
  match c_receiver c with RxRead _ pack _ => left_ids pack | _ => [] end.

Record config_ok (c : config) : Prop := {
  co_client : client_ok (reserved c) (unhandled c) (c_state c);
  co_call : match c_application c with
            | AppIdle => True
            | AppChecked call => ready call
            | AppAssigned call id => ready call /\ (id = 0 <-> needs_id call = false)
            end
}.

(** A step that returns. *)
Definition goes (o : outcome config) : Prop := exists c', o = Ret c' /\ config_ok c'.

Lemma goes_within {A} (m : M A) c next (Q : A -> mqtt -> Prop) :
  runs m (c_state c) Q -> (forall a s', Q a s' -> config_ok (Config s' (next a).1 (next a).2)) -> goes (within m c next).
Proof.
  intros (a & s' & E & H) Hq. unfold within. rewrite E. cbn [obind]. specialize (Hq a s' H).
  destruct (next a) as [r p]. by eexists.
Qed.

Lemma perform_ok e c : config_ok c -> expected e c -> goes (perform e c).
Proof.
  intros [H Ha] He. destruct c as [s r a]. unfold perform, expected, reserved, unhandled in *. cbn [c_state c_receiver c_application] in *.
  assert (Hstay : goes (Ret (Config s r a))) by by eexists.
  destruct e as [| |pwset|sock| | | |call| |].
  - eapply goes_within; [by eapply processCommand_ok|]. by intros ? s' H'.
  - eapply goes_within; [by eapply checkTimeouts_ok|]. by intros ? s' H'.
  - destruct r as [|sock pack rc| |]; try done. eapply goes_within; [by eapply continue_writes_ok|]. by intros ? s' H'.
  - destruct r as [|sock' pack rc| |]; try done. eapply goes_within; [eapply cycle_ok; [done|by apply He]|]. by intros [pack rc] s' H'.
  - destruct r as [|sock pack rc| |]; try done. eapply goes_within; [by eapply finish_cycle_ok|]. intros lost s' H'. by destruct lost.
  - destruct r as [|sock pack rc| |]; try done. eapply (goes_within _ _ _ (fun _ s' => client_ok _ _ s')); [apply runs_client, H|].
    intros cl s' H'. by destruct (connected cl).
  - destruct r as [|sock pack rc| |]; try done. eapply goes_within; [eapply queue_disconnect_ok; [apply H|by apply flows_acks, H]|].
    intros ? s' (? & ? & _). by split.
  - destruct a as [|call'|call' id]; try done. eapply goes_within; [by eapply check_call_run|].
    intros rc s' [-> Hr]. destruct (Z.eqb_spec rc 0); split; try done. by apply Hr.
  - destruct a as [|call'|call' id]; try done. eapply goes_within; [by eapply identify_ok|].
    intros id s' [H' Hid]. destruct (refused call' id) eqn:E; split; cbn; try done.
    + rewrite (proj2 Hid (or_intror eq_refl)) in H'. done.
    + split; [done|naive_solver].
  - destruct a as [|call'|call' id]; try done. destruct Ha as [Hr Hid].
    eapply goes_within; [by eapply queue_call_ok|]. by intros ? s' H'.
Qed.

Lemma create_ok uri id delivery n now s :
  MQTTAsync_create (Some uri) (Some id) delivery n now = Ret (inr s) -> net_ok n -> but_clean [] [] s.
Proof.
  unfold MQTTAsync_create. intros E Hn. destruct (UTF8_validateString _) as [b| | |]; [|done..].
  cbn [obind] in E. destruct b; [|done]. cbn [negb] in E. injection E as <-. split.
  - split; try done; try apply NoDup_nil; try (by constructor); cbn; try (by left); try lia.
    + split; try done; try (by constructor). cbn. intros p. rewrite lookup_empty. split; [by intros []|].
      by intros ?%not_elem_of_nil.
    + split; [lia|by constructor].
    + split; [done|by eexists _, _, _].
    + split; [unfold MAX_MSG_ID; lia|lia].
  - intros ?. done.
Qed.

Lemma environment_ok R L s s' : client_ok R L s -> environment s s' -> client_ok R L s'.
Proof.
  intros [H Hf] (ins & wres & now & results & errors & answers & Hc & ->). split; [|done]. destruct H.
  split; try done; [by apply (proto_ok_mem s)|by eapply net_ok_same|]. cbn.
  eapply Forall_impl; [done|]. intros c. unfold command_ok. destruct (cmd_details c); try done. intuition lia.
Qed.

Lemma reachable_ok c : reachable c -> config_ok c.
Proof.
  induction 1 as [uri id delivery n now s0 o s E Hn Ho Ec|e c c' _ IH He E|c s' _ [IH Hc] He].
  - destruct (MQTTAsync_connect_ok o s0) as (rc & s1 & E1 & Hs); [by eapply create_ok|done|].
    rewrite Ec in E1. injection E1 as <- <-. split; [by apply Hs|done].
  - destruct (perform_ok e c IH He) as (c1 & E1 & Hs). rewrite E in E1. by injection E1 as <-.
  - split; [by eapply environment_ok|done].
Qed.

(** C5: the MQTT client never fails.  The client is created and connects, with a clean session and no list
    of servers; the application subscribes and publishes with QoS 1 and 2, one call at a time, and does
    not disconnect.  A step is a section of the send or of the receive thread that holds
    [mqttasync_mutex], or a part of a call between the places where it takes a mutex, in any order; so
    the receive thread may hold a packet it has read while the send thread closes the connection or
    opens the next, and a call may have its identifier while the session is cleaned.  The socket accepts
    any part of what is written, input arrives in any pieces, connections fail and are lost at any time,
    and the server sends packets of the protocol that answer what the client sent.  Then in every
    reachable state each further step returns, without touching freed memory or memory outside a block,
    and: no two commands waiting or sent have the same identifier, which the call that is under way has
    not got either; no two messages in flight have the same one; and a message in flight on a connection
    belongs to a publication that waits for its response, unless the session is about to be closed. *)
Theorem client_never_fails (c : config) :
  reachable c ->
  (forall e, expected e c -> exists c', perform e c = Ret c') /\
  NoDup (reserved c ++ filter (fun t => t <> 0) (tokens (c_state c))) /\ NoDup (m_msgid <$> out (c_state c)) /\
  (connected (client (c_state c)) = true ->
     doomed (items (commands (api (c_state c)))) \/ m_msgid <$> out (c_state c) ⊆ publish_tokens (c_state c)).
Proof.
  intros H. apply reachable_ok in H. pose proof (co_client _ H) as [Hb Hf]. split; [|split_and!].
  - intros e He. destruct (perform_ok e c H He) as (c' & E & _). by exists c'.
  - apply Hb.
  - apply (bk_proto _ Hb).
  - intros Hc. by apply Hf.
Qed.

(** ** A run: connect, publish with QoS 1 while the packet of another turn is read, lose the connection *)

Definition example_options : connectOptions :=
  ConnectOptions (str "MQTC") 3 30 true (Some (WillOptions (str "MQTW") 0 (str "/status") (str "offline") 1 2))
    None None 30 0 true true [] 0.

Definition after (e : step) (c : config) : config := match perform e c with Ret c' => c' | _ => c end.
Definition run_steps (l : list step) (c : config) : config := foldl (fun c e => after e c) c l.

Lemma reach_after e c : reachable c -> expected e c -> reachable (after e c).
Proof.
  intros H He. destruct (perform_ok e c (reachable_ok c H) He) as (c' & E & _).
  apply (reach_step e c); [done|done|]. unfold after. by rewrite E.
Qed.

(** Input on the socket, and the socket of the next connection. *)
Definition receives (l : list recvd) (c : config) : config :=
  let s := c_state c in
  Config (Mqtt (client s) (pubs s) (publications s) (pending s) (msgs_received s) (msgs_sent s)
    (set_results [(0, 5)] [] (api s)) (set_wres [] (set_in {[5 := l]} (nt s))) (clock s + 1000) [] (arrived s))
    (c_receiver c) (c_application c).

Lemma reach_receives l c : reachable c -> reachable (receives l c).
Proof.
  intros H. apply (reach_env c); [done|]. eexists {[5 := l]}, [], (clock (c_state c) + 1000), _, _, _.
  split; [lia|reflexivity].
Qed.

Definition example_created : mqtt :=
  match MQTTAsync_create (Some (str "tcp://localhost:1883")) (Some (str "bob")) false
    (Net SocketBuffer_newDefQ [] [] [] None ∅ [] []) 0 with Ret (inr s) => s | _ => example_state end.
Definition example_connecting : config :=
  match MQTTAsync_connect (Some example_options) example_created with
  | Ret (_, s) => Config s RxIdle AppIdle
  | _ => Config example_created RxIdle AppIdle
  end.

(** CONNECT is sent and CONNACK is read. *)
Definition example_acknowledged : config := receives [RData 0x20 [2; 0; 0]] (after SendCommand (receives [] example_connecting)).
Definition example_connected : config := after ReceiveFinish (after (ReceiveCycle 5) example_acknowledged).

Definition example_message : message := Msg (str "MQTM") 0 2 (str "hi") 1 0.
Definition example_call : api_call := CallSendMessage (str "/sms") (Some example_message) (Some (ResponseOptions true false)).

(** The send thread runs between the parts of the call; the PUBACK is read in two turns. *)
Definition example_publishing : config :=
  run_steps [CallCheck example_call; SendCommand; CallIdentify; ReceiveCycle 0; SendTimeouts; CallQueue; SendCommand; ReceiveFinish]
    example_connected.
Definition example_partly : config := run_steps [ReceiveCycle 5; ReceiveFinish] (receives [RData 0x40 [2]] example_publishing).
Definition example_acked : config := run_steps [ReceiveCycle 5; ReceiveFinish] (receives [RData 0 [1]] example_partly).

(** The connection is lost: the request to disconnect is queued outside the sections. *)
Definition example_lost : config :=
  run_steps [ReceiveCycle 5; ReceiveFinish; SendTimeouts; ReceiveCheck; ReceiveClose; SendCommand] (receives [RClosed] example_acked).

(** The packets sent: CONNECT, the PUBLISH with identifier 1, DISCONNECT; and the callbacks. *)
Example example_wire :
  (snd <$> drop 1 (n_out (nt (c_state example_lost)))) =
    [[0x32; 10; 0; 4; 47; 115; 109; 115; 0; 1; 104; 105]; [0xE0; 0]].
Proof. vm_compute. reflexivity. Qed.

Example example_calls :
  calls (api (c_state example_lost)) =
    [CConnected (str "localhost:1883") 4 0; CSent 1 None (str "hi") 1 0; CConnectionLost].
Proof. vm_compute. reflexivity. Qed.

Lemma example_arriving : arriving 5 0x20 (body_of 0x20 (FsConnack 0 0)) (nt (c_state example_acknowledged)).
Proof.
  apply (arriving_start 5 _ _ _ [RData 0x20 [2; 0; 0]] [] [] []); [|vm_compute; reflexivity|done|by repeat constructor|vm_compute; reflexivity].
  right. split; [vm_compute; by repeat constructor|]. split; [done|]. split; [done|]. left. split; [done|].
  split; [vm_compute; reflexivity|]. split; [vm_compute; reflexivity|].
  split; [vm_compute; reflexivity|]. split; vm_compute; discriminate.
Qed.

Lemma example_client_reachable : reachable example_connected.
Proof.
  assert (Hconn : reachable example_connecting).
  { apply (reach_create (str "tcp://localhost:1883") (str "bob") false (Net SocketBuffer_newDefQ [] [] [] None ∅ [] []) 0
      example_created example_options); [vm_compute; reflexivity| | |vm_compute; reflexivity].
    - split; [constructor|intros x Hx; by apply not_elem_of_nil in Hx|done].
    - by split_and!. }
  apply reach_after; [apply reach_after; [apply reach_receives, reach_after; [apply reach_receives, Hconn|done]|]|done].
  intros _ _ _ _. exists 0x20, (FsConnack 0 0). split; [by vm_compute|]. split; [apply example_arriving|done].
Qed.

Lemma client_never_fails_witness :
  expected (CallCheck example_call) example_connected /\
  (exists c', perform (CallCheck example_call) example_connected = Ret c') /\
  NoDup (reserved example_connected ++ filter (fun t => t <> 0) (tokens (c_state example_connected))) /\
  NoDup (m_msgid <$> out (c_state example_connected)) /\ connected (client (c_state example_connected)) = true.
Proof.
  assert (Hv : expected (CallCheck example_call) example_connected).
  { split; [split; [|split]|split; [|discriminate]].
    - repeat apply Forall_cons_2; try apply Forall_nil_2; discriminate.
    - vm_compute (str "/sms"). repeat apply Forall_cons_2; try apply Forall_nil_2; unfold is_byte; lia.
    - vm_compute. reflexivity.
    - vm_compute. split; discriminate. }
  destruct (client_never_fails example_connected example_client_reachable) as (Hrun & H1 & H2 & _).
  split; [exact Hv|]. split; [exact (Hrun _ Hv)|]. split; [exact H1|]. split; [exact H2|vm_compute; reflexivity].
Defined.
