(* ===== verification/MqttLink.v ===== *)
(** * MqttLink: a QoS 2 exchange over a connection that may be lost

    What is under way between a client that publishes with QoS 2 and a client that receives: the
    messages at the two ends, by how far each has come, and the packets on the wire.  [linked] is the
    invariant; each packet that is sent, received or lost keeps it. *)

From Stdlib Require Import ZArith Lia.
From stdpp Require Import base tactics numbers list gmap.
From S2P Require Import Prelude MqttProto.

(** ** Sequences *)

(** The first occurrences in [T] of the elements of [W] are all of them, in the order of [W]. *)
Fixpoint leads (T W : list Z) : Prop :=
  match T, W with
  | [], _ => W = []
  | _ :: _, [] => True
  | x :: T', w :: W' => if decide (x = w) then leads T' W' else x ∉ W' /\ leads T' W
  end.

Lemma leads_nil T : leads T [].
Proof. by destruct T. Qed.

Lemma leads_app T T' W : leads T W -> leads (T ++ T') W.
Proof.
  revert W. induction T as [|x T IH]; intros [|w W]; simpl; try done; [by intros _; apply leads_nil|].
  case_decide; [apply IH|]. intros [? ?]. split; [done|]. by apply (IH (w :: W)).
Qed.

Lemma leads_snoc T W x : leads T W -> x ∉ T -> x ∉ W -> leads (T ++ [x]) (W ++ [x]).
Proof.
  revert W. induction T as [|y T IH]; intros W; simpl; intros H Ht Hw.
  - subst W. simpl. by rewrite decide_True.
  - apply not_elem_of_cons in Ht as [Hne Ht]. destruct W as [|w W]; simpl.
    + rewrite decide_False by done. split; [by apply not_elem_of_nil|]. apply (IH []); [apply leads_nil|done..].
    + apply not_elem_of_cons in Hw as [Hne' Hw]. case_decide; [by apply IH|]. destruct H as [Hy H].
      split; [|apply (IH (w :: W)); [done..|by apply not_elem_of_cons]].
      rewrite not_elem_of_app, list_elem_of_singleton. by split.
Qed.

Lemma leads_refl W : leads W W.
Proof. induction W; simpl; [done|]. by rewrite decide_True. Qed.

Lemma leads_skip x T W : x ∉ W -> leads (x :: T) W <-> leads T W.
Proof.
  destruct W as [|w W]; [intros _; split; intros _; apply leads_nil|]. intros [? ?]%not_elem_of_cons. simpl.
  rewrite decide_False by done. tauto.
Qed.

Lemma leads_skips S T W : (forall x, x ∈ S -> x ∉ W) -> leads T W -> leads (S ++ T) W.
Proof.
  intros HS H. induction S as [|x S IH]; [done|]. cbn [app]. apply leads_skip; [apply HS, list_elem_of_here|].
  apply IH. intros y Hy. apply HS. by apply list_elem_of_further.
Qed.

Lemma leads_take x T W : leads (x :: T) W -> x ∈ W -> exists W', W = x :: W' /\ leads T W'.
Proof.
  destruct W as [|w W]; [by intros _ ?%not_elem_of_nil|]. simpl. case_decide as E; [subst; intros H _; by exists W|].
  intros [? _] [?|?]%elem_of_cons; done.
Qed.

(** An element behind others is the first of its part. *)
Lemma leads_behind S x T K N :
  leads (S ++ x :: T) (K ++ N) -> (forall y, y ∈ S -> y ∉ N) -> x ∈ N -> x ∉ K -> exists N', N = x :: N'.
Proof.
  revert K. induction S as [|y S IH]; intros K H HS Hx Hk; cbn [app] in H.
  - apply leads_take in H as (W & E & _); [|apply elem_of_app; by right].
    destruct K as [|k K]; [by exists W|]. injection E as -> _. by apply not_elem_of_cons in Hk as [].
  - assert (HS' : forall z, z ∈ S -> z ∉ N) by (intros z Hz; apply HS; by apply list_elem_of_further).
    destruct (decide (y ∈ K ++ N)) as [Hy|Hy]; [|apply leads_skip in H; [|done]; by eapply IH].
    assert (HyN : y ∉ N) by apply HS, list_elem_of_here. apply leads_take in H as (W & E & H); [|done].
    destruct K as [|k K]; [simpl in E; rewrite E in HyN; by apply not_elem_of_cons in HyN as []|].
    injection E as -> <-. apply not_elem_of_cons in Hk as [_ Hk]. by eapply IH.
Qed.

(** No [q] comes after a [p]. *)
Fixpoint never_after {A} (p q : A -> Prop) (l : list A) : Prop :=
  match l with [] => True | x :: l' => (p x -> forall y, y ∈ l' -> ~ q y) /\ never_after p q l' end.

Lemma never_after_app {A} (p q : A -> Prop) l k :
  never_after p q (l ++ k) <-> never_after p q l /\ never_after p q k /\ (forall x y, x ∈ l -> y ∈ k -> p x -> ~ q y).
Proof. induction l as [|z l IH]; simpl; [set_solver|]. rewrite IH. set_solver. Qed.

Lemma never_after_no {A} (p q : A -> Prop) l : (forall x, x ∈ l -> ~ p x) -> never_after p q l.
Proof. induction l; simpl; set_solver. Qed.

Lemma never_after_none {A} (p q : A -> Prop) l : (forall x, x ∈ l -> ~ q x) -> never_after p q l.
Proof. induction l; simpl; set_solver. Qed.

Lemma never_after_snoc {A} (p q : A -> Prop) l y :
  never_after p q (l ++ [y]) <-> never_after p q l /\ (q y -> forall x, x ∈ l -> ~ p x).
Proof. rewrite never_after_app. simpl. set_solver. Qed.

Lemma omap_snoc {A B} (f : A -> option B) l x : omap f (l ++ [x]) = omap f l ++ from_option (fun y => [y]) [] (f x).
Proof. rewrite omap_app. simpl. by destruct (f x). Qed.

(** ** The packets and the messages under way *)

(** From the sender: a PUBLISH, a PUBREL; from the receiver: a PUBREC, a PUBCOMP. *)
Inductive down : Type := Data (m : app_message) | Release (id : Z).
Inductive up : Type := Received (id : Z) | Complete (id : Z).

#[export] Instance app_message_eq_dec : EqDecision app_message.
Proof. solve_decision. Defined.

Notation ids l := (am_msgid <$> l).

Definition data_id (x : down) : option Z := match x with Data m => Some (am_msgid m) | Release _ => None end.
Definition release_id (x : down) : option Z := match x with Data _ => None | Release i => Some i end.
Definition received_id (x : up) : option Z := match x with Received i => Some i | Complete _ => None end.
Definition complete_id (x : up) : option Z := match x with Received _ => None | Complete i => Some i end.

(** What the sender sends again: for a message that is released, and for one that is not. *)
Definition again (G H K N : list app_message) : list down :=
  ((fun m => Release (am_msgid m)) <$> G ++ H) ++ (Data <$> K ++ N).

(** The messages in flight at the sender, in the order they were sent: [G] were passed on and wait for
    their PUBCOMP, [H] are released and still held by the receiver, [K] are held and not released, [N]
    have not arrived; the packets on the wire in both directions. *)
Record linked (G H K N : list app_message) (d : list down) (u : list up) : Prop := {
  lk_ids : NoDup (ids (G ++ H ++ K ++ N));
  lk_received : leads (omap received_id u ++ omap data_id d) (ids K ++ ids N);
  lk_releases : leads (omap release_id d) (ids H);
  lk_data : forall m, Data m ∈ d -> m ∈ H ++ K ++ N;
  lk_up : forall i, Received i ∈ u -> i ∈ ids (G ++ H ++ K);
  lk_complete : forall i, Complete i ∈ u -> i ∈ ids G;
  lk_once : NoDup (omap complete_id u);
  lk_last : forall i, never_after (fun x => x = Complete i) (fun x => x = Received i) u;
  lk_held : forall i, i ∈ ids K -> Release i ∉ d;
  lk_released : forall i, i ∈ ids H -> never_after (fun x => x = Release i) (fun x => data_id x = Some i) d;
  lk_coming : forall i, i ∈ ids N -> never_after (fun x => data_id x = Some i) (fun x => x = Release i) d
}.

(** Nothing is under way. *)
Lemma linked_empty : linked [] [] [] [] [] [].
Proof. split; try done; try (by constructor); set_solver. Qed.

(** When nothing is on the wire, everything was passed on. *)
Lemma linked_idle G H K N : linked G H K N [] [] -> H = [] /\ K = [] /\ N = [].
Proof.
  intros []. simpl in *. apply fmap_nil_inv in lk_releases0. apply app_eq_nil in lk_received0 as [E1 E2].
  by apply fmap_nil_inv in E1, E2.
Qed.

Section Steps.
Context {G H K N : list app_message} {d : list down} {u : list up}.

(** The parts share no identifier. *)
Lemma parts_disjoint :
  NoDup (ids (G ++ H ++ K ++ N)) ->
  NoDup (ids (H ++ K ++ N)) /\ (forall i, i ∈ ids G -> i ∉ ids (H ++ K ++ N)) /\
  (forall i, i ∈ ids H -> i ∉ ids K /\ i ∉ ids N) /\ (forall i, i ∈ ids K -> i ∉ ids N).
Proof.
  rewrite !fmap_app. intros (_ & HG & Hrest)%NoDup_app. split; [done|]. split; [done|].
  apply NoDup_app in Hrest as (_ & HH & Hrest). apply NoDup_app in Hrest as (_ & HK & _).
  split; [|done]. intros i Hi. specialize (HH i Hi). set_solver.
Qed.

(** A message is published, with an identifier that is not in use. *)
Lemma linked_publish m :
  linked G H K N d u -> am_msgid m ∉ ids (G ++ H ++ K ++ N) -> linked G H K (N ++ [m]) (d ++ [Data m]) u.
Proof.
  intros L Hm. pose proof L as []. rewrite !fmap_app in Hm.
  assert (Hd : forall m', Data m' ∈ d -> am_msgid m' <> am_msgid m).
  { intros m' Hd E. apply Hm. rewrite <- E. apply lk_data0 in Hd. set_solver. }
  split; try done.
  - rewrite !app_assoc, fmap_app, <- !app_assoc. apply NoDup_app. split; [done|]. split; [|apply NoDup_singleton].
    rewrite !fmap_app. set_solver.
  - rewrite fmap_app, omap_app, !app_assoc. apply leads_snoc; [done| |set_solver].
    rewrite not_elem_of_app, !list_elem_of_omap. split.
    + intros ([i|i] & Hi & E); [|done]. injection E as ->. apply lk_up0 in Hi. rewrite !fmap_app in Hi. set_solver.
    + intros ([m'|i] & Hi & E); [|done]. injection E as E. by apply (Hd m').
  - rewrite omap_app. by apply leads_app.
  - set_solver.
  - intros i Hi. specialize (lk_held0 i Hi). set_solver.
  - intros i Hi. apply never_after_app. split; [by apply lk_released0|]. split; [simpl; set_solver|].
    intros x y _ ->%list_elem_of_singleton ->. cbn. intros E. injection E as E. set_solver.
  - intros i Hi. apply never_after_app. rewrite fmap_app, elem_of_app in Hi. split; [|split; [simpl; set_solver|set_solver]].
    destruct Hi as [Hi|Hi]; [by apply lk_coming0|]. apply list_elem_of_singleton in Hi as ->.
    apply never_after_no. intros [m'|j] Hx E; [|done]. injection E as E. by apply (Hd m').
Qed.

Lemma id_inj (l : list app_message) m m' : NoDup (ids l) -> m ∈ l -> m' ∈ l -> am_msgid m = am_msgid m' -> m = m'.
Proof.
  intros Hn [i Hi]%list_elem_of_lookup [j Hj]%list_elem_of_lookup E.
  assert (i = j) as ->; [|congruence]. eapply (NoDup_lookup (ids l)); [done|..]; rewrite list_lookup_fmap.
  - by rewrite Hi.
  - by rewrite Hj, E.
Qed.

(** A PUBREC goes up for a message that was not completed. *)
Lemma last_received i j (v : list up) :
  (forall k, Complete k ∈ v -> k ∈ ids G) -> j ∉ ids G -> never_after (fun x => x = Complete i) (fun x => x = Received i) v ->
  never_after (fun x => x = Complete i) (fun x => x = Received i) (v ++ [Received j]).
Proof. intros Hc Hj Hv. apply never_after_snoc. split; [done|]. intros [= ->] x Hx ->. by apply Hj, Hc. Qed.

(** A PUBLISH arrives that was not received before. *)
Lemma linked_data_new m :
  linked G H K N (Data m :: d) u -> m ∈ N ->
  exists N', N = m :: N' /\ linked G H (K ++ [m]) N' d (u ++ [Received (am_msgid m)]).
Proof.
  intros L Hm. pose proof L as []. destruct (parts_disjoint lk_ids0) as (Hn & HG & HH & HK).
  assert (Hid : am_msgid m ∈ ids N) by by apply list_elem_of_fmap_2.
  destruct (leads_behind (omap received_id u) (am_msgid m) (omap data_id d) (ids K) (ids N)) as [N1 EN]; try done.
  { intros i ([j|j] & Hj & E)%list_elem_of_omap Hi; [|done]. injection E as ->. apply lk_up0 in Hj.
    rewrite !fmap_app in *. set_solver. }
  { intros Hk. by apply (HK _ Hk). }
  rewrite !fmap_app in Hn. apply NoDup_app in Hn as (_ & _ & (_ & _ & Hn)%NoDup_app).
  destruct N as [|m' N']; [done|]. cbn in EN. injection EN as E _.
  apply id_inj with (l := m' :: N') in E as ->; [|done|apply list_elem_of_here|done]. exists N'. split; [done|].
  cbn in Hn. apply NoDup_cons in Hn as [Hnew Hn].
  assert (HmG : am_msgid m ∉ ids G) by (intros Hi; apply (HG _ Hi); rewrite !fmap_app; set_solver).
  split; try done.
  - by rewrite <- (app_assoc K).
  - rewrite omap_snoc, fmap_app. cbn [from_option received_id app]. rewrite <- !(app_assoc _ [am_msgid m]). exact lk_received0.
  - intros m' Hd. specialize (lk_data0 m' ltac:(by apply list_elem_of_further)). set_solver.
  - intros i. rewrite !fmap_app. rewrite elem_of_app, list_elem_of_singleton. intros [Hi|[= ->]]; [|set_solver].
    specialize (lk_up0 i Hi). rewrite !fmap_app in lk_up0. set_solver.
  - intros i. rewrite elem_of_app, list_elem_of_singleton. intros [Hi|?]; [|done]. by apply lk_complete0.
  - rewrite omap_snoc. cbn. by rewrite app_nil_r.
  - intros i. by apply last_received.
  - intros i. rewrite fmap_app, elem_of_app. intros [Hi|Hi].
    + specialize (lk_held0 i Hi). set_solver.
    + apply list_elem_of_singleton in Hi as ->. intros Hr. destruct (lk_coming0 (am_msgid m) Hid) as [Hc _].
      by apply (Hc eq_refl _ Hr).
  - intros i Hi. apply (lk_released0 i Hi).
  - intros i Hi. apply (lk_coming0 i). by apply list_elem_of_further.
Qed.

(** A PUBLISH arrives again. *)
Lemma linked_data_again m :
  linked G H K N (Data m :: d) u -> m ∈ H ++ K -> linked G H K N d (u ++ [Received (am_msgid m)]).
Proof.
  intros L Hm. pose proof L as []. destruct (parts_disjoint lk_ids0) as (Hn & HG & HH & HK).
  assert (Hid : am_msgid m ∈ ids (H ++ K)) by by apply list_elem_of_fmap_2. rewrite fmap_app in Hid.
  assert (HmG : am_msgid m ∉ ids G) by (intros Hi; apply (HG _ Hi); rewrite !fmap_app; set_solver).
  split; try done.
  - rewrite omap_snoc. cbn [from_option received_id app]. rewrite <- !(app_assoc _ [am_msgid m]). exact lk_received0.
  - intros m' Hd. apply lk_data0. by apply list_elem_of_further.
  - intros i. rewrite !fmap_app. rewrite elem_of_app, list_elem_of_singleton. intros [Hi|[= ->]]; [|set_solver].
    specialize (lk_up0 i Hi). rewrite !fmap_app in lk_up0. set_solver.
  - intros i. rewrite elem_of_app, list_elem_of_singleton. intros [Hi|?]; [|done]. by apply lk_complete0.
  - rewrite omap_snoc. cbn. by rewrite app_nil_r.
  - intros i. by apply last_received.
  - intros i Hi Hr. apply (lk_held0 i Hi). by apply list_elem_of_further.
  - intros i Hi. apply (lk_released0 i Hi).
  - intros i Hi. apply (lk_coming0 i Hi).
Qed.

(** A PUBREL arrives for a message that is held: it is the next one, and it is passed on. *)
Lemma linked_release m :
  linked G H K N (Release (am_msgid m) :: d) u -> m ∈ H ++ K ->
  exists H', H = m :: H' /\ linked (G ++ [m]) H' K N d (u ++ [Complete (am_msgid m)]).
Proof.
  intros L Hm. pose proof L as []. destruct (parts_disjoint lk_ids0) as (Hn & HG & HH & HK).
  apply elem_of_app in Hm as [Hm|Hm].
  2: { exfalso. apply (lk_held0 (am_msgid m)); [by apply list_elem_of_fmap_2|apply list_elem_of_here]. }
  assert (Hid : am_msgid m ∈ ids H) by by apply list_elem_of_fmap_2. cbn [omap list_omap release_id] in lk_releases0.
  destruct (leads_take _ _ _ lk_releases0 Hid) as (W & EW & Hl).
  rewrite !fmap_app in Hn. apply NoDup_app in Hn as (Hn & _).
  destruct H as [|m' H']; [done|]. cbn in EW. injection EW as E EH.
  apply id_inj with (l := m' :: H') in E as ->; [|done|apply list_elem_of_here|done]. exists H'. split; [done|].
  cbn in Hn. apply NoDup_cons in Hn as [Hnew Hn]. rewrite <- EH in Hl.
  assert (HmG : am_msgid m ∉ ids G) by (intros Hi; apply (HG _ Hi); rewrite !fmap_app; set_solver).
  destruct (HH _ Hid) as [HmK HmN].
  assert (Hgone : forall m', Data m' ∈ d -> am_msgid m' <> am_msgid m).
  { intros m' Hd E. destruct (lk_released0 (am_msgid m) Hid) as [Hc _]. apply (Hc eq_refl _ Hd). cbn. by rewrite E. }
  split; try done.
  - by rewrite <- (app_assoc G).
  - rewrite omap_snoc. cbn [from_option received_id]. by rewrite app_nil_r.
  - intros m' Hd. specialize (lk_data0 m' ltac:(by apply list_elem_of_further)). specialize (Hgone m' Hd).
    rewrite elem_of_app, elem_of_cons in lk_data0. rewrite elem_of_app. naive_solver.
  - intros i Hi. rewrite elem_of_app, list_elem_of_singleton in Hi. destruct Hi as [Hi|?]; [|done].
    specialize (lk_up0 i Hi). rewrite !fmap_app in *. set_solver.
  - intros i. rewrite fmap_app, elem_of_app, list_elem_of_singleton. intros [Hi|[= ->]]; [|set_solver].
    specialize (lk_complete0 i Hi). set_solver.
  - rewrite omap_snoc. cbn. apply NoDup_app. split; [done|]. split; [|apply NoDup_singleton].
    intros i ([j|j] & Hj & [= ->])%list_elem_of_omap ->%list_elem_of_singleton. by apply HmG, lk_complete0.
  - intros i. apply never_after_snoc. split; [done|]. done.
  - intros i Hi Hr. apply (lk_held0 i Hi). by apply list_elem_of_further.
  - intros i Hi. apply (lk_released0 i). by apply list_elem_of_further.
  - intros i Hi. apply (lk_coming0 i Hi).
Qed.

(** A PUBREL arrives for a message that was passed on. *)
Lemma linked_release_again i :
  linked G H K N (Release i :: d) u -> i ∉ ids (H ++ K) -> linked G H K N d u.
Proof.
  intros L Hi. destruct L. rewrite fmap_app in Hi. split; try done.
  - cbn [omap list_omap release_id] in lk_releases0. apply leads_skip in lk_releases0; [done|set_solver].
  - intros m Hm. apply lk_data0. by apply list_elem_of_further.
  - intros j Hj Hr. apply (lk_held0 j Hj). by apply list_elem_of_further.
  - intros j Hj. apply (lk_released0 j Hj).
  - intros j Hj. apply (lk_coming0 j Hj).
Qed.

(** A PUBREC arrives for a message that is not released: it is the next one, and it is released. *)
Lemma linked_received m :
  linked G H K N d (Received (am_msgid m) :: u) -> m ∈ K ++ N ->
  exists K', K = m :: K' /\ linked G (H ++ [m]) K' N (d ++ [Release (am_msgid m)]) u.
Proof.
  intros L Hm. pose proof L as []. destruct (parts_disjoint lk_ids0) as (Hn & HG & HH & HK).
  assert (Hup : am_msgid m ∈ ids (G ++ H ++ K)) by apply lk_up0, list_elem_of_here. rewrite !fmap_app in Hup.
  apply elem_of_app in Hm as [Hm|Hm]; apply (list_elem_of_fmap_2 am_msgid) in Hm as Hid.
  2: { exfalso. destruct (HH (am_msgid m)); [|done]. specialize (HG (am_msgid m)). rewrite !fmap_app in HG. set_solver. }
  cbn [omap list_omap received_id app] in lk_received0. cbn [omap list_omap complete_id] in lk_once0.
  destruct (leads_take _ _ _ lk_received0 ltac:(set_solver)) as (W & EW & Hl).
  rewrite !fmap_app in Hn. apply NoDup_app in Hn as (_ & _ & (Hn & _)%NoDup_app).
  destruct K as [|m' K']; [by apply not_elem_of_nil in Hm|]. cbn in EW. injection EW as E EK.
  apply id_inj with (l := m' :: K') in E as ->; [|done|apply list_elem_of_here|done]. exists K'. split; [done|].
  cbn in Hn. apply NoDup_cons in Hn as [Hnew Hn]. rewrite <- EK in Hl.
  assert (HmH : am_msgid m ∉ ids H) by (intros Hi; by destruct (HH _ Hi)). pose proof (HK _ Hid) as HmN.
  assert (Hno : forall x, x ∈ d -> x <> Release (am_msgid m)) by (intros x Hx ->; by apply (lk_held0 (am_msgid m))).
  split; try done.
  - by rewrite <- (app_assoc H).
  - rewrite omap_snoc. cbn [from_option data_id]. by rewrite app_nil_r.
  - rewrite omap_snoc, fmap_app. cbn. apply leads_snoc; [done| |done].
    intros ([m'|j] & Hj & [= ->])%list_elem_of_omap. by apply (Hno _ Hj).
  - intros m'. rewrite elem_of_app, list_elem_of_singleton. intros [Hd|?]; [|done]. specialize (lk_data0 m' Hd). set_solver.
  - intros i Hi. specialize (lk_up0 i ltac:(by apply list_elem_of_further)). rewrite !fmap_app in *. set_solver.
  - intros i Hi. apply lk_complete0. by apply list_elem_of_further.
  - intros i. apply (lk_last0 i).
  - intros i Hi. rewrite elem_of_app, list_elem_of_singleton. intros [Hr|[= ->]]; [|done].
    apply (lk_held0 i); [by apply list_elem_of_further|done].
  - intros i. rewrite fmap_app, elem_of_app. intros Hi. apply never_after_snoc. split; [|done].
    destruct Hi as [Hi|Hi]; [by apply lk_released0|]. apply list_elem_of_singleton in Hi as ->. by apply never_after_no.
  - intros i Hi. apply never_after_snoc. split; [by apply lk_coming0|]. intros [= <-]. done.
Qed.

(** A PUBREC arrives for a message that is released. *)
Lemma linked_received_again i :
  linked G H K N d (Received i :: u) -> i ∉ ids (K ++ N) -> linked G H K N d u.
Proof.
  intros L Hi. destruct L. rewrite fmap_app in Hi. split; try done.
  - cbn [omap list_omap received_id app] in lk_received0. by apply leads_skip in lk_received0.
  - intros j Hj. apply lk_up0. by apply list_elem_of_further.
  - intros j Hj. apply lk_complete0. by apply list_elem_of_further.
  - intros j. apply (lk_last0 j).
Qed.

(** A PUBCOMP arrives: the message is finished. *)
Lemma linked_complete i :
  linked G H K N d (Complete i :: u) ->
  exists G1 m G2, G = G1 ++ m :: G2 /\ am_msgid m = i /\ linked (G1 ++ G2) H K N d u.
Proof.
  intros L. pose proof L as []. assert (Hi : i ∈ ids G) by apply lk_complete0, list_elem_of_here.
  apply list_elem_of_fmap in Hi as (m & -> & Hm). apply list_elem_of_split in Hm as (G1 & G2 & ->).
  exists G1, m, G2. split; [done|]. split; [done|].
  assert (Hn : NoDup (am_msgid m :: ids ((G1 ++ G2) ++ H ++ K ++ N))).
  { assert (E : (G1 ++ m :: G2) ++ H ++ K ++ N ≡ₚ m :: (G1 ++ G2) ++ H ++ K ++ N) by (by rewrite <- Permutation_middle).
    by rewrite E in lk_ids0. }
  apply NoDup_cons in Hn as [Hnew Hn]. cbn [omap list_omap complete_id] in lk_once0. apply NoDup_cons in lk_once0 as [Hone Honce].
  split; try done.
  - intros j Hj. specialize (lk_up0 j ltac:(by apply list_elem_of_further)). destruct (lk_last0 (am_msgid m)) as [Hl _].
    assert (j <> am_msgid m) by (intros ->; by apply (Hl eq_refl _ Hj)). rewrite !fmap_app, fmap_cons in lk_up0.
    rewrite !fmap_app. set_solver.
  - intros j Hj. specialize (lk_complete0 j ltac:(by apply list_elem_of_further)).
    assert (j <> am_msgid m). { intros ->. apply Hone, list_elem_of_omap. by exists (Complete (am_msgid m)). }
    rewrite fmap_app, fmap_cons in lk_complete0. rewrite fmap_app. set_solver.
  - intros j. apply (lk_last0 j).
Qed.

(** Packets are sent again on the same connection. *)
Lemma linked_again l :
  linked G H K N d u -> (forall x, x ∈ l -> x ∈ again G H K N) -> linked G H K N (d ++ l) u.
Proof.
  intros L Hl. pose proof L as []. destruct (parts_disjoint lk_ids0) as (Hn & HG & HH & HK).
  assert (Hdata : forall m, Data m ∈ l -> m ∈ K ++ N).
  { intros m Hm. apply Hl, elem_of_app in Hm as [(? & ? & _)%list_elem_of_fmap|(? & [= ->] & ?)%list_elem_of_fmap]; done. }
  assert (Hrel : forall i, Release i ∈ l -> i ∈ ids (G ++ H)).
  { intros i Hi. apply Hl, elem_of_app in Hi as [(? & [= ->] & ?)%list_elem_of_fmap|(? & ? & _)%list_elem_of_fmap]; [|done].
    by apply list_elem_of_fmap_2. }
  split; try done.
  - rewrite omap_app, app_assoc. by apply leads_app.
  - rewrite omap_app. by apply leads_app.
  - intros m [Hm|Hm]%elem_of_app; [by apply lk_data0|]. apply Hdata in Hm. set_solver.
  - intros i Hi [Hr|Hr]%elem_of_app; [by apply (lk_held0 i)|]. apply Hrel in Hr. rewrite !fmap_app in *.
    specialize (HG i). specialize (HH i). set_solver.
  - intros i Hi. apply never_after_app. split; [by apply lk_released0|].
    assert (Hnone : forall x, x ∈ l -> data_id x <> Some i).
    { intros [m|j] Hx; [|done]. intros [= <-]. apply Hdata, (list_elem_of_fmap_2 am_msgid) in Hx. rewrite fmap_app in Hx.
      destruct (HH _ Hi). set_solver. }
    split; [by apply never_after_none|]. intros x y _ Hy _. by apply Hnone.
  - intros i Hi. apply never_after_app. split; [by apply lk_coming0|].
    assert (Hnone : forall x, x ∈ l -> x <> Release i).
    { intros x Hx ->. apply Hrel in Hx. rewrite fmap_app in Hx. specialize (HG i). rewrite !fmap_app in HG.
      specialize (HH i). set_solver. }
    split; [by apply never_after_none|]. intros x y _ Hy _. by apply Hnone.
Qed.

(** The connection is lost, and everything is sent again on the next one. *)
Lemma linked_lost : linked G H K N d u -> linked G H K N (again G H K N) [].
Proof.
  intros []. destruct (parts_disjoint lk_ids0) as (Hn & HG & HH & HK).
  assert (E1 : omap data_id (again G H K N) = ids K ++ ids N).
  { unfold again. rewrite omap_app, <- fmap_app. generalize (K ++ N) (G ++ H). intros l k.
    replace (omap data_id ((fun m => Release (am_msgid m)) <$> k)) with (@nil Z) by (by induction k). cbn.
    induction l as [|m l IH]; [done|]. cbn in *. by rewrite IH. }
  assert (E2 : omap release_id (again G H K N) = ids G ++ ids H).
  { unfold again. rewrite omap_app, <- fmap_app. generalize (K ++ N) (G ++ H). intros l k.
    replace (omap release_id (Data <$> l)) with (@nil Z) by (by induction l). rewrite app_nil_r.
    induction k as [|m k IH]; [done|]. cbn in *. by rewrite IH. }
  assert (Hdata : forall m, Data m ∈ again G H K N -> m ∈ K ++ N).
  { intros m [(? & ? & _)%list_elem_of_fmap|(? & [= ->] & ?)%list_elem_of_fmap]%elem_of_app; done. }
  assert (Hrel : forall i, Release i ∈ again G H K N -> i ∈ ids G \/ i ∈ ids H).
  { intros i Hi. assert (Hi' : i ∈ omap release_id (again G H K N)) by (apply list_elem_of_omap; by exists (Release i)).
    rewrite E2 in Hi'. set_solver. }
  split; try done.
  - rewrite E1. apply leads_refl.
  - rewrite E2. apply leads_skips; [|apply leads_refl]. intros i Hi Hi'. apply (HG _ Hi). rewrite !fmap_app. set_solver.
  - intros m Hm. apply Hdata in Hm. set_solver.
  - set_solver.
  - set_solver.
  - constructor.
  - intros i Hi Hr. apply Hrel in Hr as [Hr|Hr]; [apply (HG _ Hr); rewrite !fmap_app; set_solver|].
    by destruct (HH _ Hr).
  - intros i Hi. apply never_after_none. intros [m|j] Hx; [|done]. intros [= <-]. apply Hdata, (list_elem_of_fmap_2 am_msgid) in Hx.
    rewrite fmap_app in Hx. destruct (HH _ Hi). set_solver.
  - intros i Hi. apply never_after_none. intros x Hx ->. apply Hrel in Hx as [Hr|Hr].
    + apply (HG _ Hr). rewrite !fmap_app. set_solver.
    + by destruct (HH _ Hr).
Qed.
End Steps.
