(* ===== verification/MqttEnds.v ===== *)
(** * MqttEnds: the two ends of a connection

    What an end of a connection does as a whole: it reads a packet, however the bytes are cut, handles
    it as its session says, and writes the packets of the answer.  The flows of the QoS 2 messages of
    [MqttLink] in the sessions of the two ends, and the operations that start, repeat and resume them. *)

From Stdlib Require Import ZArith Lia String.
From stdpp Require Import base tactics numbers list gmap relations.
From S2P Require Import Prelude LinkedList MqttPacket SockBuf SockWrite MqttRead MqttProto MqttSession MqttEngine MqttAsync MqttRuns MqttInv MqttLink.

(** ** The operations of an end *)

(** The operation returns [a] and writes the bytes [l]. *)
Definition sends {A} (m : M A) (s : mqtt) (a : A) (s' : mqtt) (l : list Z) : Prop :=
  m s = Ret (a, s') /\ wire (socket (client s)) (nt s') = wire (socket (client s)) (nt s) ++ l.

(** The inputs of the connection. *)
Definition arrive (ins : list recvd) (s : mqtt) : mqtt :=
  set_nt (set_in (<[socket (client s) := ins]> (n_in (nt s))) (nt s)) s.

(** A packet is read, however many calls it takes, and handled. *)
Definition receive (fuel : nat) (sock : Z) : M Z :=
  let* s := pget in
  let* (pack, rc, n) := plift (read_packet fuel sock (nt s)) in
  pmod (set_nt n) >>;
  match pack with Some p => handle p sock | None => pret rc end.

(** A message of the application, as it is passed on. *)
Definition fine (m : app_message) : Prop :=
  short (am_topic m) /\ am_topiclen m = Z.of_nat (length (am_topic m)) /\
  am_payloadlen m = Z.of_nat (length (am_payload m)) /\ am_qos m = 2 /\ 0 <= am_retained m < 2 /\ am_dup m = 0 /\
  1 <= am_msgid m <= MAX_MSG_ID /\ Z.of_nat (length (am_topic m)) + am_payloadlen m + 4 < 128 ^ 4.

(** A connection on which nothing is pending. *)
Definition connection (s : mqtt) : Prop :=
  socket (client s) <> 0 /\ (exists w, takes_all (socket (client s)) w (nt s)) /\
  store (socket (client s)) [] [] 0 (nt s).

(** ** What stays the same at an end *)

Definition keeps {A} (m : M A) : Prop := forall s a s', m s = Ret (a, s') -> flags s' = flags s.

Lemma flags_ret {A} (a : A) : keeps (pret a).
Proof. by intros s a' s' [= <- <-]. Qed.
Lemma flags_get : keeps pget.
Proof. by intros s a s' [= <- <-]. Qed.
Lemma flags_lift {A} (o : outcome A) : keeps (plift o).
Proof. intros s a s'. unfold plift. destruct o; cbn; [|done..]. by intros [= <- <-]. Qed.
Lemma flags_mod f : (forall s, flags (f s) = flags s) -> keeps (pmod f).
Proof. intros H s a s' [= <- <-]. apply H. Qed.
Lemma flags_client f :
  (forall c, socket (f c) = socket c /\ connected (f c) = connected c /\ good (f c) = good c /\ cleansession (f c) = cleansession c) ->
  keeps (pclient f).
Proof. intros H. apply flags_mod. intros s. unfold flags. cbn. by destruct (H (client s)) as (-> & -> & -> & ->). Qed.
Lemma flags_bind {A B} (m : M A) (k : A -> M B) : keeps m -> (forall a, keeps (k a)) -> keeps (pbind m k).
Proof.
  intros Hm Hk s b s' H. unfold pbind in H. destruct (m s) as [[a s1]| | |] eqn:E; [|done..]. cbn in H.
  rewrite <- (Hm _ _ _ E). by eapply Hk.
Qed.

Create HintDb keeps.
#[export] Hint Resolve flags_ret flags_get flags_lift : keeps.

Ltac keep :=
  repeat first
    [ progress (auto with keeps)
    | apply flags_bind; [|intros ?]
    | apply flags_client; by intros ?
    | apply flags_mod; by intros ?
    | case_match ].

Lemma flags_send r : keeps (send r).
Proof. unfold send, time. keep. Qed.
#[export] Hint Resolve flags_send : keeps.

Lemma flags_remove q : keeps (MQTTProtocol_removePublication q).
Proof. unfold MQTTProtocol_removePublication, load_pub, unlist_pub. keep. Qed.
Lemma flags_process q : keeps (Protocol_processPublication q).
Proof. unfold Protocol_processPublication, the_client, MQTTAsync_deliverMessage. keep. Qed.
Lemma flags_store q : keeps (MQTTProtocol_storePublication q).
Proof. unfold MQTTProtocol_storePublication. keep. Qed.
Lemma flags_out id : keeps (find_outbound id).
Proof. unfold find_outbound, the_client. keep. Qed.
Lemma flags_in id : keeps (find_inbound id).
Proof. unfold find_inbound, the_client. keep. Qed.
Lemma flags_of sock : keeps (client_of sock).
Proof. unfold client_of, the_client. keep. Qed.
#[export] Hint Resolve flags_remove flags_process flags_store flags_out flags_in flags_of : keeps.

Lemma flags_handle pk sock : keeps (handle pk sock).
Proof.
  destruct pk; cbn [handle]; unfold MQTTProtocol_handlePublishes, MQTTProtocol_handlePubacks, MQTTProtocol_handlePubrecs,
    MQTTProtocol_handlePubrels, MQTTProtocol_handlePubcomps, MQTTProtocol_handleUnsubacks, MQTTProtocol_handleSubacks,
    MQTTProtocol_handlePingresps, load_pub, unlist_pub, time; keep.
Qed.

(** ** The network of an end *)

Lemma takes_all_wside sock w n n' : takes_all sock w n -> wside n' = wside n -> takes_all sock w n'.
Proof. unfold takes_all, idle, wire. intros H [= E1 E2 E3 E4 E5]. by rewrite E1, E2, E3, E4, E5. Qed.

Lemma takes_all_wire sock w n : takes_all sock w n -> wire sock n = w.
Proof. by intros [(_ & _ & _ & ?) _]. Qed.

Lemma put_all sock ps : forall w n,
  takes_all sock w n ->
  takes_all sock (w ++ concat (packet_bytes <$> ps)) (foldl (put sock) n ps) /\ same_reads n (foldl (put sock) n ps).
Proof.
  induction ps as [|q ps IH]; intros w n H; cbn [foldl fmap list_fmap concat]; [by rewrite app_nil_r|].
  destruct (putdatas_all _ _ (MQTTPacket_sends q.1 q.2) _ H) as (n1 & E & H1 & R1).
  assert (Eput : put sock n q = n1) by (unfold put; by rewrite E). rewrite Eput.
  destruct (IH _ _ H1) as [H2 R2]. rewrite <- app_assoc in H2. split; [done|].
  destruct R1 as (A1 & B1 & C1), R2 as (A2 & B2 & C2). split_and!; congruence.
Qed.

(** The state in which a packet is read, as the session sees it. *)
Lemma represents_net n s se : represents s se -> represents (set_nt n s) se.
Proof. intros H. by apply (represents_frame s). Qed.

Lemma store_reads sock n n' : store sock [] [] 0 n -> same_reads n n' -> store sock [] [] 0 n'.
Proof. intros H (E1 & E2 & _). by apply (store_same sock [] [] 0 n). Qed.

(** An end that did something: what it wrote, and that it is ready for more. *)
Lemma sends_intro {A} (m : M A) s a s' w l :
  m s = Ret (a, s') -> takes_all (socket (client s)) w (nt s) -> takes_all (socket (client s)) (w ++ l) (nt s') ->
  sends m s a s' l.
Proof. intros E H H'. split; [done|]. by rewrite (takes_all_wire _ _ _ H), (takes_all_wire _ _ _ H'). Qed.

Lemma sends_det {A} (m : M A) s a s' l a1 s1 l1 :
  sends m s a s' l -> sends m s a1 s1 l1 -> a1 = a /\ s1 = s' /\ l1 = l.
Proof.
  intros [E W] [E1 W1]. rewrite E in E1. injection E1 as -> ->. rewrite W in W1. by apply app_inv_head in W1.
Qed.

Lemma connection_intro s s' w :
  connection s -> socket (client s') = socket (client s) -> takes_all (socket (client s)) w (nt s') ->
  same_reads (nt s) (nt s') -> connection s'.
Proof.
  intros (Hs & _ & Hst) E H R. unfold connection. rewrite E. split; [done|]. split; [by exists w|]. by eapply store_reads.
Qed.

(** The packet [p] is read as one of [P]. *)
Definition reads (P : packet -> Prop) (sock : Z) (p : Z * list (list Z)) (more : list Z) (fuel : nat) : Prop :=
  forall n, arrives sock p.1 p.2 more n -> (length (inputs sock n) < fuel)%nat ->
    exists pk, P pk /\ pk_ok pk /\ received sock more (read_packet fuel sock n) pk.

(** A packet arrives: it is handled as the session says. *)
Lemma receive_run (P : packet -> Prop) fuel s se ins p more :
  connection s -> represents s se -> Forall quiet ins -> (length ins < fuel)%nat -> flat ins = packet_bytes p ++ more ->
  reads P (socket (client s)) p more fuel ->
  exists pk rc s', P pk /\ sends (receive fuel (socket (client s))) (arrive ins s) rc s' (concat (packet_bytes <$> (se_step pk se).2)) /\
    represents s' (se_step pk se).1 /\ connection s' /\ flags s' = flags s /\
    flat (inputs (socket (client s')) (nt s')) = more.
Proof.
  intros (Hs & (w & Hw) & Hst) Hr Hq Hf Hfl Hread. set (sock := socket (client s)) in *.
  set (n0 := set_in (<[sock := ins]> (n_in (nt s))) (nt s)).
  assert (Hin : inputs sock n0 = ins) by (unfold inputs; cbn; by rewrite lookup_insert_eq).
  destruct (Hread n0) as (pk & HP & Hok & n1 & E1 & Hst1 & Hmore & _).
  { split; [by apply (store_same sock [] [] 0 (nt s))|]. by rewrite Hin. }
  { by rewrite Hin. }
  pose proof (read_packet_wr _ _ _ _ _ _ E1) as Hws.
  assert (Hw1 : takes_all sock w n1) by (eapply takes_all_wside; [exact Hw|]; rewrite Hws; done).
  set (s1 := set_nt n1 (arrive ins s)).
  destruct (handle_spec pk s1 se sock) as (rc & s' & E2 & Hr2 & Hn2 & Hk2); [by apply (represents_frame s)|done|done|].
  destruct (put_all sock (se_step pk se).2 w n1 Hw1) as [Hw2 Hrd].
  assert (Ev : receive fuel sock (arrive ins s) = Ret (rc, s')).
  { unfold receive, pbind, pget, plift, pmod. cbn. fold sock. fold n0. rewrite E1. cbn. exact E2. }
  exists pk, rc, s'. split; [done|]. split; [apply (sends_intro _ _ _ _ w); [exact Ev|done|]|]; cbn [client arrive set_nt].
  { fold sock. rewrite Hn2. done. }
  split; [done|]. rewrite Hk2. split; [|split].
  - unfold connection. rewrite Hk2. split; [done|]. split.
    + eexists. rewrite Hn2. exact Hw2.
    + rewrite Hn2. by eapply store_reads.
  - change (flags s) with (flags s1). by apply (flags_handle pk sock s1 rc).
  - rewrite Hn2. unfold inputs. destruct Hrd as (_ & _ & E). cbn in E |- *. rewrite E. exact Hmore.
Qed.

(** ** The packets *)

Definition publish_packet (dup : Z) (m : app_message) : Z * list (list Z) :=
  (Header PUBLISH dup 2 (am_retained m),
   [be16 (Z.of_nat (length (am_topic m))); am_topic m; be16 (am_msgid m); am_payload m]).

Definition down_packet (p : Z * list (list Z)) (x : down) : Prop :=
  match x with
  | Data m => exists dup, 0 <= dup < 2 /\ p = publish_packet dup m
  | Release i => 0 <= i < 65536 /\ p = ack_packet PUBREL i
  end.
Definition up_packet (p : Z * list (list Z)) (x : up) : Prop :=
  match x with
  | Received i => 0 <= i < 65536 /\ p = ack_packet PUBREC i
  | Complete i => 0 <= i < 65536 /\ p = ack_packet PUBCOMP i
  end.

(** The bytes are those of packets for [xs]. *)
Definition carries {X} (enc : Z * list (list Z) -> X -> Prop) (bytes : list Z) (xs : list X) : Prop :=
  exists ps, Forall2 enc ps xs /\ bytes = concat (packet_bytes <$> ps).

Lemma carries_app {X} (enc : _ -> X -> Prop) b1 b2 x1 x2 : carries enc b1 x1 -> carries enc b2 x2 -> carries enc (b1 ++ b2) (x1 ++ x2).
Proof. intros (p1 & H1 & ->) (p2 & H2 & ->). exists (p1 ++ p2). split; [by apply Forall2_app|]. by rewrite fmap_app, concat_app. Qed.

Lemma carries_one {X} (enc : _ -> X -> Prop) p x : enc p x -> carries enc (packet_bytes p) [x].
Proof. intros H. exists [p]. split; [by constructor|]. cbn. by rewrite app_nil_r. Qed.

Lemma carries_nil {X} (enc : _ -> X -> Prop) : carries enc [] [].
Proof. by exists []. Qed.

Lemma packet_nonempty p : packet_bytes p <> [].
Proof. destruct p. unfold packet_bytes, MQTTPacket_sends. done. Qed.

Lemma carries_take {X} (enc : _ -> X -> Prop) b xs :
  carries enc b xs -> b <> [] ->
  exists p x xs' more, xs = x :: xs' /\ enc p x /\ b = packet_bytes p ++ more /\ carries enc more xs'.
Proof.
  intros (ps & H & ->) Hb. destruct H as [|p x ps xs Hx H]; [done|]. exists p, x, xs, (concat (packet_bytes <$> ps)).
  split; [done|]. split; [done|]. split; [done|]. by exists ps.
Qed.

Lemma carries_empty {X} (enc : _ -> X -> Prop) xs : carries enc [] xs -> xs = [].
Proof.
  intros (ps & H & E). destruct H as [|p x ps xs Hx H]; [done|]. symmetry in E.
  apply app_eq_nil in E as [E _]. by apply packet_nonempty in E.
Qed.

Lemma publish_packet_eq m dup :
  fine m ->
  MQTTPacket_send_publish (MkPublish 0 (am_topic m) 0 (am_msgid m) (am_payload m) (am_payloadlen m)) dup 2 (am_retained m) =
    Ret (publish_packet dup m).
Proof.
  intros ((_ & Hs) & _ & Hl & _ & _ & _ & Hid & _). unfold MQTTPacket_send_publish, publish_packet, MAX_MSG_ID in *. cbn.
  rewrite s32_id, int_buf_eq by lia. cbn [obind]. unfold read_bytes. rewrite bool_decide_eq_true_2 by lia. cbn [obind].
  rewrite int_buf_eq by lia. cbn [obind]. by rewrite drop_0, Hl, Nat2Z.id, firstn_all.
Qed.

(** A PUBLISH packet as the receiver reads it. *)
Definition read_publish (m : app_message) (q : Publish) : Prop :=
  pack_ok q /\ p_topic q = am_topic m /\ p_topiclen q = am_topiclen m /\ p_msgId q = am_msgid m /\
  take (Z.to_nat (p_payloadlen q)) (p_payload q) = am_payload m /\ hd_qos (p_header q) = 2 /\
  hd_retain (p_header q) = am_retained m.

Lemma reads_publish s dup m more fuel :
  s <> 0 -> fine m -> 0 <= dup < 2 ->
  reads (fun pk => exists q, pk = PkPublish q /\ read_publish m q) s (publish_packet dup m) more fuel.
Proof.
  intros Hs Hm Hd n Ha Hf. pose proof Hm as (Ht & Htl & Hpl & _ & Hr & _ & Hid & Hl). unfold MAX_MSG_ID in Hid.
  set (pack := MkPublish 0 (am_topic m) 0 (am_msgid m) (am_payload m) (am_payloadlen m)).
  pose proof (publish_packet_eq m dup Hm) as E. fold pack in E. destruct (publish_packet dup m) as [h b].
  destruct (publish_arrives s pack dup 2 (am_retained m) h b more n fuel) as (q & Hrec & (Q1 & Q2 & Q3 & Q4 & Q5) & _ & _ & Q6 & Q7); cbn; try done; try lia. cbn in Q1, Q2, Q3, Q4, Q5.
  assert (Epl : take (Z.to_nat (p_payloadlen q)) (p_payload q) = am_payload m).
  { rewrite Q5, Hpl, Nat2Z.id. by apply take_ge. }
  assert (Hq : pack_ok q).
  { split; [|rewrite Q3; lia]. apply (f_equal length) in Epl. rewrite length_take in Epl. lia. }
  exists (PkPublish q). split; [|done]. exists q. split; [done|]. split_and!; try done; congruence.
Qed.

Lemma reads_ack s type i more fuel :
  s <> 0 -> type ∈ [PUBREC; PUBREL; PUBCOMP] -> 0 <= i < 65536 ->
  reads (fun pk => exists h, pk = PkAck (MkAck h i) /\ hd_type h = type /\ hd_dup h = 0) s (ack_packet type i) more fuel.
Proof.
  intros Hs Ht Hi n Ha Hf.
  destruct (ack_roundtrip s type i 0 more n fuel) as (h & b & E & H1 & H2 & _ & H); try done; [set_solver|].
  rewrite ack_eq in E by done. injection E as <- <-. eexists. split; [|split; [|by apply H]]; [by eexists|done].
Qed.

(** ** The sessions of the two ends *)

Definition out_flow (released : bool) (m : app_message) : flow :=
  Flow (am_msgid m) 2 (am_retained m) (am_topic m) 0 (am_payload m) (Some (if released then PUBCOMP else PUBREC)).
Definition in_flow (m : app_message) : flow :=
  Flow (am_msgid m) 2 (am_retained m) (am_topic m) (am_topiclen m) (am_payload m) (Some PUBREL).

Definition out_flows (G H K N : list app_message) : list flow := (out_flow true <$> G ++ H) ++ (out_flow false <$> K ++ N).

Lemma flow_message_in m : fine m -> flow_message (in_flow m) = m.
Proof. intros (_ & H2 & H3 & H4 & _ & H6 & _). destruct m. unfold flow_message, in_flow. cbn in *. by subst. Qed.

Lemma out_ids r (l : list app_message) : f_id <$> (out_flow r <$> l) = am_msgid <$> l.
Proof. rewrite <- list_fmap_compose. by apply list_fmap_ext. Qed.
Lemma in_ids (l : list app_message) : f_id <$> (in_flow <$> l) = am_msgid <$> l.
Proof. rewrite <- list_fmap_compose. by apply list_fmap_ext. Qed.
Lemma out_flows_ids G H K N : f_id <$> out_flows G H K N = am_msgid <$> G ++ H ++ K ++ N.
Proof. unfold out_flows. by rewrite fmap_app, !out_ids, <- fmap_app, <- app_assoc. Qed.

Lemma flow_at_middle id l1 f l2 :
  f_id f = id -> id ∉ f_id <$> l1 -> flow_at id (l1 ++ f :: l2) = Some (length l1, f).
Proof.
  intros Hf Hl. unfold flow_at. rewrite list_find_app_r; [|apply list_find_None, Forall_forall; intros g Hg E; apply Hl; rewrite <- E; by apply list_elem_of_fmap_2].
  cbn [list_find]. rewrite decide_True by done. done.
Qed.

Lemma flow_at_absent id l : id ∉ f_id <$> l -> flow_at id l = None.
Proof. intros Hl. apply list_find_None, Forall_forall. intros g Hg E. apply Hl. rewrite <- E. by apply list_elem_of_fmap_2. Qed.

(** The flow found at the sender for an identifier that is not one of [K ++ N] is released. *)
Lemma flow_at_released i G H K N :
  i ∉ am_msgid <$> K ++ N ->
  flow_at i (out_flows G H K N) = None \/ exists j m, flow_at i (out_flows G H K N) = Some (j, out_flow true m).
Proof.
  intros Hi. destruct (flow_at i (out_flows G H K N)) as [[j f]|] eqn:E; [right|by left].
  apply list_find_Some in E as (Hj & Hf & _). apply list_elem_of_lookup_2, elem_of_app in Hj.
  destruct Hj as [(m & -> & _)%list_elem_of_fmap|(m & -> & Hm)%list_elem_of_fmap]; [by exists j, m|].
  exfalso. apply Hi. rewrite <- Hf. by apply (list_elem_of_fmap_2 am_msgid).
Qed.

Section Ends.
Variables (x : list flow) (q : list app_message).

Lemma pubrec_next G H m K N :
  am_msgid m ∉ am_msgid <$> G ++ H ->
  se_pubrec (am_msgid m) (Session (out_flows G H (m :: K) N) x q) =
    (Session (out_flows G (H ++ [m]) K N) x q, [ack_packet PUBREL (am_msgid m)]).
Proof.
  intros Hm. unfold se_pubrec, out_flows. cbn [se_out se_in se_passed app fmap list_fmap].
  rewrite (flow_at_middle _ _ (out_flow false m)); [|done|by rewrite out_ids].
  rewrite bool_decide_eq_true_2 by done. rewrite insert_app_r_alt, Nat.sub_diag by lia. cbn.
  do 2 f_equal. by rewrite app_assoc, (fmap_app _ (G ++ H)), <- app_assoc.
Qed.

Lemma pubrec_other i G H K N :
  i ∉ am_msgid <$> K ++ N ->
  se_pubrec i (Session (out_flows G H K N) x q) = (Session (out_flows G H K N) x q, []).
Proof.
  intros Hi. unfold se_pubrec. cbn [se_out]. by destruct (flow_at_released i G H K N Hi) as [-> |(j & m & ->)].
Qed.

Lemma pubcomp_next G1 m G2 H K N :
  am_msgid m ∉ am_msgid <$> G1 ->
  se_pubcomp (am_msgid m) (Session (out_flows (G1 ++ m :: G2) H K N) x q) =
    (Session (out_flows (G1 ++ G2) H K N) x q, []).
Proof.
  intros Hm. unfold se_pubcomp, out_flows. cbn [se_out se_in se_passed]. rewrite !fmap_app, <- !app_assoc.
  cbn [fmap list_fmap app]. rewrite (flow_at_middle _ _ (out_flow true m)); [|done|by rewrite out_ids].
  rewrite bool_decide_eq_true_2 by done. by rewrite delete_middle.
Qed.

Lemma publish_new m p l :
  read_publish m p -> am_msgid m ∉ am_msgid <$> l ->
  se_publish p (Session x (in_flow <$> l) q) =
    (Session x (in_flow <$> l ++ [m]) q, [ack_packet PUBREC (am_msgid m)]).
Proof.
  intros (_ & H1 & H2 & H3 & H4 & H5 & H6) Hm. unfold se_publish. cbn [se_out se_in se_passed].
  rewrite H5, H3. cbn [Z.eqb]. rewrite flow_at_absent by by rewrite in_ids. rewrite H1, H2, H4, H6.
  by rewrite fmap_app.
Qed.

Lemma publish_again m p l1 l2 :
  read_publish m p -> am_msgid m ∉ am_msgid <$> l1 ->
  se_publish p (Session x (in_flow <$> l1 ++ m :: l2) q) =
    (Session x (in_flow <$> l1 ++ m :: l2) q, [ack_packet PUBREC (am_msgid m)]).
Proof.
  intros (_ & H1 & H2 & H3 & H4 & H5 & H6) Hm. unfold se_publish. cbn [se_out se_in se_passed].
  rewrite H5, H3. cbn [Z.eqb]. rewrite fmap_app. cbn [fmap list_fmap].
  rewrite (flow_at_middle _ _ (in_flow m)); [|done|by rewrite in_ids]. rewrite H1, H2, H4, H6.
  by rewrite insert_app_r_alt, Nat.sub_diag by lia.
Qed.

Lemma pubrel_next m l :
  fine m -> se_pubrel 0 (am_msgid m) (Session x (in_flow <$> m :: l) q) =
    (Session x (in_flow <$> l) (q ++ [m]), [ack_packet PUBCOMP (am_msgid m)]).
Proof.
  intros Hm. unfold se_pubrel. cbn [se_out se_in se_passed fmap list_fmap].
  assert (E : flow_at (am_msgid m) (in_flow m :: (in_flow <$> l)) = Some (0%nat, in_flow m)).
  { apply (flow_at_middle _ []); [done|apply not_elem_of_nil]. }
  rewrite E. cbn. by rewrite flow_message_in.
Qed.

Lemma pubrel_other i l :
  i ∉ am_msgid <$> l -> se_pubrel 0 i (Session x (in_flow <$> l) q) = (Session x (in_flow <$> l) q, []).
Proof. intros Hi. unfold se_pubrel. cbn [se_in]. by rewrite flow_at_absent by by rewrite in_ids. Qed.
End Ends.

(** The step of an acknowledgement is that of its kind. *)
Lemma step_pubrec h i se : hd_type h = PUBREC -> se_step (PkAck (MkAck h i)) se = se_pubrec i se.
Proof. intros E. cbn. by rewrite E. Qed.
Lemma step_pubrel h i se : hd_type h = PUBREL -> hd_dup h = 0 -> se_step (PkAck (MkAck h i)) se = se_pubrel 0 i se.
Proof. intros E E'. cbn. by rewrite E, E'. Qed.
Lemma step_pubcomp h i se : hd_type h = PUBCOMP -> se_step (PkAck (MkAck h i)) se = se_pubcomp i se.
Proof. intros E. cbn. by rewrite E. Qed.

Lemma fine_id m : fine m -> 0 <= am_msgid m < 65536.
Proof. intros (_ & _ & _ & _ & _ & _ & Hi & _). unfold MAX_MSG_ID in Hi. lia. Qed.

(** ** The operations of the sender *)

Lemma startPublish_run m s se w :
  represents s se -> fine m -> am_msgid m ∉ m_msgid <$> out s -> takes_all (socket (client s)) w (nt s) ->
  runs (MQTTProtocol_startPublish (MkPublish 0 (am_topic m) 0 (am_msgid m) (am_payload m) (am_payloadlen m)) 2
      (am_retained m) None) s (fun _ s' =>
    represents s' (Session (se_out se ++ [out_flow false m]) (se_in se) (se_passed se)) /\ stable s s' /\
    takes_all (socket (client s)) (w ++ packet_bytes (publish_packet 0 m)) (nt s')).
Proof.
  intros Hr Hm Hnew Hw. set (p := MkPublish _ _ _ _ _ _). pose proof Hm as (_ & _ & Hl & _ & _ & _ & Hid & _).
  unfold MAX_MSG_ID in Hid. assert (Hp : pack_ok p) by (split; cbn; lia).
  assert (Et : take (Z.to_nat (am_payloadlen m)) (am_payload m) = am_payload m) by (rewrite Hl, Nat2Z.id; by apply take_ge).
  destruct (store_run p s Hp) as (i & s1 & E & Ha & Es1). pose proof Ha as (_ & _ & Hpubs & _).
  unfold MQTTProtocol_startPublish, MQTTProtocol_createMessage. change (0 <? 2) with true. cbn iota. run. exists i, s1.
  split; [exact E|]. run. set (msg := Message 2 _ _ i _ _). set (s2 := upd_client _ s1).
  assert (Hs2 : flags s2 = flags s /\ nt s2 = nt s /\ socket (client s2) = socket (client s)) by (subst s2; by rewrite Es1).
  destruct Hs2 as (Hk2 & Hn2 & Hk).
  assert (Hr2 : represents s2 (Session (se_out se ++ [out_flow false m]) (se_in se) (se_passed se))).
  { replace (out_flow false m) with (as_flow msg (pub_of p)) by (unfold as_flow, out_flow; cbn; by rewrite Et).
    apply (represents_add_out s); try done; cbn; try (by rewrite Es1).
    - intros m' Hm' Eid. apply Hnew. rewrite <- Eid. by apply list_elem_of_fmap_2.
    - split; [by eexists|]. split; [cbn; lia|]. right. by split; [|left]. }
  exists (pub_of p), s2. split; [apply load_pub_run; cbn; by rewrite Hpubs, lookup_insert_eq|].
  unfold MQTTProtocol_startPublishCommon. run. unfold pub_of. cbn [pb_topic pb_payload p_topic p_payload p_payloadlen p]. rewrite Et.
  rewrite publish_packet_eq by done.
  destruct (send_all (publish_packet 0 m) s2 w) as (s3 & E3 & Hss & [Hk3 Hrd] & Hw3); [by rewrite Hn2, Hk|].
  exists TCPSOCKET_COMPLETE, s3. split; [exact E3|]. cbn. run. rewrite Hk in Hw3. rewrite Hn2 in Hrd.
  split; [by eapply represents_frame|]. split; [|done]. split; [by rewrite Hk3|done].
Qed.

(** The times of the messages do not matter to the session. *)
Definition untouched (m : Messages) : Messages :=
  Message (m_qos m) (m_retain m) (m_msgid m) (m_publish m) (Some 0) (m_nextMessageType m).

Lemma represents_untouched s se c r :
  represents s se -> represents (upd_client (set_outbound (CList (untouched <$> out s) c r)) s) se.
Proof.
  intros [H Ho Hi Hp]. set (s' := upd_client _ s).
  assert (Eo : out s' = untouched <$> out s) by done.
  assert (Er : refs s' = refs s) by (unfold refs; rewrite Eo, <- list_fmap_compose; done).
  split; [split|..]; rewrite ?Er; try apply H; try done.
  - rewrite Eo. apply Forall_fmap. eapply Forall_impl; [apply H|]. intros m (_ & ? & ?). by split; [eexists|].
  - rewrite Eo, <- list_fmap_compose. apply H.
  - rewrite Eo. apply Forall2_fmap_l. eapply Forall2_impl; [exact Ho|]. intros m f (b & Hb & ->). by exists b.
Qed.

Lemma completeConnection_run connack s se w :
  represents s se -> connect_state (client s) = 3 -> c_rc connack = MQTTASYNC_SUCCESS -> cleansession (client s) = false ->
  Forall short_topic (se_out se) -> takes_all (socket (client s)) w (nt s) ->
  runs (MQTTAsync_completeConnection connack) s (fun _ s' =>
    represents s' se /\ flags s' = (socket (client s), true, true, false) /\ same_reads (nt s) (nt s') /\
    takes_all (socket (client s)) (w ++ resends (se_out se)) (nt s')).
Proof.
  intros Hr Hc Hrc Hcl Hs Hw. unfold MQTTAsync_completeConnection. run. rewrite Hc, Hrc. cbn. run. cbn. rewrite Hcl. run.
  set (s1 := upd_client _ s). assert (Hr1 : represents s1 se) by by apply (represents_frame s).
  destruct (bool_decide_reflect (length (out s1) = 0%nat)) as [E|_]; run.
  { pose proof (Forall2_length _ _ _ (re_out _ _ Hr1)) as Hl. rewrite E in Hl. symmetry in Hl. apply nil_length_inv in Hl.
    rewrite Hl, app_nil_r. split_and!; try done. unfold flags. cbn. by rewrite Hcl. }
  set (s2 := upd_client _ s1). assert (Hr2 : represents s2 se) by by apply represents_untouched.
  destruct (retry_some 0 true s2 se w) as (s3 & fs & E3 & Hr3 & [Hk3 Hrd] & Hw3 & _ & Hall); try done.
  exists tt, s3. split; [exact E3|]. run. rewrite <- (Hall eq_refl). split_and!; try done; try apply Hrd.
  rewrite Hk3. unfold flags. cbn. by rewrite Hcl.
Qed.
