(* ===== verification/MqttPair.v ===== *)
(** * MqttPair: two clients, one that publishes and one that receives

    The protocol engine of [MqttProto] at both ends of a connection: what one client writes, the other
    reads, packet by packet, with the reader of [MqttRead].  The connection can be lost at any time with
    everything on it.  The messages arrive exactly once and in order. *)

From Stdlib Require Import ZArith Lia String.
From stdpp Require Import base tactics numbers list gmap relations.
From S2P Require Import Prelude LinkedList MqttPacket SockBuf SockWrite MqttRead MqttProto MqttSession MqttEngine MqttAsync MqttRuns MqttInv MqttLink MqttEnds.

(** ** The system *)

(** The client that publishes, the one that receives, the bytes on the way in both directions, and the
    messages published so far. *)
Record pair : Type := Pair {
  pa : mqtt;
  pb : mqtt;
  ab : list Z;
  ba : list Z;
  published : list app_message
}.

(** The client on a new connection. *)
Definition reconnected (s s' : mqtt) : Prop :=
  exists sock n, s' = set_nt n (upd_client (fun c => set_connect_state 3 (set_socket sock c)) s) /\ connection s'.

(** A message is published with an identifier that is not in use. *)
Inductive publishes (p : pair) : pair -> Prop :=
| publish m rc a l :
    fine m -> am_msgid m ∉ m_msgid <$> out (pa p) ->
    sends (MQTTProtocol_startPublish (MkPublish 0 (am_topic m) 0 (am_msgid m) (am_payload m) (am_payloadlen m)) 2
      (am_retained m) None) (pa p) rc a l ->
    publishes p (Pair a (pb p) (ab p ++ l) (ba p) (published p ++ [m])).

(** A packet arrives, its bytes cut in any way and with interruptions. *)
Inductive delivers (p : pair) : pair -> Prop :=
| deliver_down fuel ins rc b l :
    ab p <> [] -> Forall quiet ins -> flat ins = ab p -> (length ins < fuel)%nat ->
    sends (receive fuel (socket (client (pb p)))) (arrive ins (pb p)) rc b l ->
    delivers p (Pair (pa p) b (flat (inputs (socket (client b)) (nt b))) (ba p ++ l) (published p))
| deliver_up fuel ins rc a l :
    ba p <> [] -> Forall quiet ins -> flat ins = ba p -> (length ins < fuel)%nat ->
    sends (receive fuel (socket (client (pa p)))) (arrive ins (pa p)) rc a l ->
    delivers p (Pair a (pb p) (ab p ++ l) (flat (inputs (socket (client a)) (nt a))) (published p)).

(** The messages that are due are sent again, or the connection is lost and opened again. *)
Inductive disturbs (p : pair) : pair -> Prop :=
| resent now a l :
    sends (MQTTProtocol_retry now true false) (pa p) tt a l ->
    disturbs p (Pair a (pb p) (ab p ++ l) (ba p) (published p))
| lost a0 b0 ack_a ack_b rc_a rc_b a b l k :
    reconnected (pa p) a0 -> reconnected (pb p) b0 ->
    c_rc ack_a = MQTTASYNC_SUCCESS -> c_rc ack_b = MQTTASYNC_SUCCESS ->
    sends (MQTTAsync_completeConnection ack_a) a0 rc_a a l -> sends (MQTTAsync_completeConnection ack_b) b0 rc_b b k ->
    disturbs p (Pair a b l k (published p)).

Definition pair_step (p p' : pair) : Prop := publishes p p' \/ delivers p p' \/ disturbs p p'.

(** At the beginning both clients are connected and their sessions are empty. *)
Record fresh_pair (p : pair) : Prop := {
  fp_a : exists q, represents (pa p) (Session [] [] q);
  fp_b : represents (pb p) (Session [] [] []);
  fp_empty : ab p = [] /\ ba p = [] /\ published p = [];
  fp_connections : connection (pa p) /\ connection (pb p);
  fp_connected : connected (client (pa p)) = true /\ good (client (pa p)) = true;
  fp_session : cleansession (client (pa p)) = false /\ cleansession (client (pb p)) = false
}.

(** ** The invariant *)

(** The parts of a link, as in [linked], and the two sessions. *)
Record pairing (G H K N : list app_message) (d : list down) (u : list up) (q r : list app_message) (p : pair) : Prop := {
  pr_a : represents (pa p) (Session (out_flows G H K N) [] q);
  pr_b : represents (pb p) (Session [] (in_flow <$> H ++ K) r);
  pr_log : published p = r ++ H ++ K ++ N;
  pr_link : linked G H K N d u;
  pr_fine : Forall fine (G ++ H ++ K ++ N);
  pr_ab : carries down_packet (ab p) d;
  pr_ba : carries up_packet (ba p) u;
  pr_connection_a : connection (pa p);
  pr_connection_b : connection (pb p);
  pr_flags_a : connected (client (pa p)) = true /\ good (client (pa p)) = true /\ cleansession (client (pa p)) = false;
  pr_flags_b : cleansession (client (pb p)) = false
}.

(** How far the packets on the way still have to go. *)
Definition weight (d : list down) (u : list up) : nat :=
  sum_list_with (fun x => match x with Data _ => 4 | Release _ => 2 end)%nat d +
  sum_list_with (fun x => match x with Received _ => 3 | Complete _ => 1 end)%nat u.

(** The messages with these identifiers were passed on, and no PUBCOMP is on the way for them. *)
Definition stuck (S : list Z) (G : list app_message) (u : list up) : Prop :=
  forall i, i ∈ S -> i ∈ am_msgid <$> G /\ Complete i ∉ u.

Lemma stuck_less S G u u' : stuck S G u -> u' ⊆ u -> stuck S G u'.
Proof. intros Hs Hu i Hi. destruct (Hs i Hi). split; [done|]. set_solver. Qed.

Lemma stuck_received S G u i : stuck S G u -> stuck S G (u ++ [Received i]).
Proof. intros Hs j Hj. destruct (Hs j Hj). split; [done|]. set_solver. Qed.

Definition paired (S : list Z) (k : nat) (p : pair) : Prop :=
  exists G H K N d u q r, pairing G H K N d u q r p /\ weight d u = k /\ stuck S G u.

Lemma paired_intro S G H K N d u q r p k : stuck S G u -> pairing G H K N d u q r p -> weight d u = k -> paired S k p.
Proof. intros. by exists G, H, K, N, d, u, q, r. Qed.

Lemma flags_a s s' :
  flags s' = flags s -> connected (client s) = true /\ good (client s) = true /\ cleansession (client s) = false ->
  connected (client s') = true /\ good (client s') = true /\ cleansession (client s') = false.
Proof. intros [= _ -> -> ->]. done. Qed.

Lemma flags_socket s s' : flags s' = flags s -> socket (client s') = socket (client s).
Proof. by intros [= -> _ _ _]. Qed.

Lemma flags_b s s' : flags s' = flags s -> cleansession (client s) = false -> cleansession (client s') = false.
Proof. by intros [= _ _ _ ->]. Qed.

Lemma out_flows_snoc G H K N m : out_flows G H K (N ++ [m]) = out_flows G H K N ++ [out_flow false m].
Proof. unfold out_flows. by rewrite (app_assoc K), (fmap_app _ (K ++ N)), app_assoc. Qed.

Lemma out_ids_parts s G H K N q :
  represents s (Session (out_flows G H K N) [] q) -> m_msgid <$> out s = am_msgid <$> G ++ H ++ K ++ N.
Proof. intros Hr. rewrite <- out_flows_ids. apply (flow_ids (pubs s)), Hr. Qed.

Lemma weight_app d d' u u' : weight (d ++ d') (u ++ u') = (weight d u + weight d' u')%nat.
Proof. unfold weight. rewrite !sum_list_with_app. lia. Qed.

Section Pairing.
Context {G H K N : list app_message} {d : list down} {u : list up} {q r : list app_message} {p : pair}.
Hypothesis P : pairing G H K N d u q r p.
Variable S : list Z.
Hypothesis St : stuck S G u.

Lemma fine_in m : m ∈ H ++ K ++ N -> fine m.
Proof. intros Hm. destruct (proj1 (Forall_forall _ _) (pr_fine _ _ _ _ _ _ _ _ _ P) m); [set_solver|]. done. Qed.

Lemma fine_first : Forall fine G.
Proof. pose proof (pr_fine _ _ _ _ _ _ _ _ _ P) as HF. by apply Forall_app in HF as [? _]. Qed.

Lemma St_rest x u' : u = x :: u' -> stuck S G u'.
Proof. intros E. apply (stuck_less _ _ u); [done|]. rewrite E. set_solver. Qed.

(** The receiver did something. *)
Lemma pairing_receiver G' H' K' N' d' u' r' b more l :
  linked G' H' K' N' d' u' -> out_flows G' H' K' N' = out_flows G H K N ->
  r' ++ H' ++ K' ++ N' = r ++ H ++ K ++ N -> G' ++ H' ++ K' ++ N' = G ++ H ++ K ++ N ->
  represents b (Session [] (in_flow <$> H' ++ K') r') -> connection b -> flags b = flags (pb p) ->
  carries down_packet more d' -> carries up_packet (ba p ++ l) u' ->
  pairing G' H' K' N' d' u' q r' (Pair (pa p) b more (ba p ++ l) (published p)).
Proof.
  intros L Eo Elog Eall Hb Hc Hk Hd Hu. destruct P. split; cbn; try done.
  - by rewrite Eo.
  - by rewrite Elog.
  - by rewrite Eall.
  - by eapply flags_b.
Qed.

(** The sender did something. *)
Lemma pairing_sender G' H' K' d' u' a more l :
  linked G' H' K' N d' u' -> H' ++ K' = H ++ K -> Forall fine G' ->
  represents a (Session (out_flows G' H' K' N) [] q) -> connection a -> flags a = flags (pa p) ->
  carries down_packet (ab p ++ l) d' -> carries up_packet more u' ->
  pairing G' H' K' N d' u' q r (Pair a (pb p) (ab p ++ l) more (published p)).
Proof.
  intros L E HG Ha Hc Hk Hd Hu. destruct P. split; cbn; try done.
  - by rewrite E.
  - by rewrite (app_assoc H'), E, <- app_assoc.
  - rewrite (app_assoc H'), E, <- app_assoc. apply Forall_app. split; [done|]. by apply Forall_app in pr_fine0 as [_ ?].
  - by eapply flags_a.
Qed.

(** A message or its identifier is one of a list. *)
Lemma id_of i (l : list app_message) : i ∈ am_msgid <$> l -> exists m, i = am_msgid m /\ m ∈ l.
Proof. intros (m & -> & Hm)%list_elem_of_fmap. by exists m. Qed.

Lemma ids_split : NoDup (am_msgid <$> G) /\ NoDup (am_msgid <$> H ++ K) /\ NoDup (am_msgid <$> G ++ H ++ K) /\
  (forall i, i ∈ am_msgid <$> H ++ K -> i ∉ am_msgid <$> N).
Proof.
  pose proof (lk_ids _ _ _ _ _ _ (pr_link _ _ _ _ _ _ _ _ _ P)) as Hn.
  rewrite !app_assoc, fmap_app in Hn. apply NoDup_app in Hn as (Hn & Hx & _). rewrite <- app_assoc in Hn, Hx.
  pose proof Hn as Hn2. rewrite fmap_app in Hn2. apply NoDup_app in Hn2 as (? & ? & ?). split_and!; try done.
  intros i Hi. apply Hx. rewrite fmap_app. set_solver.
Qed.

(** The packet at the head of the wire is read and handled: what the ends are then. *)
Definition received_down (fuel : nat) (ins : list recvd) : Prop :=
  exists rc b l, sends (receive fuel (socket (client (pb p)))) (arrive ins (pb p)) rc b l /\
    exists k, (k < weight d u)%nat /\ paired S k (Pair (pa p) b (flat (inputs (socket (client b)) (nt b))) (ba p ++ l) (published p)).
Definition received_up (fuel : nat) (ins : list recvd) : Prop :=
  exists rc a l, sends (receive fuel (socket (client (pa p)))) (arrive ins (pa p)) rc a l /\
    exists k, (k < weight d u)%nat /\ paired S k (Pair a (pb p) (ab p ++ l) (flat (inputs (socket (client a)) (nt a))) (published p)).

Lemma receiver_data m d' p0 more fuel ins :
  d = Data m :: d' -> carries down_packet more d' -> down_packet p0 (Data m) ->
  ab p = packet_bytes p0 ++ more -> Forall quiet ins -> flat ins = ab p -> (length ins < fuel)%nat -> received_down fuel ins.
Proof.
  intros Ed Hmore (dup & Hdup & Ep) Hab Hq Hf Hl. pose proof (pr_link _ _ _ _ _ _ _ _ _ P) as L. rewrite Ed in L.
  assert (Hm : m ∈ H ++ K ++ N) by (apply L, list_elem_of_here). pose proof (fine_in m Hm) as Hfine. rewrite Hab in Hf.
  destruct (receive_run (fun pk => exists pq, pk = PkPublish pq /\ read_publish m pq) fuel (pb p) _ ins p0 more
    (pr_connection_b _ _ _ _ _ _ _ _ _ P) (pr_b _ _ _ _ _ _ _ _ _ P) Hq Hl Hf)
    as (pk & rc & b & (pq & -> & Hpq) & Hs & Hb & Hc & Hk & Hin).
  { rewrite Ep. apply reads_publish; [apply P|done|done]. }
  exists rc, b, (packet_bytes (ack_packet PUBREC (am_msgid m))). rewrite Hin. cbn [se_step] in Hs, Hb.
  assert (Hu : carries up_packet (ba p ++ packet_bytes (ack_packet PUBREC (am_msgid m))) (u ++ [Received (am_msgid m)])).
  { apply carries_app; [apply P|]. apply carries_one. split; [by apply fine_id|done]. }
  assert (Hw : (weight d' (u ++ [Received (am_msgid m)]) < weight d u)%nat).
  { rewrite Ed. unfold weight. rewrite sum_list_with_app. cbn. lia. }
  destruct ids_split as (_ & Hn & _ & HN). rewrite app_assoc, elem_of_app in Hm. destruct Hm as [Hm|Hm].
  - destruct (list_elem_of_split _ _ Hm) as (l1 & l2 & E). rewrite E in Hs, Hb, Hn.
    rewrite fmap_app, fmap_cons in Hn. apply NoDup_app in Hn as (_ & Hn & _).
    rewrite (publish_again _ _ m pq l1 l2 Hpq) in Hs, Hb by (intros Hi; apply (Hn _ Hi), list_elem_of_here).
    cbn in Hs. rewrite app_nil_r in Hs. split; [done|]. eexists. split; [exact Hw|]. eapply paired_intro; [by apply stuck_received| |done].
    apply pairing_receiver; try done; [by apply linked_data_again|by rewrite E].
  - destruct (linked_data_new m L Hm) as (N' & EN & L').
    rewrite (publish_new _ _ m pq (H ++ K) Hpq) in Hs, Hb by (intros Hi; apply (HN _ Hi); by apply list_elem_of_fmap_2).
    cbn in Hs. rewrite app_nil_r in Hs. split; [done|]. eexists. split; [exact Hw|]. eapply paired_intro; [by apply stuck_received| |done].
    apply (pairing_receiver G H (K ++ [m]) N' d' _ r); rewrite ?EN; try done.
    + unfold out_flows. by rewrite <- (app_assoc K).
    + by rewrite <- (app_assoc K).
    + by rewrite <- (app_assoc K).
    + by rewrite (app_assoc H).
Qed.

Lemma receiver_release i d' p0 more fuel ins :
  d = Release i :: d' -> carries down_packet more d' -> down_packet p0 (Release i) ->
  ab p = packet_bytes p0 ++ more -> Forall quiet ins -> flat ins = ab p -> (length ins < fuel)%nat -> received_down fuel ins.
Proof.
  intros Ed Hmore (Hi & Ep) Hab Hq Hf Hl. pose proof (pr_link _ _ _ _ _ _ _ _ _ P) as L. rewrite Ed in L. rewrite Hab in Hf.
  destruct (receive_run (fun pk => exists h, pk = PkAck (MkAck h i) /\ hd_type h = PUBREL /\ hd_dup h = 0) fuel (pb p) _ ins p0 more
    (pr_connection_b _ _ _ _ _ _ _ _ _ P) (pr_b _ _ _ _ _ _ _ _ _ P) Hq Hl Hf)
    as (pk & rc & b & (h & -> & Hh & Hh') & Hs & Hb & Hc & Hk & Hin).
  { cbn in Ep. rewrite Ep. apply reads_ack; [apply P|set_solver|done]. }
  rewrite (step_pubrel _ _ _ Hh Hh') in Hs, Hb. destruct (decide (i ∈ am_msgid <$> H ++ K)) as [Hin'|Hno].
  - apply id_of in Hin' as (m & -> & Hm). destruct (linked_release m L Hm) as (H' & EH & L').
    assert (Hfine : fine m) by (apply fine_in; set_solver).
    rewrite EH in Hs, Hb. cbn [app] in Hs, Hb. rewrite pubrel_next in Hs, Hb by done.
    cbn in Hs. rewrite app_nil_r in Hs. exists rc, b, (packet_bytes (ack_packet PUBCOMP (am_msgid m))). rewrite Hin.
    split; [done|]. exists (weight d' (u ++ [Complete (am_msgid m)])).
    split; [rewrite Ed; unfold weight; rewrite sum_list_with_app; cbn; lia|].
    eapply (paired_intro _ (G ++ [m])); [| |done].
    { intros j Hj. destruct (St j Hj) as [Hg Hno]. rewrite fmap_app. split; [set_solver|].
      destruct ids_split as (_ & _ & Hn & _). rewrite EH, fmap_app in Hn. apply NoDup_app in Hn as (_ & Hn & _).
      intros [?|[= ->]%list_elem_of_singleton]%elem_of_app; [done|]. apply (Hn _ Hg), list_elem_of_here. }
    apply (pairing_receiver (G ++ [m]) H' K N d' _ (r ++ [m])); rewrite ?EH; try done.
    + unfold out_flows. by rewrite <- (app_assoc G).
    + by rewrite <- (app_assoc r).
    + by rewrite <- (app_assoc G).
    + apply carries_app; [apply P|by apply carries_one].
  - rewrite pubrel_other in Hs, Hb by done. exists rc, b, []. rewrite Hin. split; [done|]. exists (weight d' u).
    split; [rewrite Ed; unfold weight; cbn; lia|]. eapply paired_intro; [exact St| |done].
    apply pairing_receiver; try done; [by eapply linked_release_again|]. rewrite app_nil_r. apply P.
Qed.

Lemma sender_received i u' p0 more fuel ins :
  u = Received i :: u' -> carries up_packet more u' -> up_packet p0 (Received i) ->
  ba p = packet_bytes p0 ++ more -> Forall quiet ins -> flat ins = ba p -> (length ins < fuel)%nat -> received_up fuel ins.
Proof.
  intros Eu Hmore (Hi & Ep) Hba Hq Hf Hl. pose proof (pr_link _ _ _ _ _ _ _ _ _ P) as L. rewrite Eu in L. rewrite Hba in Hf.
  destruct (receive_run (fun pk => exists h, pk = PkAck (MkAck h i) /\ hd_type h = PUBREC /\ hd_dup h = 0) fuel (pa p) _ ins p0 more
    (pr_connection_a _ _ _ _ _ _ _ _ _ P) (pr_a _ _ _ _ _ _ _ _ _ P) Hq Hl Hf)
    as (pk & rc & a & (h & -> & Hh & Hh') & Hs & Ha & Hc & Hk & Hin).
  { rewrite Ep. apply reads_ack; [apply P|set_solver|done]. }
  rewrite (step_pubrec _ _ _ Hh) in Hs, Ha. destruct (decide (i ∈ am_msgid <$> K ++ N)) as [Hin'|Hno].
  - apply id_of in Hin' as (m & -> & Hm). destruct (linked_received m L Hm) as (K' & EK & L').
    destruct ids_split as (_ & _ & Hn & _). rewrite EK, app_assoc, fmap_app in Hn. apply NoDup_app in Hn as (_ & Hn & _).
    rewrite EK in Hs, Ha. rewrite pubrec_next in Hs, Ha by (intros Hx; apply (Hn _ Hx), list_elem_of_here).
    cbn in Hs. rewrite app_nil_r in Hs. exists rc, a, (packet_bytes (ack_packet PUBREL (am_msgid m))). rewrite Hin.
    split; [done|]. exists (weight (d ++ [Release (am_msgid m)]) u').
    split; [rewrite Eu; unfold weight; rewrite sum_list_with_app; cbn; lia|]. eapply paired_intro; [exact (St_rest _ _ Eu)| |done].
    apply (pairing_sender G (H ++ [m]) K'); rewrite ?EK; try done.
    + by rewrite <- app_assoc.
    + apply fine_first.
    + apply carries_app; [apply P|by apply carries_one].
  - rewrite pubrec_other in Hs, Ha by done. exists rc, a, []. rewrite Hin. split; [done|]. exists (weight d u').
    split; [rewrite Eu; unfold weight; cbn; lia|]. eapply paired_intro; [exact (St_rest _ _ Eu)| |done].
    apply (pairing_sender G H K d u'); try done; [by eapply linked_received_again|apply fine_first|]. rewrite app_nil_r. apply P.
Qed.

Lemma sender_complete i u' p0 more fuel ins :
  u = Complete i :: u' -> carries up_packet more u' -> up_packet p0 (Complete i) ->
  ba p = packet_bytes p0 ++ more -> Forall quiet ins -> flat ins = ba p -> (length ins < fuel)%nat -> received_up fuel ins.
Proof.
  intros Eu Hmore (Hi & Ep) Hba Hq Hf Hl. pose proof (pr_link _ _ _ _ _ _ _ _ _ P) as L. rewrite Eu in L. rewrite Hba in Hf.
  destruct (receive_run (fun pk => exists h, pk = PkAck (MkAck h i) /\ hd_type h = PUBCOMP /\ hd_dup h = 0) fuel (pa p) _ ins p0 more
    (pr_connection_a _ _ _ _ _ _ _ _ _ P) (pr_a _ _ _ _ _ _ _ _ _ P) Hq Hl Hf)
    as (pk & rc & a & (h & -> & Hh & Hh') & Hs & Ha & Hc & Hk & Hin).
  { rewrite Ep. apply reads_ack; [apply P|set_solver|done]. }
  rewrite (step_pubcomp _ _ _ Hh) in Hs, Ha. destruct (linked_complete i L) as (G1 & m & G2 & EG & <- & L').
  pose proof (proj1 ids_split) as Hn. rewrite EG, fmap_app, fmap_cons in Hn. apply NoDup_app in Hn as (_ & Hn & _).
  rewrite EG in Hs, Ha. rewrite pubcomp_next in Hs, Ha by (intros Hx; apply (Hn _ Hx), list_elem_of_here).
  exists rc, a, []. rewrite Hin. split; [done|]. exists (weight d u'). split; [rewrite Eu; unfold weight; cbn; lia|].
  eapply (paired_intro _ (G1 ++ G2)); [| |done].
  { intros j Hj. destruct (St j Hj) as [Hg Hno]. rewrite EG, fmap_app, fmap_cons in Hg. rewrite Eu in Hno. rewrite fmap_app.
    apply not_elem_of_cons in Hno as [Hne Hno]. split; [|done]. assert (j <> am_msgid m) by congruence. set_solver. }
  apply (pairing_sender (G1 ++ G2)); try done; [|rewrite app_nil_r; apply P].
  pose proof (pr_fine _ _ _ _ _ _ _ _ _ P) as HF. rewrite EG in HF. rewrite !Forall_app, Forall_cons in HF. apply Forall_app. tauto.
Qed.

(** A packet on the wire is read and handled. *)
Lemma deliver_down_run fuel ins :
  ab p <> [] -> Forall quiet ins -> flat ins = ab p -> (length ins < fuel)%nat -> received_down fuel ins.
Proof.
  intros Hb Hq Hf Hl. destruct (carries_take _ _ _ (pr_ab _ _ _ _ _ _ _ _ _ P) Hb) as (p0 & [m|i] & d' & more & Ed & Hp & E & Hmore).
  - by eapply receiver_data.
  - by eapply receiver_release.
Qed.

Lemma deliver_up_run fuel ins :
  ba p <> [] -> Forall quiet ins -> flat ins = ba p -> (length ins < fuel)%nat -> received_up fuel ins.
Proof.
  intros Hb Hq Hf Hl. destruct (carries_take _ _ _ (pr_ba _ _ _ _ _ _ _ _ _ P) Hb) as (p0 & [i|i] & u' & more & Eu & Hp & E & Hmore).
  - by eapply sender_received.
  - by eapply sender_complete.
Qed.
End Pairing.

(** ** Every step *)

Lemma paired_fresh p : fresh_pair p -> paired [] 0 p.
Proof.
  intros [[q Ha] Hb (E1 & E2 & E3) [Ca Cb] [F1 F2] [F3 F4]]. eapply (paired_intro _ [] [] [] [] [] [] q []); [by intros i ?%not_elem_of_nil| |done].
  split; try done; [apply linked_empty|rewrite E1; apply carries_nil|rewrite E2; apply carries_nil].
Qed.

Lemma paired_publishes S k p p' : paired S k p -> publishes p p' -> exists k', paired S k' p'.
Proof.
  intros (G & H & K & N & d & u & q & r & P & _ & St) [m rc a l Hm Hnew Hs].
  pose proof P as []. pose proof pr_connection_a0 as (_ & (w & Hw) & _).
  destruct (startPublish_run m (pa p) _ w pr_a0 Hm Hnew Hw) as (rc' & a' & E & Hr & Hst & Hw').
  destruct (sends_det _ _ _ _ _ _ _ _ Hs (sends_intro _ _ _ _ _ _ E Hw Hw')) as (-> & -> & <-).
  rewrite (out_ids_parts _ _ _ _ _ _ pr_a0) in Hnew. eexists. eapply paired_intro; [exact St| |done].
  apply (Build_pairing G H K (N ++ [m]) (d ++ [Data m]) u q r); cbn [pa pb ab ba published]; try done.
  - by rewrite out_flows_snoc.
  - by rewrite pr_log0, <- !app_assoc.
  - by apply linked_publish.
  - rewrite !app_assoc. apply Forall_app. split; [by rewrite <- !app_assoc|by constructor].
  - apply carries_app; [done|]. apply carries_one. exists 0. split; [lia|done].
  - destruct Hst as [Hk Hrd]. eapply connection_intro; [exact pr_connection_a0|by apply flags_socket|exact Hw'|exact Hrd].
  - destruct Hst as [Hk Hrd]. by eapply flags_a.
Qed.

Lemma paired_delivers S k p p' : paired S k p -> delivers p p' -> exists k', (k' < k)%nat /\ paired S k' p'.
Proof.
  intros (G & H & K & N & d & u & q & r & P & <- & St) [fuel ins rc b l Hb Hq Hf Hl Hs|fuel ins rc a l Hb Hq Hf Hl Hs].
  - destruct (deliver_down_run P S St fuel ins Hb Hq Hf Hl) as (rc' & b' & l' & Hs' & Hk).
    by destruct (sends_det _ _ _ _ _ _ _ _ Hs Hs') as (-> & -> & ->).
  - destruct (deliver_up_run P S St fuel ins Hb Hq Hf Hl) as (rc' & b' & l' & Hs' & Hk).
    by destruct (sends_det _ _ _ _ _ _ _ _ Hs Hs') as (-> & -> & ->).
Qed.

(** What is sent again are packets of [again]. *)
Lemma resend_out m (b : bool) :
  fine m -> down_packet (resend (out_flow b m)) (if b then Release (am_msgid m) else Data m).
Proof.
  intros Hm. destruct b; cbn.
  - split; [by apply fine_id|]. unfold resend. by rewrite bool_decide_eq_true_2.
  - exists 1. split; [lia|]. unfold resend. rewrite bool_decide_eq_false_2 by (intros [_ ?]; done). done.
Qed.

Lemma resends_some G H K N fs :
  Forall fine (G ++ H ++ K ++ N) -> fs ⊆ out_flows G H K N ->
  exists l, carries down_packet (resends fs) l /\ l ⊆ again G H K N.
Proof.
  intros HF. induction fs as [|f fs IH]; intros Hfs; [exists []; split; [apply carries_nil|set_solver]|].
  destruct IH as (l & Hl & Hin); [set_solver|]. assert (Hf : f ∈ out_flows G H K N) by set_solver.
  assert (exists x, x ∈ again G H K N /\ down_packet (resend f) x) as (x & Hx & Hp).
  { rewrite Forall_forall in HF. unfold out_flows, again in *.
    apply elem_of_app in Hf as [(m & -> & Hm)%list_elem_of_fmap|(m & -> & Hm)%list_elem_of_fmap].
    - exists (Release (am_msgid m)). split; [apply elem_of_app; left; by apply (list_elem_of_fmap_2 (fun m => Release (am_msgid m)))|].
      apply (resend_out m true), HF. set_solver.
    - exists (Data m). split; [apply elem_of_app; right; by apply list_elem_of_fmap_2|]. apply (resend_out m false), HF. set_solver. }
  exists ([x] ++ l). split; [|set_solver]. apply (carries_app _ (packet_bytes (resend f))); [by apply carries_one|done].
Qed.

Lemma resends_all G H K N :
  Forall fine (G ++ H ++ K ++ N) -> carries down_packet (resends (out_flows G H K N)) (again G H K N).
Proof.
  intros HF. exists (resend <$> out_flows G H K N). split; [|by rewrite <- list_fmap_compose]. unfold out_flows, again.
  rewrite app_assoc in HF. apply Forall_app in HF as [HF1 HF2]. rewrite fmap_app. apply Forall2_app.
  - apply Forall2_fmap, Forall2_fmap_l, Forall_Forall2_diag. eapply Forall_impl; [exact HF1|]. intros m. apply (resend_out m true).
  - apply Forall2_fmap, Forall2_fmap_l, Forall_Forall2_diag. eapply Forall_impl; [exact HF2|]. intros m. apply (resend_out m false).
Qed.

Lemma out_flows_short G H K N : Forall fine (G ++ H ++ K ++ N) -> Forall short_topic (out_flows G H K N).
Proof.
  intros HF. rewrite Forall_forall in HF. apply Forall_forall. intros f [(m & -> & Hm)%list_elem_of_fmap|(m & -> & Hm)%list_elem_of_fmap]%elem_of_app.
  - apply (HF m). set_solver.
  - apply (HF m). set_solver.
Qed.

(** An end resumes its session on a new connection. *)
Lemma resumed ack s s0 se :
  represents s se -> reconnected s s0 -> cleansession (client s) = false -> c_rc ack = MQTTASYNC_SUCCESS ->
  Forall short_topic (se_out se) ->
  exists rc s', sends (MQTTAsync_completeConnection ack) s0 rc s' (resends (se_out se)) /\ represents s' se /\ connection s' /\
    connected (client s') = true /\ good (client s') = true /\ cleansession (client s') = false.
Proof.
  intros Hr (sock & n & -> & C) Hcl Hrc Hs. set (s0 := set_nt _ _) in *. pose proof C as (_ & (w & Hw) & _).
  assert (Hr0 : represents s0 se) by by apply (represents_frame s).
  destruct (completeConnection_run ack s0 se w Hr0) as (rc & s' & E & Hr' & Hk & Hrd & Hw'); try done.
  exists rc, s'. split; [by eapply sends_intro|]. split; [done|]. injection Hk as E1 E2 E3 E4.
  split; [by eapply connection_intro|done].
Qed.

Lemma paired_disturbs S k p p' : paired S k p -> disturbs p p' -> exists k', paired S k' p'.
Proof.
  intros (G & H & K & N & d & u & q & r & P & _ & St). pose proof P as []. pose proof (out_flows_short _ _ _ _ pr_fine0) as Hshort.
  intros [now a l Hs|a0 b0 ack_a ack_b rc_a rc_b a b l k0 Ca Cb Ra Rb Hsa Hsb].
  - pose proof pr_connection_a0 as (_ & (w & Hw) & _). destruct pr_flags_a0 as (F1 & F2 & F3).
    destruct (retry_some now false (pa p) _ w pr_a0 F1 F2 Hshort Hw) as (a' & fs & E & Hr & [Hk Hrd] & Hw' & Hfs & _).
    destruct (sends_det _ _ _ _ _ _ _ _ Hs (sends_intro _ _ _ _ _ _ E Hw Hw')) as (_ & -> & <-).
    destruct (resends_some _ _ _ _ fs pr_fine0) as (x & Hx & Hin); [intros f Hf; by eapply elem_of_submseteq, sublist_submseteq|].
    eexists. eapply paired_intro; [exact St| |done]. apply (Build_pairing G H K N (d ++ x) u q r); cbn [pa pb ab ba published]; try done.
    + apply linked_again; [done|]. apply Hin.
    + by apply carries_app.
    + eapply connection_intro; [exact pr_connection_a0|by apply flags_socket|exact Hw'|exact Hrd].
    + by eapply flags_a.
  - destruct pr_flags_a0 as (_ & _ & F3).
    destruct (resumed _ _ _ _ pr_a0 Ca F3 Ra Hshort) as (ra & a' & Ea & Hra & Ca' & Fa).
    destruct (resumed _ _ _ _ pr_b0 Cb pr_flags_b0 Rb) as (rb & b' & Eb & Hrb & Cb' & Fb); [by constructor|].
    destruct (sends_det _ _ _ _ _ _ _ _ Hsa Ea) as (_ & -> & <-). destruct (sends_det _ _ _ _ _ _ _ _ Hsb Eb) as (_ & -> & <-).
    eexists. eapply paired_intro; [eapply (stuck_less _ _ _ []); [exact St|set_solver]| |done]. apply (Build_pairing G H K N (again G H K N) [] q r); cbn [pa pb ab ba published]; try done.
    + by eapply linked_lost.
    + by apply resends_all.
    + apply carries_nil.
    + apply Fb.
Qed.

Lemma paired_step S k p p' : paired S k p -> pair_step p p' -> exists k', paired S k' p'.
Proof.
  intros Hp [Hs|[Hs|Hs]]; [by eapply paired_publishes| |by eapply paired_disturbs].
  destruct (paired_delivers _ _ _ _ Hp Hs) as (k' & _ & H). by exists k'.
Qed.

Lemma paired_steps S k p p' : paired S k p -> rtc pair_step p p' -> exists k', paired S k' p'.
Proof.
  intros Hp Hr. revert k Hp. induction Hr as [p|p1 p2 p3 Hs _ IH]; intros k Hp; [by exists k|].
  destruct (paired_step _ _ _ _ Hp Hs) as [k2 Hp2]. by apply (IH k2).
Qed.

(** While bytes are on the way, a packet can arrive. *)
Lemma can_deliver S k p : paired S k p -> ab p <> [] \/ ba p <> [] -> exists p', delivers p p'.
Proof.
  intros (G & H & K & N & d & u & q & r & P & _ & St) Hne.
  assert (Hins : forall b : list Z, b <> [] -> exists ins, Forall quiet ins /\ flat ins = b /\ (length ins < 2)%nat).
  { intros [|x b] Hb; [done|]. exists [RData x b]. split; [by repeat constructor|]. split; [cbn; by rewrite app_nil_r|cbn; lia]. }
  destruct Hne as [Hne|Hne]; destruct (Hins _ Hne) as (ins & Hq & Hf & Hl).
  - destruct (deliver_down_run P S St 2 ins Hne Hq Hf Hl) as (rc & b & l & Hs & _). eexists. by eapply deliver_down.
  - destruct (deliver_up_run P S St 2 ins Hne Hq Hf Hl) as (rc & a & l & Hs & _). eexists. by eapply deliver_up.
Qed.

(** When nothing else happens, everything on the way arrives. *)
Lemma all_delivered S k p : paired S k p -> exists p', rtc delivers p p' /\ ab p' = [] /\ ba p' = [].
Proof.
  revert p. induction (lt_wf k) as [k _ IH]. intros p Hp.
  destruct (decide (ab p = [] /\ ba p = [])) as [[? ?]|Hne]; [by exists p|].
  destruct (can_deliver S k p Hp) as [p1 Hd]; [destruct (decide (ab p = [])); [right; naive_solver|by left]|].
  destruct (paired_delivers _ _ _ _ Hp Hd) as (k1 & Hk & Hp1). destruct (IH k1 Hk p1 Hp1) as (p' & Hr & E).
  exists p'. split; [by eapply rtc_l|done].
Qed.

Lemma delivers_published p p' : rtc delivers p p' -> published p' = published p.
Proof. induction 1 as [|p1 p2 p3 Hd _ IH]; [done|]. rewrite IH. by destruct Hd. Qed.

(** C6: exactly once.  Two clients keep their sessions over the connections between them.  However many
    messages are published with QoS 2, in whatever pieces the packets arrive, however often messages are
    sent again, and however often the connection is lost with everything on it: the messages passed on
    to the receiving application are at any time the first of those published, each once and in order.
    When nothing is on the way they are all of them, and what is on the way always arrives. *)
Theorem exactly_once (p0 p : pair) :
  fresh_pair p0 -> rtc pair_step p0 p ->
  passed (pb p) `prefix_of` published p /\
  (ab p = [] -> ba p = [] -> passed (pb p) = published p) /\
  exists p', rtc delivers p p' /\ ab p' = [] /\ ba p' = [] /\ passed (pb p') = published p.
Proof.
  intros H0 Hr. destruct (paired_steps [] 0 p0 p (paired_fresh p0 H0) Hr) as [k Hp].
  assert (Hlog : forall k p, paired [] k p -> passed (pb p) `prefix_of` published p /\
    (ab p = [] -> ba p = [] -> passed (pb p) = published p)).
  { clear. intros k p (G & H & K & N & d & u & q & r & P & _). destruct P. rewrite (re_passed _ _ pr_b0), pr_log0.
    split; [by eexists|]. intros Ea Eb. rewrite Ea in pr_ab0. rewrite Eb in pr_ba0.
    apply carries_empty in pr_ab0, pr_ba0. subst d u. apply linked_idle in pr_link0 as (-> & -> & ->).
    cbn. by rewrite app_nil_r. }
  destruct (Hlog k p Hp) as [Hpre Hall]. split; [done|]. split; [done|].
  destruct (all_delivered _ _ _ Hp) as (p' & Hd & Ea & Eb). exists p'. split; [done|]. split; [done|]. split; [done|].
  rewrite <- (delivers_published _ _ Hd). assert (Hr' : rtc pair_step p p').
  { eapply rtc_subrel; [|exact Hd]. intros x y ?. right. by left. }
  destruct (paired_steps _ _ _ _ Hp Hr') as [k' Hp']. by apply (Hlog k' p' Hp').
Qed.

(** C39: a message that stays.  A PUBREL is sent and sent again without the dup bit, and a PUBREL of a
    message that was passed on is answered only with it.  So what is still in flight at the publisher
    when nothing is on the way stays in flight, whatever happens, and its identifier is not free again. *)
Theorem lost_pubcomp_stays (p0 p p' : pair) :
  fresh_pair p0 -> rtc pair_step p0 p -> ab p = [] -> ba p = [] -> rtc pair_step p p' ->
  forall i, i ∈ m_msgid <$> out (pa p) -> i ∈ m_msgid <$> out (pa p').
Proof.
  intros H0 Hr Ea Eb Hr'. destruct (paired_steps [] 0 p0 p (paired_fresh p0 H0) Hr) as [k (G & H & K & N & d & u & q & r & P & _)].
  pose proof (carries_empty _ _ ltac:(rewrite <- Ea; apply P)) as ->. pose proof (carries_empty _ _ ltac:(rewrite <- Eb; apply P)) as ->.
  destruct (linked_idle _ _ _ _ (pr_link _ _ _ _ _ _ _ _ _ P)) as (-> & -> & ->).
  assert (Hp : paired (am_msgid <$> G) 0 p).
  { eapply (paired_intro _ G); [|exact P|done]. intros i Hi. split; [done|set_solver]. }
  rewrite (out_ids_parts _ _ _ _ _ _ (pr_a _ _ _ _ _ _ _ _ _ P)). cbn. rewrite app_nil_r. intros i Hi.
  destruct (paired_steps _ _ _ _ Hp Hr') as [k' (G' & H' & K' & N' & d' & u' & q' & r' & P' & _ & St)].
  rewrite (out_ids_parts _ _ _ _ _ _ (pr_a _ _ _ _ _ _ _ _ _ P')), fmap_app, elem_of_app. left. by apply St.
Qed.

(** Two connected clients whose sessions are kept. *)
Definition example_end : mqtt :=
  Mqtt (Client (str "bob") None None None 0 5 0 0 false true true false 0 0 20 0 c_zero c_zero [])
    ∅ c_zero c_zero 0 0 example_api (Net SocketBuffer_newDefQ [] [] [] None ∅ [] []) 0 [] [].

Definition example_pair : pair := Pair example_end example_end [] [] [].

Definition example_message : app_message := AppMessage (str "/sms") 4 (str "hello") 5 2 0 0 7.

Lemma example_fresh : fresh_pair example_pair.
Proof.
  assert (Hr : represents example_end (Session [] [] [])) by (apply (represents_frame example_state); [apply example_represents|done]).
  assert (Hc : connection example_end).
  { split; [done|]. split; [exists []; repeat split|]. right. split; [by constructor|]. split; [done|]. split; [done|].
    left. split; [done|]. unfold def_ok, block_ok. by split_and!. }
  split; try done. by exists [].
Qed.

(** Steps that are computed. *)
Definition sent {A} (m : M A) (s : mqtt) : option (A * mqtt * list Z) :=
  match m s with
  | Ret (a, s') =>
      let w := wire (socket (client s)) (nt s) in
      let w' := wire (socket (client s)) (nt s') in
      if decide (w' = w ++ drop (length w) w') then Some (a, s', drop (length w) w') else None
  | _ => None
  end.

Lemma sent_sends {A} (m : M A) s a s' l : sent m s = Some (a, s', l) -> sends m s a s' l.
Proof.
  unfold sent. destruct (m s) as [[a1 s1]| | |] eqn:E; [|done..]. case_decide as Ew; [|done]. intros [= <- <- <-]. by split.
Qed.

Definition run_publish (m : app_message) (p : pair) : option pair :=
  '(_, a, l) ← sent (MQTTProtocol_startPublish (MkPublish 0 (am_topic m) 0 (am_msgid m) (am_payload m) (am_payloadlen m)) 2
    (am_retained m) None) (pa p);
  Some (Pair a (pb p) (ab p ++ l) (ba p) (published p ++ [m])).

Definition run_down (p : pair) : option pair :=
  '(_, b, l) ← sent (receive 2 (socket (client (pb p)))) (arrive [RData (hd 0 (ab p)) (tl (ab p))] (pb p));
  if decide (ab p = []) then None
  else Some (Pair (pa p) b (flat (inputs (socket (client b)) (nt b))) (ba p ++ l) (published p)).

Definition run_up (p : pair) : option pair :=
  '(_, a, l) ← sent (receive 2 (socket (client (pa p)))) (arrive [RData (hd 0 (ba p)) (tl (ba p))] (pa p));
  if decide (ba p = []) then None
  else Some (Pair a (pb p) (ab p ++ l) (flat (inputs (socket (client a)) (nt a))) (published p)).

Definition new_connection (s : mqtt) : mqtt :=
  set_nt (Net SocketBuffer_newDefQ [] [] [] None ∅ [] []) (upd_client (fun c => set_connect_state 3 (set_socket 5 c)) s).

Definition run_lost (p : pair) : option pair :=
  '(_, a, l) ← sent (MQTTAsync_completeConnection (MkConnack 0x20 0 MQTTASYNC_SUCCESS)) (new_connection (pa p));
  '(_, b, k) ← sent (MQTTAsync_completeConnection (MkConnack 0x20 0 MQTTASYNC_SUCCESS)) (new_connection (pb p));
  Some (Pair a b l k (published p)).

Lemma run_publish_step m p p' :
  fine m -> am_msgid m ∉ m_msgid <$> out (pa p) -> run_publish m p = Some p' -> pair_step p p'.
Proof.
  unfold run_publish. intros Hm Hnew. destruct (sent _ _) as [[[rc a] l]|] eqn:E; [|done]. intros [= <-].
  left. by eapply publish, sent_sends.
Qed.

Lemma run_down_step p p' : run_down p = Some p' -> pair_step p p'.
Proof.
  unfold run_down. destruct (sent _ _) as [[[rc b] l]|] eqn:E; [|done]. cbn. case_decide as Hne; [done|]. intros [= <-].
  right. left. eapply (deliver_down p 2); [done| | | |by apply sent_sends]; [by repeat constructor| |cbn; lia].
  destruct (ab p); [done|]. cbn. by rewrite app_nil_r.
Qed.

Lemma run_up_step p p' : run_up p = Some p' -> pair_step p p'.
Proof.
  unfold run_up. destruct (sent _ _) as [[[rc a] l]|] eqn:E; [|done]. cbn. case_decide as Hne; [done|]. intros [= <-].
  right. left. eapply (deliver_up p 2); [done| | | |by apply sent_sends]; [by repeat constructor| |cbn; lia].
  destruct (ba p); [done|]. cbn. by rewrite app_nil_r.
Qed.

Lemma new_connection_ok s : reconnected s (new_connection s).
Proof.
  exists 5. eexists. split; [done|]. split; [done|]. split; [exists []; repeat split|]. right. split; [by constructor|].
  split; [done|]. split; [done|]. left. split; [done|]. unfold def_ok, block_ok. by split_and!.
Qed.

Lemma run_lost_step p p' : run_lost p = Some p' -> pair_step p p'.
Proof.
  unfold run_lost. destruct (sent _ (new_connection (pa p))) as [[[ra a] l]|] eqn:Ea; [|done]. cbn.
  destruct (sent _ (new_connection (pb p))) as [[[rb b] k]|] eqn:Eb; [|done]. intros [= <-].
  right. right. by eapply lost; try apply new_connection_ok; try (by apply sent_sends).
Qed.

(** A message is published and lost with the connection; it is sent again and arrives. *)
Definition example_lost_once : option pair :=
  p ← run_publish example_message example_pair; p ← run_lost p; p ← run_down p; run_up p.

(** The PUBCOMP of the message is lost; the PUBREL that is sent again is not answered. *)
Definition example_stays : option pair :=
  p ← example_lost_once; p ← run_down p; p ← run_lost p; run_down p.

Lemma example_fine : fine example_message.
Proof. unfold fine, short. cbn. split_and!; try lia; try done. decide_all. Qed.

(** The steps of a run are steps of the pair. *)
Ltac run_steps :=
  repeat match goal with
  | H : _ ≫= _ = Some _ |- _ => apply bind_Some in H as (? & ? & H)
  | H : run_lost ?p = Some _ |- _ => apply run_lost_step in H
  | H : run_down ?p = Some _ |- _ => apply run_down_step in H
  | H : run_up ?p = Some _ |- _ => apply run_up_step in H
  | H : run_publish _ _ = Some _ |- _ => apply run_publish_step in H; [|exact example_fine|set_solver]
  end.

Lemma example_lost_reachable p : example_lost_once = Some p -> rtc pair_step example_pair p.
Proof. unfold example_lost_once. intros H. run_steps. by do 4 (eapply rtc_l; [done|]). Qed.

Lemma example_stays_reachable p : example_stays = Some p -> rtc pair_step example_pair p.
Proof.
  unfold example_stays. intros H. apply bind_Some in H as (p1 & H1 & H). run_steps.
  etrans; [by apply example_lost_reachable|]. by do 3 (eapply rtc_l; [done|]).
Qed.

Lemma exactly_once_witness :
  exists p, example_lost_once = Some p /\ length (ab p) = 4%nat /\ passed (pb p) = [] /\
    exists p', rtc delivers p p' /\ ab p' = [] /\ ba p' = [] /\ passed (pb p') = [example_message].
Proof.
  destruct example_lost_once as [p|] eqn:E; [|vm_compute in E; discriminate]. exists p. split; [reflexivity|].
  pose proof (example_lost_reachable p E) as Hr. destruct (exactly_once example_pair p example_fresh Hr) as (_ & _ & H).
  vm_compute in E. injection E as <-. split; [reflexivity|]. split; [reflexivity|]. exact H.
Defined.

Lemma lost_pubcomp_stays_witness :
  exists p, example_stays = Some p /\ passed (pb p) = [example_message] /\
    (forall p', rtc pair_step p p' -> 7 ∈ m_msgid <$> out (pa p')).
Proof.
  destruct example_stays as [p|] eqn:E; [|vm_compute in E; discriminate]. exists p. split; [reflexivity|].
  pose proof (example_stays_reachable p E) as Hr.
  vm_compute in E. injection E as <-. split; [reflexivity|]. intros p' Hr'.
  apply (lost_pubcomp_stays example_pair _ p' example_fresh Hr); [reflexivity|reflexivity|exact Hr'|].
  apply list_elem_of_here.
Defined.
