(* ===== verification/Store.v ===== *)
(** * Store: the store of the persisted messages as the MQTT client uses it (MQTTClientPersistence.h)

    The functions of an [MQTTClient_persistence], what their documentation promises, and the keys of
    the records.  [PersistFile] models the functions the library brings along; an application can pass
    its own. *)

From Stdlib Require Import ZArith Lia String Ascii.
From stdpp Require Import base tactics numbers list gmap pretty.
From S2P Require Import Prelude.

(** ** Decimal numbers *)

Lemma str_app a b : str (a +:+ b) = str a ++ str b.
Proof.
  induction a as [|c a IH]; [done|]. change (str (String c a +:+ b)) with (Z.of_N (N_of_ascii c) :: str (a +:+ b)).
  by rewrite IH.
Qed.

Lemma pretty_go_app x : forall s, pretty_N_go x s = pretty_N_go x "" +:+ s.
Proof.
  induction (N.lt_wf_0 x) as [x _ IH]; intros s. destruct (decide (x = 0%N)) as [->|Hx]; [done|].
  rewrite !(pretty_N_go_step x) by lia. assert (Hlt : (x `div` 10 < x)%N) by (apply N.div_lt; lia).
  rewrite (IH _ Hlt (String _ s)), (IH _ Hlt (String _ "")).
  generalize (pretty_N_go (x `div` 10) ""). intros t. induction t as [|c t IHt]; [done|].
  exact (f_equal (String c) IHt).
Qed.

Lemma digit_char d : (d < 10)%N -> Z.of_N (N_of_ascii (pretty_N_char d)) = 48 + Z.of_N d.
Proof.
  intros H. assert (Hd : d ∈ [0;1;2;3;4;5;6;7;8;9]%N) by (rewrite !elem_of_cons; lia).
  repeat (apply elem_of_cons in Hd as [->|Hd]; [done|]). by apply elem_of_nil in Hd.
Qed.

Lemma decimal_digit n : 0 <= n < 10 -> decimal n = [48 + n].
Proof.
  intros H. assert (Hd : n ∈ [0;1;2;3;4;5;6;7;8;9]) by (rewrite !elem_of_cons; lia).
  repeat (apply elem_of_cons in Hd as [->|Hd]; [done|]). by apply elem_of_nil in Hd.
Qed.

(** The last digit of a number with several. *)
Lemma decimal_step n : 10 <= n -> decimal n = decimal (n / 10) ++ [48 + n mod 10].
Proof.
  intros H. assert (Hp : forall x, 0 < x -> decimal x = str (pretty_N_go (Z.to_N x) "")).
  { intros [|p|p] Hx; try lia. done. }
  rewrite (Hp n), (Hp (n / 10)) by (Z.to_euclidean_division_equations; lia).
  rewrite pretty_N_go_step, pretty_go_app, str_app by lia.
  rewrite Z2N.inj_div by lia. f_equal.
  unfold str at 1. simpl. f_equal. rewrite digit_char by (apply N.mod_lt; lia).
  rewrite N2Z.inj_mod, Z2N.id by lia. done.
Qed.

Lemma decimal_inj a b : decimal a = decimal b -> a = b.
Proof.
  intros H. apply (inj (pretty (A:=Z))). revert H. unfold decimal. generalize (pretty a), (pretty b).
  induction s as [|c s IH]; intros [|c' t]; intros H; try done. injection H as Hc H.
  apply N2Z.inj in Hc. f_equal; [|by apply IH]. by rewrite <- (ascii_N_embedding c), Hc, ascii_N_embedding.
Qed.

(** [atoi] of a string of digits, and the digits of a number. *)
Definition is_digit (c : Z) : Prop := 48 <= c <= 57.

Fixpoint digits_value (acc : Z) (s : list Z) : Z :=
  match s with
  | [] => acc
  | c :: s' => if (48 <=? c) && (c <=? 57) then digits_value (10 * acc + (c - 48)) s' else acc
  end.

Lemma digits_value_app s : forall acc t, Forall is_digit s -> digits_value acc (s ++ t) = digits_value (digits_value acc s) t.
Proof.
  induction s as [|c s IH]; intros acc t H; [done|]. apply Forall_cons in H as [[H1 H2] H]. simpl.
  apply Z.leb_le in H1, H2. rewrite H1, H2. simpl. by apply IH.
Qed.

Lemma decimal_spec n : 0 <= n -> Forall is_digit (decimal n) /\ digits_value 0 (decimal n) = n.
Proof.
  induction n as [n IH] using (well_founded_ind (Z.lt_wf 0)). intros Hn.
  destruct (decide (n < 10)).
  - rewrite decimal_digit by lia. split; [by repeat constructor; lia|]. cbn [digits_value].
    rewrite !(proj2 (Z.leb_le _ _)) by lia. cbn. lia.
  - rewrite decimal_step by lia. destruct (IH (n / 10)) as [Hd Hv]; [divlia|divlia|].
    assert (Hl : is_digit (48 + n mod 10)) by (unfold is_digit; divlia). split.
    + apply Forall_app. split; [done|]. by apply Forall_singleton.
    + rewrite digits_value_app, Hv by done. cbn [digits_value]. destruct Hl.
      rewrite !(proj2 (Z.leb_le _ _)) by lia. cbn. divlia.
Qed.

(** The number of digits. *)
Lemma decimal_length n k : 0 <= n -> (0 < k)%nat -> (length (decimal n) <= k)%nat <-> n < 10 ^ Z.of_nat k.
Proof.
  revert k. induction n as [n IH] using (well_founded_ind (Z.lt_wf 0)). intros k Hn Hk.
  destruct (decide (n < 10)).
  - rewrite decimal_digit by lia. cbn. assert (10 ^ 1 <= 10 ^ Z.of_nat k) by (apply Z.pow_le_mono_r; lia). lia.
  - rewrite decimal_step, length_app by lia. cbn [length]. destruct k as [|[|k]]; [lia| |].
    + assert (0 < length (decimal (n / 10)))%nat; [|cbn; lia]. apply Nat.neq_0_lt_0. intros E.
      apply nil_length_inv in E. destruct (decimal_spec (n / 10)) as [_ H]; [divlia|]. rewrite E in H.
      cbn in H. divlia.
    + rewrite Nat2Z.inj_succ, Z.pow_succ_r by lia. specialize (IH (n / 10) ltac:(divlia) (S k) ltac:(divlia) ltac:(lia)).
      divlia.
Qed.

(** [atoi]: no white space or sign occurs in a key. *)
Definition atoi (s : list Z) : Z := digits_value 0 s.

(** ** Keys *)

Definition PERSISTENCE_PUBLISH_SENT : list Z := str "s-".
Definition PERSISTENCE_PUBREL : list Z := str "sc-".
Definition PERSISTENCE_PUBLISH_RECEIVED : list Z := str "r-".
Definition PERSISTENCE_COMMAND_KEY : list Z := str "c-".
Definition PERSISTENCE_QUEUE_KEY : list Z := str "q-".
Definition PERSISTENCE_MAX_KEY_LENGTH : nat := 8.
Definition MESSAGE_FILENAME_LENGTH : nat := 8.

(** The key of a record. *)
Definition key (stem : list Z) (n : Z) : list Z := stem ++ decimal n.

(** [sprintf (key, "%s%d", stem, n)] into a block of [MESSAGE_FILENAME_LENGTH + 1] or
    [PERSISTENCE_MAX_KEY_LENGTH + 1] bytes. *)
Definition sprintf_key (stem : list Z) (n : Z) : outcome (list Z) :=
  if bool_decide (length (key stem n) <= PERSISTENCE_MAX_KEY_LENGTH)%nat then Ret (key stem n) else Fault.

(** The bytes of keys: lower case letters, digits and the hyphen. *)
Definition key_byte (c : Z) : Prop := is_digit c \/ c = 45 \/ 97 <= c <= 122.
Definition is_key (k : list Z) : Prop := k <> [] /\ Forall key_byte k.

#[export] Instance is_digit_dec c : Decision (is_digit c).
Proof. unfold is_digit. apply _. Defined.
#[export] Instance is_key_dec k : Decision (is_key k).
Proof. unfold is_key, key_byte. apply _. Defined.

(** ** The functions *)

Definition MQTTCLIENT_PERSISTENCE_ERROR : Z := -2.

(** [H] are the handles, [None] is NULL; [W] is the world the functions change. *)
Record MQTTClient_persistence (H W : Type) : Type := MkPersistence {
  popen : list Z -> list Z -> W -> outcome (Z * option H * W);
  pclose : option H -> W -> outcome (Z * W);
  pput : option H -> list Z -> list (list Z) -> W -> outcome (Z * W);
  pget : option H -> list Z -> W -> outcome (Z * option (list Z) * W);
  premove : option H -> list Z -> W -> outcome (Z * W);
  pkeys : option H -> W -> outcome (Z * list (list Z) * W);
  pclear : option H -> W -> outcome (Z * W);
  pcontainskey : option H -> list Z -> W -> outcome (Z * W)
}.
Arguments MkPersistence {H W}.
Arguments popen {H W}.
Arguments pclose {H W}.
Arguments pput {H W}.
Arguments pget {H W}.
Arguments premove {H W}.
Arguments pkeys {H W}.
Arguments pclear {H W}.
Arguments pcontainskey {H W}.

(** ** What they promise

    [holds h w m]: behind the handle are the records [m].  In a [healthy] world nothing fails; in any
    other one a function that fails returns [MQTTCLIENT_PERSISTENCE_ERROR], and [pput] may lose the
    record it writes, but no other one. *)
Class Persistence {H W : Type} (per : MQTTClient_persistence H W) : Type := {
  holds : H -> W -> gmap (list Z) (list Z) -> Prop;
  healthy : W -> Prop;
  holds_keys h w m k : holds h w m -> is_Some (m !! k) -> is_key k;
  put_law h w m k bufs : holds h w m -> is_key k ->
    exists rc w', pput per (Some h) k bufs w = Ret (rc, w') /\ (rc = 0 \/ rc = MQTTCLIENT_PERSISTENCE_ERROR) /\
      (exists m', holds h w' m' /\ delete k m' = delete k m) /\
      (healthy w -> rc = 0 /\ healthy w' /\ holds h w' (<[k := concat bufs]> m));
  get_law h w m k : holds h w m -> is_key k ->
    exists rc b w', pget per (Some h) k w = Ret (rc, b, w') /\ holds h w' m /\
      (rc = 0 \/ rc = MQTTCLIENT_PERSISTENCE_ERROR) /\ (rc = 0 -> b = m !! k /\ is_Some b) /\
      (healthy w -> healthy w' /\ (is_Some (m !! k) -> rc = 0));
  remove_law h w m k : holds h w m -> is_key k ->
    exists rc w', premove per (Some h) k w = Ret (rc, w') /\ (rc = 0 \/ rc = MQTTCLIENT_PERSISTENCE_ERROR) /\
      holds h w' (if rc =? 0 then delete k m else m) /\ (healthy w -> rc = 0 /\ healthy w');
  keys_law h w m : holds h w m ->
    exists rc ks w', pkeys per (Some h) w = Ret (rc, ks, w') /\ holds h w' m /\
      (rc = 0 \/ rc = MQTTCLIENT_PERSISTENCE_ERROR) /\ (rc = 0 -> ks ≡ₚ (map_to_list m).*1) /\
      (healthy w -> rc = 0 /\ healthy w');
  containskey_law h w m k : holds h w m -> is_key k ->
    exists rc w', pcontainskey per (Some h) k w = Ret (rc, w') /\ holds h w' m /\
      (rc = 0 \/ rc = MQTTCLIENT_PERSISTENCE_ERROR) /\ (rc = 0 -> is_Some (m !! k)) /\
      (healthy w -> healthy w' /\ (is_Some (m !! k) -> rc = 0))
}.

(** ** Keys of different records *)

Lemma key_id_inj stem a b : key stem a = key stem b -> a = b.
Proof. unfold key. intros H. by apply app_inv_head, decimal_inj in H. Qed.

(** A stem that ends in the first hyphen of the key is found again. *)
Lemma key_stem_inj s1 s2 a b :
  Forall (fun c => c <> 45) s1 -> Forall (fun c => c <> 45) s2 -> key (s1 ++ [45]) a = key (s2 ++ [45]) b -> s1 = s2.
Proof.
  unfold key. rewrite <- !app_assoc. intros H1. revert s2. induction H1 as [|c s1 Hc _ IH]; intros [|c2 s2] H2 E; try done.
  - injection E as E _. subst. by apply Forall_cons in H2 as [? _].
  - by injection E as E _.
  - apply Forall_cons in H2 as [? H2]. injection E as -> E. f_equal. by apply IH.
Qed.

Lemma key_ok stem n : 0 <= n -> stem <> [] -> Forall key_byte stem -> is_key (key stem n).
Proof.
  intros Hn Hs Hf. split; [by destruct stem|]. apply Forall_app. split; [done|].
  eapply Forall_impl; [by apply decimal_spec|]. intros c Hc. by left.
Qed.

Lemma sprintf_key_eq stem n :
  0 <= n < 10 ^ Z.of_nat (8 - length stem) -> (length stem < 8)%nat -> sprintf_key stem n = Ret (key stem n).
Proof.
  intros Hn Hs. unfold sprintf_key, key. rewrite bool_decide_eq_true_2; [done|].
  rewrite length_app. change PERSISTENCE_MAX_KEY_LENGTH with 8%nat.
  assert (length (decimal n) <= 8 - length stem)%nat; [|lia]. apply decimal_length; lia.
Qed.

(** Seven digits do not fit behind a stem of two bytes. *)
Lemma sprintf_key_overflow stem n : length stem = 2%nat -> 10 ^ 6 <= n -> sprintf_key stem n = Fault.
Proof.
  intros Hs Hn. unfold sprintf_key, key. rewrite bool_decide_eq_false_2; [done|]. rewrite length_app, Hs.
  change PERSISTENCE_MAX_KEY_LENGTH with 8%nat. intros Hl.
  assert (n < 10 ^ Z.of_nat 6); [|lia]. apply decimal_length; lia.
Qed.
