(* ===== verification/PersistFile.v ===== *)
(** * PersistFile: the store in files (MQTTPersistenceDefault.c, without Windows)

    One file per record, [clientDir/key.msg].  The file system is a map from paths to contents and a set
    of directories; a relative path is not the same as the absolute one.  A call of the operating
    system that is not successful takes the next of the [faults].  The order of [readdir] is a
    parameter. *)

From Stdlib Require Import ZArith Lia String Ascii.
From stdpp Require Import base tactics numbers list gmap.
From S2P Require Import Prelude Store.

Definition path : Type := list Z.

(** What becomes of a call: it succeeds, fails, or writes only some bytes. *)
Inductive fault : Type := FOk | FFail | FShort (n : nat).

Record fs : Type := Fs {
  files : gmap path (list Z);
  dirs : gset path;
  faults : list fault
}.

Definition slash : Z := 47.
Definition MESSAGE_FILENAME_EXTENSION : list Z := str ".msg".

(** The order in which [readdir] gives the entries of a directory. *)
Class Readdir : Type := {
  readdir_order : list path -> list path;
  readdir_perm l : readdir_order l ≡ₚ l
}.

(** The outcome of the next call of the operating system. *)
Definition next_fault (w : fs) : fault * fs :=
  match faults w with
  | [] => (FOk, w)
  | f :: l => (f, Fs (files w) (dirs w) l)
  end.

Definition set_files (f : gmap path (list Z)) (w : fs) : fs := Fs f (dirs w) (faults w).
Definition set_dirs (d : gset path) (w : fs) : fs := Fs (files w) d (faults w).

(** ** The operating system *)

(** [clientDir/name]. *)
Definition in_dir (dir name : path) : path := dir ++ [slash] ++ name.

(** The name of a path in a directory: what follows [dir/], without a slash. *)
Definition name_in (dir p : path) : option path :=
  if bool_decide (take (S (length dir)) p = dir ++ [slash]) then
    let name := drop (S (length dir)) p in
    if bool_decide (slash ∈ name \/ name = []) then None else Some name
  else None.

(** The directory a path is in and the name there; a path without a slash is in the working directory. *)
Definition split_path (p : path) : option path * path :=
  match list_find (fun c => c = slash) (reverse p) with
  | Some (i, _) => (Some (reverse (drop (S i) (reverse p))), reverse (take i (reverse p)))
  | None => (None, p)
  end.

Definition parent_exists (p : path) (w : fs) : bool :=
  match fst (split_path p) with Some d => bool_decide (d ∈ dirs w) | None => true end.

(** [mkdir]: 0, or -1 and whether [errno] is [EEXIST]. *)
Definition mkdir (p : path) (w : fs) : Z * bool * fs :=
  if bool_decide (p ∈ dirs w) || bool_decide (is_Some (files w !! p)) then (-1, true, w)
  else if negb (parent_exists p w) then (-1, false, w)
  else match next_fault w with
       | (FOk, w1) => (0, false, set_dirs ({[p]} ∪ dirs w1) w1)
       | (_, w1) => (-1, false, w1)
       end.

(** [fopen (file, "wb")]: the file is empty now; [false] is NULL. *)
Definition fopen_wb (p : path) (w : fs) : bool * fs :=
  if negb (parent_exists p w) || bool_decide (p ∈ dirs w) then (false, w)
  else match next_fault w with
       | (FOk, w1) => (true, set_files (<[p := []]> (files w1)) w1)
       | (_, w1) => (false, w1)
       end.

(** [fwrite] to the file [p]: the number of bytes written. *)
Definition fwrite (p : path) (buf : list Z) (w : fs) : nat * fs :=
  let (f, w1) := next_fault w in
  let n := match f with FOk => length buf | FFail => O | FShort n => Nat.min n (length buf) end in
  (n, set_files (alter (fun c => c ++ take n buf) p (files w1)) w1).

(** [fclose], which writes what is still in the buffer of the stream; its result is not looked at. *)
Definition fclose (p : path) (w : fs) : fs :=
  match next_fault w with
  | (FOk, w1) => w1
  | (FFail, w1) => set_files (alter (fun _ => []) p (files w1)) w1
  | (FShort n, w1) => set_files (alter (take n) p (files w1)) w1
  end.

(** [fopen (file, "rb")], [fread] of the whole file: NULL, or the bytes read and the length. *)
Definition fread_all (p : path) (w : fs) : option (list Z * nat) * fs :=
  match files w !! p with
  | None => (None, w)
  | Some c =>
      match next_fault w with
      | (FFail, w1) => (None, w1)
      | (FShort n, w1) => (Some (take n c, length c), w1)
      | (FOk, w1) => (Some (c, length c), w1)
      end
  end.

(** [unlink]: 0, or -1 and whether [errno] is [ENOENT]. *)
Definition unlink (p : path) (w : fs) : Z * bool * fs :=
  match files w !! p with
  | None => (-1, true, w)
  | Some _ =>
      match next_fault w with
      | (FOk, w1) => (0, false, set_files (delete p (files w1)) w1)
      | (_, w1) => (-1, false, w1)
      end
  end.

(** The names of the files in a directory, and of the directories. *)
Definition file_names (dir : path) (w : fs) : list path := omap (name_in dir) ((map_to_list (files w)).*1).
Definition dir_names (dir : path) (w : fs) : list path := omap (name_in dir) (elements (dirs w)).

(** [opendir] and the [readdir] calls: the entries in order, or NULL. *)
Definition readdir `{Readdir} (dir : path) (w : fs) : option (list path) * fs :=
  if bool_decide (dir ∈ dirs w) then
    match next_fault w with
    | (FOk, w1) => (Some (readdir_order ([str "."; str ".."] ++ dir_names dir w ++ file_names dir w)), w1)
    | (_, w1) => (None, w1)
    end
  else (None, w).

(** [rmdir]: 0, or -1 and whether [errno] is [ENOENT] or [ENOTEMPTY]. *)
Definition rmdir (p : path) (w : fs) : Z * bool * fs :=
  if negb (bool_decide (p ∈ dirs w)) then (-1, true, w)
  else if negb (bool_decide (file_names p w = [] /\ dir_names p w = [])) then (-1, true, w)
  else match next_fault w with
       | (FOk, w1) => (0, false, set_dirs (dirs w1 ∖ {[p]}) w1)
       | (_, w1) => (-1, false, w1)
       end.

(** [S_ISREG] of the [st_mode] that [lstat] gives; [None] when there is no such file. *)
Definition lstat (p : path) (w : fs) : option bool :=
  if bool_decide (snd (split_path p) = str "." \/ snd (split_path p) = str "..") then Some false
  else match files w !! p with
       | Some _ => Some true
       | None => if bool_decide (p ∈ dirs w) then Some false else None
       end.

(** ** Making the directories *)

Definition pstmkdir (pPathname : path) (w : fs) : Z * fs :=
  let '(rc, eexist, w1) := mkdir pPathname w in
  (if negb (rc =? 0) && negb eexist then MQTTCLIENT_PERSISTENCE_ERROR else 0, w1).

(** The tokens of [strtok_r (path)]. *)
Fixpoint strtok (token p : path) : list path :=
  match p with
  | [] => match token with [] => [] | _ => [token] end
  | c :: p' =>
      if bool_decide (c = slash \/ c = 92) then match token with [] => strtok [] p' | _ => token :: strtok [] p' end
      else strtok (token ++ [c]) p'
  end.

(** The loop of [pstopen]; the [sprintf] that appends to its own argument is taken to append. *)
Fixpoint mkdir_loop (tokens : list path) (pCrtDirName : path) (w : fs) : Z * fs :=
  match tokens with
  | [] => (0, w)
  | pToken :: tokens' =>
      let dir := in_dir pCrtDirName pToken in
      let (rc, w1) := pstmkdir dir w in
      if rc =? 0 then mkdir_loop tokens' dir w1 else (rc, w1)
  end.

(** The first colon of the URI made a hyphen; without one, a NULL pointer is written to. *)
Definition perserverURI (serverURI : list Z) : outcome (list Z) :=
  let! i := deref (strstr serverURI (str ":")) in Ret (<[i := 45]> serverURI).

Definition client_dir (dataDir clientID uri : list Z) : path := dataDir ++ [slash] ++ clientID ++ [45] ++ uri.

Definition pstopen (dataDir : path) (clientID serverURI : list Z) (w : fs) : outcome (Z * option path * fs) :=
  let! uri := perserverURI serverURI in
  let clientDir := client_dir dataDir clientID uri in
  match strtok [] clientDir with
  | [] => Fault
  | pToken :: tokens =>
      let (rc, w1) := pstmkdir pToken w in
      let (rc1, w2) := if rc =? 0 then mkdir_loop tokens pToken w1 else (rc, w1) in
      Ret (rc1, Some clientDir, w2)
  end.

(** ** Records *)

Definition record_file (dir key : path) : path := in_dir dir (key ++ MESSAGE_FILENAME_EXTENSION).

Definition pstremove (handle : option path) (key : list Z) (w : fs) : outcome (Z * fs) :=
  match handle with
  | None => Ret (MQTTCLIENT_PERSISTENCE_ERROR, w)
  | Some clientDir =>
      let '(rc, enoent, w1) := unlink (record_file clientDir key) w in
      Ret (if negb (rc =? 0) && negb enoent then MQTTCLIENT_PERSISTENCE_ERROR else 0, w1)
  end.

(** The loop of [pstput] over the buffers: the bytes written. *)
Fixpoint write_loop (file : path) (buffers : list (list Z)) (w : fs) : nat * fs :=
  match buffers with
  | [] => (O, w)
  | b :: buffers' =>
      let (n, w1) := fwrite file b w in
      let (m, w2) := write_loop file buffers' w1 in ((n + m)%nat, w2)
  end.

Definition pstput (handle : option path) (key : list Z) (buffers : list (list Z)) (w : fs) : outcome (Z * fs) :=
  match handle with
  | None => Ret (MQTTCLIENT_PERSISTENCE_ERROR, w)
  | Some clientDir =>
      let file := record_file clientDir key in
      let (fp, w1) := fopen_wb file w in
      if fp then
        let (bytesWritten, w1') := write_loop file buffers w1 in
        let w2 := fclose file w1' in
        if bool_decide (bytesWritten = sum_list (length <$> buffers)) then Ret (0, w2)
        else let! (_, w3) := pstremove handle key w2 in Ret (MQTTCLIENT_PERSISTENCE_ERROR, w3)
      else Ret (MQTTCLIENT_PERSISTENCE_ERROR, w1)
  end.

Definition pstget (handle : option path) (key : list Z) (w : fs) : outcome (Z * option (list Z) * fs) :=
  match handle with
  | None => Ret (MQTTCLIENT_PERSISTENCE_ERROR, None, w)
  | Some clientDir =>
      let (r, w1) := fread_all (record_file clientDir key) w in
      match r with
      | None => Ret (MQTTCLIENT_PERSISTENCE_ERROR, None, w1)
      | Some (buf, fileLen) =>
          Ret (if bool_decide (length buf = fileLen) then 0 else MQTTCLIENT_PERSISTENCE_ERROR, Some buf, w1)
      end
  end.

Definition pstclose (handle : option path) (w : fs) : outcome (Z * fs) :=
  match handle with
  | None => Ret (MQTTCLIENT_PERSISTENCE_ERROR, w)
  | Some clientDir =>
      let '(rc, harmless, w1) := rmdir clientDir w in
      Ret (if negb (rc =? 0) && negb harmless then MQTTCLIENT_PERSISTENCE_ERROR else 0, w1)
  end.

(** A file name up to its extension. *)
Definition filekey (name : path) : list Z :=
  match strstr name MESSAGE_FILENAME_EXTENSION with Some i => take i name | None => name end.

(** The loop of [containskeyUnix]; [st] is the [stat_info] of the entry before, and is read when
    [lstat] failed. *)
Fixpoint containskey_loop (dirname : path) (key : list Z) (entries : list path) (st : option bool) (w : fs) :
    outcome Z :=
  match entries with
  | [] => Ret MQTTCLIENT_PERSISTENCE_ERROR
  | d_name :: entries' =>
      let st1 := match lstat (in_dir dirname d_name) w with Some b => Some b | None => st end in
      let! isreg := deref st1 in
      if isreg && bool_decide (filekey d_name = key) then Ret 0
      else containskey_loop dirname key entries' st1 w
  end.

Section Directory.
Context `{Readdir}.

Definition containskeyUnix (dirname : path) (key : list Z) (w : fs) : outcome (Z * fs) :=
  match readdir dirname w with
  | (Some entries, w1) => let! notFound := containskey_loop dirname key entries None w1 in Ret (notFound, w1)
  | (None, w1) => Ret (MQTTCLIENT_PERSISTENCE_ERROR, w1)
  end.

Definition pstcontainskey (handle : option path) (key : list Z) (w : fs) : outcome (Z * fs) :=
  match handle with
  | None => Ret (MQTTCLIENT_PERSISTENCE_ERROR, w)
  | Some clientDir => containskeyUnix clientDir key w
  end.

(** The loop of [clearUnix], which gives [lstat] and [remove] the bare names. *)
Fixpoint clear_loop (entries : list path) (st : option bool) (w : fs) : outcome (Z * fs) :=
  match entries with
  | [] => Ret (0, w)
  | d_name :: entries' =>
      let st1 := match lstat d_name w with Some b => Some b | None => st end in
      let! isreg := deref st1 in
      if isreg then
        let '(rc, _, w1) := unlink d_name w in
        if rc =? 0 then clear_loop entries' st1 w1 else Ret (MQTTCLIENT_PERSISTENCE_ERROR, w1)
      else clear_loop entries' st1 w
  end.

Definition clearUnix (dirname : path) (w : fs) : outcome (Z * fs) :=
  match readdir dirname w with
  | (Some entries, w1) => clear_loop entries None w1
  | (None, w1) => Ret (MQTTCLIENT_PERSISTENCE_ERROR, w1)
  end.

Definition pstclear (handle : option path) (w : fs) : outcome (Z * fs) :=
  match handle with
  | None => Ret (MQTTCLIENT_PERSISTENCE_ERROR, w)
  | Some clientDir => clearUnix clientDir w
  end.

(** The entries that are regular files. *)
Definition regular (dirname : path) (entries : list path) (w : fs) : list path :=
  filter (fun d_name => lstat (in_dir dirname d_name) w = Some true) entries.

(** The directory is read twice, to count the keys and to copy them; the array has room for those
    that were counted. *)
Definition keysUnix (dirname : path) (w : fs) : outcome (Z * list (list Z) * fs) :=
  match readdir dirname w with
  | (None, w1) => Ret (MQTTCLIENT_PERSISTENCE_ERROR, [], w1)
  | (Some entries, w1) =>
      let nfkeys := length (regular dirname entries w1) in
      if bool_decide (nfkeys = 0%nat) then Ret (0, [], w1)
      else match readdir dirname w1 with
           | (None, w2) => Ret (MQTTCLIENT_PERSISTENCE_ERROR, [], w2)
           | (Some entries2, w2) =>
               let fkeys := filekey <$> regular dirname entries2 w2 in
               if bool_decide (length fkeys <= nfkeys)%nat then Ret (0, fkeys, w2) else Fault
           end
  end.

Definition pstkeys (handle : option path) (w : fs) : outcome (Z * list (list Z) * fs) :=
  match handle with
  | None => Ret (MQTTCLIENT_PERSISTENCE_ERROR, [], w)
  | Some clientDir => keysUnix clientDir w
  end.

(** The functions [MQTTPersistence_create] enters into the structure; the context is the directory. *)
Definition file_persistence (context : path) : MQTTClient_persistence path fs :=
  MkPersistence (pstopen context) pstclose pstput pstget pstremove pstkeys pstclear pstcontainskey.
End Directory.
