(* ===== verification/PersistFileSpec.v ===== *)
(** * PersistFileSpec: the files keep what the store promises

    The functions of [PersistFile] are an instance of the interface [Persistence]: behind a directory
    that holds the files of a map of records, they behave as that map does.  The calls that fail, the
    directories [pstopen] makes, and what [pstclear] does instead of clearing. *)

From Stdlib Require Import ZArith Lia String Ascii.
From stdpp Require Import base tactics numbers list gmap.
From S2P Require Import Prelude Store PersistFile.

(** ** Paths and names *)

(** The name of an entry of a directory. *)
Definition is_name (n : path) : Prop := slash ∉ n /\ n <> [].

Lemma split_in_dir dir name : slash ∉ name -> split_path (in_dir dir name) = (Some dir, name).
Proof.
  intros Hn. unfold split_path, in_dir. rewrite !reverse_app, reverse_singleton, <- app_assoc.
  assert (E : list_find (fun c => c = slash) (reverse name ++ [slash] ++ reverse dir) = Some (length (reverse name), slash)).
  { apply list_find_Some. split; [by rewrite lookup_app_r, Nat.sub_diag|]. split; [done|].
    intros j c Hj Hlt ->. apply Hn. rewrite <- elem_of_reverse. rewrite lookup_app_l in Hj by done.
    by eapply list_elem_of_lookup_2. }
  rewrite E. rewrite take_app_length. f_equal; [|by rewrite reverse_involutive]. f_equal.
  replace (S (length (reverse name))) with (length (reverse name ++ [slash])) by (rewrite length_app; simpl; lia).
  rewrite app_assoc, drop_app_length. apply reverse_involutive.
Qed.

Lemma name_in_spec dir p name : name_in dir p = Some name <-> p = in_dir dir name /\ is_name name.
Proof.
  unfold name_in, in_dir, is_name. assert (Hl : length (dir ++ [slash]) = S (length dir)) by (rewrite length_app; simpl; lia).
  rewrite app_assoc. split.
  - case_bool_decide as E; [|done]. case_bool_decide as E2; [done|]. intros [= <-].
    split; [by rewrite <- E, take_drop|]. tauto.
  - intros [-> [H1 H2]]. rewrite <- Hl, take_app_length, drop_app_length.
    rewrite bool_decide_eq_true_2 by done. rewrite bool_decide_eq_false_2; [done|]. tauto.
Qed.

Lemma in_dir_inj dir a b : in_dir dir a = in_dir dir b -> a = b.
Proof. unfold in_dir. intros E. by apply app_inv_head, app_inv_head in E. Qed.

Lemma key_no_dot k : is_key k -> slash ∉ k /\ 46 ∉ k.
Proof.
  intros [_ Hf]. rewrite Forall_forall in Hf. unfold key_byte, is_digit in Hf. unfold slash.
  split; intros Hi; apply Hf in Hi; lia.
Qed.

(** Keys and the names of their files. *)
Lemma key_name k : is_key k -> is_name (k ++ MESSAGE_FILENAME_EXTENSION).
Proof.
  intros Hk. destruct (key_no_dot k Hk) as [Hs _]. split; [|by destruct k].
  assert (slash ∉ MESSAGE_FILENAME_EXTENSION) by decide_all. rewrite elem_of_app. tauto.
Qed.

Lemma filekey_key k : is_key k -> filekey (k ++ MESSAGE_FILENAME_EXTENSION) = k.
Proof.
  intros Hk. destruct (key_no_dot k Hk) as [_ Hd]. unfold filekey.
  assert (E : strstr (k ++ MESSAGE_FILENAME_EXTENSION) MESSAGE_FILENAME_EXTENSION = Some (length k)).
  { clear Hk. induction k as [|c k IH]; [done|]. apply not_elem_of_cons in Hd as [Hc Hd].
    cbn [app strstr]. destruct (prefixb _ _) eqn:E; [|by rewrite (IH Hd)].
    apply prefixb_spec in E as [s E]. by injection E as ->. }
  rewrite E. apply take_app_length.
Qed.

Lemma record_file_inj dir a b : is_key a -> is_key b -> record_file dir a = record_file dir b -> a = b.
Proof.
  intros Ha Hb E. apply in_dir_inj in E. by rewrite <- (filekey_key a), <- (filekey_key b), E.
Qed.

Lemma record_file_parent dir k : is_key k -> fst (split_path (record_file dir k)) = Some dir.
Proof. intros Hk. unfold record_file. rewrite split_in_dir; [done|]. by apply key_name. Qed.

(** ** The records in a directory *)

(** The directory [dir] has the files of the records [m] and no other entry. *)
Record dir_holds (dir : path) (w : fs) (m : gmap (list Z) (list Z)) : Prop := {
  dh_dir : dir ∈ dirs w;
  dh_files k : is_key k -> files w !! record_file dir k = m !! k;
  dh_keys k : is_Some (m !! k) -> is_key k;
  dh_only name : is_name name -> is_Some (files w !! in_dir dir name) ->
    exists k, is_key k /\ name = k ++ MESSAGE_FILENAME_EXTENSION;
  dh_nodirs name : is_name name -> in_dir dir name ∉ dirs w
}.

Lemma omap_NoDup {A B} (f : A -> option B) l :
  (forall a b c, f a = Some c -> f b = Some c -> a = b) -> NoDup l -> NoDup (omap f l).
Proof.
  intros Hf. induction 1 as [|a l Ha _ IH]; [constructor|]. simpl. destruct (f a) as [b|] eqn:E; [|done].
  constructor; [|done]. rewrite list_elem_of_omap. intros (a' & Hi & E'). by rewrite (Hf a a' b E E') in Ha.
Qed.

Lemma names_NoDup dir l : NoDup l -> NoDup (omap (name_in dir) l).
Proof. apply omap_NoDup. intros a b c Ha Hb. apply name_in_spec in Ha as [-> _], Hb as [-> _]. done. Qed.

Lemma file_names_perm dir w m :
  dir_holds dir w m -> file_names dir w ≡ₚ (fun k => k ++ MESSAGE_FILENAME_EXTENSION) <$> (map_to_list m).*1.
Proof.
  intros H. apply NoDup_Permutation.
  - apply names_NoDup, NoDup_fst_map_to_list.
  - apply NoDup_fmap_2_strong; [|apply NoDup_fst_map_to_list]. intros a b _ _ E. by apply app_inv_tail in E.
  - intros name. unfold file_names. rewrite list_elem_of_omap, list_elem_of_fmap. split.
    + intros (p & Hp & E). apply name_in_spec in E as [-> Hn].
      apply list_elem_of_fmap in Hp as ([p c] & Ep & Hp). apply elem_of_map_to_list in Hp. cbn in Ep. subst p.
      destruct (dh_only _ _ _ H name Hn) as (k & Hk & ->); [by eexists|]. exists k. split; [done|].
      change (in_dir dir (k ++ MESSAGE_FILENAME_EXTENSION)) with (record_file dir k) in Hp.
      rewrite (dh_files _ _ _ H k Hk) in Hp. apply list_elem_of_fmap. exists (k, c). split; [done|].
      by apply elem_of_map_to_list.
    + intros (k & -> & Hk). apply list_elem_of_fmap in Hk as ([k' c] & Ek & Hk). cbn in Ek. subst k'.
      apply elem_of_map_to_list in Hk. assert (Hkey : is_key k) by (apply (dh_keys _ _ _ H); by eexists).
      exists (record_file dir k). split; [|apply name_in_spec; by split; [|apply key_name]].
      apply list_elem_of_fmap. exists (record_file dir k, c). split; [done|]. apply elem_of_map_to_list.
      by rewrite (dh_files _ _ _ H k Hkey).
Qed.

Lemma dir_names_nil dir w m : dir_holds dir w m -> dir_names dir w = [].
Proof.
  intros H. unfold dir_names. destruct (omap _ _) as [|n l] eqn:E; [done|].
  assert (Hn : n ∈ omap (name_in dir) (elements (dirs w))) by (rewrite E; by apply list_elem_of_here).
  apply list_elem_of_omap in Hn as (p & Hp & Ep). apply name_in_spec in Ep as [-> Hn].
  apply elem_of_elements in Hp. by apply (dh_nodirs _ _ _ H) in Hn.
Qed.

(** ** What the calls change *)

(** Only the file [p] may be another one. *)
Definition touches (p : path) (w w' : fs) : Prop :=
  dirs w' = dirs w /\ forall q, q <> p -> files w' !! q = files w !! q.

#[export] Instance touches_preorder p : PreOrder (touches p).
Proof.
  split; [done|]. intros w1 w2 w3 [D1 F1] [D2 F2]. split; [congruence|]. intros q Hq. by rewrite F2, F1.
Qed.

(** Nothing but the faults is another. *)
Definition same_files (w w' : fs) : Prop := dirs w' = dirs w /\ files w' = files w.

Lemma next_fault_spec w f w1 :
  next_fault w = (f, w1) -> same_files w w1 /\ (faults w = [] -> f = FOk /\ faults w1 = []).
Proof. unfold next_fault. destruct (faults w) eqn:E; intros [= <- <-]; by split. Qed.

Ltac next_fault_cases Hs Hh :=
  match goal with
  | |- context [next_fault ?w] =>
      let E := fresh "E" in
      destruct (next_fault w) as [[| |] ?] eqn:E; apply next_fault_spec in E as [Hs Hh]
  end.

Lemma set_files_touches p f w : (forall q, q <> p -> f !! q = files w !! q) -> touches p w (set_files f w).
Proof. by split. Qed.

Lemma same_touches p w w1 : same_files w w1 -> touches p w w1.
Proof. intros [D F]. split; [done|]. intros. by rewrite F. Qed.

Lemma alter_touches p g w w1 : same_files w w1 -> touches p w (set_files (alter g p (files w1)) w1).
Proof. intros [D F]. split; [done|]. intros q Hq. cbn. rewrite lookup_alter_ne by done. by rewrite F. Qed.

Lemma fopen_touches p w b w1 :
  fopen_wb p w = (b, w1) ->
  touches p w w1 /\ (b = false -> same_files w w1) /\ (b = true -> files w1 !! p = Some []) /\
  (faults w = [] -> faults w1 = [] /\ (parent_exists p w = true -> p ∉ dirs w -> b = true)).
Proof.
  unfold fopen_wb. destruct (parent_exists p w) eqn:Ep; cbn [negb orb]; [|by intros [= <- <-]].
  case_bool_decide as Hd; [by intros [= <- <-]|]. next_fault_cases Hs Hh; intros [= <- <-].
  - split; [|split; [done|split; [intros _; apply lookup_insert_eq|]]].
    + split; [apply Hs|]. intros q Hq. cbn. rewrite lookup_insert_ne by done. by rewrite (proj2 Hs).
    + intros Hf. split; [by apply Hh|done].
  - split; [by apply same_touches|]. split; [done|]. split; [done|]. intros Hf. by destruct (Hh Hf).
  - split; [by apply same_touches|]. split; [done|]. split; [done|]. intros Hf. by destruct (Hh Hf).
Qed.

Lemma fwrite_touches p b w n w1 :
  fwrite p b w = (n, w1) ->
  touches p w w1 /\
  (faults w = [] -> n = length b /\ faults w1 = [] /\ forall c, files w !! p = Some c -> files w1 !! p = Some (c ++ b)).
Proof.
  unfold fwrite. next_fault_cases Hs Hh; intros [= <- <-]; (split; [by apply alter_touches|]); intros Hf;
    destruct (Hh Hf) as [E Hf']; try done.
  split; [done|]. split; [done|]. intros c Hc. cbn. rewrite (proj2 Hs), lookup_alter_eq, Hc. cbn.
  by rewrite take_ge.
Qed.

Lemma fclose_touches p w :
  touches p w (fclose p w) /\
  (faults w = [] -> faults (fclose p w) = [] /\ files (fclose p w) = files w).
Proof.
  unfold fclose. next_fault_cases Hs Hh.
  - split; [by apply same_touches|]. intros Hf. split; [by apply Hh|apply Hs].
  - split; [by apply alter_touches|]. intros Hf. by destruct (Hh Hf).
  - split; [by apply alter_touches|]. intros Hf. by destruct (Hh Hf).
Qed.

Lemma unlink_touches p w rc e w1 :
  unlink p w = (rc, e, w1) ->
  touches p w w1 /\ (rc = 0 \/ rc = -1) /\
  (rc = 0 \/ e = true -> files w1 !! p = None) /\ (rc <> 0 -> e = false -> same_files w w1) /\
  (faults w = [] -> faults w1 = [] /\ (rc = 0 \/ e = true)).
Proof.
  unfold unlink. destruct (files w !! p) as [c|] eqn:Ep; [|intros [= <- <- <-]; naive_solver].
  next_fault_cases Hs Hh; intros [= <- <- <-].
  - split; [|split; [by left|split; [intros _; apply lookup_delete_eq|]]].
    + split; [apply Hs|]. intros q Hq. cbn. rewrite lookup_delete_ne by done. by rewrite (proj2 Hs).
    + split; [done|]. intros Hf. split; [by apply Hh|by left].
  - split; [by apply same_touches|]. split; [by right|]. split; [naive_solver|]. split; [done|].
    intros Hf. by destruct (Hh Hf).
  - split; [by apply same_touches|]. split; [by right|]. split; [naive_solver|]. split; [done|].
    intros Hf. by destruct (Hh Hf).
Qed.

Lemma write_loop_touches p bufs : forall w n w1,
  write_loop p bufs w = (n, w1) ->
  touches p w w1 /\
  (faults w = [] -> n = sum_list (length <$> bufs) /\ faults w1 = [] /\
     forall c, files w !! p = Some c -> files w1 !! p = Some (c ++ concat bufs)).
Proof.
  induction bufs as [|b bufs IH]; intros w n w1; cbn [write_loop].
  - intros [= <- <-]. split; [done|]. intros Hf. split; [done|]. split; [done|]. intros c. by rewrite app_nil_r.
  - destruct (fwrite p b w) as [n1 w2] eqn:E1, (write_loop p bufs w2) as [n2 w3] eqn:E2. intros [= <- <-].
    apply fwrite_touches in E1 as [T1 H1]. apply IH in E2 as [T2 H2]. split; [by etrans|]. intros Hf.
    destruct (H1 Hf) as (-> & Hf2 & C1). destruct (H2 Hf2) as (-> & Hf3 & C2). split; [done|]. split; [done|].
    intros c Hc. rewrite (C2 _ (C1 _ Hc)). cbn. by rewrite app_assoc.
Qed.



(** The records after a change of one file. *)
Lemma dir_holds_change dir w w' m k :
  dir_holds dir w m -> is_key k -> touches (record_file dir k) w w' ->
  dir_holds dir w' (partial_alter (fun _ => files w' !! record_file dir k) k m).
Proof.
  intros H Hk [D F]. split.
  - rewrite D. apply H.
  - intros k' Hk'. destruct (decide (k' = k)) as [->|Hne]; [by rewrite lookup_partial_alter_eq|].
    rewrite lookup_partial_alter_ne by done. rewrite F; [by apply H|].
    intros E. by apply Hne, (record_file_inj dir).
  - intros k'. destruct (decide (k' = k)) as [->|Hne]; [done|]. rewrite lookup_partial_alter_ne by done. apply H.
  - intros name Hn Hs. destruct (decide (in_dir dir name = record_file dir k)) as [E|Hne].
    + exists k. split; [done|]. by apply in_dir_inj in E.
    + rewrite F in Hs by done. by apply (dh_only _ _ _ H).
  - rewrite D. apply H.
Qed.

Lemma dir_holds_same dir w w' m : dir_holds dir w m -> same_files w w' -> dir_holds dir w' m.
Proof. intros H [D F]. destruct H. split; rewrite ?D, ?F; done. Qed.

Lemma dir_holds_set dir w w' m k c :
  dir_holds dir w m -> is_key k -> touches (record_file dir k) w w' -> files w' !! record_file dir k = Some c ->
  dir_holds dir w' (<[k := c]> m).
Proof.
  intros H Hk T E. pose proof (dir_holds_change dir w w' m k H Hk T) as R. rewrite E in R.
  exact R.
Qed.

Lemma dir_holds_delete dir w w' m k :
  dir_holds dir w m -> is_key k -> touches (record_file dir k) w w' -> files w' !! record_file dir k = None ->
  dir_holds dir w' (delete k m).
Proof. intros H Hk T E. pose proof (dir_holds_change dir w w' m k H Hk T) as R. by rewrite E in R. Qed.

Lemma delete_partial_alter_eq (m : gmap (list Z) (list Z)) k f : delete k (partial_alter f k m) = delete k m.
Proof.
  apply map_eq. intros i. destruct (decide (i = k)) as [->|Hne]; [by rewrite !lookup_delete_eq|].
  by rewrite !lookup_delete_ne, lookup_partial_alter_ne.
Qed.

(** The file of a record is in the directory and not one itself. *)
Lemma record_place dir w m k :
  dir_holds dir w m -> is_key k -> parent_exists (record_file dir k) w = true /\ record_file dir k ∉ dirs w.
Proof.
  intros H Hk. split.
  - unfold parent_exists. rewrite record_file_parent by done. apply bool_decide_eq_true_2, H.
  - apply (dh_nodirs _ _ _ H). by apply key_name.
Qed.

Section Laws.
Context `{Readdir}.
Variable context : path.

Lemma pstput_law dir w m k bufs :
  dir_holds dir w m -> is_key k ->
  exists rc w', pstput (Some dir) k bufs w = Ret (rc, w') /\ (rc = 0 \/ rc = MQTTCLIENT_PERSISTENCE_ERROR) /\
    (exists m', dir_holds dir w' m' /\ delete k m' = delete k m) /\
    (faults w = [] -> rc = 0 /\ faults w' = [] /\ dir_holds dir w' (<[k := concat bufs]> m)).
Proof.
  intros Hd Hk. destruct (record_place dir w m k Hd Hk) as [Hp Hn].
  assert (Hany : forall w', touches (record_file dir k) w w' -> exists m', dir_holds dir w' m' /\ delete k m' = delete k m).
  { intros w' T. eexists. split; [by apply (dir_holds_change dir w w' m k)|]. apply delete_partial_alter_eq. }
  unfold pstput. destruct (fopen_wb (record_file dir k) w) as [fp w1] eqn:E1.
  apply fopen_touches in E1 as (T1 & S1 & C1 & H1). destruct fp.
  2: { exists MQTTCLIENT_PERSISTENCE_ERROR, w1. split; [done|]. split; [by right|]. split; [by apply Hany|].
       intros Hf. destruct (H1 Hf) as [_ Hb]. by specialize (Hb Hp Hn). }
  destruct (write_loop (record_file dir k) bufs w1) as [n w2] eqn:E2. apply write_loop_touches in E2 as [T2 H2].
  destruct (fclose_touches (record_file dir k) w2) as [T3 H3].
  assert (T : touches (record_file dir k) w (fclose (record_file dir k) w2)) by (etrans; [done|]; by etrans).
  case_bool_decide as Hb.
  - eexists 0, _. split; [done|]. split; [by left|]. split; [by apply Hany|]. intros Hf.
    destruct (H1 Hf) as [Hf1 _]. destruct (H2 Hf1) as (_ & Hf2 & C2). destruct (H3 Hf2) as [Hf3 C3].
    split; [done|]. split; [done|]. apply (dir_holds_set dir w); [done..|]. rewrite C3. apply (C2 []). by apply C1.
  - unfold pstremove. destruct (unlink _ _) as [[rc e] w4] eqn:E4. apply unlink_touches in E4 as [T4 _].
    cbn [obind]. exists MQTTCLIENT_PERSISTENCE_ERROR, w4. split; [done|]. split; [by right|].
    split; [apply Hany; by etrans|]. intros Hf. destruct (H1 Hf) as [Hf1 _]. by destruct (H2 Hf1) as [-> _].
Qed.


Lemma pstget_law dir w m k :
  dir_holds dir w m -> is_key k ->
  exists rc b w', pstget (Some dir) k w = Ret (rc, b, w') /\ dir_holds dir w' m /\
    (rc = 0 \/ rc = MQTTCLIENT_PERSISTENCE_ERROR) /\ (rc = 0 -> b = m !! k /\ is_Some b) /\
    (faults w = [] -> faults w' = [] /\ (is_Some (m !! k) -> rc = 0)).
Proof.
  intros Hd Hk. unfold pstget, fread_all. rewrite (dh_files _ _ _ Hd k Hk). destruct (m !! k) as [c|] eqn:Ek.
  2: { eexists _, _, w. split; [done|]. split; [done|]. split; [by right|]. split; [done|]. intros Hf.
       split; [done|]. by intros []. }
  next_fault_cases Hs Hh; eexists _, _, _; (split; [reflexivity|]); (split; [by apply (dir_holds_same dir w)|]).
  - rewrite bool_decide_eq_true_2 by done. split; [by left|]. split; [by split|]. intros Hf. split; [by apply Hh|done].
  - split; [by right|]. split; [done|]. intros Hf. by destruct (Hh Hf).
  - case_bool_decide as Hl.
    + split; [by left|]. split; [|intros Hf; by destruct (Hh Hf)]. intros _. split; [|done]. f_equal.
      apply take_ge. rewrite length_take in Hl. lia.
    + split; [by right|]. split; [done|]. intros Hf. by destruct (Hh Hf).
Qed.

Lemma pstremove_law dir w m k :
  dir_holds dir w m -> is_key k ->
  exists rc w', pstremove (Some dir) k w = Ret (rc, w') /\ (rc = 0 \/ rc = MQTTCLIENT_PERSISTENCE_ERROR) /\
    dir_holds dir w' (if rc =? 0 then delete k m else m) /\ (faults w = [] -> rc = 0 /\ faults w' = []).
Proof.
  intros Hd Hk. unfold pstremove. destruct (unlink _ w) as [[rc e] w1] eqn:E.
  apply unlink_touches in E as (T & Hrc & N & S & Hh). eexists _, w1. split; [reflexivity|].
  destruct (negb (rc =? 0) && negb e) eqn:Ef.
  - apply andb_prop in Ef as [E1 E2]. apply negb_true_iff in E1, E2. apply Z.eqb_neq in E1. subst e.
    split; [by right|]. split; [by apply (dir_holds_same dir w); [|apply S]|]. intros Hf. by destruct (Hh Hf) as [_ [?|?]].
  - split; [by left|]. change (0 =? 0) with true. cbn iota. split.
    + apply (dir_holds_delete dir w); [done..|]. apply N. destruct (Z.eqb_spec rc 0); [by left|right]. by destruct e.
    + intros Hf. split; [done|]. by apply Hh.
Qed.

(** The entries [readdir] gives: the records, "." and "..". *)
Lemma readdir_holds dir w m r w1 :
  dir_holds dir w m -> readdir dir w = (r, w1) ->
  same_files w w1 /\ (faults w = [] -> faults w1 = [] /\ is_Some r) /\
  (forall l, r = Some l ->
     l ≡ₚ [str "."; str ".."] ++ ((fun k => k ++ MESSAGE_FILENAME_EXTENSION) <$> (map_to_list m).*1)).
Proof.
  intros Hd. unfold readdir. rewrite bool_decide_eq_true_2 by apply Hd. next_fault_cases Hs Hh; intros [= <- <-].
  - split; [done|]. split; [intros Hf; split; [by apply Hh|done]|]. intros l [= <-].
    rewrite readdir_perm, (dir_names_nil dir w m Hd), app_nil_l. by rewrite (file_names_perm dir w m Hd).
  - split; [done|]. split; [|done]. intros Hf. by destruct (Hh Hf).
  - split; [done|]. split; [|done]. intros Hf. by destruct (Hh Hf).
Qed.

Lemma lstat_dots dir w d : d = str "." \/ d = str ".." -> lstat (in_dir dir d) w = Some false.
Proof.
  intros Hd. unfold lstat. rewrite split_in_dir.
  - by rewrite bool_decide_eq_true_2.
  - destruct Hd as [-> | ->]; decide_all.
Qed.

Lemma lstat_record dir w m k c :
  dir_holds dir w m -> m !! k = Some c -> lstat (in_dir dir (k ++ MESSAGE_FILENAME_EXTENSION)) w = Some true.
Proof.
  intros Hd Hk. assert (Hkey : is_key k) by (apply (dh_keys _ _ _ Hd); by eexists).
  unfold lstat. rewrite split_in_dir by by apply key_name. rewrite bool_decide_eq_false_2.
  - change (in_dir dir (k ++ MESSAGE_FILENAME_EXTENSION)) with (record_file dir k).
    by rewrite (dh_files _ _ _ Hd k Hkey), Hk.
  - assert (Hlen : (5 <= length (k ++ MESSAGE_FILENAME_EXTENSION))%nat).
    { rewrite length_app. destruct Hkey as [Hk0 _]. destruct k; [done|]. simpl. lia. }
    intros [E|E]; cbn [snd] in E; rewrite E in Hlen; vm_compute in Hlen; lia.
Qed.

Lemma filter_id {A} (P : A -> Prop) `{!forall x, Decision (P x)} (l : list A) : Forall P l -> filter P l = l.
Proof. induction 1 as [|x l Hx _ IH]; [done|]. by rewrite filter_cons_True, IH. Qed.

Lemma regular_keys dir w m l :
  dir_holds dir w m ->
  l ≡ₚ [str "."; str ".."] ++ ((fun k => k ++ MESSAGE_FILENAME_EXTENSION) <$> (map_to_list m).*1) ->
  filekey <$> regular dir l w ≡ₚ (map_to_list m).*1.
Proof.
  intros Hd Hl. unfold regular. rewrite Hl, filter_app.
  rewrite (filter_cons_False _ (str ".")) by (rewrite lstat_dots by tauto; done).
  rewrite (filter_cons_False _ (str "..")) by (rewrite lstat_dots by tauto; done).
  rewrite filter_nil, app_nil_l, filter_id, <- list_fmap_compose.
  - rewrite (list_fmap_ext _ id); [by rewrite list_fmap_id|].
    intros i k Hi. cbn. apply filekey_key, (dh_keys _ _ _ Hd). apply list_elem_of_lookup_2 in Hi.
    apply list_elem_of_fmap in Hi as ([k' c] & -> & Hi). apply elem_of_map_to_list in Hi. by eexists.
  - rewrite Forall_fmap, Forall_forall. intros k Hk. apply list_elem_of_fmap in Hk as ([k' c] & -> & Hi).
    apply elem_of_map_to_list in Hi. cbn. by eapply lstat_record.
Qed.

Lemma pstkeys_law dir w m :
  dir_holds dir w m ->
  exists rc ks w', pstkeys (Some dir) w = Ret (rc, ks, w') /\ dir_holds dir w' m /\
    (rc = 0 \/ rc = MQTTCLIENT_PERSISTENCE_ERROR) /\ (rc = 0 -> ks ≡ₚ (map_to_list m).*1) /\
    (faults w = [] -> rc = 0 /\ faults w' = []).
Proof.
  intros Hd. unfold pstkeys, keysUnix. destruct (readdir dir w) as [r1 w1] eqn:E1.
  destruct (readdir_holds dir w m r1 w1 Hd E1) as (S1 & H1 & P1).
  pose proof (dir_holds_same _ _ _ _ Hd S1) as Hd1. destruct r1 as [l1|].
  2: { eexists _, _, _. split; [reflexivity|]. split; [done|]. split; [by right|]. split; [done|].
       intros Hf. by destruct (H1 Hf) as [_ []]. }
  pose proof (regular_keys dir w1 m l1 Hd1 (P1 _ eq_refl)) as R1. apply Permutation_length in R1 as L1.
  rewrite length_fmap in L1. case_bool_decide as Hn.
  { eexists 0, [], w1. split; [done|]. split; [done|]. split; [by left|]. split.
    - intros _. rewrite Hn in L1. symmetry in L1. apply nil_length_inv in L1. by rewrite L1.
    - intros Hf. by destruct (H1 Hf). }
  destruct (readdir dir w1) as [r2 w2] eqn:E2. destruct (readdir_holds dir w1 m r2 w2 Hd1 E2) as (S2 & H2 & P2).
  pose proof (dir_holds_same _ _ _ _ Hd1 S2) as Hd2. destruct r2 as [l2|].
  2: { eexists _, _, _. split; [reflexivity|]. split; [done|]. split; [by right|]. split; [done|].
       intros Hf. destruct (H1 Hf) as [Hf1 _]. by destruct (H2 Hf1) as [_ []]. }
  pose proof (regular_keys dir w2 m l2 Hd2 (P2 _ eq_refl)) as R2. apply Permutation_length in R2 as L2.
  rewrite bool_decide_eq_true_2 by lia. eexists 0, _, w2. split; [done|]. split; [done|]. split; [by left|].
  split; [done|]. intros Hf. destruct (H1 Hf) as [Hf1 _]. by destruct (H2 Hf1).
Qed.

(** The loop finds the key among entries that are all there. *)
Lemma containskey_loop_spec dir k w entries : forall st,
  Forall (fun n => is_Some (lstat (in_dir dir n) w)) entries ->
  exists rc, containskey_loop dir k entries st w = Ret rc /\ (rc = 0 \/ rc = MQTTCLIENT_PERSISTENCE_ERROR) /\
    (rc = 0 <-> k ∈ filekey <$> regular dir entries w).
Proof.
  induction entries as [|n entries IH]; intros st Ha; cbn [containskey_loop].
  - eexists. split; [reflexivity|]. split; [by right|]. split; [done|]. by intros Hi%elem_of_nil.
  - apply Forall_cons in Ha as [[b Hb] Ha]. rewrite Hb. cbn [deref obind]. unfold regular. rewrite filter_cons, Hb.
    destruct b; cbn [andb].
    + rewrite decide_True by done. cbn [fmap list_fmap]. case_bool_decide as Hk.
      * exists 0. split; [done|]. split; [by left|]. split; [|done]. intros _. rewrite Hk. by apply list_elem_of_here.
      * destruct (IH (Some true) Ha) as (rc & E & Hrc & Hi). exists rc. split; [done|]. split; [done|].
        rewrite Hi, elem_of_cons. split; [by right|]. intros [?|?]; [congruence|done].
    + rewrite decide_False by done. apply IH. done.
Qed.

Lemma pstcontainskey_law dir w m k :
  dir_holds dir w m -> is_key k ->
  exists rc w', pstcontainskey (Some dir) k w = Ret (rc, w') /\ dir_holds dir w' m /\
    (rc = 0 \/ rc = MQTTCLIENT_PERSISTENCE_ERROR) /\ (rc = 0 -> is_Some (m !! k)) /\
    (faults w = [] -> faults w' = [] /\ (is_Some (m !! k) -> rc = 0)).
Proof.
  intros Hd Hk. unfold pstcontainskey, containskeyUnix. destruct (readdir dir w) as [r1 w1] eqn:E1.
  destruct (readdir_holds dir w m r1 w1 Hd E1) as (S1 & H1 & P1).
  pose proof (dir_holds_same _ _ _ _ Hd S1) as Hd1. destruct r1 as [l|].
  2: { eexists _, _. split; [reflexivity|]. split; [done|]. split; [by right|]. split; [done|].
       intros Hf. by destruct (H1 Hf) as [_ []]. }
  specialize (P1 _ eq_refl). destruct (containskey_loop_spec dir k w1 l None) as (rc & E & Hrc & Hi).
  { rewrite P1. apply Forall_app. split.
    - repeat constructor; rewrite lstat_dots by tauto; done.
    - rewrite Forall_fmap, Forall_forall. intros k' Hk'. cbn. apply list_elem_of_fmap in Hk' as ([k2 c] & -> & Hi).
      apply elem_of_map_to_list in Hi. erewrite lstat_record; [done..|exact Hi]. }
  assert (Hin : rc = 0 <-> is_Some (m !! k)).
  { rewrite Hi, (regular_keys dir w1 m l Hd1 P1), list_elem_of_fmap. split.
    - intros ([k' c] & -> & Hc). apply elem_of_map_to_list in Hc. by eexists.
    - intros [c Hc]. exists (k, c). split; [done|]. by apply elem_of_map_to_list. }
  rewrite E. eexists _, _. split; [reflexivity|]. split; [done|]. split; [done|]. split; [by apply Hin|].
  intros Hf. split; [by apply H1|]. by apply Hin.
Qed.

(** The functions of the default persistence keep what the interface promises. *)
#[export] Instance file_store : Persistence (file_persistence context) := {
  holds := dir_holds;
  healthy w := faults w = [];
  holds_keys dir w m k Hd Hs := dh_keys dir w m Hd k Hs;
  put_law := pstput_law;
  get_law := pstget_law;
  remove_law := pstremove_law;
  keys_law := pstkeys_law;
  containskey_law := pstcontainskey_law
}.
End Laws.

(** ** Any sequence of calls *)

Inductive store_op : Type :=
| Put (key : list Z) (buffers : list (list Z))
| Get (key : list Z)
| Remove (key : list Z)
| Keys
| Contains (key : list Z).

Definition op_key (o : store_op) : option (list Z) :=
  match o with Put k _ | Get k | Remove k | Contains k => Some k | Keys => None end.

(** The return code and what is returned through the pointers. *)
Inductive answer : Type :=
| ACode (rc : Z)
| AData (rc : Z) (buffer : option (list Z))
| AKeys (rc : Z) (keys : list (list Z)).

(** The call of an operation. *)
Definition store_call {H W : Type} (per : MQTTClient_persistence H W) (h : H) (o : store_op) (w : W) :
    outcome (answer * W) :=
  match o with
  | Put k bufs => let! (rc, w1) := pput per (Some h) k bufs w in Ret (ACode rc, w1)
  | Get k => let! (rc, b, w1) := pget per (Some h) k w in Ret (AData rc b, w1)
  | Remove k => let! (rc, w1) := premove per (Some h) k w in Ret (ACode rc, w1)
  | Keys => let! (rc, ks, w1) := pkeys per (Some h) w in Ret (AKeys rc ks, w1)
  | Contains k => let! (rc, w1) := pcontainskey per (Some h) k w in Ret (ACode rc, w1)
  end.

Fixpoint store_calls {H W : Type} (per : MQTTClient_persistence H W) (h : H) (ops : list store_op) (w : W) :
    outcome (list answer * W) :=
  match ops with
  | [] => Ret ([], w)
  | o :: ops' =>
      let! (a, w1) := store_call per h o w in
      let! (answers, w2) := store_calls per h ops' w1 in Ret (a :: answers, w2)
  end.

(** What a map of records answers, and the map afterwards. *)
Definition map_after (o : store_op) (m : gmap (list Z) (list Z)) : gmap (list Z) (list Z) :=
  match o with
  | Put k bufs => <[k := concat bufs]> m
  | Remove k => delete k m
  | _ => m
  end.

Definition map_answers (o : store_op) (m : gmap (list Z) (list Z)) (a : answer) : Prop :=
  match o, a with
  | Put _ _, ACode rc | Remove _, ACode rc => rc = 0
  | Get k, AData rc b => if m !! k is Some c then rc = 0 /\ b = Some c else rc = MQTTCLIENT_PERSISTENCE_ERROR
  | Keys, AKeys rc ks => rc = 0 /\ ks ≡ₚ (map_to_list m).*1
  | Contains k, ACode rc => rc = if m !! k is Some _ then 0 else MQTTCLIENT_PERSISTENCE_ERROR
  | _, _ => False
  end.

Fixpoint map_all_answer (ops : list store_op) (m : gmap (list Z) (list Z)) (l : list answer) : Prop :=
  match ops, l with
  | [], [] => True
  | o :: ops', a :: l' => map_answers o m a /\ map_all_answer ops' (map_after o m) l'
  | _, _ => False
  end.

Section Calls.
Context {H W : Type} (per : MQTTClient_persistence H W) `{!Persistence per}.

(** One call, in any world and in a healthy one. *)
Lemma store_call_spec h o w m :
  holds h w m -> (forall k, op_key o = Some k -> is_key k) ->
  exists a w', store_call per h o w = Ret (a, w') /\
    (exists m', holds h w' m' /\ forall k, op_key o <> Some k -> m' !! k = m !! k) /\
    (healthy w -> healthy w' /\ holds h w' (map_after o m) /\ map_answers o m a).
Proof.
  intros Hh Hk. destruct o as [k bufs|k|k| |k]; cbn [store_call op_key map_after map_answers] in *.
  - destruct (put_law h w m k bufs Hh (Hk _ eq_refl)) as (rc & w' & -> & _ & (m' & Hm' & Ed) & Hg).
    exists (ACode rc), w'. split; [done|]. split; [|naive_solver]. exists m'. split; [done|]. intros k' Hne.
    assert (k <> k') by congruence. by rewrite <- (lookup_delete_ne m' k k'), Ed, lookup_delete_ne.
  - destruct (get_law h w m k Hh (Hk _ eq_refl)) as (rc & b & w' & -> & Hh' & Hrc & Hb & Hg).
    exists (AData rc b), w'. split; [done|]. split; [by exists m|]. intros Hw. destruct (Hg Hw) as [Hw' Hs].
    split; [done|]. split; [done|]. destruct (m !! k) as [c|] eqn:E.
    + assert (rc = 0) as -> by by apply Hs. by destruct (Hb eq_refl).
    + destruct Hrc as [->|?]; [|done]. destruct (Hb eq_refl) as [-> []]. done.
  - destruct (remove_law h w m k Hh (Hk _ eq_refl)) as (rc & w' & -> & _ & Hh' & Hg).
    exists (ACode rc), w'. split; [done|]. split.
    + eexists. split; [done|]. intros k' Hne. destruct (rc =? 0); [|done]. apply lookup_delete_ne. congruence.
    + intros Hw. by destruct (Hg Hw) as [-> ?].
  - destruct (keys_law h w m Hh) as (rc & ks & w' & -> & Hh' & _ & Hks & Hg).
    exists (AKeys rc ks), w'. split; [done|]. split; [by exists m|]. naive_solver.
  - destruct (containskey_law h w m k Hh (Hk _ eq_refl)) as (rc & w' & -> & Hh' & Hrc & Hb & Hg).
    exists (ACode rc), w'. split; [done|]. split; [by exists m|]. intros Hw. destruct (Hg Hw) as [Hw' Hs].
    split; [done|]. split; [done|]. destruct (m !! k) as [c|] eqn:E; [by apply Hs|].
    destruct Hrc as [->|?]; [|done]. by destruct (Hb eq_refl).
Qed.

(** Any calls: in a healthy world, and the records that are not named in any other. *)
Lemma store_calls_spec h ops : forall w m,
  holds h w m -> (forall o k, o ∈ ops -> op_key o = Some k -> is_key k) ->
  exists l w', store_calls per h ops w = Ret (l, w') /\
    (exists m', holds h w' m' /\ forall k, (forall o, o ∈ ops -> op_key o <> Some k) -> m' !! k = m !! k) /\
    (healthy w -> healthy w' /\ holds h w' (foldl (fun m o => map_after o m) m ops) /\ map_all_answer ops m l).
Proof.
  induction ops as [|o ops IH]; intros w m Hh Hk; cbn [store_calls foldl map_all_answer].
  - exists [], w. split; [done|]. split; [|done]. by exists m.
  - destruct (store_call_spec h o w m Hh) as (a & w1 & -> & (m1 & Hm1 & E1) & G1).
    { intros k. apply Hk, list_elem_of_here. }
    assert (Hk' : forall o' k, o' ∈ ops -> op_key o' = Some k -> is_key k).
    { intros o' k Ho. by apply Hk, list_elem_of_further. }
    cbn [obind]. destruct (IH w1 m1 Hm1 Hk') as (l & w2 & E & (m2 & Hm2 & E2) & _). rewrite E. cbn [obind].
    exists (a :: l), w2. split; [done|]. split.
    + exists m2. split; [done|]. intros k Hno. rewrite E2, E1; [done|..].
      * apply Hno, list_elem_of_here.
      * intros o' Ho. by apply Hno, list_elem_of_further.
    + intros Hw. destruct (G1 Hw) as (Hw1 & Hh1 & A1). destruct (IH w1 _ Hh1 Hk') as (l' & w2' & E' & _ & G2).
      rewrite E in E'. injection E' as <- <-. destruct (G2 Hw1) as (? & ? & ?). done.
Qed.
End Calls.

(** ** Opening *)

(** The path of directories in one another. *)
Definition joined (d : path) (ds : list path) : path := foldl in_dir d ds.

(** A name [strtok] does not cut. *)
Definition plain (n : path) : Prop := Forall (fun c => c <> slash /\ c <> 92) n /\ n <> [].

#[export] Instance plain_dec n : Decision (plain n).
Proof. unfold plain. apply _. Defined.

Lemma strtok_plain n : Forall (fun c => c <> slash /\ c <> 92) n -> forall t rest,
  strtok t (n ++ rest) = strtok (t ++ n) rest.
Proof.
  induction 1 as [|c n [H1 H2] _ IH]; intros t rest; [by rewrite app_nil_r|]. cbn [app strtok].
  rewrite bool_decide_eq_false_2 by tauto. rewrite IH. by rewrite <- app_assoc.
Qed.

Lemma joined_app d ds : joined d ds = d ++ concat ((fun n => slash :: n) <$> ds).
Proof.
  revert d. induction ds as [|n ds IH]; intros d; cbn; [by rewrite app_nil_r|]. fold (joined (in_dir d n) ds).
  rewrite IH. unfold in_dir. by rewrite <- !app_assoc.
Qed.

Lemma strtok_joined d ds : plain d -> Forall plain ds -> strtok [] (joined d ds) = d :: ds.
Proof.
  intros Hd Hs. rewrite joined_app. revert d Hd. induction Hs as [|n ds Hn _ IH]; intros d [Hd Hne].
  - rewrite strtok_plain by done. destruct d; done.
  - rewrite strtok_plain by done. cbn [fmap list_fmap concat app strtok]. rewrite bool_decide_eq_true_2 by by left.
    destruct d as [|c d]; [done|]. cbn [app]. f_equal. by apply IH.
Qed.

(** Only directories may be new, and the faults stay. *)
Definition more_dirs (new : list path) (w w' : fs) : Prop :=
  files w' = files w /\ dirs w' = list_to_set new ∪ dirs w /\ faults w' = faults w.

Lemma pstmkdir_spec d w :
  faults w = [] -> files w !! d = None -> parent_exists d w = true ->
  exists w', pstmkdir d w = (0, w') /\ more_dirs [d] w w'.
Proof.
  intros Hf Hn Hp. unfold pstmkdir, mkdir, next_fault. rewrite Hp, Hf, Hn.
  rewrite (bool_decide_eq_false_2 (is_Some None)) by by intros []. rewrite orb_false_r.
  case_bool_decide as Hd; cbn.
  - exists w. split; [done|]. split; [done|]. split; [|done]. set_solver.
  - eexists. split; [reflexivity|]. split; [done|]. split; [|done]. cbn. set_solver.
Qed.

(** The directories on the path, from [d] down. *)
Fixpoint levels (d : path) (ds : list path) : list path :=
  match ds with [] => [] | n :: ds' => in_dir d n :: levels (in_dir d n) ds' end.

Lemma mkdir_loop_spec ds : forall d w,
  faults w = [] -> d ∈ dirs w -> Forall plain ds -> Forall (fun p => files w !! p = None) (levels d ds) ->
  exists w', mkdir_loop ds d w = (0, w') /\ more_dirs (levels d ds) w w'.
Proof.
  induction ds as [|n ds IH]; intros d w Hf Hd Hp Hl; cbn [mkdir_loop levels].
  - exists w. split; [done|]. split; [done|]. split; [|done]. cbn. set_solver.
  - apply Forall_cons in Hp as [Hn Hp]. apply Forall_cons in Hl as [H0 Hl].
    destruct (pstmkdir_spec (in_dir d n) w Hf H0) as (w1 & -> & F1 & D1 & E1).
    { unfold parent_exists. rewrite split_in_dir; [by apply bool_decide_eq_true_2|].
      destruct Hn as [Hn _]. rewrite Forall_forall in Hn. intros Hi. by destruct (Hn _ Hi). }
    change (0 =? 0) with true. cbn iota.
    destruct (IH (in_dir d n) w1) as (w2 & -> & F2 & D2 & E2); [congruence|rewrite D1; set_solver|done|by rewrite F1|].
    exists w2. split; [done|]. split; [congruence|]. split; [|congruence]. rewrite D2, D1. cbn. set_solver.
Qed.

Lemma levels_in d ds p : p ∈ levels d ds -> exists t, p = d ++ slash :: t /\ (length p <= length (joined d ds))%nat.
Proof.
  revert d. induction ds as [|n ds IH]; intros d Hp; cbn [levels] in Hp; [by apply elem_of_nil in Hp|].
  apply elem_of_cons in Hp as [->|Hp].
  - exists n. split; [done|]. cbn. fold (joined (in_dir d n) ds). rewrite joined_app, length_app. lia.
  - destruct (IH _ Hp) as (t & -> & Hl). exists (n ++ slash :: t). split; [|exact Hl].
    unfold in_dir. by rewrite <- !app_assoc.
Qed.

Lemma last_level d ds : ds <> [] -> joined d ds ∈ levels d ds.
Proof.
  revert d. induction ds as [|n ds IH]; intros d Hne; [done|]. cbn. fold (joined (in_dir d n) ds).
  destruct ds as [|n' ds]; [by apply list_elem_of_here|]. by apply list_elem_of_further, IH.
Qed.

(** The directory of the client, below the directories [d], [ds] of the context. *)
Lemma client_dir_joined d ds clientID uri :
  client_dir (joined d ds) clientID uri = joined d (ds ++ [clientID ++ [45] ++ uri]).
Proof. unfold client_dir, joined. by rewrite foldl_app. Qed.

(** [pstopen] gives the directory of the client, with the records that were in it. *)
Lemma pstopen_spec d ds clientID serverURI uri w m :
  let dir := client_dir (joined d ds) clientID uri in
  plain d -> Forall plain ds -> plain clientID -> plain uri -> perserverURI serverURI = Ret uri ->
  faults w = [] -> files w !! d = None -> Forall (fun p => files w !! p = None) (levels d (ds ++ [clientID ++ [45] ++ uri])) ->
  dir_holds dir (set_dirs ({[dir]} ∪ dirs w) w) m ->
  exists w', pstopen (joined d ds) clientID serverURI w = Ret (0, Some dir, w') /\ dir_holds dir w' m /\ faults w' = [].
Proof.
  intros dir Hd Hds Hc Hu Eu Hf Hn Hl Hm. unfold pstopen. rewrite Eu. cbn [obind]. fold dir.
  set (ds' := ds ++ [clientID ++ [45] ++ uri]) in *. assert (Edir : dir = joined d ds') by apply client_dir_joined.
  assert (Hds' : Forall plain ds').
  { apply Forall_app. split; [done|]. apply Forall_singleton. destruct Hc as [Hc Hc0], Hu as [Hu _]. split.
    - rewrite !Forall_app. split_and!; [done| |done]. by apply Forall_singleton.
    - by destruct clientID. }
  assert (Et : strtok [] dir = d :: ds') by (rewrite Edir; by apply strtok_joined). rewrite Et.
  destruct (pstmkdir_spec d w Hf Hn) as (w1 & -> & F1 & D1 & E1).
  { unfold parent_exists, split_path. destruct (list_find _ _) as [[i c]|] eqn:E; [|done]. exfalso.
    apply list_find_Some in E as (Hi & -> & _). apply list_elem_of_lookup_2 in Hi. rewrite elem_of_reverse in Hi.
    destruct Hd as [Hd _]. rewrite Forall_forall in Hd. by destruct (Hd _ Hi). }
  change (0 =? 0) with true. cbn iota.
  destruct (mkdir_loop_spec ds' d w1) as (w2 & -> & F2 & D2 & E2); [congruence|rewrite D1; set_solver|done|by rewrite F1|].
  exists w2. split; [done|]. split; [|congruence]. destruct Hm as [M1 M2 M3 M4 M5].
  split; rewrite ?F2, ?F1; [|done..|].
  - rewrite D2, elem_of_union, elem_of_list_to_set, Edir. left. apply last_level. by destruct ds.
  - intros name Hname. specialize (M5 name Hname). cbn in M5. rewrite D2, D1.
    assert (Hlen : (length dir < length (in_dir dir name))%nat) by (unfold in_dir; rewrite !length_app; simpl; lia).
    rewrite !elem_of_union, !elem_of_list_to_set. intros [Hi|[Hi|Hi]]; [| |by apply M5, elem_of_union_r].
    + destruct (levels_in _ _ _ Hi) as (_ & _ & Hle). rewrite <- Edir in Hle. lia.
    + apply list_elem_of_singleton in Hi. rewrite Hi in Hlen. rewrite Edir, joined_app, length_app in Hlen. lia.
Qed.

(** ** Properties *)

Section Properties.
Context `{Readdir}.

(** C15: the records in files.  In a file system where nothing fails, [pstopen] makes the directories of
    the client below a relative path and finds the records that were there; then any sequence of
    [pstput], [pstget], [pstremove], [pstkeys] and [pstcontainskey] answers what a map from keys to
    records answers, whatever the order of [readdir] is, and the directory holds the files of that map. *)
Theorem files_are_a_map (d : path) (ds : list path) (clientID serverURI uri : list Z) (w : fs)
    (m : gmap (list Z) (list Z)) (ops : list store_op) :
  let dir := client_dir (joined d ds) clientID uri in
  plain d -> Forall plain ds -> plain clientID -> plain uri -> perserverURI serverURI = Ret uri ->
  faults w = [] -> files w !! d = None -> Forall (fun p => files w !! p = None) (levels d (ds ++ [clientID ++ [45] ++ uri])) ->
  dir_holds dir (set_dirs ({[dir]} ∪ dirs w) w) m ->
  Forall (fun o => forall k, op_key o = Some k -> is_key k) ops ->
  exists w1 l w2, pstopen (joined d ds) clientID serverURI w = Ret (0, Some dir, w1) /\
    store_calls (file_persistence (joined d ds)) dir ops w1 = Ret (l, w2) /\ map_all_answer ops m l /\
    dir_holds dir w2 (foldl (fun m o => map_after o m) m ops).
Proof.
  intros dir Hd Hds Hc Hu Eu Hf Hn Hl Hm Hk.
  destruct (pstopen_spec d ds clientID serverURI uri w m Hd Hds Hc Hu Eu Hf Hn Hl Hm) as (w1 & E1 & Hm1 & Hf1).
  destruct (store_calls_spec _ (Persistence0 := file_store (joined d ds)) dir ops w1 m Hm1) as (l & w2 & E2 & _ & G).
  { intros o k Ho. rewrite Forall_forall in Hk. by apply Hk. }
  exists w1, l, w2. destruct (G Hf1) as (_ & ? & ?). done.
Qed.

(** *** Calls that fail *)









(** [pstclear] gives [lstat] and [remove] names without their directory: when the working directory has
    no entries of these names, nothing is removed and 0 is returned. *)
Lemma clear_removes_nothing dir w m l w1 :
  dir_holds dir w m -> readdir dir w = (Some l, w1) -> head l = Some (str ".") ->
  (forall k, is_Some (m !! k) -> files w !! (k ++ MESSAGE_FILENAME_EXTENSION) = None) ->
  exists w', pstclear (Some dir) w = Ret (0, w') /\ dir_holds dir w' m.
Proof.
  intros Hd E Hh Hn. unfold pstclear, clearUnix. rewrite E.
  destruct (readdir_holds dir w m _ _ Hd E) as (S & _ & P). specialize (P _ eq_refl).
  pose proof (dir_holds_same _ _ _ _ Hd S) as Hd1. exists w1. split; [|done].
  assert (Hl : forall n, n ∈ l -> lstat n w1 = Some false \/ lstat n w1 = None).
  { intros n Hi. rewrite P in Hi. apply elem_of_app in Hi as [Hi|Hi].
    - left. unfold lstat. rewrite bool_decide_eq_true_2; [done|].
      apply elem_of_cons in Hi as [->|Hi]; [left|apply list_elem_of_singleton in Hi as ->; right]; by vm_compute.
    - apply list_elem_of_fmap in Hi as (k & -> & Hi). apply list_elem_of_fmap in Hi as ([k' c] & -> & Hi).
      apply elem_of_map_to_list in Hi. cbn. unfold lstat.
      case_bool_decide; [by left|]. destruct S as [S1 S2]. rewrite S2, Hn by by eexists.
      case_bool_decide; [by left|by right]. }
  destruct l as [|d l]; [done|]. injection Hh as ->. cbn [clear_loop].
  assert (Hdot : lstat (str ".") w1 = Some false) by done. rewrite Hdot. cbn [deref obind].
  assert (Hl' : forall n, n ∈ l -> lstat n w1 = Some false \/ lstat n w1 = None).
  { intros n Hi. by apply Hl, list_elem_of_further. }
  clear -Hl'. induction l as [|n l IH]; [done|]. cbn [clear_loop].
  assert (E : match lstat n w1 with Some b => Some b | None => Some false end = Some false).
  { destruct (Hl' n (list_elem_of_here _ _)) as [-> | ->]; done. }
  rewrite E. cbn [deref obind]. apply IH. intros n' Hi. by apply Hl', list_elem_of_further.
Qed.
End Properties.

(** ** Examples *)

Definition in_order : Readdir := {| readdir_order l := l; readdir_perm l := reflexivity l |}.

Definition example_dir : path := str "./bob-localhost-1883".

(** The working directory, with nothing in it. *)
Definition example_fs : fs := Fs ∅ {[str "."]} [].

Lemma example_holds l : dir_holds example_dir (Fs ∅ {[example_dir; str "."]} l) ∅.
Proof.
  split.
  - unfold dirs. set_solver.
  - done.
  - intros k [c Hc]. by rewrite lookup_empty in Hc.
  - intros name _ [c Hc]. cbn in Hc. by rewrite lookup_empty in Hc.
  - intros name _ Hi. unfold dirs in Hi. apply elem_of_union in Hi as [Hi|Hi]; apply elem_of_singleton in Hi;
      apply (f_equal length) in Hi; unfold in_dir in Hi; rewrite !length_app in Hi; vm_compute in Hi; lia.
Qed.

Definition example_ops : list store_op :=
  [Put (str "s-1") [[0x32; 3]; [0; 1; 65]]; Put (str "q-12") [[7]]; Contains (str "s-1"); Keys; Remove (str "s-1"); Get (str "s-1");
   Get (str "q-12")].

Lemma example_keys : Forall (fun o => forall k, op_key o = Some k -> is_key k) example_ops.
Proof. repeat (apply Forall_cons_2; [intros k [= <-] || intros k [=]; decide_all|]). apply Forall_nil_2. Qed.

Lemma files_are_a_map_witness :
  exists w1 l w2, pstopen (str ".") (str "bob") (str "localhost:1883") example_fs = Ret (0, Some example_dir, w1) /\
    store_calls (file_persistence (H:=in_order) (str ".")) example_dir example_ops w1 = Ret (l, w2) /\
    map_all_answer example_ops ∅ l /\
    dir_holds example_dir w2 (foldl (fun m o => map_after o m) ∅ example_ops).
Proof.
  apply (files_are_a_map (H:=in_order) (str ".") [] (str "bob") (str "localhost:1883") (str "localhost-1883") example_fs ∅
    example_ops).
  - decide_all.
  - apply Forall_nil_2.
  - decide_all.
  - decide_all.
  - vm_compute. reflexivity.
  - reflexivity.
  - reflexivity.
  - apply Forall_cons_2; [reflexivity|apply Forall_nil_2].
  - exact (example_holds []).
  - exact example_keys.
Defined.


(** An absolute path loses its first slash in [strtok]: the directories are made below the working
    directory, and nothing can be stored in the one that is returned. *)
Example open_absolute :
  exists w1, pstopen (str "/var/sp") (str "bob") (str "h:1") example_fs = Ret (0, Some (str "/var/sp/bob-h-1"), w1) /\
    elements (dirs w1) ≡ₚ [str "."; str "var"; str "var/sp"; str "var/sp/bob-h-1"] /\
    pstput (Some (str "/var/sp/bob-h-1")) (str "s-1") [[1]] w1 = Ret (MQTTCLIENT_PERSISTENCE_ERROR, w1).
Proof.
  eexists. split; [vm_compute; reflexivity|]. split; [|vm_compute; reflexivity].
  apply (bool_decide_unpack _). vm_compute. exact I.
Qed.

(** A server URI without a colon is a NULL pointer that is written to. *)
Example open_without_port w : pstopen (str ".") (str "bob") (str "localhost") w = Fault.
Proof. vm_compute. reflexivity. Qed.

(** What [fclose] cannot write is lost, and 0 is returned. *)
Example fclose_loses :
  exists w1, pstput (Some example_dir) (str "s-1") [[1; 2; 3]] (Fs ∅ {[example_dir]} [FOk; FOk; FShort 1]) = Ret (0, w1) /\
    files w1 !! record_file example_dir (str "s-1") = Some [1].
Proof. eexists. split; vm_compute; reflexivity. Qed.

(** Writing a record again can lose the one there was; the documentation of the interface wants it kept. *)
Example failed_put_loses_old :
  exists w1, pstput (Some example_dir) (str "s-1") [[1; 2; 3]]
      (Fs {[record_file example_dir (str "s-1") := [1; 2; 3]]} {[example_dir]} [FOk; FShort 2]) =
        Ret (MQTTCLIENT_PERSISTENCE_ERROR, w1) /\
    files w1 !! record_file example_dir (str "s-1") = None.
Proof. eexists. split; vm_compute; reflexivity. Qed.

(** A file of the working directory that has the name of a record is removed instead of the record. *)
Example clear_removes_another :
  exists w1, pstclear (H:=in_order) (Some example_dir)
      (Fs {[record_file example_dir (str "s-1") := [1]; str "s-1.msg" := [2]]} {[example_dir; str "."]} []) = Ret (0, w1) /\
    files w1 = {[record_file example_dir (str "s-1") := [1]]}.
Proof. eexists. split; vm_compute; reflexivity. Qed.
