(* ===== verification/Persist.v ===== *)
(** * Persist: what the MQTT client keeps in its store (MQTTPersistence.c)

    A client with its persistence: the protocol state of [MqttProto], the functions and the handle of
    the store, and the outside they change.  The messages in flight are put into the store and removed
    from it, and restored when the client is created again. *)

From Stdlib Require Import ZArith Lia String.
From stdpp Require Import base tactics numbers list gmap.
From S2P Require Import Prelude LinkedList MqttPacket SockBuf MqttProto Store.

Section Persist.
Context {H W : Type}.

(** [seqnos] are the sequence numbers of the entries of [messageQueue]. *)
Record durable : Type := Durable {
  base : mqtt;
  persistence : option (MQTTClient_persistence H W);
  phandle : option H;
  outside : W;
  seqnos : list Z;
  qentry_seqno : Z
}.

Definition D (A : Type) : Type := durable -> outcome (A * durable).
Definition dret {A : Type} (a : A) : D A := fun d => Ret (a, d).
Definition dbind {A B : Type} (m : D A) (k : A -> D B) : D B := fun d => let! (a, d1) := m d in k a d1.
Definition dget : D durable := fun d => Ret (d, d).

(** A call of the protocol engine. *)
Definition lift {A : Type} (m : M A) : D A := fun d =>
  let! (a, s) := m (base d) in
  Ret (a, Durable s (persistence d) (phandle d) (outside d) (seqnos d) (qentry_seqno d)).
Definition dlift {A : Type} (o : outcome A) : D A := fun d => let! a := o in Ret (a, d).

(** A call of a function of the store with the handle; a client without persistence has none. *)
Definition call_store {A : Type} (f : MQTTClient_persistence H W -> option H -> W -> outcome (A * W)) : D A := fun d =>
  let! per := deref (persistence d) in
  let! (a, w) := f per (phandle d) (outside d) in
  Ret (a, Durable (base d) (persistence d) (phandle d) w (seqnos d) (qentry_seqno d)).

Definition set_store (per : option (MQTTClient_persistence H W)) (h : option H) (w : W) : D unit := fun d =>
  Ret (tt, Durable (base d) per h w (seqnos d) (qentry_seqno d)).

Definition st_get (k : list Z) : D (Z * option (list Z)) :=
  call_store (fun per h w => let! (rc, b, w1) := pget per h k w in Ret ((rc, b), w1)).
Definition st_keys : D (Z * list (list Z)) :=
  call_store (fun per h w => let! (rc, ks, w1) := pkeys per h w in Ret ((rc, ks), w1)).
Definition st_put (k : list Z) (bufs : list (list Z)) : D Z := call_store (fun per h => pput per h k bufs).
Definition st_remove (k : list Z) : D Z := call_store (fun per h => premove per h k).
Definition st_containskey (k : list Z) : D Z := call_store (fun per h => pcontainskey per h k).
End Persist.
Arguments durable : clear implicits.
Arguments D : clear implicits.

Notation "'let@' x ':=' m 'in' k" := (dbind m (fun x => k))
  (at level 10, x pattern, m at level 100, k at level 200) : siproxy_scope.
Notation "m >@ k" := (dbind m (fun _ => k)) (at level 100, right associativity) : siproxy_scope.

Section Operations.
Context {H W : Type}.

(** ** Creating, clearing and closing *)

Definition MQTTCLIENT_PERSISTENCE_DEFAULT : Z := 0.
Definition MQTTCLIENT_PERSISTENCE_NONE : Z := 1.
Definition MQTTCLIENT_PERSISTENCE_USER : Z := 2.

(** [file] are the functions of the default persistence, [None] without memory; [user] are those of the
    application, when the pointer is not NULL, and whether all of them are set.  The result is the code
    and the structure. *)
Definition MQTTPersistence_create (type : Z) (file : option (MQTTClient_persistence H W))
    (user : option (MQTTClient_persistence H W * bool)) : Z * option (MQTTClient_persistence H W) :=
  if type =? MQTTCLIENT_PERSISTENCE_NONE then (0, None)
  else if type =? MQTTCLIENT_PERSISTENCE_DEFAULT then
    match file with
    | Some per => (0, Some per)
    | None => (MQTTCLIENT_PERSISTENCE_ERROR, None)
    end
  else if type =? MQTTCLIENT_PERSISTENCE_USER then
    match user with
    | None => (MQTTCLIENT_PERSISTENCE_ERROR, None)
    | Some (per, complete) => (if complete then 0 else MQTTCLIENT_PERSISTENCE_ERROR, Some per)
    end
  else (MQTTCLIENT_PERSISTENCE_ERROR, None).

Definition MQTTPersistence_close : D H W Z :=
  let@ d := dget in
  match persistence d with
  | None => dret 0
  | Some per =>
      let@ (rc, w) := dlift (pclose per (phandle d) (outside d)) in
      set_store None None w >@ dret rc
  end.

Definition MQTTPersistence_clear : D H W Z :=
  let@ d := dget in
  match persistence d with
  | None => dret 0
  | Some _ => call_store (fun per h => pclear per h)
  end.

(** ** Records of packets *)

(** [buf0] is the fixed header.  Without a case that sets it, the key is not initialised. *)
Definition MQTTPersistence_put (buf0 : list Z) (buffers : list (list Z)) (htype msgId scr : Z) : D H W Z :=
  let@ d := dget in
  match persistence d with
  | None => dret 0
  | Some _ =>
      let@ key := dlift (if scr =? 0 then
                           if htype =? PUBLISH then sprintf_key PERSISTENCE_PUBLISH_SENT msgId
                           else if htype =? PUBREL then sprintf_key Store.PERSISTENCE_PUBREL msgId
                           else Fault
                         else if scr =? 1 then sprintf_key PERSISTENCE_PUBLISH_RECEIVED msgId
                         else Fault) in
      st_put key (buf0 :: buffers)
  end.

Definition MQTTPersistence_remove (type : list Z) (qos msgId : Z) : D H W Z :=
  let@ d := dget in
  match persistence d with
  | None => dret 0
  | Some _ =>
      if bool_decide (type = PERSISTENCE_PUBLISH_SENT) && (qos =? 2) then
        let@ key := dlift (sprintf_key PERSISTENCE_PUBLISH_SENT msgId) in
        st_remove key >@
        let@ key := dlift (sprintf_key Store.PERSISTENCE_PUBREL msgId) in
        st_remove key
      else
        let@ key := dlift (sprintf_key type msgId) in
        st_remove key
  end.

(** The loop of [MQTTPersistence_restorePacket]: [remaining_length] and the position behind its bytes.
    A fifth byte makes the multiplier overflow. *)
Fixpoint remaining_loop (fuel : nat) (buffer : list Z) (pos : nat) (remaining_length multiplier : Z) :
    outcome (Z * nat) :=
  match fuel with
  | O => Fault
  | S fuel' =>
      let! c := deref (buffer !! pos) in
      let remaining_length := remaining_length + Z.land c 127 * multiplier in
      if negb (Z.land c 128 =? 0) then remaining_loop fuel' buffer (S pos) remaining_length (multiplier * 128)
      else Ret (remaining_length, S pos)
  end.

Definition MQTTPersistence_restorePacket (buffer : list Z) (buflen : nat) : outcome (option packet) :=
  let! header := deref (buffer !! 0%nat) in
  let! (remaining_length, pos) := remaining_loop 4 buffer 1 0 1 in
  if Z.of_nat pos + remaining_length =? Z.of_nat buflen then
    let ptype := hd_type header in
    if (ptype <? CONNECT) || (DISCONNECT <? ptype) then Ret None
    else match new_packets ptype with
         | None => Ret None
         | Some make => make header (drop pos buffer) (Z.to_nat remaining_length)
         end
  else Ret None.

(** ** The order of the messages *)

(** The loop of [MQTTPersistence_insertInOrder]: the position of the first greater identifier. *)
Fixpoint first_greater (msgid : Z) (l : list Messages) : nat :=
  match l with
  | [] => O
  | m :: l' => if msgid <? m_msgid m then O else S (first_greater msgid l')
  end.

Definition MQTTPersistence_insertInOrder (content : Messages) (list : clist (A:=Messages)) : clist (A:=Messages) :=
  c_insert content (first_greater (m_msgid content) (items list)) list.

(** The loop of [MQTTPersistence_wrapMsgID] over the elements after the one with the identifier [prev],
    from position [i] on: the position [wrapel], if there is one. *)
Fixpoint wrap_loop (gap prev : Z) (i : nat) (wrapel : option nat) (l : list Messages) : option nat :=
  match l with
  | [] => wrapel
  | m :: l' =>
      let curgap := m_msgid m - prev in
      if gap <? curgap then wrap_loop curgap (m_msgid m) (S i) (Some i) l'
      else wrap_loop gap (m_msgid m) (S i) wrapel l'
  end.

(** The element at position [i] becomes the first one, those before it follow the last one. *)
Definition rotate_at (i : nat) (l : clist (A:=Messages)) : clist (A:=Messages) :=
  CList (drop i (items l) ++ take i (items l))
    ((fun j => if bool_decide (j < i)%nat then (j + (length (items l) - i))%nat else (j - i)%nat) <$> cursor l)
    (released l).

Definition MQTTPersistence_wrapMsgID : D H W unit :=
  lift (
    let* c := the_client in
    match items (outboundMsgs c), list.last (items (outboundMsgs c)) with
    | first :: rest, Some last =>
        let gap := MAX_MSG_ID - m_msgid last + m_msgid first in
        match wrap_loop gap (m_msgid first) 1 None rest with
        | Some i => pclient (fun c => set_outbound (rotate_at i (outboundMsgs c)) c)
        | None => pret tt
        end
    | _, _ => pret tt
    end).

(** ** Restoring the messages in flight *)

(** [strncmp (k, stem, strlen (stem)) == 0] and [strstr (k, stem) != NULL]. *)
Definition starts_with (stem k : list Z) : bool := prefixb stem k.
Definition contains (stem k : list Z) : bool := match strstr k stem with Some _ => true | None => false end.

(** A record of a message received: [MQTTProtocol_createMessage] with the header of the packet. *)
Definition restore_received (pack : packet) : D H W unit :=
  match pack with
  | PkPublish publish =>
      lift (
        let* msg := MQTTProtocol_createMessage publish None (hd_qos (p_header publish)) (hd_retain (p_header publish)) in
        let msg := Message (m_qos msg) (m_retain msg) (m_msgid msg) (m_publish msg) (m_lastTouch msg) (Some PUBREL) in
        pclient (fun c => set_inbound (c_append msg (inboundMsgs c)) c))
  | _ => dlift Fault
  end.

Definition restore_sent (pack : packet) : D H W unit :=
  match pack with
  | PkPublish publish =>
      let@ key := dlift (sprintf_key Store.PERSISTENCE_PUBREL (p_msgId publish)) in
      let@ msg := lift (MQTTProtocol_createMessage publish None (hd_qos (p_header publish)) (hd_retain (p_header publish))) in
      let@ rc := st_containskey key in
      let msg := Message (m_qos msg) (m_retain msg) (m_msgid msg) (m_publish msg) (Some 0)
        (if rc =? 0 then Some PUBCOMP else m_nextMessageType msg) in
      lift (pclient (fun c => set_outbound (MQTTPersistence_insertInOrder msg (outboundMsgs c)) c))
  | _ => dlift Fault
  end.

(** A PUBREL without its PUBLISH is removed; the result is the code. *)
Definition restore_pubrel (msgkey : list Z) (pack : packet) : D H W Z :=
  match pack with
  | PkAck pubrel =>
      let@ key := dlift (sprintf_key PERSISTENCE_PUBLISH_SENT (a_msgId pubrel)) in
      let@ rc := st_containskey key in
      if negb (rc =? 0) then st_remove msgkey else dret 0
  | _ => dlift Fault
  end.

(** One turn of the loop of [MQTTPersistence_restore]: the code. *)
Definition restore_key (msgkey : list Z) : D H W Z :=
  if starts_with PERSISTENCE_COMMAND_KEY msgkey then dret 0
  else if starts_with PERSISTENCE_QUEUE_KEY msgkey then dret 0
  else
    let@ (rc, buffer) := st_get msgkey in
    if rc =? 0 then
      let@ buffer := dlift (deref buffer) in
      let@ pack := dlift (MQTTPersistence_restorePacket buffer (length buffer)) in
      match pack with
      | Some pack =>
          if contains PERSISTENCE_PUBLISH_RECEIVED msgkey then restore_received pack >@ dret 0
          else if contains PERSISTENCE_PUBLISH_SENT msgkey then restore_sent pack >@ dret 0
          else if contains Store.PERSISTENCE_PUBREL msgkey then restore_pubrel msgkey pack
          else dret 0
      | None => st_remove msgkey
      end
    else dret rc.

Fixpoint restore_loop (msgkeys : list (list Z)) : D H W Z :=
  match msgkeys with
  | [] => dret 0
  | msgkey :: msgkeys' =>
      let@ rc := restore_key msgkey in
      if rc =? 0 then restore_loop msgkeys' else dret rc
  end.

Definition MQTTPersistence_restore : D H W Z :=
  let@ d := dget in
  let@ rc := (match persistence d with
              | None => dret 0
              | Some _ => let@ (rc, msgkeys) := st_keys in if rc =? 0 then restore_loop msgkeys else dret rc
              end) in
  MQTTPersistence_wrapMsgID >@ dret rc.

Definition MQTTPersistence_initialize (serverURI : list Z) : D H W Z :=
  let@ d := dget in
  match persistence d with
  | None => dret 0
  | Some per =>
      let@ (rc, handle, w) := dlift (popen per (clientID (client (base d))) serverURI (outside d)) in
      set_store (Some per) handle w >@
      (if rc =? 0 then MQTTPersistence_restore else dret rc)
  end.
End Operations.
