(* ===== verification/PersistQueue.v ===== *)
(** * PersistQueue: the persisted queue of messages and commands (MQTTPersistence.c, MQTTAsync.c)

    A message that waits for the application is a record of its fields, and so is a command that waits
    to be sent; both are restored in the order of the numbers in their keys, or are meant to be.  An
    [int] is four bytes, least significant byte first. *)

From Stdlib Require Import ZArith Lia String.
From stdpp Require Import base tactics numbers list gmap.
From S2P Require Import Prelude LinkedList MqttPacket SockBuf MqttProto Store Persist.

(** ** Fields of a record *)

(** The bytes of an [int]. *)
Definition int_bytes (n : Z) : list Z := [u8 n; u8 (n / 2 ^ 8); u8 (n / 2 ^ 16); u8 (n / 2 ^ 24)].

(** [*(int* )ptr] for [ptr = buffer + pos], and the next position. *)
Definition read_int (buffer : list Z) (pos : nat) : outcome (Z * nat) :=
  let! b := read_bytes buffer pos 4 in
  match b with
  | [b0; b1; b2; b3] => Ret (s32 (b0 + 2 ^ 8 * b1 + 2 ^ 16 * b2 + 2 ^ 24 * b3), (pos + 4)%nat)
  | _ => Fault
  end.

(** [strlen (ptr) + 1] bytes are copied; without a NUL the read runs out of the buffer. *)
Definition read_string (buffer : list Z) (pos : nat) : outcome (list Z * nat) :=
  if bool_decide (0 ∈ drop pos buffer) then
    Ret (cstr (drop pos buffer), (pos + strlen (drop pos buffer) + 1)%nat)
  else Fault.

(** [memcpy] of [n] bytes into a new block. *)
Definition read_block (buffer : list Z) (pos : nat) (n : Z) : outcome (list Z * nat) :=
  if n <? 0 then Fault
  else let! b := read_bytes buffer pos (Z.to_nat n) in Ret (b, (pos + Z.to_nat n)%nat).

(** ** The queue of messages *)

Section Queue.
Context {H W : Type}.

Definition set_entries (q : list app_message) (ns : list Z) (n : Z) : D H W unit := fun d =>
  Ret (tt, Durable (upd_client (set_queue q) (base d)) (persistence d) (phandle d) (outside d) ns n).

(** The buffers of a queue entry. *)
Definition entry_buffers (am : app_message) : outcome (list (list Z)) :=
  let! (payload, _) := read_block (am_payload am) 0 (am_payloadlen am) in
  Ret [int_bytes (am_payloadlen am); payload; int_bytes (am_qos am); int_bytes (am_retained am); int_bytes (am_dup am);
       int_bytes (am_msgid am); cstr (am_topic am) ++ [0]; int_bytes (am_topiclen am)].

(** The entry is the last of the queue; its number is set. *)
Definition MQTTPersistence_persistQueueEntry (qe : app_message) : D H W Z :=
  let@ bufs := dlift (entry_buffers qe) in
  let@ d := dget in
  let seqno := (qentry_seqno d + 1) mod 2 ^ 32 in
  let@ key := dlift (sprintf_key PERSISTENCE_QUEUE_KEY (s32 seqno)) in
  set_entries (messageQueue (client (base d))) (seqnos d ++ [seqno]) seqno >@
  st_put key bufs.

(** The entry with the number [seqno]. *)
Definition MQTTPersistence_unpersistQueueEntry (seqno : Z) : D H W Z :=
  let@ key := dlift (sprintf_key PERSISTENCE_QUEUE_KEY (s32 seqno)) in
  st_remove key.

Definition MQTTPersistence_restoreQueueEntry (buffer : list Z) : outcome app_message :=
  let! (payloadlen, p1) := read_int buffer 0 in
  let! (payload, p2) := read_block buffer p1 payloadlen in
  let! (qos, p3) := read_int buffer p2 in
  let! (retained, p4) := read_int buffer p3 in
  let! (dup, p5) := read_int buffer p4 in
  let! (msgid, p6) := read_int buffer p5 in
  let! (topicName, p7) := read_string buffer p6 in
  let! (topicLen, _) := read_int buffer p7 in
  Ret (AppMessage topicName topicLen payload payloadlen qos retained dup msgid).

(** The loop of [MQTTPersistence_insertInSeqOrder]: the position of the first greater number. *)
Fixpoint first_later (seqno : Z) (ns : list Z) : nat :=
  match ns with
  | [] => O
  | n :: ns' => if seqno <? n then O else S (first_later seqno ns')
  end.

Definition insert_at {A : Type} (i : nat) (x : A) (l : list A) : list A := take i l ++ x :: drop i l.

Definition MQTTPersistence_insertInSeqOrder (qe : app_message) (seqno : Z) : D H W unit :=
  let@ d := dget in
  let i := first_later seqno (seqnos d) in
  set_entries (insert_at i qe (messageQueue (client (base d)))) (insert_at i seqno (seqnos d)) (qentry_seqno d).

(** One turn of the loop of [MQTTPersistence_restoreMessageQueue]: the code. *)
Definition restore_queue_key (msgkey : list Z) : D H W Z :=
  if negb (starts_with PERSISTENCE_QUEUE_KEY msgkey) then dret 0
  else
    let@ (rc, buffer) := st_get msgkey in
    if rc =? 0 then
      let@ buffer := dlift (deref buffer) in
      let@ qe := dlift (MQTTPersistence_restoreQueueEntry buffer) in
      let seqno := atoi (drop 2 msgkey) mod 2 ^ 32 in
      MQTTPersistence_insertInSeqOrder qe seqno >@
      let@ d := dget in
      set_entries (messageQueue (client (base d))) (seqnos d) (Z.max (qentry_seqno d) seqno) >@
      dret 0
    else dret rc.

Fixpoint restore_queue_loop (msgkeys : list (list Z)) : D H W Z :=
  match msgkeys with
  | [] => dret 0
  | msgkey :: msgkeys' =>
      let@ rc := restore_queue_key msgkey in
      if rc =? 0 then restore_queue_loop msgkeys' else dret rc
  end.

Definition MQTTPersistence_restoreMessageQueue : D H W Z :=
  let@ d := dget in
  match persistence d with
  | None => dret 0
  | Some _ => let@ (rc, msgkeys) := st_keys in if rc =? 0 then restore_queue_loop msgkeys else dret rc
  end.
End Queue.

(** ** Commands *)

Section Commands.
Context {H W : Type}.

Fixpoint topic_buffers (topics : list (list Z)) (qoss : list Z) : outcome (list (list Z)) :=
  match topics with
  | [] => Ret []
  | topic :: topics' =>
      let! qos := deref (head qoss) in
      let! bufs := topic_buffers topics' (tail qoss) in
      Ret ((cstr topic ++ [0]) :: int_bytes qos :: bufs)
  end.

(** The buffers of a command; [None] for one that is not persisted.  A topic is a C string; the
    destination of a PUBLISH is not NULL while the command waits. *)
Definition command_buffers (cmd : command) : outcome (option (list (list Z))) :=
  let type := int_bytes (command_type (cmd_details cmd)) in
  let token := int_bytes (cmd_token cmd) in
  match cmd_details cmd with
  | DSubscribe topics qoss =>
      let! bufs := topic_buffers topics qoss in
      Ret (Some (type :: token :: int_bytes (Z.of_nat (length topics)) :: bufs))
  | DUnsubscribe topics =>
      Ret (Some (type :: token :: int_bytes (Z.of_nat (length topics)) :: ((fun t => cstr t ++ [0]) <$> topics)))
  | DPublish destinationName payloadlen payload qos retained =>
      let! name := deref destinationName in
      let! (data, _) := read_block payload 0 payloadlen in
      Ret (Some [type; token; cstr name ++ [0]; int_bytes payloadlen; data; int_bytes qos; int_bytes retained])
  | _ => Ret None
  end.

(** [command_seqno] is [aclient->command_seqno]; the results are the code, the number of the command
    and the new [command_seqno]. *)
Definition MQTTAsync_persistCommand (cmd : command) (command_seqno : Z) : D H W (Z * option Z * Z) :=
  let@ bufs := dlift (command_buffers cmd) in
  match bufs with
  | None => dret (0, None, command_seqno)
  | Some bufs =>
      let seqno := (command_seqno + 1) mod 2 ^ 32 in
      let@ key := dlift (sprintf_key PERSISTENCE_COMMAND_KEY (s32 seqno)) in
      let@ rc := st_put key bufs in
      dret (rc, Some seqno, seqno)
  end.

Definition MQTTAsync_unpersistCommand (seqno : Z) : D H W Z :=
  let@ key := dlift (sprintf_key PERSISTENCE_COMMAND_KEY (s32 seqno)) in
  st_remove key.

(** The loops of [MQTTAsync_restoreCommand] over the topics store through [topics], which [memset] has
    made NULL: the first turn does not return. *)
Definition restore_topics (count : Z) : outcome unit := if 0 <? count then Fault else Ret tt.

(** The token and the details; [None] for another type. *)
Definition MQTTAsync_restoreCommand (buffer : list Z) : outcome (option (Z * details)) :=
  let! (type, p1) := read_int buffer 0 in
  let! (token, p2) := read_int buffer p1 in
  if type =? SUBSCRIBE then
    let! (count, _) := read_int buffer p2 in
    let! _ := restore_topics count in
    Ret (Some (token, DSubscribe [] []))
  else if type =? UNSUBSCRIBE then
    let! (count, _) := read_int buffer p2 in
    let! _ := restore_topics count in
    Ret (Some (token, DUnsubscribe []))
  else if type =? PUBLISH then
    let! (destinationName, p3) := read_string buffer p2 in
    let! (payloadlen, p4) := read_int buffer p3 in
    let! (payload, p5) := read_block buffer p4 payloadlen in
    let! (qos, p6) := read_int buffer p5 in
    let! (retained, _) := read_int buffer p6 in
    Ret (Some (token, DPublish (Some destinationName) payloadlen payload qos retained))
  else Ret None.

(** A queued command with its number. *)
Definition queued : Type := command * Z.

Definition MQTTAsync_insertInOrder (content : queued) (l : list queued) : list queued :=
  insert_at (first_later (snd content) (snd <$> l)) content l.

(** What [MQTTPersistence_insertInOrder], which takes its contents for messages, reads as the
    identifier of a command: the low half of its [onSuccess], at the same offset. *)
Definition command_msgid (c : queued) : outcome Z := if cmd_onSuccess (fst c) then Fault else Ret 0.

Fixpoint first_greater_command (msgid : Z) (l : list queued) : outcome nat :=
  match l with
  | [] => Ret O
  | c :: l' =>
      let! id := command_msgid c in
      if msgid <? id then Ret O else let! i := first_greater_command msgid l' in Ret (S i)
  end.

Definition insert_command (content : queued) (l : list queued) : outcome (list queued) :=
  let! msgid := command_msgid content in
  let! i := first_greater_command msgid l in
  Ret (insert_at i content l).

(** One turn of the loop of [MQTTAsync_restoreCommands]: the code, the commands, [command_seqno]. The
    restored command has no callbacks and a new address. *)
Definition restore_command_key (msgkey : list Z) (cmds : list queued) (command_seqno : Z) :
    D H W (Z * list queued * Z) :=
  if negb (starts_with PERSISTENCE_COMMAND_KEY msgkey) then dret (0, cmds, command_seqno)
  else
    let@ (rc, buffer) := st_get msgkey in
    if rc =? 0 then
      let@ buffer := dlift (deref buffer) in
      let@ cmd := dlift (MQTTAsync_restoreCommand buffer) in
      match cmd with
      | None => dret (0, cmds, command_seqno)
      | Some (token, details) =>
          let seqno := atoi (drop 2 msgkey) mod 2 ^ 32 in
          let@ c := lift (new_command token false false details) in
          let@ cmds := dlift (insert_command (c, seqno) cmds) in
          dret (0, cmds, Z.max command_seqno seqno)
      end
    else dret (rc, cmds, command_seqno).

Fixpoint restore_commands_loop (msgkeys : list (list Z)) (cmds : list queued) (command_seqno : Z) :
    D H W (Z * list queued * Z) :=
  match msgkeys with
  | [] => dret (0, cmds, command_seqno)
  | msgkey :: msgkeys' =>
      let@ (rc, cmds1, n1) := restore_command_key msgkey cmds command_seqno in
      if rc =? 0 then restore_commands_loop msgkeys' cmds1 n1 else dret (rc, cmds1, n1)
  end.

Definition MQTTAsync_restoreCommands (cmds : list queued) (command_seqno : Z) : D H W (Z * list queued * Z) :=
  let@ d := dget in
  match persistence d with
  | None => dret (0, cmds, command_seqno)
  | Some _ =>
      let@ (rc, msgkeys) := st_keys in
      if rc =? 0 then restore_commands_loop msgkeys cmds command_seqno else dret (rc, cmds, command_seqno)
  end.
(** What [MQTTAsync_create] does for the persistence: the code, and the commands and [command_seqno] of
    the client. *)
Definition create_persistence (type : Z) (file : option (MQTTClient_persistence H W))
    (user : option (MQTTClient_persistence H W * bool)) (serverURI : list Z) (cmds : list queued) :
    D H W (Z * list queued * Z) :=
  let (rc, per) := MQTTPersistence_create type file user in
  let@ d := dget in
  set_store per (phandle d) (outside d) >@
  if rc =? 0 then
    let@ rc := MQTTPersistence_initialize serverURI in
    if rc =? 0 then
      let@ (_, cmds1, n) := MQTTAsync_restoreCommands cmds 0 in
      MQTTPersistence_restoreMessageQueue >@ dret (rc, cmds1, n)
    else dret (rc, cmds, 0)
  else dret (rc, cmds, 0).
End Commands.
