(* ===== verification/PersistProto.v ===== *)
(** * PersistProto: the protocol engine of a client with persistence (MQTTPacket.c, MQTTProtocolOut.c,
    MQTTProtocolClient.c, MQTTAsync.c)

    The functions of [MqttProto] that also change the store: a PUBLISH or PUBREL is recorded before it
    is sent, a PUBLISH of QoS 2 when it is received, and the records are removed when a handshake is
    complete.  Each is the function of the same name of [MqttProto] with the calls of the store. *)

From Stdlib Require Import ZArith Lia String.
From stdpp Require Import base tactics numbers list gmap.
From S2P Require Import Prelude LinkedList MqttPacket SockBuf MqttProto Store Persist PersistQueue.

Section Proto.
Context {H W : Type}.

(** ** Sending and receiving *)

(** The fixed header of a packet with a body of [n] bytes. *)
Definition fixed_header (header n : Z) : list Z := header :: MQTTPacket_encode n.

(** What [MQTTPacket_send] records of a PUBREL, and [MQTTPacket_sends] of a PUBLISH; the identifier is
    read from the buffers.  The code is overwritten by that of the socket. *)
Definition record_sent (header : Z) (buffers : list (list Z)) : D H W unit :=
  let total := s32 (Z.of_nat (sum_list (length <$> buffers))) in
  if hd_type header =? PUBREL then
    let@ buffer := dlift (deref (buffers !! 0%nat)) in
    let@ (msgId, _) := dlift (readInt buffer 0) in
    MQTTPersistence_put (fixed_header header total) buffers (hd_type header) msgId 0 >@ dret tt
  else if (hd_type header =? PUBLISH) && negb (hd_qos header =? 0) then
    let@ buffer := dlift (deref (buffers !! 2%nat)) in
    let@ (msgId, _) := dlift (readInt buffer 0) in
    MQTTPersistence_put (fixed_header header total) buffers (hd_type header) msgId 0 >@ dret tt
  else dret tt.

Definition send_d (r : outcome (Z * list (list Z))) : D H W Z :=
  let@ (header, buffers) := dlift r in
  record_sent header buffers >@
  lift (send (Ret (header, buffers))).

(** What [MQTTPacket_Factory] does with a packet of [remaining_length] bytes, which are at the start of
    the block [data]: it makes the structure and records a PUBLISH of QoS 2.  The code is that of the
    store. *)
Definition MQTTPacket_received (header remaining_length : Z) (data : list Z) : D H W (Z * option packet) :=
  let ptype := hd_type header in
  if (ptype <? CONNECT) || (DISCONNECT <? ptype) then dret (TCPSOCKET_COMPLETE, None)
  else
    match new_packets ptype with
    | None => dret (TCPSOCKET_COMPLETE, None)
    | Some make =>
        let@ pack := dlift (make header data (Z.to_nat remaining_length)) in
        match pack with
        | None => dret (-4, None)   (* BAD_MQTT_PACKET *)
        | Some pack =>
            match pack with
            | PkPublish publish =>
                if hd_qos header =? 2 then
                  let@ buffer := dlift (read_bytes data 0 (Z.to_nat remaining_length)) in
                  let@ rc := MQTTPersistence_put (fixed_header header remaining_length) [buffer] ptype (p_msgId publish) 1 in
                  dret (rc, Some pack)
                else dret (TCPSOCKET_COMPLETE, Some pack)
            | _ => dret (TCPSOCKET_COMPLETE, Some pack)
            end
        end
    end.

(** ** Publishing *)

Definition MQTTProtocol_startPublishCommon_d (publish : Publish) (qos retained : Z) : D H W Z :=
  let@ rc := send_d (MQTTPacket_send_publish publish 0 qos retained) in
  (if (qos =? 0) && (rc =? TCPSOCKET_INTERRUPTED) then lift (MQTTProtocol_storeQoS0 publish) else dret tt) >@
  dret rc.

Definition MQTTProtocol_startPublish_d (publish : Publish) (qos retained : Z) (shared : option nat) : D H W Z :=
  if 0 <? qos then
    let@ m := lift (MQTTProtocol_createMessage publish shared qos retained) in
    lift (pclient (fun c => set_outbound (c_append m (outboundMsgs c)) c)) >@
    let@ b := lift (load_pub (m_publish m)) in
    MQTTProtocol_startPublishCommon_d
      (MkPublish (p_header publish) (pb_topic b) (p_topiclen publish) (p_msgId publish) (pb_payload b)
        (p_payloadlen publish)) qos retained
  else MQTTProtocol_startPublishCommon_d publish qos retained.

(** ** Passing messages on *)

(** A message that is not delivered is the last of the queue and is recorded. *)
Definition Protocol_processPublication_d (publish : Publish) : D H W unit :=
  let@ before := dget in
  lift (Protocol_processPublication publish) >@
  let@ after := dget in
  let queue := messageQueue (client (base after)) in
  match persistence after, list.last queue with
  | Some _, Some qe =>
      if bool_decide (length (messageQueue (client (base before))) < length queue)%nat
      then MQTTPersistence_persistQueueEntry qe >@ dret tt
      else dret tt
  | _, _ => dret tt
  end.

(** The part of [MQTTAsync_receiveThread] that delivers the first message of the queue.  [ListRemove]
    frees the entry; its number is read afterwards. *)
Definition deliver_queued_d : D H W unit :=
  let@ d := dget in
  match messageQueue (client (base d)) with
  | [] => dret tt
  | qe :: rest =>
      let@ rc := lift (MQTTAsync_deliverMessage qe) in
      if rc then
        lift (pclient (set_queue rest)) >@
        match persistence d with Some _ => dlift Fault | None => dret tt end
      else dret tt
  end.

(** ** The handlers *)

Definition MQTTProtocol_handlePublishes_d (publish : Publish) (sock : Z) : D H W Z :=
  let@ c := lift (client_of sock) in
  let qos := hd_qos (p_header publish) in
  if qos =? 0 then Protocol_processPublication_d publish >@ dret TCPSOCKET_COMPLETE
  else if qos =? 1 then
    let@ rc := send_d (MQTTPacket_send_puback (p_msgId publish)) in
    Protocol_processPublication_d publish >@ dret rc
  else lift (MQTTProtocol_handlePublishes publish sock).

Definition MQTTProtocol_handlePubacks_d (puback : Ack) (sock : Z) : D H W Z :=
  let@ c := lift (client_of sock) in
  let@ found := lift (find_outbound (a_msgId puback)) in
  match found with
  | None => dret TCPSOCKET_COMPLETE
  | Some (_, m) =>
      if negb (m_qos m =? 1) then dret TCPSOCKET_COMPLETE
      else
        let@ rc := MQTTPersistence_remove PERSISTENCE_PUBLISH_SENT (m_qos m) (a_msgId puback) in
        lift (MQTTProtocol_removePublication (m_publish m)) >@
        lift (pclient (fun c => set_outbound (remove_message m (outboundMsgs c)) c)) >@
        dret rc
  end.

Definition MQTTProtocol_handlePubrecs_d (pubrec : Ack) (sock : Z) : D H W Z :=
  let@ c := lift (client_of sock) in
  lift (pclient (fun c => set_outbound (CList (items (outboundMsgs c)) None (released (outboundMsgs c))) c)) >@
  let@ found := lift (find_outbound (a_msgId pubrec)) in
  match found with
  | None => dret TCPSOCKET_COMPLETE
  | Some (i, m) =>
      if negb (m_qos m =? 2) then dret TCPSOCKET_COMPLETE
      else
        let@ next := dlift (deref (m_nextMessageType m)) in
        if negb (next =? PUBREC) then dret TCPSOCKET_COMPLETE
        else
          let@ rc := send_d (MQTTPacket_send_pubrel (a_msgId pubrec) 0) in
          let@ t := lift time in
          lift (pclient (fun c => set_outbound (set_message i
            (Message (m_qos m) (m_retain m) (m_msgid m) (m_publish m) (Some t) (Some PUBCOMP)) (outboundMsgs c)) c)) >@
          dret rc
  end.

Definition MQTTProtocol_handlePubrels_d (pubrel : Ack) (sock : Z) : D H W Z :=
  let@ c := lift (client_of sock) in
  let@ found := lift (find_inbound (a_msgId pubrel)) in
  match found with
  | None =>
      if hd_dup (a_header pubrel) =? 0 then dret TCPSOCKET_COMPLETE
      else send_d (MQTTPacket_send_pubcomp (a_msgId pubrel))
  | Some (_, m) =>
      if negb (m_qos m =? 2) then dret TCPSOCKET_COMPLETE
      else
        let@ next := dlift (deref (m_nextMessageType m)) in
        if negb (next =? PUBREL) then dret TCPSOCKET_COMPLETE
        else
          let@ rc := send_d (MQTTPacket_send_pubcomp (a_msgId pubrel)) in
          let@ b := lift (load_pub (m_publish m)) in
          Protocol_processPublication_d
            (MkPublish (Header 0 0 (m_qos m) (m_retain m)) (pb_topic b) (pb_topiclen b) (m_msgid m) (pb_payload b)
              (pb_payloadlen b)) >@
          let@ rc2 := MQTTPersistence_remove PERSISTENCE_PUBLISH_RECEIVED (m_qos m) (a_msgId pubrel) in
          lift (unlist_pub (m_publish m)) >@
          lift (pclient (fun c => set_inbound (remove_message m (inboundMsgs c)) c)) >@
          let@ s := lift MqttProto.pget in
          lift (pmod (set_counts ((msgs_received s + 1) mod 2 ^ 32) (msgs_sent s))) >@
          dret (rc + rc2)
  end.

Definition MQTTProtocol_handlePubcomps_d (pubcomp : Ack) (sock : Z) : D H W Z :=
  let@ c := lift (client_of sock) in
  let@ found := lift (find_outbound (a_msgId pubcomp)) in
  match found with
  | None => dret TCPSOCKET_COMPLETE
  | Some (_, m) =>
      if negb (m_qos m =? 2) then dret TCPSOCKET_COMPLETE
      else
        let@ next := dlift (deref (m_nextMessageType m)) in
        if negb (next =? PUBCOMP) then dret TCPSOCKET_COMPLETE
        else
          let@ rc := MQTTPersistence_remove PERSISTENCE_PUBLISH_SENT (m_qos m) (a_msgId pubcomp) in
          lift (MQTTProtocol_removePublication (m_publish m)) >@
          lift (pclient (fun c => set_outbound (remove_message m (outboundMsgs c)) c)) >@
          let@ s := lift MqttProto.pget in
          lift (pmod (set_counts (msgs_received s) ((msgs_sent s + 1) mod 2 ^ 32))) >@
          dret rc
  end.

(** The handler of a packet. *)
Definition handle_d (p : packet) (sock : Z) : D H W Z :=
  match p with
  | PkPublish q => MQTTProtocol_handlePublishes_d q sock
  | PkAck a =>
      let t := hd_type (a_header a) in
      if t =? PUBACK then MQTTProtocol_handlePubacks_d a sock
      else if t =? PUBREC then MQTTProtocol_handlePubrecs_d a sock
      else if t =? PUBREL then MQTTProtocol_handlePubrels_d a sock
      else if t =? PUBCOMP then MQTTProtocol_handlePubcomps_d a sock
      else if t =? UNSUBACK then lift (MQTTProtocol_handleUnsubacks sock)
      else dret 0
  | PkSuback _ => lift (MQTTProtocol_handleSubacks sock)
  | PkHeader h => if hd_type h =? PINGRESP then lift (MQTTProtocol_handlePingresps sock) else dret 0
  | PkConnack _ => dret 0
  end.

(** A packet from the server: recorded when it arrives, then handled. *)
Definition packet_d (header remaining_length : Z) (data : list Z) (sock : Z) : D H W unit :=
  let@ (_, pack) := MQTTPacket_received header remaining_length data in
  match pack with
  | Some pack => handle_d pack sock >@ dret tt
  | None => dret tt
  end.
End Proto.
