(* ===== verification/PersistRecords.v ===== *)
(** * PersistRecords: records of packets and what is restored from them

    The record of a PUBLISH or PUBREL is the packet; [MQTTPersistence_restorePacket] reads it back. *)

From Stdlib Require Import ZArith Lia String.
From stdpp Require Import base tactics numbers list gmap.
From S2P Require Import Prelude LinkedList MqttPacket SockBuf MqttRead MqttProto MqttSession Store Persist PersistQueue PersistProto.

(** A packet: the header byte, the length of the body and the body. *)
Definition record (header : Z) (body : list Z) : list Z := fixed_header header (Z.of_nat (length body)) ++ body.

Lemma remaining_spec e : forall fuel buffer pos rest v mul,
  drop pos buffer = e ++ rest -> well_ended e -> (length e <= fuel)%nat ->
  remaining_loop fuel buffer pos v mul = Ret (v + decode_value e * mul, (pos + length e)%nat).
Proof.
  induction e as [|c e IH]; intros fuel buffer pos rest v mul Hd Hw Hl; [done|].
  destruct fuel as [|fuel]; [simpl in Hl; lia|]. cbn [remaining_loop].
  assert (Hc : buffer !! pos = Some c) by (rewrite <- (Nat.add_0_r pos), <- lookup_drop, Hd; done).
  rewrite Hc. cbn [deref obind]. destruct e as [|c2 e].
  - cbn [well_ended] in Hw. rewrite Hw. change (negb (0 =? 0)) with false. cbn iota. do 2 f_equal; [|simpl; lia].
    cbn [decode_value]. lia.
  - destruct Hw as [H1 Hw]. destruct (Z.eqb_spec (Z.land c 128) 0); [done|]. cbn [negb].
    rewrite (IH fuel buffer (S pos) rest); [|by rewrite <- Nat.add_1_r, <- drop_drop, Hd|done|simpl in *; lia].
    do 2 f_equal; [|simpl; lia]. change (decode_value (c :: c2 :: e)) with (Z.land c 127 + 128 * decode_value (c2 :: e)).
    lia.
Qed.

Lemma restorePacket_record h body make :
  Z.of_nat (length body) < 128 ^ 4 -> new_packets (hd_type h) = Some make ->
  MQTTPersistence_restorePacket (record h body) (length (record h body)) = make h body (length body).
Proof.
  intros Hl Hm. destruct (encode_ok h body Hl) as (V & Wd & L4). set (e := MQTTPacket_encode (Z.of_nat (length body))) in *.
  assert (E : record h body = h :: e ++ body) by done. unfold MQTTPersistence_restorePacket. rewrite E. cbn [lookup list_lookup deref obind].
  rewrite (remaining_spec e 4 _ 1 body 0 1) by (done || lia). cbn [obind]. rewrite V.
  rewrite (proj2 (Z.eqb_eq _ _)) by (rewrite length_cons, length_app; lia).
  rewrite known_type, Hm by by rewrite Hm. replace (drop (1 + length e) (h :: e ++ body)) with body.
  - f_equal. lia.
  - change (drop (1 + length e) (h :: e ++ body)) with (drop (length e) (e ++ body)). by rewrite drop_app_length.
Qed.

(** ** Messages in flight *)

(** The record [r] is a PUBLISH of the flow [f]; the length of its topic is that of the topic. *)
Definition flow_record (f : flow) (r : list Z) : Prop :=
  exists pack, MQTTPersistence_restorePacket r (length r) = Ret (Some (PkPublish pack)) /\ pack_ok pack /\
    p_msgId pack = f_id f /\ hd_qos (p_header pack) = f_qos f /\ hd_retain (p_header pack) = f_retain f /\
    p_topic pack = f_topic f /\ p_topiclen pack = Z.of_nat (length (f_topic f)) /\
    take (Z.to_nat (p_payloadlen pack)) (p_payload pack) = f_payload f.

(** The body of a PUBLISH packet is read as its fields, and a record of it as the flow. *)
Lemma flow_record_publish h topic msgId payload stage :
  short topic -> 0 <= msgId < 65536 -> hd_type h = PUBLISH -> 0 < hd_qos h ->
  Z.of_nat (length (publish_body topic (hd_qos h) msgId payload)) < 128 ^ 4 ->
  flow_record (Flow msgId (hd_qos h) (hd_retain h) topic (Z.of_nat (length topic)) payload stage)
    (record h (publish_body topic (hd_qos h) msgId payload)).
Proof.
  intros Ht Hi Hh Hq Hl. eexists. split; [|cbn [f_id f_qos f_retain f_topic f_topiclen f_payload]].
  - rewrite (restorePacket_record _ _ MQTTPacket_publish); [|done|by rewrite Hh].
    rewrite <- (app_nil_r (publish_body _ _ _ _)) at 1. apply publish_read; [done|done|].
    change (128 ^ 4) with 268435456 in Hl. lia.
  - unfold pack_ok. cbn. destruct (Z.ltb_spec 0 (hd_qos h)); [|lia]. rewrite app_nil_r.
    split_and!; try done; try lia. apply take_ge. lia.
Qed.

(** ** Acknowledgements *)

Lemma ack_record type id :
  type ∈ [PUBACK; PUBREC; PUBREL; PUBCOMP] -> 0 <= id < 65536 ->
  let h := Header type 0 (if type =? PUBREL then 1 else 0) 0 in
  MQTTPersistence_restorePacket (record h (be16 id)) (length (record h (be16 id))) = Ret (Some (PkAck (MkAck h id))).
Proof.
  intros Ht Hi h. rewrite (restorePacket_record h (be16 id) MQTTPacket_ack); [|done|].
  - unfold MQTTPacket_ack. pose proof (readInt_app [] id [] Hi) as E. rewrite app_nil_r in E. cbn [app length] in E.
    by rewrite E.
  - subst h. revert Ht. rewrite !elem_of_cons, elem_of_nil. by intros [->|[->|[->|[->|[]]]]].
Qed.
