(* ===== verification/PersistSim.v ===== *)
(** * PersistSim: a client with persistence runs as one without

    The store behind the handle holds a map of records; a call of [PersistProto] does to the protocol
    state what the call of [MqttProto] does, and to the map what its name says. *)

From Stdlib Require Import ZArith Lia String Sorting.Sorted.
From stdpp Require Import base tactics numbers list gmap.
From S2P Require Import Prelude LinkedList MqttPacket SockBuf MqttProto MqttSession Store Persist PersistQueue PersistProto PersistRecords.

(** ** The keys *)

Definition s_key : Z -> list Z := key PERSISTENCE_PUBLISH_SENT.
Definition sc_key : Z -> list Z := key Store.PERSISTENCE_PUBREL.
Definition r_key : Z -> list Z := key PERSISTENCE_PUBLISH_RECEIVED.
Definition q_key : Z -> list Z := key PERSISTENCE_QUEUE_KEY.

(** The bytes before the first hyphen tell the keys of different records apart. *)
Definition stem_of (k : list Z) : option nat := fst <$> list_find (fun c => c = 45) k.
Definition tag (k : list Z) : list Z := match stem_of k with Some i => take i k | None => k end.

(** Keys with different stems are different. *)
Ltac key_ne := let E := fresh in intros E; apply (f_equal tag) in E; discriminate E.

Lemma s_key_inj a b : s_key a = s_key b -> a = b.
Proof. apply key_id_inj. Qed.
Lemma sc_key_inj a b : sc_key a = sc_key b -> a = b.
Proof. apply key_id_inj. Qed.
Lemma r_key_inj a b : r_key a = r_key b -> a = b.
Proof. apply key_id_inj. Qed.
Lemma q_key_inj a b : q_key a = q_key b -> a = b.
Proof. apply key_id_inj. Qed.

Lemma id_key stem id : 0 <= id < 65536 -> stem <> [] -> Forall key_byte stem -> (length stem <= 3)%nat ->
  sprintf_key stem id = Ret (key stem id) /\ is_key (key stem id).
Proof.
  intros Hi Hs Hf Hl. split; [|apply key_ok; [lia|done..]]. apply sprintf_key_eq; [|lia].
  assert (10 ^ 5 <= 10 ^ Z.of_nat (8 - length stem)) by (apply Z.pow_le_mono_r; lia). lia.
Qed.

(** The record under a key that no protocol message has. *)
Definition is_q_key (k : list Z) : Prop := exists n, k = q_key n.

(** ** What the engine leaves alone *)

(** The queue of messages is not touched. *)
Definition quiet {A} (m : M A) : Prop :=
  forall s a s', m s = Ret (a, s') -> messageQueue (client s') = messageQueue (client s).

Lemma quiet_ret {A} (a : A) : quiet (pret a).
Proof. by intros s a' s' [= <- <-]. Qed.
Lemma quiet_get : quiet MqttProto.pget.
Proof. by intros s a s' [= <- <-]. Qed.
Lemma quiet_lift {A} (o : outcome A) : quiet (plift o).
Proof. intros s a s'. unfold plift. destruct o; cbn; [|done..]. by intros [= <- <-]. Qed.
Lemma quiet_mod f : (forall s, messageQueue (client (f s)) = messageQueue (client s)) -> quiet (pmod f).
Proof. intros H s a s' [= <- <-]. apply H. Qed.
Lemma quiet_client f : (forall c, messageQueue (f c) = messageQueue c) -> quiet (pclient f).
Proof. intros H. apply quiet_mod. intros s. apply H. Qed.
Lemma quiet_bind {A B} (m : M A) (k : A -> M B) : quiet m -> (forall a, quiet (k a)) -> quiet (pbind m k).
Proof.
  intros Hm Hk s b s' H. unfold pbind in H. destruct (m s) as [[a s1]| | |] eqn:E; [|done..]. cbn in H.
  rewrite <- (Hm _ _ _ E). by eapply Hk.
Qed.

Create HintDb quiet.
#[export] Hint Resolve quiet_ret quiet_get quiet_lift : quiet.

Ltac keep_quiet :=
  repeat first
    [ progress (auto with quiet)
    | apply quiet_bind; [|intros ?]
    | apply quiet_client; by intros ?
    | apply quiet_mod; by intros ?
    | case_match ].

Lemma quiet_send r : quiet (send r).
Proof. unfold send, time. keep_quiet. Qed.
Lemma quiet_load p : quiet (load_pub p).
Proof. unfold load_pub. keep_quiet. Qed.
Lemma quiet_unlist p : quiet (unlist_pub p).
Proof. unfold unlist_pub. keep_quiet. Qed.
Lemma quiet_store q : quiet (MQTTProtocol_storePublication q).
Proof. unfold MQTTProtocol_storePublication. keep_quiet. Qed.
Lemma quiet_out id : quiet (find_outbound id).
Proof. unfold find_outbound, the_client. keep_quiet. Qed.
Lemma quiet_in id : quiet (find_inbound id).
Proof. unfold find_inbound, the_client. keep_quiet. Qed.
Lemma quiet_of sock : quiet (client_of sock).
Proof. unfold client_of, the_client. keep_quiet. Qed.
Lemma quiet_time : quiet time.
Proof. unfold time. keep_quiet. Qed.
#[export] Hint Resolve quiet_send quiet_load quiet_unlist quiet_store quiet_out quiet_in quiet_of quiet_time : quiet.
Lemma quiet_remove q : quiet (MQTTProtocol_removePublication q).
Proof. unfold MQTTProtocol_removePublication. keep_quiet. Qed.
Lemma quiet_create p sh q r : quiet (MQTTProtocol_createMessage p sh q r).
Proof. unfold MQTTProtocol_createMessage. keep_quiet. Qed.
#[export] Hint Resolve quiet_remove quiet_create : quiet.

(** ** Simulation *)

Section Sim.
Context {H W : Type} (per : MQTTClient_persistence H W) `{!Persistence per} (h : H).

(** The client has the persistence [per], and behind its handle are the records [m]. *)
Record linked (d : durable H W) (m : gmap (list Z) (list Z)) : Prop := {
  ln_per : persistence d = Some per;
  ln_handle : phandle d = Some h;
  ln_holds : holds h (outside d) m;
  ln_healthy : healthy (outside d)
}.

(** When [mb] returns on the protocol state, [md] does, with the same state and [Q] of the rest. *)
Definition sim {A B} (md : D H W A) (mb : M B) (Q : A -> B -> durable H W -> gmap (list Z) (list Z) -> Prop)
    (d : durable H W) (m : gmap (list Z) (list Z)) : Prop :=
  forall b s', mb (base d) = Ret (b, s') ->
    exists a d' m', md d = Ret (a, d') /\ base d' = s' /\ linked d' m' /\ Q a b d' m'.

(** The queue of messages and its numbers are the same. *)
Definition same_queue (d d' : durable H W) : Prop :=
  seqnos d' = seqnos d /\ qentry_seqno d' = qentry_seqno d /\
  messageQueue (client (base d')) = messageQueue (client (base d)).

#[export] Instance same_queue_preorder : PreOrder same_queue.
Proof. split; [done|]. intros x y z (? & ? & ?) (? & ? & ?). unfold same_queue. split_and!; congruence. Qed.

Lemma sim_ret {A B} (a : A) (b : B) (Q : _ -> _ -> _ -> _ -> Prop) d m :
  linked d m -> Q a b d m -> sim (dret a) (pret b) Q d m.
Proof. intros Hl HQ b' s' [= <- <-]. by exists a, d, m. Qed.

Lemma sim_lift {A} (mb : M A) d m :
  linked d m -> quiet mb -> sim (lift mb) mb (fun a b d' m' => a = b /\ m' = m /\ same_queue d d') d m.
Proof.
  intros Hl Hq b s' E. unfold lift. rewrite E. cbn [obind]. eexists b, _, m. split; [reflexivity|].
  split; [done|]. split; [by destruct Hl|]. split; [done|]. split; [done|]. split; [done|]. split; [done|]. cbn.
  by apply (Hq (base d) b).
Qed.

Lemma sim_bind {A B A' B'} (md : D H W A) (k : A -> D H W A') (mb : M B) (l : B -> M B')
    (Q1 : A -> B -> durable H W -> gmap (list Z) (list Z) -> Prop) (Q : A' -> B' -> durable H W -> gmap (list Z) (list Z) -> Prop) d m :
  sim md mb Q1 d m ->
  (forall a b d1 m1, linked d1 m1 -> Q1 a b d1 m1 -> mb (base d) = Ret (b, base d1) -> sim (k a) (l b) Q d1 m1) ->
  sim (dbind md k) (pbind mb l) Q d m.
Proof.
  intros H1 H2 b' s' E. unfold pbind in E. destruct (mb (base d)) as [[b s1]| | |] eqn:Eb; [|done..]. cbn [obind] in E.
  destruct (H1 b s1 Eb) as (a & d1 & m1 & Ed & Es & Hl1 & HQ). unfold dbind. rewrite Ed. cbn [obind].
  subst s1. by apply (H2 a b d1 m1).
Qed.

(** A lifted call, then the rest. *)
Lemma sim_step {A A' B'} (mb : M A) (k : A -> D H W A') (l : A -> M B') (Q : A' -> B' -> _ -> _ -> Prop) d m :
  linked d m -> quiet mb ->
  (forall a d1, linked d1 m -> same_queue d d1 -> mb (base d) = Ret (a, base d1) -> sim (k a) (l a) Q d1 m) ->
  sim (dbind (lift mb) k) (pbind mb l) Q d m.
Proof.
  intros Hl Hq Hk. eapply sim_bind; [by apply sim_lift|]. intros a b d1 m1 Hl1 (-> & -> & Hs). by apply Hk.
Qed.

(** A call that changes the store only, then the rest. *)
Lemma sim_store {A A' B'} (md : D H W A) (k : A -> D H W A') (mb : M B') (Q : A' -> B' -> _ -> _ -> Prop) d :
  (exists a d1 m1, md d = Ret (a, d1) /\ base d1 = base d /\ sim (k a) mb Q d1 m1) ->
  forall m, sim (dbind md k) mb Q d m.
Proof.
  intros (a & d1 & m1 & E & Eb & Hs) m b s' Hb. unfold dbind. rewrite E. cbn [obind]. apply Hs. by rewrite Eb.
Qed.

Lemma sim_pure {A A' B'} (o : outcome A) (k : A -> D H W A') (mb : M B') (Q : A' -> B' -> _ -> _ -> Prop) d m a :
  o = Ret a -> sim (k a) mb Q d m -> sim (dbind (dlift o) k) mb Q d m.
Proof. intros ->. done. Qed.

(** ** The calls of the store *)

(** The store alone is another one. *)
Definition with_outside (d : durable H W) (w : W) : durable H W :=
  Durable (base d) (persistence d) (phandle d) w (seqnos d) (qentry_seqno d).

Lemma linked_outside d m w m' :
  linked d m -> holds h w m' -> healthy w -> linked (with_outside d w) m'.
Proof. intros [] ??. by split. Qed.

Lemma st_put_run d m k bufs :
  linked d m -> is_key k ->
  exists w, st_put k bufs d = Ret (0, with_outside d w) /\ linked (with_outside d w) (<[k := concat bufs]> m).
Proof.
  intros Hl Hk. destruct (put_law h (outside d) m k bufs (ln_holds _ _ Hl) Hk) as (rc & w & E & _ & _ & G).
  destruct (G (ln_healthy _ _ Hl)) as (-> & Hw & Hh). exists w. split; [|by apply (linked_outside d m)].
  unfold st_put, call_store, with_outside. rewrite (ln_per _ _ Hl), (ln_handle _ _ Hl). cbn [deref obind]. by rewrite E.
Qed.

Lemma st_remove_run d m k :
  linked d m -> is_key k ->
  exists w, st_remove k d = Ret (0, with_outside d w) /\ linked (with_outside d w) (delete k m).
Proof.
  intros Hl Hk. destruct (remove_law h (outside d) m k (ln_holds _ _ Hl) Hk) as (rc & w & E & _ & Hh & G).
  destruct (G (ln_healthy _ _ Hl)) as (-> & Hw). exists w. split; [|by apply (linked_outside d m)].
  unfold st_remove, call_store, with_outside. rewrite (ln_per _ _ Hl), (ln_handle _ _ Hl). cbn [deref obind]. by rewrite E.
Qed.

Lemma st_get_run d m k c :
  linked d m -> is_key k -> m !! k = Some c ->
  exists w, st_get k d = Ret ((0, Some c), with_outside d w) /\ linked (with_outside d w) m.
Proof.
  intros Hl Hk Hc. destruct (get_law h (outside d) m k (ln_holds _ _ Hl) Hk) as (rc & b & w & E & Hh & _ & Hb & G).
  destruct (G (ln_healthy _ _ Hl)) as [Hw Hs]. rewrite Hc in Hs, Hb.
  assert (rc = 0) as -> by by apply Hs. destruct (Hb eq_refl) as [-> _].
  exists w. split; [|by apply (linked_outside d m)].
  unfold st_get, call_store, with_outside. rewrite (ln_per _ _ Hl), (ln_handle _ _ Hl). cbn [deref obind]. by rewrite E.
Qed.

Lemma st_keys_run d m :
  linked d m ->
  exists ks w, st_keys d = Ret ((0, ks), with_outside d w) /\ linked (with_outside d w) m /\ ks ≡ₚ (map_to_list m).*1.
Proof.
  intros Hl. destruct (keys_law h (outside d) m (ln_holds _ _ Hl)) as (rc & ks & w & E & Hh & _ & Hks & G).
  destruct (G (ln_healthy _ _ Hl)) as [-> Hw]. exists ks, w. split; [|split; [by apply (linked_outside d m)|by apply Hks]].
  unfold st_keys, call_store, with_outside. rewrite (ln_per _ _ Hl), (ln_handle _ _ Hl). cbn [deref obind]. by rewrite E.
Qed.

Lemma st_containskey_run d m k :
  linked d m -> is_key k ->
  exists rc w, st_containskey k d = Ret (rc, with_outside d w) /\ linked (with_outside d w) m /\
    (rc = 0 <-> is_Some (m !! k)).
Proof.
  intros Hl Hk. destruct (containskey_law h (outside d) m k (ln_holds _ _ Hl) Hk) as (rc & w & E & Hh & _ & Hb & G).
  destruct (G (ln_healthy _ _ Hl)) as [Hw Hs]. exists rc, w. split; [|split; [by apply (linked_outside d m)|by split]].
  unfold st_containskey, call_store, with_outside. rewrite (ln_per _ _ Hl), (ln_handle _ _ Hl). cbn [deref obind]. by rewrite E.
Qed.

(** Recording and removing. *)
Lemma put_sent_run d m buf0 bufs htype id :
  linked d m -> 0 <= id < 65536 -> htype = PUBLISH \/ htype = PUBREL ->
  exists w, MQTTPersistence_put buf0 bufs htype id 0 d = Ret (0, with_outside d w) /\
    linked (with_outside d w) (<[(if htype =? PUBLISH then s_key id else sc_key id) := buf0 ++ concat bufs]> m).
Proof.
  intros Hl Hi Ht. unfold MQTTPersistence_put, dbind at 1. cbn [dget obind]. rewrite (ln_per _ _ Hl).
  change (0 =? 0) with true. cbn iota.
  destruct (id_key PERSISTENCE_PUBLISH_SENT id Hi) as [E1 K1]; [done|decide_all|vm_compute; lia|].
  destruct (id_key Store.PERSISTENCE_PUBREL id Hi) as [E2 K2]; [done|decide_all|vm_compute; lia|].
  destruct Ht as [-> | ->]; cbn [Z.eqb]; unfold dbind, dlift; rewrite ?E1, ?E2; cbn [obind];
    [apply (st_put_run d m _ (buf0 :: bufs) Hl K1)|apply (st_put_run d m _ (buf0 :: bufs) Hl K2)].
Qed.

Lemma put_received_run d m buf0 bufs htype id :
  linked d m -> 0 <= id < 65536 ->
  exists w, MQTTPersistence_put buf0 bufs htype id 1 d = Ret (0, with_outside d w) /\
    linked (with_outside d w) (<[r_key id := buf0 ++ concat bufs]> m).
Proof.
  intros Hl Hi. unfold MQTTPersistence_put, dbind at 1. cbn [dget obind]. rewrite (ln_per _ _ Hl).
  change (1 =? 0) with false. change (1 =? 1) with true. cbn iota.
  destruct (id_key PERSISTENCE_PUBLISH_RECEIVED id Hi) as [E1 K1]; [done|decide_all|vm_compute; lia|].
  unfold dbind, dlift; rewrite E1; cbn [obind]. apply (st_put_run d m _ (buf0 :: bufs) Hl K1).
Qed.

Lemma remove_one_run d m type qos id :
  linked d m -> 0 <= id < 65536 ->
  type = PERSISTENCE_PUBLISH_SENT /\ qos <> 2 \/ type = PERSISTENCE_PUBLISH_RECEIVED ->
  exists w, MQTTPersistence_remove type qos id d = Ret (0, with_outside d w) /\
    linked (with_outside d w) (delete (key type id) m).
Proof.
  intros Hl Hi Ht. unfold MQTTPersistence_remove, dbind at 1. cbn [dget obind]. rewrite (ln_per _ _ Hl).
  assert (E0 : bool_decide (type = PERSISTENCE_PUBLISH_SENT) && (qos =? 2) = false).
  { destruct Ht as [[-> ?] | ->]; [|done]. rewrite bool_decide_eq_true_2 by done. by apply Z.eqb_neq. }
  rewrite E0. assert (Hk : sprintf_key type id = Ret (key type id) /\ is_key (key type id)).
  { destruct Ht as [[-> _] | ->]; apply id_key; try done; (decide_all || (vm_compute; lia)). }
  destruct Hk as [E1 K1]. unfold dbind, dlift. rewrite E1. cbn [obind]. by apply st_remove_run.
Qed.

Lemma remove_both_run d m id :
  linked d m -> 0 <= id < 65536 ->
  exists w, MQTTPersistence_remove PERSISTENCE_PUBLISH_SENT 2 id d = Ret (0, with_outside d w) /\
    linked (with_outside d w) (delete (sc_key id) (delete (s_key id) m)).
Proof.
  intros Hl Hi. unfold MQTTPersistence_remove, dbind at 1. cbn [dget obind]. rewrite (ln_per _ _ Hl).
  change (bool_decide (PERSISTENCE_PUBLISH_SENT = PERSISTENCE_PUBLISH_SENT) && (2 =? 2)) with true. cbn iota.
  destruct (id_key PERSISTENCE_PUBLISH_SENT id Hi) as [E1 K1]; [done|decide_all|vm_compute; lia|].
  destruct (id_key Store.PERSISTENCE_PUBREL id Hi) as [E2 K2]; [done|decide_all|vm_compute; lia|].
  destruct (st_remove_run d m _ Hl K1) as (w1 & R1 & L1). destruct (st_remove_run _ _ _ L1 K2) as (w2 & R2 & L2).
  exists w2. split; [|done]. unfold dbind, dlift. rewrite E1. cbn [obind]. rewrite R1. cbn [obind]. rewrite E2.
  cbn [obind]. exact R2.
Qed.

(** ** Sending *)

(** A packet that is not recorded. *)
Lemma sim_send_plain p d m :
  linked d m -> hd_type (fst p) <> PUBREL -> hd_type (fst p) <> PUBLISH \/ hd_qos (fst p) = 0 ->
  sim (send_d (Ret p)) (send (Ret p)) (fun a b d' m' => a = b /\ m' = m /\ same_queue d d') d m.
Proof.
  intros Hl H1 H2. destruct p as [hd bufs]. cbn [fst] in *. unfold send_d.
  apply (sim_pure _ _ _ _ _ _ (hd, bufs)); [done|]. unfold record_sent. apply Z.eqb_neq in H1. rewrite H1.
  assert (E : (hd_type hd =? PUBLISH) && negb (hd_qos hd =? 0) = false).
  { destruct H2 as [H2| ->]; [apply Z.eqb_neq in H2; by rewrite H2|]. by rewrite andb_false_r. }
  rewrite E. apply sim_store. exists tt, d, m. split; [done|]. split; [done|]. apply sim_lift; [done|]. auto with quiet.
Qed.

(** A packet that is recorded under [k]: its identifier is in the buffer at position [i]. *)
Lemma sim_send_recorded hd bufs i buf d m id pos :
  linked d m -> 0 <= id < 65536 -> Z.of_nat (length (concat bufs)) < 128 ^ 4 ->
  hd_type hd = PUBREL /\ i = 0%nat \/ hd_type hd = PUBLISH /\ hd_qos hd <> 0 /\ i = 2%nat ->
  bufs !! i = Some buf -> readInt buf 0 = Ret (id, pos) ->
  sim (send_d (Ret (hd, bufs))) (send (Ret (hd, bufs))) (fun a b d' m' => a = b /\
    m' = <[(if hd_type hd =? PUBLISH then s_key id else sc_key id) := record hd (concat bufs)]> m /\ same_queue d d') d m.
Proof.
  intros Hl Hi Hc Ht Hb Hr. unfold send_d. apply (sim_pure _ _ _ _ _ _ (hd, bufs)); [done|].
  assert (Es : s32 (Z.of_nat (sum_list (length <$> bufs))) = Z.of_nat (length (concat bufs))).
  { assert (E : sum_list (length <$> bufs) = length (concat bufs)).
    { clear. induction bufs; [done|]. simpl. rewrite length_app. by f_equal. }
    rewrite E. apply s32_id. change (128 ^ 4) with 268435456 in Hc. lia. }
  destruct (put_sent_run d m (fixed_header hd (Z.of_nat (length (concat bufs)))) bufs (hd_type hd) id Hl Hi) as (w & E & Hl').
  { destruct Ht as [[? _]|[? _]]; tauto. }
  apply sim_store. exists tt, (with_outside d w), (<[(if hd_type hd =? PUBLISH then s_key id else sc_key id) := record hd (concat bufs)]> m).
  split.
  - unfold record_sent. rewrite Es. destruct Ht as [[Ht ->]|(Ht & Hq & ->)]; rewrite !Ht.
    + change (PUBREL =? PUBREL) with true. cbn iota. unfold dbind, dlift. rewrite Hb. cbn [deref obind]. rewrite Hr.
      cbn [obind]. rewrite Ht in E. by rewrite E.
    + change (PUBLISH =? PUBREL) with false. change (PUBLISH =? PUBLISH) with true. cbn iota.
      apply Z.eqb_neq in Hq. rewrite Hq. cbn [andb negb]. unfold dbind, dlift. rewrite Hb. cbn [deref obind]. rewrite Hr.
      cbn [obind]. rewrite Ht in E. by rewrite E.
  - split; [done|]. intros b s' Eb.
    destruct (sim_lift (send (Ret (hd, bufs))) _ _ Hl' ltac:(auto with quiet) b s' Eb) as (a & d' & m' & E1 & E2 & E3 & E4 & E5 & E6).
    exists a, d', m'. by split_and!.
Qed.

(** ** Passing messages on *)

(** The entries of the queue are recorded under their numbers, which increase. *)
Record queue_ok (d : durable H W) (m : gmap (list Z) (list Z)) : Prop := {
  qo_entries : Forall2 (fun n am => exists bufs, entry_buffers am = Ret bufs /\ m !! q_key n = Some (concat bufs))
    (seqnos d) (messageQueue (client (base d)));
  qo_sorted : StronglySorted Z.lt (seqnos d);
  qo_bound : Forall (fun n => 0 < n <= qentry_seqno d) (seqnos d);
  qo_range : 0 <= qentry_seqno d < 10 ^ 6;
  qo_keys n : is_Some (m !! q_key n) -> n ∈ seqnos d
}.

Lemma queue_ok_frame d d' m m' :
  queue_ok d m -> same_queue d d' -> (forall n, m' !! q_key n = m !! q_key n) -> queue_ok d' m'.
Proof.
  intros [] (E1 & E2 & E3) Hm. split; rewrite ?E1, ?E2, ?E3; try done.
  - eapply Forall2_impl; [done|]. intros n am (bufs & ? & ?). exists bufs. by rewrite Hm.
  - intros n. rewrite Hm. apply qo_keys0.
Qed.

Lemma StronglySorted_snoc (l : list Z) n : StronglySorted Z.lt l -> Forall (fun x => x < n) l -> StronglySorted Z.lt (l ++ [n]).
Proof.
  induction 1 as [|x l _ IH Hx]; intros Hf; [by repeat constructor|]. apply Forall_cons in Hf as [Hn Hf].
  constructor; [by apply IH|]. apply Forall_app. split; [done|]. by apply Forall_singleton.
Qed.

(** A message at the end of the queue, with the next number. *)
Lemma queue_ok_add d d' m am bufs :
  queue_ok d m -> entry_buffers am = Ret bufs -> qentry_seqno d + 1 < 10 ^ 6 ->
  seqnos d' = seqnos d ++ [qentry_seqno d + 1] -> qentry_seqno d' = qentry_seqno d + 1 ->
  messageQueue (client (base d')) = messageQueue (client (base d)) ++ [am] ->
  queue_ok d' (<[q_key (qentry_seqno d + 1) := concat bufs]> m).
Proof.
  intros [Q1 Q2 Q3 Q4 Q5] Hb Hn E1 E2 E3. split; rewrite ?E1, ?E2, ?E3.
  - apply Forall2_app.
    + clear -Q1 Q3. induction Q1 as [|n x ns l (b & Hb & Hm) _ IH]; [constructor|].
      apply Forall_cons in Q3 as [Hn Q3]. constructor; [|by apply IH]. exists b. split; [done|].
      rewrite lookup_insert_ne; [done|]. intros E. apply q_key_inj in E. lia.
    + constructor; [|done]. exists bufs. by rewrite lookup_insert_eq.
  - apply StronglySorted_snoc; [done|]. eapply Forall_impl; [done|]. cbn. lia.
  - apply Forall_app. split; [|apply Forall_singleton; lia]. eapply Forall_impl; [done|]. cbn. lia.
  - lia.
  - intros n. destruct (decide (n = qentry_seqno d + 1)) as [->|Hne].
    + intros _. apply elem_of_app. right. by apply list_elem_of_here.
    + rewrite lookup_insert_ne by (intros E; by apply q_key_inj in E). intros Hs. apply elem_of_app. left. by apply Q5.
Qed.

(** The message is delivered, or it is the last of the queue and can be recorded. *)
Lemma process_queue p s u s' :
  Protocol_processPublication p s = Ret (u, s') ->
  messageQueue (client s') = messageQueue (client s) \/
  exists am bufs, messageQueue (client s') = messageQueue (client s) ++ [am] /\ entry_buffers am = Ret bufs.
Proof.
  unfold Protocol_processPublication. unfold pbind at 1, plift at 1. unfold copy_payload.
  destruct (Z.ltb_spec (p_payloadlen p) 0) as [|Hp]; [done|].
  destruct (read_bytes (p_payload p) 0 (Z.to_nat (p_payloadlen p))) as [payload| | |] eqn:Er; [|done..]. cbn [obind].
  set (am := AppMessage _ _ _ _ _ _ _ _).
  assert (He : exists bufs, entry_buffers am = Ret bufs).
  { unfold entry_buffers, read_block, am. cbn [am_payload am_payloadlen]. destruct (Z.ltb_spec (p_payloadlen p) 0); [lia|].
    unfold read_bytes in *. case_bool_decide as Hl; [|done]. injection Er as <-. rewrite drop_0, length_take.
    rewrite bool_decide_eq_true_2 by lia. cbn [obind]. by eexists. }
  destruct He as [bufs He]. unfold the_client, MQTTAsync_deliverMessage, pclient, pbind, MqttProto.pget, pmod, pret. cbn [obind].
  destruct (bool_decide (messageQueue (client s) = []) && connected (client s)).
  - destruct (ma_results s) as [|[] l]; cbn; intros [= <- <-]; [by left|by left|]. right. by exists am, bufs.
  - cbn. intros [= <- <-]. right. by exists am, bufs.
Qed.

Lemma sim_process p d m :
  linked d m -> queue_ok d m -> qentry_seqno d + 1 < 10 ^ 6 ->
  sim (Protocol_processPublication_d p) (Protocol_processPublication p) (fun _ _ d' m' => queue_ok d' m' /\
    (forall k, is_q_key k \/ m' !! k = m !! k) /\ qentry_seqno d' <= qentry_seqno d + 1) d m.
Proof.
  intros Hl Hq Hn u s' E. unfold Protocol_processPublication_d. unfold dbind at 1, dget at 1. cbn [obind].
  unfold dbind at 1, lift at 1. rewrite E. cbn [obind]. unfold dbind at 1, dget at 1. cbn [obind base persistence].
  set (d1 := Durable s' _ _ _ _ _). assert (Hl1 : linked d1 m) by by destruct Hl. rewrite (ln_per _ _ Hl).
  destruct (process_queue p (base d) u s' E) as [Eq|(am & bufs & Eq & Eb)].
  - exists tt, d1, m. rewrite Eq. rewrite bool_decide_eq_false_2 by lia.
    split; [by destruct (list.last _)|]. split; [done|]. split; [done|].
    split; [by apply (queue_ok_frame d d1 m m)|]. split; [by right|]. cbn. lia.
  - rewrite Eq, last_snoc. rewrite bool_decide_eq_true_2 by (rewrite length_app; simpl; lia).
    unfold MQTTPersistence_persistQueueEntry. unfold dbind, dlift. rewrite Eb. cbn [obind dget].
    destruct Hq as [Q1 Q2 Q3 Q4 Q5]. set (n := qentry_seqno d) in *.
    assert (Es : (qentry_seqno d1 + 1) mod 2 ^ 32 = n + 1) by (cbn; fold n; apply Z.mod_small; lia).
    rewrite Es, (s32_id (n + 1)) by lia. rewrite sprintf_key_eq; [|cbn; lia|vm_compute; lia]. cbn [obind].
    set (d2 := Durable (upd_client (set_queue (messageQueue (client s'))) s') (persistence d) (phandle d) (outside d) (seqnos d ++ [n + 1]) (n + 1)).
    assert (Hl2 : linked d2 m) by by destruct Hl.
    assert (Hk : is_key (q_key (n + 1))) by (apply key_ok; [lia|done|decide_all]).
    destruct (st_put_run d2 m _ bufs Hl2 Hk) as (w & Ew & Hl3).
    exists tt, (with_outside d2 w), (<[q_key (n + 1) := concat bufs]> m). split.
    + unfold set_entries. cbn [obind]. change (st_put (key _ _) bufs _) with (st_put (q_key (n + 1)) bufs d2).
      by rewrite Ew.
    + split; [cbn; by destruct s' as [[]]|]. split; [done|]. split; [by apply (queue_ok_add d _ m am bufs)|].
      split; [|cbn; lia]. intros k. destruct (decide (k = q_key (n + 1))) as [->|]; [left; by eexists|right].
      by apply lookup_insert_ne.
Qed.
End Sim.
