(* ===== verification/PersistKeep.v ===== *)
(** * PersistKeep: the store holds the session

    The records of the messages in flight are those of the abstract session of [MqttSession], and every
    packet of the server and every message of the application keeps it so. *)

From Stdlib Require Import ZArith Lia String Sorting.Sorted.
From stdpp Require Import base tactics numbers list gmap.
From S2P Require Import Prelude LinkedList MqttPacket SockBuf MqttProto MqttSession Store Persist PersistQueue PersistProto PersistRecords PersistSim.

(** ** Flows and their identifiers *)

Lemma flows_ids h l fs : Forall2 (flow_of h) l fs -> f_id <$> fs = m_msgid <$> l.
Proof. induction 1 as [|m f l fs (b & _ & ->) _ IH]; [done|]. cbn. by rewrite IH. Qed.

(** An identifier that no flow has is that of no message. *)
Lemma new_flow_id h l fs id :
  Forall2 (flow_of h) l fs -> (forall g, g ∈ fs -> f_id g <> id) -> forall m, m ∈ l -> m_msgid m <> id.
Proof.
  intros Hf Hn m Hm E. assert (Hi : id ∈ f_id <$> fs) by (rewrite (flows_ids _ _ _ Hf), <- E; by apply list_elem_of_fmap_2).
  apply list_elem_of_fmap in Hi as (g & Eg & Hg). by apply (Hn g Hg).
Qed.

Lemma flow_at_spec id l i f : flow_at id l = Some (i, f) -> l !! i = Some f /\ f_id f = id /\ f ∈ l.
Proof. intros E. apply list_find_Some in E as (Hi & Hid & _). split; [done|]. split; [done|]. by eapply list_elem_of_lookup_2. Qed.

Lemma flow_unique l i j f g :
  NoDup (f_id <$> l) -> l !! i = Some f -> l !! j = Some g -> f_id f = f_id g -> i = j.
Proof.
  intros Hn Hi Hj E. eapply (NoDup_lookup (f_id <$> l)); [done|..]; rewrite list_lookup_fmap.
  - by rewrite Hi.
  - rewrite Hj. cbn. by rewrite E.
Qed.

Lemma elem_delete_flow id l i f g :
  flow_at id l = Some (i, f) -> NoDup (f_id <$> l) -> g ∈ delete i l <-> g ∈ l /\ f_id g <> id.
Proof.
  intros Ha Hn. destruct (flow_at_spec _ _ _ _ Ha) as (Hi & Hid & _). pose proof (delete_Permutation _ _ _ Hi) as Hp.
  rewrite Hp in Hn. cbn in Hn. apply NoDup_cons in Hn as [Hnf Hn]. split.
  - intros Hg. split; [rewrite Hp; by apply list_elem_of_further|]. intros E. apply Hnf. rewrite Hid, <- E.
    by apply list_elem_of_fmap_2.
  - intros [Hg Hne]. rewrite Hp in Hg. apply elem_of_cons in Hg as [->|?]; [done|done].
Qed.

Lemma elem_insert_flow id l i f f' g :
  flow_at id l = Some (i, f) -> NoDup (f_id <$> l) -> f_id f' = id ->
  g ∈ <[i := f']> l <-> g = f' \/ (g ∈ l /\ f_id g <> id).
Proof.
  intros Ha Hn Hf. destruct (flow_at_spec _ _ _ _ Ha) as (Hi & Hid & _).
  assert (Hp : <[i := f']> l ≡ₚ f' :: delete i l).
  { pose proof (lookup_lt_Some _ _ _ Hi) as Hlt.
    rewrite (insert_take_drop _ _ _ Hlt), delete_take_drop. by rewrite Permutation_middle. }
  rewrite Hp, elem_of_cons. by rewrite (elem_delete_flow id l i f g).
Qed.

(** ** The records of a session *)

(** No command waits to be sent: they would have keys of their own. *)
Record stored (m : gmap (list Z) (list Z)) (os ins : list flow) : Prop := {
  st_out f : f ∈ os -> exists r, m !! s_key (f_id f) = Some r /\ flow_record f r;
  st_rel f : f ∈ os -> (is_Some (m !! sc_key (f_id f)) <-> f_qos f = 2 /\ f_stage f = Some PUBCOMP);
  st_in f : f ∈ ins -> exists r, m !! r_key (f_id f) = Some r /\ flow_record f r;
  st_s id : is_Some (m !! s_key id) -> exists f, f ∈ os /\ f_id f = id;
  st_sc id r : m !! sc_key id = Some r -> (exists f, f ∈ os /\ f_id f = id) /\
    exists hd, MQTTPersistence_restorePacket r (length r) = Ret (Some (PkAck (MkAck hd id)));
  st_r id : is_Some (m !! r_key id) -> exists f, f ∈ ins /\ f_id f = id;
  st_keys k : is_Some (m !! k) -> exists n, k ∈ [s_key n; sc_key n; r_key n; q_key n]
}.

(** Look a record up through a change of another one. *)
Ltac other_key :=
  first [key_ne | let E := fresh in intros E; first [apply s_key_inj in E | apply sc_key_inj in E | apply r_key_inj in E | apply q_key_inj in E]; congruence].
Ltac look :=
  repeat first
    [ rewrite lookup_insert_eq | rewrite lookup_delete_eq
    | rewrite lookup_insert_ne by other_key | rewrite lookup_delete_ne by other_key ].

Lemma stored_frame m m' os ins :
  stored m os ins -> (forall k, is_q_key k \/ m' !! k = m !! k) -> stored m' os ins.
Proof.
  intros H Hm.
  assert (E1 : forall n, m' !! s_key n = m !! s_key n) by (intros n; destruct (Hm (s_key n)) as [[? E]|]; [revert E; key_ne|done]).
  assert (E2 : forall n, m' !! sc_key n = m !! sc_key n) by (intros n; destruct (Hm (sc_key n)) as [[? E]|]; [revert E; key_ne|done]).
  assert (E3 : forall n, m' !! r_key n = m !! r_key n) by (intros n; destruct (Hm (r_key n)) as [[? E]|]; [revert E; key_ne|done]).
  destruct H. split; intros *; rewrite ?E1, ?E2, ?E3; auto.
  intros Hk. destruct (Hm k) as [[n ->]|E]; [|apply st_keys0; by rewrite <- E]. exists n. set_solver.
Qed.

Lemma stored_members m os os' ins ins' :
  stored m os ins -> (forall f, f ∈ os' <-> f ∈ os) -> (forall f, f ∈ ins' <-> f ∈ ins) -> stored m os' ins'.
Proof.
  intros [] Ho Hi. split; intros *; rewrite ?Ho, ?Hi; auto.
  - intros Hs. destruct (st_s0 _ Hs) as (f & ? & ?). exists f. by rewrite Ho.
  - intros Hs. destruct (st_sc0 _ _ Hs) as ((f & ? & ?) & ?). split; [|done]. exists f. by rewrite Ho.
  - intros Hs. destruct (st_r0 _ Hs) as (f & ? & ?). exists f. by rewrite Hi.
Qed.

Section Changes.
Variables (m : gmap (list Z) (list Z)) (os ins : list flow).
Hypothesis Hst : stored m os ins.
Hypothesis os_ids : NoDup (f_id <$> os).
Hypothesis ins_ids : NoDup (f_id <$> ins).

(** A flow to the server ends: both its records go. *)
Lemma stored_end id i f :
  flow_at id os = Some (i, f) -> stored (delete (sc_key id) (delete (s_key id) m)) (delete i os) ins.
Proof.
  intros Ha. pose proof (elem_delete_flow id os i f) as Hd. destruct Hst as [T1 T2 T3 T4 T5 T6 T7]. split.
  - intros g. rewrite Hd by done. intros [Hg Hne]. look. by apply T1.
  - intros g. rewrite Hd by done. intros [Hg Hne]. look. by apply T2.
  - intros g Hg. look. by apply T3.
  - intros n. destruct (decide (n = id)) as [->|Hne]; look; [by intros []|]. intros Hs.
    destruct (T4 n Hs) as (g & Hg & Hi). exists g. split; [|done]. apply Hd; [done..|]. split; [done|congruence].
  - intros n r. destruct (decide (n = id)) as [->|Hne]; look; [done|]. intros Hs.
    destruct (T5 n r Hs) as ((g & Hg & Hi) & Hr). split; [|done]. exists g. split; [|done]. apply Hd; [done..|].
    split; [done|congruence].
  - intros n. look. apply T6.
  - intros k Hk. apply T7. rewrite !lookup_delete_is_Some in Hk. tauto.
Qed.

(** A flow without a PUBREL has one record. *)
Lemma stored_end_one id i f :
  flow_at id os = Some (i, f) -> f_qos f <> 2 -> stored (delete (s_key id) m) (delete i os) ins.
Proof.
  intros Ha Hq. destruct (flow_at_spec _ _ _ _ Ha) as (_ & Hid & Hf).
  assert (E : delete (sc_key id) (delete (s_key id) m) = delete (s_key id) m); [|rewrite <- E; by apply (stored_end id i f)].
  apply delete_id. look. destruct (m !! sc_key id) eqn:E; [|done]. destruct (proj1 (st_rel _ _ _ Hst f Hf)); [|done].
  rewrite Hid. by eexists.
Qed.

(** The PUBREL of a flow is recorded. *)
Lemma stored_release id i f r hd :
  flow_at id os = Some (i, f) -> f_qos f = 2 ->
  MQTTPersistence_restorePacket r (length r) = Ret (Some (PkAck (MkAck hd id))) ->
  stored (<[sc_key id := r]> m) (<[i := Flow id 2 (f_retain f) (f_topic f) (f_topiclen f) (f_payload f) (Some PUBCOMP)]> os) ins.
Proof.
  intros Ha Hq Hr. destruct (flow_at_spec _ _ _ _ Ha) as (_ & Hid & Hf).
  set (f' := Flow _ _ _ _ _ _ _). pose proof (fun g => elem_insert_flow id os i f f' g Ha os_ids eq_refl) as Hd.
  destruct Hst as [T1 T2 T3 T4 T5 T6 T7]. split.
  - intros g. rewrite Hd. intros [->|[Hg Hne]]; look.
    + destruct (T1 f Hf) as (x & Hx & (pk & Hfr)). exists x. rewrite Hid in Hx. split; [done|]. exists pk. cbn. by rewrite <- Hq, <- Hid.
    + by apply T1.
  - intros g. rewrite Hd. intros [->|[Hg Hne]].
    + cbn [f' f_id f_qos f_stage]. look. split; [done|]. by eexists.
    + look. by apply T2.
  - intros g Hg. look. by apply T3.
  - intros n. look. intros Hs. destruct (T4 n Hs) as (g & Hg & Hi).
    destruct (decide (n = id)) as [->|Hne]; [by exists f'; rewrite Hd; split; [left|]|].
    exists g. rewrite Hd. split; [|done]. right. split; [done|congruence].
  - intros n x. destruct (decide (n = id)) as [->|Hne]; look.
    + intros [= <-]. split; [|by exists hd]. exists f'. rewrite Hd. split; [by left|done].
    + intros Hs. destruct (T5 n x Hs) as ((g & Hg & Hi) & Hx). split; [|done]. exists g. rewrite Hd. split; [|done].
      right. split; [done|congruence].
  - intros n. look. apply T6.
  - intros k Hk. destruct (decide (k = sc_key id)) as [->|Hne]; [exists id; set_solver|].
    rewrite lookup_insert_ne in Hk by done. by apply T7.
Qed.

(** A new flow to the server. *)
Lemma stored_add f r :
  flow_record f r -> (forall g, g ∈ os -> f_id g <> f_id f) -> f_stage f <> Some PUBCOMP ->
  stored (<[s_key (f_id f) := r]> m) (os ++ [f]) ins.
Proof.
  intros Hr Hnew Hstage. destruct Hst as [T1 T2 T3 T4 T5 T6 T7].
  assert (Hin : forall g, g ∈ os ++ [f] <-> g ∈ os \/ g = f) by set_solver. split.
  - intros g. rewrite Hin. intros [Hg| ->]; look; [|by exists r]. specialize (Hnew g Hg). look. by apply T1.
  - intros g. rewrite Hin. intros [Hg| ->]; look; [by apply T2|]. split; [|tauto]. intros Hs. destruct Hs as [x Hx].
    destruct (T5 _ _ Hx) as ((g & Hg & E) & _). by destruct (Hnew g Hg).
  - intros g Hg. look. by apply T3.
  - intros n. destruct (decide (n = f_id f)) as [->|Hne]; look.
    + intros _. exists f. rewrite Hin. split; [by right|done].
    + intros Hs. destruct (T4 n Hs) as (g & Hg & Hi). exists g. rewrite Hin. split; [by left|done].
  - intros n x. look. intros Hs. destruct (T5 n x Hs) as ((g & Hg & Hi) & Hx). split; [|done]. exists g. rewrite Hin.
    split; [by left|done].
  - intros n. look. apply T6.
  - intros k Hk. destruct (decide (k = s_key (f_id f))) as [->|Hne]; [exists (f_id f); set_solver|].
    rewrite lookup_insert_ne in Hk by done. by apply T7.
Qed.

(** A message of the server is kept, or replaces the one with its identifier. *)
Lemma stored_keep f r :
  flow_record f r ->
  stored (<[r_key (f_id f) := r]> m) os
    (match flow_at (f_id f) ins with Some (i, _) => <[i := f]> ins | None => ins ++ [f] end).
Proof.
  intros Hr. set (ins' := match flow_at _ _ with Some _ => _ | None => _ end).
  assert (Hin : forall g, g ∈ ins' <-> g = f \/ (g ∈ ins /\ f_id g <> f_id f)).
  { intros g. subst ins'. destruct (flow_at (f_id f) ins) as [[i f0]|] eqn:Ha.
    - by apply (elem_insert_flow (f_id f) ins i f0 f).
    - apply list_find_None in Ha. rewrite Forall_forall in Ha. rewrite elem_of_app, list_elem_of_singleton.
      split; [intros [Hg| ->]; [right; split; [done|by apply Ha]|by left]|]. intros [->|[? _]]; [by right|by left]. }
  clearbody ins'. destruct Hst as [T1 T2 T3 T4 T5 T6 T7]. split.
  - intros g Hg. look. by apply T1.
  - intros g Hg. look. by apply T2.
  - intros g. rewrite Hin. intros [->|[Hg Hne]]; look; [by exists r|by apply T3].
  - intros n. look. apply T4.
  - intros n x. look. apply T5.
  - intros n. destruct (decide (n = f_id f)) as [->|Hne]; look.
    + intros _. exists f. rewrite Hin. split; [by left|done].
    + intros Hs. destruct (T6 n Hs) as (g & Hg & Hi). exists g. rewrite Hin. split; [|done]. right. split; [done|congruence].
  - intros k Hk. destruct (decide (k = r_key (f_id f))) as [->|Hne]; [exists (f_id f); set_solver|].
    rewrite lookup_insert_ne in Hk by done. by apply T7.
Qed.

(** A message of the server is released. *)
Lemma stored_pass id i f : flow_at id ins = Some (i, f) -> stored (delete (r_key id) m) os (delete i ins).
Proof.
  intros Ha. pose proof (fun g => elem_delete_flow id ins i f g Ha ins_ids) as Hd. destruct Hst as [T1 T2 T3 T4 T5 T6 T7]. split.
  - intros g Hg. look. by apply T1.
  - intros g Hg. look. by apply T2.
  - intros g. rewrite Hd. intros [Hg Hne]. look. by apply T3.
  - intros n. look. apply T4.
  - intros n x. look. apply T5.
  - intros n. destruct (decide (n = id)) as [->|Hne]; look; [by intros []|]. intros Hs.
    destruct (T6 n Hs) as (g & Hg & Hi). exists g. rewrite Hd. split; [|done]. split; [done|congruence].
  - intros k Hk. apply T7. rewrite lookup_delete_is_Some in Hk. tauto.
Qed.
End Changes.
