(* ===== verification/PersistHandle.v ===== *)
(** * PersistHandle: the handlers keep the records

    Every handler of [PersistProto] runs as the one of [MqttProto] and keeps the records of the
    session: the PUBREL takes the place of the PUBLISH, the end of a handshake removes both, a PUBLISH of
    QoS 2 is there from its arrival to its release. *)

From Stdlib Require Import ZArith Lia String Sorting.Sorted.
From stdpp Require Import base tactics numbers list gmap.
From S2P Require Import Prelude LinkedList MqttPacket SockBuf MqttRead MqttProto MqttSession Store Persist PersistQueue PersistProto PersistRecords PersistSim PersistKeep.

Section Handlers.
Context {H W : Type} (per : MQTTClient_persistence H W) `{!Persistence per} (h : H).

(** The client and its records before and after a packet. *)
Record tracked (d : durable H W) (m : gmap (list Z) (list Z)) (se : session) : Prop := {
  tr_linked : linked per h d m;
  tr_represents : represents (base d) se;
  tr_stored : stored m (se_out se) (se_in se);
  tr_queue : queue_ok d m
}.

(** The records afterwards are those of [se']. *)
Definition keeps_records (d : durable H W) (se' : session) (d' : durable H W) (m' : gmap (list Z) (list Z)) : Prop :=
  stored m' (se_out se') (se_in se') /\ queue_ok d' m' /\ qentry_seqno d' <= qentry_seqno d + 1.

Lemma session_out_ids s se : represents s se -> NoDup (f_id <$> se_out se).
Proof. intros Hr. rewrite (flows_ids _ _ _ (re_out _ _ Hr)). apply (ok_out_ids _ (re_ok _ _ Hr)). Qed.
Lemma session_in_ids s se : represents s se -> NoDup (f_id <$> se_in se).
Proof. intros Hr. rewrite (flows_ids _ _ _ (re_in _ _ Hr)). apply (ok_in_ids _ (re_ok _ _ Hr)). Qed.

Lemma in_range_out s se id i f : represents s se -> flow_at id (se_out se) = Some (i, f) -> 0 <= id < 65536.
Proof.
  intros Hr Ha. destruct (flow_at_spec _ _ _ _ Ha) as (Hi & <- & _).
  destruct (Forall2_lookup_r _ _ _ _ _ (re_out _ _ Hr) Hi) as (x & Hx & (b & _ & ->)).
  apply (Forall_lookup_1 _ _ _ _ (ok_out _ (re_ok _ _ Hr)) Hx).
Qed.

(** Nothing was recorded or removed. *)
(** A field that is initialised. *)
Lemma sim_some {A A' B'} (a : A) (k : A -> D H W A') (l : A -> M B') Q d m :
  sim per h (k a) (l a) Q d m -> sim per h (dbind (dlift (deref (Some a))) k) (pbind (plift (deref (Some a))) l) Q d m.
Proof. done. Qed.

Lemma keeps_same d d1 m se : stored m (se_out se) (se_in se) -> queue_ok d m -> same_queue d d1 -> keeps_records d se d1 m.
Proof.
  intros Hst Hq Hs. split; [done|]. split; [by apply (queue_ok_frame d d1 m m)|]. destruct Hs as (_ & -> & _). lia.
Qed.

(** The first calls of a handler: the client of the socket. *)
Lemma sim_client_of {A' B'} sock (k : Clients -> D H W A') (l : Clients -> M B') Q d m :
  linked per h d m -> socket (client (base d)) = sock ->
  (forall d1, linked per h d1 m -> same_queue d d1 -> base d1 = base d -> sim per h (k (client (base d))) (l (client (base d))) Q d1 m) ->
  sim per h (dbind (lift (client_of sock)) k) (pbind (client_of sock) l) Q d m.
Proof.
  intros Hl Hs Hk. apply sim_step; [done|auto with quiet|]. intros c d1 Hl1 Hq1 E.
  rewrite (client_of_run _ _ Hs) in E. injection E as <- Eb. by apply Hk.
Qed.

(** Looking a message up, with the flow it stands for. *)
Lemma sim_find_out {A' B'} id (k : option (nat * Messages) -> D H W A') (l : option (nat * Messages) -> M B') Q d m se :
  linked per h d m -> represents (base d) se ->
  (forall r d1, linked per h d1 m -> same_queue d d1 -> represents (base d1) se ->
     found_in (base d1) (outboundMsgs (client (base d1))) (se_out se) id r -> sim per h (k r) (l r) Q d1 m) ->
  sim per h (dbind (lift (find_outbound id)) k) (pbind (find_outbound id) l) Q d m.
Proof.
  intros Hl Hr Hk. apply sim_step; [done|auto with quiet|]. intros r d1 Hl1 Hq1 E.
  destruct (find_out_flow id (base d) se Hr) as (r' & s1 & E' & Hr1 & _ & Hf). rewrite E in E'.
  injection E' as <- <-. by apply Hk.
Qed.

Lemma sim_find_in {A' B'} id (k : option (nat * Messages) -> D H W A') (l : option (nat * Messages) -> M B') Q d m se :
  linked per h d m -> represents (base d) se ->
  (forall r d1, linked per h d1 m -> same_queue d d1 -> represents (base d1) se ->
     found_in (base d1) (inboundMsgs (client (base d1))) (se_in se) id r -> sim per h (k r) (l r) Q d1 m) ->
  sim per h (dbind (lift (find_inbound id)) k) (pbind (find_inbound id) l) Q d m.
Proof.
  intros Hl Hr Hk. apply sim_step; [done|auto with quiet|]. intros r d1 Hl1 Hq1 E.
  destruct (find_in_flow id (base d) se Hr) as (r' & s1 & E' & Hr1 & _ & Hf). rewrite E in E'.
  injection E' as <- <-. by apply Hk.
Qed.

Lemma sim_done {A B} (a : A) (b : B) d d1 m se :
  linked per h d1 m -> same_queue d d1 -> stored m (se_out se) (se_in se) -> queue_ok d m ->
  sim per h (dret a) (pret b) (fun _ _ d' m' => keeps_records d se d' m') d1 m.
Proof. intros Hl Hs Hst Hq. apply sim_ret; [done|]. by apply keeps_same. Qed.

Lemma queue_ok_other (d : durable H W) m m' : queue_ok d m -> (forall n, m' !! q_key n = m !! q_key n) -> queue_ok d m'.
Proof. intros Hq Hm. by apply (queue_ok_frame d d m m'). Qed.

Ltac same := first [eassumption | reflexivity | etrans; [|eassumption]; same].
Ltac lifts := repeat (eapply sim_step; [eassumption|by keep_quiet|intros ? ? ? ? _]).

Lemma handlePubacks_keeps a sock d m se :
  tracked d m se -> socket (client (base d)) = sock ->
  sim per h (MQTTProtocol_handlePubacks_d a sock) (MQTTProtocol_handlePubacks a sock)
    (fun _ _ => keeps_records d (se_puback (a_msgId a) se).1) d m.
Proof.
  intros [Hl Hr Hst Hq] Hs. unfold MQTTProtocol_handlePubacks_d, MQTTProtocol_handlePubacks.
  apply sim_client_of; [done..|]. intros d1 Hl1 Hq1 Eb1. apply (sim_find_out _ _ _ _ _ _ se); [done|by rewrite Eb1|].
  intros r d2 Hl2 Hq2 Hr2 Hf. assert (Hq' : same_queue d d2) by by etrans. unfold se_puback.
  destruct r as [[i msg]|]; [pose proof Hf as (b & Hi & _ & _ & _ & _ & _ & _ & Hat)|pose proof Hf as [Hat _]];
    rewrite Hat; [|by apply sim_done]. cbn [as_flow f_qos].
  destruct (Z.eqb_spec (m_qos msg) 1) as [Hqos|Hqos]; cbn [negb]; [|by apply sim_done].
  pose proof (in_range_out _ _ _ _ _ Hr Hat) as Hid.
  destruct (remove_one_run per h d2 m PERSISTENCE_PUBLISH_SENT (m_qos msg) (a_msgId a) Hl2 Hid) as (w & Ew & Hl3);
    [left; split; [done|lia]|].
  apply sim_store. eexists 0, _, _. split; [exact Ew|]. split; [done|]. lifts. apply sim_done; [done|same| |].
  - apply (stored_end_one m _ _ Hst (session_out_ids _ _ Hr) _ _ _ Hat). cbn. lia.
  - apply (queue_ok_other _ m); [done|]. intros n. look. done.
Qed.

Lemma handlePubcomps_keeps a sock d m se :
  tracked d m se -> socket (client (base d)) = sock ->
  sim per h (MQTTProtocol_handlePubcomps_d a sock) (MQTTProtocol_handlePubcomps a sock)
    (fun _ _ => keeps_records d (se_pubcomp (a_msgId a) se).1) d m.
Proof.
  intros [Hl Hr Hst Hq] Hs. unfold MQTTProtocol_handlePubcomps_d, MQTTProtocol_handlePubcomps.
  apply sim_client_of; [done..|]. intros d1 Hl1 Hq1 Eb1. apply (sim_find_out _ _ _ _ _ _ se); [done|by rewrite Eb1|].
  intros r d2 Hl2 Hq2 Hr2 Hf. assert (Hq' : same_queue d d2) by by etrans. unfold se_pubcomp.
  destruct r as [[i msg]|]; [pose proof Hf as (b & Hi & _ & _ & _ & _ & _ & _ & Hat)|pose proof Hf as [Hat _]];
    rewrite Hat; [|by apply sim_done]. cbn [as_flow f_qos f_stage].
  destruct (Z.eqb_spec (m_qos msg) 2) as [Hqos|Hqos]; cbn [negb].
  2: { rewrite bool_decide_eq_false_2 by tauto. by apply sim_done. }
  destruct (out_stage _ _ _ (re_ok _ _ Hr2) Hi Hqos) as (t & Et & _). rewrite Et.
  apply sim_some. destruct (Z.eqb_spec t PUBCOMP) as [->|Ht]; cbn [negb].
  2: { rewrite bool_decide_eq_false_2 by (intros [_ [= ->]]; done). by apply sim_done. }
  rewrite bool_decide_eq_true_2 by done. pose proof (in_range_out _ _ _ _ _ Hr Hat) as Hid.
  destruct (remove_both_run per h d2 m (a_msgId a) Hl2 Hid) as (w & Ew & Hl3). rewrite Hqos.
  apply sim_store. eexists 0, _, _. split; [exact Ew|]. split; [done|].
  lifts. apply sim_done; [done|same| |].
  - by apply (stored_end m _ _ Hst (session_out_ids _ _ Hr) _ _ _ Hat).
  - apply (queue_ok_other _ m); [done|]. intros n. look. done.
Qed.

Lemma handlePubrecs_keeps a sock d m se :
  tracked d m se -> socket (client (base d)) = sock -> 0 <= a_msgId a < 65536 ->
  sim per h (MQTTProtocol_handlePubrecs_d a sock) (MQTTProtocol_handlePubrecs a sock)
    (fun _ _ => keeps_records d (se_pubrec (a_msgId a) se).1) d m.
Proof.
  intros [Hl Hr Hst Hq] Hs Hid0. unfold MQTTProtocol_handlePubrecs_d, MQTTProtocol_handlePubrecs.
  apply sim_client_of; [done..|]. intros d1 Hl1 Hq1 Eb1.
  apply sim_step; [done|by keep_quiet|]. intros [] d2 Hl2 Hq2 E2.
  assert (Hr2 : represents (base d2) se).
  { injection E2 as E2. rewrite <- E2, Eb1. apply (represents_frame (base d)); [done|by split_and!]. }
  apply (sim_find_out _ _ _ _ _ _ se); [done..|].
  intros r d3 Hl3 Hq3 Hr3 Hf. assert (Hq' : same_queue d d3) by same. unfold se_pubrec.
  destruct r as [[i msg]|]; [pose proof Hf as (b & Hi & _ & _ & _ & _ & _ & _ & Hat)|pose proof Hf as [Hat _]];
    rewrite Hat; [|by apply sim_done]. cbn [as_flow f_qos f_stage f_retain f_topic f_topiclen f_payload].
  destruct (Z.eqb_spec (m_qos msg) 2) as [Hqos|Hqos]; cbn [negb].
  2: { rewrite bool_decide_eq_false_2 by tauto. by apply sim_done. }
  destruct (out_stage _ _ _ (re_ok _ _ Hr3) Hi Hqos) as (t & Et & _). rewrite Et.
  apply sim_some. destruct (Z.eqb_spec t PUBREC) as [->|Ht]; cbn [negb].
  2: { rewrite bool_decide_eq_false_2 by (intros [_ [= ->]]; done). by apply sim_done. }
  rewrite bool_decide_eq_true_2 by done. unfold MQTTPacket_send_pubrel. rewrite (ack_eq PUBREL _ Hid0).
  eapply sim_bind; [apply (sim_send_recorded per h _ _ 0 (be16 (a_msgId a)) _ _ (a_msgId a) 2)|].
  - done.
  - done.
  - done.
  - by left.
  - done.
  - pose proof (readInt_app [] (a_msgId a) [] Hid0) as E. by rewrite app_nil_r in E.
  - intros rc rc' d4 m4 Hl4 (<- & -> & Hq4) _. lifts. apply sim_done; [done|same| |].
    + change (hd_type _ =? PUBLISH) with false. cbn iota.
      eapply (stored_release m _ _ Hst (session_out_ids _ _ Hr) (session_in_ids _ _ Hr) _ _ (as_flow msg b)); [exact Hat|done|].
      change (concat [be16 (a_msgId a)]) with (be16 (a_msgId a) ++ []). rewrite app_nil_r.
      apply (ack_record PUBREL); [decide_all|done].
    + apply (queue_ok_other _ m); [done|]. intros n. change (hd_type _ =? PUBLISH) with false. cbn iota. look. done.
Qed.

(** Passing a message on keeps the records of the session. *)
Lemma passing_keeps p d d1 m os ins :
  linked per h d1 m -> stored m os ins -> queue_ok d m -> same_queue d d1 -> qentry_seqno d + 1 < 10 ^ 6 ->
  sim per h (Protocol_processPublication_d p) (Protocol_processPublication p)
    (fun _ _ d' m' => stored m' os ins /\ queue_ok d' m' /\ qentry_seqno d' <= qentry_seqno d + 1) d1 m.
Proof.
  intros Hl Hst Hq Hs Hn u s' E. assert (En : qentry_seqno d1 = qentry_seqno d) by apply Hs.
  destruct (sim_process per h p d1 m Hl) with (b := u) (s' := s') as (a & d' & m' & E1 & E2 & E3 & E4 & E5 & E6);
    [by apply (queue_ok_frame d d1 m m)|lia|done|].
  exists a, d', m'. split; [done|]. split; [done|]. split; [done|]. split; [by apply (stored_frame m)|]. split; [done|lia].
Qed.

Lemma sim_done_after {A B} (a : A) (b : B) d d1 d2 m se :
  linked per h d2 m -> same_queue d1 d2 -> stored m (se_out se) (se_in se) -> queue_ok d1 m ->
  qentry_seqno d1 <= qentry_seqno d + 1 ->
  sim per h (dret a) (pret b) (fun _ _ d' m' => keeps_records d se d' m') d2 m.
Proof.
  intros Hl Hs Hst Hq Hn. apply sim_ret; [done|]. split; [done|]. split; [by apply (queue_ok_frame d1 d2 m m)|].
  destruct Hs as (_ & -> & _). lia.
Qed.

Lemma handlePubrels_keeps a sock d m se :
  tracked d m se -> socket (client (base d)) = sock -> 0 <= a_msgId a < 65536 -> qentry_seqno d + 1 < 10 ^ 6 ->
  sim per h (MQTTProtocol_handlePubrels_d a sock) (MQTTProtocol_handlePubrels a sock)
    (fun _ _ => keeps_records d (se_pubrel (hd_dup (a_header a)) (a_msgId a) se).1) d m.
Proof.
  intros [Hl Hr Hst Hq] Hs Hid0 Hn. unfold MQTTProtocol_handlePubrels_d, MQTTProtocol_handlePubrels.
  apply sim_client_of; [done..|]. intros d1 Hl1 Hq1 Eb1.
  apply (sim_find_in _ _ _ _ _ _ se); [done|by rewrite Eb1|].
  intros r d2 Hl2 Hq2 Hr2 Hf. assert (Hq' : same_queue d d2) by same.
  unfold se_pubrel, MQTTPacket_send_pubcomp. rewrite (ack_eq PUBCOMP _ Hid0).
  assert (Hsend : sim per h (send_d (Ret (ack_packet PUBCOMP (a_msgId a)))) (send (Ret (ack_packet PUBCOMP (a_msgId a))))
    (fun a0 b d' m' => a0 = b /\ m' = m /\ same_queue d2 d') d2 m) by (apply sim_send_plain; [done|done|by left]).
  destruct r as [[i msg]|]; [pose proof Hf as (b & Hi & Hc & Hid & Hb & _ & Hpl & Hin & Hat)|pose proof Hf as [Hat _]];
    rewrite Hat.
  2: { destruct (hd_dup (a_header a) =? 0); [by apply sim_done|]. intros rc s' E.
       destruct (Hsend rc s' E) as (rc' & d3 & m3 & E1 & E2 & E3 & E4 & -> & E5).
       exists rc', d3, m. split; [done|]. split; [done|]. split; [done|]. apply keeps_same; [done..|same]. }
  destruct (in_stage _ _ _ (re_ok _ _ Hr2) Hi) as (_ & _ & Hqos & Hnext). rewrite Hqos, Hnext.
  change (2 =? 2) with true. cbn [negb]. apply sim_some. change (PUBREL =? PUBREL) with true. cbn [negb].
  eapply sim_bind; [exact Hsend|]. intros rc rc' d3 m3 Hl3 (<- & -> & Hq3) _.
  apply sim_step; [done|by keep_quiet|]. intros b' d4 Hl4 Hq4 _.
  eapply sim_bind.
  { apply (passing_keeps _ d _ m (se_out se) (se_in se)); [done..| |done]. same. }
  intros _ [] d5 m5 Hl5 (Hst5 & Hq5 & Hn5) _.
  destruct (remove_one_run per h d5 m5 PERSISTENCE_PUBLISH_RECEIVED 2 (a_msgId a) Hl5 Hid0) as (w & Ew & Hl6); [by right|].
  apply sim_store. eexists 0, _, _. split; [exact Ew|]. split; [done|]. lifts.
  apply (sim_done_after _ _ d (with_outside d5 w)); [done|same| | |done].
  - by apply (stored_pass m5 _ _ Hst5 (session_in_ids _ _ Hr) _ _ _ Hat).
  - apply (queue_ok_frame d5 _ m5); [done|by split|]. intros n. look. done.
Qed.

(** A PUBLISH of the server.  That of QoS 2 was recorded when it arrived. *)
Lemma handlePublishes_keeps p sock d m se :
  tracked d m se -> socket (client (base d)) = sock -> 0 <= p_msgId p < 65536 -> qentry_seqno d + 1 < 10 ^ 6 ->
  hd_qos (p_header p) <> 2 ->
  sim per h (MQTTProtocol_handlePublishes_d p sock) (MQTTProtocol_handlePublishes p sock)
    (fun _ _ => keeps_records d (se_publish p se).1) d m.
Proof.
  intros [Hl Hr Hst Hq] Hs Hid0 Hn Hq2. unfold MQTTProtocol_handlePublishes_d, MQTTProtocol_handlePublishes.
  apply sim_client_of; [done..|]. intros d1 Hl1 Hq1 Eb1. unfold se_publish. set (qos := hd_qos (p_header p)) in *.
  destruct (Z.eqb_spec qos 0) as [H0|H0].
  { eapply sim_bind; [by apply (passing_keeps p d d1 m (se_out se) (se_in se))|].
    intros _ [] d2 m2 Hl2 (Hst2 & Hqo2 & Hn2) _. by apply (sim_done_after _ _ d d2). }
  destruct (Z.eqb_spec qos 1) as [H1|H1].
  { unfold MQTTPacket_send_puback. rewrite (ack_eq PUBACK _ Hid0).
    eapply sim_bind; [apply (sim_send_plain per h (ack_packet PUBACK (p_msgId p)) d1 m); [done|done|by left]|].
    intros rc rc' d2 m2 Hl2 (<- & -> & Hq2') _.
    eapply sim_bind; [apply (passing_keeps p d d2 m (se_out se) (se_in se)); [done..|same|done]|].
    intros _ [] d3 m3 Hl3 (Hst3 & Hqo3 & Hn3) _. by apply (sim_done_after _ _ d d3). }
  destruct (Z.eqb_spec qos 2) as [?|_]; [done|].
  rewrite <- Eb1 in Hs. intros rc s' E. unfold lift.
  rewrite (pbind_eq _ _ _ _ _ (client_of_run (base d1) sock Hs)), E. cbn [obind].
  injection E as <- <-. eexists _, _, m. split; [reflexivity|]. split; [done|]. split; [by destruct Hl1|].
  by apply keeps_same.
Qed.

(** The handlers of packets that are not recorded when they arrive. *)
Lemma handle_keeps p sock d m se :
  tracked d m se -> socket (client (base d)) = sock -> pk_ok p -> qentry_seqno d + 1 < 10 ^ 6 ->
  (forall q, p = PkPublish q -> hd_qos (p_header q) <> 2) ->
  sim per h (handle_d p sock) (handle p sock) (fun _ _ => keeps_records d (se_step p se).1) d m.
Proof.
  intros Ht Hs Hok Hn Hp. assert (Hskip : forall md : M Z, quiet md ->
    sim per h (lift md) md (fun _ _ d' m' => keeps_records d se d' m') d m).
  { intros md Hq b s' E. destruct Ht as [Hl _ Hst Hqo].
    destruct (sim_lift per h md d m Hl Hq b s' E) as (a & d' & m' & E1 & E2 & E3 & _ & -> & E5).
    exists a, d', m. split; [done|]. split; [done|]. split; [done|]. by apply keeps_same. }
  assert (Hret : sim per h (dret 0) (pret 0) (fun _ _ d' m' => keeps_records d se d' m') d m).
  { destruct Ht as [Hl _ Hst Hqo]. by apply sim_done. }
  destruct p as [q|a|c|sb|hd]; cbn [handle_d handle se_step].
  - apply handlePublishes_keeps; [done|done|apply Hok|done|by apply Hp].
  - destruct (_ =? PUBACK); [by apply handlePubacks_keeps|]. destruct (_ =? PUBREC); [by apply handlePubrecs_keeps|].
    destruct (_ =? PUBREL); [by apply handlePubrels_keeps|]. destruct (_ =? PUBCOMP); [by apply handlePubcomps_keeps|].
    destruct (_ =? UNSUBACK); [|done]. apply Hskip. unfold MQTTProtocol_handleUnsubacks. keep_quiet.
  - done.
  - apply Hskip. unfold MQTTProtocol_handleSubacks. keep_quiet.
  - destruct (_ =? PINGRESP); [|done]. apply Hskip. unfold MQTTProtocol_handlePingresps. keep_quiet.
Qed.

(** A packet as a server sends it, at the start of a block of memory. *)
Definition server_packet (hd : Z) (body mem : list Z) (pk : packet) : Prop :=
  Z.of_nat (length body) < 128 ^ 4 /\ pk_ok pk /\
  (exists make, new_packets (hd_type hd) = Some make /\ make hd (body ++ mem) (length body) = Ret (Some pk)) /\
  forall p, pk = PkPublish p -> hd_type hd = PUBLISH /\ exists topic msgId payload,
    body = publish_body topic (hd_qos hd) msgId payload /\ short topic /\ 0 <= msgId < 65536.

(** What is read is the PUBLISH of the body. *)
Lemma server_publish hd body mem p :
  server_packet hd body mem (PkPublish p) ->
  hd_type hd = PUBLISH /\ body = publish_body (p_topic p) (hd_qos hd) (if 0 <? hd_qos hd then p_msgId p else 0)
    (take (Z.to_nat (p_payloadlen p)) (p_payload p)) /\ p_header p = hd /\
  short (p_topic p) /\ 0 <= p_msgId p < 65536 /\ p_topiclen p = Z.of_nat (length (p_topic p)).
Proof.
  intros (Hlen & Hok & (make & Hm & Emake) & Hpub). destruct (Hpub p eq_refl) as (Hty & topic & msgId & payload & Ebody & Ht & Hi).
  rewrite Hty in Hm. change (Some MQTTPacket_publish = Some make) in Hm. injection Hm as <-. rewrite Ebody in Emake.
  rewrite publish_read in Emake; [|done|done|rewrite <- Ebody; change (128 ^ 4) with 268435456 in Hlen; lia].
  injection Emake as <-. cbn. rewrite Nat2Z.id, take_app_length.
  split; [done|]. split; [|split; [done|split; [done|split; [by apply Hok|done]]]]. rewrite Ebody.
  unfold publish_body. by destruct (0 <? hd_qos hd).
Qed.

(** Which packets are recorded when they arrive. *)
Definition recorded (pk : packet) : bool := match pk with PkPublish p => hd_qos (p_header p) =? 2 | _ => false end.

Lemma received_run hd body mem pk d m :
  linked per h d m -> server_packet hd body mem pk ->
  exists d1 m1, MQTTPacket_received hd (Z.of_nat (length body)) (body ++ mem) d = Ret ((0, Some pk), d1) /\
    base d1 = base d /\ same_queue d d1 /\ linked per h d1 m1 /\
    match pk with
    | PkPublish p => m1 = if hd_qos (p_header p) =? 2 then <[r_key (p_msgId p) := record hd body]> m else m
    | _ => m1 = m
    end.
Proof.
  intros Hl Hsp. pose proof Hsp as (Hlen & Hok & (make & Hm & Emake) & _). unfold MQTTPacket_received. rewrite Nat2Z.id.
  rewrite known_type, Hm by by rewrite Hm. unfold dbind, dlift. rewrite Emake. cbn [obind].
  destruct pk as [p|a|c|sb|x]; try (exists d, m; by split_and!).
  destruct (server_publish hd body mem p Hsp) as (Hty & _ & Hh & _ & Hi & _). rewrite Hh.
  destruct (hd_qos hd =? 2); [|exists d, m; by split_and!].
  assert (Eb : read_bytes (body ++ mem) 0 (length body) = Ret body).
  { unfold read_bytes. rewrite bool_decide_eq_true_2 by (rewrite length_app; lia). by rewrite drop_0, take_app_length. }
  rewrite Eb. cbn [obind].
  destruct (put_received_run per h d m (fixed_header hd (Z.of_nat (length body))) [body] (hd_type hd) (p_msgId p) Hl Hi) as (w & -> & Hl').
  cbn [obind]. cbn [concat] in Hl'. rewrite app_nil_r in Hl'. eexists _, _. split; [reflexivity|]. split; [done|].
  split; [by split|]. by split.
Qed.

Lemma sim_forget {A B} (md : D H W A) (mb : M B) (Q : durable H W -> gmap (list Z) (list Z) -> Prop) d m :
  sim per h md mb (fun _ _ => Q) d m -> sim per h (md >@ dret tt) mb (fun _ _ => Q) d m.
Proof.
  intros Hs b s' E. destruct (Hs b s' E) as (a & d' & m' & E1 & E2 & E3 & E4). exists tt, d', m'.
  unfold dbind. rewrite E1. by split_and!.
Qed.

(** The PUBLISH of QoS 2 is kept when it was recorded. *)
Lemma handle_received p d d1 m se r :
  tracked d m se -> base d1 = base d -> same_queue d d1 -> linked per h d1 (<[r_key (p_msgId p) := r]> m) ->
  hd_qos (p_header p) = 2 ->
  flow_record (Flow (p_msgId p) 2 (hd_retain (p_header p)) (p_topic p) (p_topiclen p)
    (take (Z.to_nat (p_payloadlen p)) (p_payload p)) (Some PUBREL)) r ->
  sim per h (handle_d (PkPublish p) (socket (client (base d)))) (handle (PkPublish p) (socket (client (base d))))
    (fun _ _ => keeps_records d (se_publish p se).1) d1 (<[r_key (p_msgId p) := r]> m).
Proof.
  intros [Hl Hr Hst Hq] Eb Hs1 Hl1 Hq2 Hrec. cbn [handle_d handle]. rewrite <- Eb.
  unfold MQTTProtocol_handlePublishes_d. intros rc s' E. unfold dbind, lift at 1.
  rewrite (client_of_run (base d1)) by done. cbn [obind]. rewrite Hq2. change (2 =? 0) with false. change (2 =? 1) with false.
  cbn iota. set (d2 := Durable (base d1) _ _ _ _ _). assert (E12 : d2 = d1) by (by destruct d1). rewrite E12.
  assert (Hquiet : quiet (fun s => MQTTProtocol_handlePublishes p (socket (client (base d1))) s)).
  { unfold MQTTProtocol_handlePublishes. rewrite Hq2. change (2 =? 0) with false. change (2 =? 1) with false.
    change (2 =? 2) with true. cbn iota. change (quiet (let* c := client_of (socket (client (base d1))) in
      let* p0 := MQTTProtocol_storePublication p in
      let m0 := Message 2 (hd_retain (p_header p)) (p_msgId p) p0 None (Some PUBREL) in
      let* found := find_inbound (m_msgid m0) in
      match found with
      | Some (i, msg) => MQTTProtocol_removePublication (m_publish msg) >>;
          pclient (fun c0 => set_inbound (remove_message msg (c_insert m0 i (inboundMsgs c0))) c0)
      | None => pclient (fun c0 => set_inbound (c_append m0 (inboundMsgs c0)) c0)
      end >>; send (MQTTPacket_send_pubrec (p_msgId p)))). keep_quiet. }
  destruct (sim_lift per h _ d1 _ Hl1 Hquiet rc s' E) as (a & d' & m' & E1 & E2 & E3 & _ & -> & E5).
  exists a, d', (<[r_key (p_msgId p) := r]> m). split; [done|]. split; [done|]. split; [done|].
  assert (Hs2 : same_queue d d') by same. split; [|split].
  - unfold se_publish. rewrite Hq2. change (2 =? 0) with false. change (2 =? 1) with false. change (2 =? 2) with true.
    cbn iota. apply (stored_keep m _ _ Hst (session_out_ids _ _ Hr) (session_in_ids _ _ Hr) _ r Hrec).
  - apply (queue_ok_frame d d' m); [done..|]. intros n. look. done.
  - destruct Hs2 as (_ & -> & _). lia.
Qed.

(** A packet of the server, read, recorded and handled. *)
Lemma packet_keeps hd body mem pk d m se :
  tracked d m se -> server_packet hd body mem pk -> qentry_seqno d + 1 < 10 ^ 6 ->
  sim per h (packet_d hd (Z.of_nat (length body)) (body ++ mem) (socket (client (base d))))
    (handle pk (socket (client (base d)))) (fun _ _ => keeps_records d (se_step pk se).1) d m.
Proof.
  intros Ht Hsp Hn. unfold packet_d. destruct (received_run hd body mem pk d m (tr_linked _ _ _ Ht) Hsp) as
    (d1 & m1 & E1 & Eb & Hs & Hl1 & Hm1). apply sim_store. eexists _, d1, m1. split; [exact E1|]. split; [done|].
  apply sim_forget. destruct (recorded pk) eqn:Er.
  - destruct pk as [p| | | |]; try done. cbn [recorded] in Er. rewrite Er in Hm1. subst m1. apply Z.eqb_eq in Er.
    destruct (server_publish hd body mem p Hsp) as (Hty & Ebody & Hh & Htop & Hi & Htl). pose proof Hsp as (Hlen & _).
    rewrite Hh in Er. apply handle_received; [done..|by rewrite Hh|]. rewrite Ebody at 1. rewrite Er, Hh, Htl.
    change (0 <? 2) with true. cbn iota.
    pose proof (flow_record_publish hd (p_topic p) (p_msgId p) (take (Z.to_nat (p_payloadlen p)) (p_payload p)) (Some PUBREL)) as R.
    rewrite Er in R. apply R; try done. rewrite Er in Ebody. change (0 <? 2) with true in Ebody. cbn iota in Ebody.
    by rewrite <- Ebody.
  - assert (Hm : m1 = m) by (destruct pk as [p| | | |]; cbn [recorded] in Er; by rewrite ?Er in Hm1). subst m1.
    assert (Ht1 : tracked d1 m se).
    { destruct Ht. split; [done|by rewrite Eb|done|by apply (queue_ok_frame d d1 m m)]. }
    assert (En : qentry_seqno d1 = qentry_seqno d) by apply Hs.
    pose proof Hsp as (_ & Hok & _). intros b s' E.
    destruct (handle_keeps pk (socket (client (base d))) d1 m se Ht1 ltac:(by rewrite Eb) Hok ltac:(lia)) with (b := b) (s' := s')
      as (a & d' & m' & F1 & F2 & F3 & F4 & F5 & F6); [|done|].
    { intros q ->. cbn [recorded] in Er. by apply Z.eqb_neq. }
    exists a, d', m'. split; [done|]. split; [done|]. split; [done|]. split; [done|]. split; [done|lia].
Qed.
End Handlers.
