(* ===== verification/PersistRuns.v ===== *)
(** * PersistRuns: sessions of a client with persistence

    Packets of the server and messages of the application, one after the other: the store always holds
    the session. *)

From Stdlib Require Import ZArith Lia String Sorting.Sorted.
From stdpp Require Import base tactics numbers list gmap.
From S2P Require Import Prelude LinkedList MqttPacket SockBuf MqttRead MqttProto MqttSession Store PersistFile PersistFileSpec Persist PersistQueue PersistProto PersistRecords PersistSim PersistKeep PersistHandle.

(** ** Publishing *)

(** A message the client may publish with QoS 1 or 2. *)
Definition publishable (p : Publish) (qos retained : Z) : Prop :=
  short (p_topic p) /\ p_payloadlen p = Z.of_nat (length (p_payload p)) /\ (qos = 1 \/ qos = 2) /\ 0 <= retained < 2 /\
  0 <= p_msgId p < 65536 /\ Z.of_nat (length (p_topic p)) + p_payloadlen p + 4 < 128 ^ 4.

#[export] Instance publishable_dec p qos retained : Decision (publishable p qos retained).
Proof. unfold publishable. apply _. Defined.

(** The flow of a message published. *)
Definition new_flow (p : Publish) (qos retained : Z) : flow :=
  Flow (p_msgId p) qos retained (p_topic p) (p_topiclen p) (p_payload p) (if qos =? 2 then Some PUBREC else None).

(** The packet that is sent and recorded. *)
Definition new_packet (p : Publish) (qos retained : Z) : Z * list (list Z) :=
  (Header PUBLISH 0 qos retained, [be16 (Z.of_nat (length (p_topic p))); p_topic p; be16 (p_msgId p); p_payload p]).

Lemma new_packet_eq p q qos retained :
  publishable p qos retained -> p_topic q = p_topic p -> p_msgId q = p_msgId p -> p_payload q = p_payload p ->
  p_payloadlen q = p_payloadlen p -> MQTTPacket_send_publish q 0 qos retained = Ret (new_packet p qos retained).
Proof.
  intros ((_ & Ht) & Hl & Hq & _ & Hid & _) E1 E2 E3 E4. unfold MQTTPacket_send_publish. rewrite E1, E2, E3, E4, Hl, Nat2Z.id.
  rewrite s32_id, int_buf_eq by lia. cbn [obind]. unfold read_bytes. rewrite bool_decide_eq_true_2 by lia. cbn [obind].
  rewrite drop_0, firstn_all. destruct (Z.ltb_spec 0 qos); [|lia]. by rewrite int_buf_eq.
Qed.

(** The body of the packet, and its record. *)
Lemma new_packet_body p qos retained :
  publishable p qos retained ->
  let hd := Header PUBLISH 0 qos retained in let body := concat (new_packet p qos retained).2 in
  hd_type hd = PUBLISH /\ hd_qos hd <> 0 /\ Z.of_nat (length body) < 128 ^ 4 /\
  flow_record (new_flow p qos retained) (record hd body).
Proof.
  intros (Hs & Hlen & Hqos & Hret & Hid & Hsz) hd body.
  destruct (Header_bits PUBLISH 0 qos retained) as (_ & Hty & _ & Hhq & Hhr); [unfold PUBLISH; lia..|]. fold hd in Hty, Hhq, Hhr.
  assert (Ebody : body = publish_body (p_topic p) (hd_qos hd) (p_msgId p) (p_payload p)).
  { unfold publish_body. rewrite Hhq. destruct (Z.ltb_spec 0 qos); [|lia]. unfold body, field. cbn [concat new_packet snd].
    by rewrite app_nil_r, app_assoc. }
  assert (Hl : Z.of_nat (length body) < 128 ^ 4).
  { unfold body. cbn [concat new_packet snd]. rewrite !length_app. change (length (be16 _)) with 2%nat. cbn [length]. lia. }
  split; [done|]. split; [lia|]. split; [done|]. rewrite Ebody in Hl |- *.
  pose proof (flow_record_publish hd (p_topic p) (p_msgId p) (p_payload p) (f_stage (new_flow p qos retained)) Hs Hid Hty
    ltac:(lia) Hl) as R.
  rewrite Hhq, Hhr in R. by rewrite Hhq.
Qed.

(** A message is made with a publication of its own. *)
Definition created (p : Publish) (qos retained : Z) (s s2 : mqtt) (msg : Messages) : Prop :=
  MQTTProtocol_createMessage p None qos retained s = Ret (msg, s2) /\
  add_pub (m_publish msg) (pub_of p) s s2 /\ client s2 = client s /\ pending s2 = pending s /\ passed s2 = passed s /\
  exists i t, msg = Message qos retained (p_msgId p) i (Some t) (if qos =? 2 then Some PUBREC else None).

Lemma create_run p qos retained s : pack_ok p -> exists s2 msg, created p qos retained s s2 msg.
Proof.
  intros Hp. destruct (store_run p s Hp) as (i & s1 & E & Ha & Es1). unfold created, MQTTProtocol_createMessage. eexists s1, _.
  split; [unfold pbind at 1; rewrite E; reflexivity|]. split; [done|]. rewrite Es1. by split_and!; [..|eexists _, _].
Qed.

(** The message is in flight before it is sent. *)
Definition in_flight (p : Publish) (qos retained : Z) (s s2 : mqtt) (msg : Messages) : Prop :=
  created p qos retained s s2 msg /\ pubs s2 !! m_publish msg = Some (pub_of p) /\
  out_ok msg /\ m_msgid msg = p_msgId p /\ as_flow msg (pub_of p) = new_flow p qos retained.

Lemma in_flight_run p qos retained s :
  publishable p qos retained -> exists s2 msg, in_flight p qos retained s s2 msg.
Proof.
  intros (_ & Hl & Hq & _ & Hid & _). assert (Hp : pack_ok p) by (split; lia).
  assert (Et : take (Z.to_nat (p_payloadlen p)) (p_payload p) = p_payload p) by (rewrite Hl, Nat2Z.id; by apply take_ge).
  destruct (create_run p qos retained s Hp) as (s2 & msg & Hc). exists s2, msg.
  pose proof Hc as (_ & (_ & _ & Hpubs & _) & _ & _ & _ & i & t & ->). split; [done|]. cbn [m_publish m_msgid] in *.
  split; [by rewrite Hpubs, lookup_insert_eq|]. split; [|split; [done|]].
  - split; [by eexists|]. split; [done|]. cbn. destruct Hq as [-> | ->]; [by left|]. right. split; [done|by left].
  - unfold as_flow, new_flow, pub_of. cbn. by rewrite Et.
Qed.

Section Runs.
Context {H W : Type} (per : MQTTClient_persistence H W) `{!Persistence per} (h : H).

Notation tracked := (tracked per h).

(** A state of the engine in place of the one of the client. *)
Definition with_base (d : durable H W) (s : mqtt) : durable H W :=
  Durable s (persistence d) (phandle d) (outside d) (seqnos d) (qentry_seqno d).

Lemma lift_run {A B} (mb : M A) (k : A -> D H W B) d a s :
  mb (base d) = Ret (a, s) -> dbind (lift mb) k d = k a (with_base d s).
Proof. intros E. unfold dbind, lift. by rewrite E. Qed.

Lemma linked_base d m s : linked per h d m -> linked per h (with_base d s) m.
Proof. by intros []. Qed.

(** A message is published: it is in flight and on record. *)
Lemma publish_run p qos retained d m se :
  tracked d m se -> publishable p qos retained -> (forall g, g ∈ se_out se -> f_id g <> p_msgId p) ->
  exists rc d' m', MQTTProtocol_startPublish_d p qos retained None d = Ret (rc, d') /\
    tracked d' m' (Session (se_out se ++ [new_flow p qos retained]) (se_in se) (se_passed se)) /\
    qentry_seqno d' = qentry_seqno d /\ socket (client (base d')) = socket (client (base d)).
Proof.
  intros [Hl Hr Hst Hq] Hp Hnew. pose proof Hp as (Hs & Hlen & Hqos & Hret & Hid & Hsz).
  destruct (in_flight_run p qos retained (base d) Hp) as (s2 & msg & (E & Ha & Ec & Hpend & Hpass & _) & Hpub & Hok & Hmid & Hflow).
  unfold MQTTProtocol_startPublish_d. destruct (Z.ltb_spec 0 qos); [|lia]. rewrite (lift_run _ _ _ _ _ E).
  set (s3 := upd_client (fun c => set_outbound (c_append msg (outboundMsgs c)) c) s2).
  rewrite (lift_run _ _ _ tt s3) by done.
  rewrite (lift_run _ _ _ (pub_of p) s3) by by apply load_pub_run.
  set (d3 := with_base _ s3).
  assert (Hr3 : represents s3 (Session (se_out se ++ [new_flow p qos retained]) (se_in se) (se_passed se))).
  { rewrite <- Hflow. apply (represents_add_out (base d)); try done; cbn; rewrite ?Ec, ?Hpend; try done.
    apply (new_flow_id _ _ _ _ (re_out _ _ Hr)). by rewrite Hmid. }
  assert (Hl3 : linked per h d3 m) by by destruct Hl.
  assert (Hs3 : same_queue d d3) by (split; [done|split; [done|]]; cbn; by rewrite Ec).
  unfold MQTTProtocol_startPublishCommon_d.
  rewrite (new_packet_eq p) by done || (unfold pub_of; cbn; rewrite Hlen, Nat2Z.id; by rewrite ?firstn_all).
  destruct (new_packet_body p qos retained Hp) as (Hty & Hhq & Hbl & Hrec). set (hd := Header PUBLISH 0 qos retained) in *.
  destruct (send_run (new_packet p qos retained) s3) as (rc & s4 & E4 & Hsent).
  destruct (sim_send_recorded per h hd (new_packet p qos retained).2 2 (be16 (p_msgId p)) d3 m (p_msgId p) 2 Hl3 Hid Hbl)
    with (b := rc) (s' := s4) as (rc' & d4 & m4 & E5 & E6 & Hl4 & _ & -> & Hs4); [|done| |exact E4|].
  { right. by rewrite Hty. }
  { pose proof (readInt_app [] (p_msgId p) [] Hid) as R. rewrite app_nil_r in R. exact R. }
  rewrite Hty in Hl4. exists rc', d4, (<[s_key (p_msgId p) := record hd (concat (new_packet p qos retained).2)]> m).
  split; [|split; [|split]].
  - unfold dbind at 1. change (Ret (new_packet p qos retained)) with (Ret (hd, (new_packet p qos retained).2)). rewrite E5.
    destruct (Z.eqb_spec qos 0); [lia|]. done.
  - split; [done| | |].
    + rewrite E6. eapply represents_frame; [done|]. by apply (sent_session _ _ [new_packet p qos retained]).
    + apply (stored_add m (se_out se) (se_in se) Hst (session_out_ids _ _ Hr) (session_in_ids _ _ Hr) _ _ Hrec); [done|]. cbn. by destruct (qos =? 2).
    + apply (queue_ok_frame d d4 m); [done|by etrans|]. intros n. look. done.
  - destruct Hs4 as (_ & -> & _). done.
  - rewrite E6. destruct Hsent as (_ & _ & _ & -> & _). cbn. by rewrite Ec.
Qed.

(** A packet of the server arrives: what it did to the session is on record. *)
Lemma packet_run hd body mem pk d m se :
  tracked d m se -> server_packet hd body mem pk -> qentry_seqno d + 1 < 10 ^ 6 ->
  exists d' m', packet_d hd (Z.of_nat (length body)) (body ++ mem) (socket (client (base d))) d = Ret (tt, d') /\
    tracked d' m' (se_step pk se).1 /\ qentry_seqno d' <= qentry_seqno d + 1 /\
    nt (base d') = foldl (put (socket (client (base d)))) (nt (base d)) (se_step pk se).2.
Proof.
  intros Ht Hsp Hn. pose proof Hsp as (_ & Hok & _).
  destruct (handle_spec pk (base d) se _ (tr_represents _ _ _ _ _ Ht) eq_refl Hok) as (rc & s' & E & Hr & Hnt & _).
  destruct (packet_keeps per h hd body mem pk d m se Ht Hsp Hn rc s' E) as ([] & d' & m' & E1 & <- & Hl & Hst & Hq & Hn').
  exists d', m'. by split_and!.
Qed.

(** ** Sessions *)

Inductive action : Type :=
  | Arrives (header : Z) (body mem : list Z) (pack : packet)
  | Publishes (publish : Publish) (qos retained : Z).

Definition act_d (a : action) : D H W unit :=
  match a with
  | Arrives header body mem _ =>
      let@ d := dget in packet_d header (Z.of_nat (length body)) (body ++ mem) (socket (client (base d)))
  | Publishes publish qos retained => MQTTProtocol_startPublish_d publish qos retained None >@ dret tt
  end.

Fixpoint acts_d (l : list action) : D H W unit :=
  match l with
  | [] => dret tt
  | a :: l' => act_d a >@ acts_d l'
  end.
End Runs.

(** What they do to the session. *)
Definition se_act (a : action) (se : session) : session :=
  match a with
  | Arrives _ _ _ pack => (se_step pack se).1
  | Publishes publish qos retained => Session (se_out se ++ [new_flow publish qos retained]) (se_in se) (se_passed se)
  end.

Definition action_ok (a : action) (se : session) : Prop :=
  match a with
  | Arrives header body mem pack => server_packet header body mem pack
  | Publishes publish qos retained => publishable publish qos retained /\ Forall (fun f => f_id f <> p_msgId publish) (se_out se)
  end.

Fixpoint actions_ok (l : list action) (se : session) : Prop :=
  match l with
  | [] => True
  | a :: l' => action_ok a se /\ actions_ok l' (se_act a se)
  end.

Definition se_acts (l : list action) (se : session) : session := foldl (fun se a => se_act a se) se l.

Section Tracking.
Context {H W : Type} (per : MQTTClient_persistence H W) `{!Persistence per} (h : H).

Lemma act_run a d m se :
  tracked per h d m se -> action_ok a se -> qentry_seqno d + 1 < 10 ^ 6 ->
  exists d' m', act_d a d = Ret (tt, d') /\ tracked per h d' m' (se_act a se) /\ qentry_seqno d' <= qentry_seqno d + 1.
Proof.
  intros Ht Ha Hn. destruct a as [hd body mem pk|p qos retained].
  - destruct (packet_run per h hd body mem pk d m se Ht Ha Hn) as (d' & m' & E & Ht' & Hn' & _). by exists d', m'.
  - destruct Ha as [Hp Hnew]. rewrite Forall_forall in Hnew.
    destruct (publish_run per h p qos retained d m se Ht Hp Hnew) as (rc & d' & m' & E & Ht' & Hn' & _). exists d', m'.
    split; [unfold act_d, dbind; by rewrite E|]. split; [done|lia].
Qed.

Lemma acts_run l : forall d m se,
  tracked per h d m se -> actions_ok l se -> qentry_seqno d + Z.of_nat (length l) < 10 ^ 6 ->
  exists d' m', acts_d l d = Ret (tt, d') /\ tracked per h d' m' (se_acts l se) /\
    qentry_seqno d' <= qentry_seqno d + Z.of_nat (length l).
Proof.
  induction l as [|a l IH]; intros d m se Ht Hok Hn; [exists d, m; split_and!; [done..|cbn; lia]|].
  destruct Hok as [Ha Hok]. rewrite length_cons, Nat2Z.inj_succ in *.
  destruct (act_run a d m se Ht Ha ltac:(lia)) as (d1 & m1 & E1 & Ht1 & Hn1).
  destruct (IH d1 m1 _ Ht1 Hok ltac:(lia)) as (d' & m' & E & Ht' & Hn'). exists d', m'. split; [|split; [done|lia]].
  cbn [acts_d]. unfold dbind. by rewrite E1.
Qed.

(** C14: The store keeps up with the session.  Whatever the server sends and the application publishes,
    every step of a client with persistence returns, and afterwards the records behind the handle are
    those of the abstract session: the PUBLISH of every message in flight in each direction, the PUBREL
    of every message that was received, and the queue of messages for the application; the number of the
    last queue entry still fits its key. *)
Theorem records_track_session (l : list action) (d : durable H W) (m : gmap (list Z) (list Z)) (se : session) :
  tracked per h d m se -> actions_ok l se -> qentry_seqno d + Z.of_nat (length l) < 10 ^ 6 ->
  exists d' m', acts_d l d = Ret (tt, d') /\ tracked per h d' m' (se_acts l se) /\ qentry_seqno d' < 10 ^ 6.
Proof.
  intros Ht Hok Hn. destruct (acts_run l d m se Ht Hok Hn) as (d' & m' & E & Ht' & Hn'). exists d', m'.
  split; [done|]. split; [done|lia].
Qed.
End Tracking.

(** ** An example *)

(** A client on files; the application takes no message at first. *)
Definition example_per : MQTTClient_persistence path fs := file_persistence (H:=in_order) (str ".").

Definition example_client : durable path fs :=
  Durable (set_arrived [false] [] example_state) (Some example_per) (Some example_dir) (Fs ∅ {[example_dir; str "."]} []) [] 0.

(** Two messages to the server, the first of which it has received, and two from the server. *)
Definition example_actions : list action :=
  [Publishes (MkPublish 0 (str "/sms") 4 65534 (str "hello") 5) 2 0;
   Publishes (MkPublish 0 (str "/log") 4 2 (str "on") 2) 1 0;
   Arrives 0x50 (be16 65534) [] (PkAck (MkAck 0x50 65534));
   Arrives 0x32 (publish_body (str "/cmd") 1 7 (str "dial")) [] (PkPublish (MkPublish 0x32 (str "/cmd") 4 7 (str "dial") 4));
   Arrives 0x34 (publish_body (str "/cmd") 2 9 (str "hang")) [] (PkPublish (MkPublish 0x34 (str "/cmd") 4 9 (str "hang") 4))].

Lemma example_tracked : tracked (Persistence0 := file_store (H:=in_order) (str ".")) example_per example_dir example_client ∅ (Session [] [] []).
Proof.
  split.
  - split; [done|done|exact (example_holds [])|done].
  - eapply represents_frame; [exact example_represents|done].
  - split; try (by intros f Hf; apply elem_of_nil in Hf); intros id; intros *.
    + rewrite lookup_empty. by intros [].
    + by rewrite lookup_empty.
    + rewrite lookup_empty. by intros [].
    + rewrite lookup_empty. by intros [].
  - split; cbn; try constructor; try lia. intros n. rewrite lookup_empty. by intros [].
Qed.

Lemma example_publish_ok hd topic msgId payload p :
  bool_decide (short topic /\ 0 <= msgId < 65536 /\ hd_type hd = PUBLISH /\ Z.of_nat (length (publish_body topic (hd_qos hd) msgId payload)) < 128 ^ 4) = true ->
  MQTTPacket_publish hd (publish_body topic (hd_qos hd) msgId payload ++ []) (length (publish_body topic (hd_qos hd) msgId payload)) =
    Ret (Some (PkPublish p)) -> pack_ok p ->
  server_packet hd (publish_body topic (hd_qos hd) msgId payload) [] (PkPublish p).
Proof.
  intros (Ht & Hi & Hty & Hl)%bool_decide_eq_true E Hp. split; [done|]. split; [done|]. split.
  - exists MQTTPacket_publish. by rewrite Hty.
  - intros p' [= <-]. split; [done|]. by exists topic, msgId, payload.
Qed.

Lemma example_actions_ok : actions_ok example_actions (Session [] [] []).
Proof.
  split; [|split; [|split; [|split; [|split; [|exact I]]]]].
  - split; [apply (bool_decide_unpack _); vm_compute; exact I|apply Forall_nil_2].
  - split; [apply (bool_decide_unpack _); vm_compute; exact I|]. by apply Forall_cons_2; [|apply Forall_nil_2].
  - split; [vm_compute; reflexivity|]. split; [cbn; lia|]. split; [|done]. exists MQTTPacket_ack. split; vm_compute; reflexivity.
  - apply example_publish_ok; [vm_compute; reflexivity..|]. cbn. split; cbn; lia.
  - apply example_publish_ok; [vm_compute; reflexivity..|]. cbn. split; cbn; lia.
Qed.

Lemma records_track_session_witness :
  exists d' m', acts_d example_actions example_client = Ret (tt, d') /\
    tracked (Persistence0 := file_store (H:=in_order) (str ".")) example_per example_dir d' m' (se_acts example_actions (Session [] [] [])) /\
    qentry_seqno d' < 10 ^ 6.
Proof.
  apply (records_track_session (Persistence0 := file_store (H:=in_order) (str ".")) example_per example_dir example_actions example_client ∅
    (Session [] [] [])).
  - exact example_tracked.
  - exact example_actions_ok.
  - vm_compute. reflexivity.
Defined.
