(* ===== verification/PersistOrder.v ===== *)
(** * PersistOrder: the order of restored messages

    Identifiers are inserted in increasing order and then rotated at the greatest gap; sequence numbers
    are inserted in increasing order. *)

From Stdlib Require Import ZArith Lia Sorting.Sorted.
From stdpp Require Import base tactics numbers list sorting.
From S2P Require Import Prelude LinkedList MqttProto Persist PersistQueue.

(** ** Insertion *)

Section Insertion.
Context {A : Type}.
Implicit Types (x : A) (l : list A).

Lemma insert_at_fmap {B} (f : A -> B) i x l : f <$> insert_at i x l = insert_at i (f x) (f <$> l).
Proof. unfold insert_at. by rewrite fmap_app, fmap_cons, fmap_take, fmap_drop. Qed.

Lemma insert_at_perm i x l : insert_at i x l ≡ₚ x :: l.
Proof. unfold insert_at. by rewrite <- Permutation_middle, take_drop. Qed.

Lemma insert_at_Forall2 {B} (P : A -> B -> Prop) i x y l (k : list B) :
  Forall2 P l k -> P x y -> Forall2 P (insert_at i x l) (insert_at i y k).
Proof. intros Hl Hx. apply Forall2_app; [by apply Forall2_take|]. constructor; [done|]. by apply Forall2_drop. Qed.

Lemma items_insert i x (k : clist (A:=A)) :
  (i <= length (items k))%nat -> items (c_insert x i k) = insert_at i x (items k).
Proof.
  intros Hi. unfold c_insert, insert_at. case_bool_decide as H; [done|]. cbn.
  by rewrite take_ge, drop_ge by lia.
Qed.
End Insertion.

Lemma first_later_le n ns : (first_later n ns <= length ns)%nat.
Proof. induction ns as [|x ns IH]; [done|]. cbn. destruct (n <? x); lia. Qed.

Lemma first_greater_later id l : first_greater id l = first_later id (m_msgid <$> l).
Proof. induction l as [|m l IH]; [done|]. cbn. by rewrite IH. Qed.

(** What is inserted into a sorted list leaves it sorted. *)
Lemma insert_sorted n ns :
  StronglySorted Z.lt ns -> n ∉ ns -> StronglySorted Z.lt (insert_at (first_later n ns) n ns).
Proof.
  induction 1 as [|x ns Hs IH Hx]; intros Hn; [by repeat constructor|]. apply not_elem_of_cons in Hn as [Hne Hn].
  cbn [first_later]. destruct (Z.ltb_spec n x) as [Hlt|Hge].
  - constructor; [by constructor|]. constructor; [done|]. eapply Forall_impl; [done|]. cbn. lia.
  - change (insert_at (S (first_later n ns)) n (x :: ns)) with (x :: insert_at (first_later n ns) n ns).
    constructor; [by apply IH|]. rewrite insert_at_perm. constructor; [lia|done].
Qed.

Lemma sorted_lt_unique (l k : list Z) : StronglySorted Z.lt l -> StronglySorted Z.lt k -> l ≡ₚ k -> l = k.
Proof.
  intros Hl Hk Hp. eapply (StronglySorted_unique_strong Z.lt); [|done..]. intros x y _ _ Hx Hy. lia.
Qed.

Lemma sorted_lt_nodup (l : list Z) : StronglySorted Z.lt l -> NoDup l.
Proof.
  induction 1 as [|x l _ IH Hx]; constructor; [|done]. intros Hi. rewrite Forall_forall in Hx. specialize (Hx x Hi). lia.
Qed.

(** ** Rotation *)

(** The distance from one identifier to a later one. *)
Definition distance (a x : Z) : Z := (x - a) mod MAX_MSG_ID.

(** Identifiers in the order of their assignment, that lie in half of their range. *)
Definition in_turn (ids : list Z) : Prop :=
  match ids with
  | [] => True
  | a :: _ => Forall (fun x => 1 <= x <= MAX_MSG_ID /\ distance a x <= MAX_MSG_ID / 2) ids /\
      StronglySorted (fun x y => distance a x < distance a y) ids
  end.

(** The identifiers before and after the wrap. *)
Lemma in_turn_parts ids a :
  head ids = Some a -> in_turn ids -> exists l k, ids = l ++ k /\
    StronglySorted Z.lt l /\ StronglySorted Z.lt k /\
    Forall (fun x => a <= x <= a + MAX_MSG_ID / 2 /\ x <= MAX_MSG_ID) l /\
    Forall (fun x => 1 <= x < a - MAX_MSG_ID / 2) k.
Proof.
  intros Hh Ht. assert (H : 1 <= a <= MAX_MSG_ID /\ Forall (fun x => 1 <= x <= MAX_MSG_ID /\ distance a x <= MAX_MSG_ID / 2) ids /\
    StronglySorted (fun x y => distance a x < distance a y) ids).
  { destruct ids as [|b ids]; [done|]. injection Hh as ->. destruct Ht as [Hf Hs]. split; [|done].
    by apply Forall_cons in Hf as [[? _] _]. }
  clear Hh Ht. destruct H as (Ha & Hf & Hs). change (MAX_MSG_ID / 2) with 32767 in *. unfold distance, MAX_MSG_ID in *.
  induction ids as [|x ids IH]; [by exists [], []; split_and!; constructor|].
  apply Forall_cons in Hf as [[Hx Hd] Hf]. apply StronglySorted_cons in Hs as [Hlt Hs].
  destruct (IH Hf Hs) as (l & k & -> & Sl & Sk & Fl & Fk). apply Forall_app in Hlt as [Hll Hlk].
  destruct (Z.le_gt_cases a x) as [Hge|Hgt].
  - rewrite Z.mod_small in Hd by lia. exists (x :: l), k. split; [done|]. split; [|split_and!; [done| |done]].
    + constructor; [done|]. rewrite !Forall_forall in *. intros y Hy. specialize (Hll y Hy). specialize (Fl y Hy). cbn in *.
      rewrite !Z.mod_small in Hll by lia. lia.
    + constructor; [lia|done].
  - assert (Ex : (x - a) mod 65535 = x - a + 65535) by (rewrite <- (Z_mod_plus_full _ 1), Z.mod_small; lia).
    rewrite Ex in *. destruct l as [|y l].
    + exists [], (x :: k). split; [done|]. split_and!; try done.
      * constructor; [done|]. rewrite !Forall_forall in *. intros y Hy. specialize (Hlk y Hy). specialize (Fk y Hy). cbn in *.
        assert (Ey : (y - a) mod 65535 = y - a + 65535) by (rewrite <- (Z_mod_plus_full _ 1), Z.mod_small; lia). lia.
      * constructor; [lia|done].
    + apply Forall_cons in Hll as [Hy _]. apply Forall_cons in Fl as [Fy _]. rewrite (Z.mod_small (y - a)) in Hy by lia. lia.
Qed.

(** Elements in a narrow range do not move the end of the greatest gap once it is as wide. *)
Lemma wrap_narrow lo hi l : forall gap prev i w,
  Forall (fun m => lo <= m_msgid m <= hi) l -> lo <= prev -> hi - lo <= gap -> wrap_loop gap prev i w l = w.
Proof.
  induction l as [|m l IH]; intros gap prev i w Hl Hp Hg; [done|]. apply Forall_cons in Hl as [Hm Hl]. cbn [wrap_loop].
  destruct (Z.ltb_spec gap (m_msgid m - prev)); [lia|]. apply IH; [done|lia..].
Qed.

(** They leave a gap below any bound that is wider than they are. *)
Lemma wrap_below n lo hi l l' : forall gap prev i w,
  Forall (fun m => lo <= m_msgid m <= hi) l -> lo <= prev <= hi -> hi - lo < n -> gap < n ->
  exists gap' prev' w', wrap_loop gap prev i w (l ++ l') = wrap_loop gap' prev' (i + length l) w' l' /\
    gap' < n /\ lo <= prev' <= hi.
Proof.
  induction l as [|m l IH]; intros gap prev i w Hl Hp Hn Hg; [exists gap, prev, w; by rewrite Nat.add_0_r|].
  apply Forall_cons in Hl as [Hm Hl]. change ((m :: l) ++ l') with (m :: l ++ l'). cbn [wrap_loop].
  replace (i + length (m :: l))%nat with (S i + length l)%nat by (simpl; lia).
  destruct (Z.ltb_spec gap (m_msgid m - prev)); apply IH; try done; lia.
Qed.

(** Where the list is rotated. *)
Definition wrap_at (l : list Messages) : option nat :=
  match l, list.last l with
  | first :: rest, Some last => wrap_loop (MAX_MSG_ID - m_msgid last + m_msgid first) (m_msgid first) 1 None rest
  | _, _ => None
  end.

Lemma wrap_at_narrow lo hi l :
  Forall (fun m => lo <= m_msgid m <= hi) l -> 2 * (hi - lo) <= MAX_MSG_ID -> wrap_at l = None.
Proof.
  intros Hl Hn. unfold wrap_at. destruct l as [|m l]; [done|]. destruct (list.last (m :: l)) as [x|] eqn:E; [|done].
  assert (Hx : lo <= m_msgid x <= hi) by (apply last_Some_elem_of in E; rewrite Forall_forall in Hl; by apply Hl).
  apply Forall_cons in Hl as [Hm Hl].
  apply (wrap_narrow lo hi); [done|lia|lia].
Qed.

(** The low identifiers come behind the high ones. *)
Lemma wrap_at_wide a m l mp lp :
  Forall (fun x => 1 <= m_msgid x < a - MAX_MSG_ID / 2) (m :: l) ->
  Forall (fun x => a <= m_msgid x <= a + MAX_MSG_ID / 2 /\ m_msgid x <= MAX_MSG_ID) (mp :: lp) -> m_msgid mp = a ->
  wrap_at ((m :: l) ++ mp :: lp) = Some (length (m :: l)).
Proof.
  intros Hl Hp Ea. unfold wrap_at. cbn [app]. rewrite app_comm_cons, last_app.
  destruct (list.last (mp :: lp)) as [x|] eqn:E; [|by apply last_None in E].
  change (MAX_MSG_ID / 2) with 32767 in *. unfold MAX_MSG_ID in *.
  assert (Hx : a <= m_msgid x <= a + 32767 /\ m_msgid x <= 65535)
    by (apply last_Some_elem_of in E; rewrite Forall_forall in Hp; by apply Hp).
  apply Forall_cons in Hl as [Hm Hl].
  apply Forall_cons in Hp as [Hmp Hp].
  destruct (wrap_below 32768 1 (a - 32768) l (mp :: lp) (65535 - m_msgid x + m_msgid m) (m_msgid m) 1 None)
    as (gap & prev & w & -> & Hg & Hprev); [eapply Forall_impl; [done|]; cbn; lia|lia..|].
  cbn [wrap_loop]. destruct (Z.ltb_spec gap (m_msgid mp - prev)); [|lia].
  apply (wrap_narrow a (a + 32767)); [|lia..]. eapply Forall_impl; [done|]. cbn. lia.
Qed.

Definition rotated {A} (o : option nat) (l : list A) : list A :=
  match o with Some i => drop i l ++ take i l | None => l end.

(** Sorted identifiers are rotated into the order of their assignment. *)
Lemma wrap_in_turn ids (l : list Messages) :
  in_turn ids -> m_msgid <$> l ≡ₚ ids -> StronglySorted Z.lt (m_msgid <$> l) ->
  m_msgid <$> rotated (wrap_at l) l = ids.
Proof.
  intros Ht Hp Hs. destruct ids as [|a ids'] eqn:Eids.
  { apply Permutation_nil_r in Hp. apply fmap_nil_inv in Hp as ->. done. }
  destruct (in_turn_parts (a :: ids') a eq_refl Ht) as (p & k & E & Sp & Sk & Fp & Fk). rewrite E in Hp |- *.
  change (MAX_MSG_ID / 2) with 32767 in *. unfold MAX_MSG_ID in *.
  assert (Ha : head p = Some a).
  { destruct p as [|b p]; [|by injection E as ->]. destruct k as [|b k]; [done|]. injection E as -> _.
    apply Forall_cons in Fk as [? _]. lia. }
  assert (Hsk : StronglySorted Z.lt (k ++ p)).
  { apply StronglySorted_app_2; [|done..]. intros x y Hx Hy. rewrite Forall_forall in Fp, Fk.
    specialize (Fp y Hy). specialize (Fk x Hx). lia. }
  assert (El : m_msgid <$> l = k ++ p) by (apply sorted_lt_unique; [done..|by rewrite Hp, Permutation_app_comm]).
  apply fmap_app_inv in El as (lk & lp & -> & -> & ->). clear Hp Hs E Eids Ht. rewrite Forall_fmap in Fp, Fk.
  destruct lp as [|mp lp]; [done|]. cbn in Ha. injection Ha as Ha. pose proof Fp as Fp'. apply Forall_cons in Fp' as [[Hap _] Fp'].
  destruct lk as [|mk lk].
  - cbn [app]. rewrite app_nil_r, (wrap_at_narrow a (a + 32767)); [done| |unfold MAX_MSG_ID; lia].
    eapply Forall_impl; [exact Fp|]. cbn. lia.
  - rewrite (wrap_at_wide a); [|done..]. cbn [rotated]. by rewrite drop_app_length, take_app_length, fmap_app.
Qed.
