(* ===== verification/PersistRestore.v ===== *)
(** * PersistRestore: a client starts again

    The records of a session are read back: the messages in flight in both directions, in the order in
    which they were sent, each where its handshake was. *)

From Stdlib Require Import ZArith Lia String Sorting.Sorted.
From stdpp Require Import base tactics numbers list gmap sorting.
From S2P Require Import Prelude LinkedList MqttPacket SockBuf MqttRead MqttProto MqttSession Store Persist PersistQueue PersistProto PersistRecords PersistSim PersistKeep PersistHandle PersistRuns PersistOrder.

(** ** Keys *)

(** A stem with a byte that the key lacks is not found in it. *)
Lemma contains_no stem k c : c ∈ stem -> c ∉ k -> contains stem k = false.
Proof.
  intros Hs Hk. unfold contains. destruct (strstr k stem) as [i|] eqn:E; [|done].
  apply strstr_Some in E as [suf E]. destruct Hk. rewrite E. set_solver.
Qed.

Lemma letter_no_digit c n : 0 <= n -> 97 <= c -> c ∉ decimal n.
Proof.
  intros Hn Hc Hi. destruct (decimal_spec n Hn) as [Hd _]. rewrite Forall_forall in Hd. specialize (Hd c Hi).
  unfold is_digit in Hd. lia.
Qed.

Lemma s_key_kind n : 0 <= n ->
  starts_with PERSISTENCE_COMMAND_KEY (s_key n) = false /\ starts_with PERSISTENCE_QUEUE_KEY (s_key n) = false /\
  contains PERSISTENCE_PUBLISH_RECEIVED (s_key n) = false /\ contains PERSISTENCE_PUBLISH_SENT (s_key n) = true.
Proof.
  intros Hn. split; [done|]. split; [done|]. split; [|done]. apply (contains_no _ _ 114); [decide_all|].
  unfold s_key, key. rewrite not_elem_of_app. split; [decide_all|by apply letter_no_digit].
Qed.

Lemma r_key_kind n :
  starts_with PERSISTENCE_COMMAND_KEY (r_key n) = false /\ starts_with PERSISTENCE_QUEUE_KEY (r_key n) = false /\
  contains PERSISTENCE_PUBLISH_RECEIVED (r_key n) = true.
Proof. done. Qed.

Lemma sc_key_kind n : 0 <= n ->
  starts_with PERSISTENCE_COMMAND_KEY (sc_key n) = false /\ starts_with PERSISTENCE_QUEUE_KEY (sc_key n) = false /\
  contains PERSISTENCE_PUBLISH_RECEIVED (sc_key n) = false /\ contains PERSISTENCE_PUBLISH_SENT (sc_key n) = false /\
  contains Store.PERSISTENCE_PUBREL (sc_key n) = true.
Proof.
  intros Hn. split; [done|]. split; [done|]. split; [|split; [|done]].
  - apply (contains_no _ _ 114); [decide_all|]. unfold sc_key, key. rewrite not_elem_of_app.
    split; [decide_all|by apply letter_no_digit].
  - unfold contains, sc_key, key. cbn [str]. change (Store.PERSISTENCE_PUBREL ++ decimal n) with (115 :: 99 :: 45 :: decimal n).
    assert (E : strstr (decimal n) PERSISTENCE_PUBLISH_SENT = None).
    { apply strstr_None. intros (pre & suf & E). apply (letter_no_digit 115 n Hn); [lia|]. rewrite E.
      rewrite !elem_of_app. right. left. decide_all. }
    cbn [strstr]. rewrite E. done.
Qed.

(** ** What is restored *)

(** A flow as its record gives it: the length of the topic is that of the bytes, and only a message of
    QoS 2 has a stage. *)
Definition restored (f : flow) : flow :=
  Flow (f_id f) (f_qos f) (f_retain f) (f_topic f) (Z.of_nat (length (f_topic f))) (f_payload f)
    (if f_qos f =? 2 then f_stage f else None).

(** A message restored from the record of a flow. *)
Definition restored_message (f : flow) (pack : Publish) (msg : Messages) : Prop :=
  as_flow msg (pub_of pack) = Flow (f_id f) (f_qos f) (f_retain f) (f_topic f) (Z.of_nat (length (f_topic f)))
    (f_payload f) (if f_qos f =? 2 then Some PUBREC else None).

(** The messages of a session change their order. *)
Lemma represents_reorder s s' se fs :
  represents s se -> out s' ≡ₚ out s -> Forall2 (flow_of (pubs s')) (out s') fs -> inb s' = inb s ->
  items (pending s') = items (pending s) -> pubs s' = pubs s -> publications s' = publications s -> passed s' = passed s ->
  represents s' (Session fs (se_in se) (se_passed se)).
Proof.
  intros [[O1 O2 O3 O4 O5 O6 O7 O8] Ho Hi Hp] Eo Hfs Ei Ep Eh El Eq.
  assert (Er : refs s' ≡ₚ refs s) by (unfold refs; by rewrite Eo, Ei, Ep).
  split; cbn [se_out se_in se_passed]; [|done|by rewrite Eh, Ei|congruence]. split.
  - by rewrite Eo.
  - by rewrite Ei.
  - by rewrite Eo.
  - by rewrite Ei.
  - by rewrite Er.
  - by rewrite El, Er.
  - intros q. by rewrite Eh, Er.
  - by rewrite Eh.
Qed.

(** A message is inserted in the order of the identifiers. *)
Lemma represents_insert s s' se msg b :
  represents s se -> (forall f, f ∈ se_out se -> f_id f <> m_msgid msg) -> out_ok msg ->
  outboundMsgs (client s') = MQTTPersistence_insertInOrder msg (outboundMsgs (client s)) -> inb s' = inb s ->
  items (pending s') = items (pending s) -> add_pub (m_publish msg) b s s' -> passed s' = passed s ->
  represents s' (Session (insert_at (first_later (m_msgid msg) (f_id <$> se_out se)) (as_flow msg b) (se_out se))
    (se_in se) (se_passed se)).
Proof.
  intros Hr Hnew Hok Eo Ei Ep Ha Eq. set (i := first_later _ _).
  assert (Ei' : out s' = insert_at i msg (out s)).
  { rewrite Eo. unfold MQTTPersistence_insertInOrder. rewrite first_greater_later, <- (flows_ids _ _ _ (re_out _ _ Hr)).
    apply items_insert. pose proof (first_later_le (m_msgid msg) (f_id <$> se_out se)) as Hl.
    by rewrite length_fmap, <- (Forall2_length _ _ _ (re_out _ _ Hr)) in Hl. }
  set (s1 := upd_client (fun c => set_outbound (c_append msg (outboundMsgs (client s))) c) s').
  assert (Hr1 : represents s1 (Session (se_out se ++ [as_flow msg b]) (se_in se) (se_passed se))).
  { apply (represents_add_out s s1 se msg b Hr); try done.
    by apply (new_flow_id _ _ _ _ (re_out _ _ Hr)). }
  apply (represents_reorder s1 s' (Session (se_out se ++ [as_flow msg b]) (se_in se) (se_passed se))); try done.
  - rewrite Ei', insert_at_perm. cbn. by rewrite Permutation_app_comm.
  - rewrite Ei'. destruct (Forall2_app_inv _ _ _ _ _ (Forall2_length _ _ _ (re_out _ _ Hr)) (re_out _ _ Hr1)) as [Ho Hm].
    apply insert_at_Forall2; [done|]. by apply Forall2_cons in Hm as [? _].
Qed.

Section Restore.
Context {H W : Type} (per : MQTTClient_persistence H W) `{!Persistence per} (h : H).
Variables (m : gmap (list Z) (list Z)) (os ins : list flow).

(** The messages in flight to the server and from it. *)
Definition sending_ok (f : flow) : Prop :=
  0 <= f_id f < 65536 /\ (f_qos f = 1 \/ f_qos f = 2 /\ (f_stage f = Some PUBREC \/ f_stage f = Some PUBCOMP)).
Definition receiving_ok (f : flow) : Prop :=
  0 <= f_id f < 65536 /\ 0 <= f_retain f < 2 /\ f_qos f = 2 /\ f_stage f = Some PUBREL.

Hypothesis Hst : stored m os ins.
Hypothesis os_ids : NoDup (f_id <$> os).
Hypothesis ins_ids : NoDup (f_id <$> ins).
Hypothesis os_ok : Forall sending_ok os.
Hypothesis ins_ok : Forall receiving_ok ins.

(** [O] are the flows of [fs] whose records were read. *)
Definition back (key : Z -> list Z) (fs : list flow) (ks : list (list Z)) (O : list flow) : Prop :=
  forall g, g ∈ O <-> exists f, f ∈ fs /\ key (f_id f) ∈ ks /\ g = restored f.

Lemma back_other key fs ks k O : back key fs ks O -> (forall n, key n <> k) -> back key fs (k :: ks) O.
Proof.
  intros HO Hk g. rewrite (HO g). split; intros (f & Hf & Hi & ->); exists f; (split; [done|]); (split; [|done]).
  - by apply list_elem_of_further.
  - apply elem_of_cons in Hi as [Hi|Hi]; [by destruct (Hk (f_id f))|done].
Qed.

Lemma back_more key fs ks f O O' :
  back key fs ks O -> (forall a b, key a = key b -> a = b) -> (forall g, g ∈ fs -> f_id g = f_id f -> g = f) -> f ∈ fs ->
  O' ≡ₚ restored f :: O -> back key fs (key (f_id f) :: ks) O'.
Proof.
  intros HO Hinj Hu Hf Hp g. rewrite Hp, elem_of_cons, (HO g). split.
  - intros [->|(f' & Hf' & Hi & ->)]; [exists f|exists f']; (split; [done|]); (split; [|done]);
      [by apply list_elem_of_here|by apply list_elem_of_further].
  - intros (f' & Hf' & Hi & ->). apply elem_of_cons in Hi as [Hi|Hi]; [|right; by exists f'].
    left. f_equal. by apply Hu, Hinj.
Qed.

Lemma back_fresh key fs ks f O g : back key fs ks O -> key (f_id f) ∉ ks -> g ∈ O -> f_id g <> f_id f.
Proof. intros HO Hn Hg E. apply HO in Hg as (f' & Hf' & Hi & ->). cbn in E. by rewrite E in Hi. Qed.

(** The messages of the records read so far. *)
Record read_back (ks : list (list Z)) (d : durable H W) (passed : list app_message) : Prop := {
  rb_linked : linked per h d m;
  rb_represents : exists O I, represents (base d) (Session O I passed) /\ StronglySorted Z.lt (f_id <$> O) /\
    back s_key os ks O /\ back r_key ins ks I
}.

Lemma rb_other ks k d d' passed :
  read_back ks d passed -> linked per h d' m -> base d' = base d -> (forall n, s_key n <> k) -> (forall n, r_key n <> k) ->
  read_back (k :: ks) d' passed.
Proof.
  intros [_ (O & I & Hr & Hs & HO & HI)] Hl Eb H1 H2. split; [done|]. exists O, I. rewrite Eb.
  split_and!; [done..|by apply back_other|by apply back_other].
Qed.

(** A record is read and its packet restored. *)
Lemma turn_reads k r pack d :
  linked per h d m -> is_key k -> m !! k = Some r -> MQTTPersistence_restorePacket r (length r) = Ret (Some pack) ->
  starts_with PERSISTENCE_COMMAND_KEY k = false -> starts_with PERSISTENCE_QUEUE_KEY k = false ->
  exists w, linked per h (with_outside d w) m /\
    restore_key k d = (if contains PERSISTENCE_PUBLISH_RECEIVED k then restore_received pack >@ dret 0
                       else if contains PERSISTENCE_PUBLISH_SENT k then restore_sent pack >@ dret 0
                       else if contains Store.PERSISTENCE_PUBREL k then restore_pubrel k pack
                       else dret 0) (with_outside d w).
Proof.
  intros Hl Hk Hm Hp H1 H2. destruct (st_get_run per h d m k r Hl Hk Hm) as (w & E & Hl'). exists w. split; [done|].
  unfold restore_key. rewrite H1, H2. unfold dbind at 1. rewrite E. cbn [obind]. change (0 =? 0) with true. cbn iota.
  unfold dbind at 1, dlift at 1. cbn [deref obind]. unfold dbind at 1, dlift at 1. by rewrite Hp.
Qed.

(** The key is that of no message in flight: its turn changes nothing. *)
Lemma turn_skips n (d : durable H W) : restore_key (q_key n) d = Ret (0, d).
Proof. done. Qed.

(** A PUBREL is the one of a message in flight. *)
Lemma turn_released n d :
  linked per h d m -> is_Some (m !! sc_key n) ->
  exists w, restore_key (sc_key n) d = Ret (0, with_outside d w) /\ linked per h (with_outside d w) m.
Proof.
  intros Hl [r Hm]. destruct (st_sc _ _ _ Hst _ _ Hm) as ((f & Hf & Hid) & hd & Hrec).
  pose proof os_ok as Hok. rewrite Forall_forall in Hok. destruct (Hok f Hf) as [Hi _]. rewrite Hid in Hi.
  destruct (sc_key_kind n ltac:(lia)) as (K1 & K2 & K3 & K4 & K5).
  destruct (id_key Store.PERSISTENCE_PUBREL n Hi) as [_ Hk]; [done|decide_all|vm_compute; lia|].
  destruct (id_key PERSISTENCE_PUBLISH_SENT n Hi) as [Ek Hks]; [done|decide_all|vm_compute; lia|].
  destruct (turn_reads (sc_key n) r _ d Hl Hk Hm Hrec K1 K2) as (w & Hl1 & ->). rewrite K3, K4, K5.
  destruct (st_containskey_run per h _ m (key PERSISTENCE_PUBLISH_SENT n) Hl1 Hks) as (rc & w2 & E & Hl2 & Hrc).
  exists w2. split; [|done]. destruct (st_out _ _ _ Hst f Hf) as (r' & Hm' & _). rewrite Hid in Hm'.
  assert (rc = 0) as -> by (apply Hrc; by eexists).
  unfold restore_pubrel, dbind at 1, dlift. cbn [a_msgId]. rewrite Ek. cbn [obind]. unfold dbind. by rewrite E.
Qed.

(** ** The messages in flight *)

Lemma os_unique f g : f ∈ os -> g ∈ os -> f_id f = f_id g -> f = g.
Proof.
  intros Hf Hg E. apply list_elem_of_lookup in Hf as [i Hi]. apply list_elem_of_lookup in Hg as [j Hj].
  pose proof (flow_unique os i j f g os_ids Hi Hj E) as ->. congruence.
Qed.
Lemma ins_unique f g : f ∈ ins -> g ∈ ins -> f_id f = f_id g -> f = g.
Proof.
  intros Hf Hg E. apply list_elem_of_lookup in Hf as [i Hi]. apply list_elem_of_lookup in Hg as [j Hj].
  pose proof (flow_unique ins i j f g ins_ids Hi Hj E) as ->. congruence.
Qed.

(** The message of a record. *)
Lemma message_run f r pack s :
  flow_record f r -> MQTTPersistence_restorePacket r (length r) = Ret (Some (PkPublish pack)) ->
  exists s2 msg, created pack (hd_qos (p_header pack)) (hd_retain (p_header pack)) s s2 msg /\
    hd_qos (p_header pack) = f_qos f /\ hd_retain (p_header pack) = f_retain f /\ p_msgId pack = f_id f /\
    pub_of pack = Pub (f_topic f) (Z.of_nat (length (f_topic f))) (f_payload f) (p_payloadlen pack) 1.
Proof.
  intros (pk & E & Hok & E1 & E2 & E3 & E4 & E5 & E6) E'. rewrite E in E'. injection E' as <-.
  destruct (create_run pk (hd_qos (p_header pk)) (hd_retain (p_header pk)) s Hok) as (s2 & msg & Hc). exists s2, msg.
  split_and!; try done. unfold pub_of. by rewrite E4, E5, E6.
Qed.

(** A message of the server. *)
Lemma turn_received f ks d passed :
  read_back ks d passed -> f ∈ ins -> r_key (f_id f) ∉ ks ->
  exists d', restore_key (r_key (f_id f)) d = Ret (0, d') /\ read_back (r_key (f_id f) :: ks) d' passed /\ same_queue d d'.
Proof.
  intros [Hl (O & I & Hr & Hs & HO & HI)] Hf Hnew. destruct (st_in _ _ _ Hst f Hf) as (r & Hm & Hrec).
  pose proof Hrec as (pack & Ep & _). pose proof ins_ok as Hok. rewrite Forall_forall in Hok. destruct (Hok f Hf) as (Hi & Hret & Hq & Hstage).
  destruct (r_key_kind (f_id f)) as (K1 & K2 & K3).
  destruct (id_key PERSISTENCE_PUBLISH_RECEIVED (f_id f) Hi) as [_ Hk]; [done|decide_all|vm_compute; lia|].
  destruct (turn_reads (r_key (f_id f)) r _ d Hl Hk Hm Ep K1 K2) as (w & Hl1 & ->). rewrite K3. clear K1 K2 K3.
  destruct (message_run f r pack (base d) Hrec Ep) as (s2 & msg & (E & Ha & Ec & Epd & Eps & i & t & Emsg) & Eq & Er & Eid & Eb).
  set (msg' := Message (m_qos msg) (m_retain msg) (m_msgid msg) (m_publish msg) (m_lastTouch msg) (Some PUBREL)).
  set (s3 := upd_client (fun c => set_inbound (c_append msg' (inboundMsgs c)) c) s2).
  assert (Hr3 : represents s3 (Session O (I ++ [restored f]) passed)).
  { replace (restored f) with (as_flow msg' (pub_of pack)).
    2: { unfold as_flow, restored, msg'. rewrite Emsg, Eb, Hq, Hstage. cbn. by rewrite Eq, Er, Eid, Hq. }
    apply (represents_add_in (base d) s3 (Session O I passed)); try done; cbn; rewrite ?Ec, ?Epd; try done.
    - apply (new_flow_id _ _ _ _ (re_in _ _ Hr)). intros g Hg. subst msg. cbn. rewrite Eid.
      by apply (back_fresh _ _ _ _ _ g HI).
    - unfold in_ok, msg'. rewrite Emsg. cbn. rewrite Eid, Eq, Er. done. }
  exists (with_base (with_outside d w) s3). split; [|split].
  - unfold restore_received. unfold dbind at 1. unfold lift.
    rewrite (pbind_eq _ _ _ _ _ E). done.
  - split; [by apply linked_base|]. exists O, (I ++ [restored f]). split; [done|]. split; [done|]. split.
    + apply (back_other s_key); [done|]. intros n. key_ne.
    + apply (back_more r_key ins ks f I); [done|apply r_key_inj|intros g Hg; by apply ins_unique|done|].
      by rewrite Permutation_app_comm.
  - split; [done|]. split; [done|]. cbn. by rewrite Ec.
Qed.

(** The stage is told by the record of the PUBREL. *)
Lemma stage_back f (rc : Z) :
  f ∈ os -> (rc = 0 <-> is_Some (m !! sc_key (f_id f))) ->
  (if rc =? 0 then Some PUBCOMP else if f_qos f =? 2 then Some PUBREC else None) =
    (if f_qos f =? 2 then f_stage f else None).
Proof.
  intros Hf Hrc. pose proof os_ok as Hok. rewrite Forall_forall in Hok. destruct (Hok f Hf) as (_ & Hq).
  rewrite (st_rel _ _ _ Hst f Hf) in Hrc. destruct (Z.eqb_spec rc 0) as [E|Hne].
  - by destruct (proj1 Hrc E) as [-> ->].
  - destruct Hq as [Hq|[Hq [Hs|Hs]]]; rewrite Hq; [done|by rewrite Hs|]. destruct Hne. by apply Hrc.
Qed.

(** A message to the server. *)
Lemma turn_sent f ks d passed :
  read_back ks d passed -> f ∈ os -> s_key (f_id f) ∉ ks ->
  exists d', restore_key (s_key (f_id f)) d = Ret (0, d') /\ read_back (s_key (f_id f) :: ks) d' passed /\ same_queue d d'.
Proof.
  intros [Hl (O & I & Hr & Hs & HO & HI)] Hf Hnew. destruct (st_out _ _ _ Hst f Hf) as (r & Hm & Hrec).
  pose proof Hrec as (pack & Ep & _). pose proof os_ok as Hok. rewrite Forall_forall in Hok. destruct (Hok f Hf) as (Hi & Hq).
  destruct (s_key_kind (f_id f) ltac:(lia)) as (K1 & K2 & K3 & K4).
  destruct (id_key PERSISTENCE_PUBLISH_SENT (f_id f) Hi) as [_ Hk]; [done|decide_all|vm_compute; lia|].
  destruct (id_key Store.PERSISTENCE_PUBREL (f_id f) Hi) as [Ek Hkc]; [done|decide_all|vm_compute; lia|].
  destruct (turn_reads (s_key (f_id f)) r _ d Hl Hk Hm Ep K1 K2) as (w & Hl1 & ->). rewrite K3, K4. clear K1 K2 K3 K4.
  destruct (message_run f r pack (base d) Hrec Ep) as (s2 & msg & (E & Ha & Ec & Epd & Eps & i & t & Emsg) & Eq & Er & Eid & Eb).
  set (d2 := with_base (with_outside d w) s2). assert (Hl2 : linked per h d2 m) by by apply linked_base.
  destruct (st_containskey_run per h d2 m _ Hl2 Hkc) as (rc & w2 & E2 & Hl3 & Hrc).
  set (msg' := Message (m_qos msg) (m_retain msg) (m_msgid msg) (m_publish msg) (Some 0)
    (if rc =? 0 then Some PUBCOMP else m_nextMessageType msg)).
  set (s3 := upd_client (fun c => set_outbound (MQTTPersistence_insertInOrder msg' (outboundMsgs c)) c) s2).
  assert (Eid' : m_msgid msg' = f_id f) by (unfold msg'; rewrite Emsg; exact Eid).
  assert (Efl : as_flow msg' (pub_of pack) = restored f).
  { unfold as_flow, restored, msg'. rewrite Emsg, Eb. cbn. by rewrite Eq, Er, Eid, (stage_back f rc Hf Hrc). }
  assert (Hr3 : represents s3 (Session (insert_at (first_later (f_id f) (f_id <$> O)) (restored f) O) I passed)).
  { rewrite <- Efl, <- Eid'. apply (represents_insert (base d) s3 (Session O I passed)); try done; cbn; rewrite ?Ec, ?Epd; try done.
    - intros g Hg. rewrite Emsg. cbn. rewrite Eid. by apply (back_fresh _ _ _ _ _ g HO).
    - split; [by eexists|]. rewrite Eid'. split; [done|]. unfold msg'. rewrite Emsg. cbn. rewrite Eq, (stage_back f rc Hf Hrc).
      destruct Hq as [Hq|[Hq Hq2]]; [by left|]. right. by rewrite Hq. }
  exists (with_base (with_outside d2 w2) s3). split; [|split].
  - unfold restore_sent. unfold dbind at 1 2, dlift. rewrite Eid, Ek. cbn [obind].
    rewrite (lift_run _ _ (with_outside d w) _ _ E). unfold dbind at 1. change (st_containskey _ _) with (st_containskey (key Store.PERSISTENCE_PUBREL (f_id f)) d2).
    rewrite E2. done.
  - split; [by apply linked_base|]. eexists _, I. split; [done|]. split; [|split].
    + rewrite insert_at_fmap. apply insert_sorted; [done|]. intros Hin. apply list_elem_of_fmap in Hin as (g & Eg & Hg).
      by apply (back_fresh _ _ _ _ _ g HO Hnew Hg).
    + apply (back_more s_key os ks f O); [done|apply s_key_inj|intros g Hg; by apply os_unique|done|apply insert_at_perm].
    + apply (back_other r_key); [done|]. intros n. key_ne.
  - split; [done|]. split; [done|]. cbn. by rewrite Ec.
Qed.

(** One turn of the loop. *)
Lemma turn_back k ks d passed :
  read_back ks d passed -> is_Some (m !! k) -> k ∉ ks ->
  exists d', restore_key k d = Ret (0, d') /\ read_back (k :: ks) d' passed /\ same_queue d d'.
Proof.
  intros Hrb Hk Hnew. pose proof (rb_linked _ _ _ Hrb) as Hl. destruct (st_keys _ _ _ Hst k Hk) as (n & Hn).
  rewrite !elem_of_cons, elem_of_nil in Hn. destruct Hn as [->|[->|[->|[->|[]]]]].
  - destruct (st_s _ _ _ Hst n Hk) as (f & Hf & <-). by apply turn_sent.
  - destruct (turn_released n d Hl Hk) as (w & E & Hl'). exists (with_outside d w). split; [done|]. split; [|done].
    apply (rb_other ks _ d); try done; intros i; key_ne.
  - destruct (st_r _ _ _ Hst n Hk) as (f & Hf & <-). by apply turn_received.
  - exists d. split; [apply turn_skips|]. split; [|done].
    apply (rb_other ks _ d); try done; intros i; key_ne.
Qed.

Lemma loop_back keys : forall ks d passed,
  NoDup (keys ++ ks) -> (forall k, k ∈ keys -> is_Some (m !! k)) -> read_back ks d passed ->
  exists d', restore_loop keys d = Ret (0, d') /\ read_back (reverse keys ++ ks) d' passed /\ same_queue d d'.
Proof.
  induction keys as [|k keys IH]; intros ks d passed Hn Hk Hrb; [by exists d|].
  apply NoDup_cons in Hn as [Hnk Hn]. rewrite not_elem_of_app in Hnk.
  destruct (turn_back k ks d passed Hrb) as (d1 & E1 & Hrb1 & Hs1); [apply Hk, list_elem_of_here|tauto|].
  destruct (IH (k :: ks) d1 passed) as (d' & E & Hrb' & Hs'); [|intros x Hx; by apply Hk, list_elem_of_further|done|].
  { rewrite <- Permutation_middle. constructor; [by rewrite not_elem_of_app|done]. }
  exists d'. split; [cbn [restore_loop]; unfold dbind; by rewrite E1|]. rewrite reverse_cons, <- app_assoc. split; [done|].
  by etrans.
Qed.

(** All of them are back. *)
Lemma back_all key fs O :
  (forall f, f ∈ fs -> is_Some (m !! key (f_id f))) -> NoDup (f_id <$> fs) -> NoDup (f_id <$> O) ->
  back key fs (map_to_list m).*1 O -> O ≡ₚ restored <$> fs.
Proof.
  intros Hk Hfs HnO HO. apply NoDup_Permutation.
  - by apply NoDup_fmap_1 in HnO.
  - apply (NoDup_fmap_1 f_id). by rewrite <- list_fmap_compose.
  - intros g. rewrite (HO g), list_elem_of_fmap. split.
    + intros (f & Hf & _ & ->). by exists f.
    + intros (f & -> & Hf). exists f. split; [done|]. split; [|done]. destruct (Hk f Hf) as [r Hr].
      apply list_elem_of_fmap. exists (key (f_id f), r). split; [done|]. by apply elem_of_map_to_list.
Qed.

Lemma back_perm key fs ks ks' O : ks ≡ₚ ks' -> back key fs ks O -> back key fs ks' O.
Proof. intros Hp HO g. rewrite (HO g). by setoid_rewrite Hp. Qed.

(** The sorted list is rotated. *)
Definition wrapped (s : mqtt) : mqtt :=
  match wrap_at (out s) with
  | Some i => upd_client (fun c => set_outbound (rotate_at i (outboundMsgs c)) c) s
  | None => s
  end.

Lemma wrap_eq (d : durable H W) : MQTTPersistence_wrapMsgID d = Ret (tt, with_base d (wrapped (base d))).
Proof.
  unfold MQTTPersistence_wrapMsgID, wrapped, wrap_at, lift, the_client, pbind, MqttProto.pget, pret. cbn [obind].
  destruct (out (base d)) as [|first rest] eqn:E; [done|].
  destruct (list.last (first :: rest)) as [last|] eqn:E2; [|done]. by destruct (wrap_loop _ _ _ _ _).
Qed.

Lemma rotated_Forall2 {A B} (P : A -> B -> Prop) i l k :
  Forall2 P l k -> Forall2 P (rotated i l) (rotated i k).
Proof. destruct i as [i|]; [|done]. intros Hf. apply Forall2_app; [by apply Forall2_drop|by apply Forall2_take]. Qed.

Lemma rotated_perm {A} i (l : list A) : rotated i l ≡ₚ l.
Proof. destruct i as [i|]; [|done]. cbn. by rewrite Permutation_app_comm, take_drop. Qed.

Lemma wrapped_represents s O I passed :
  represents s (Session O I passed) -> represents (wrapped s) (Session (rotated (wrap_at (out s)) O) I passed).
Proof.
  intros Hr. assert (Eo : out (wrapped s) = rotated (wrap_at (out s)) (out s)) by (unfold wrapped; by destruct (wrap_at (out s))).
  apply (represents_reorder s _ (Session O I passed)); try (unfold wrapped; by destruct (wrap_at (out s))).
  - by rewrite Eo, rotated_perm.
  - rewrite Eo. apply rotated_Forall2. replace (pubs (wrapped s)) with (pubs s) by (unfold wrapped; by destruct (wrap_at (out s))).
    apply (re_out _ _ Hr).
Qed.

(** Flows with the identifiers of others, of which each is one. *)
Lemma flows_eq (l k : list flow) : f_id <$> l = f_id <$> k -> NoDup (f_id <$> k) -> l ≡ₚ k -> l = k.
Proof.
  intros E Hn Hp. apply list_eq. intros i. destruct (l !! i) as [f|] eqn:El.
  - assert (Hf : f ∈ k) by (rewrite <- Hp; by eapply list_elem_of_lookup_2). apply list_elem_of_lookup in Hf as [j Hj].
    assert (i = j) as ->; [|done]. eapply (NoDup_lookup (f_id <$> k)); [done|..].
    + rewrite <- E, list_lookup_fmap, El. done.
    + by rewrite list_lookup_fmap, Hj.
  - apply lookup_ge_None in El. symmetry. apply lookup_ge_None. by rewrite <- Hp.
Qed.

Lemma rotated_fmap {A B} (f : A -> B) i l : f <$> rotated i l = rotated i (f <$> l).
Proof. destruct i as [i|]; [|done]. cbn. by rewrite fmap_app, fmap_drop, fmap_take. Qed.

Lemma restored_ids (fs : list flow) : f_id <$> (restored <$> fs) = f_id <$> fs.
Proof. by rewrite <- list_fmap_compose. Qed.

(** The rotation gives back the order of the assignment. *)
Lemma rotated_in_turn s O I passed :
  represents s (Session O I passed) -> StronglySorted Z.lt (f_id <$> O) -> O ≡ₚ restored <$> os -> in_turn (f_id <$> os) ->
  rotated (wrap_at (out s)) O = restored <$> os.
Proof.
  intros Hr Hs Hp Ht. pose proof (flows_ids _ _ _ (re_out _ _ Hr)) as Ei. cbn [se_out] in Ei.
  apply flows_eq; [|by rewrite restored_ids|by rewrite rotated_perm]. rewrite restored_ids, rotated_fmap, Ei, <- rotated_fmap.
  apply wrap_in_turn; [done|rewrite <- Ei, Hp; by rewrite restored_ids|by rewrite <- Ei].
Qed.

Lemma back_nil key fs : back key fs [] [].
Proof. intros g. split; [intros Hg; by apply elem_of_nil in Hg|]. intros (f & _ & Hf & _). by apply elem_of_nil in Hf. Qed.

(** The messages in flight after the restart. *)
Lemma restore_run d passed :
  linked per h d m -> represents (base d) (Session [] [] passed) ->
  exists d' O I, MQTTPersistence_restore d = Ret (0, d') /\ linked per h d' m /\ same_queue d d' /\
    represents (base d') (Session O I passed) /\ O ≡ₚ restored <$> os /\ I ≡ₚ restored <$> ins /\
    (in_turn (f_id <$> os) -> O = restored <$> os).
Proof.
  intros Hl Hr. unfold MQTTPersistence_restore. unfold dbind at 1, dget. cbn [obind]. rewrite (ln_per _ _ _ _ Hl).
  destruct (st_keys_run per h d m Hl) as (keys & w & E & Hl1 & Hkeys). unfold dbind at 1 2. rewrite E. cbn [obind].
  change (0 =? 0) with true. cbn iota.
  assert (Hn : NoDup (keys ++ [])) by (rewrite app_nil_r, Hkeys; apply NoDup_fst_map_to_list).
  destruct (loop_back keys [] (with_outside d w) passed Hn) as (d1 & E1 & [Hl2 (O & I & Hr1 & Hs1 & HO & HI)] & Hs2).
  { intros k. rewrite Hkeys, list_elem_of_fmap. intros ([k' r] & -> & Hi). apply elem_of_map_to_list in Hi. by eexists. }
  { split; [done|]. exists [], []. split; [done|]. split; [constructor|]. split; apply back_nil. }
  rewrite app_nil_r in HO, HI. assert (Hp : reverse keys ≡ₚ (map_to_list m).*1) by by rewrite reverse_Permutation.
  assert (HnO : NoDup (f_id <$> O)) by by apply sorted_lt_nodup.
  apply (back_perm _ _ _ _ _ Hp), back_all in HO;
    [|intros f Hf; destruct (st_out _ _ _ Hst f Hf) as (r & -> & _); by eexists|done|done].
  apply (back_perm _ _ _ _ _ Hp), back_all in HI;
    [|intros f Hf; destruct (st_in _ _ _ Hst f Hf) as (r & -> & _); by eexists|done|by apply (session_in_ids _ _ Hr1)].
  exists (with_base d1 (wrapped (base d1))), (rotated (wrap_at (out (base d1))) O), I.
  split; [rewrite E1; cbn [obind]; unfold dbind; by rewrite wrap_eq|]. split; [by apply linked_base|]. split; [|split; [|split; [|split]]].
  - etrans; [exact Hs2|]. split; [done|]. split; [done|]. cbn. unfold wrapped. by destruct (wrap_at _).
  - by apply wrapped_represents.
  - by rewrite rotated_perm.
  - done.
  - intros Ht. by apply (rotated_in_turn _ _ I passed).
Qed.
End Restore.
