(* ===== verification/PersistEntries.v ===== *)
(** * PersistEntries: queue entries and commands read back

    The record of a queue entry and that of a PUBLISH command give back their fields; a topic ends at its
    first NUL. *)

From Stdlib Require Import ZArith Lia String.
From stdpp Require Import base tactics numbers list gmap.
From S2P Require Import Prelude LinkedList MqttPacket SockBuf MqttProto Store Persist PersistQueue.

(** ** Fields *)

Definition is_int (n : Z) : Prop := - 2 ^ 31 <= n < 2 ^ 31.

Lemma int_bytes_value n : is_int n ->
  s32 (u8 n + 2 ^ 8 * u8 (n / 2 ^ 8) + 2 ^ 16 * u8 (n / 2 ^ 16) + 2 ^ 24 * u8 (n / 2 ^ 24)) = n.
Proof.
  intros Hn. assert (E : u8 n + 2 ^ 8 * u8 (n / 2 ^ 8) + 2 ^ 16 * u8 (n / 2 ^ 16) + 2 ^ 24 * u8 (n / 2 ^ 24) = n mod 2 ^ 32).
  { unfold u8. Z.div_mod_to_equations. lia. }
  rewrite E. unfold s32, is_int in *. Z.div_mod_to_equations. lia.
Qed.

(** What is at a position of a buffer and behind it. *)
Definition at_pos (b : list Z) (pos : nat) (x : list Z) : Prop := exists pre, b = pre ++ x /\ pos = length pre.

Lemma at_start b : at_pos b 0 b.
Proof. by exists []. Qed.

Lemma read_bytes_at b pos x rest :
  at_pos b pos (x ++ rest) -> read_bytes b pos (length x) = Ret x /\ at_pos b (pos + length x) rest.
Proof.
  intros (pre & -> & ->). split.
  - unfold read_bytes. rewrite bool_decide_eq_true_2 by (rewrite !length_app; lia).
    by rewrite drop_app_length, take_app_length.
  - exists (pre ++ x). rewrite <- app_assoc, length_app. done.
Qed.

Lemma read_int_at b pos n rest :
  at_pos b pos (int_bytes n ++ rest) -> is_int n -> read_int b pos = Ret (n, (pos + 4)%nat) /\ at_pos b (pos + 4) rest.
Proof.
  intros Ha Hn. destruct (read_bytes_at b pos _ _ Ha) as [E Ha']. split; [|done]. unfold read_int.
  change (length (int_bytes n)) with 4%nat in E. rewrite E. cbn [obind int_bytes]. by rewrite int_bytes_value.
Qed.

Lemma read_block_at b pos x rest :
  at_pos b pos (x ++ rest) ->
  read_block b pos (Z.of_nat (length x)) = Ret (x, (pos + length x)%nat) /\ at_pos b (pos + length x) rest.
Proof.
  intros Ha. destruct (read_bytes_at b pos _ _ Ha) as [E Ha']. split; [|done]. unfold read_block.
  destruct (Z.ltb_spec (Z.of_nat (length x)) 0); [lia|]. by rewrite Nat2Z.id, E.
Qed.

Lemma read_string_at b pos s rest :
  at_pos b pos (cstr s ++ [0] ++ rest) ->
  read_string b pos = Ret (cstr s, (pos + length (cstr s) + 1)%nat) /\ at_pos b (pos + length (cstr s) + 1) rest.
Proof.
  intros (pre & -> & ->). split.
  - unfold read_string. rewrite drop_app_length. rewrite bool_decide_eq_true_2 by set_solver.
    unfold strlen. change (cstr s ++ [0] ++ rest) with (cstr s ++ 0 :: rest). by rewrite (cstr_app_nul (cstr s) rest (cstr_nonul s)).
  - exists (pre ++ cstr s ++ [0]). rewrite <- !app_assoc, !length_app. split; [done|]. cbn. lia.
Qed.

(** Read the field at the front of what is left. *)
Ltac field_int Ha := let E := fresh in let Ha' := fresh in
  destruct (read_int_at _ _ _ _ Ha) as [E Ha']; [done|]; rewrite E; cbn [obind]; clear E Ha; rename Ha' into Ha.
Ltac field_string Ha := let E := fresh in let Ha' := fresh in
  destruct (read_string_at _ _ _ _ Ha) as [E Ha']; rewrite E; cbn [obind]; clear E Ha; rename Ha' into Ha.
Ltac field_block Ha := let E := fresh in let Ha' := fresh in
  destruct (read_block_at _ _ _ _ Ha) as [E Ha']; rewrite E; cbn [obind]; clear E Ha; rename Ha' into Ha.

(** A block that is written is as long as its length says. *)
Lemma read_block_Ret mem n x p : read_block mem 0 n = Ret (x, p) -> n = Z.of_nat (length x) /\ x = take (Z.to_nat n) mem.
Proof.
  unfold read_block, read_bytes. destruct (Z.ltb_spec n 0); [done|]. rewrite drop_0. case_bool_decide as Hl; [|done].
  intros [= <- _]. rewrite length_take. split; [lia|done].
Qed.

(** ** Queue entries *)

(** The message as it is read back. *)
Definition restored_entry (am : app_message) : app_message :=
  AppMessage (cstr (am_topic am)) (am_topiclen am) (take (Z.to_nat (am_payloadlen am)) (am_payload am)) (am_payloadlen am)
    (am_qos am) (am_retained am) (am_dup am) (am_msgid am).

Definition entry_ints (am : app_message) : Prop :=
  is_int (am_payloadlen am) /\ is_int (am_qos am) /\ is_int (am_retained am) /\ is_int (am_dup am) /\
  is_int (am_msgid am) /\ is_int (am_topiclen am).

(** A message that waits for the application survives its record: whatever buffers
    [MQTTPersistence_persistQueueEntry] writes, [MQTTPersistence_restoreQueueEntry] reads the same message
    back from them, its topic up to the first NUL and of the payload the bytes that its length counts. *)
Theorem queue_entry_roundtrip (am : app_message) (bufs : list (list Z)) :
  entry_buffers am = Ret bufs -> entry_ints am -> MQTTPersistence_restoreQueueEntry (concat bufs) = Ret (restored_entry am).
Proof.
  intros E (I1 & I2 & I3 & I4 & I5 & I6). unfold entry_buffers in E.
  destruct (read_block (am_payload am) 0 (am_payloadlen am)) as [[x p]| | |] eqn:Ep; [|done..].
  cbn [obind] in E. injection E as <-. apply read_block_Ret in Ep as [El Ex]. unfold MQTTPersistence_restoreQueueEntry.
  set (b := concat _). pose proof (at_start b) as Ha. unfold b at 2 in Ha. cbn [concat] in Ha. rewrite <- !app_assoc in Ha.
  field_int Ha. rewrite El at 1. field_block Ha. field_int Ha. field_int Ha. field_int Ha. field_int Ha.
  field_string Ha. field_int Ha. unfold restored_entry. by rewrite <- Ex, El.
Qed.

(** ** Commands *)

(** A PUBLISH command that waits to be sent survives, too: [MQTTAsync_restoreCommand] gives back the token
    and the fields that [MQTTAsync_persistCommand] wrote. *)
Theorem publish_command_roundtrip (cmd : command) (name payload : list Z) (payloadlen qos retained : Z) (bufs : list (list Z)) :
  cmd_details cmd = DPublish (Some name) payloadlen payload qos retained -> command_buffers cmd = Ret (Some bufs) ->
  is_int (cmd_token cmd) -> is_int payloadlen -> is_int qos -> is_int retained ->
  MQTTAsync_restoreCommand (concat bufs) =
    Ret (Some (cmd_token cmd, DPublish (Some (cstr name)) payloadlen (take (Z.to_nat payloadlen) payload) qos retained)).
Proof.
  intros Ed E I1 I2 I3 I4. unfold command_buffers in E. rewrite Ed in E. cbn [deref obind] in E.
  destruct (read_block payload 0 payloadlen) as [[x p]| | |] eqn:Ep; [|done..].
  cbn [obind] in E. injection E as <-. apply read_block_Ret in Ep as [El Ex]. unfold MQTTAsync_restoreCommand.
  set (b := concat _). pose proof (at_start b) as Ha. unfold b at 2 in Ha. cbn [concat] in Ha. rewrite <- !app_assoc in Ha.
  field_int Ha. field_int Ha. change (PUBLISH =? SUBSCRIBE) with false. change (PUBLISH =? UNSUBSCRIBE) with false.
  change (PUBLISH =? PUBLISH) with true. cbn iota. field_string Ha. field_int Ha. rewrite El at 1. field_block Ha.
  field_int Ha. field_int Ha. by rewrite <- Ex, El.
Qed.

Definition example_entry : app_message := AppMessage (str "/cmd") 4 (str "dial") 4 1 0 0 7.

Lemma queue_entry_roundtrip_witness :
  exists bufs, entry_buffers example_entry = Ret bufs /\ MQTTPersistence_restoreQueueEntry (concat bufs) = Ret example_entry.
Proof.
  eexists. split; [vm_compute; reflexivity|].
  apply (queue_entry_roundtrip example_entry); [vm_compute; reflexivity|unfold entry_ints, is_int; cbn; lia].
Defined.

Lemma publish_command_roundtrip_witness :
  exists bufs, command_buffers (Command 5 9 0 true false (DPublish (Some (str "/sms")) 2 (str "ok") 1 0)) = Ret (Some bufs) /\
    MQTTAsync_restoreCommand (concat bufs) = Ret (Some (9, DPublish (Some (str "/sms")) 2 (str "ok") 1 0)).
Proof.
  eexists. split; [vm_compute; reflexivity|].
  apply (publish_command_roundtrip (Command 5 9 0 true false (DPublish (Some (str "/sms")) 2 (str "ok") 1 0)) (str "/sms") (str "ok") 2 1 0);
    [reflexivity|vm_compute; reflexivity|unfold is_int; cbn; lia..].
Defined.
