(* ===== verification/PersistResume.v ===== *)
(** * PersistResume: the session of a client that starts again

    [create_persistence] with the records of a session: the messages in flight and the queue of messages
    are back, and the records are those of the new client. *)

From Stdlib Require Import ZArith Lia String Sorting.Sorted.
From stdpp Require Import base tactics numbers list gmap sorting.
From S2P Require Import Prelude LinkedList MqttPacket SockBuf MqttRead MqttProto MqttSession Store PersistFile PersistFileSpec Persist PersistQueue PersistProto PersistRecords PersistSim PersistKeep PersistHandle PersistRuns PersistOrder PersistRestore PersistEntries.

(** An entry read back is recorded as before. *)
Lemma entry_again am : entry_buffers (restored_entry am) = entry_buffers am.
Proof.
  unfold entry_buffers, restored_entry, read_block, read_bytes. cbn [am_payload am_payloadlen am_qos am_retained am_dup am_msgid am_topic am_topiclen].
  destruct (Z.ltb_spec (am_payloadlen am) 0); [done|]. rewrite !drop_0, !Nat.add_0_l, length_take, take_take, Nat.min_id.
  rewrite (cstr_id (cstr (am_topic am)) (cstr_nonul _)). case_bool_decide as H1; case_bool_decide as H2; (done || lia).
Qed.

(** Entries of the same records. *)
Lemma queue_same m ns q q' :
  Forall2 (fun n am => exists bufs, entry_buffers am = Ret bufs /\ m !! q_key n = Some (concat bufs)) ns q -> Forall entry_ints q ->
  Forall2 (fun n am => exists r, (m : gmap (list Z) (list Z)) !! q_key n = Some r /\ MQTTPersistence_restoreQueueEntry r = Ret am) ns q' ->
  q' = restored_entry <$> q.
Proof.
  intros H. revert q'. induction H as [|n am ns q (bufs & Eb & Hm) _ IH]; intros q' Hi H'.
  - by apply Forall2_nil_inv_l in H'.
  - apply Forall_cons in Hi as [Ha Hi]. apply Forall2_cons_inv_l in H' as (am' & q2 & (r & Hm' & Er) & H' & ->).
    cbn. rewrite (IH q2 Hi H'). f_equal. rewrite Hm in Hm'. injection Hm' as <-.
    rewrite (queue_entry_roundtrip am bufs Eb Ha) in Er. by injection Er as <-.
Qed.

Section Resume.
Context {H W : Type} (per : MQTTClient_persistence H W) `{!Persistence per} (h : H).
Variables (m : gmap (list Z) (list Z)) (ns : list Z) (q : list app_message) (n0 : Z).

Hypothesis entries : Forall2 (fun n am => exists bufs, entry_buffers am = Ret bufs /\ m !! q_key n = Some (concat bufs)) ns q.
Hypothesis ns_sorted : StronglySorted Z.lt ns.
Hypothesis ns_bound : Forall (fun n => 0 < n <= n0) ns.
Hypothesis n0_range : 0 <= n0 < 10 ^ 6.
Hypothesis ns_keys : forall n, is_Some (m !! q_key n) -> n ∈ ns.
Hypothesis q_ints : Forall entry_ints q.
Hypothesis kinds : forall k, is_Some (m !! k) -> exists n, k ∈ [s_key n; sc_key n; r_key n; q_key n].

(** The entries read so far. *)
Record queue_back (ks : list (list Z)) (d d1 : durable H W) : Prop := {
  qb_linked : linked per h d1 m;
  qb_base : base d1 = upd_client (set_queue (messageQueue (client (base d1)))) (base d);
  qb_entries : Forall2 (fun n am => exists r, m !! q_key n = Some r /\ MQTTPersistence_restoreQueueEntry r = Ret am)
    (seqnos d1) (messageQueue (client (base d1)));
  qb_sorted : StronglySorted Z.lt (seqnos d1);
  qb_members n : n ∈ seqnos d1 <-> n ∈ ns /\ q_key n ∈ ks;
  qb_last : 0 <= qentry_seqno d1 <= n0;
  qb_bound : Forall (fun n => n <= qentry_seqno d1) (seqnos d1)
}.

Lemma number_back n : 0 <= n < 10 ^ 6 -> atoi (drop 2 (q_key n)) mod 2 ^ 32 = n.
Proof.
  intros Hn. change (drop 2 (q_key n)) with (decimal n). unfold atoi. destruct (decimal_spec n) as [_ ->]; [lia|].
  apply Z.mod_small. lia.
Qed.

(** The entry of a number. *)
Lemma entry_of n :
  n ∈ ns -> exists am r, am ∈ q /\ m !! q_key n = Some r /\ MQTTPersistence_restoreQueueEntry r = Ret (restored_entry am).
Proof.
  intros Hn. apply list_elem_of_lookup in Hn as [i Hi]. destruct (Forall2_lookup_l _ _ _ _ _ entries Hi) as (am & Ham & bufs & Eb & Hm).
  exists am, (concat bufs). split; [by eapply list_elem_of_lookup_2|]. split; [done|].
  apply queue_entry_roundtrip; [done|]. by apply (Forall_lookup_1 _ _ _ _ q_ints Ham).
Qed.

Lemma queue_turn n ks d d1 :
  queue_back ks d d1 -> n ∈ ns -> q_key n ∉ ks ->
  exists d', restore_queue_key (q_key n) d1 = Ret (0, d') /\ queue_back (q_key n :: ks) d d'.
Proof.
  intros [Hl Hb He Hs Hm Hla Hbo] Hn Hnew. destruct (entry_of n Hn) as (am & r & _ & Hr & Er).
  assert (Hn0 : 0 < n <= n0) by (pose proof ns_bound as Hf; rewrite Forall_forall in Hf; by apply Hf).
  assert (Hk : is_key (q_key n)) by (apply key_ok; [lia|done|decide_all]).
  destruct (st_get_run per h d1 m _ _ Hl Hk Hr) as (w & Ew & Hl1).
  unfold restore_queue_key. change (negb (starts_with PERSISTENCE_QUEUE_KEY (q_key n))) with false. cbn iota.
  unfold dbind at 1. rewrite Ew. cbn [obind]. change (0 =? 0) with true. cbn iota. unfold dbind at 1, dlift at 1. cbn [deref obind].
  unfold dbind at 1, dlift at 1. rewrite Er. cbn [obind]. rewrite (number_back n) by lia.
  set (i := first_later n (seqnos d1)). set (X := insert_at i (restored_entry am) (messageQueue (client (base d1)))).
  exists (Durable (upd_client (set_queue X) (base d1)) (persistence d1) (phandle d1) w (insert_at i n (seqnos d1))
    (Z.max (qentry_seqno d1) n)). split; [done|]. split; cbn [base seqnos qentry_seqno].
  - by destruct Hl1.
  - change (messageQueue _) with X. clearbody X. by rewrite Hb.
  - change (messageQueue _) with X. apply insert_at_Forall2; [done|]. by exists r.
  - apply insert_sorted; [done|]. rewrite Hm. tauto.
  - intros x. rewrite insert_at_perm, !elem_of_cons, Hm. split; [intros [->|[? ?]]; [split; [done|by left]|split; [done|by right]]|].
    intros (Hx & [E|E]); [left; by apply q_key_inj|by right].
  - lia.
  - rewrite insert_at_perm. constructor; [lia|]. eapply Forall_impl; [done|]. cbn. lia.
Qed.

(** The other records are passed over. *)
Lemma queue_skip k ks d d1 :
  queue_back ks d d1 -> is_Some (m !! k) -> (forall n, k <> q_key n) ->
  restore_queue_key k d1 = Ret (0, d1) /\ queue_back (k :: ks) d d1.
Proof.
  intros [Hl Hb He Hs Hm Hla Hbo] Hk Hne. split.
  - destruct (kinds k Hk) as (n & Hn). rewrite !elem_of_cons, elem_of_nil in Hn.
    destruct Hn as [->|[->|[->|[->|[]]]]]; try done. by destruct (Hne n).
  - split; try done. intros n. rewrite Hm, elem_of_cons. split; [tauto|]. intros (? & [E|?]); [by destruct (Hne n)|done].
Qed.

Lemma queue_loop keys : forall ks d d1,
  NoDup (keys ++ ks) -> (forall k, k ∈ keys -> is_Some (m !! k)) -> queue_back ks d d1 ->
  exists d', restore_queue_loop keys d1 = Ret (0, d') /\ queue_back (reverse keys ++ ks) d d'.
Proof.
  induction keys as [|k keys IH]; intros ks d d1 Hn Hk Hqb; [by exists d1|].
  apply NoDup_cons in Hn as [Hnk Hn]. rewrite not_elem_of_app in Hnk. pose proof (Hk k (list_elem_of_here _ _)) as Hs.
  assert (E1 : exists d2, restore_queue_key k d1 = Ret (0, d2) /\ queue_back (k :: ks) d d2).
  { destruct (kinds k Hs) as (n & Hi). destruct (decide (k = q_key n)) as [->|Hne].
    - apply queue_turn; [done|by apply ns_keys|tauto].
    - exists d1. apply queue_skip; [done..|]. intros n' ->. rewrite !elem_of_cons, elem_of_nil in Hi.
      destruct Hi as [E|[E|[E|[E|[]]]]]; try done; revert E; key_ne. }
  destruct E1 as (d2 & E1 & Hqb1).
  destruct (IH (k :: ks) d d2) as (d' & E & Hqb'); [|intros x Hx; by apply Hk, list_elem_of_further|done|].
  { rewrite <- Permutation_middle. constructor; [by rewrite not_elem_of_app|done]. }
  exists d'. split; [cbn [restore_queue_loop]; unfold dbind; by rewrite E1|]. by rewrite reverse_cons, <- app_assoc.
Qed.

(** The queue afterwards, in its order. *)
Lemma restore_queue_run d :
  linked per h d m -> messageQueue (client (base d)) = [] -> seqnos d = [] -> qentry_seqno d = 0 ->
  exists d', MQTTPersistence_restoreMessageQueue d = Ret (0, d') /\ linked per h d' m /\
    base d' = upd_client (set_queue (restored_entry <$> q)) (base d) /\ seqnos d' = ns /\ queue_ok d' m.
Proof.
  intros Hl Hq Hs Hn. unfold MQTTPersistence_restoreMessageQueue. unfold dbind at 1, dget. cbn [obind]. rewrite (ln_per _ _ _ _ Hl).
  destruct (st_keys_run per h d m Hl) as (keys & w & E & Hl1 & Hkeys). unfold dbind. rewrite E. cbn [obind].
  change (0 =? 0) with true. cbn iota.
  assert (Hnd : NoDup (keys ++ [])) by (rewrite app_nil_r, Hkeys; apply NoDup_fst_map_to_list).
  destruct (queue_loop keys [] d (with_outside d w) Hnd) as (d' & E' & [Ql Qb Qe Qs Qm Qla Qbo]).
  { intros k. rewrite Hkeys, list_elem_of_fmap. intros ([k' r] & -> & Hi). apply elem_of_map_to_list in Hi. by eexists. }
  { split; cbn; rewrite ?Hs, ?Hn, ?Hq; try done; try constructor; try lia.
    - destruct d as [[[]]]. cbn in *. by subst.
    - by intros ?%elem_of_nil.
    - intros [_ ?%elem_of_nil]. done. }
  exists d'. split; [done|]. split; [done|].
  assert (Ens : seqnos d' = ns).
  { apply sorted_lt_unique; [done..|]. apply NoDup_Permutation; [by apply sorted_lt_nodup..|]. intros n. rewrite Qm, app_nil_r.
    split; [tauto|]. intros Hi. split; [done|]. rewrite reverse_Permutation, Hkeys. destruct (entry_of n Hi) as (am & r & _ & Hr & _).
    apply list_elem_of_fmap. exists (q_key n, r). split; [done|]. by apply elem_of_map_to_list. }
  rewrite Ens in Qe. apply (queue_same _ _ _ _ entries q_ints) in Qe. rewrite Qe in Qb. split; [done|]. split; [done|].
  split; rewrite ?Ens, ?Qe.
  - apply Forall2_fmap_r. eapply Forall2_impl; [exact entries|]. intros n am. cbn. by rewrite entry_again.
  - done.
  - rewrite Ens in Qbo. rewrite Forall_forall in Qbo |- *. intros n Hi. pose proof ns_bound as Hb. rewrite Forall_forall in Hb.
    specialize (Hb n Hi). specialize (Qbo n Hi). cbn in *. lia.
  - lia.
  - done.
Qed.

(** No command is restored. *)
Lemma no_commands cmds d :
  linked per h d m ->
  exists w, MQTTAsync_restoreCommands cmds 0 d = Ret ((0, cmds, 0), with_outside d w) /\ linked per h (with_outside d w) m.
Proof.
  intros Hl. unfold MQTTAsync_restoreCommands. unfold dbind at 1, dget. cbn [obind]. rewrite (ln_per _ _ _ _ Hl).
  destruct (st_keys_run per h d m Hl) as (keys & w & E & Hl1 & Hkeys). exists w. split; [|done].
  unfold dbind. rewrite E. cbn [obind]. change (0 =? 0) with true. cbn iota.
  assert (Hk : forall k, k ∈ keys -> is_Some (m !! k)).
  { intros k. rewrite Hkeys, list_elem_of_fmap. intros ([k' r] & -> & Hi). apply elem_of_map_to_list in Hi. by eexists. }
  clear E Hkeys Hl1. induction keys as [|k keys IH]; [done|]. cbn [restore_commands_loop].
  assert (E : restore_command_key k cmds 0 (with_outside d w) = Ret ((0, cmds, 0), with_outside d w)).
  { pose proof (Hk k (list_elem_of_here _ _)) as Hs. destruct (kinds k Hs) as (n & Hn). rewrite !elem_of_cons, elem_of_nil in Hn.
    by destruct Hn as [->|[->|[->|[->|[]]]]]. }
  unfold dbind. rewrite E. cbn [obind]. change (0 =? 0) with true. cbn iota. apply IH. intros k' Hi. by apply Hk, list_elem_of_further.
Qed.
End Resume.

(** ** The client is created again *)

Lemma stored_restored m os ins O I :
  stored m os ins -> O ≡ₚ restored <$> os -> I ≡ₚ restored <$> ins -> stored m O I.
Proof.
  intros [T1 T2 T3 T4 T5 T6 T7] HO HI.
  assert (EO : forall g, g ∈ O <-> exists f, g = restored f /\ f ∈ os) by (intros g; by rewrite HO, list_elem_of_fmap).
  assert (EI : forall g, g ∈ I <-> exists f, g = restored f /\ f ∈ ins) by (intros g; by rewrite HI, list_elem_of_fmap).
  split.
  - intros g (f & -> & Hf)%EO. destruct (T1 f Hf) as (r & ? & ?). by exists r.
  - intros g (f & -> & Hf)%EO. cbn. rewrite (T2 f Hf). destruct (Z.eqb_spec (f_qos f) 2); [done|]. tauto.
  - intros g (f & -> & Hf)%EI. destruct (T3 f Hf) as (r & ? & ?). by exists r.
  - intros id Hs. destruct (T4 id Hs) as (f & Hf & E). exists (restored f). rewrite EO. split; [by exists f|done].
  - intros id r Hs. destruct (T5 id r Hs) as ((f & Hf & E) & Hr). split; [|done]. exists (restored f). rewrite EO. split; [by exists f|done].
  - intros id Hs. destruct (T6 id Hs) as (f & Hf & E). exists (restored f). rewrite EI. split; [by exists f|done].
  - done.
Qed.

Lemma represents_set_queue s se q :
  represents s se -> represents (upd_client (set_queue q) s)
    (Session (se_out se) (se_in se) ((fst <$> filter (fun e : app_message * bool => e.2 = true) (arrived s)) ++ q)).
Proof. intros [[] ]. split; [split|..]; done. Qed.

Lemma sending_flows s se : represents s se -> Forall sending_ok (se_out se).
Proof.
  intros Hr. pose proof (ok_out _ (re_ok _ _ Hr)) as Hok. rewrite Forall_forall. intros f Hf. apply list_elem_of_lookup in Hf as [i Hi].
  destruct (Forall2_lookup_r _ _ _ _ _ (re_out _ _ Hr) Hi) as (x & Hx & b & _ & ->). by destruct (Forall_lookup_1 _ _ _ _ Hok Hx) as (_ & ? & ?).
Qed.
Lemma receiving_flows s se : represents s se -> Forall receiving_ok (se_in se).
Proof.
  intros Hr. pose proof (ok_in _ (re_ok _ _ Hr)) as Hok. rewrite Forall_forall. intros f Hf. apply list_elem_of_lookup in Hf as [i Hi].
  destruct (Forall2_lookup_r _ _ _ _ _ (re_in _ _ Hr) Hi) as (x & Hx & b & _ & ->). apply (Forall_lookup_1 _ _ _ _ Hok Hx).
Qed.

Section Restart.
Context {H W : Type} (per : MQTTClient_persistence H W) `{!Persistence per}.

(** A client before its persistence is created. *)
Definition fresh_client (d : durable H W) : Prop :=
  represents (base d) (Session [] [] []) /\ seqnos d = [] /\ qentry_seqno d = 0.

(** C13: A client that is created again carries on.  Whatever packets and publications brought a client and
    its records about, when the process ends there and the client is created again on the same store, it
    has the messages in flight to the server in the order in which they were sent, those from the server, and
    the messages that wait for the application in their order, each as it was and where its handshake was; and the records
    are those of this session, so that every theorem on the records goes on to hold.  The identifiers in flight must lie in
    half of their range; a topic is restored with the length of its bytes. *)
Theorem restart_resumes (h h' : H) (d d0 : durable H W) (m : gmap (list Z) (list Z)) (se : session) (w : W)
    (type : Z) (file : option (MQTTClient_persistence H W)) (user : option (MQTTClient_persistence H W * bool))
    (serverURI : list Z) (cmds : list queued) :
  tracked per h d m se -> Forall entry_ints (messageQueue (client (base d))) -> in_turn (f_id <$> se_out se) ->
  fresh_client d0 -> MQTTPersistence_create type file user = (0, Some per) ->
  popen per (clientID (client (base d0))) serverURI (outside d0) = Ret (0, Some h', w) -> holds h' w m -> healthy w ->
  exists d' I, create_persistence type file user serverURI cmds d0 = Ret ((0, cmds, 0), d') /\
    I ≡ₚ restored <$> se_in se /\
    tracked per h' d' m (Session (restored <$> se_out se) I (restored_entry <$> messageQueue (client (base d)))).
Proof.
  intros [Hl Hr Hst [Q1 Q2 Q3 Q4 Q5]] Hints Hturn (Hr0 & Hs0 & Hn0) Ec Eo Hh Hw.
  set (d1 := Durable (base d0) (Some per) (Some h') w (seqnos d0) (qentry_seqno d0)).
  assert (Hl1 : linked per h' d1 m) by by split.
  destruct (restore_run per h' m (se_out se) (se_in se) Hst (session_out_ids _ _ Hr) (session_in_ids _ _ Hr)
    (sending_flows _ _ Hr) (receiving_flows _ _ Hr) d1 [] Hl1 Hr0)
    as (d2 & O & I & E2 & Hl2 & (Hs2 & Hn2 & Hq2) & Hr2 & HO & HI & Ht). specialize (Ht Hturn) as ->.
  destruct (no_commands per h' m (st_keys _ _ _ Hst) cmds d2 Hl2) as (w3 & E3 & Hl3).
  pose proof (re_passed _ _ Hr2) as Hp. cbn [se_passed] in Hp. apply app_eq_nil in Hp as [Hp Hq].
  destruct (restore_queue_run per h' m (seqnos d) (messageQueue (client (base d))) (qentry_seqno d) Q1 Q2 Q3 Q4 Q5 Hints
    (st_keys _ _ _ Hst) (with_outside d2 w3) Hl3) as (d4 & E4 & Hl4 & Eb & Es & Hqo);
    [done|by rewrite <- Hs0|by rewrite <- Hn0|].
  exists d4, I. split; [|split; [done|]].
  - unfold create_persistence. rewrite Ec. unfold dbind at 1, dget. cbn [obind]. unfold dbind at 1, set_store. cbn [obind].
    change (0 =? 0) with true. cbn iota. unfold MQTTPersistence_initialize. unfold dbind at 1 2, dget. cbn [obind persistence base].
    unfold dbind at 1, dlift. cbn [outside]. rewrite Eo. cbn [obind]. unfold dbind at 1, set_store. cbn [obind].
    change (0 =? 0) with true. cbn iota. change (Durable _ _ _ _ _ _) with d1.
    rewrite E2. cbn [obind]. change (0 =? 0) with true. cbn iota. unfold dbind at 1. rewrite E3. cbn [obind]. unfold dbind. by rewrite E4.
  - split; [done| | |done].
    + rewrite Eb. pose proof (represents_set_queue _ _ (restored_entry <$> messageQueue (client (base d))) Hr2) as R.
      rewrite Hp in R. exact R.
    + by apply (stored_restored m (se_out se) (se_in se)).
Qed.
End Restart.

(** The client of [PersistRuns] is created again after its session. *)
Definition example_se : session := se_acts example_actions (Session [] [] []).

Definition new_client (w : fs) : durable path fs := Durable example_state None None w [] 0.

(** Where the session stopped: the directory is there, and one message waits for the application. *)
Definition stopped (r : outcome (unit * durable path fs)) : Prop :=
  match r with
  | Ret (_, d') =>
      popen example_per (str "bob") (str "localhost:1883") (outside d') = Ret (0, Some example_dir, outside d') /\
      messageQueue (client (base d')) = [AppMessage (str "/cmd") 4 (str "dial") 4 1 0 0 7]
  | _ => True
  end.

Lemma example_stopped : stopped (acts_d example_actions example_client).
Proof. vm_compute. split; reflexivity. Qed.

Lemma example_in_turn : in_turn (f_id <$> se_out example_se).
Proof.
  vm_compute (f_id <$> _). split.
  - repeat apply Forall_cons_2; try apply Forall_nil_2; unfold distance; vm_compute; split; try split; congruence.
  - repeat constructor; vm_compute; reflexivity.
Qed.

Lemma restart_resumes_witness :
  exists d m d' I, acts_d example_actions example_client = Ret (tt, d) /\
    create_persistence MQTTCLIENT_PERSISTENCE_DEFAULT (Some example_per) None (str "localhost:1883") [] (new_client (outside d)) =
      Ret ((0, [], 0), d') /\
    I ≡ₚ restored <$> se_in example_se /\
    tracked (Persistence0 := file_store (H:=in_order) (str ".")) example_per example_dir d' m
      (Session (restored <$> se_out example_se) I [AppMessage (str "/cmd") 4 (str "dial") 4 1 0 0 7]).
Proof.
  destruct (acts_run (Persistence0 := file_store (H:=in_order) (str ".")) example_per example_dir example_actions example_client ∅
    (Session [] [] []) example_tracked example_actions_ok ltac:(vm_compute; reflexivity)) as (d & m & E & Ht & _).
  pose proof example_stopped as Hs. rewrite E in Hs. destruct Hs as [Ho Hq].
  destruct (restart_resumes (Persistence0 := file_store (H:=in_order) (str ".")) example_per example_dir example_dir d (new_client (outside d)) m
    example_se (outside d) MQTTCLIENT_PERSISTENCE_DEFAULT (Some example_per) None (str "localhost:1883") []) as (d' & I & E' & HI & Ht').
  - exact Ht.
  - rewrite Hq. apply Forall_cons_2; [unfold entry_ints, is_int; cbn; lia|apply Forall_nil_2].
  - exact example_in_turn.
  - split; [exact example_represents|]. split; reflexivity.
  - reflexivity.
  - exact Ho.
  - apply (ln_holds _ _ _ _ (tr_linked _ _ _ _ _ Ht)).
  - apply (ln_healthy _ _ _ _ (tr_linked _ _ _ _ _ Ht)).
  - rewrite Hq in Ht'. exists d, m, d', I. split; [exact E|]. split; [exact E'|]. split; [exact HI|exact Ht'].
Defined.

(** The order in which the messages to the server are sent again. *)
Example example_order : f_id <$> se_out example_se = [65534; 2].
Proof. vm_compute. reflexivity. Qed.
