(* ===== verification/RbTree.v ===== *)
(** * RbTree: red-black trees as values

    The trees that the nodes of Tree.c form, with the location of each node, and what the balancing of
    that file does to them, on a tree with a hole: the path from the hole to the root and the subtree in
    it.  The order of the items stays, and so does the red-black discipline. *)

From Stdlib Require Import ZArith Lia Sorting.Sorted.
From stdpp Require Import base tactics numbers list.
From S2P Require Import Prelude.

(** ** Trees and paths *)

(** A side is [false] for the left and [true] for the right, as the index of [child]. *)
Notation LEFT := false (only parsing).
Notation RIGHT := true (only parsing).

Section RbTree.
Context {X : Type}.

Inductive rb : Type := E | N (p : nat) (x : X) (red : bool) (l r : rb).

(** A node on the path: the side on which the path leaves it, and the other subtree. *)
Record frame : Type := Frame { f_side : bool; f_ptr : nat; f_item : X; f_red : bool; f_other : rb }.

Definition pick {B} (d : bool) (l r : B) : B := if d then r else l.

(** The node with [b] on side [d] and [a] on the other. *)
Definition nd (d : bool) (p : nat) (x : X) (red : bool) (a b : rb) : rb := if d then N p x red a b else N p x red b a.

Definition fill (f : frame) (t : rb) : rb := nd (f_side f) (f_ptr f) (f_item f) (f_red f) (f_other f) t.
Fixpoint plug (ctx : list frame) (t : rb) : rb := match ctx with [] => t | f :: ctx' => plug ctx' (fill f t) end.

Definition is_red (t : rb) : bool := match t with N _ _ r _ _ => r | E => false end.
Definition paint (red : bool) (t : rb) : rb := match t with N p x _ l r => N p x red l r | E => E end.

Definition root_ptr (t : rb) : option nat := match t with N p _ _ _ _ => Some p | E => None end.
Definition up_ptr (ctx : list frame) : option nat := match ctx with f :: _ => Some (f_ptr f) | [] => None end.

(** The nodes in order, with their items. *)
Fixpoint nodes_of (t : rb) : list (nat * X) := match t with N p x _ l r => nodes_of l ++ (p, x) :: nodes_of r | E => [] end.
Definition items_of (t : rb) : list X := (nodes_of t).*2.

(** What comes before the hole, and after it. *)
Fixpoint before (ctx : list frame) : list (nat * X) :=
  match ctx with
  | [] => []
  | Frame d p x _ s :: ctx' => before ctx' ++ (if d then nodes_of s ++ [(p, x)] else [])
  end.
Fixpoint after (ctx : list frame) : list (nat * X) :=
  match ctx with
  | [] => []
  | Frame d p x _ s :: ctx' => (if d then [] else (p, x) :: nodes_of s) ++ after ctx'
  end.

Lemma nodes_plug ctx t : nodes_of (plug ctx t) = before ctx ++ nodes_of t ++ after ctx.
Proof.
  revert t. induction ctx as [|[d p x r s] ctx IH]; intros t; cbn [plug before after]; [by rewrite app_nil_r|].
  rewrite IH. destruct d; cbn; by rewrite <- ?app_assoc; cbn; rewrite <- ?app_assoc.
Qed.

Lemma nodes_paint c t : nodes_of (paint c t) = nodes_of t.
Proof. by destruct t. Qed.

Lemma paint_paint c c' t : paint c (paint c' t) = paint c t.
Proof. by destruct t. Qed.

Lemma root_ptr_paint c t : root_ptr (paint c t) = root_ptr t.
Proof. by destruct t. Qed.

Lemma N_nd d p x r l k : N p x r l k = nd d p x r (pick (negb d) l k) (pick d l k).
Proof. by destruct d. Qed.

Lemma plug_app c1 c2 t : plug (c1 ++ c2) t = plug c2 (plug c1 t).
Proof. revert t. induction c1 as [|f c1 IH]; intros t; [done|]. apply IH. Qed.

(** ** After an insertion *)

(** The subtree in the hole has a red root. *)
Fixpoint fix_add (ctx : list frame) (t : rb) : rb :=
  match ctx with
  | Frame d p x true s :: Frame d2 g y ry u :: ctx' =>
      if is_red u then fix_add ctx' (nd d2 g y true (paint false u) (nd d p x false s t))
      else if bool_decide (d = d2) then plug ctx' (nd (negb d2) p x false t (nd (negb d2) g y true s u))
      else match t with
           | N c z rz l k =>
               plug ctx' (nd (negb d2) c z false (nd d2 p x true (pick d2 l k) s)
                 (nd (negb d2) g y true (pick (negb d2) l k) u))
           | E => plug ctx t
           end
  | _ => plug ctx t
  end.

(** ** After a removal *)

(** The hole is on side [d] of the node [p], whose other subtree is [s]: the subtree of [p] when the loss
    is made up for, or else passed on. *)
Definition borrow (d : bool) (p : nat) (x : X) (rp : bool) (s t : rb) : rb + rb :=
  match s with
  | E => inl (nd d p x rp E t)
  | N q y rs l r =>
      let c := pick (negb d) l r in
      let b := pick d l r in
      if negb (is_red c) && negb (is_red b) then inl (nd d p x rp (N q y true l r) t)
      else if is_red c then inr (nd d q y rp (paint false c) (nd d p x false b t))
      else match b with
           | N bq z _ bl br =>
               inr (nd d bq z rp (nd d q y false c (pick (negb d) bl br)) (nd d p x false (pick d bl br) t))
           | E => inl (nd d p x rp s t)
           end
  end.

Fixpoint fix_remove (ctx : list frame) (t : rb) : rb :=
  match ctx with
  | [] => paint false t
  | Frame d p x rp s :: ctx' =>
      if is_red t then plug ctx (paint false t)
      else match s with
           | N q y true l r =>
               let ctx2 := Frame d q y false (pick (negb d) l r) :: ctx' in
               match borrow d p x true (pick d l r) t with
               | inl up => plug ctx2 (paint false up)
               | inr done => paint false (plug ctx2 done)
               end
           | _ =>
               match borrow d p x rp s t with
               | inl up => fix_remove ctx' up
               | inr done => paint false (plug ctx' done)
               end
           end
  end.

(** The path to the least node of a subtree that is not empty, and that node. *)
Fixpoint least (ctx : list frame) (p : nat) (x : X) (red : bool) (l r : rb) : list frame * (nat * X * bool * rb) :=
  match l with
  | E => (ctx, (p, x, red, r))
  | N q y ry ll lr => least (Frame LEFT p x red r :: ctx) q y ry ll lr
  end.

Definition drop_node (ctx : list frame) (red : bool) (t : rb) : rb := if red then plug ctx t else fix_remove ctx t.

(** The node [N p x red l r] in the hole is removed; with two subtrees it takes the item of its
    successor, whose node is removed. *)
Definition remove_at (ctx : list frame) (p : nat) (x : X) (red : bool) (l r : rb) : rb :=
  match l, r with
  | N _ _ _ _ _, N q y ry rl rr =>
      let '(ctx2, (_, z, rz, k)) := least [] q y ry rl rr in
      drop_node (ctx2 ++ Frame RIGHT p z red l :: ctx) rz k
  | N _ _ _ _ _, E => drop_node ctx red l
  | E, _ => drop_node ctx red r
  end.

(** ** The order stays *)

Ltac same_nodes :=
  rewrite !nodes_plug; cbn; rewrite ?nodes_paint; repeat (rewrite <- ?app_assoc; cbn [app]); done.

(** Two frames at a time. *)
Lemma frames_ind (P : list frame -> Prop) :
  P [] -> (forall f, P [f]) -> (forall f g ctx, P ctx -> P (g :: ctx) -> P (f :: g :: ctx)) -> forall ctx, P ctx.
Proof.
  intros H0 H1 H2 ctx. assert (P ctx /\ forall f, P (f :: ctx)) as [H _]; [|done].
  induction ctx as [|g ctx [IH1 IH2]]; [by split|]. split; [apply IH2|]. intros f. by apply H2.
Qed.

Lemma nodes_fix_add ctx : forall t, nodes_of (fix_add ctx t) = nodes_of (plug ctx t).
Proof.
  induction ctx as [|[d p x [|] s]|[d p x [|] s] [d2 g y ry u] ctx IH _] using frames_ind; try done. intros t.
  cbn [fix_add]. destruct (is_red u); [rewrite IH|case_bool_decide as Hd; [|destruct t as [|c z rz l k]; [done|]]].
  - destruct d, d2; same_nodes.
  - subst d2. destruct d; same_nodes.
  - destruct d, d2; try done; same_nodes.
Qed.

Lemma nodes_borrow d p x rp s t :
  nodes_of (match borrow d p x rp s t with inl u | inr u => u end) = nodes_of (nd d p x rp s t).
Proof.
  unfold borrow. destruct s as [|q y rs l r]; [done|]. destruct (negb _ && negb _); [by destruct d|].
  destruct (is_red (pick (negb d) l r)); [destruct d; cbn; rewrite ?nodes_paint; repeat (rewrite <- ?app_assoc; cbn); done|].
  destruct (pick d l r) as [|bq z bc bl br] eqn:Eb; [done|].
  destruct d; cbn in Eb |- *; rewrite Eb; cbn; repeat (rewrite <- ?app_assoc; cbn); done.
Qed.

Lemma nodes_borrowed d p x rp s t u :
  borrow d p x rp s t = inl u \/ borrow d p x rp s t = inr u -> nodes_of u = nodes_of (nd d p x rp s t).
Proof. intros H. rewrite <- nodes_borrow. by destruct H as [-> | ->]. Qed.

Lemma nodes_fix_remove ctx : forall t, nodes_of (fix_remove ctx t) = nodes_of (plug ctx t).
Proof.
  induction ctx as [|[d p x rp s] ctx IH]; intros t; cbn [fix_remove]; [apply nodes_paint|].
  destruct (is_red t); [by rewrite !nodes_plug, nodes_paint|].
  assert (Hstep : forall s, nodes_of match borrow d p x rp s t with inl up => fix_remove ctx up | inr v => paint false (plug ctx v) end =
    nodes_of (plug (Frame d p x rp s :: ctx) t)).
  { intros s'. change (plug (Frame d p x rp s' :: ctx) t) with (plug ctx (nd d p x rp s' t)).
    destruct (borrow d p x rp s' t) as [u|u] eqn:Eb; rewrite ?IH, ?nodes_paint, !nodes_plug, (nodes_borrowed d p x rp s' t u); auto. }
  destruct s as [|q y [|] l r]; [apply Hstep| |apply Hstep].
  destruct (borrow d p x true (pick d l r) t) as [u|u] eqn:Eb; rewrite ?nodes_paint, !nodes_plug, ?nodes_paint;
    rewrite (nodes_borrowed d p x true (pick d l r) t u) by auto; destruct d; cbn; repeat (rewrite <- ?app_assoc; cbn); done.
Qed.

Lemma least_plug l : forall ctx p x red r,
  let '(ctx2, (q, z, rz, k)) := least ctx p x red l r in plug ctx2 (N q z rz E k) = plug ctx (N p x red l r).
Proof.
  induction l as [|q y ry ll IH lr _]; intros ctx p x red r; cbn; [done|].
  specialize (IH (Frame LEFT p x red r :: ctx) q y ry lr). by destruct (least _ _ _ _ _ _) as [ctx2 [[[a b] c] k]].
Qed.

Lemma nodes_drop_node ctx red t : nodes_of (drop_node ctx red t) = nodes_of (plug ctx t).
Proof. unfold drop_node. destruct red; [done|]. apply nodes_fix_remove. Qed.

Lemma least_before l : forall ctx p x red r, before (least ctx p x red l r).1 = before ctx.
Proof.
  induction l as [|q y ry ll IH lr _]; intros ctx p x red r; cbn; [done|]. rewrite IH. cbn. by rewrite app_nil_r.
Qed.

(** The least node is the first. *)
Lemma least_nodes ctx2 zp z rz k p x red l r :
  least [] p x red l r = (ctx2, (zp, z, rz, k)) -> nodes_of (N p x red l r) = (zp, z) :: nodes_of (plug ctx2 k).
Proof.
  intros E. pose proof (least_plug l [] p x red r) as Hp. pose proof (least_before l [] p x red r) as Hb.
  rewrite E in Hp, Hb. cbn [fst before plug] in Hp, Hb. rewrite <- Hp, !nodes_plug, Hb. done.
Qed.

Lemma least_items ctx2 zp z rz k p x red l r :
  least [] p x red l r = (ctx2, (zp, z, rz, k)) -> items_of (N p x red l r) = z :: items_of (plug ctx2 k).
Proof. intros E. unfold items_of. by rewrite (least_nodes _ _ _ _ _ _ _ _ _ _ E). Qed.

(** The items of the tree without the one at the hole. *)
Lemma items_remove_at ctx p x red l r :
  items_of (remove_at ctx p x red l r) = (before ctx).*2 ++ items_of l ++ items_of r ++ (after ctx).*2.
Proof.
  unfold remove_at, items_of. destruct l as [|lp lx lr ll lk]; [|destruct r as [|q y ry rl rr]].
  - by rewrite nodes_drop_node, nodes_plug, !fmap_app.
  - by rewrite nodes_drop_node, nodes_plug, !fmap_app.
  - set (l := N lp lx lr ll lk). destruct (least [] q y ry rl rr) as [ctx2 [[[zp z] rz] k]] eqn:El.
    apply least_items in El. unfold items_of in El. rewrite El, nodes_drop_node, plug_app.
    cbn [plug fill f_side f_ptr f_item f_red f_other nd]. rewrite nodes_plug. cbn [nodes_of].
    rewrite !fmap_app. cbn. by rewrite <- !app_assoc.
Qed.

(** ** The red-black discipline *)

(** The number of black nodes on every way down, when it is the same. *)
Fixpoint black_height (t : rb) : option nat :=
  match t with
  | E => Some 0%nat
  | N _ _ red l r =>
      match black_height l, black_height r with
      | Some a, Some b => if Nat.eqb a b then Some (if red then a else S a) else None
      | _, _ => None
      end
  end.

(** No red node has a red child. *)
Fixpoint no_red_red (t : rb) : bool :=
  match t with
  | E => true
  | N _ _ red l r => negb (red && (is_red l || is_red r)) && no_red_red l && no_red_red r
  end.

Definition red_black (t : rb) : Prop := is_red t = false /\ no_red_red t = true /\ exists n, black_height t = Some n.

(** A subtree with black height [n]. *)
Definition balanced (n : nat) (t : rb) : Prop := no_red_red t = true /\ black_height t = Some n.

Definition black_top (ctx : list frame) : Prop := match ctx with [] => True | f :: _ => f_red f = false end.

(** A path into which a subtree with black height [n] fits, with a red root when [black_top]; the path is
    that of a tree with a black root. *)
Fixpoint around (n : nat) (ctx : list frame) : Prop :=
  match ctx with
  | [] => True
  | Frame d p x red s :: ctx' =>
      balanced n s /\ (red = true -> is_red s = false /\ ctx' <> [] /\ black_top ctx') /\
      around (if red then n else S n) ctx'
  end%type.

Lemma balanced_nd n d p x red a b :
  balanced n (nd d p x red a b) <->
    exists m, balanced m a /\ balanced m b /\ n = (if red then m else S m) /\ (red = true -> is_red a = false /\ is_red b = false).
Proof.
  unfold balanced. split.
  - intros [H1 H2]. destruct d; cbn in H1, H2; rewrite !andb_true_iff, negb_true_iff in H1; destruct H1 as [[H1 Ha] Hb];
      destruct (black_height _) as [u|] eqn:Eu in H2; try done; destruct (black_height _) as [v|] eqn:Ev in H2; try done;
      destruct (Nat.eqb_spec u v) as [->|]; try done; injection H2 as <-; exists v; (split; [done|]; split; [done|]; split; [done|]);
      intros ->; by apply orb_false_iff in H1 as [? ?].
  - intros (m & [Ha Ea] & [Hb Eb] & -> & Hr). destruct d; cbn; rewrite Ea, Eb, Ha, Hb, Nat.eqb_refl;
      (split; [|done]); (destruct red; [|done]); by destruct (Hr eq_refl) as [-> ->].
Qed.

Lemma balanced_N n p x red a b :
  balanced n (N p x red a b) <->
    exists m, balanced m a /\ balanced m b /\ n = (if red then m else S m) /\ (red = true -> is_red a = false /\ is_red b = false).
Proof.
  change (N p x red a b) with (nd true p x red a b). apply balanced_nd.
Qed.

Lemma balanced_E n : balanced n E <-> n = 0%nat.
Proof. unfold balanced. cbn. split; [by intros [_ [= ->]]|by intros ->]. Qed.

Lemma plug_balanced ctx : forall n t,
  around n ctx -> balanced n t -> (is_red t = true -> black_top ctx) -> exists m, balanced m (plug ctx t).
Proof.
  induction ctx as [|[d p x red s] ctx IH]; intros n t Ha Ht Hr; [by exists n|]. destruct Ha as (Hs & Hred & Ha).
  apply (IH (if red then n else S n)); [done| |].
  - unfold fill. cbn [f_side f_ptr f_item f_red f_other]. apply balanced_nd. exists n. split; [done|]. split; [done|]. split; [done|]. intros ->. split; [by apply Hred|].
    cbn in Hr. by destruct (is_red t); [specialize (Hr eq_refl)|].
  - intros E. apply Hred. by destruct d, red.
Qed.

Lemma balanced_paint n t : balanced n t -> exists m, balanced m (paint false t).
Proof.
  destruct t as [|p x red l r]; [by exists n|]. intros (m & Hl & Hr & _)%balanced_N. exists (S m). apply balanced_N. by exists m.
Qed.

Lemma balanced_red_black n t : balanced n t -> red_black (paint false t).
Proof. intros Ht. destruct (balanced_paint n t Ht) as (m & H1 & H2). split; [by destruct t|]. split; [done|by exists m]. Qed.

Lemma red_paint n t : balanced n t -> is_red t = true -> balanced (S n) (paint false t).
Proof.
  destruct t as [|p x red l r]; [done|]. cbn. intros (m & Hl & Hr & -> & _)%balanced_N ->. apply balanced_N. by exists m.
Qed.

Lemma black_nd n d p x a b : balanced n a -> balanced n b -> balanced (S n) (nd d p x false a b).
Proof. intros Ha Hb. apply balanced_nd. by exists n. Qed.

Lemma red_nd n d p x a b :
  balanced n a -> balanced n b -> is_red a = false -> is_red b = false -> balanced n (nd d p x true a b).
Proof. intros Ha Hb. intros. apply balanced_nd. by exists n. Qed.

Lemma is_red_nd d p x r a b : is_red (nd d p x r a b) = r.
Proof. by destruct d. Qed.

Lemma picks n d l r : balanced n l -> balanced n r -> balanced n (pick d l r).
Proof. by destruct d. Qed.

Lemma is_red_pick d l r : is_red l = false -> is_red r = false -> is_red (pick d l r) = false.
Proof. by destruct d. Qed.

#[local] Hint Resolve black_nd red_nd red_paint picks is_red_pick : rb.

(** A red node is added in place of a leaf: the tree is red-black again. *)
Lemma fix_add_balanced ctx : forall n t,
  around n ctx -> balanced n t -> is_red t = true -> exists m, balanced m (fix_add ctx t).
Proof.
  induction ctx as [|[d p x red s]|[d p x red s] [d2 g y ry u] ctx IH _] using frames_ind; intros n t Ha Ht Hr.
  - by exists n.
  - destruct red; [by destruct Ha as (_ & (_ & ? & _) & _)|]. by apply (plug_balanced _ n).
  - destruct red; [|by apply (plug_balanced _ n)]. destruct Ha as (Hs & Hred & Hu & Hred2 & Ha).
    destruct (Hred eq_refl) as (Hsb & _ & Hg). cbn in Hg. subst ry. cbn [fix_add]. clear Hred Hred2.
    destruct (is_red u) eqn:Eu; [|case_bool_decide as Hd].
    + apply (IH (S n)); [done| |by rewrite is_red_nd]. apply red_nd; auto with rb; rewrite ?is_red_nd; [by destruct u|done].
    + apply (plug_balanced _ (S n)); [done| |by rewrite is_red_nd]. auto with rb.
    + destruct t as [|c z rz l k]; [done|]. apply balanced_N in Ht as (m & Hl & Hk & -> & Hb). cbn in Hr. subst rz.
      destruct (Hb eq_refl). apply (plug_balanced _ (S m)); [done| |by rewrite is_red_nd]. auto 6 with rb.
Qed.

Lemma plug_black_root ctx : forall n t, around n ctx -> ctx <> [] -> is_red (plug ctx t) = false.
Proof.
  induction ctx as [|[d p x red s] ctx IH]; intros n t Ha Hne; [done|]. destruct Ha as (_ & Hred & Ha).
  destruct ctx as [|f ctx]; [|by eapply (IH _ _ Ha)]. destruct red; [by destruct (Hred eq_refl) as (_ & ? & _)|]. apply is_red_nd.
Qed.

(** A subtree that is short of one black node, which a red root can make up for. *)
Definition short_of (n : nat) (t : rb) : Prop := if is_red t then balanced (S n) (paint false t) else balanced n t.

Lemma borrow_ok n d p x rp s t :
  balanced (S n) s -> is_red s = false -> short_of n t -> is_red t = false ->
  match borrow d p x rp s t with
  | inl u => is_red u = rp /\ short_of (if rp then n else S n) u
  | inr v => is_red v = rp /\ balanced (if rp then S n else S (S n)) v
  end.
Proof.
  intros Hs Hb Ht Htb. unfold short_of in Ht. rewrite Htb in Ht. destruct s as [|q y rs l r]; [by apply balanced_E in Hs|].
  cbn in Hb. subst rs. apply balanced_N in Hs as (m & Hl & Hr & [= <-] & _).
  assert (Hc : balanced n (pick (negb d) l r)) by auto with rb. assert (Hbb : balanced n (pick d l r)) by auto with rb.
  cbn [borrow]. destruct (is_red (pick (negb d) l r)) eqn:Ec; [|destruct (is_red (pick d l r)) eqn:Eb]; cbn [negb andb].
  - split; [apply is_red_nd|]. apply balanced_nd. exists (S n). split; [auto with rb|]. split; [auto with rb|].
    split; [by destruct rp|]. split; [by destruct d, l, r|apply is_red_nd].
  - destruct (pick d l r) as [|bq z rb bl br]; [done|]. cbn in Eb. subst rb.
    apply balanced_N in Hbb as (m & Hbl & Hbr & -> & _). split; [apply is_red_nd|]. apply balanced_nd. exists (S m).
    split; [auto with rb|]. split; [auto with rb|]. split; [by destruct rp|]. by rewrite !is_red_nd.
  - assert (Hred : balanced n (N q y true l r)).
    { rewrite (N_nd d). apply red_nd; done. }
    assert (Hu : balanced (S n) (nd d p x false (N q y true l r) t)) by auto with rb.
    unfold short_of. rewrite is_red_nd. split; [done|]. destruct rp; [by destruct d|done].
Qed.

Lemma fix_remove_ok ctx : forall n t, around (S n) ctx -> short_of n t -> red_black (fix_remove ctx t).
Proof.
  induction ctx as [|[d p x rp s] ctx IH]; intros n t Ha Ht; cbn [fix_remove].
  { unfold short_of in Ht. destruct (is_red t); [|by eapply balanced_red_black]. rewrite <- (paint_paint _ false).
    by eapply balanced_red_black. }
  destruct (is_red t) eqn:Et; unfold short_of in Ht; rewrite Et in Ht.
  { destruct (plug_balanced _ _ _ Ha Ht) as (m & H1 & H2); [by destruct t|]. split; [by eapply plug_black_root|].
    split; [done|by exists m]. }
  destruct Ha as (Hs & Hred & Ha).
  assert (Hstep : is_red s = false -> red_black match borrow d p x rp s t with inl up => fix_remove ctx up | inr v => paint false (plug ctx v) end).
  { intros Hb. pose proof (borrow_ok n d p x rp s t Hs Hb) as Hok. unfold short_of in Hok at 1. rewrite Et in Hok. specialize (Hok Ht eq_refl).
    destruct (borrow _ _ _ _ _ _) as [u|v]; destruct Hok as [Er Hok].
    - apply (IH (if rp then n else S n)); [by destruct rp|done].
    - destruct (plug_balanced ctx _ _ Ha Hok) as (m & Hm); [|by eapply balanced_red_black]. rewrite Er. intros ->. by apply Hred. }
  destruct s as [|q y [|] l r]; [by apply balanced_E in Hs| |by apply Hstep]. clear Hstep.
  assert (rp = false) as -> by (destruct rp; [by destruct (Hred eq_refl)|done]).
  apply balanced_N in Hs as (m & Hl & Hr & <- & Hb). destruct (Hb eq_refl) as [Hlb Hrb].
  pose proof (borrow_ok n d p x true (pick d l r) t) as Hok. unfold short_of in Hok at 1. rewrite Et in Hok.
  specialize (Hok ltac:(auto with rb) ltac:(auto with rb) Ht eq_refl).
  assert (Hctx : around (S n) (Frame d q y false (pick (negb d) l r) :: ctx)) by (split; [auto with rb|by split]).
  destruct (borrow _ _ _ _ _ _) as [u|v]; destruct Hok as [Er Hok].
  - unfold short_of in Hok. rewrite Er in Hok. destruct (plug_balanced _ _ _ Hctx Hok) as (m & H1 & H2); [by destruct u|].
    split; [by eapply plug_black_root|]. split; [done|by exists m].
  - destruct (plug_balanced _ _ _ Hctx Hok) as (m & Hm); [done|]. by eapply balanced_red_black.
Qed.

(** ** The whole operations *)

Lemma around_plug ctx : forall n t, balanced n (plug ctx t) -> is_red (plug ctx t) = false ->
  exists m, around m ctx /\ balanced m t /\ (is_red t = true -> ctx <> [] /\ black_top ctx).
Proof.
  induction ctx as [|[d p x red s] ctx IH]; intros n t Hb Hr; cbn [plug] in *.
  { exists n. split; [done|]. split; [done|]. rewrite Hr. done. }
  destruct (IH n _ Hb Hr) as (m & Ha & Ht & Htop). unfold fill in Ht, Htop. cbn [f_side f_ptr f_item f_red f_other] in Ht, Htop.
  rewrite is_red_nd in Htop. apply balanced_nd in Ht as (k & Hs & Ht & -> & Hred). exists k. split; [|split; [done|]].
  - split; [done|]. split; [|done]. intros ->. split; [by apply Hred|]. by apply Htop.
  - intros Ht'. split; [done|]. cbn. destruct red; [|done]. destruct (Hred eq_refl). congruence.
Qed.

Lemma add_red_black ctx p x : red_black (plug ctx E) -> red_black (paint false (fix_add ctx (N p x true E E))).
Proof.
  intros (Hr & Hn & n & Hh). destruct (around_plug ctx n E (conj Hn Hh) Hr) as (m & Ha & Hm & _).
  apply balanced_E in Hm as ->. destruct (fix_add_balanced ctx 0 (N p x true E E) Ha) as (k & Hk); [by split|done|].
  by eapply balanced_red_black.
Qed.

(** The node of a leaf is taken out. *)
Lemma drop_ok m ctx d p x red k :
  around m ctx -> balanced m (nd d p x red E k) -> (red = true -> ctx <> [] /\ black_top ctx) -> red_black (drop_node ctx red k).
Proof.
  intros Ha (j & Hj & Hk & -> & Hred)%balanced_nd Htop. apply balanced_E in Hj as ->. unfold drop_node. destruct red.
  - destruct (plug_balanced ctx 0 k Ha Hk) as (n & H1 & H2); [by destruct (Hred eq_refl) as [_ ->]|].
    split; [eapply plug_black_root; [exact Ha|by apply Htop]|]. split; [done|by exists n].
  - apply (fix_remove_ok ctx 0); [done|]. unfold short_of. destruct (is_red k) eqn:Ek; auto with rb.
Qed.

Lemma around_item c1 : forall m d p x z red s c2,
  around m (c1 ++ Frame d p x red s :: c2) -> around m (c1 ++ Frame d p z red s :: c2).
Proof.
  induction c1 as [|[d1 p1 x1 red1 s1] c1 IH]; intros m d p x z red s c2; [done|]. cbn [app around].
  intros (Hs & Hred & Ha). split; [done|]. split; [|by eapply IH]. intros E. destruct (Hred E) as (? & _ & Hb).
  split; [done|]. by destruct c1.
Qed.

Lemma remove_red_black ctx p x red l r :
  red_black (plug ctx (N p x red l r)) -> red_black (remove_at ctx p x red l r).
Proof.
  intros (Hr & Hn & n & Hh). unfold remove_at.
  destruct l as [|lp lx lr ll lk]; [|destruct r as [|q y ry rl rr]].
  - destruct (around_plug _ n _ (conj Hn Hh) Hr) as (m & Ha & Hm & Htop). by eapply (drop_ok m ctx true p x).
  - destruct (around_plug _ n _ (conj Hn Hh) Hr) as (m & Ha & Hm & Htop). by eapply (drop_ok m ctx false p x).
  - set (l := N lp lx lr ll lk) in *. pose proof (least_plug rl [] q y ry rr) as Hp.
    destruct (least [] q y ry rl rr) as [ctx2 [[[zp z] rz] k]]. cbn [plug] in Hp.
    assert (E : plug (ctx2 ++ Frame RIGHT p x red l :: ctx) (N zp z rz E k) = plug ctx (N p x red l (N q y ry rl rr))).
    { rewrite plug_app, Hp. done. }
    rewrite <- E in Hr, Hn, Hh. destruct (around_plug _ n _ (conj Hn Hh) Hr) as (m & Ha & Hm & Htop).
    eapply (drop_ok m _ true zp z); [by eapply around_item|done|]. intros E'. destruct (Htop E') as [_ Hb].
    by destruct ctx2.
Qed.

(** ** Search *)

(** The way from the root of a subtree to where [cmp] says: [cmp] is positive before, negative after. *)
Fixpoint locate (cmp : X -> Z) (ctx : list frame) (t : rb) : list frame * rb :=
  match t with
  | E => (ctx, E)
  | N p x red l r =>
      if cmp x =? 0 then (ctx, t)
      else if 0 <? cmp x then locate cmp (Frame RIGHT p x red l :: ctx) r
      else locate cmp (Frame LEFT p x red r :: ctx) l
  end.

(** [cmp] is positive, then zero, then negative along the list. *)
Definition falls (cmp : X -> Z) (l : list X) : Prop := StronglySorted (fun x y => 0 <= cmp y -> 0 < cmp x) l.

Lemma locate_plug cmp t : forall ctx, plug (locate cmp ctx t).1 (locate cmp ctx t).2 = plug ctx t.
Proof.
  induction t as [|p x red l IHl r IHr]; intros ctx; cbn; [done|]. destruct (cmp x =? 0); [done|].
  destruct (0 <? cmp x); [by rewrite IHr|by rewrite IHl].
Qed.

Lemma locate_found cmp t : forall ctx,
  match (locate cmp ctx t).2 with E => True | N _ x _ _ _ => cmp x = 0 end.
Proof.
  induction t as [|p x red l IHl r IHr]; intros ctx; cbn; [done|]. destruct (Z.eqb_spec (cmp x) 0); [done|].
  destruct (0 <? cmp x); [apply IHr|apply IHl].
Qed.

(** What is before the place found is less, what is after it is greater. *)
Lemma falls_split cmp l1 x l2 :
  falls cmp (l1 ++ x :: l2) -> (0 <= cmp x -> Forall (fun y => 0 < cmp y) l1) /\ (cmp x <= 0 -> Forall (fun y => cmp y < 0) l2).
Proof.
  unfold falls. intros H. induction l1 as [|y l1 IH]; cbn [app] in H; apply StronglySorted_inv in H as [H Hf].
  - split; [by constructor|]. intros Hx. eapply Forall_impl; [exact Hf|]. intros y Hy. cbn in Hy. lia.
  - destruct (IH H) as [IH1 IH2]. split; [|done]. intros Hx. constructor; [|by apply IH1].
    apply Forall_app in Hf as [_ Hf]. apply Forall_cons in Hf as [Hf _]. by apply Hf.
Qed.

Lemma locate_sides cmp t : forall ctx, falls cmp (items_of (plug ctx t)) ->
  Forall (fun x => 0 < cmp x) (before ctx).*2 -> Forall (fun x => cmp x < 0) (after ctx).*2 ->
  let '(ctx', t') := locate cmp ctx t in
  match t' with
  | E => Forall (fun x => 0 < cmp x) (before ctx').*2 /\ Forall (fun x => cmp x < 0) (after ctx').*2
  | N p x red l r =>
      Forall (fun x => 0 < cmp x) ((before ctx').*2 ++ items_of l) /\ Forall (fun x => cmp x < 0) (items_of r ++ (after ctx').*2)
  end.
Proof.
  induction t as [|p x red l IHl r IHr]; intros ctx Hf Hb Ha; cbn; [done|].
  assert (Hs : falls cmp (((before ctx).*2 ++ items_of l) ++ x :: (items_of r ++ (after ctx).*2))).
  { revert Hf. unfold items_of. rewrite nodes_plug. cbn [nodes_of]. rewrite !fmap_app. cbn. by rewrite <- !app_assoc. }
  apply falls_split in Hs as [H1 H2]. destruct (Z.eqb_spec (cmp x) 0) as [Hx|Hx].
  - split; [apply H1|apply H2]; lia.
  - destruct (Z.ltb_spec 0 (cmp x)) as [Hlt|Hlt].
    + apply (IHr (Frame RIGHT p x red l :: ctx) Hf).
      * cbn. rewrite !fmap_app. rewrite app_assoc. apply Forall_app. split; [apply H1; lia|by constructor].
      * done.
    + apply (IHl (Frame LEFT p x red r :: ctx) Hf).
      * cbn. by rewrite app_nil_r.
      * cbn. rewrite fmap_app. constructor; [lia|apply H2; lia].
Qed.

(** ** Depth *)

Fixpoint tree_size (t : rb) : nat := match t with N _ _ _ l r => S (tree_size l + tree_size r) | E => 0 end.
Fixpoint tree_depth (t : rb) : nat := match t with N _ _ _ l r => S (max (tree_depth l) (tree_depth r)) | E => 0 end.

Lemma balanced_size t : forall n, balanced n t -> (2 ^ n <= S (tree_size t))%nat.
Proof.
  induction t as [|p x red l IHl r IHr]; intros n; [intros ->%balanced_E; cbn; lia|].
  intros (m & Hl & Hr & -> & _)%balanced_N. specialize (IHl m Hl). specialize (IHr m Hr). cbn. destruct red; cbn; lia.
Qed.

Lemma balanced_depth t : forall n, balanced n t -> (tree_depth t <= 2 * n + if is_red t then 1 else 0)%nat.
Proof.
  induction t as [|p x red l IHl r IHr]; intros n; [cbn; lia|].
  intros (m & Hl & Hr & -> & Hred)%balanced_N. specialize (IHl m Hl). specialize (IHr m Hr). cbn. destruct red.
  - destruct (Hred eq_refl) as [El Er]. rewrite El in IHl. rewrite Er in IHr. lia.
  - destruct (is_red l), (is_red r); lia.
Qed.

(** A red-black tree is at most twice as deep as a full one. *)
Lemma red_black_depth t : red_black t -> (2 ^ tree_depth t <= S (tree_size t) * S (tree_size t))%nat.
Proof.
  intros (Hr & Hn & n & Hh). pose proof (balanced_size t n (conj Hn Hh)) as Hs.
  pose proof (balanced_depth t n (conj Hn Hh)) as Hd. rewrite Hr in Hd.
  transitivity (2 ^ (n + n))%nat; [apply Nat.pow_le_mono_r; lia|]. rewrite Nat.pow_add_r. by apply Nat.mul_le_mono.
Qed.
End RbTree.
