(* ===== verification/Tree.v ===== *)
(** * Tree: the trees of the MQTT client (Tree.c, Tree.h)

    Nodes with parent pointers in a heap, an index for each order of the contents.  A pointer is an
    optional location, and following one that is not allocated is a [Fault].  A content is a value; a
    comparison takes the content of a node and, as its third argument says, a content or a key. *)

From Stdlib Require Import ZArith Lia.
From stdpp Require Import base tactics numbers list gmap.
From S2P Require Import Prelude RbTree.

Notation ptr := (option nat) (only parsing).

Section State.
Context {A K : Type}.

Record Node : Type := MkNode {
  parent : ptr;
  lchild : ptr;
  rchild : ptr;
  content : option A;
  size : Z;
  red : bool
}.

Record Index : Type := MkIndex { root : ptr; compare : A -> A + K -> Z }.

(** [nodes] holds the nodes of all the indexes. *)
Record Tree : Type := MkTree {
  index : list Index;
  count : Z;
  t_size : Z;
  heap_tracking : bool;
  allow_duplicates : bool;
  nodes : gmap nat Node
}.

Definition set_index (l : list Index) (t : Tree) : Tree :=
  MkTree l (count t) (t_size t) (heap_tracking t) (allow_duplicates t) (nodes t).
Definition set_count (n sz : Z) (t : Tree) : Tree :=
  MkTree (index t) n sz (heap_tracking t) (allow_duplicates t) (nodes t).
Definition set_nodes (h : gmap nat Node) (t : Tree) : Tree :=
  MkTree (index t) (count t) (t_size t) (heap_tracking t) (allow_duplicates t) h.

(** ** Operations on the state *)

Definition TM (B : Type) : Type := Tree -> outcome (B * Tree).
Definition tret {B} (b : B) : TM B := fun t => Ret (b, t).
Definition tbind {B C} (m : TM B) (k : B -> TM C) : TM C := fun t => obind (m t) (fun r => k r.1 r.2).
Definition tget : TM Tree := fun t => Ret (t, t).
Definition tmod (f : Tree -> Tree) : TM unit := fun t => Ret (tt, f t).
Definition tlift {B} (o : outcome B) : TM B := fun t => obind o (fun b => Ret (b, t)).

End State.

Arguments Node : clear implicits.
Arguments Index : clear implicits.
Arguments Tree : clear implicits.
Arguments TM : clear implicits.

Declare Scope tree_scope.
Notation "'let+' x ':=' m 'in' k" := (tbind m (fun x => k))
  (at level 10, x pattern, m at level 100, k at level 200) : tree_scope.
Notation "m ;+ k" := (tbind m (fun _ => k)) (at level 60, right associativity) : tree_scope.
#[global] Open Scope tree_scope.

Section Tree.
Context {A K : Type}.
Notation Node := (Node A).
Notation Tree := (Tree A K).
Notation TM := (TM A K).

Definition child (d : bool) (n : Node) : ptr := pick d (lchild n) (rchild n).

Definition load (p : ptr) : TM Node := let+ t := tget in tlift (let! a := deref p in deref (nodes t !! a)).
Definition store (p : ptr) (f : Node -> Node) : TM unit :=
  let+ a := tlift (deref p) in
  let+ n := load p in
  tmod (fun t => set_nodes (<[a := f n]> (nodes t)) t).

Definition set_parent (p q : ptr) : TM unit :=
  store p (fun n => MkNode q (lchild n) (rchild n) (content n) (size n) (red n)).
Definition set_child (p : ptr) (d : bool) (q : ptr) : TM unit :=
  store p (fun n => MkNode (parent n) (pick d q (lchild n)) (pick d (rchild n) q) (content n) (size n) (red n)).
Definition set_red (p : ptr) (b : bool) : TM unit :=
  store p (fun n => MkNode (parent n) (lchild n) (rchild n) (content n) (size n) b).
Definition set_content (p : ptr) (c : option A) (sz : Z) : TM unit :=
  store p (fun n => MkNode (parent n) (lchild n) (rchild n) c sz (red n)).

Definition get_root (i : nat) : TM ptr := let+ t := tget in tlift (let! x := deref (index t !! i) in Ret (root x)).
Definition set_root (i : nat) (p : ptr) : TM unit :=
  let+ t := tget in
  let+ x := tlift (deref (index t !! i)) in
  tmod (set_index (<[i := MkIndex p (compare x)]> (index t))).

Definition malloc_node (n : Node) : TM ptr :=
  let+ t := tget in
  let a := fresh (dom (nodes t)) in
  tmod (set_nodes (<[a := n]> (nodes t))) ;+ tret (Some a).
Definition free_node (p : ptr) : TM unit :=
  let+ a := tlift (deref p) in
  let+ _ := load p in
  tmod (fun t => set_nodes (delete a (nodes t)) t).

(** The loops follow pointers: they run once per node at most. *)
Definition loop_fuel : TM nat := let+ t := tget in tret (S (base.size (nodes t))).

(** ** The trees *)

Definition TreeInitializeNoMalloc (cmp : A -> A + K -> Z) : Tree := MkTree [MkIndex None cmp] 0 0 true false ∅.
Definition TreeInitialize (cmp : A -> A + K -> Z) : Tree := TreeInitializeNoMalloc cmp.

(** There is room for two indexes. *)
Definition TreeAddIndex (cmp : A -> A + K -> Z) : TM unit :=
  let+ t := tget in
  if (length (index t) <? 2)%nat then tmod (set_index (index t ++ [MkIndex None cmp])) else tlift Fault.

Definition isRed (p : ptr) : TM bool :=
  match p with None => tret false | Some _ => let+ n := load p in tret (red n) end.
Definition isBlack (p : ptr) : TM bool :=
  match p with None => tret true | Some _ => let+ n := load p in tret (negb (red n)) end.

Fixpoint TreeWalk (fuel : nat) (curnode : ptr) (depth : Z) : TM Z :=
  match curnode with
  | None => tret depth
  | Some _ =>
      match fuel with
      | O => tlift Blocked
      | S fuel' =>
          let+ n := load curnode in
          let+ lft := TreeWalk fuel' (child LEFT n) (depth + 1) in
          let+ rgt := TreeWalk fuel' (child RIGHT n) (depth + 1) in
          tret (if rgt <? lft then lft else rgt)
      end
  end.

Definition TreeMaxDepth : TM Z :=
  let+ fuel := loop_fuel in
  let+ r := get_root 0 in
  TreeWalk fuel r 0.

Definition TreeRotate (curnode : ptr) (direction : bool) (i : nat) : TM unit :=
  let+ c := load curnode in
  let other := child (negb direction) c in
  let+ o := load other in
  set_child curnode (negb direction) (child direction o) ;+
  let+ o := load other in
  (match child direction o with
   | Some _ => set_parent (child direction o) curnode
   | None => tret tt
   end) ;+
  let+ c := load curnode in
  set_parent other (parent c) ;+
  (match parent c with
   | None => set_root i other
   | Some _ =>
       let+ q := load (parent c) in
       if bool_decide (curnode = child direction q) then set_child (parent c) direction other
       else set_child (parent c) (negb direction) other
   end) ;+
  set_child other direction curnode ;+
  set_parent curnode other.

(** [curnode->parent] and [curnode->parent->parent]. *)
Definition parent_of (p : ptr) : TM ptr := let+ n := load p in tret (parent n).
Definition grandparent_of (p : ptr) : TM ptr := let+ q := parent_of p in parent_of q.
Definition child_of (d : bool) (p : ptr) : TM ptr := let+ n := load p in tret (child d n).

Definition TreeBAASub (curnode : ptr) (which : bool) (i : nat) : TM ptr :=
  let+ g := grandparent_of curnode in
  let+ uncle := child_of which g in
  let+ uncle_red := isRed uncle in
  if uncle_red then
    set_red uncle false ;+
    let+ p := parent_of curnode in
    set_red p false ;+
    let+ g := grandparent_of curnode in
    set_red g true ;+
    tret g
  else
    let+ p := parent_of curnode in
    let+ inner := child_of which p in
    let+ curnode := (if bool_decide (curnode = inner) then TreeRotate p (negb which) i ;+ tret p else tret curnode) in
    let+ p := parent_of curnode in
    set_red p false ;+
    let+ g := grandparent_of curnode in
    set_red g true ;+
    let+ g := grandparent_of curnode in
    TreeRotate g which i ;+
    tret curnode.

(** The loop of [TreeBalanceAfterAdd]. *)
Fixpoint add_loop (fuel : nat) (curnode : ptr) (i : nat) : TM unit :=
  match curnode with
  | None => tret tt
  | Some _ =>
      let+ p := parent_of curnode in
      let+ r := isRed p in
      if r then
        let+ g := parent_of p in
        match g with
        | None => tret tt
        | Some _ =>
            match fuel with
            | O => tlift Blocked
            | S fuel' =>
                let+ l := child_of LEFT g in
                let+ curnode := (if bool_decide (p = l) then TreeBAASub curnode RIGHT i else TreeBAASub curnode LEFT i) in
                add_loop fuel' curnode i
            end
        end
      else tret tt
  end.

Definition TreeBalanceAfterAdd (curnode : ptr) (i : nat) : TM unit :=
  let+ fuel := loop_fuel in
  add_loop fuel curnode i ;+
  let+ r := get_root i in
  set_red r false.
(** The search of [TreeAddByIndex]: [curparent], [curnode], [left] and [result] when it ends. *)
Fixpoint descend (fuel : nat) (cmp : A -> A + K -> Z) (c : A) (curparent curnode : ptr) (lft : bool) (result : Z) :
    TM (ptr * ptr * bool * Z) :=
  match curnode with
  | None => tret (curparent, curnode, lft, result)
  | Some _ =>
      match fuel with
      | O => tlift Blocked
      | S fuel' =>
          let+ n := load curnode in
          let+ k := tlift (deref (content n)) in
          let result := cmp k (inl c) in
          let lft := 0 <? result in
          if result =? 0 then tret (curparent, curnode, lft, result)
          else descend fuel' cmp c curnode (child lft n) lft result
      end
  end.

Definition add_size (i : nat) (n sz : Z) : TM unit :=
  if bool_decide (i = 0%nat) then tmod (fun t => set_count (count t + n) (s32 (t_size t + sz)) t) else tret tt.

Definition TreeAddByIndex (c : A) (sz : Z) (i : nat) : TM (option A) :=
  let+ t := tget in
  let+ x := tlift (deref (index t !! i)) in
  let+ fuel := loop_fuel in
  let+ (curparent, curnode, lft, result) := descend fuel (compare x) c None (root x) false 1 in
  let+ (newel, rc) :=
    (if result =? 0 then
       if allow_duplicates t then tlift Exited
       else
         let+ n := load curnode in
         add_size i 0 (sz - size n) ;+
         tret (curnode, content n)
     else
       let+ newel := malloc_node (MkNode None None None None 0 false) in
       (match curparent with
        | Some _ => set_child curparent lft newel
        | None => set_root i newel
        end) ;+
       set_parent newel curparent ;+
       set_red newel true ;+
       add_size i 1 sz ;+
       tret (newel, None)) in
  set_content newel (Some c) sz ;+
  TreeBalanceAfterAdd newel i ;+
  tret rc.

(** The loop over the indexes [i] .. [i + n - 1]. *)
Fixpoint TreeAdd_loop (n i : nat) (c : A) (sz : Z) (rc : option A) : TM (option A) :=
  match n with
  | O => tret rc
  | S n' => let+ rc := TreeAddByIndex c sz i in TreeAdd_loop n' (S i) c sz rc
  end.

Definition TreeAdd (c : A) (sz : Z) : TM (option A) :=
  let+ t := tget in TreeAdd_loop (length (index t)) 0 c sz None.

(** A content ([inl]) is compared with [value] 1, a key ([inr]) with 0. *)
Fixpoint find_loop (fuel : nat) (cmp : A -> A + K -> Z) (key : A + K) (curnode : ptr) : TM ptr :=
  match curnode with
  | None => tret None
  | Some _ =>
      match fuel with
      | O => tlift Blocked
      | S fuel' =>
          let+ n := load curnode in
          let+ k := tlift (deref (content n)) in
          let result := cmp k key in
          if result =? 0 then tret curnode else find_loop fuel' cmp key (child (0 <? result) n)
      end
  end.

Definition TreeFindIndex1 (key : A + K) (i : nat) : TM ptr :=
  let+ t := tget in
  let+ x := tlift (deref (index t !! i)) in
  let+ fuel := loop_fuel in
  find_loop fuel (compare x) key (root x).

Definition TreeFindIndex (key : K) (i : nat) : TM ptr := TreeFindIndex1 (inr key) i.
Definition TreeFindContentIndex (c : A) (i : nat) : TM ptr := TreeFindIndex1 (inl c) i.
Definition TreeFind (key : K) : TM ptr := TreeFindIndex key 0.

Fixpoint minimum_loop (fuel : nat) (curnode : ptr) : TM ptr :=
  let+ l := child_of LEFT curnode in
  match l with
  | None => tret curnode
  | Some _ => match fuel with O => tlift Blocked | S fuel' => minimum_loop fuel' l end
  end.

Definition TreeMinimum (curnode : ptr) : TM ptr :=
  match curnode with
  | None => tret None
  | Some _ => let+ fuel := loop_fuel in minimum_loop fuel curnode
  end.

Fixpoint climb_loop (fuel : nat) (curnode curparent : ptr) : TM ptr :=
  match curparent with
  | None => tret None
  | Some _ =>
      let+ r := child_of RIGHT curparent in
      if bool_decide (curnode = r) then
        match fuel with
        | O => tlift Blocked
        | S fuel' => let+ q := parent_of curparent in climb_loop fuel' curparent q
        end
      else tret curparent
  end.

Definition TreeSuccessor (curnode : ptr) : TM ptr :=
  let+ r := child_of RIGHT curnode in
  match r with
  | Some _ => TreeMinimum r
  | None => let+ fuel := loop_fuel in let+ q := parent_of curnode in climb_loop fuel curnode q
  end.

Definition TreeNextElementIndex (curnode : ptr) (i : nat) : TM ptr :=
  match curnode with
  | None => let+ r := get_root i in TreeMinimum r
  | Some _ => TreeSuccessor curnode
  end.

Definition TreeNextElement (curnode : ptr) : TM ptr := TreeNextElementIndex curnode 0.

(** The loop of those who look at every element, as [HeapScan] does: the contents with their sizes. *)
Fixpoint TreeElements (fuel : nat) (current : ptr) (i : nat) : TM (list (A * Z)) :=
  let+ current := TreeNextElementIndex current i in
  match current with
  | None => tret []
  | Some _ =>
      match fuel with
      | O => tlift Blocked
      | S fuel' =>
          let+ n := load current in
          let+ c := tlift (deref (content n)) in
          let+ l := TreeElements fuel' current i in
          tret ((c, size n) :: l)
      end
  end.

(** ** Removal *)

(** The part of [TreeBARSub] after its first test. *)
Definition TreeBARSub_rest (curnode : ptr) (which : bool) (i : nat) (sibling : ptr) : TM ptr :=
  match sibling with
  | None => parent_of curnode
  | Some _ =>
      let+ near := child_of (negb which) sibling in
      let+ near_black := isBlack near in
      let+ far := child_of which sibling in
      let+ far_black := isBlack far in
      if near_black && far_black then
        set_red sibling true ;+
        parent_of curnode
      else
        let+ sibling :=
          (if far_black then
             let+ near := child_of (negb which) sibling in
             set_red near false ;+
             set_red sibling true ;+
             TreeRotate sibling which i ;+
             let+ p := parent_of curnode in
             child_of which p
           else tret sibling) in
        let+ p := parent_of curnode in
        let+ pn := load p in
        set_red sibling (red pn) ;+
        set_red p false ;+
        let+ far := child_of which sibling in
        set_red far false ;+
        let+ p := parent_of curnode in
        TreeRotate p (negb which) i ;+
        get_root i
  end.

Definition TreeBARSub (curnode : ptr) (which : bool) (i : nat) : TM ptr :=
  let+ p := parent_of curnode in
  let+ sibling := child_of which p in
  let+ sibling_red := isRed sibling in
  let+ sibling :=
    (if sibling_red then
       set_red sibling false ;+
       let+ p := parent_of curnode in
       set_red p true ;+
       TreeRotate p (negb which) i ;+
       let+ p := parent_of curnode in
       child_of which p
     else tret sibling) in
  TreeBARSub_rest curnode which i sibling.

(** The loop of [TreeBalanceAfterRemove]; a node without content stands for no node. *)
Fixpoint remove_loop (fuel : nat) (curnode : ptr) (i : nat) : TM unit :=
  let+ r := get_root i in
  let+ black := (if bool_decide (curnode = r) then tret false else isBlack curnode) in
  if black then
    match fuel with
    | O => tlift Blocked
    | S fuel' =>
        let+ n := load curnode in
        let+ l := child_of LEFT (parent n) in
        let here := match content n with Some _ => curnode | None => None end in
        let+ curnode := (if bool_decide (here = l) then TreeBARSub curnode RIGHT i else TreeBARSub curnode LEFT i) in
        remove_loop fuel' curnode i
    end
  else set_red curnode false.

Definition TreeBalanceAfterRemove (curnode : ptr) (i : nat) : TM unit :=
  let+ fuel := loop_fuel in remove_loop fuel curnode i.

(** [temp] is a node on the stack: it is there until the block ends. *)
Definition TreeRemoveNodeIndex (curnode : ptr) (i : nat) : TM (option A) :=
  let+ n := load curnode in
  let sz := size n in
  let c := content n in
  let+ redundant :=
    (match child LEFT n, child RIGHT n with
     | Some _, Some _ => TreeSuccessor curnode
     | _, _ => tret curnode
     end) in
  let+ d := load redundant in
  let curchild := child (match child LEFT d with Some _ => LEFT | None => RIGHT end) d in
  (match curchild with Some _ => set_parent curchild (parent d) | None => tret tt end) ;+
  let+ d := load redundant in
  (match parent d with
   | None => set_root i curchild
   | Some _ =>
       let+ q := load (parent d) in
       if bool_decide (redundant = child LEFT q) then set_child (parent d) LEFT curchild
       else set_child (parent d) RIGHT curchild
   end) ;+
  (if bool_decide (redundant = curnode) then tret tt
   else let+ d := load redundant in set_content curnode (content d) (size d)) ;+
  let+ black := isBlack redundant in
  (if black then
     match curchild with
     | None =>
         let+ d := load redundant in
         match parent d with
         | None => tret tt
         | Some _ =>
             let+ temp := malloc_node (MkNode (parent d) None None None 0 false) in
             TreeBalanceAfterRemove temp i ;+
             free_node temp
         end
     | Some _ => TreeBalanceAfterRemove curchild i
     end
   else tret tt) ;+
  free_node redundant ;+
  add_size i (-1) (- sz) ;+
  tret c.

Definition TreeRemoveIndex (c : A) (i : nat) : TM (option A) :=
  let+ curnode := TreeFindContentIndex c i in
  match curnode with
  | None => tret None
  | Some _ => TreeRemoveNodeIndex curnode i
  end.

Fixpoint TreeRemove_loop (n i : nat) (c : A) (rc : option A) : TM (option A) :=
  match n with
  | O => tret rc
  | S n' => let+ rc := TreeRemoveIndex c i in TreeRemove_loop n' (S i) c rc
  end.

Definition TreeRemove (c : A) : TM (option A) :=
  let+ t := tget in TreeRemove_loop (length (index t)) 0 c None.

(** The loop of [TreeRemoveKeyIndex] over the other indexes. *)
Fixpoint TreeRemoveKey_loop (n j i : nat) (c : option A) : TM (option A) :=
  match n with
  | O => tret c
  | S n' =>
      let+ c := (if bool_decide (j = i) then tret c
                 else let+ x := tlift (deref c) in TreeRemoveIndex x j) in
      TreeRemoveKey_loop n' (S j) i c
  end.

Definition TreeRemoveKeyIndex (key : K) (i : nat) : TM (option A) :=
  let+ curnode := TreeFindIndex key i in
  match curnode with
  | None => tret None
  | Some _ =>
      let+ c := TreeRemoveNodeIndex curnode i in
      let+ t := tget in
      TreeRemoveKey_loop (length (index t)) 0 i c
  end.

Definition TreeRemoveKey (key : K) : TM (option A) := TreeRemoveKeyIndex key 0.
End Tree.

(** ** Comparisons *)

(** Both are integers behind pointers. *)
Definition TreeIntCompare (a : Z) (b : Z + Z) : Z :=
  let j := match b with inl x | inr x => x end in
  if j <? a then -1 else if a =? j then 0 else 1.

(** Both are the pointers themselves. *)
Definition TreePtrCompare (a : Z) (b : Z + Z) : Z :=
  let j := match b with inl x | inr x => x end in
  if j <? a then -1 else if a =? j then 0 else 1.

(** [strcmp]: the sign is that of the difference of the first bytes that differ. *)
Fixpoint strcmp (a b : list Z) : Z :=
  match a, b with
  | [], [] => 0
  | [], _ :: _ => -1
  | _ :: _, [] => 1
  | x :: a', y :: b' => if x =? y then strcmp a' b' else if x <? y then -1 else 1
  end.

Definition TreeStringCompare (a : list Z) (b : list Z + list Z) : Z :=
  strcmp a (match b with inl x | inr x => x end).
