(* ===== verification/TreeMem.v ===== *)
(** * TreeMem: running the tree operations on nodes

    The nodes in memory as a list of cells, up to their order, and the rules by which an operation of
    Tree.c runs on them. *)

From Stdlib Require Import ZArith Lia.
From stdpp Require Import base tactics numbers list gmap.
From S2P Require Import Prelude RbTree Tree.

Section Mem.
Context {A K : Type}.
Notation Node := (Node A).
Notation Tree := (Tree A K).
Notation TM := (TM A K).
Notation cell := (nat * Node)%type.

(** The state with the nodes [cs], and all else as in [t]. *)
Definition holding (cs : list cell) (t : Tree) : Tree := set_nodes (list_to_map cs) t.

(** The operation runs on the nodes [cs] and returns; then [Q] holds. *)
Definition wp {B} (m : TM B) (cs : list cell) (t : Tree) (Q : B -> list cell -> Tree -> Prop) : Prop :=
  NoDup cs.*1 -> exists b cs' t', m (holding cs t) = Ret (b, holding cs' t') /\ NoDup cs'.*1 /\ Q b cs' t'.

(** [cs] has the cells [l], and the rest. *)
Class Pull (l cs rest : list cell) : Prop := pull : cs ≡ₚ l ++ rest.
#[global] Hint Mode Pull ! ! - : typeclass_instances.

#[global] Instance pull_here x cs : Pull [x] (x :: cs) cs | 0.
Proof. by unfold Pull. Qed.
#[global] Instance pull_all l : Pull l l [] | 1.
Proof. unfold Pull. by rewrite app_nil_r. Qed.
#[global] Instance pull_front l cs : Pull l (l ++ cs) cs | 1.
Proof. by unfold Pull. Qed.
#[global] Instance pull_cons l x cs rest : Pull l cs rest -> Pull l (x :: cs) (x :: rest) | 3.
Proof. unfold Pull. intros ->. by rewrite Permutation_middle. Qed.
#[global] Instance pull_left l cs1 cs2 rest : Pull l cs1 rest -> Pull l (cs1 ++ cs2) (rest ++ cs2) | 2.
Proof. unfold Pull. intros ->. by rewrite app_assoc. Qed.
#[global] Instance pull_right l cs1 cs2 rest : Pull l cs2 rest -> Pull l (cs1 ++ cs2) (cs1 ++ rest) | 4.
Proof. unfold Pull. intros ->. by rewrite !app_assoc, (Permutation_app_comm cs1 l). Qed.

(** The rules. *)
Section Rules.
Context {B : Type} (cs : list cell) (t : Tree).

Lemma holding_perm cs' : NoDup cs.*1 -> cs ≡ₚ cs' -> holding cs t = holding cs' t.
Proof. intros Hn Hp. unfold holding. by rewrite (list_to_map_proper cs cs'). Qed.

Lemma wp_ret (b : B) Q : Q b cs t -> wp (tret b) cs t Q.
Proof. intros H Hn. by exists b, cs, t. Qed.

Lemma wp_bind {C} (m : TM C) (k : C -> TM B) Q :
  wp m cs t (fun c cs' t' => wp (k c) cs' t' Q) -> wp (tbind m k) cs t Q.
Proof.
  intros H Hn. destruct (H Hn) as (c & cs1 & t1 & E & Hn1 & Hk). destruct (Hk Hn1) as (b & cs2 & t2 & E2 & H2).
  exists b, cs2, t2. split; [|done]. unfold tbind. by rewrite E.
Qed.

Lemma wp_mono (m : TM B) Q Q' : wp m cs t Q -> (forall b cs' t', Q b cs' t' -> Q' b cs' t') -> wp m cs t Q'.
Proof. intros H HQ Hn. destruct (H Hn) as (b & cs1 & t1 & E & Hn1 & Hk). exists b, cs1, t1. auto. Qed.

(** A state up to the order of its cells. *)
Lemma wp_perm (m : TM B) cs' Q : cs ≡ₚ cs' -> wp m cs' t Q -> wp m cs t Q.
Proof. intros Hp H Hn. rewrite (holding_perm cs' Hn Hp). apply H. by rewrite <- Hp. Qed.

(** The result, up to the order of its cells. *)
Lemma wp_up (m : TM B) Q : wp m cs t (fun b cs1 t1 => exists cs2, cs1 ≡ₚ cs2 /\ Q b cs2 t1) -> wp m cs t Q.
Proof.
  intros H Hn. destruct (H Hn) as (b & cs1 & t1 & E & Hn1 & cs2 & Hp & HQ). exists b, cs2, t1.
  split; [|split; [by rewrite <- Hp|done]]. rewrite E. unfold holding. by rewrite (list_to_map_proper cs1 cs2).
Qed.

(** The locations are distinct. *)
Lemma wp_distinct (m : TM B) Q : (NoDup cs.*1 -> wp m cs t Q) -> wp m cs t Q.
Proof. intros H Hn. by apply H. Qed.

Lemma wp_lift (b : B) o Q : o = Ret b -> Q b cs t -> wp (tlift o) cs t Q.
Proof. intros -> H. by apply wp_ret. Qed.

Lemma lookup_cell p n rest : NoDup cs.*1 -> Pull [(p, n)] cs rest -> nodes (holding cs t) !! p = Some n.
Proof.
  intros Hn Hp. cbn. apply elem_of_list_to_map; [done|]. rewrite (Hp : cs ≡ₚ _). apply list_elem_of_here.
Qed.
End Rules.

Lemma wp_get cs t Q : Q (holding cs t) cs t -> wp tget cs t Q.
Proof. intros H Hn. by exists (holding cs t), cs, t. Qed.

Lemma wp_load cs t p n rest Q : Pull [(p, n)] cs rest -> Q n cs t -> wp (load (Some p)) cs t Q.
Proof.
  intros Hp H Hn. exists n, cs, t. split; [|done]. unfold load, tbind, tget, tlift, obind, deref. cbn [fst snd].
  by rewrite (lookup_cell cs t p n rest Hn Hp).
Qed.

Lemma wp_store cs t p f n rest Q :
  Pull [(p, n)] cs rest -> Q tt ((p, f n) :: rest) t -> wp (store (Some p) f) cs t Q.
Proof.
  intros Hp H Hn. exists tt, ((p, f n) :: rest), t.
  assert (Hn' : NoDup ((p, f n) :: rest).*1) by (cbn; change (p :: rest.*1) with ([(p, n)] ++ rest).*1; by rewrite <- (Hp : cs ≡ₚ _)).
  split; [|done]. unfold store, tbind, tlift, deref. cbn [obind fst snd].
  unfold load, tbind, tget, tlift, obind, deref. cbn [fst snd].
  rewrite (lookup_cell cs t p n rest Hn Hp). cbn [fst snd]. unfold tmod.
  do 2 f_equal. rewrite (holding_perm cs t _ Hn Hp). unfold holding, set_nodes. cbn. by rewrite insert_insert_eq.
Qed.

Lemma wp_malloc cs t n Q : (forall a, a ∉ cs.*1 -> Q (Some a) ((a, n) :: cs) t) -> wp (malloc_node n) cs t Q.
Proof.
  intros H Hn. set (a := fresh (dom (nodes (holding cs t)))).
  assert (Ha : a ∉ cs.*1).
  { intros Ha. apply (is_fresh (dom (nodes (holding cs t)))). fold a. cbn. apply elem_of_dom.
    destruct (list_to_map (M:=gmap nat Node) cs !! a) eqn:E; [done|]. by apply not_elem_of_list_to_map in E. }
  exists (Some a), ((a, n) :: cs), t. split; [done|]. split; [cbn; by constructor|by apply H].
Qed.

Lemma wp_free cs t p n rest Q : Pull [(p, n)] cs rest -> Q tt rest t -> wp (free_node (Some p)) cs t Q.
Proof.
  intros Hp H Hn. exists tt, rest, t.
  assert (Hn' : NoDup (p :: rest.*1)) by (change (p :: rest.*1) with ([(p, n)] ++ rest).*1; by rewrite <- (Hp : cs ≡ₚ _)).
  apply NoDup_cons in Hn' as [Hnew Hn']. split; [|done]. unfold free_node, tbind, tlift, deref. cbn [obind fst snd].
  unfold load, tbind, tget, tlift, obind, deref. cbn [fst snd].
  rewrite (lookup_cell cs t p n rest Hn Hp). cbn [fst snd]. unfold tmod.
  do 2 f_equal. rewrite (holding_perm cs t _ Hn Hp). unfold holding, set_nodes. cbn.
  rewrite delete_insert_id; [done|]. by apply not_elem_of_list_to_map.
Qed.

Lemma wp_fuel cs t Q : Q (S (length cs)) cs t -> wp loop_fuel cs t Q.
Proof.
  intros H Hn. exists (S (length cs)), cs, t. split; [|done]. unfold loop_fuel, tbind, tget, tret. cbn.
  by rewrite map_size_list_to_map.
Qed.

Lemma wp_get_root cs t i x Q : index t !! i = Some x -> Q (root x) cs t -> wp (get_root i) cs t Q.
Proof. intros E H. apply wp_bind, wp_get. cbn. rewrite E. by apply wp_ret. Qed.

Definition root_at (i : nat) (p : ptr) (t : Tree) : Tree :=
  match index t !! i with Some x => set_index (<[i := MkIndex p (compare x)]> (index t)) t | None => t end.

Lemma wp_set_root cs t i x p Q : index t !! i = Some x -> Q tt cs (root_at i p t) -> wp (set_root i p) cs t Q.
Proof.
  intros E H. apply wp_bind, wp_get. cbn. apply wp_bind. rewrite E. apply wp_ret. intros Hn. exists tt, cs, (root_at i p t).
  unfold root_at in *. rewrite E in H |- *. by split.
Qed.

Lemma wp_set_count cs t n sz Q : Q tt cs (set_count n sz t) -> wp (tmod (set_count n sz)) cs t Q.
Proof. intros H Hn. by exists tt, cs, (set_count n sz t). Qed.
End Mem.

(** One rule; and rules as long as the cells are known. *)
Ltac run1 :=
  lazymatch goal with
  | |- wp (tbind _ _) _ _ _ => apply wp_bind
  | |- wp (tret _) _ _ _ => apply wp_ret
  | |- wp (load (Some _)) _ _ _ => eapply wp_load; [apply _|]
  | |- wp (store (Some _) _) _ _ _ => eapply wp_store; [apply _|]
  | |- wp (set_parent (Some _) _) _ _ _ => unfold set_parent
  | |- wp (set_child (Some _) _ _) _ _ _ => unfold set_child
  | |- wp (set_red (Some _) _) _ _ _ => unfold set_red
  | |- wp (set_content (Some _) _ _) _ _ _ => unfold set_content
  | |- wp (parent_of (Some _)) _ _ _ => unfold parent_of
  | |- wp (grandparent_of _) _ _ _ => unfold grandparent_of
  | |- wp (child_of _ (Some _)) _ _ _ => unfold child_of
  | |- wp (isRed (Some _)) _ _ _ => unfold isRed
  | |- wp (isBlack (Some _)) _ _ _ => unfold isBlack
  | |- wp loop_fuel _ _ _ => apply wp_fuel
  | |- wp (free_node (Some _)) _ _ _ => eapply wp_free; [apply _|]
  end; cbn.
Ltac run := repeat run1.
