(* ===== verification/TreeRep.v ===== *)
(** * TreeRep: the nodes of a tree

    The cells of a tree with a hole, and what the operations of Tree.c do to it: the rotations, the loops
    that restore the red-black discipline, the searches and the walk. *)

From Stdlib Require Import ZArith Lia Sorting.Sorted.
From stdpp Require Import base tactics numbers list gmap.
From S2P Require Import Prelude RbTree Tree TreeMem.

Section Rep.
Context {A K : Type}.
Notation Node := (Node A).
Notation Tree := (Tree A K).
Notation TM := (TM A K).
Notation cell := (nat * Node)%type.
Notation rb := (rb (X:=A * Z)).
Notation frame := (frame (X:=A * Z)).

(** ** Cells *)

Fixpoint cells (par : ptr) (t : rb) : list cell :=
  match t with
  | E => []
  | N p x r tl tr =>
      (p, MkNode par (root_ptr tl) (root_ptr tr) (Some x.1) x.2 r) :: cells (Some p) tl ++ cells (Some p) tr
  end.

(** The nodes of a path, with [hole] as the pointer to the subtree. *)
Fixpoint path_cells (ctx : list frame) (hole : ptr) : list cell :=
  match ctx with
  | [] => []
  | Frame d p x r s :: ctx' =>
      (p, MkNode (up_ptr ctx') (pick d hole (root_ptr s)) (pick d (root_ptr s) hole) (Some x.1) x.2 r)
        :: cells (Some p) s ++ path_cells ctx' (Some p)
  end.

Fixpoint top_ptr (ctx : list frame) (hole : ptr) : ptr :=
  match ctx with [] => hole | f :: ctx' => top_ptr ctx' (Some (f_ptr f)) end.

(** The tree with the subtree [t] at the end of [ctx], and other cells. *)
Definition all_cells (ctx : list frame) (t : rb) (fr : list cell) : list cell :=
  path_cells ctx (root_ptr t) ++ cells (up_ptr ctx) t ++ fr.

Definition rooted (i : nat) (ctx : list frame) (t : rb) (s : Tree) : Tree := root_at i (top_ptr ctx (root_ptr t)) s.

Lemma top_plug ctx : forall t, top_ptr ctx (root_ptr t) = root_ptr (plug ctx t).
Proof. induction ctx as [|[d p x r s] ctx IH]; intros t; [done|]. cbn [top_ptr plug f_ptr]. rewrite <- IH. by destruct d. Qed.

Lemma cells_plug ctx : forall t, path_cells ctx (root_ptr t) ++ cells (up_ptr ctx) t ≡ₚ cells None (plug ctx t).
Proof.
  induction ctx as [|[d p x r s] ctx IH]; intros t; [done|]. cbn [plug]. rewrite <- IH. unfold fill.
  cbn [f_side f_ptr f_item f_red f_other path_cells up_ptr]. destruct d; cbn [nd cells root_ptr pick].
  - rewrite Permutation_app_comm. simpl. rewrite <- Permutation_middle. solve_Permutation.
  - rewrite Permutation_app_comm. simpl. rewrite <- Permutation_middle. solve_Permutation.
Qed.

(** ** The pointer to a subtree *)

(** A pointer that leads to the hole is at its place in the tree. *)
Lemma up_in ctx hole p : up_ptr ctx = Some p -> p ∈ (path_cells ctx hole).*1.
Proof. destruct ctx as [|[d q x r s] ctx]; [done|]. cbn. intros [= ->]. apply list_elem_of_here. Qed.

Lemma root_in par t p : root_ptr t = Some p -> p ∈ (cells par t).*1.
Proof. destruct t; [done|]. cbn. intros [= ->]. apply list_elem_of_here. Qed.

Lemma pull_in p (n : Node) cs rest : Pull [(p, n)] cs rest -> p ∈ cs.*1.
Proof. intros Hp. rewrite (Hp : cs ≡ₚ _). apply list_elem_of_here. Qed.

(** The root of a subtree gets another parent. *)
Lemma wp_reparent t par par' cs rest s Q :
  Pull (cells par t) cs rest -> Q tt (cells par' t ++ rest) s ->
  wp (match root_ptr t with Some _ => set_parent (root_ptr t) par' | None => tret tt end : TM unit) cs s Q.
Proof.
  intros Hp HQ. destruct t as [|p x r l k]; cbn [root_ptr].
  - apply (wp_perm _ _ _ rest); [by rewrite (Hp : cs ≡ₚ _)|]. by apply wp_ret.
  - apply (wp_perm _ _ _ (cells par (N p x r l k) ++ rest)); [done|]. cbn [cells app]. unfold set_parent.
    eapply wp_store; [apply _|]. done.
Qed.

Lemma root_at_id i x (s : Tree) : index s !! i = Some x -> root_at i (root x) s = s.
Proof.
  intros E. unfold root_at. rewrite E. destruct s, x; cbn in *. unfold set_index. cbn. by rewrite list_insert_id.
Qed.

Lemma root_at_twice i p q (s : Tree) : root_at i p (root_at i q s) = root_at i p s.
Proof.
  unfold root_at. destruct (index s !! i) as [x|] eqn:E; [|by rewrite E]. cbn.
  rewrite list_lookup_insert_eq by by eapply lookup_lt_Some. cbn. unfold set_index. cbn. by rewrite list_insert_insert_eq.
Qed.

Lemma index_root_at i p x (s : Tree) : index s !! i = Some x -> index (root_at i p s) !! i = Some (MkIndex p (compare x)).
Proof. intros E. unfold root_at. rewrite E. cbn. rewrite list_lookup_insert_eq; [done|by eapply lookup_lt_Some]. Qed.

(** The colour of a subtree is that of its root. *)
Lemma wp_isRed par t cs rest (s : Tree) Q : Pull (cells par t) cs rest -> Q (is_red t) cs s -> wp (isRed (root_ptr t)) cs s Q.
Proof.
  intros Hp HQ. destruct t as [|p x r l k]; cbn [root_ptr is_red isRed] in *; [by apply wp_ret|].
  apply wp_bind. eapply (wp_load _ _ _ _ ((cells (Some p) l ++ cells (Some p) k) ++ rest)); [exact Hp|]. by apply wp_ret.
Qed.

Lemma wp_isBlack par t cs rest (s : Tree) Q : Pull (cells par t) cs rest -> Q (negb (is_red t)) cs s -> wp (isBlack (root_ptr t)) cs s Q.
Proof.
  intros Hp HQ. destruct t as [|p x r l k]; cbn [root_ptr is_red isBlack] in *; [by apply wp_ret|].
  apply wp_bind. eapply (wp_load _ _ _ _ ((cells (Some p) l ++ cells (Some p) k) ++ rest)); [exact Hp|]. by apply wp_ret.
Qed.

(** ** Rotation *)

Section Index.
Variables (i : nat) (ix : Index A K) (s0 : Tree).
Hypothesis Hix : index s0 !! i = Some ix.

(** The pointer to the subtree in the hole is changed from [p] to [q], on side [d] or on the other. *)
Lemma wp_relink d ctx p q n cs rest rest' Q :
  Pull (path_cells ctx (Some p)) cs rest -> Pull [(p, n)] rest rest' ->
  Q tt (path_cells ctx q ++ rest) (root_at i (top_ptr ctx q) s0) ->
  wp (match up_ptr ctx with
      | None => set_root i q
      | Some _ =>
          let+ n := load (up_ptr ctx) in
          if bool_decide (Some p = child d n) then set_child (up_ptr ctx) d q else set_child (up_ptr ctx) (negb d) q
      end) cs (root_at i (top_ptr ctx (Some p)) s0) Q.
Proof.
  intros Hp Hin HQ. apply pull_in in Hin. apply (wp_perm _ _ _ (path_cells ctx (Some p) ++ rest)); [done|]. apply wp_distinct. intros Hn.
  destruct ctx as [|[e u x r s] ctx]; cbn [up_ptr f_ptr top_ptr path_cells app] in *.
  - eapply wp_set_root; [by eapply index_root_at|]. by rewrite root_at_twice.
  - run1. run1. assert (Hsib : root_ptr s <> Some p).
    { intros E. apply (root_in (Some u)) in E. rewrite fmap_cons, !fmap_app in Hn. apply NoDup_cons in Hn as [_ Hn].
      rewrite <- app_assoc in Hn. apply NoDup_app in Hn as (_ & Hn & _). apply (Hn p E), elem_of_app. by right. }
    destruct d, e; cbn [pick child negb lchild rchild] in *.
    all: first [rewrite bool_decide_eq_true_2 by done|rewrite bool_decide_eq_false_2 by congruence]; by run.
Qed.

Lemma wp_rotate d p xp rp q xq rq a b c ctx fr Q :
  Q tt (all_cells ctx (nd d q xq rq c (nd d p xp rp b a)) fr) (rooted i ctx (nd d q xq rq c (nd d p xp rp b a)) s0) ->
  wp (TreeRotate (Some p) d i) (all_cells ctx (nd d p xp rp (nd d q xq rq c b) a) fr)
    (rooted i ctx (nd d p xp rp (nd d q xq rq c b) a) s0) Q.
Proof.
  intros HQ. apply wp_up. unfold TreeRotate, all_cells, rooted in *. destruct d; cbn in *.
  - run. eapply wp_reparent; [apply _|]. run. eapply (wp_relink true); [apply _..|]. run.
    eexists. split; [|exact HQ]. solve_Permutation.
  - run. eapply wp_reparent; [apply _|]. run. eapply (wp_relink false); [apply _..|]. run.
    eexists. split; [|exact HQ]. solve_Permutation.
Qed.

(** A rotation in the tree the cells form. *)
Ltac rotate d p x r q xq rq a b c ctx fr :=
  eapply wp_perm; [|refine (wp_rotate d p x r q xq rq a b c ctx fr _ _)]; [unfold all_cells; cbn; rewrite ?root_ptr_paint; solve_Permutation|].

(** ** After an insertion *)

Lemma nd_flip d p x r a b : nd (negb d) p x r a b = nd d p x r b a :> rb.
Proof. by destruct d. Qed.

(** The uncle is red: it and the parent become black, the grandparent red. *)
Lemma wp_BAASub_red d p x s d2 g y ry u ctx t fr Q :
  t <> E -> is_red u = true ->
  Q (Some g) (all_cells ctx (nd d2 g y true (paint false u) (nd d p x false s t)) fr)
    (rooted i ctx (nd d2 g y true (paint false u) (nd d p x false s t)) s0) ->
  wp (TreeBAASub (root_ptr t) (negb d2) i) (all_cells (Frame d p x true s :: Frame d2 g y ry u :: ctx) t fr)
    (rooted i (Frame d p x true s :: Frame d2 g y ry u :: ctx) t s0) Q.
Proof.
  intros Ht Hu HQ. destruct t as [|c z rz l k]; [done|]. destruct u as [|v xv rv vl vk]; [done|]. cbn in Hu. subst rv.
  apply wp_up. unfold TreeBAASub, all_cells, rooted in *. cbn [root_ptr] in *.
  destruct d, d2; cbn in *; run; (eexists; split; [|exact HQ]; solve_Permutation).
Qed.

(** The uncle is black and the node is on the outer side: one rotation. *)
Lemma wp_BAASub_outer p x s d g y ry u ctx t fr Q :
  t <> E -> root_ptr t <> root_ptr s -> is_red u = false ->
  Q (root_ptr t) (all_cells (Frame d p x false (nd (negb d) g y true s u) :: ctx) t fr)
    (rooted i (Frame d p x false (nd (negb d) g y true s u) :: ctx) t s0) ->
  wp (TreeBAASub (root_ptr t) (negb d) i) (all_cells (Frame d p x true s :: Frame d g y ry u :: ctx) t fr)
    (rooted i (Frame d p x true s :: Frame d g y ry u :: ctx) t s0) Q.
Proof.
  intros Ht Hne Hu HQ. destruct t as [|c z rz l k]; [done|]. apply wp_up. unfold TreeBAASub, all_cells, rooted in *.
  cbn [root_ptr] in *. destruct d; cbn in *; run.
  - eapply wp_isRed; [apply _|]. rewrite Hu. run. rewrite bool_decide_eq_false_2 by done. run.
    rotate false g y true p x false u s (N c z rz l k) ctx fr. run. eexists. split; [|exact HQ].
    unfold all_cells. cbn. solve_Permutation.
  - eapply wp_isRed; [apply _|]. rewrite Hu. run. rewrite bool_decide_eq_false_2 by done. run.
    rotate true g y true p x false u s (N c z rz l k) ctx fr. run. eexists. split; [|exact HQ].
    unfold all_cells. cbn. solve_Permutation.
Qed.

(** The uncle is black and the node is on the inner side: two rotations. *)
Lemma wp_BAASub_inner p x s d g y ry u c z rz l k ctx fr Q :
  is_red u = false ->
  Q (Some p) (all_cells (Frame d c z false (nd (negb d) g y true (pick (negb d) l k) u) :: ctx) (nd d p x true (pick d l k) s) fr)
    (rooted i (Frame d c z false (nd (negb d) g y true (pick (negb d) l k) u) :: ctx) (nd d p x true (pick d l k) s) s0) ->
  wp (TreeBAASub (Some c) (negb d) i) (all_cells (Frame (negb d) p x true s :: Frame d g y ry u :: ctx) (N c z rz l k) fr)
    (rooted i (Frame (negb d) p x true s :: Frame d g y ry u :: ctx) (N c z rz l k) s0) Q.
Proof.
  intros Hu HQ. apply wp_up. unfold TreeBAASub, all_cells, rooted in *.
  destruct d; cbn in *; run.
  - eapply wp_isRed; [apply _|]. rewrite Hu. run. rewrite bool_decide_eq_true_2 by done. run.
    rotate true p x true c z rz s k l (Frame true g y ry u :: ctx) fr. run.
    rotate false g y true c z false u l (N p x true k s) ctx fr. run. eexists. split; [|exact HQ].
    unfold all_cells. cbn. solve_Permutation.
  - eapply wp_isRed; [apply _|]. rewrite Hu. run. rewrite bool_decide_eq_true_2 by done. run.
    rotate false p x true c z rz s l k (Frame false g y ry u :: ctx) fr. run.
    rotate true g y true c z false u k (N p x true s l) ctx fr. run. eexists. split; [|exact HQ].
    unfold all_cells. cbn. solve_Permutation.
Qed.

(** The cells of the whole tree, without a hole. *)
Lemma all_cells_plug ctx t fr : all_cells ctx t fr ≡ₚ all_cells [] (plug ctx t) fr.
Proof. unfold all_cells. cbn. by rewrite app_assoc, cells_plug. Qed.

Lemma rooted_plug ctx t : rooted i ctx t s0 = rooted i [] (plug ctx t) s0.
Proof. unfold rooted. by rewrite top_plug. Qed.

Lemma wp_plug {B} (m : TM B) ctx t ctx' t' fr Q :
  plug ctx t = plug ctx' t' -> wp m (all_cells ctx' t' fr) (rooted i ctx' t' s0) Q -> wp m (all_cells ctx t fr) (rooted i ctx t s0) Q.
Proof.
  intros E H. rewrite rooted_plug, E, <- rooted_plug. eapply wp_perm; [|exact H]. by rewrite all_cells_plug, E, <- all_cells_plug.
Qed.

Lemma done_plug {B} ctx t t' fr (b : B) (Q : B -> list cell -> Tree -> Prop) :
  plug ctx t = t' -> Q b (all_cells [] t' fr) (rooted i [] t' s0) ->
  exists cs2, all_cells ctx t fr ≡ₚ cs2 /\ Q b cs2 (rooted i ctx t s0).
Proof. intros <- HQ. eexists. split; [apply all_cells_plug|]. by rewrite rooted_plug. Qed.

Lemma same_plug {B} ctx t ctx' t' fr (b : B) (Q : B -> list cell -> Tree -> Prop) :
  plug ctx t = plug ctx' t' -> Q b (all_cells ctx' t' fr) (rooted i ctx' t' s0) ->
  exists cs2, all_cells ctx t fr ≡ₚ cs2 /\ Q b cs2 (rooted i ctx t s0).
Proof.
  intros E HQ. exists (all_cells ctx' t' fr). split; [by rewrite all_cells_plug, E, <- all_cells_plug|].
  by rewrite rooted_plug, E, <- rooted_plug.
Qed.

(** The locations of a node on the path, of its other subtree and of the hole are distinct. *)
Lemma path_distinct {B} (m : TM B) d p x r s ctx t fr st Q :
  (Some p <> root_ptr s -> Some p <> root_ptr t -> (root_ptr t = None \/ root_ptr t <> root_ptr s) ->
    wp m (all_cells (Frame d p x r s :: ctx) t fr) st Q) ->
  wp m (all_cells (Frame d p x r s :: ctx) t fr) st Q.
Proof.
  intros H. apply wp_distinct. unfold all_cells in *. cbn [path_cells app up_ptr f_ptr] in *. rewrite fmap_cons, !fmap_app.
  intros (Hp & Hn)%NoDup_cons. rewrite <- app_assoc in Hn, Hp. apply NoDup_app in Hn as (_ & Hn & _).
  assert (Hs : forall a, root_ptr s = Some a -> a ∈ (cells (Some p) s).*1) by (intros; by apply root_in).
  assert (Ht : forall a, root_ptr t = Some a -> a ∈ (cells (Some p) t).*1) by (intros; by apply root_in).
  cbn in Hp. apply H.
  - intros E. apply Hp, elem_of_app. left. by apply Hs.
  - intros E. apply Hp. rewrite !elem_of_app. right. right. left. by apply Ht.
  - destruct (root_ptr t) as [a|] eqn:Et; [right|by left]. intros E. apply (Hn a); [by apply Hs|].
    rewrite !elem_of_app. right. left. by apply Ht.
Qed.

(** The loop ends below a black node. *)
Lemma wp_add_exit fuel d p x s ctx t fr Q :
  Q tt (all_cells (Frame d p x false s :: ctx) t fr) (rooted i (Frame d p x false s :: ctx) t s0) -> t <> E ->
  wp (add_loop fuel (root_ptr t) i) (all_cells (Frame d p x false s :: ctx) t fr) (rooted i (Frame d p x false s :: ctx) t s0) Q.
Proof.
  intros HQ Ht. destruct t as [|c z rz l k]; [done|]. unfold all_cells in *. destruct fuel; cbn in *; run; exact HQ.
Qed.

(** The loop does what [fix_add] does. *)
Lemma wp_add_loop fuel : forall ctx t fr Q,
  t <> E -> (length ctx <= 2 * fuel + 1)%nat ->
  Q tt (all_cells [] (fix_add ctx t) fr) (rooted i [] (fix_add ctx t) s0) ->
  wp (add_loop fuel (root_ptr t) i) (all_cells ctx t fr) (rooted i ctx t s0) Q.
Proof.
  induction fuel as [|fuel IH]; intros ctx t fr Q Ht Hf HQ; (destruct t as [|c z rz l k]; [done|]); apply wp_up.
  - destruct ctx as [|[d p x rd s] [|f2 ctx]]; [| |cbn in Hf; lia].
    + cbn [add_loop root_ptr]. unfold all_cells at 1. cbn. run. by refine (done_plug [] (N c z rz l k) _ fr tt Q _ HQ).
    + cbn [add_loop root_ptr]. unfold all_cells at 1. destruct rd; cbn; run.
      * by refine (done_plug [Frame d p x true s] (N c z rz l k) _ fr tt Q _ HQ).
      * by refine (done_plug [Frame d p x false s] (N c z rz l k) _ fr tt Q _ HQ).
  - set (t := N c z rz l k) in *. change (root_ptr t) with (Some c). cbn [add_loop].
    destruct ctx as [|[d p x [|] s] ctx]; [|destruct ctx as [|[d2 g y ry u] ctx]|].
    + unfold all_cells at 1. cbn. run. by refine (done_plug [] t _ fr tt Q _ HQ).
    + unfold all_cells at 1. cbn. run. by refine (done_plug [Frame d p x true s] t _ fr tt Q _ HQ).
    + apply (wp_plug _ _ _ (Frame d2 g y ry u :: ctx) (fill (Frame d p x true s) t)); [done|].
      apply path_distinct. intros _ _ Hpu. change (root_ptr (fill _ _)) with (root_ptr (nd d p x true s t)) in Hpu.
      assert (Hside : Some p <> root_ptr u) by (by destruct d, Hpu).
      apply (wp_plug _ _ _ (Frame d p x true s :: Frame d2 g y ry u :: ctx) t); [done|].
      apply path_distinct. intros Hps Hpt Hne.
      assert (Hout : root_ptr t <> root_ptr s) by (by destruct Hne). unfold all_cells at 1. cbn. run.
      assert (Ew : (if bool_decide (Some p = pick d2 (Some p) (root_ptr u)) then TreeBAASub (A:=A) (K:=K) (Some c) true i
        else TreeBAASub (Some c) false i) = TreeBAASub (Some c) (negb d2) i).
      { destruct d2; cbn; [by rewrite bool_decide_eq_false_2|by rewrite bool_decide_eq_true_2]. }
      rewrite Ew. clear Ew. set (F1 := Frame d p x true s). set (F2 := Frame d2 g y ry u).
      match goal with |- wp ?m _ ?st ?Q => change (wp m (all_cells (F1 :: F2 :: ctx) t fr) st Q) end.
      cbn [fix_add] in HQ. destruct (is_red u) eqn:Eu; [|case_bool_decide as Hd].
      * apply wp_BAASub_red; [done..|].
        replace (Some g) with (root_ptr (nd d2 g y true (paint false u) (nd d p x false s t))) by (by destruct d2).
        apply IH; [by destruct d2|cbn in Hf; lia|]. by eexists.
      * subst d2. apply wp_BAASub_outer; [done..|]. change (root_ptr t) with (Some c).
        rewrite nd_flip in HQ. set (F := Frame d p x false _).
        apply wp_add_exit; [|done]. by refine (done_plug (F :: ctx) t _ fr tt Q _ HQ).
      * assert (d = negb d2) as -> by (by destruct d, d2).
        apply wp_BAASub_inner; [done|]. set (F := Frame d2 c z false _).
        replace (Some p) with (root_ptr (nd d2 p x true (pick d2 l k) s)) by (by destruct d2).
        apply wp_add_exit; [|by destruct d2]. refine (done_plug (F :: ctx) _ _ fr tt Q _ HQ). by destruct d2.
    + unfold all_cells at 1. cbn. run. by refine (done_plug (Frame d p x false s :: ctx) t _ fr tt Q _ HQ).
Qed.

Lemma wp_get_rooted ctx t cs Q :
  Q (top_ptr ctx (root_ptr t)) cs (rooted i ctx t s0) -> wp (get_root i) cs (rooted i ctx t s0) Q.
Proof. intros HQ. eapply wp_get_root; [by eapply index_root_at|done]. Qed.

Lemma wp_paint b ctx t fr Q :
  t <> E -> Q tt (all_cells ctx (paint b t) fr) (rooted i ctx (paint b t) s0) ->
  wp (set_red (root_ptr t) b) (all_cells ctx t fr) (rooted i ctx t s0) Q.
Proof.
  intros Ht HQ. destruct t as [|p x r l k]; [done|]. apply wp_up. unfold all_cells, rooted in *. cbn in *. run.
  eexists. split; [|exact HQ]. solve_Permutation.
Qed.

Lemma path_length ctx : forall hole, (length ctx <= length (path_cells ctx hole))%nat.
Proof.
  induction ctx as [|[d p x r s] ctx IH]; intros hole; cbn; [lia|]. specialize (IH (Some p)). rewrite length_app. lia.
Qed.

Lemma all_cells_length ctx t fr : (length ctx <= length (all_cells ctx t fr))%nat.
Proof. unfold all_cells. rewrite length_app. pose proof (path_length ctx (root_ptr t)). lia. Qed.

Lemma nodes_nonempty (t : rb) : nodes_of t <> [] -> t <> E.
Proof. by intros H ->. Qed.

Lemma plug_nonempty ctx (t : rb) : t <> E -> nodes_of (plug ctx t) <> [].
Proof. intros Ht. rewrite nodes_plug. destruct t as [|p x r l k]; [done|]. cbn. intros [_ H]%app_eq_nil. by destruct (nodes_of l). Qed.

(** [TreeBalanceAfterAdd] *)
Lemma wp_balance_add ctx t fr Q :
  t <> E ->
  Q tt (all_cells [] (paint false (fix_add ctx t)) fr) (rooted i [] (paint false (fix_add ctx t)) s0) ->
  wp (TreeBalanceAfterAdd (root_ptr t) i) (all_cells ctx t fr) (rooted i ctx t s0) Q.
Proof.
  intros Ht HQ. unfold TreeBalanceAfterAdd. apply wp_bind, wp_fuel, wp_bind. apply wp_add_loop; [done| |].
  { pose proof (all_cells_length ctx t fr). lia. }
  apply wp_bind, wp_get_rooted, wp_paint; [|done]. apply nodes_nonempty. rewrite nodes_fix_add. by apply plug_nonempty.
Qed.

(** ** After a removal *)

(** The state before the loss is made up for: with the subtree [t] in the hole, or with a node [temp] that
    stands for the empty one. *)
Definition temp_cell (ctx : list frame) (t : rb) (temp : nat) : list cell :=
  match t with E => [(temp, MkNode (up_ptr ctx) None None None 0 false)] | _ => [] end.
Definition cur_ptr (t : rb) (temp : nat) : ptr := match t with E => Some temp | N p _ _ _ _ => Some p end.


Lemma wp_parent_cur t temp F ctx cs rest rest' (s : Tree) Q :
  Pull (cells (Some (f_ptr F)) t) cs rest -> Pull (temp_cell (F :: ctx) t temp) rest rest' ->
  Q (Some (f_ptr F)) cs s -> wp (parent_of (cur_ptr t temp)) cs s Q.
Proof.
  intros H1 H2 HQ. assert (exists n r, Pull [(default 0%nat (cur_ptr t temp), n)] cs r /\ parent n = Some (f_ptr F) /\
    cur_ptr t temp = Some (default 0%nat (cur_ptr t temp))) as (n & r & Hp & Ep & ->).
  { destruct t as [|c z rc l k]; cbn in *.
    - eexists _, _. split; [unfold Pull in *; rewrite H1; exact H2|done].
    - eexists _, _. split; [exact H1|done]. }
  unfold parent_of. run. rewrite Ep. run. done.
Qed.

(** The root of a subtree gets a colour. *)
Lemma wp_paint_sub par b t cs rest (s : Tree) Q :
  Pull (cells par t) cs rest -> t <> E -> Q tt (cells par (paint b t) ++ rest) s -> wp (set_red (root_ptr t) b) cs s Q.
Proof.
  intros Hp Ht HQ. destruct t as [|p x r l k]; [done|]. apply (wp_perm _ _ _ (cells par (N p x r l k) ++ rest)); [done|].
  cbn [cells app root_ptr]. unfold set_red. eapply wp_store; [apply _|]. done.
Qed.

Lemma red_nonempty (t : rb) : is_red t = true -> t <> E.
Proof. by destruct t. Qed.

Lemma wp_BARSub_rest d p x rp s ctx t temp fr Q :
  match borrow d p x rp s t with
  | inl u => Q (Some p) (all_cells ctx u (temp_cell (Frame d p x rp s :: ctx) t temp ++ fr)) (rooted i ctx u s0)
  | inr v => Q (root_ptr (plug ctx v)) (all_cells ctx v (temp_cell (Frame d p x rp s :: ctx) t temp ++ fr)) (rooted i ctx v s0)
  end ->
  wp (TreeBARSub_rest (cur_ptr t temp) (negb d) i (root_ptr s))
    (all_cells (Frame d p x rp s :: ctx) t (temp_cell (Frame d p x rp s :: ctx) t temp ++ fr))
    (rooted i (Frame d p x rp s :: ctx) t s0) Q.
Proof.
  intros HQ. apply wp_up. set (tc := temp_cell _ t temp) in *. destruct s as [|q y rs l r].
  - cbn [borrow] in HQ. unfold TreeBARSub_rest, all_cells, rooted in *. cbn.
    eapply (wp_parent_cur t temp (Frame d p x rp E) ctx); [apply _..|]. eexists. split; [|destruct d; exact HQ].
    destruct d; cbn; solve_Permutation.
  - cbn [borrow] in HQ. unfold TreeBARSub_rest. cbn [root_ptr].
    destruct (is_red (pick (negb d) l r)) eqn:Ec; [|destruct (is_red (pick d l r)) eqn:Eb]; cbn [negb andb] in HQ.
    + unfold all_cells, rooted in *. destruct d; cbn in *.
      * run. eapply wp_isBlack; [apply _|]. run. eapply wp_isBlack; [apply _|]. rewrite Ec, andb_false_r. run.
        eapply (wp_parent_cur t temp (Frame true p x rp E) ctx); [apply _..|]. run.
        eapply (wp_paint_sub (Some q)); [apply _|by apply red_nonempty|]. run.
        eapply (wp_parent_cur t temp (Frame true p x rp E) ctx); [apply _..|]. run.
        rotate true p x false q y rp t r (paint false l) ctx (tc ++ fr). apply wp_get_rooted.
        eexists. split; [|rewrite top_plug; exact HQ]. done.
      * run. eapply wp_isBlack; [apply _|]. run. eapply wp_isBlack; [apply _|]. rewrite Ec, andb_false_r. run.
        eapply (wp_parent_cur t temp (Frame false p x rp E) ctx); [apply _..|]. run.
        eapply (wp_paint_sub (Some q)); [apply _|by apply red_nonempty|]. run.
        eapply (wp_parent_cur t temp (Frame false p x rp E) ctx); [apply _..|]. run.
        rotate false p x false q y rp t l (paint false r) ctx (tc ++ fr). apply wp_get_rooted.
        eexists. split; [|rewrite top_plug; exact HQ]. done.
    + destruct (pick d l r) as [|bq z rb bl br] eqn:Er; [done|]. unfold all_cells, rooted in *. destruct d; cbn in *; subst.
      * run. eapply wp_isBlack; [apply _|]. rewrite Ec. run.
        rotate false q y true bq z false l bl br (Frame false p x rp t :: ctx) (tc ++ fr). unfold all_cells, rooted. cbn. run.
        eapply (wp_parent_cur t temp (Frame true p x rp E) ctx); [apply _..|]. run.
        eapply (wp_parent_cur t temp (Frame true p x rp E) ctx); [apply _..|]. run.
        eapply (wp_parent_cur t temp (Frame true p x rp E) ctx); [apply _..|]. run.
        rotate true p x false bq z rp t br (N q y false l bl) ctx (tc ++ fr). apply wp_get_rooted.
        eexists. split; [|rewrite top_plug; exact HQ]. done.
      * run. eapply wp_isBlack; [apply _|]. rewrite Ec. cbn. run.
        rotate true q y true bq z false r br bl (Frame true p x rp t :: ctx) (tc ++ fr). unfold all_cells, rooted. cbn. run.
        eapply (wp_parent_cur t temp (Frame false p x rp E) ctx); [apply _..|]. run.
        eapply (wp_parent_cur t temp (Frame false p x rp E) ctx); [apply _..|]. run.
        eapply (wp_parent_cur t temp (Frame false p x rp E) ctx); [apply _..|]. run.
        rotate false p x false bq z rp t bl (N q y false br r) ctx (tc ++ fr). apply wp_get_rooted.
        eexists. split; [|rewrite top_plug; exact HQ]. done.
    + unfold all_cells, rooted in *. destruct d; cbn in *; run.
      * eapply wp_isBlack; [apply _|]. run. eapply wp_isBlack; [apply _|]. rewrite Ec, Eb. cbn. run.
        eapply (wp_parent_cur t temp (Frame true p x rp E) ctx); [apply _..|].
        eexists. split; [|exact HQ]. solve_Permutation.
      * eapply wp_isBlack; [apply _|]. run. eapply wp_isBlack; [apply _|]. rewrite Ec, Eb. cbn. run.
        eapply (wp_parent_cur t temp (Frame false p x rp E) ctx); [apply _..|].
        eexists. split; [|exact HQ]. solve_Permutation.
Qed.

Lemma wp_BARSub_black d p x rp s ctx t temp fr Q :
  is_red s = false ->
  match borrow d p x rp s t with
  | inl u => Q (Some p) (all_cells ctx u (temp_cell (Frame d p x rp s :: ctx) t temp ++ fr)) (rooted i ctx u s0)
  | inr v => Q (root_ptr (plug ctx v)) (all_cells ctx v (temp_cell (Frame d p x rp s :: ctx) t temp ++ fr)) (rooted i ctx v s0)
  end ->
  wp (TreeBARSub (cur_ptr t temp) (negb d) i)
    (all_cells (Frame d p x rp s :: ctx) t (temp_cell (Frame d p x rp s :: ctx) t temp ++ fr))
    (rooted i (Frame d p x rp s :: ctx) t s0) Q.
Proof.
  intros Hs HQ. apply wp_BARSub_rest in HQ. unfold TreeBARSub. set (tc := temp_cell _ t temp) in *.
  unfold all_cells, rooted in *. apply wp_bind. eapply (wp_parent_cur t temp (Frame d p x rp E) ctx); [apply _..|]. cbn.
  destruct d; cbn in *; run; (eapply wp_isRed; [apply _|]); rewrite Hs; run; exact HQ.
Qed.

Lemma wp_BARSub_red d p x rp q y l r ctx t temp fr Q :
  let ctx2 := Frame d q y false (pick (negb d) l r) :: ctx in
  let F := Frame d p x rp (N q y true l r) in
  match borrow d p x true (pick d l r) t with
  | inl u => Q (Some p) (all_cells ctx2 u (temp_cell (F :: ctx) t temp ++ fr)) (rooted i ctx2 u s0)
  | inr v => Q (root_ptr (plug ctx2 v)) (all_cells ctx2 v (temp_cell (F :: ctx) t temp ++ fr)) (rooted i ctx2 v s0)
  end ->
  wp (TreeBARSub (cur_ptr t temp) (negb d) i) (all_cells (F :: ctx) t (temp_cell (F :: ctx) t temp ++ fr)) (rooted i (F :: ctx) t s0) Q.
Proof.
  intros ctx2 F HQ. apply (wp_BARSub_rest d p x true (pick d l r) ctx2 t temp fr) in HQ. unfold TreeBARSub.
  set (tc := temp_cell _ t temp) in *. unfold all_cells, rooted. apply wp_bind.
  eapply (wp_parent_cur t temp (Frame d p x rp E) ctx); [apply _..|]. destruct d; cbn in *; run.
  - eapply (wp_parent_cur t temp (Frame true p x rp E) ctx); [apply _..|]. run.
    rotate true p x true q y false t r l ctx (tc ++ fr). unfold all_cells at 1. cbn. run.
    eapply (wp_parent_cur t temp (Frame true p x rp E) ctx); [apply _..|]. run.
    eapply wp_perm; [|exact HQ]. unfold all_cells. cbn. solve_Permutation.
  - eapply (wp_parent_cur t temp (Frame false p x rp E) ctx); [apply _..|]. run.
    rotate false p x true q y false t l r ctx (tc ++ fr). unfold all_cells at 1. cbn. run.
    eapply (wp_parent_cur t temp (Frame false p x rp E) ctx); [apply _..|]. run.
    eapply wp_perm; [|exact HQ]. unfold all_cells. cbn. solve_Permutation.
Qed.

Lemma top_in ctx : forall hole, ctx <> [] -> exists a, top_ptr ctx hole = Some a /\ a ∈ (path_cells ctx hole).*1.
Proof.
  induction ctx as [|[d p x r s] ctx IH]; intros hole Hne; [done|]. cbn [top_ptr f_ptr path_cells]. rewrite fmap_cons, fmap_app.
  destruct ctx as [|f ctx]; [exists p; split; [done|apply list_elem_of_here]|].
  destruct (IH (Some p)) as (a & E & Ha); [done|]. exists a. split; [done|]. apply list_elem_of_further, elem_of_app. by right.
Qed.

(** The root of the tree is not the node in the hole. *)
Lemma root_distinct {B} (m : TM B) ctx t temp fr st Q :
  ctx <> [] ->
  (cur_ptr t temp <> top_ptr ctx (root_ptr t) -> wp m (all_cells ctx t (temp_cell ctx t temp ++ fr)) st Q) ->
  wp m (all_cells ctx t (temp_cell ctx t temp ++ fr)) st Q.
Proof.
  intros Hne H. apply wp_distinct. intros Hn. apply H. intros E. destruct (top_in ctx (root_ptr t) Hne) as (a & Ea & Ha).
  unfold all_cells in Hn. rewrite fmap_app in Hn. apply NoDup_app in Hn as (_ & Hn & _). apply (Hn a Ha). rewrite Ea in E.
  rewrite !fmap_app, !elem_of_app. destruct t as [|c z rc l k]; injection E as ->; [right; left|left]; apply list_elem_of_here.
Qed.

Lemma wp_remove_exit fuel ctx t fr Q :
  t <> E -> ctx = [] \/ is_red t = true ->
  Q tt (all_cells ctx (paint false t) fr) (rooted i ctx (paint false t) s0) ->
  wp (remove_loop fuel (root_ptr t) i) (all_cells ctx t fr) (rooted i ctx t s0) Q.
Proof.
  intros Ht Hex HQ. apply (wp_paint false) in HQ; [|done]. destruct t as [|c z rc l k]; [done|]. cbn [root_ptr] in *.
  assert (E : remove_loop (A:=A) (K:=K) fuel (Some c) i = (let+ r := get_root i in
    let+ black := (if bool_decide (Some c = r) then tret false else isBlack (Some c)) in
    if black then match fuel with O => tlift Blocked | S fuel' =>
        let+ n := load (Some c) in
        let+ l := child_of LEFT (parent n) in
        let here := match content n with Some _ => Some c | None => None end in
        let+ curnode := (if bool_decide (here = l) then TreeBARSub (Some c) RIGHT i else TreeBARSub (Some c) LEFT i) in
        remove_loop fuel' curnode i end
    else set_red (Some c) false)) by by destruct fuel.
  rewrite E. apply wp_bind, wp_get_rooted, wp_bind. destruct Hex as [->|Hr].
  - cbn [top_ptr root_ptr]. rewrite bool_decide_eq_true_2 by done. by apply wp_ret.
  - case_bool_decide; [by apply wp_ret|]. apply (wp_isBlack (up_ptr ctx) (N c z rc l k) _ (path_cells ctx (Some c) ++ fr)).
    + unfold Pull, all_cells. cbn [root_ptr]. solve_Permutation.
    + rewrite Hr. done.
Qed.

(** What follows a step of the loop. *)
Lemma borrow_up d p x rp s t (u : rb) : borrow d p x rp s t = inl u -> exists (s' : rb), u = nd d p x rp s' t.
Proof. unfold borrow. repeat (case_match; try done); intros [= <-]; eauto. Qed.

Lemma borrow_done d p x rp s t (v : rb) : borrow d p x rp s t = inr v -> v <> E.
Proof. unfold borrow. repeat (case_match; try done); intros [= <-]; by destruct d. Qed.

(** The cell of the node the loop is at. *)
Lemma cur_cell t temp F ctx cs rest rest' :
  Pull (cells (Some (f_ptr F)) t) cs rest -> Pull (temp_cell (F :: ctx) t temp) rest rest' ->
  exists c n r, cur_ptr t temp = Some c /\ Pull [(c, n)] cs r /\ parent n = Some (f_ptr F) /\ red n = is_red t /\
    match content n with Some _ => Some c | None => None end = root_ptr t.
Proof.
  intros H1 H2. destruct t as [|c z rc l k]; cbn in *.
  - eexists _, _, _. split; [done|]. split; [unfold Pull in *; rewrite H1; exact H2|done].
  - eexists _, _, _. split; [done|]. split; [exact H1|done].
Qed.

(** An iteration goes to [TreeBARSub] with the side the hole is not on. *)
Lemma wp_remove_iter fuel d p x rp s ctx t temp fr Q :
  is_red t = false -> (d = true -> root_ptr t <> root_ptr s) ->
  let tc := temp_cell (Frame d p x rp s :: ctx) t temp in
  wp (TreeBARSub (cur_ptr t temp) (negb d) i) (all_cells (Frame d p x rp s :: ctx) t (tc ++ fr))
    (rooted i (Frame d p x rp s :: ctx) t s0) (fun c cs' s' => wp (remove_loop fuel c i) cs' s' Q) ->
  wp (remove_loop (S fuel) (cur_ptr t temp) i) (all_cells (Frame d p x rp s :: ctx) t (tc ++ fr))
    (rooted i (Frame d p x rp s :: ctx) t s0) Q.
Proof.
  intros Hr Hne tc HQ. apply root_distinct; [done|]. intros Hroot. fold tc. cbn [remove_loop].
  apply wp_bind, wp_get_rooted, wp_bind. rewrite bool_decide_eq_false_2 by done.
  destruct (cur_cell t temp (Frame d p x rp E) ctx (all_cells (Frame d p x rp s :: ctx) t (tc ++ fr))
    (path_cells (Frame d p x rp s :: ctx) (root_ptr t) ++ tc ++ fr) (path_cells (Frame d p x rp s :: ctx) (root_ptr t) ++ fr))
    as (c & n & r & Ec & Hc & Ep & Er & Eh); [unfold Pull, all_cells; solve_Permutation..|].
  rewrite Ec in *. unfold isBlack. apply wp_bind. eapply wp_load; [exact Hc|]. apply wp_ret. rewrite Er, Hr. cbn [negb].
  apply wp_bind. eapply wp_load; [exact Hc|]. rewrite Ep, Eh. unfold all_cells. cbn [f_ptr path_cells app up_ptr]. run.
  assert (Ew : (if bool_decide (root_ptr t = pick d (root_ptr t) (root_ptr s)) then TreeBARSub (A:=A) (K:=K) (Some c) true i
    else TreeBARSub (Some c) false i) = TreeBARSub (Some c) (negb d) i).
  { destruct d; cbn; [rewrite bool_decide_eq_false_2; auto|by rewrite bool_decide_eq_true_2]. }
  rewrite Ew. exact HQ.
Qed.

(** The loop does what [fix_remove] does. *)
Lemma wp_remove_loop fuel : forall ctx t temp fr Q,
  (t = E -> ctx <> []) -> (length ctx <= fuel)%nat ->
  Q tt (all_cells [] (fix_remove ctx t) (temp_cell ctx t temp ++ fr)) (rooted i [] (fix_remove ctx t) s0) ->
  wp (remove_loop fuel (cur_ptr t temp) i) (all_cells ctx t (temp_cell ctx t temp ++ fr)) (rooted i ctx t s0) Q.
Proof.
  induction fuel as [|fuel IH]; intros ctx t temp fr Q Ht Hf HQ; apply wp_up.
  { destruct ctx; [|cbn in Hf; lia]. destruct t as [|c z rc l k]; [by destruct Ht|].
    apply (wp_remove_exit 0 [] (N c z rc l k)); [done|by left|]. by eexists. }
  destruct ctx as [|[d p x rp s] ctx].
  { destruct t as [|c z rc l k]; [by destruct Ht|]. apply (wp_remove_exit _ [] (N c z rc l k)); [done|by left|]. by eexists. }
  destruct (is_red t) eqn:Et.
  { destruct t as [|c z rc l k]; [done|]. apply (wp_remove_exit (S fuel) (_ :: ctx) (N c z rc l k)); [done|by right|].
    refine (done_plug _ _ _ fr tt Q _ HQ). cbn [fix_remove]. by rewrite Et. }
  set (tc := temp_cell _ t temp) in *. cbn [fix_remove] in HQ. rewrite Et in HQ.
  assert (Hup : forall d s' Q, Q tt (all_cells [] (fix_remove ctx (nd d p x rp s' t)) (tc ++ fr)) (rooted i [] (fix_remove ctx (nd d p x rp s' t)) s0) ->
    wp (remove_loop fuel (Some p) i) (all_cells ctx (nd d p x rp s' t) (tc ++ fr)) (rooted i ctx (nd d p x rp s' t) s0) Q).
  { intros d' s' Q' HQ'. pose proof (IH ctx (nd d' p x rp s' t) temp (tc ++ fr) Q') as H.
    destruct d'; (apply H; [done|cbn in Hf; lia|exact HQ']). }
  assert (Htop : forall ctx v Q, v <> E -> Q tt (all_cells [] (paint false (plug ctx v)) (tc ++ fr)) (rooted i [] (paint false (plug ctx v)) s0) ->
    wp (remove_loop fuel (root_ptr (plug ctx v)) i) (all_cells ctx v (tc ++ fr)) (rooted i ctx v s0) Q).
  { intros ctx' v Q' Hv HQ'. apply (wp_plug _ _ _ [] (plug ctx' v)); [done|].
    apply (wp_remove_exit fuel [] (plug ctx' v)); [|by left|done]. by apply nodes_nonempty, plug_nonempty. }
  assert (Hstep : forall d s, is_red s = false -> (d = true -> root_ptr t <> root_ptr s) ->
    (match borrow d p x rp s t with
     | inl u => Q tt (all_cells [] (fix_remove ctx u) (tc ++ fr)) (rooted i [] (fix_remove ctx u) s0)
     | inr v => Q tt (all_cells [] (paint false (plug ctx v)) (tc ++ fr)) (rooted i [] (paint false (plug ctx v)) s0)
     end) ->
    wp (remove_loop (S fuel) (cur_ptr t temp) i) (all_cells (Frame d p x rp s :: ctx) t (tc ++ fr))
      (rooted i (Frame d p x rp s :: ctx) t s0) (fun b cs1 t1 => exists cs2, cs1 ≡ₚ cs2 /\ Q b cs2 t1)).
  { clear HQ. intros d' s' Hs Hne HQ. apply wp_remove_iter; [done..|]. apply wp_BARSub_black; [done|].
    destruct (borrow d' p x rp s' t) as [u|v] eqn:Eb.
    - apply borrow_up in Eb as [s2 ->]. apply Hup. by eexists.
    - apply borrow_done in Eb. apply Htop; [done|]. by eexists. }
  clear IH Hf. destruct (is_red s) eqn:Es.
  - destruct s as [|q y rs l r]; [done|]. cbn in Es. subst rs. apply path_distinct. intros _ _ Hne.
    apply wp_remove_iter; [done|by intros _; destruct t; destruct Hne|]. apply wp_BARSub_red.
    destruct (borrow d p x true (pick d l r) t) as [u|v] eqn:Eb.
    + apply borrow_up in Eb as [s2 ->]. 
      set (ctx2 := Frame d q y false _ :: ctx) in *.
      replace (Some p) with (root_ptr (nd d p x true s2 t)) by (by destruct d).
      apply wp_remove_exit; [by destruct d|right; apply is_red_nd|]. by refine (done_plug ctx2 _ _ (tc ++ fr) tt Q _ HQ).
    + apply Htop; [by eapply borrow_done|]. by eexists.
  - assert (HQ' : match borrow d p x rp s t with
      | inl u => Q tt (all_cells [] (fix_remove ctx u) (tc ++ fr)) (rooted i [] (fix_remove ctx u) s0)
      | inr v => Q tt (all_cells [] (paint false (plug ctx v)) (tc ++ fr)) (rooted i [] (paint false (plug ctx v)) s0)
      end) by (destruct s as [|q y [|] l r]; [|done|]; by destruct (borrow d p x rp _ t)).
    destruct (decide (d = true /\ root_ptr t = root_ptr s)) as [[-> E0]|Hd].
    + apply path_distinct. intros _ _ [Hn|Hne]; [|done]. rewrite Hn in E0.
      destruct t; [|done]. destruct s; [|done]. apply (wp_plug _ _ _ (Frame false p x rp E :: ctx) E); [done|]. by apply Hstep.
    + apply Hstep; [done| |done]. intros ->. intros E0. by apply Hd.
Qed.

(** [TreeBalanceAfterRemove] *)
Lemma wp_balance_remove ctx t temp fr Q :
  (t = E -> ctx <> []) ->
  Q tt (all_cells [] (fix_remove ctx t) (temp_cell ctx t temp ++ fr)) (rooted i [] (fix_remove ctx t) s0) ->
  wp (TreeBalanceAfterRemove (cur_ptr t temp) i) (all_cells ctx t (temp_cell ctx t temp ++ fr)) (rooted i ctx t s0) Q.
Proof.
  intros Ht HQ. unfold TreeBalanceAfterRemove. apply wp_bind, wp_fuel, wp_remove_loop; [done| |done].
  pose proof (all_cells_length ctx t (temp_cell ctx t temp ++ fr)). lia.
Qed.

(** ** Search *)

Lemma cells_length (t : rb) : forall par, length (cells par t) = tree_size t.
Proof. induction t as [|p x r l IHl k IHk]; intros par; cbn; [done|]. by rewrite length_app, IHl, IHk. Qed.

Lemma all_cells_size ctx t fr : (tree_size t <= length (all_cells ctx t fr))%nat.
Proof. unfold all_cells. rewrite !length_app, cells_length. lia. Qed.

(** The loop of [TreeAddByIndex] goes where [locate] goes. *)
Lemma wp_descend fuel cmp c : forall ctx t lft res fr Q,
  (tree_size t <= fuel)%nat -> (t = E -> res <> 0) -> (forall F ctx1, ctx = F :: ctx1 -> lft = f_side F) ->
  (let '(ctx', t') := locate (fun x => cmp x.1 (inl c)) ctx t in
   forall lft' res', (t' = E -> res' <> 0 /\ forall F ctx1, ctx' = F :: ctx1 -> lft' = f_side F) -> (t' <> E -> res' = 0) ->
     Q (up_ptr ctx', root_ptr t', lft', res') (all_cells ctx' t' fr) (rooted i ctx' t' s0)) ->
  wp (descend fuel cmp c (up_ptr ctx) (root_ptr t) lft res) (all_cells ctx t fr) (rooted i ctx t s0) Q.
Proof.
  induction fuel as [|fuel IH]; intros ctx t lft res fr Q Hf Hres Hl HQ.
  { destruct t; [|cbn in Hf; lia]. cbn in HQ |- *. run. apply HQ; [|done]. auto. }
  destruct t as [|p x r l k].
  { cbn in HQ |- *. run. apply HQ; [|done]. auto. }
  change (root_ptr (N p x r l k)) with (Some p). cbn [descend]. unfold all_cells at 1. cbn [cells root_ptr app]. run.
  cbn [locate] in HQ. apply wp_lift with (b := x.1); [done|]. cbn.
  destruct (Z.eqb_spec (cmp x.1 (inl c)) 0) as [E0|E0].
  - run. apply HQ; [done|]. done.
  - destruct (Z.ltb_spec 0 (cmp x.1 (inl c))).
    + apply (wp_plug _ ctx (N p x r l k) (Frame RIGHT p x r l :: ctx) k fr); [done|].
      apply (IH (Frame RIGHT p x r l :: ctx) k); [cbn in Hf; lia|done|by intros F ctx1 [= <- _]|done].
    + apply (wp_plug _ ctx (N p x r l k) (Frame LEFT p x r k :: ctx) l fr); [done|].
      apply (IH (Frame LEFT p x r k :: ctx) l); [cbn in Hf; lia|done|by intros F ctx1 [= <- _]|done].
Qed.

(** So does the search of [TreeFindIndex1]. *)
Lemma wp_find_loop fuel cmp key : forall ctx t fr Q,
  (tree_size t <= fuel)%nat ->
  (let '(ctx', t') := locate (fun x => cmp x.1 key) ctx t in Q (root_ptr t') (all_cells ctx' t' fr) (rooted i ctx' t' s0)) ->
  wp (find_loop fuel cmp key (root_ptr t)) (all_cells ctx t fr) (rooted i ctx t s0) Q.
Proof.
  induction fuel as [|fuel IH]; intros ctx t fr Q Hf HQ.
  { destruct t; [|cbn in Hf; lia]. cbn in HQ |- *. by run. }
  destruct t as [|p x r l k]; [cbn in HQ |- *; by run|].
  change (root_ptr (N p x r l k)) with (Some p). cbn [find_loop]. unfold all_cells at 1. cbn [cells root_ptr app]. run.
  cbn [locate] in HQ. apply wp_lift with (b := x.1); [done|]. cbn.
  destruct (Z.eqb_spec (cmp x.1 key) 0) as [E0|E0]; [by run|]. destruct (Z.ltb_spec 0 (cmp x.1 key)).
  - apply (wp_plug _ ctx (N p x r l k) (Frame RIGHT p x r l :: ctx) k fr); [done|]. apply IH; [cbn in Hf; lia|done].
  - apply (wp_plug _ ctx (N p x r l k) (Frame LEFT p x r k :: ctx) l fr); [done|]. apply IH; [cbn in Hf; lia|done].
Qed.

(** ** The walk *)

Definition first_ptr (l : list (nat * (A * Z))) : ptr := head l.*1.

Lemma first_ptr_app l k : l <> [] -> first_ptr (l ++ k) = first_ptr l.
Proof. by destruct l. Qed.

Lemma nodes_of_nonempty (t : rb) : t <> E -> nodes_of t <> [].
Proof. destruct t as [|p x r l k]; [done|]. cbn. intros _ [_ H]%app_eq_nil. done. Qed.

Lemma wp_minimum_loop fuel : forall ctx t fr Q,
  t <> E -> (tree_size t <= S fuel)%nat -> Q (first_ptr (nodes_of t)) (all_cells ctx t fr) (rooted i ctx t s0) ->
  wp (minimum_loop fuel (root_ptr t)) (all_cells ctx t fr) (rooted i ctx t s0) Q.
Proof.
  induction fuel as [|fuel IH]; intros ctx t fr Q Ht Hf HQ; (destruct t as [|p x r l k]; [done|]);
    change (root_ptr (N p x r l k)) with (Some p); cbn [minimum_loop]; unfold all_cells at 1; cbn [cells root_ptr app]; run.
  - destruct l; [|cbn in Hf; lia]. cbn. by run.
  - destruct l as [|p2 x2 r2 l2 k2]; cbn [root_ptr]; [by run|]. set (l := N p2 x2 r2 l2 k2) in *. apply wp_up.
    apply (wp_plug _ ctx (N p x r l k) (Frame LEFT p x r k :: ctx) l fr); [done|].
    apply (IH (Frame LEFT p x r k :: ctx) l); [done|cbn in Hf |- *; lia|]. eapply same_plug; [|].
    2: { rewrite <- (first_ptr_app (nodes_of l) ((p, x) :: nodes_of k)) by by apply nodes_of_nonempty. exact HQ. }
    done.
Qed.

Lemma wp_minimum ctx t fr Q :
  Q (first_ptr (nodes_of t)) (all_cells ctx t fr) (rooted i ctx t s0) ->
  wp (TreeMinimum (root_ptr t)) (all_cells ctx t fr) (rooted i ctx t s0) Q.
Proof.
  intros HQ. destruct t as [|p x r l k]; [by apply wp_ret|]. apply wp_bind, wp_fuel, wp_minimum_loop; [done| |done].
  pose proof (all_cells_size ctx (N p x r l k) fr). lia.
Qed.

Lemma wp_climb_loop fuel : forall ctx t fr Q,
  t <> E -> (length ctx <= fuel)%nat -> Q (first_ptr (after ctx)) (all_cells ctx t fr) (rooted i ctx t s0) ->
  wp (climb_loop fuel (root_ptr t) (up_ptr ctx)) (all_cells ctx t fr) (rooted i ctx t s0) Q.
Proof.
  induction fuel as [|fuel IH]; intros ctx t fr Q Ht Hf HQ.
  - destruct ctx; [|cbn in Hf; lia]. by apply wp_ret.
  - destruct ctx as [|[d p x r s] ctx]; [by apply wp_ret|]. apply path_distinct. intros Hps Hpt Hne.
    assert (Hs : root_ptr t <> root_ptr s) by (destruct Hne as [Hn|]; [by destruct t|done]).
    cbn [climb_loop up_ptr f_ptr]. unfold all_cells at 1. cbn [path_cells app]. run. destruct d; cbn [pick after] in *.
    + rewrite bool_decide_eq_true_2 by done. run. apply wp_up.
      apply (wp_plug _ (Frame RIGHT p x r s :: ctx) t ctx (N p x r s t) fr); [done|].
      apply (IH ctx (N p x r s t)); [done|cbn in Hf; lia|].
      by refine (same_plug ctx (N p x r s t) (Frame RIGHT p x r s :: ctx) t fr _ Q _ HQ).
    + rewrite bool_decide_eq_false_2 by done. by run.
Qed.

(** [TreeSuccessor] goes to the next node. *)
Lemma wp_successor ctx p x r l k fr Q :
  Q (first_ptr (nodes_of k ++ after ctx)) (all_cells ctx (N p x r l k) fr) (rooted i ctx (N p x r l k) s0) ->
  wp (TreeSuccessor (Some p)) (all_cells ctx (N p x r l k) fr) (rooted i ctx (N p x r l k) s0) Q.
Proof.
  intros HQ. unfold TreeSuccessor. unfold all_cells at 1. cbn [cells root_ptr app]. run.
  destruct k as [|p2 x2 r2 l2 k2]; cbn [root_ptr].
  - apply wp_bind, wp_fuel, wp_bind, wp_bind. eapply wp_load; [apply _|]. apply wp_ret. cbn [parent].
    apply (wp_climb_loop _ ctx (N p x r l E)); [done| |done].
    change (length ctx <= S (length (all_cells ctx (N p x r l E) fr)))%nat.
    pose proof (all_cells_length ctx (N p x r l E) fr). lia.
  - set (k := N p2 x2 r2 l2 k2) in *. apply wp_up. apply (wp_plug _ ctx (N p x r l k) (Frame RIGHT p x r l :: ctx) k fr); [done|].
    apply (wp_minimum (Frame RIGHT p x r l :: ctx) k).
    refine (same_plug (Frame RIGHT p x r l :: ctx) k ctx (N p x r l k) fr _ Q eq_refl _).
    by rewrite <- (first_ptr_app (nodes_of k) (after ctx)) by by apply nodes_of_nonempty.
Qed.
End Index.
End Rep.
