(* ===== verification/TreeSpec.v ===== *)
(** * TreeSpec: the operations of Tree.c on the trees they keep

    What adding, removing, finding and walking do to the tree of an index, as operations on red-black
    trees; the trees of all the indexes together; and the sorted list of items that a tree stands for. *)

From Stdlib Require Import ZArith Lia Sorting.Sorted.
From stdpp Require Import base tactics numbers list gmap.
From S2P Require Import Prelude RbTree Tree TreeMem TreeRep.

Section Ops.
Context {A K : Type}.
Notation Node := (Node A).
Notation Tree := (Tree A K).
Notation TM := (TM A K).
Notation cell := (nat * Node)%type.
Notation rb := (rb (X:=A * Z)).
Notation frame := (frame (X:=A * Z)).

(** ** One index *)

Definition resized (i : nat) (n sz : Z) (s : Tree) : Tree :=
  if bool_decide (i = 0%nat) then set_count (count s + n) (s32 (t_size s + sz)) s else s.

Lemma wp_add_size i n sz cs (s : Tree) Q : Q tt cs (resized i n sz s) -> wp (add_size i n sz) cs s Q.
Proof.
  unfold add_size, resized. intros HQ. case_bool_decide; [|by apply wp_ret]. intros Hn.
  by exists tt, cs, (set_count (count s + n) (s32 (t_size s + sz)) s).
Qed.

Lemma index_resized i n sz (s : Tree) : index (resized i n sz s) = index s.
Proof. unfold resized. by case_bool_decide. Qed.

Lemma rooted_resized i j n sz ctx t (s : Tree) : rooted i ctx t (resized j n sz s) = resized j n sz (rooted i ctx t s).
Proof.
  unfold rooted, root_at. rewrite index_resized. destruct (index s !! i); [|done]. unfold resized. by case_bool_decide.
Qed.

Lemma duplicates_rooted i ctx t (s : Tree) : allow_duplicates (rooted i ctx t s) = allow_duplicates s.
Proof. unfold rooted, root_at. by destruct (index s !! i). Qed.

(** The tree after [TreeAddByIndex], with [a] as the location of a new node, and what it returns. *)
Definition added (cmp : A -> A + K -> Z) (c : A) (sz : Z) (a : nat) (t : rb) : rb * option A * Z * Z :=
  match locate (fun x => cmp x.1 (inl c)) [] t with
  | (ctx, E) => (paint false (fix_add ctx (N a (c, sz) true E E)), None, 1, sz)
  | (ctx, N p x r l k) => (paint false (fix_add ctx (N p (c, sz) r l k)), Some x.1, 0, sz - x.2)
  end.

Section Index.
Variables (i : nat) (ix : Index A K) (s0 : Tree).
Hypothesis Hix : index s0 !! i = Some ix.

Lemma wp_TreeFindIndex1 key t fr Q :
  let '(ctx', t') := locate (fun x => compare ix x.1 key) [] t in
  Q (root_ptr t') (all_cells [] t fr) (rooted i [] t s0) ->
  wp (TreeFindIndex1 key i) (all_cells [] t fr) (rooted i [] t s0) Q.
Proof.
  destruct (locate _ [] t) as [ctx' t'] eqn:El. intros HQ. apply wp_up. unfold TreeFindIndex1. apply wp_bind, wp_get, wp_bind.
  eapply wp_lift with (b := MkIndex (root_ptr t) (compare ix)).
  { cbn. unfold rooted. by erewrite index_root_at by done. }
  apply wp_bind, wp_fuel. cbn [compare root]. eapply wp_find_loop; [pose proof (all_cells_size [] t fr); lia|].
  rewrite El. refine (same_plug i s0 ctx' t' [] t fr _ Q _ HQ).
  pose proof (locate_plug (fun x => compare ix x.1 key) t []) as Hp. by rewrite El in Hp.
Qed.

Lemma wp_TreeAddByIndex c sz t fr Q :
  allow_duplicates s0 = false ->
  (forall a, a ∉ (all_cells [] t fr).*1 ->
    let '(t', rc, n, dsz) := added (compare ix) c sz a t in
    Q rc (all_cells [] t' fr) (rooted i [] t' (resized i n dsz s0))) ->
  wp (TreeAddByIndex c sz i) (all_cells [] t fr) (rooted i [] t s0) Q.
Proof.
  intros Hdup HQ. unfold TreeAddByIndex, added in *. apply wp_bind, wp_get, wp_bind.
  eapply wp_lift with (b := MkIndex (root_ptr t) (compare ix)).
  { cbn. unfold rooted. by erewrite index_root_at by done. }
  apply wp_bind, wp_fuel, wp_bind. cbn [compare root].
  apply (wp_descend i s0 _ (compare ix) c [] t); [pose proof (all_cells_size [] t fr); lia|done|done|].
  pose proof (locate_plug (fun x => compare ix x.1 (inl c)) t []) as Hp.
  destruct (locate _ [] t) as [ctx t'] eqn:El. cbn [fst snd plug] in Hp. intros lft res HE HN.
  destruct t' as [|p x r l k].
  - destruct (HE eq_refl) as [Hres Hlft]. destruct (Z.eqb_spec res 0) as [|_]; [done|]. clear HE HN.
    assert (Hfresh : forall a, a ∉ (all_cells ctx E fr).*1 -> a ∉ (all_cells [] t fr).*1).
    { intros a Ha. by rewrite <- Hp, <- all_cells_plug. }
    apply wp_bind, wp_bind, wp_malloc. intros a Ha. specialize (HQ a (Hfresh a Ha)). set (n := N a (c, sz) true E E) in *.
    assert (Hlink : forall Q', Q' tt ((a, MkNode None None None None 0 false) :: path_cells ctx (Some a) ++ fr)
        (rooted i ctx n s0) ->
      wp (match up_ptr ctx with Some _ => set_child (up_ptr ctx) lft (Some a) | None => set_root i (Some a) end)
        ((a, MkNode None None None None 0 false) :: all_cells ctx E fr) (rooted i ctx E s0) Q').
    { intros Q' HQ'. unfold all_cells, rooted in *. destruct ctx as [|[d p x r s] ctx].
      - cbn in *. eapply wp_set_root; [by eapply index_root_at|]. by rewrite root_at_twice.
      - rewrite (Hlft _ _ eq_refl). apply wp_up. cbn in *. destruct d; run; (eexists; split; [|exact HQ']; solve_Permutation). }
    apply wp_bind, Hlink. run. apply wp_add_size. run. apply wp_up. 
    apply (wp_perm _ _ _ (all_cells ctx n fr)); [unfold all_cells; cbn; solve_Permutation|]. rewrite <- rooted_resized.
    apply (wp_balance_add i ix (resized i 1 sz s0) ltac:(by rewrite index_resized) ctx n fr); [done|].
    eexists. split; [done|]. by apply wp_ret.
  - rewrite (HN ltac:(done)). cbn [Z.eqb].
    assert (Hd : allow_duplicates (holding (all_cells [] t fr) (rooted i [] t s0)) = false).
    { cbn. by rewrite duplicates_rooted. }
    rewrite Hd. specialize (HQ (fresh (all_cells [] t fr).*1) (infinite_is_fresh _)).
    apply wp_up. unfold all_cells at 1. cbn [root_ptr cells app]. run. apply wp_add_size. run.
    apply (wp_perm _ _ _ (all_cells ctx (N p (c, sz) r l k) fr)); [unfold all_cells; cbn; solve_Permutation|].
    change (rooted i ctx (N p x r l k) s0) with (rooted i ctx (N p (c, sz) r l k) s0). rewrite <- rooted_resized.
    apply (wp_balance_add i ix (resized i 0 (sz - x.2) s0) ltac:(by rewrite index_resized) ctx (N p (c, sz) r l k) fr); [done|].
    apply wp_ret. by eexists.
Qed.

(** ** Removal *)

(** The loss of the node [q], which is out of the tree, is made up for. *)
Lemma wp_drop {B} q nq ctx ch fr (m : TM B) Q :
  parent nq = up_ptr ctx ->
  wp m (all_cells [] (drop_node ctx (red nq) ch) ((q, nq) :: fr)) (rooted i [] (drop_node ctx (red nq) ch) s0) Q ->
  wp (let+ black := isBlack (Some q) in
      (if black then
        match root_ptr ch with
        | None =>
            let+ d := load (Some q) in
            match parent d with
            | None => tret tt
            | Some _ =>
                let+ temp := malloc_node (MkNode (parent d) None None None 0 false) in
                TreeBalanceAfterRemove temp i ;+
                free_node temp
            end
        | Some _ => TreeBalanceAfterRemove (root_ptr ch) i
        end
      else tret tt) ;+ m) (all_cells ctx ch ((q, nq) :: fr)) (rooted i ctx ch s0) Q.
Proof.
  intros Hp HQ. unfold all_cells at 1. run. unfold drop_node in HQ. destruct (red nq) eqn:Er; cbn [negb].
  - run. by apply (wp_plug i s0 m ctx ch [] (plug ctx ch)).
  - destruct ch as [|c z rc l k]; cbn [root_ptr].
    + run. rewrite Hp. destruct ctx as [|f ctx]; cbn [up_ptr].
      { run. by apply (wp_plug i s0 m [] E [] E). }
      apply wp_bind, wp_malloc. intros a Ha. apply wp_bind.
      apply (wp_perm _ _ _ (all_cells (f :: ctx) E (temp_cell (f :: ctx) E a ++ (q, nq) :: fr))).
      { unfold all_cells. cbn. solve_Permutation. }
      apply (wp_balance_remove i ix s0 Hix (f :: ctx) E a); [done|]. unfold all_cells at 1. cbn [temp_cell app]. run.
      eapply wp_perm; [|exact HQ]. unfold all_cells. solve_Permutation.
    + apply (wp_perm _ _ _ (all_cells ctx (N c z rc l k) (temp_cell ctx (N c z rc l k) 0 ++ (q, nq) :: fr))); [done|].
      by apply (wp_balance_remove i ix s0 Hix ctx (N c z rc l k) 0).
Qed.

(** The node [q] with at most one subtree [ch] is taken out of the tree. *)
Lemma wp_unlink {B} q z rz lq kq ctx fr (m : TM B) Q :
  lq = E \/ kq = E ->
  let ch := match lq with E => kq | _ => lq end in
  let nq := MkNode (up_ptr ctx) (root_ptr lq) (root_ptr kq) (Some z.1) z.2 rz in
  wp m (all_cells ctx ch ((q, nq) :: fr)) (rooted i ctx ch s0) Q ->
  wp ((match root_ptr ch with Some _ => set_parent (root_ptr ch) (up_ptr ctx) | None => tret tt end) ;+
      let+ d := load (Some q) in
      (match parent d with
       | None => set_root i (root_ptr ch)
       | Some _ =>
           let+ u := load (parent d) in
           if bool_decide (Some q = child LEFT u) then set_child (parent d) LEFT (root_ptr ch)
           else set_child (parent d) RIGHT (root_ptr ch)
       end) ;+ m) (all_cells ctx (N q z rz lq kq) fr) (rooted i ctx (N q z rz lq kq) s0) Q.
Proof.
  intros Hone ch nq HQ.
  apply (wp_perm _ _ _ (path_cells ctx (Some q) ++ cells (Some q) ch ++ (q, nq) :: fr)).
  { unfold all_cells. cbn [root_ptr cells]. subst nq ch. destruct Hone as [-> | ->]; [|destruct lq]; cbn; solve_Permutation. }
  apply wp_bind. eapply wp_reparent; [apply _|]. run. cbn [parent].
  eapply (wp_relink i ix s0 Hix false); [apply _..|]. eapply wp_perm; [|exact HQ]. unfold all_cells. solve_Permutation.
Qed.

(** The part of [TreeRemoveNodeIndex] after the choice of the redundant node; [copy] moves the content. *)
Lemma wp_take_out q z rz lq kq ctx1 ctx2 fr (copy : TM unit) (c : option A) sz Q :
  lq = E \/ kq = E -> up_ptr ctx2 = up_ptr ctx1 ->
  let ch := match lq with E => kq | _ => lq end in
  let nq := MkNode (up_ptr ctx1) (root_ptr lq) (root_ptr kq) (Some z.1) z.2 rz in
  (forall Q', Q' tt (all_cells ctx2 ch ((q, nq) :: fr)) (rooted i ctx2 ch s0) ->
    wp copy (all_cells ctx1 ch ((q, nq) :: fr)) (rooted i ctx1 ch s0) Q') ->
  Q c (all_cells [] (drop_node ctx2 rz ch) fr) (rooted i [] (drop_node ctx2 rz ch) (resized i (-1) (- sz) s0)) ->
  wp (let+ d := load (Some q) in
      let curchild := child (match child LEFT d with Some _ => LEFT | None => RIGHT end) d in
      (match curchild with Some _ => set_parent curchild (parent d) | None => tret tt end) ;+
      let+ d := load (Some q) in
      (match parent d with
       | None => set_root i curchild
       | Some _ =>
           let+ u := load (parent d) in
           if bool_decide (Some q = child LEFT u) then set_child (parent d) LEFT curchild
           else set_child (parent d) RIGHT curchild
       end) ;+
      copy ;+
      let+ black := isBlack (Some q) in
      (if black then
         match curchild with
         | None =>
             let+ d := load (Some q) in
             match parent d with
             | None => tret tt
             | Some _ =>
                 let+ temp := malloc_node (MkNode (parent d) None None None 0 false) in
                 TreeBalanceAfterRemove temp i ;+
                 free_node temp
             end
         | Some _ => TreeBalanceAfterRemove curchild i
         end
       else tret tt) ;+
      free_node (Some q) ;+
      add_size i (-1) (- sz) ;+
      tret c) (all_cells ctx1 (N q z rz lq kq) fr) (rooted i ctx1 (N q z rz lq kq) s0) Q.
Proof.
  intros Hone Hup ch nq Hcopy HQ. apply wp_bind. unfold all_cells at 1. cbn [cells root_ptr app].
  eapply wp_load; [apply _|]. fold nq. cbn [parent nq].
  assert (Ech : child (match child LEFT nq with Some _ => LEFT | None => RIGHT end) nq = root_ptr ch) by (subst ch; by destruct lq).
  rewrite Ech. apply (wp_unlink q z rz lq kq ctx1 fr); [done|]. apply wp_bind, Hcopy.
  apply wp_drop; [by rewrite Hup|]. unfold all_cells at 1. apply wp_bind. eapply wp_free; [apply _|].
  apply wp_bind, wp_add_size, wp_ret. rewrite <- rooted_resized. exact HQ.
Qed.

(** The item of a node on the path is in one cell. *)
Lemma path_item (c1 : list frame) d p r s c2 : forall hole, exists par lc rc rest, forall x,
  path_cells (c1 ++ Frame d p x r s :: c2) hole ≡ₚ (p, MkNode par lc rc (Some x.1) x.2 r) :: rest.
Proof.
  induction c1 as [|[e u y ru t] c1 IH]; intros hole; cbn [app path_cells]; [by repeat eexists|].
  destruct (IH (Some u)) as (par & lc & rc & rest & H).
  set (v := match c1 with [] => Some p | f :: _ => Some (f_ptr f) end).
  assert (Hv : forall x, up_ptr (c1 ++ Frame d p x r s :: c2) = v) by (intros; by destruct c1).
  exists par, lc, rc, ((u, MkNode v (pick e hole (root_ptr t)) (pick e (root_ptr t) hole) (Some y.1) y.2 ru) :: cells (Some u) t ++ rest).
  intros x. rewrite H, Hv. solve_Permutation.
Qed.

Lemma top_item (c1 : list frame) d p r s c2 x z : forall hole,
  top_ptr (c1 ++ Frame d p x r s :: c2) hole = top_ptr (c1 ++ Frame d p z r s :: c2) hole.
Proof. induction c1 as [|f c1 IH]; intros hole; [done|]. apply IH. Qed.

Lemma wp_TreeRemoveNodeIndex ctx p x r l k fr Q :
  Q (Some x.1) (all_cells [] (remove_at ctx p x r l k) fr) (rooted i [] (remove_at ctx p x r l k) (resized i (-1) (- x.2) s0)) ->
  wp (TreeRemoveNodeIndex (Some p) i) (all_cells ctx (N p x r l k) fr) (rooted i ctx (N p x r l k) s0) Q.
Proof.
  intros HQ. unfold TreeRemoveNodeIndex. apply wp_bind. unfold all_cells at 1. cbn [cells root_ptr app].
  eapply wp_load; [apply _|]. cbn [size content child pick lchild rchild].
  change (path_cells _ _ ++ _) with (all_cells ctx (N p x r l k) fr).
  assert (Hlk : (l = E \/ k = E) \/ (l <> E /\ k <> E)) by (destruct l, k; auto). destruct Hlk as [Hone|[Hl Hk]].
  - assert (Ew : match root_ptr l, root_ptr k with Some _, Some _ => TreeSuccessor (A:=A) (K:=K) (Some p) | _, _ => tret (Some p) end
      = tret (Some p)) by (destruct Hone as [-> | ->]; [done|by destruct l]).
    rewrite Ew. apply wp_bind, wp_ret. apply (wp_take_out p x r l k ctx ctx); [done..| |].
    + intros Q' HQ'. rewrite bool_decide_eq_true_2 by done. by apply wp_ret.
    + revert HQ. unfold remove_at. destruct Hone as [-> | ->]; [done|by destruct l].
  - destruct l as [|lp lx lr ll lk]; [done|]. destruct k as [|kp kx kr kl kk]; [done|].
    set (l := N lp lx lr ll lk) in *. set (k := N kp kx kr kl kk) in *. cbn [root_ptr l k]. fold l k. apply wp_bind, wp_successor.
    destruct (least [] kp kx kr kl kk) as [c1 [[[q z] rz] ch]] eqn:El. 
    pose proof (least_plug kl [] kp kx kr kk) as Hp. rewrite El in Hp. cbn [plug] in Hp. fold k in Hp.
    pose proof (least_nodes _ _ _ _ _ _ _ _ _ _ El) as Hn. fold k in Hn. rewrite Hn. cbn [app first_ptr fmap list_fmap head fst].
    set (ctx1 := c1 ++ Frame RIGHT p x r l :: ctx). set (ctx2 := c1 ++ Frame RIGHT p z r l :: ctx).
    apply (wp_plug i s0 _ ctx (N p x r l k) ctx1 (N q z rz E ch)); [by unfold ctx1; rewrite plug_app, Hp|].
    apply (wp_take_out q z rz E ch ctx1 ctx2); [by left|unfold ctx1, ctx2; by destruct c1| |].
    + intros Q' HQ'. destruct (path_item c1 RIGHT p r l ctx (root_ptr ch)) as (par & lc & rc & rest & Hpath).
      apply wp_distinct. intros Hd. unfold all_cells in Hd. unfold ctx1 in Hd. rewrite (Hpath x) in Hd.
      assert (Hqp : Some q <> Some p).
      { intros [= ->]. cbn [app] in Hd. rewrite fmap_cons in Hd. apply NoDup_cons in Hd as [Hd _]. apply Hd. rewrite !fmap_app, !elem_of_app. right. right. apply list_elem_of_here. }
      rewrite bool_decide_eq_false_2 by done. apply wp_up.
      apply (wp_perm _ _ _ ((p, MkNode par lc rc (Some x.1) x.2 r) :: rest ++ cells (up_ptr ctx1) ch ++
        (q, MkNode (up_ptr ctx1) None (root_ptr ch) (Some z.1) z.2 rz) :: fr)).
      { unfold all_cells, ctx1. by rewrite (Hpath x). }
      assert (Hs : rooted i ctx2 ch s0 = rooted i ctx1 ch s0)
        by (unfold rooted, ctx1, ctx2; by rewrite (top_item c1 RIGHT p r l ctx x z)).
      assert (Hu : up_ptr ctx2 = up_ptr ctx1) by (unfold ctx1, ctx2; by destruct c1).
      rewrite Hs in HQ'. run. eexists. split; [|exact HQ'].
      unfold all_cells. rewrite Hu. unfold ctx2. rewrite (Hpath z). cbn. solve_Permutation.
    + unfold remove_at, l, k in HQ. rewrite El in HQ. exact HQ.
Qed.
End Index.
End Ops.
