(* ===== verification/TreeOrder.v ===== *)
(** * TreeOrder: sorted lists of items, and what the trees do to them

    A tree stands for the list of its items in order.  Adding, finding and removing in a red-black tree
    are insertion, search and deletion in that list, for every comparison with the laws of an order. *)

From Stdlib Require Import ZArith Lia Sorting.Sorted.
From stdpp Require Import base tactics numbers list.
From S2P Require Import Prelude RbTree TreeSpec.

(** The comparison of a tree: positive when the content comes before the third argument. *)
Class Comparison {A K : Type} (cmp : A -> A + K -> Z) : Prop := {
  cmp_refl x : cmp x (inl x) = 0;
  cmp_flip x y : Z.sgn (cmp x (inl y)) = - Z.sgn (cmp y (inl x));
  cmp_trans x y k : 0 < cmp x (inl y) -> 0 <= cmp y k -> 0 < cmp x k;
  cmp_same x y k : cmp x (inl y) = 0 -> Z.sgn (cmp x k) = Z.sgn (cmp y k)
}.

Section Lists.
Context {A K : Type} (cmp : A -> A + K -> Z).
Notation item := (A * Z)%type.

Definition sorted : list item -> Prop := StronglySorted (fun x y => 0 < cmp x.1 (inl y.1)).

(** The list with [c] in its place, and the content it takes the place of. *)
Fixpoint put (c : A) (sz : Z) (l : list item) : list item * option A :=
  match l with
  | [] => ([(c, sz)], None)
  | x :: l' =>
      let r := cmp x.1 (inl c) in
      if r =? 0 then ((c, sz) :: l', Some x.1)
      else if 0 <? r then let '(l'', old) := put c sz l' in (x :: l'', old)
      else ((c, sz) :: l, None)
  end.

Definition matches (k : A + K) (x : item) : bool := cmp x.1 k =? 0.
Definition seek (k : A + K) (l : list item) : option item := List.find (matches k) l.
Definition without (k : A + K) (l : list item) : list item := List.filter (fun x => negb (matches k x)) l.

(** The sizes of the contents together. *)
Fixpoint total (l : list item) : Z := match l with [] => 0 | x :: l' => x.2 + total l' end.

Lemma total_app l1 l2 : total (l1 ++ l2) = total l1 + total l2.
Proof. induction l1 as [|x l1 IH]; cbn; [done|]. rewrite IH. lia. Qed.

Definition absent (k : A + K) (l : list item) : bool := match seek k l with Some _ => false | None => true end.

(** ** Lists split by a key *)

Notation goes_before k := (Forall (fun x : item => 0 < cmp x.1 k)).
Notation goes_after k := (Forall (fun x : item => cmp x.1 k < 0)).

Lemma put_new c sz l1 l2 : goes_before (inl c) l1 -> goes_after (inl c) l2 -> put c sz (l1 ++ l2) = (l1 ++ (c, sz) :: l2, None).
Proof.
  induction 1 as [|x l1 Hx _ IH]; intros H2; cbn [app put].
  - destruct H2 as [|y l2 Hy _]; [done|]. cbn [put]. destruct (Z.eqb_spec (cmp y.1 (inl c)) 0), (Z.ltb_spec 0 (cmp y.1 (inl c))); lia || done.
  - rewrite (IH H2). destruct (Z.eqb_spec (cmp x.1 (inl c)) 0), (Z.ltb_spec 0 (cmp x.1 (inl c))); lia || done.
Qed.

Lemma put_old c sz l1 x l2 : goes_before (inl c) l1 -> cmp x.1 (inl c) = 0 -> put c sz (l1 ++ x :: l2) = (l1 ++ (c, sz) :: l2, Some x.1).
Proof.
  induction 1 as [|y l1 Hy _ IH]; intros H2; cbn [app put]; [by rewrite H2|].
  rewrite (IH H2). destruct (Z.eqb_spec (cmp y.1 (inl c)) 0), (Z.ltb_spec 0 (cmp y.1 (inl c))); lia || done.
Qed.

Lemma seek_before k l1 l2 : goes_before k l1 -> seek k (l1 ++ l2) = seek k l2.
Proof.
  unfold seek, matches. induction 1 as [|x l1 Hx _ IH]; [done|]. cbn. destruct (Z.eqb_spec (cmp x.1 k) 0); [lia|done].
Qed.

Lemma seek_after k l : goes_after k l -> seek k l = None.
Proof. unfold seek, matches. induction 1 as [|x l Hx _ IH]; [done|]. cbn. destruct (Z.eqb_spec (cmp x.1 k) 0); [lia|done]. Qed.

Lemma seek_at k x l : cmp x.1 k = 0 -> seek k (x :: l) = Some x.
Proof. intros Hx. unfold seek, matches. cbn. by rewrite Hx. Qed.

Lemma without_app k l1 l2 : without k (l1 ++ l2) = without k l1 ++ without k l2.
Proof. apply List.filter_app. Qed.

Lemma without_before k l : goes_before k l -> without k l = l.
Proof.
  unfold without, matches. induction 1 as [|x l Hx _ IH]; [done|]. cbn. destruct (Z.eqb_spec (cmp x.1 k) 0); [lia|]. cbn. by rewrite IH.
Qed.

Lemma without_after k l : goes_after k l -> without k l = l.
Proof.
  unfold without, matches. induction 1 as [|x l Hx _ IH]; [done|]. cbn. destruct (Z.eqb_spec (cmp x.1 k) 0); [lia|]. cbn. by rewrite IH.
Qed.

Lemma without_at k x l : cmp x.1 k = 0 -> without k (x :: l) = without k l.
Proof. intros Hx. unfold without, matches. cbn. by rewrite Hx. Qed.

Lemma without_split k l1 x l2 : goes_before k l1 -> cmp x.1 k = 0 -> goes_after k l2 -> without k (l1 ++ x :: l2) = l1 ++ l2.
Proof. intros. by rewrite without_app, without_at, without_before, without_after. Qed.

Lemma without_none k l : seek k l = None -> without k l = l.
Proof.
  unfold seek, without. induction l as [|x l IH]; [done|]. cbn. destruct (matches k x); [done|]. cbn. intros H. by rewrite IH.
Qed.

(** ** Sorted lists stay sorted *)

Lemma sorted_app l1 l2 :
  sorted (l1 ++ l2) <-> sorted l1 /\ sorted l2 /\ Forall (fun x => Forall (fun y => 0 < cmp x.1 (inl y.1)) l2) l1.
Proof.
  unfold sorted. induction l1 as [|x l1 IH]; cbn [app].
  - split; [intros H; split; [constructor|by split; [|constructor]]|by intros (_ & H & _)].
  - split.
    + intros [H1 H2]%StronglySorted_inv. apply IH in H1 as (H1 & H3 & H4). apply Forall_app in H2 as [H2 H5].
      split; [by constructor|]. split; [done|by constructor].
    + intros ([H1 H2]%StronglySorted_inv & H3 & [H4 H5]%Forall_cons). constructor; [by apply IH|by apply Forall_app].
Qed.

Lemma sorted_without k l : sorted l -> sorted (without k l).
Proof.
  unfold sorted, without. induction 1 as [|x l H IH Hx]; cbn; [constructor|]. destruct (matches k x); [done|].
  constructor; [done|]. apply Forall_forall. intros y Hy. apply list_elem_of_In, List.filter_In in Hy as [Hy _].
  rewrite Forall_forall in Hx. by apply Hx, list_elem_of_In.
Qed.

Section Laws.
Context `{!Comparison cmp}.

Lemma cmp_neg x y : cmp x (inl y) < 0 <-> 0 < cmp y (inl x).
Proof. pose proof (cmp_flip x y). lia. Qed.

Lemma sorted_falls k l : sorted l -> falls (fun x => cmp x.1 k) l.
Proof.
  unfold sorted, falls. induction 1 as [|x l H IH Hx]; constructor; [done|]. eapply Forall_impl; [exact Hx|].
  intros y Hy Hk. eapply cmp_trans; [exact Hy|exact Hk].
Qed.

Lemma sorted_put_new c sz l1 l2 :
  sorted (l1 ++ l2) -> goes_before (inl c) l1 -> goes_after (inl c) l2 -> sorted (l1 ++ (c, sz) :: l2).
Proof.
  rewrite !sorted_app. intros (H1 & H2 & H3) Hb Ha. split; [done|]. split.
  - constructor; [done|]. eapply Forall_impl; [exact Ha|]. intros y Hy. cbn. by apply cmp_neg.
  - rewrite Forall_forall in H3, Hb |- *. intros x Hx. constructor; [by apply Hb|by apply H3].
Qed.

Lemma sorted_put_old c sz l1 x l2 : sorted (l1 ++ x :: l2) -> cmp x.1 (inl c) = 0 -> sorted (l1 ++ (c, sz) :: l2).
Proof.
  rewrite !sorted_app. intros (H1 & [H2 Hx]%StronglySorted_inv & H3) E. split; [done|].
  assert (Hs : forall k, Z.sgn (cmp x.1 k) = Z.sgn (cmp c k)) by (intros k; by apply cmp_same). split.
  - constructor; [done|]. eapply Forall_impl; [exact Hx|]. intros y Hy. cbn in Hy |- *. specialize (Hs (inl y.1)). lia.
  - eapply Forall_impl; [exact H3|]. intros y [Hy Hl]%Forall_cons. constructor; [|done]. cbn.
    eapply cmp_trans; [exact Hy|]. lia.
Qed.
End Laws.
End Lists.

(** ** The trees *)

Section Zippers.
Context {X : Type}.
Notation rb := (rb (X:=X)).

Lemma before_app (c1 c2 : list (frame (X:=X))) : before (c1 ++ c2) = before c2 ++ before c1.
Proof. induction c1 as [|[d p x r s] c1 IH]; cbn; [by rewrite app_nil_r|]. by rewrite IH, app_assoc. Qed.

Lemma after_app (c1 c2 : list (frame (X:=X))) : after (c1 ++ c2) = after c1 ++ after c2.
Proof. induction c1 as [|[d p x r s] c1 IH]; cbn; [done|]. by rewrite IH, app_assoc. Qed.

(** A place in the walk is a place in the tree. *)
Lemma nodes_zipper a x (t : rb) : forall l1 l2, nodes_of t = l1 ++ (a, x) :: l2 ->
  exists ctx red l r, plug ctx (N a x red l r) = t /\ l1 = before ctx ++ nodes_of l /\ l2 = nodes_of r ++ after ctx.
Proof.
  induction t as [|p y red l IHl r IHr]; intros l1 l2 H; cbn in H; [by destruct l1|].
  apply app_eq_app in H as (m & [[H1 H2]|[H1 H2]]); (destruct m as [|[a' x'] m]; injection H2 as <- <- H2).
  1, 3: exists [], red, l, r; rewrite app_nil_r in H1; cbn; by rewrite app_nil_r.
  - destruct (IHl _ _ H1) as (ctx & red' & l' & r' & <- & -> & ->). exists (ctx ++ [Frame LEFT p y red r]), red', l', r'.
    rewrite plug_app, before_app, after_app, H2. cbn. by rewrite app_nil_r, <- app_assoc.
  - destruct (IHr _ _ H2) as (ctx & red' & l' & r' & <- & -> & ->). exists (ctx ++ [Frame RIGHT p y red l]), red', l', r'.
    rewrite plug_app, before_app, after_app, H1. cbn. by rewrite app_nil_r, <- !app_assoc.
Qed.
End Zippers.

Section Trees.
Context {A K : Type} (cmp : A -> A + K -> Z) `{!Comparison cmp}.
Notation rb := (rb (X:=A * Z)).

(** The two sides of the place that [locate] finds, in a sorted tree. *)
Lemma locate_sorted k (t : rb) : sorted cmp (items_of t) ->
  let '(ctx, u) := locate (fun x => cmp x.1 k) [] t in
  items_of t = (before ctx).*2 ++ items_of u ++ (after ctx).*2 /\
  match u with
  | E => Forall (fun x => 0 < cmp x.1 k) (before ctx).*2 /\ Forall (fun x => cmp x.1 k < 0) (after ctx).*2
  | N p x red l r =>
      cmp x.1 k = 0 /\
      Forall (fun x => 0 < cmp x.1 k) ((before ctx).*2 ++ items_of l) /\ Forall (fun x => cmp x.1 k < 0) (items_of r ++ (after ctx).*2)
  end.
Proof.
  intros Hs. pose proof (locate_sides (fun x => cmp x.1 k) t []) as Hl. pose proof (locate_found (fun x => cmp x.1 k) t []) as Hf.
  pose proof (locate_plug (fun x => cmp x.1 k) t []) as Hp. destruct (locate _ [] t) as [ctx u]. cbn [fst snd plug] in *.
  split; [by rewrite <- Hp; unfold items_of; rewrite nodes_plug, !fmap_app|].
  specialize (Hl (sorted_falls cmp k _ Hs)). destruct u; [by apply Hl|]. split; [done|]. by apply Hl.
Qed.

Lemma items_N p (x : A * Z) red l r : items_of (N p x red l r) = items_of l ++ x :: items_of r.
Proof. unfold items_of. cbn. by rewrite fmap_app. Qed.

Lemma items_middle b p (x : A * Z) red l r a :
  b ++ items_of (N p x red l r) ++ a = (b ++ items_of l) ++ x :: (items_of r ++ a).
Proof. rewrite items_N. by rewrite <- !app_assoc. Qed.

Lemma items_plug ctx (t : rb) : items_of (plug ctx t) = (before ctx).*2 ++ items_of t ++ (after ctx).*2.
Proof. unfold items_of. by rewrite nodes_plug, !fmap_app. Qed.

Lemma items_add ctx (t : rb) : items_of (paint false (fix_add ctx t)) = (before ctx).*2 ++ items_of t ++ (after ctx).*2.
Proof. unfold items_of. by rewrite nodes_paint, nodes_fix_add, nodes_plug, !fmap_app. Qed.

(** What [TreeAddByIndex] does is insertion. *)
Lemma items_added c sz a (t : rb) : sorted cmp (items_of t) ->
  let '(t', rc, n, dsz) := added cmp c sz a t in
  put cmp c sz (items_of t) = (items_of t', rc) /\ sorted cmp (items_of t') /\
  Z.of_nat (length (items_of t')) = Z.of_nat (length (items_of t)) + n /\
  total (items_of t') = total (items_of t) + dsz.
Proof.
  intros Hs. pose proof (locate_sorted (inl c) t Hs) as Hl. unfold added.
  destruct (locate _ [] t) as [ctx [|p x red l r]]; destruct Hl as [Hi Hl]; rewrite Hi in Hs |- *; rewrite items_add.
  - destruct Hl as [Hb Ha]. cbn [items_of nodes_of fmap list_fmap app] in *. split; [by apply put_new|]. split; [by apply sorted_put_new|].
    rewrite !length_app, !total_app. cbn. lia.
  - destruct Hl as (Hx & Hb & Ha). rewrite !items_middle in *.
    split; [by apply put_old|]. split; [by eapply sorted_put_old|]. rewrite !length_app, !total_app. cbn. lia.
Qed.

(** A new content keeps the tree balanced. *)
Lemma added_red_black c sz a (t : rb) : sorted cmp (items_of t) -> absent cmp (inl c) (items_of t) = true ->
  red_black t -> red_black (added cmp c sz a t).1.1.1.
Proof.
  intros Hs Hab Hrb. pose proof (locate_sorted (inl c) t Hs) as Hl. pose proof (locate_plug (fun x => cmp x.1 (inl c)) t []) as Hp.
  unfold added. destruct (locate _ [] t) as [ctx [|p x red l r]]; destruct Hl as [Hi Hl]; cbn [fst snd plug] in *.
  - apply add_red_black. by rewrite Hp.
  - destruct Hl as (Hx & Hb & Ha). unfold absent in Hab. by rewrite Hi, items_middle, seek_before, seek_at in Hab by done.
Qed.

(** The tree after the removal of the node with the key [k], and its item. *)
Definition taken (k : A + K) (t : rb) : rb * option (A * Z) :=
  match locate (fun x => cmp x.1 k) [] t with
  | (ctx, E) => (t, None)
  | (ctx, N p x red l r) => (remove_at ctx p x red l r, Some x)
  end.

(** What removal does is deletion. *)
Lemma items_taken k (t : rb) : sorted cmp (items_of t) ->
  let '(t', rc) := taken k t in
  seek cmp k (items_of t) = rc /\ items_of t' = without cmp k (items_of t) /\
  Z.of_nat (length (items_of t')) = Z.of_nat (length (items_of t)) - (if rc then 1 else 0) /\
  total (items_of t') = total (items_of t) - match rc with Some x => x.2 | None => 0 end.
Proof.
  intros Hs. pose proof (locate_sorted k t Hs) as Hl. unfold taken.
  destruct (locate _ [] t) as [ctx [|p x red l r]]; destruct Hl as [Hi Hl].
  - destruct Hl as [Hb Ha]. rewrite Hi. cbn [items_of nodes_of fmap list_fmap app].
    rewrite seek_before, seek_after, without_app, without_before, without_after by done. split; [done|]. split; [done|]. lia.
  - destruct Hl as (Hx & Hb & Ha). rewrite items_remove_at, Hi, items_middle, (app_assoc (before ctx).*2).
    rewrite seek_before, seek_at, without_split by done.
    rewrite !length_app, !total_app. cbn. rewrite ?length_app, ?total_app. split; [done|]. split; [done|]. lia.
Qed.

Lemma taken_red_black k (t : rb) : red_black t -> red_black (taken k t).1.
Proof.
  intros Hrb. pose proof (locate_plug (fun x => cmp x.1 k) t []) as Hp. unfold taken.
  destruct (locate _ [] t) as [ctx [|p x red l r]]; cbn [fst snd plug] in *; [done|]. apply remove_red_black. by rewrite Hp.
Qed.

(** The same for the node in the hole. *)
Lemma items_removed ctx p x red l r : sorted cmp (items_of (plug ctx (N p x red l r))) ->
  let t' := remove_at ctx p x red l r in
  items_of t' = without cmp (inl x.1) (items_of (plug ctx (N p x red l r))) /\
  Z.of_nat (length (items_of t')) = Z.of_nat (length (items_of (plug ctx (N p x red l r)))) - 1 /\
  total (items_of t') = total (items_of (plug ctx (N p x red l r))) - x.2.
Proof.
  intros Hs. pose proof (sorted_falls cmp (inl x.1) _ Hs) as Hf. rewrite items_plug, items_middle in *.
  apply falls_split in Hf as [Hb Ha]. assert (Hx : cmp x.1 (inl x.1) = 0) by apply cmp_refl.
  specialize (Hb ltac:(cbn; lia)). specialize (Ha ltac:(cbn; lia)).
  cbn zeta. rewrite items_remove_at, (app_assoc (before ctx).*2), without_split by done.
  rewrite !length_app, !total_app. cbn. rewrite ?length_app, ?total_app. split; [done|]. lia.
Qed.

(** A key and the content it finds remove the same. *)
Lemma seek_without k l x : sorted cmp l -> seek cmp k l = Some x -> without cmp k l = without cmp (inl x.1) l.
Proof.
  intros Hs Hk. unfold seek in Hk. apply List.find_some in Hk as [Hin Hm]. apply list_elem_of_In, list_elem_of_split in Hin as (l1 & l2 & ->).
  unfold matches in Hm. apply Z.eqb_eq in Hm. pose proof (cmp_refl x.1) as Hx.
  pose proof (sorted_falls cmp k _ Hs) as H1. pose proof (sorted_falls cmp (inl x.1) _ Hs) as H2.
  apply falls_split in H1 as [B1 A1]. apply falls_split in H2 as [B2 A2].
  specialize (B1 ltac:(cbn; lia)). specialize (A1 ltac:(cbn; lia)). specialize (B2 ltac:(cbn; lia)). specialize (A2 ltac:(cbn; lia)).
  by rewrite (without_split cmp k), (without_split cmp (inl x.1)).
Qed.

(** A content found is found again as itself. *)
Lemma seek_same k l x : sorted cmp l -> seek cmp k l = Some x -> seek cmp (inl x.1) l = Some x.
Proof.
  intros Hs Hk. unfold seek in Hk. apply List.find_some in Hk as [Hin _]. apply list_elem_of_In, list_elem_of_split in Hin as (l1 & l2 & ->).
  pose proof (cmp_refl x.1) as Hx. pose proof (sorted_falls cmp (inl x.1) _ Hs) as H. apply falls_split in H as [B _].
  specialize (B ltac:(cbn; lia)). by rewrite seek_before, seek_at.
Qed.

Lemma without_perm l x : sorted cmp l -> x ∈ l -> l ≡ₚ x :: without cmp (inl x.1) l.
Proof.
  intros Hs (l1 & l2 & ->)%list_elem_of_split. pose proof (sorted_falls cmp (inl x.1) _ Hs) as Hf. pose proof (cmp_refl x.1) as Hx.
  apply falls_split in Hf as [B F]. specialize (B ltac:(cbn; lia)). specialize (F ltac:(cbn; lia)).
  rewrite without_split by done. by rewrite Permutation_middle.
Qed.

(** The search finds the first match, and its node. *)
Lemma locate_seek k (t : rb) : sorted cmp (items_of t) ->
  match (locate (fun x => cmp x.1 k) [] t).2 with
  | E => seek cmp k (items_of t) = None
  | N p x _ _ _ => seek cmp k (items_of t) = Some x /\ (p, x) ∈ nodes_of t
  end.
Proof.
  intros Hs. pose proof (items_taken k t Hs) as H. unfold taken in H. pose proof (locate_plug (fun x => cmp x.1 k) t []) as Hp.
  destruct (locate _ [] t) as [ctx [|p x red l r]]; cbn [snd] in *; destruct H as [-> _]; [done|]. split; [done|].
  cbn [plug] in Hp. rewrite <- Hp. cbn. rewrite nodes_plug. cbn. rewrite !elem_of_app, elem_of_cons. auto.
Qed.
End Trees.

