(* ===== verification/TreeRefine.v ===== *)
(** * TreeRefine: the trees of Tree.c implement sorted lists

    A [Tree] with one or two indexes, each a tree of nodes, all in one memory; every operation on it is
    the operation on the sorted list of each index. *)

From Stdlib Require Import ZArith Lia Sorting.Sorted.
From stdpp Require Import base tactics numbers list gmap.
From S2P Require Import Prelude RbTree Tree TreeMem TreeRep TreeSpec TreeOrder.

Section Refine.
Context {A K : Type}.
Notation Node := (Node A).
Notation Tree := (Tree A K).
Notation TM := (TM A K).
Notation cell := (nat * Node)%type.
Notation rb := (rb (X:=A * Z)).

(** ** The trees in memory *)

Definition forest (ts : list rb) : list cell := concat (cells None <$> ts).

Record tree_rep (ts : list rb) (s : Tree) : Prop := TreeRep {
  tr_roots : root <$> index s = root_ptr <$> ts;
  tr_nodes : nodes s = list_to_map (forest ts);
  tr_distinct : NoDup (forest ts).*1
}.

(** The nodes of the indexes other than [i]. *)
Definition others (i : nat) (ts : list rb) : list cell := forest (delete i ts).

Lemma forest_at i ts t : ts !! i = Some t -> forest ts ≡ₚ all_cells [] t (others i ts).
Proof.
  intros H. unfold others, forest, all_cells. cbn. rewrite (delete_Permutation ts i t H) at 1. done.
Qed.

Lemma others_insert i ts t : others i (<[i:=t]> ts) = others i ts.
Proof. unfold others. f_equal. revert i. induction ts as [|u ts IH]; intros [|i]; cbn; [done..|]. by rewrite IH. Qed.

Lemma rep_holding i ts t (s : Tree) : tree_rep ts s -> ts !! i = Some t ->
  NoDup (all_cells [] t (others i ts)).*1 /\ s = holding (all_cells [] t (others i ts)) (rooted i [] t s).
Proof.
  intros [Hr Hn Hd] Ht. rewrite (forest_at i ts t Ht) in Hd. split; [done|].
  assert (Hi : exists x, index s !! i = Some x /\ root x = root_ptr t).
  { assert (E : (root <$> index s) !! i = Some (root_ptr t)) by (rewrite Hr, list_lookup_fmap, Ht; done).
    rewrite list_lookup_fmap in E. destruct (index s !! i) as [x|]; [|done]. exists x. split; [done|]. by injection E. }
  destruct Hi as (x & Hx & Ex). unfold rooted. cbn [top_ptr]. rewrite <- Ex, (root_at_id i x s Hx).
  unfold holding. rewrite <- (list_to_map_proper (forest ts)).
  - rewrite <- Hn. by destruct s.
  - by rewrite (forest_at i ts t Ht).
  - by apply forest_at.
Qed.

(** An operation on the index [i]. *)
Lemma enter {B} i ts t (s : Tree) (m : TM B) Q :
  tree_rep ts s -> ts !! i = Some t -> wp m (all_cells [] t (others i ts)) (rooted i [] t s) Q ->
  exists b cs s1, m s = Ret (b, holding cs s1) /\ NoDup cs.*1 /\ Q b cs s1.
Proof. intros Hr Ht Hm. destruct (rep_holding i ts t s Hr Ht) as [Hd Hs]. rewrite Hs. by apply Hm. Qed.

Lemma leave i ts t t' (s s1 : Tree) cs :
  tree_rep ts s -> ts !! i = Some t -> index s1 = index s -> cs ≡ₚ all_cells [] t' (others i ts) -> NoDup cs.*1 ->
  tree_rep (<[i:=t']> ts) (holding cs (rooted i [] t' s1)).
Proof.
  intros [Hr Hn Hd] Ht Hi Hp Hc. assert (Hp' : cs ≡ₚ forest (<[i:=t']> ts)).
  { rewrite (forest_at i (<[i:=t']> ts) t'), others_insert; [done|]. apply list_lookup_insert_eq. by eapply lookup_lt_Some. }
  split.
  - cbn. unfold rooted, root_at. cbn [top_ptr]. rewrite Hi. assert (Hl : is_Some (index s !! i)).
    { apply lookup_lt_is_Some. rewrite <- (length_fmap root), Hr, length_fmap. by eapply lookup_lt_Some. }
    destruct Hl as [x Hx]. rewrite Hx. cbn. by rewrite !list_fmap_insert, Hr.
  - cbn. by apply list_to_map_proper.
  - by rewrite <- Hp'.
Qed.

(** ** The lists *)

Notation item := (A * Z)%type.
Notation row := ((A -> A + K -> Z) * list item)%type.

(** [rows] are the orders and the lists of the indexes; when [tidy], no content has been added again, and
    all the trees are red-black trees. *)
Record keeps_rows (tidy : bool) (rows : list row) (ts : list rb) (s : Tree) : Prop := KeepsRows {
  kr_rep : tree_rep ts s;
  kr_items : rows.*2 = items_of <$> ts;
  kr_balanced : tidy = true -> Forall red_black ts;
  kr_orders : rows.*1 = compare <$> index s;
  kr_sorted : Forall (fun r => Comparison r.1 /\ sorted r.1 r.2) rows;
  kr_count : exists r, rows !! 0%nat = Some r /\ count s = Z.of_nat (length r.2) /\ t_size s = s32 (total r.2);
  kr_room : (length rows <= 2)%nat;
  kr_single : allow_duplicates s = false
}.

(** The list at [i] is now [l]. *)
Definition set_row (i : nat) (l : list item) (rows : list row) : list row :=
  alter (fun r => (r.1, l)) i rows.

Lemma set_row_fst i l rows : (set_row i l rows).*1 = rows.*1.
Proof. unfold set_row. revert i. induction rows as [|r rows IH]; intros [|i]; cbn; [done..|]. by rewrite IH. Qed.

Lemma set_row_snd i l rows : (set_row i l rows).*2 = <[i:=l]> rows.*2.
Proof. unfold set_row. revert i. induction rows as [|r rows IH]; intros [|i]; cbn; [done..|]. by rewrite IH. Qed.

Lemma set_row_id i r rows : rows !! i = Some r -> set_row i r.2 rows = rows.
Proof.
  unfold set_row. revert i. induction rows as [|q rows IH]; intros [|i] H; cbn in *; [done|done| |].
  - injection H as ->. by destruct r.
  - by rewrite IH.
Qed.

Lemma row_at tidy rows ts s i r : keeps_rows tidy rows ts s -> rows !! i = Some r ->
  exists t ix, ts !! i = Some t /\ index s !! i = Some ix /\ compare ix = r.1 /\ items_of t = r.2 /\
    Comparison r.1 /\ sorted r.1 r.2.
Proof.
  intros [Hr Hi Hb Ho Hs _ _ _] E.
  assert (E1 : rows.*1 !! i = Some r.1) by (by rewrite list_lookup_fmap, E).
  assert (E2 : rows.*2 !! i = Some r.2) by (by rewrite list_lookup_fmap, E).
  rewrite Ho, list_lookup_fmap in E1. rewrite Hi, list_lookup_fmap in E2.
  destruct (index s !! i) as [ix|]; [|done]. destruct (ts !! i) as [t|]; [|done]. exists t, ix.
  rewrite Forall_lookup in Hs. destruct (Hs _ _ E). cbn in E1, E2. injection E1 as E1. injection E2 as E2. auto 10.
Qed.

Lemma s32_add x y : s32 (s32 x + y) = s32 (x + y).
Proof.
  unfold s32. replace ((x + 2 ^ 31) mod 2 ^ 32 - 2 ^ 31 + y + 2 ^ 31) with ((x + 2 ^ 31) mod 2 ^ 32 + y) by lia.
  rewrite Zplus_mod_idemp_l. do 2 f_equal. lia.
Qed.

Lemma count_rooted i t (s : Tree) : count (rooted i [] t s) = count s.
Proof. unfold rooted, root_at. by destruct (index s !! i). Qed.

Lemma size_rooted i t (s : Tree) : t_size (rooted i [] t s) = t_size s.
Proof. unfold rooted, root_at. by destruct (index s !! i). Qed.

(** After an operation on the index [i] that leaves the list [l] there. *)
Lemma row_done tidy tidy' rows ts (s s1 : Tree) i r t t' n dsz cs :
  keeps_rows tidy rows ts s -> rows !! i = Some r -> ts !! i = Some t ->
  (tidy' = true -> Forall red_black ts /\ red_black t') ->
  cs ≡ₚ all_cells [] t' (others i ts) -> NoDup cs.*1 -> sorted r.1 (items_of t') ->
  Z.of_nat (length (items_of t')) = Z.of_nat (length r.2) + n -> total (items_of t') = total r.2 + dsz ->
  s1 = rooted i [] t' (resized i n dsz s) ->
  keeps_rows tidy' (set_row i (items_of t') rows) (<[i:=t']> ts) (holding cs s1).
Proof.
  intros Hk Er Et Hb Hp Hd Hs Hn Hsz ->. destruct Hk as [Hrep Hi _ Ho Hss (r0 & E0 & Hc & Hz) Hm Ha].
  assert (Eindex : compare <$> index (rooted i [] t' (resized i n dsz s)) = compare <$> index s).
  { unfold rooted, root_at. rewrite index_resized. destruct (index s !! i) as [x|] eqn:Ex; [|by rewrite index_resized].
    cbn. rewrite list_fmap_insert. cbn. apply list_insert_id. by rewrite list_lookup_fmap, Ex. }
  split.
  - eapply leave; [done..|by rewrite index_resized|done|done].
  - by rewrite set_row_snd, Hi, list_fmap_insert.
  - intros Ht. destruct (Hb Ht) as [H1 H2]. by apply Forall_insert.
  - by rewrite set_row_fst, Ho, <- Eindex.
  - unfold set_row. apply Forall_alter; [done|]. intros q Hq [H1 H2]. rewrite Er in Hq. injection Hq as <-. by split.
  - destruct i as [|i].
    + rewrite Er in E0. injection E0 as <-. eexists. split; [unfold set_row; by rewrite list_lookup_alter, Er|].
      unfold holding. cbn [count t_size set_nodes fst snd]. rewrite count_rooted, size_rooted. unfold resized. rewrite bool_decide_eq_true_2 by done. cbn. rewrite Hc, Hz, Hn, Hsz. by rewrite s32_add.
    + exists r0. split; [unfold set_row; by rewrite list_lookup_alter_ne|]. cbn. by rewrite count_rooted, size_rooted.
  - unfold set_row. by rewrite length_alter.
  - cbn. rewrite duplicates_rooted. unfold resized. by case_bool_decide.
Qed.

(** ** Each operation on one index *)

Lemma TreeAddByIndex_spec tidy rows ts s i r c sz : keeps_rows tidy rows ts s -> rows !! i = Some r ->
  exists s' ts', TreeAddByIndex c sz i s = Ret ((put r.1 c sz r.2).2, s') /\
    keeps_rows (tidy && absent r.1 (inl c) r.2) (set_row i (put r.1 c sz r.2).1 rows) ts' s'.
Proof.
  intros Hk Er. destruct (row_at _ _ _ _ _ _ Hk Er) as (t & ix & Et & Eix & Ec & Ei & Hc & Hs).
  destruct (enter i ts t s (TreeAddByIndex c sz i) (fun rc cs s1 => exists a,
      let '(t', rc', n, dsz) := added r.1 c sz a t in
      rc = rc' /\ cs = all_cells [] t' (others i ts) /\ s1 = rooted i [] t' (resized i n dsz s))) as (rc & cs & s1 & E & Hd & a & H); [apply Hk|done| |].
  { apply (wp_TreeAddByIndex i ix s Eix); [apply Hk|]. intros a _. rewrite Ec. destruct (added r.1 c sz a t) as [[[t' rc] n] dsz] eqn:Ea.
    exists a. by rewrite Ea. }
  rewrite <- Ei in Hs. pose proof (items_added r.1 c sz a t Hs) as Hit. pose proof (added_red_black r.1 c sz a t Hs) as Hrb.
  rewrite Ei in Hit, Hrb. destruct (added r.1 c sz a t) as [[[t' rc'] n] dsz]. destruct H as (-> & Hcs & ->).
  destruct Hit as (-> & Hs' & Hn & Hsz). exists (holding cs (rooted i [] t' (resized i n dsz s))), (<[i:=t']> ts). split; [done|].
  eapply row_done; [done..| |by rewrite Hcs|done|done|done|done|done].
  intros [Ht Hab]%andb_true_iff. assert (Hall : Forall red_black ts) by by apply Hk. split; [done|]. apply Hrb; [done|].
  rewrite Forall_lookup in Hall. by eapply Hall.
Qed.

Lemma TreeFindIndex1_spec tidy rows ts s i r k : keeps_rows tidy rows ts s -> rows !! i = Some r ->
  exists p, TreeFindIndex1 k i s = Ret (p, s) /\
    match p with
    | None => seek r.1 k r.2 = None
    | Some a => exists x t, seek r.1 k r.2 = Some x /\ ts !! i = Some t /\ (a, x) ∈ nodes_of t
    end.
Proof.
  intros Hk Er. destruct (row_at _ _ _ _ _ _ Hk Er) as (t & ix & Et & Eix & Ec & Ei & Hc & Hs).
  destruct (rep_holding i ts t s (kr_rep _ _ _ _ Hk) Et) as [_ Eh].
  destruct (enter i ts t s (TreeFindIndex1 k i) (fun p cs s1 => cs = all_cells [] t (others i ts) /\ s1 = rooted i [] t s /\
      p = root_ptr (locate (fun x => r.1 x.1 k) [] t).2)) as (p & cs & s1 & E & _ & -> & -> & ->); [apply Hk|done| |].
  { apply wp_up. pose proof (wp_TreeFindIndex1 i ix s Eix k t (others i ts)) as H. rewrite Ec in H.
    destruct (locate (fun x => r.1 x.1 k) [] t) as [ctx u]. apply H. by eexists. }
  rewrite <- Eh in E. eexists. split; [exact E|]. rewrite <- Ei in Hs. pose proof (locate_seek r.1 k t Hs) as Hl. rewrite Ei in Hl.
  destruct (locate _ [] t).2 as [|a x red l k']; cbn; [done|]. exists x, t. by destruct Hl.
Qed.

(** The node [a] of the index [i] has the item [x]. *)
Definition node_at (i a : nat) (x : item) (ts : list rb) : Prop := exists t, ts !! i = Some t /\ (a, x) ∈ nodes_of t.

Lemma TreeRemoveNodeIndex_spec tidy rows ts s i r a x : keeps_rows tidy rows ts s -> rows !! i = Some r -> node_at i a x ts ->
  exists s' ts', TreeRemoveNodeIndex (Some a) i s = Ret (Some x.1, s') /\
    keeps_rows tidy (set_row i (without r.1 (inl x.1) r.2) rows) ts' s'.
Proof.
  intros Hk Er (t' & Et' & Hin). destruct (row_at _ _ _ _ _ _ Hk Er) as (t & ix & Et & Eix & Ec & Ei & Hc & Hs).
  rewrite Et in Et'. injection Et' as <-. apply list_elem_of_split in Hin as (l1 & l2 & Hn).
  destruct (nodes_zipper a x t l1 l2 Hn) as (ctx & red & l & k & Hp & _).
  set (t' := remove_at ctx a x red l k). set (s1 := resized i (-1) (- x.2) s).
  destruct (enter i ts t s (TreeRemoveNodeIndex (Some a) i) (fun rc cs s2 => rc = Some x.1 /\
      cs = all_cells [] t' (others i ts) /\ s2 = rooted i [] t' s1)) as (rc & cs & s2 & E & Hd & -> & Hcs & ->); [apply Hk|done| |].
  { apply (wp_plug i s _ [] t ctx (N a x red l k)); [done|]. by apply (wp_TreeRemoveNodeIndex i ix s Eix). }
  rewrite <- Ei, <- Hp in Hs. pose proof (items_removed r.1 ctx a x red l k Hs) as (H1 & H2 & H3). fold t' in H1, H2, H3.
  rewrite Hp, Ei in H1, H2, H3. eexists _, (<[i:=t']> ts). split; [exact E|]. rewrite <- H1.
  eapply row_done; [done..| |by rewrite Hcs|done| |exact H2|exact H3|done].
  - intros Ht. assert (Hall : Forall red_black ts) by by apply Hk. split; [done|]. apply remove_red_black. rewrite Hp.
    rewrite Forall_lookup in Hall. by eapply Hall.
  - rewrite H1. apply sorted_without. by rewrite Hp, Ei in Hs.
Qed.

Lemma at_plug i (s : Tree) ctx u t fr (P : Prop) : plug ctx u = t -> P ->
  exists cs, all_cells ctx u fr ≡ₚ cs /\ P /\ cs = all_cells [] t fr /\ rooted i ctx u s = rooted i [] t s.
Proof. intros <- HP. eexists. split; [apply all_cells_plug|]. split; [done|]. split; [done|]. apply rooted_plug. Qed.

(** The successor of a node in the walk. *)
Lemma TreeNextElementIndex_spec tidy rows ts s i t l1 a x l2 : keeps_rows tidy rows ts s -> ts !! i = Some t ->
  nodes_of t = l1 ++ (a, x) :: l2 -> TreeNextElementIndex (Some a) i s = Ret (first_ptr l2, s).
Proof.
  intros Hk Et Hn. destruct (rep_holding i ts t s (kr_rep _ _ _ _ Hk) Et) as [_ Eh].
  destruct (nodes_zipper a x t l1 l2 Hn) as (ctx & red & l & k & Hp & _ & ->).
  destruct (enter i ts t s (TreeNextElementIndex (Some a) i) (fun p cs s1 => p = first_ptr (nodes_of k ++ after ctx) /\
    cs = all_cells [] t (others i ts) /\ s1 = rooted i [] t s)) as (p & cs & s1 & E & _ & -> & -> & ->); [apply Hk|done| |by rewrite <- Eh in E].
  apply wp_up. apply (wp_plug i s _ [] t ctx (N a x red l k)); [done|]. cbn [TreeNextElementIndex]. apply wp_successor.
  by apply at_plug.
Qed.

Lemma index_at tidy rows ts s i t : keeps_rows tidy rows ts s -> ts !! i = Some t -> exists ix, index s !! i = Some ix.
Proof.
  intros Hk Et. apply lookup_lt_is_Some.
  rewrite <- (length_fmap root), (tr_roots _ _ (kr_rep _ _ _ _ Hk)), length_fmap. by eapply lookup_lt_Some.
Qed.

Lemma TreeNextElementIndex_first tidy rows ts s i t : keeps_rows tidy rows ts s -> ts !! i = Some t ->
  TreeNextElementIndex None i s = Ret (first_ptr (nodes_of t), s).
Proof.
  intros Hk Et. destruct (rep_holding i ts t s (kr_rep _ _ _ _ Hk) Et) as [_ Eh].
  destruct (index_at _ _ _ _ _ _ Hk Et) as [ix Eix].
  destruct (enter i ts t s (TreeNextElementIndex None i) (fun p cs s1 => p = first_ptr (nodes_of t) /\
    cs = all_cells [] t (others i ts) /\ s1 = rooted i [] t s)) as (p & cs & s1 & E & _ & -> & -> & ->); [apply Hk|done| |by rewrite <- Eh in E].
  cbn [TreeNextElementIndex]. apply wp_bind, (wp_get_rooted i ix s Eix), wp_minimum. done.
Qed.

(** The fields of a node. *)
Lemma node_fields tidy rows ts s i a x : keeps_rows tidy rows ts s -> node_at i a x ts ->
  exists n, load (Some a) s = Ret (n, s) /\ content n = Some x.1 /\ size n = x.2.
Proof.
  intros Hk (t & Et & Hin). apply list_elem_of_split in Hin as (l1 & l2 & Hn).
  destruct (nodes_zipper a x t l1 l2 Hn) as (ctx & red & l & k & Hp & _). destruct (rep_holding i ts t s (kr_rep _ _ _ _ Hk) Et) as [_ Eh].
  destruct (enter i ts t s (load (Some a)) (fun n cs s1 => (content n = Some x.1 /\ size n = x.2) /\
    cs = all_cells [] t (others i ts) /\ s1 = rooted i [] t s)) as (n & cs & s1 & E & _ & Hx & -> & ->); [apply Hk|done| |].
  - apply wp_up. apply (wp_plug i s _ [] t ctx (N a x red l k)); [done|]. unfold all_cells at 1. cbn [root_ptr cells app].
    eapply wp_load; [apply _|]. by apply (at_plug i s ctx (N a x red l k)).
  - rewrite <- Eh in E. by exists n.
Qed.

(** ** The depth *)

Lemma wp_TreeWalk fuel : forall par t cs rest depth (s : Tree) Q, Pull (cells par t) cs rest -> (tree_size t <= fuel)%nat ->
  Q (depth + Z.of_nat (tree_depth t)) cs s -> wp (TreeWalk fuel (root_ptr t) depth) cs s Q.
Proof.
  induction fuel as [|fuel IH]; intros par [|p x r l k] cs rest depth s Q Hp Hf HQ; cbn in Hf; try lia.
  1, 2: cbn in HQ |- *; apply wp_ret; by rewrite Z.add_0_r in HQ.
  cbn [root_ptr TreeWalk]. assert (Hp' := Hp). cbn [cells] in Hp'. run1.
  eapply (wp_load _ _ _ _ ((cells (Some p) l ++ cells (Some p) k) ++ rest)); [exact Hp'|]. cbn.
  run1. eapply (IH (Some p) l _ ((p, _) :: cells (Some p) k ++ rest)); [unfold Pull in *; rewrite Hp'; cbn; solve_Permutation|lia|].
  run1. eapply (IH (Some p) k _ ((p, _) :: cells (Some p) l ++ rest)); [unfold Pull in *; rewrite Hp'; cbn; solve_Permutation|lia|].
  apply wp_ret. cbn [tree_depth] in HQ.
  replace (if _ <? _ then _ else _) with (depth + Z.of_nat (S (max (tree_depth l) (tree_depth k)))); [done|].
  destruct (Z.ltb_spec (depth + 1 + Z.of_nat (tree_depth k)) (depth + 1 + Z.of_nat (tree_depth l))); lia.
Qed.

Lemma TreeMaxDepth_spec tidy rows ts s t : keeps_rows tidy rows ts s -> ts !! 0%nat = Some t ->
  TreeMaxDepth s = Ret (Z.of_nat (tree_depth t), s).
Proof.
  intros Hk Et. destruct (rep_holding 0 ts t s (kr_rep _ _ _ _ Hk) Et) as [_ Eh].
  destruct (index_at _ _ _ _ _ _ Hk Et) as [ix Eix].
  destruct (enter 0 ts t s TreeMaxDepth (fun d cs s1 => d = Z.of_nat (tree_depth t) /\
    cs = all_cells [] t (others 0 ts) /\ s1 = rooted 0 [] t s)) as (d & cs & s1 & E & _ & -> & -> & ->); [apply Hk|done| |by rewrite <- Eh in E].
  apply wp_bind, wp_fuel, wp_bind, (wp_get_rooted 0 ix s Eix). cbn [top_ptr].
  apply (wp_TreeWalk _ None t _ (others 0 ts)); [exact (reflexivity _)| |by split]. pose proof (all_cells_size [] t (others 0 ts)). lia.
Qed.
End Refine.
