(* ===== verification/TreeOps.v ===== *)
(** * TreeOps: every sequence of tree operations on sorted lists

    The calls of Tree.h in any order, from an empty tree: their results are those of the same operations
    on sorted lists, and while no content is added again the trees stay balanced. *)

From Stdlib Require Import ZArith Lia Sorting.Sorted.
From stdpp Require Import base tactics numbers list gmap.
From S2P Require Import Prelude RbTree Tree TreeMem TreeRep TreeSpec TreeOrder TreeRefine.

Section Ops.
Context {A K : Type}.
Notation Tree := (Tree A K).
Notation TM := (TM A K).
Notation item := (A * Z)%type.
Notation row := ((A -> A + K -> Z) * list item)%type.
Notation rb := (rb (X:=A * Z)).

(** ** The abstract operations, on all the rows *)

Definition put_rows (c : A) (sz : Z) (rows : list row) : list row := (fun r => (r.1, (put r.1 c sz r.2).1)) <$> rows.
Definition without_rows (k : A + K) (rows : list row) : list row := (fun r => (r.1, without r.1 k r.2)) <$> rows.
Definition all_absent (c : A) (rows : list row) : bool := forallb (fun r => absent r.1 (inl c) r.2) rows.

Definition found (k : A + K) (r : row) : option A := option_map fst (seek r.1 k r.2).

(** The result is that of the last index. *)
Definition of_last {B} (f : row -> option B) (rows : list row) : option B := last rows ≫= f.

Lemma of_last_cons {B} (f : row -> option B) r rows :
  of_last f (r :: rows) = match rows with [] => f r | _ => of_last f rows end.
Proof. by destruct rows. Qed.

Lemma set_row_middle (pre : list row) r l rest : set_row (length pre) l (pre ++ r :: rest) = pre ++ (r.1, l) :: rest.
Proof. unfold set_row. induction pre as [|q pre IH]; cbn; [done|]. by rewrite IH. Qed.

Lemma TreeAdd_loop_spec c sz rest : forall tidy pre ts s rc, keeps_rows tidy (pre ++ rest) ts s ->
  exists s' ts', TreeAdd_loop (length rest) (length pre) c sz rc s =
      Ret (match rest with [] => rc | _ => of_last (fun r => (put r.1 c sz r.2).2) rest end, s') /\
    keeps_rows (tidy && all_absent c rest) (pre ++ put_rows c sz rest) ts' s'.
Proof.
  induction rest as [|r rest IH]; intros tidy pre ts s rc Hk.
  - exists s, ts. cbn. by rewrite andb_true_r.
  - destruct (TreeAddByIndex_spec tidy _ ts s (length pre) r c sz Hk) as (s1 & ts1 & E & Hk1); [by apply list_lookup_middle|].
    rewrite set_row_middle, cons_middle, app_assoc in Hk1.
    destruct (IH _ (pre ++ [(r.1, (put r.1 c sz r.2).1)]) ts1 s1 (put r.1 c sz r.2).2 Hk1) as (s2 & ts2 & E2 & Hk2).
    exists s2, ts2. rewrite <- app_assoc, <- andb_assoc in Hk2. split; [|done].
    cbn [length TreeAdd_loop]. unfold tbind at 1. rewrite E. cbn [obind fst snd]. rewrite of_last_cons, <- E2. f_equal. rewrite length_app. cbn. lia.
Qed.

Lemma TreeRemoveIndex_spec c tidy rows ts s i r : keeps_rows tidy rows ts s -> rows !! i = Some r ->
  exists s' ts', TreeRemoveIndex c i s = Ret (found (inl c) r, s') /\
    keeps_rows tidy (set_row i (without r.1 (inl c) r.2) rows) ts' s'.
Proof.
  intros Hk Er. destruct (TreeFindIndex1_spec tidy rows ts s i r (inl c) Hk Er) as (p & E & Hp).
  destruct (row_at _ _ _ _ _ _ Hk Er) as (_ & _ & _ & _ & _ & _ & Hc & Hs).
  unfold found, TreeRemoveIndex, TreeFindContentIndex. unfold tbind at 1. rewrite E. cbn [obind fst snd]. destruct p as [a|].
  - destruct Hp as (x & t & Ex & Et & Hin). rewrite Ex, (seek_without r.1 (inl c) r.2 x Hs Ex).
    apply (TreeRemoveNodeIndex_spec tidy rows ts s i r a x Hk Er). by exists t.
  - exists s, ts. rewrite Hp. split; [done|]. by rewrite without_none, (set_row_id _ _ _ Er).
Qed.

Lemma TreeRemove_loop_spec c rest : forall tidy pre ts s rc, keeps_rows tidy (pre ++ rest) ts s ->
  exists s' ts', TreeRemove_loop (length rest) (length pre) c rc s =
      Ret (match rest with [] => rc | _ => of_last (found (inl c)) rest end, s') /\
    keeps_rows tidy (pre ++ without_rows (inl c) rest) ts' s'.
Proof.
  induction rest as [|r rest IH]; intros tidy pre ts s rc Hk; [by exists s, ts|].
  destruct (TreeRemoveIndex_spec c tidy _ ts s (length pre) r Hk) as (s1 & ts1 & E & Hk1); [by apply list_lookup_middle|].
  rewrite set_row_middle, cons_middle, app_assoc in Hk1.
  destruct (IH _ (pre ++ [(r.1, without r.1 (inl c) r.2)]) ts1 s1 (found (inl c) r) Hk1) as (s2 & ts2 & E2 & Hk2).
  exists s2, ts2. rewrite <- app_assoc in Hk2. split; [|done].
  cbn [length TreeRemove_loop]. unfold tbind at 1. rewrite E. cbn [obind fst snd]. rewrite of_last_cons, <- E2. f_equal. rewrite length_app. cbn. lia.
Qed.

(** ** The operations *)

Inductive tree_op : Type :=
| Add (c : A) (sz : Z)
| Remove (c : A)
| RemoveKey (k : K)
| Find (k : K) (i : nat)
| FindContent (c : A) (i : nat)
| Walk (i : nat)
| AddIndex (cmp : A -> A + K -> Z).

(** A node stands for its content and size. *)
Definition item_of (p : option nat) : TM (list item) :=
  match p with
  | None => tret []
  | Some _ => let+ n := load p in let+ c := tlift (deref (content n)) in tret [(c, size n)]
  end.

(** Contents, as many as there are. *)
Definition as_items (m : TM (option A)) : TM (list A) := let+ c := m in tret (option_list c).

Definition run_op (o : tree_op) : TM (list A) :=
  match o with
  | Add c sz => as_items (TreeAdd c sz)
  | Remove c => as_items (TreeRemove c)
  | RemoveKey k => as_items (TreeRemoveKey k)
  | Find k i => let+ p := TreeFindIndex k i in let+ l := item_of p in tret l.*1
  | FindContent c i => let+ p := TreeFindContentIndex c i in let+ l := item_of p in tret l.*1
  | Walk i => let+ fuel := loop_fuel in let+ l := TreeElements fuel None i in tret l.*1
  | AddIndex cmp => TreeAddIndex cmp ;+ tret []
  end.

(** The same on the rows; [tidy] says that no content has been added again. *)
Definition spec_op (o : tree_op) (b : bool) (rows : list row) : list A * (bool * list row) :=
  match o with
  | Add c sz => (option_list (of_last (fun r => (put r.1 c sz r.2).2) rows), (b && all_absent c rows, put_rows c sz rows))
  | Remove c => (option_list (of_last (found (inl c)) rows), (b, without_rows (inl c) rows))
  | RemoveKey k =>
      match rows !! 0%nat ≫= found (inr k) with
      | None => ([], (b, rows))
      | Some x => (option_list (of_last (found (inl x)) rows), (b, without_rows (inl x) rows))
      end
  | Find k i => (option_list (rows !! i ≫= found (inr k)), (b, rows))
  | FindContent c i => (option_list (rows !! i ≫= found (inl c)), (b, rows))
  | Walk i => (match rows !! i with Some r => r.2.*1 | None => [] end, (b, rows))
  | AddIndex cmp => ([], (b, rows ++ [(cmp, [])]))
  end.

(** The indexes that exist; a comparison that is an order, and at most two of them. *)
Definition ok_op (o : tree_op) (rows : list row) : Prop :=
  match o with
  | Find _ i | FindContent _ i | Walk i => (i < length rows)%nat
  | AddIndex cmp => Comparison cmp /\ (length rows < 2)%nat
  | _ => True
  end.

Lemma item_of_spec tidy rows ts s i a x : keeps_rows tidy rows ts s -> node_at i a x ts -> item_of (Some a) s = Ret ([x], s).
Proof.
  intros Hk Hn. destruct (node_fields tidy rows ts s i a x Hk Hn) as (n & E & Hc & Hs).
  unfold item_of, tbind, tlift, tret. rewrite E. cbn. rewrite Hc. cbn. rewrite Hs. by destruct x.
Qed.

Lemma find_spec key tidy rows ts s i : keeps_rows tidy rows ts s -> (i < length rows)%nat ->
  (let+ p := TreeFindIndex1 key i in let+ l := item_of p in tret l.*1) s =
    Ret (option_list (rows !! i ≫= found key), s).
Proof.
  intros Hk [r Er]%lookup_lt_is_Some. destruct (TreeFindIndex1_spec tidy rows ts s i r key Hk Er) as (p & E & Hp).
  unfold tbind at 1. rewrite E, Er. cbn [obind fst snd mbind option_bind]. unfold found. destruct p as [a|]; [|by rewrite Hp].
  destruct Hp as (x & t & -> & Et & Hin). unfold tbind. rewrite (item_of_spec tidy rows ts s i a x Hk); [done|]. by exists t.
Qed.

Lemma next_after tidy (rows : list row) (ts : list rb) (s : Tree) i (t : rb) l1 l2 : keeps_rows tidy rows ts s -> ts !! i = Some t -> nodes_of t = l1 ++ l2 ->
  TreeNextElementIndex (K:=K) (fst <$> last l1) i s = Ret (first_ptr l2, s).
Proof.
  intros Hk Et Hn. destruct (last l1) as [[b y]|] eqn:El; cbn [fmap option_fmap option_map fst].
  - apply last_Some in El as [l ->]. rewrite <- app_assoc in Hn. by eapply (TreeNextElementIndex_spec _ _ _ _ _ _ _ _ _ _ Hk Et).
  - apply last_None in El as ->. rewrite (TreeNextElementIndex_first _ _ _ _ _ _ Hk Et). by rewrite Hn.
Qed.

Lemma TreeElements_spec tidy (rows : list row) (ts : list rb) (s : Tree) i (t : rb) : keeps_rows tidy rows ts s -> ts !! i = Some t -> forall l2 fuel l1,
  nodes_of t = l1 ++ l2 -> (length l2 <= fuel)%nat -> TreeElements (K:=K) fuel (fst <$> last l1) i s = Ret (l2.*2, s).
Proof.
  intros Hk Et l2. induction l2 as [|[a x] l2 IH]; intros fuel l1 Hn Hf; pose proof (next_after _ _ _ _ _ _ _ _ Hk Et Hn) as E.
  - destruct fuel; cbn [TreeElements]; unfold tbind; by rewrite E.
  - destruct fuel as [|fuel]; [cbn in Hf; lia|]. cbn [TreeElements]. unfold tbind at 1. rewrite E. cbn [obind fst snd first_ptr fmap list_fmap head].
    destruct (node_fields tidy rows ts s i a x Hk) as (n & En & Hc & Hs).
    { exists t. split; [done|]. rewrite Hn. apply elem_of_app. right. apply list_elem_of_here. }
    unfold tbind, tlift. rewrite En. cbn [obind fst snd]. rewrite Hc. cbn [deref obind fst snd].
    assert (Hn' : nodes_of t = (l1 ++ [(a, x)]) ++ l2) by (by rewrite <- app_assoc).
    specialize (IH fuel _ Hn' ltac:(cbn in Hf; lia)). rewrite last_snoc in IH. cbn in IH. rewrite IH. cbn. rewrite Hs. by destruct x.
Qed.

Lemma length_nodes (t : rb) : length (nodes_of t) = tree_size t.
Proof. induction t as [|p x r l IHl k IHk]; [done|]. cbn. rewrite length_app. cbn. lia. Qed.

Lemma tree_walk_spec tidy rows ts s i : keeps_rows tidy rows ts s -> (i < length rows)%nat ->
  run_op (Walk i) s = Ret (match rows !! i with Some r => r.2.*1 | None => [] end, s).
Proof.
  intros Hk [r Er]%lookup_lt_is_Some. destruct (row_at _ _ _ _ _ _ Hk Er) as (t & ix & Et & _ & _ & Ei & _).
  destruct (rep_holding i ts t s (kr_rep _ _ _ _ Hk) Et) as [_ Eh].
  assert (E : loop_fuel s = Ret (S (length (all_cells [] t (others i ts))), s)).
  { destruct (enter i ts t s loop_fuel (fun n cs s1 => n = S (length (all_cells [] t (others i ts))) /\
      cs = all_cells [] t (others i ts) /\ s1 = rooted i [] t s)) as (d & cs & s1 & E & _ & -> & -> & ->);
      [apply Hk|done|by apply wp_fuel|by rewrite <- Eh in E]. }
  cbn [run_op]. unfold tbind. rewrite E, Er. cbn [obind fst snd].
  rewrite (TreeElements_spec _ _ _ _ _ _ Hk Et (nodes_of t) _ [] eq_refl).
  - cbn. by rewrite <- Ei.
  - rewrite length_nodes. pose proof (all_cells_size [] t (others i ts)). lia.
Qed.

Lemma index_length tidy (rows : list row) (ts : list rb) (s : Tree) : keeps_rows tidy rows ts s -> length (index s) = length rows.
Proof. intros Hk. by rewrite <- (length_fmap compare), <- (kr_orders _ _ _ _ Hk), length_fmap. Qed.

Lemma rows_nonempty {B} tidy (rows : list row) (ts : list rb) (s : Tree) (x y : B) :
  keeps_rows tidy rows ts s -> match rows with [] => x | _ => y end = y.
Proof. intros Hk. destruct (kr_count _ _ _ _ Hk) as (r & Er & _). by destruct rows. Qed.

Lemma remove_key_spec k tidy (rows : list row) (ts : list rb) (s : Tree) : keeps_rows tidy rows ts s ->
  let '(l, (b, rows')) := spec_op (RemoveKey k) tidy rows in
  exists s' ts', run_op (RemoveKey k) s = Ret (l, s') /\ keeps_rows b rows' ts' s'.
Proof.
  intros Hk. destruct (kr_count _ _ _ _ Hk) as (r & Er & _). cbn [spec_op]. rewrite Er. cbn [mbind option_bind].
  destruct (TreeFindIndex1_spec tidy rows ts s 0 r (inr k) Hk Er) as (p & E & Hp).
  destruct (row_at _ _ _ _ _ _ Hk Er) as (_ & _ & _ & _ & _ & _ & Hc & Hs).
  unfold run_op, as_items, TreeRemoveKey, TreeRemoveKeyIndex, TreeFindIndex, found. unfold tbind at 1 2. rewrite E. cbn [obind fst snd].
  destruct p as [a|]; [|rewrite Hp; by exists s, ts]. destruct Hp as (x & t & Ex & Et & Hin). rewrite Ex. cbn [option_map].
  destruct (TreeRemoveNodeIndex_spec tidy rows ts s 0 r a x Hk Er) as (s1 & ts1 & E1 & Hk1); [by exists t|].
  unfold tbind at 1. rewrite E1. cbn [obind fst snd]. unfold tbind at 1, tget. cbn [obind fst snd].
  assert (El : length (index s1) = length rows) by (rewrite (index_length _ _ _ _ Hk1); apply length_alter).
  rewrite El. pose proof (kr_room _ _ _ _ Hk) as Hl. pose proof (seek_same r.1 (inr k) r.2 x Hs Ex) as Hx.
  destruct rows as [|r0 [|r1 [|]]]; cbn in Er, Hl; try lia; try done; injection Er as ->.
  - exists s1, ts1. cbn. rewrite Hx. by split.
  - destruct (TreeRemoveIndex_spec x.1 tidy _ ts1 s1 1 r1 Hk1 eq_refl) as (s2 & ts2 & E2 & Hk2).
    exists s2, ts2. cbn [length TreeRemoveKey_loop]. rewrite bool_decide_eq_true_2 by done. rewrite bool_decide_eq_false_2 by done.
    unfold tbind, tlift, tret. cbn [obind fst snd deref]. rewrite E2. by split.
Qed.

Lemma add_index_spec tidy (rows : list row) (ts : list rb) (s : Tree) cmp : keeps_rows tidy rows ts s -> Comparison cmp ->
  (length rows < 2)%nat -> exists s' ts', run_op (AddIndex cmp) s = Ret ([], s') /\ keeps_rows tidy (rows ++ [(cmp, [])]) ts' s'.
Proof.
  intros Hk Hcmp Hl. pose proof (index_length _ _ _ _ Hk) as El. destruct Hk as [[Hr Hn Hd] Hi Hb Ho Hs (r & Er & Hc & Hz) Hm Ha].
  assert (Ef : forest (A:=A) (ts ++ [E]) = forest ts) by (unfold forest; by rewrite fmap_app, concat_app, app_nil_r).
  exists (set_index (index s ++ [MkIndex None cmp]) s), (ts ++ [E]). split.
  { cbn [run_op]. unfold TreeAddIndex, tbind, tget. cbn [obind fst snd]. rewrite El.
    destruct (Nat.ltb_spec (length rows) 2); [done|lia]. }
  split; cbn.
  - split; cbn; [by rewrite !fmap_app, Hr|by rewrite Ef|by rewrite Ef].
  - by rewrite !fmap_app, Hi.
  - intros Ht. apply Forall_app. split; [by apply Hb|]. constructor; [|done]. split; [done|]. split; [done|]. by exists 0%nat.
  - by rewrite !fmap_app, Ho.
  - apply Forall_app. split; [done|]. constructor; [|done]. split; [done|constructor].
  - exists r. split; [|done]. by apply lookup_app_l_Some.
  - rewrite length_app. cbn. lia.
  - done.
Qed.

(** One operation. *)
Lemma run_op_spec o tidy (rows : list row) (ts : list rb) (s : Tree) : keeps_rows tidy rows ts s -> ok_op o rows ->
  let '(l, (b, rows')) := spec_op o tidy rows in
  exists s' ts', run_op o s = Ret (l, s') /\ keeps_rows b rows' ts' s'.
Proof.
  intros Hk Hok. destruct o as [c sz|c|k|k i|c i|i|cmp]; cbn [ok_op] in Hok.
  - destruct (TreeAdd_loop_spec c sz rows tidy [] ts s None Hk) as (s' & ts' & E & Hk'). exists s', ts'. split; [|done].
    rewrite (rows_nonempty _ _ _ _ _ _ Hk) in E. cbn [run_op]. unfold as_items, TreeAdd, tget. unfold tbind. cbn [obind fst snd].
    rewrite (index_length _ _ _ _ Hk). cbn [length] in E. by rewrite E.
  - destruct (TreeRemove_loop_spec c rows tidy [] ts s None Hk) as (s' & ts' & E & Hk'). exists s', ts'. split; [|done].
    rewrite (rows_nonempty _ _ _ _ _ _ Hk) in E. cbn [run_op]. unfold as_items, TreeRemove, tget. unfold tbind. cbn [obind fst snd].
    rewrite (index_length _ _ _ _ Hk). cbn [length] in E. by rewrite E.
  - by apply (remove_key_spec k tidy rows ts).
  - exists s, ts. split; [|done]. by apply (find_spec (inr k) tidy rows ts).
  - exists s, ts. split; [|done]. by apply (find_spec (inl c) tidy rows ts).
  - exists s, ts. split; [|done]. by apply (tree_walk_spec tidy rows ts).
  - destruct Hok as [Hc Hl]. by apply (add_index_spec tidy rows ts).
Qed.

(** ** Sequences of operations *)

Fixpoint run_tree (os : list tree_op) : TM (list (list A)) :=
  match os with
  | [] => tret []
  | o :: os' => let+ l := run_op o in let+ ls := run_tree os' in tret (l :: ls)
  end.

Fixpoint spec_tree (os : list tree_op) (b : bool) (rows : list row) : list (list A) * (bool * list row) :=
  match os with
  | [] => ([], (b, rows))
  | o :: os' =>
      let '(l, (b1, rows1)) := spec_op o b rows in
      let '(ls, st) := spec_tree os' b1 rows1 in (l :: ls, st)
  end.

Fixpoint ok_tree (os : list tree_op) (b : bool) (rows : list row) : Prop :=
  match os with
  | [] => True
  | o :: os' => ok_op o rows /\ let '(_, (b1, rows1)) := spec_op o b rows in ok_tree os' b1 rows1
  end.

Lemma run_tree_spec os : forall tidy (rows : list row) (ts : list rb) (s : Tree), keeps_rows tidy rows ts s -> ok_tree os tidy rows ->
  let '(ls, (b, rows')) := spec_tree os tidy rows in
  exists s' ts', run_tree os s = Ret (ls, s') /\ keeps_rows b rows' ts' s'.
Proof.
  induction os as [|o os IH]; intros tidy rows ts s Hk Hok; [by exists s, ts|]. cbn in Hok |- *. destruct Hok as [Ho Hok].
  pose proof (run_op_spec o tidy rows ts s Hk Ho) as H. destruct (spec_op o tidy rows) as [l [b1 rows1]].
  destruct H as (s1 & ts1 & E & Hk1). specialize (IH b1 rows1 ts1 s1 Hk1 Hok). destruct (spec_tree os b1 rows1) as [ls [b rows']].
  destruct IH as (s' & ts' & E' & Hk'). exists s', ts'. split; [|done]. unfold tbind. rewrite E. cbn. by rewrite E'.
Qed.

Lemma keeps_init (cmp : A -> A + K -> Z) : Comparison cmp -> keeps_rows (A:=A) true [(cmp, [])] [E] (TreeInitialize cmp).
Proof.
  intros Hc. split; cbn.
  - split; [done|done|constructor].
  - done.
  - intros _. constructor; [|done]. split; [done|]. split; [done|]. by exists 0%nat.
  - done.
  - constructor; [|done]. split; [done|constructor].
  - by exists (cmp, []).
  - lia.
  - done.
Qed.

(** C34: Any sequence of calls on a new tree returns, and its results are those of the sorted lists. *)
Theorem tree_refines_sorted_list (cmp : A -> A + K -> Z) os : Comparison cmp -> ok_tree os true [(cmp, [])] ->
  exists s, run_tree os (TreeInitialize cmp) = Ret ((spec_tree os true [(cmp, [])]).1, s) /\
    count s = Z.of_nat (length (from_option snd [] ((spec_tree os true [(cmp, [])]).2.2 !! 0%nat))).
Proof.
  intros Hc Hok. pose proof (run_tree_spec os true [(cmp, [])] [E] _ (keeps_init cmp Hc) Hok) as H.
  destruct (spec_tree os true [(cmp, [])]) as [ls [b rows]]. destruct H as (s & ts & E & Hk). exists s. split; [done|].
  destruct (kr_count _ _ _ _ Hk) as (r & Er & Hn & _). cbn [snd]. by rewrite Er.
Qed.

(** C35: While no content is added again, every index is a red-black tree: the depth of the first is at most
    twice the logarithm of the number of its elements. *)
Theorem tree_stays_balanced (cmp : A -> A + K -> Z) os : Comparison cmp -> ok_tree os true [(cmp, [])] -> (spec_tree os true [(cmp, [])]).2.1 = true ->
  exists s ls d ts, run_tree os (TreeInitialize cmp) = Ret (ls, s) /\ tree_rep ts s /\ Forall red_black ts /\
    TreeMaxDepth s = Ret (d, s) /\ 2 ^ d <= (count s + 1) * (count s + 1).
Proof.
  intros Hc Hok Htidy. pose proof (run_tree_spec os true [(cmp, [])] [E] _ (keeps_init cmp Hc) Hok) as H.
  destruct (spec_tree os true [(cmp, [])]) as [ls [b rows]]. cbn in Htidy. subst b. destruct H as (s & ts & E & Hk).
  destruct (kr_count _ _ _ _ Hk) as (r & Er & Hn & _). destruct (row_at _ _ _ _ _ _ Hk Er) as (t & ix & Et & _ & _ & Ei & _).
  assert (Hall : Forall red_black ts) by by apply Hk.
  exists s, ls, (Z.of_nat (tree_depth t)), ts. split; [done|]. split; [apply Hk|]. split; [done|].
  split; [by apply (TreeMaxDepth_spec true rows ts)|].
  assert (Hrb : red_black t) by (rewrite Forall_lookup in Hall; by eapply Hall). apply red_black_depth in Hrb.
  assert (Hsz : count s = Z.of_nat (tree_size t)) by (rewrite Hn, <- Ei, <- length_nodes; unfold items_of; by rewrite length_fmap).
  rewrite Hsz. assert (Hp : Z.of_nat (2 ^ tree_depth t) = 2 ^ Z.of_nat (tree_depth t)) by apply Nat2Z.inj_pow. lia.
Qed.
End Ops.

(** ** The comparisons of Tree.c are orders *)

#[export] Instance TreeIntCompare_order : Comparison TreeIntCompare.
Proof.
  split; unfold TreeIntCompare; intros; repeat match goal with k : Z + Z |- _ => destruct k end;
    repeat match goal with |- context [?x <? ?y] => destruct (Z.ltb_spec x y) | |- context [?x =? ?y] => destruct (Z.eqb_spec x y)
      | H : context [?x <? ?y] |- _ => destruct (Z.ltb_spec x y) | H : context [?x =? ?y] |- _ => destruct (Z.eqb_spec x y) end; cbn in *; lia.
Qed.

#[export] Instance TreePtrCompare_order : Comparison TreePtrCompare.
Proof. exact TreeIntCompare_order. Qed.

Lemma strcmp_refl a : strcmp a a = 0.
Proof. induction a as [|x a IH]; [done|]. cbn. by rewrite Z.eqb_refl. Qed.

Lemma strcmp_flip a : forall b, strcmp a b = - strcmp b a.
Proof.
  induction a as [|x a IH]; intros [|y b]; try done. cbn. rewrite (Z.eqb_sym y x). destruct (Z.eqb_spec x y); [apply IH|].
  destruct (Z.ltb_spec x y), (Z.ltb_spec y x); lia.
Qed.

Lemma strcmp_eq a : forall b, strcmp a b = 0 -> a = b.
Proof.
  induction a as [|x a IH]; intros [|y b] H; try done. cbn in H. destruct (Z.eqb_spec x y) as [->|]; [by rewrite (IH _ H)|].
  by destruct (x <? y).
Qed.

Lemma strcmp_trans a : forall b c, 0 < strcmp a b -> 0 <= strcmp b c -> 0 < strcmp a c.
Proof.
  induction a as [|x a IH]; intros [|y b] [|z c] H1 H2; cbn in *; try lia.
  destruct (Z.eqb_spec x y), (Z.eqb_spec y z), (Z.eqb_spec x z); subst; try lia; try done.
  all: try (by eapply IH).
  all: repeat match goal with |- context [?u <? ?v] => destruct (Z.ltb_spec u v) | H : context [?u <? ?v] |- _ => destruct (Z.ltb_spec u v) end; lia.
Qed.

#[export] Instance TreeStringCompare_order : Comparison TreeStringCompare.
Proof.
  split; unfold TreeStringCompare; intros.
  - apply strcmp_refl.
  - rewrite strcmp_flip. lia.
  - by eapply strcmp_trans.
  - by rewrite (strcmp_eq x y).
Qed.

(** ** Examples *)

Definition example_ops : list (tree_op (A:=Z) (K:=Z)) :=
  [Add 5 10; Add 6 10; Add 3 10; Add 2 10; AddIndex TreePtrCompare; Add 1 10; Add 4 7; RemoveKey 2; Remove 4; Find 3 0; Walk 0; Walk 1].

Lemma example_ops_ok : ok_tree example_ops true [(TreeIntCompare, [])].
Proof. cbn. do 4 (split; [done|]). split; [split; [apply _|lia]|]. repeat (split; [done || lia|]). done. Qed.

Lemma tree_refines_sorted_list_witness :
  ok_tree example_ops true [(TreeIntCompare, [])] /\
  (spec_tree example_ops true [(TreeIntCompare, [])]).1 = [[]; []; []; []; []; []; []; []; [4]; [3]; [1; 3; 5; 6]; [1]] /\
  exists s, run_tree example_ops (TreeInitialize TreeIntCompare) =
    Ret ([[]; []; []; []; []; []; []; []; [4]; [3]; [1; 3; 5; 6]; [1]], s) /\ count s = 4.
Proof.
  split; [exact example_ops_ok|]. split; [reflexivity|].
  apply (tree_refines_sorted_list TreeIntCompare example_ops _ example_ops_ok).
Defined.

Definition red_at (s : Tree Z Z) (p : option nat) : bool :=
  match p with Some a => match nodes s !! a with Some n => red n | None => false end | None => false end.

(** A red node with a red child. *)
Definition red_under_red (s : Tree Z Z) : bool :=
  existsb (fun '(_, n) => red n && (red_at s (lchild n) || red_at s (rchild n))) (map_to_list (nodes s)).

Lemma black_children (t : rb (X:=Z * Z)) : forall par p n, no_red_red t = true -> (p, n) ∈ cells par t -> red n = true ->
  exists l r, lchild n = root_ptr l /\ rchild n = root_ptr r /\ is_red l = false /\ is_red r = false /\
    cells (Some p) l ⊆ cells par t /\ cells (Some p) r ⊆ cells par t.
Proof.
  induction t as [|q x rd l IHl r IHr]; intros par p n Hn Hin Hr; [by apply elem_of_nil in Hin|].
  cbn in Hn. apply andb_true_iff in Hn as [[Hc Hl]%andb_true_iff Hrr]. cbn [cells] in Hin |- *.
  apply elem_of_cons in Hin as [[= -> ->]|[Hin|Hin]%elem_of_app].
  - cbn in Hr. subst rd. cbn in Hc. apply negb_true_iff, orb_false_iff in Hc as [H1 H2]. exists l, r. repeat split; try done; set_solver.
  - destruct (IHl _ _ _ Hl Hin Hr) as (l' & r' & H1 & H2 & H3 & H4 & H5 & H6). exists l', r'. repeat split; try done; set_solver.
  - destruct (IHr _ _ _ Hrr Hin Hr) as (l' & r' & H1 & H2 & H3 & H4 & H5 & H6). exists l', r'. repeat split; try done; set_solver.
Qed.

Lemma red_black_no_pair ts (s : Tree Z Z) : tree_rep ts s -> Forall red_black ts -> red_under_red s = false.
Proof.
  intros [Hr Hn Hd] Hrb. apply not_true_iff_false. intros H. unfold red_under_red in H. apply existsb_exists in H as ([p n] & Hin & H).
  apply list_elem_of_In, elem_of_map_to_list in Hin. rewrite Hn in Hin. apply elem_of_list_to_map_2 in Hin.
  apply andb_true_iff in H as [Hred H]. assert (Hin2 := Hin). unfold forest in Hin. apply list_elem_of_In, in_concat in Hin as (cs & Hcs & Hin).
  apply list_elem_of_In in Hin. apply list_elem_of_In, list_elem_of_fmap in Hcs as (t & -> & Ht).
  rewrite Forall_forall in Hrb. destruct (Hrb t Ht) as (_ & Hnr & _).
  destruct (black_children t None p n Hnr Hin Hred) as (l & r & El & Er & Hl & Hrr & Il & Ir).
  assert (Hat : forall u, cells (Some p) u ⊆ cells None t -> red_at s (root_ptr u) = is_red u).
  { intros [|q x rd a b] Hsub; [done|]. cbn. rewrite Hn. 
    rewrite (elem_of_list_to_map_1 (forest ts) q (MkNode (Some p) (root_ptr a) (root_ptr b) (Some x.1) x.2 rd) Hd); [done|].
    unfold forest. apply list_elem_of_In, in_concat. exists (cells None t). split; [apply list_elem_of_In, list_elem_of_fmap; by exists t|].
    apply list_elem_of_In, Hsub. cbn. apply list_elem_of_here. }
  rewrite El, Er, !Hat, Hl, Hrr in H by done. done.
Qed.

Lemma tree_stays_balanced_witness :
  ok_tree example_ops true [(TreeIntCompare, [])] /\ (spec_tree example_ops true [(TreeIntCompare, [])]).2.1 = true /\
  exists s ls d ts, run_tree example_ops (TreeInitialize TreeIntCompare) = Ret (ls, s) /\ tree_rep ts s /\ Forall red_black ts /\
    TreeMaxDepth s = Ret (d, s) /\ 2 ^ d <= (count s + 1) * (count s + 1).
Proof.
  split; [exact example_ops_ok|]. split; [reflexivity|].
  apply (tree_stays_balanced TreeIntCompare example_ops _ example_ops_ok). reflexivity.
Defined.

(** Adding a content that is there already runs [TreeBalanceAfterAdd] on its node, as if the node were new and
    red: the tree is then no red-black tree, and its depth has no bound from the discipline. *)
Theorem readd_unbalances :
  exists s ls, run_tree (map (fun c => Add c 0) [5; 6; 3; 2; 1; 4; 3]) (TreeInitialize (K:=Z) TreeIntCompare) = Ret (ls, s) /\
    ~ exists ts, tree_rep ts s /\ Forall red_black ts.
Proof.
  assert (H : match run_tree (map (fun c => Add c 0) [5; 6; 3; 2; 1; 4; 3]) (TreeInitialize (K:=Z) TreeIntCompare) with
    | Ret (_, s) => red_under_red s | _ => false end = true) by (vm_compute; reflexivity).
  destruct (run_tree _ _) as [[ls s]| | |]; try done. exists s, ls. split; [done|]. intros (ts & Hr & Hrb).
  by rewrite (red_black_no_pair ts s Hr Hrb) in H.
Qed.
