(* ===== verification/Heap.v ===== *)
(** * Heap: the tracking of the heap in the MQTT client (Heap.c)

    Every block that the client allocates is recorded in a tree of [storageElement]s and has an
    eyecatcher at each end.  The allocator of the C library is a parameter: an instance of [Allocator]
    says which address the [k]-th call returns, or that there is no memory. *)

From Stdlib Require Import ZArith Lia Sorting.Sorted.
From stdpp Require Import base tactics numbers list gmap.
From S2P Require Import Prelude RbTree Tree.

(** A block of [n] bytes at [a] does not overlap the blocks [bs] (address and size). *)
Definition fits (bs : gmap Z Z) (a n : Z) : Prop :=
  0 < a /\ a + n < 2 ^ 64 /\ bs !! a = None /\ forall b m, bs !! b = Some m -> a + n <= b \/ b + m <= a.

Class Allocator : Type := {
  alloc : nat -> gmap Z Z -> Z -> option Z;
  alloc_fits k bs n a : alloc k bs n = Some a -> fits bs a n
}.

(** ** State *)

(** [se_self] and [se_file_ptr] are the addresses of the element and of its copy of the file name. *)
Record storageElement : Type := MkElement {
  se_self : Z;
  se_file_ptr : Z;
  se_file : list Z;
  se_line : Z;
  se_ptr : Z;
  se_size : Z
}.

(** The messages of level LOG_ERROR, and those of the scan. *)
Inductive message : Type :=
| No_memory
| Bad_start (us : Z) (file : list Z) (line : Z)
| Bad_end (us : Z) (file : list Z) (line : Z)
| Failed_to_remove (file : list Z) (line : Z)
| Failed_to_reallocate (file : list Z) (line : Z)
| Not_freed
| Scan_start (total : Z)
| Scan_element (s : storageElement)
| Scan_end.

Record heap_t : Type := MkHeap {
  heap : Tree storageElement Z;
  current_size : Z;
  max_size : Z;
  heap_mutex : bool;
  blocks : gmap Z Z;
  mem : Z -> Z;
  calls : nat;
  log : list message
}.

Definition set_heap (t : Tree storageElement Z) (h : heap_t) : heap_t :=
  MkHeap t (current_size h) (max_size h) (heap_mutex h) (blocks h) (mem h) (calls h) (log h).
Definition set_sizes (c m : Z) (h : heap_t) : heap_t := MkHeap (heap h) c m (heap_mutex h) (blocks h) (mem h) (calls h) (log h).
Definition set_mutex (b : bool) (h : heap_t) : heap_t :=
  MkHeap (heap h) (current_size h) (max_size h) b (blocks h) (mem h) (calls h) (log h).
Definition set_blocks (bs : gmap Z Z) (h : heap_t) : heap_t :=
  MkHeap (heap h) (current_size h) (max_size h) (heap_mutex h) bs (mem h) (calls h) (log h).
Definition set_mem (m : Z -> Z) (h : heap_t) : heap_t :=
  MkHeap (heap h) (current_size h) (max_size h) (heap_mutex h) (blocks h) m (calls h) (log h).
Definition tick (h : heap_t) : heap_t :=
  MkHeap (heap h) (current_size h) (max_size h) (heap_mutex h) (blocks h) (mem h) (S (calls h)) (log h).
Definition add_log (x : message) (h : heap_t) : heap_t :=
  MkHeap (heap h) (current_size h) (max_size h) (heap_mutex h) (blocks h) (mem h) (calls h) (log h ++ [x]).

Definition HM (B : Type) : Type := heap_t -> outcome (B * heap_t).
Definition hret {B} (b : B) : HM B := fun h => Ret (b, h).
Definition hbind {B C} (m : HM B) (k : B -> HM C) : HM C := fun h => obind (m h) (fun r => k r.1 r.2).
Definition hget : HM heap_t := fun h => Ret (h, h).
Definition hmod (f : heap_t -> heap_t) : HM unit := fun h => Ret (tt, f h).
Definition hlift {B} (o : outcome B) : HM B := fun h => obind o (fun b => Ret (b, h)).
Definition on_tree {B} (m : TM storageElement Z B) : HM B :=
  fun h => obind (m (heap h)) (fun r => Ret (r.1, set_heap r.2 h)).

Declare Scope heap_scope.
Notation "'let^' x ':=' m 'in' k" := (hbind m (fun x => k))
  (at level 10, x pattern, m at level 100, k at level 200) : heap_scope.
Notation "m ;^ k" := (hbind m (fun _ => k)) (at level 60, right associativity) : heap_scope.
#[global] Open Scope heap_scope.

(** ** The C library *)

(** [n] bytes at [a] are inside one block. *)
Definition inside (bs : gmap Z Z) (a n : Z) : bool := existsb (fun '(b, m) => (b <=? a) && (a + n <=? b + m)) (map_to_list bs).

Definition byte_at (v i : Z) : Z := Z.land (Z.shiftr v (8 * i)) 255.
Definition load_bytes (m : Z -> Z) (a : Z) : Z := s32 (m a + 2 ^ 8 * m (a + 1) + 2 ^ 16 * m (a + 2) + 2 ^ 24 * m (a + 3)).
Definition store_bytes (a v : Z) (m : Z -> Z) : Z -> Z := fun x => if (a <=? x) && (x <? a + 4) then byte_at v (x - a) else m x.

Definition load_int (a : Z) : HM Z := let^ h := hget in if inside (blocks h) a 4 then hret (load_bytes (mem h) a) else hlift Fault.
Definition store_int (a v : Z) : HM unit :=
  let^ h := hget in if inside (blocks h) a 4 then hmod (set_mem (store_bytes a v (mem h))) else hlift Fault.

Definition c_free (a : Z) : HM unit :=
  let^ h := hget in
  match blocks h !! a with
  | Some _ => hmod (set_blocks (delete a (blocks h)))
  | None => hlift Fault
  end.

Definition Log (x : message) : HM unit := hmod (add_log x).

(** [PTHREAD_MUTEX_INITIALIZER] makes a mutex that its owner cannot lock again. *)
Definition Thread_lock_mutex : HM unit := let^ h := hget in if heap_mutex h then hlift Blocked else hmod (set_mutex true).
Definition Thread_unlock_mutex : HM unit := hmod (set_mutex false).

Section Heap.
Context `{Allocator}.

Definition c_malloc (n : Z) : HM (option Z) :=
  let^ h := hget in
  hmod tick ;^
  match alloc (calls h) (blocks h) n with
  | Some a => hmod (set_blocks (<[a := n]> (blocks h))) ;^ hret (Some a)
  | None => hret None
  end.

(** The bytes of the old block are those of the new one, as far as both reach. *)
Definition c_realloc (p n : Z) : HM (option Z) :=
  let^ h := hget in
  match blocks h !! p with
  | None => hlift Fault
  | Some m =>
      hmod tick ;^
      match alloc (calls h) (delete p (blocks h)) n with
      | None => hret None
      | Some a =>
          hmod (set_blocks (<[a := n]> (delete p (blocks h)))) ;^
          hmod (set_mem (fun x => if (a <=? x) && (x <? a + Z.min m n) then mem h (x - a + p) else mem h x)) ;^
          hret (Some a)
      end
  end.

(** ** Heap.c *)

Definition eyecatcher : Z := s32 0x88888888.
Definition sizeof_int : Z := 4.
Definition sizeof_storageElement : Z := 32.
Definition strlen (s : list Z) : Z := Z.of_nat (length s).

(** The sum may not fit an [int]. *)
Definition Heap_roundup (size : Z) : outcome Z :=
  let multsize := 4 * sizeof_int in
  if Z.rem size multsize =? 0 then Ret size
  else let r := size + (multsize - Z.rem size multsize) in if r <? 2 ^ 31 then Ret r else Fault.

Definition ptrCompare (a : storageElement) (b : storageElement + Z) : Z :=
  let p := match b with inl s => se_ptr s | inr p => p end in
  if p <? se_ptr a then -1 else if se_ptr a =? p then 0 else 1.

Definition add_current_size (n : Z) : HM unit :=
  let^ h := hget in
  let c := s32 (current_size h + n) in
  hmod (set_sizes c (if max_size h <? c then c else max_size h)).

Definition mymalloc (file : list Z) (line size : Z) : HM (option Z) :=
  let filenamelen := strlen file + 1 in
  Thread_lock_mutex ;^
  let^ r := hlift (Heap_roundup (s32 size)) in
  let size := size_t r in
  let^ s := c_malloc sizeof_storageElement in
  match s with
  | None => Log No_memory ;^ hret None
  | Some s =>
      let^ f := c_malloc filenamelen in
      match f with
      | None => Log No_memory ;^ c_free s ;^ hret None
      | Some f =>
          let^ p := c_malloc (size_t (size + 2 * sizeof_int)) in
          match p with
          | None => Log No_memory ;^ c_free f ;^ c_free s ;^ hret None
          | Some p =>
              let space := s32 (sizeof_storageElement + filenamelen + size + 2 * sizeof_int) in
              store_int p eyecatcher ;^
              store_int (size_t (p + (sizeof_int + size))) eyecatcher ;^
              on_tree (TreeAdd (MkElement s f file line p (s32 size)) space) ;^
              add_current_size size ;^
              Thread_unlock_mutex ;^
              hret (Some (p + sizeof_int))
          end
      end
  end.

Definition checkEyecatchers (file : list Z) (line p size : Z) : HM unit :=
  let^ us := load_int (p - sizeof_int) in
  (if us =? eyecatcher then hret tt else Log (Bad_start us file line)) ;^
  let^ us := load_int (size_t (p + size)) in
  if us =? eyecatcher then hret tt else Log (Bad_end us file line).

Definition Internal_heap_unlink (file : list Z) (line p : Z) : HM bool :=
  let^ e := on_tree (TreeFind (size_t (p - sizeof_int))) in
  match e with
  | None => Log (Failed_to_remove file line) ;^ hret false
  | Some _ =>
      let^ n := on_tree (load e) in
      let^ s := hlift (deref (content n)) in
      checkEyecatchers file line p (se_size s) ;^
      c_free (se_file_ptr s) ;^
      hmod (fun h => set_sizes (s32 (current_size h - se_size s)) (max_size h) h) ;^
      on_tree (TreeRemoveNodeIndex e 0) ;^
      c_free (se_self s) ;^
      hret true
  end.

Definition myfree (file : list Z) (line p : Z) : HM unit :=
  Thread_lock_mutex ;^
  let^ r := Internal_heap_unlink file line p in
  (if r then c_free (size_t (p - sizeof_int)) else hret tt) ;^
  Thread_unlock_mutex.

Definition Heap_unlink (file : list Z) (line p : Z) : HM unit :=
  Thread_lock_mutex ;^
  Internal_heap_unlink file line p ;^
  Thread_unlock_mutex.

Definition myrealloc (file : list Z) (line p size : Z) : HM (option Z) :=
  Thread_lock_mutex ;^
  let^ s := on_tree (TreeRemoveKey (size_t (p - sizeof_int))) in
  match s with
  | None => Log (Failed_to_reallocate file line) ;^ Thread_unlock_mutex ;^ hret None
  | Some s =>
      let filenamelen := strlen file + 1 in
      checkEyecatchers file line p (se_size s) ;^
      let^ r := hlift (Heap_roundup (s32 size)) in
      let size := size_t r in
      add_current_size (size - se_size s) ;^
      let^ np := c_realloc (se_ptr s) (size_t (size + 2 * sizeof_int)) in
      match np with
      | None => Log No_memory ;^ hret None
      | Some np =>
          let space := s32 (sizeof_storageElement + (size + 2 * sizeof_int - se_size s)) in
          store_int np eyecatcher ;^
          store_int (size_t (np + (sizeof_int + size))) eyecatcher ;^
          let space := s32 (space - strlen (se_file s)) in
          let^ f := c_realloc (se_file_ptr s) filenamelen in
          let^ f := hlift (deref f) in
          let space := s32 (space + filenamelen) in
          on_tree (TreeAdd (MkElement (se_self s) f file line np (s32 size)) space) ;^
          Thread_unlock_mutex ;^
          hret (Some (np + sizeof_int))
      end
  end.

Definition Heap_findItem (p : Z) : HM (option storageElement) :=
  Thread_lock_mutex ;^
  let^ e := on_tree (TreeFind (size_t (p - sizeof_int))) in
  Thread_unlock_mutex ;^
  match e with
  | None => hret None
  | Some _ => let^ n := on_tree (load e) in hret (content n)
  end.

Fixpoint scan_loop (l : list (storageElement * Z)) : HM unit :=
  match l with
  | [] => hret tt
  | x :: l' => Log (Scan_element x.1) ;^ scan_loop l'
  end.

Definition HeapScan : HM unit :=
  Thread_lock_mutex ;^
  let^ h := hget in
  Log (Scan_start (current_size h)) ;^
  let^ fuel := on_tree loop_fuel in
  let^ l := on_tree (TreeElements fuel None 0) in
  scan_loop l ;^
  Log Scan_end ;^
  Thread_unlock_mutex.

Definition Heap_initialize : HM Z :=
  let t := TreeInitializeNoMalloc ptrCompare in
  hmod (set_heap (MkTree (index t) (count t) (t_size t) false (allow_duplicates t) (nodes t))) ;^
  hret 0.

Definition Heap_terminate : HM unit :=
  let^ h := hget in
  if 20 <? current_size h then Log Not_freed ;^ HeapScan else hret tt.

(** The loop of [HeapDump]: what it writes, while [fwrite] succeeds ([ok] says of which call it does). *)
Fixpoint dump_loop (l : list (storageElement * Z)) (ok : nat -> bool) (k : nat) : HM (Z * list (list Z)) :=
  match l with
  | [] => hret (0, [])
  | (s, size) :: l' =>
      let^ h := hget in
      if negb (ok k) then hret (-1, [])
      else if negb (ok (S k)) then hret (-1, [[se_ptr s]])
      else if inside (blocks h) (se_ptr s) size then
        if negb (ok (S (S k))) then hret (-1, [[se_ptr s]; [size]])
        else
          let^ (rc, out) := dump_loop l' ok (S (S (S k))) in
          hret (rc, [se_ptr s] :: [size] :: map (fun i => mem h (se_ptr s + i)) (seqZ 0 size) :: out)
      else hlift Fault
  end.

Definition HeapDump (ok : nat -> bool) : HM (Z * list (list Z)) :=
  let^ fuel := on_tree loop_fuel in
  let^ l := on_tree (TreeElements fuel None 0) in
  dump_loop l ok 0.
End Heap.
