(* ===== verification/HeapMem.v ===== *)
(** * HeapMem: blocks, bytes and the steps of the heap routines

    Blocks that do not overlap, the eyecatchers among the bytes, and the rules by which the routines of
    Heap.c run; the tree of the elements as a list. *)

From Stdlib Require Import ZArith Lia Sorting.Sorted Permutation.
From stdpp Require Import base tactics numbers list gmap.
From S2P Require Import Prelude RbTree Tree TreeSpec TreeOrder TreeRefine TreeOps Heap.

(** ** Blocks *)

Definition blocks_ok (bs : gmap Z Z) : Prop :=
  (forall a n, bs !! a = Some n -> 0 < a /\ 0 <= n /\ a + n < 2 ^ 64) /\
  (forall a n b m, bs !! a = Some n -> bs !! b = Some m -> a <> b -> a + n <= b \/ b + m <= a).

Lemma blocks_ok_insert bs a n : blocks_ok bs -> fits bs a n -> 0 <= n -> blocks_ok (<[a := n]> bs).
Proof.
  intros [H1 H2] (Ha & Hn & Hf & Hd) Hn0. split.
  - intros b m Hb. apply lookup_insert_Some in Hb as [[<- <-]|[_ Hb]]; [done|by apply H1].
  - intros b m c k [[<- <-]|[Hne1 Hb]]%lookup_insert_Some [[<- <-]|[Hne2 Hc]]%lookup_insert_Some Hbc; [done| | |by eapply H2].
    + by eapply Hd.
    + destruct (Hd _ _ Hb); auto.
Qed.

Lemma blocks_ok_delete bs a : blocks_ok bs -> blocks_ok (delete a bs).
Proof.
  intros [H1 H2]. split.
  - intros b m [_ Hb]%lookup_delete_Some. by apply H1.
  - intros b m c k [_ Hb]%lookup_delete_Some [_ Hc]%lookup_delete_Some. by apply H2.
Qed.

Lemma inside_intro bs b m a n : bs !! b = Some m -> b <= a -> a + n <= b + m -> inside bs a n = true.
Proof.
  intros Hb H1 H2. apply existsb_exists. exists (b, m). split; [by apply list_elem_of_In, elem_of_map_to_list|].
  apply andb_true_iff. lia.
Qed.

(** ** Bytes *)

Definition slice (m : Z -> Z) (a n : Z) : list Z := (fun i => m (a + i)) <$> seqZ 0 n.

Lemma slice_ext m m' a n : (forall x, a <= x < a + n -> m' x = m x) -> slice m' a n = slice m a n.
Proof. intros E. apply list_fmap_ext. intros i x Hx. apply lookup_seqZ in Hx as [-> Hx]. apply E. lia. Qed.

Lemma slice_length m a n : 0 <= n -> Z.of_nat (length (slice m a n)) = n.
Proof. intros H. unfold slice. rewrite length_fmap, length_seqZ. lia. Qed.

(** The four bytes at [a] are those of the eyecatcher. *)
Definition eye (m : Z -> Z) (a : Z) : Prop := forall i, 0 <= i < 4 -> m (a + i) = 0x88.

Lemma load_eye m a : eye m a -> load_bytes m a = eyecatcher.
Proof.
  intros H. unfold load_bytes. pose proof (H 0 ltac:(lia)) as H0. rewrite Z.add_0_r in H0.
  rewrite H0, (H 1), (H 2), (H 3) by lia. done.
Qed.

Lemma store_eye m a : eye (store_bytes a eyecatcher m) a.
Proof.
  intros i Hi. unfold store_bytes. replace (_ && _) with true by (symmetry; apply andb_true_iff; lia).
  replace (a + i - a) with i by lia. assert (i = 0 \/ i = 1 \/ i = 2 \/ i = 3) as [-> | [-> | [-> | ->]]] by lia; reflexivity.
Qed.

Lemma store_other m a v x : x < a \/ a + 4 <= x -> store_bytes a v m x = m x.
Proof. intros H. unfold store_bytes. destruct (Z.leb_spec a x), (Z.ltb_spec x (a + 4)); cbn; done || lia. Qed.

Lemma eye_ext m m' a : (forall x, a <= x < a + 4 -> m' x = m x) -> eye m a -> eye m' a.
Proof. intros E H i Hi. rewrite E by lia. by apply H. Qed.

Lemma roundup_spec n : 0 <= n < 2 ^ 31 - 16 -> exists r, Heap_roundup n = Ret r /\ n <= r < n + 16 /\ (r mod 16 = 0).
Proof.
  intros H. unfold Heap_roundup, sizeof_int. change (4 * 4) with 16. rewrite Z.rem_mod_nonneg by lia.
  destruct (Z.eqb_spec (n mod 16) 0) as [E|E]; [exists n; split; [done|lia]|].
  destruct (Z.ltb_spec (n + (16 - n mod 16)) (2 ^ 31)); [|divlia]. eexists. split; [done|]. split; divlia.
Qed.

Lemma strlen_nonneg s : 0 <= strlen s.
Proof. unfold strlen. lia. Qed.

(** ** Steps *)

Section Steps.
Context `{Allocator}.

(** The routine returns, and then [Q] holds. *)
Definition hwp {B} (m : HM B) (h : heap_t) (Q : B -> heap_t -> Prop) : Prop := exists b h', m h = Ret (b, h') /\ Q b h'.

Lemma hwp_ret {B} (b : B) h (Q : B -> heap_t -> Prop) : Q b h -> hwp (hret b) h Q.
Proof. intros HQ. by exists b, h. Qed.

Lemma hwp_bind {B C} (m : HM C) (k : C -> HM B) h Q : hwp m h (fun c s => hwp (k c) s Q) -> hwp (hbind m k) h Q.
Proof. intros (c & s & E & b & s' & E' & HQ). exists b, s'. split; [|done]. unfold hbind. by rewrite E. Qed.

Lemma hwp_get h Q : Q h h -> hwp hget h Q.
Proof. intros HQ. by exists h, h. Qed.

Lemma hwp_mod f h (Q : unit -> heap_t -> Prop) : Q tt (f h) -> hwp (hmod f) h Q.
Proof. intros HQ. by exists tt, (f h). Qed.

Lemma hwp_lift {B} (o : outcome B) b h (Q : B -> heap_t -> Prop) : o = Ret b -> Q b h -> hwp (hlift o) h Q.
Proof. intros -> HQ. by exists b, h. Qed.

Lemma hwp_tree {B} (m : TM storageElement Z B) b t h (Q : B -> heap_t -> Prop) :
  m (heap h) = Ret (b, t) -> Q b (set_heap t h) -> hwp (on_tree m) h Q.
Proof. intros E HQ. exists b, (set_heap t h). split; [|done]. unfold on_tree. by rewrite E. Qed.

Lemma hwp_lock h (Q : unit -> heap_t -> Prop) : heap_mutex h = false -> Q tt (set_mutex true h) -> hwp Thread_lock_mutex h Q.
Proof. intros E HQ. apply hwp_bind, hwp_get. rewrite E. by apply hwp_mod. Qed.

Lemma hwp_free a n h (Q : unit -> heap_t -> Prop) :
  blocks h !! a = Some n -> Q tt (set_blocks (delete a (blocks h)) h) -> hwp (c_free a) h Q.
Proof. intros E HQ. apply hwp_bind, hwp_get. rewrite E. by apply hwp_mod. Qed.

Lemma hwp_load b n a h Q : blocks h !! b = Some n -> b <= a -> a + 4 <= b + n -> Q (load_bytes (mem h) a) h -> hwp (load_int a) h Q.
Proof. intros E H1 H2 HQ. apply hwp_bind, hwp_get. rewrite (inside_intro _ b n) by done. by apply hwp_ret. Qed.

Lemma hwp_store b n a v h Q :
  blocks h !! b = Some n -> b <= a -> a + 4 <= b + n -> Q tt (set_mem (store_bytes a v (mem h)) h) -> hwp (store_int a v) h Q.
Proof. intros E H1 H2 HQ. apply hwp_bind, hwp_get. rewrite (inside_intro _ b n) by done. by apply hwp_mod. Qed.

Lemma hwp_malloc n h (Q : option Z -> heap_t -> Prop) :
  match alloc (calls h) (blocks h) n with
  | Some a => fits (blocks h) a n -> Q (Some a) (set_blocks (<[a := n]> (blocks h)) (tick h))
  | None => Q None (tick h)
  end -> hwp (c_malloc n) h Q.
Proof.
  intros HQ. apply hwp_bind, hwp_get, hwp_bind, hwp_mod. destruct (alloc (calls h) (blocks h) n) as [a|] eqn:E; [|by apply hwp_ret].
  apply hwp_bind, hwp_mod, hwp_ret. apply HQ. by eapply alloc_fits.
Qed.

Lemma hwp_realloc p m n h (Q : option Z -> heap_t -> Prop) :
  blocks h !! p = Some m ->
  match alloc (calls h) (delete p (blocks h)) n with
  | Some a => fits (delete p (blocks h)) a n ->
      Q (Some a) (set_mem (fun x => if (a <=? x) && (x <? a + Z.min m n) then mem h (x - a + p) else mem h x)
        (set_blocks (<[a := n]> (delete p (blocks h))) (tick h)))
  | None => Q None (tick h)
  end -> hwp (c_realloc p n) h Q.
Proof.
  intros Ep HQ. apply hwp_bind, hwp_get. rewrite Ep. apply hwp_bind, hwp_mod.
  destruct (alloc (calls h) (delete p (blocks h)) n) as [a|] eqn:E; [|by apply hwp_ret].
  apply hwp_bind, hwp_mod, hwp_bind, hwp_mod, hwp_ret. apply HQ. by eapply alloc_fits.
Qed.

(** Intact eyecatchers are not reported. *)
Lemma hwp_check file line p n b size h Q :
  blocks h !! b = Some (n + 8) -> p = b + 4 -> size = n -> 0 <= n -> 0 < b -> b + (n + 8) < 2 ^ 64 ->
  eye (mem h) b -> eye (mem h) (b + 4 + n) -> Q tt h -> hwp (checkEyecatchers file line p size) h Q.
Proof.
  intros Eb -> -> Hn H0 H1 He1 He2 HQ. unfold checkEyecatchers, sizeof_int. apply hwp_bind, (hwp_load b (n + 8)); [done|lia..|].
  replace (b + 4 - 4) with b by lia. rewrite load_eye, Z.eqb_refl by done. apply hwp_bind, hwp_ret, hwp_bind.
  rewrite size_t_id by lia. apply (hwp_load b (n + 8)); [done|lia..|]. by rewrite load_eye, Z.eqb_refl; [apply hwp_ret|].
Qed.
End Steps.

(** ** The tree of the elements *)

#[export] Instance ptrCompare_order : Comparison ptrCompare.
Proof. split; unfold ptrCompare; intros; repeat case_bool; try lia; by destruct k; repeat case_bool; lia. Qed.

(** The elements in the tree are [es], in some order. *)
Definition elements (es : list storageElement) (t : Tree storageElement Z) : Prop :=
  exists l ts, keeps_rows true [(ptrCompare, l)] ts t /\ l.*1 ≡ₚ es.

Lemma elements_perm es es' t : es ≡ₚ es' -> elements es t -> elements es' t.
Proof. intros Hp (l & ts & Hk & Hl). exists l, ts. split; [done|]. by rewrite Hl. Qed.

Lemma seek_ptr key l : match seek ptrCompare (inr key) l with
  | Some x => x ∈ l /\ se_ptr x.1 = key
  | None => key ∉ se_ptr <$> l.*1
  end.
Proof.
  unfold seek. destruct (List.find _ l) as [x|] eqn:E.
  - apply List.find_some in E as [Hin E]. split; [by apply list_elem_of_In|]. unfold matches, ptrCompare in E. cbn in E. repeat case_bool; lia || done.
  - rewrite list_elem_of_fmap. intros (e & -> & [x [-> Hx]]%list_elem_of_fmap). apply list_elem_of_In in Hx.
    pose proof (List.find_none _ _ E x Hx) as H. unfold matches, ptrCompare in H. cbn in H. rewrite Z.ltb_irrefl, Z.eqb_refl in H. done.
Qed.

Lemma put_new_perm (e : storageElement) sz (l : list (storageElement * Z)) :
  se_ptr e ∉ se_ptr <$> l.*1 -> (put ptrCompare e sz l).2 = None /\ (put ptrCompare e sz l).1 ≡ₚ (e, sz) :: l.
Proof.
  induction l as [|x l IH]; cbn; intros Hn; [done|]. apply not_elem_of_cons in Hn as [Hne Hn]. specialize (IH Hn) as [IH1 IH2].
  destruct (put ptrCompare e sz l) as [l' old]. cbn in *. unfold ptrCompare. repeat case_bool; cbn; try lia; try done.
  split; [done|]. by rewrite IH2, Permutation_swap.
Qed.

Lemma elements_add e sz es t : elements es t -> se_ptr e ∉ se_ptr <$> es ->
  exists t', TreeAdd e sz t = Ret (None, t') /\ elements (e :: es) t'.
Proof.
  intros (l & ts & Hk & Hl) Hn. rewrite <- Hl in Hn. destruct (put_new_perm e sz l Hn) as [H1 H2].
  destruct (TreeAdd_loop_spec e sz _ true [] ts t None Hk) as (t' & ts' & E & Hk'). exists t'. split.
  - unfold TreeAdd, tbind, tget. cbn [obind fst snd]. rewrite (index_length _ _ _ _ Hk). cbn [length] in E |- *. rewrite E. cbn. by rewrite H1.
  - exists (put ptrCompare e sz l).1, ts'. cbn in Hk'. split; [|rewrite H2; cbn; by rewrite Hl].
    replace (absent ptrCompare (inl e) l) with true in Hk'; [done|]. unfold absent, seek, matches.
    pose proof (seek_ptr (se_ptr e) l) as Hs. unfold seek, matches in Hs.
    change (fun x : storageElement * Z => ptrCompare x.1 (inl e) =? 0) with (fun x : storageElement * Z => ptrCompare x.1 (inr (se_ptr e)) =? 0).
    destruct (List.find _ l); [|done]. destruct Hs as [Hin Hp]. destruct Hn. rewrite <- Hp.
    by apply list_elem_of_fmap_2, list_elem_of_fmap_2.
Qed.

Lemma elements_find key es t : elements es t ->
  exists p, TreeFind key t = Ret (p, t) /\
    match p with
    | None => key ∉ se_ptr <$> es
    | Some a => exists e es' n t' c, se_ptr e = key /\ es ≡ₚ e :: es' /\ load (Some a) t = Ret (n, t) /\ content n = Some e /\
        TreeRemoveNodeIndex (Some a) 0 t = Ret (c, t') /\ elements es' t'
    end.
Proof.
  intros (l & ts & Hk & Hl). destruct (TreeFindIndex1_spec _ _ _ _ 0 _ (inr key) Hk eq_refl) as (p & E & Hp). exists p. split; [done|].
  cbn [fst snd] in Hp. pose proof (seek_ptr key l) as Hs. destruct p as [a|]; [|rewrite Hp in Hs; by rewrite Hl in Hs].
  destruct Hp as (x & u & Ex & Et & Hin). rewrite Ex in Hs. destruct Hs as [Hxl Hx].
  assert (Hna : node_at 0 a x ts) by by exists u.
  destruct (node_fields _ _ _ _ _ _ _ Hk Hna) as (n & En & Hc & _).
  destruct (TreeRemoveNodeIndex_spec _ _ _ _ 0 _ a x Hk eq_refl Hna) as (t' & ts' & Er & Hk').
  exists x.1, (without ptrCompare (inl x.1) l).*1, n, t', (Some x.1). split; [done|]. split.
  - assert (Hso : sorted ptrCompare l) by (pose proof (kr_sorted _ _ _ _ Hk) as H; by apply Forall_cons in H as [[_ H] _]).
    rewrite <- Hl. pose proof (without_perm ptrCompare l x Hso Hxl) as Hp. exact (fmap_Permutation fst _ _ Hp).
  - split; [done|]. split; [done|]. split; [exact Er|]. eexists _, ts'. split; [exact Hk'|done].
Qed.

Lemma elements_remove key es t : elements es t ->
  exists c t', TreeRemoveKey key t = Ret (c, t') /\
    match c with
    | None => key ∉ se_ptr <$> es /\ elements es t'
    | Some e => exists es', se_ptr e = key /\ es ≡ₚ e :: es' /\ elements es' t'
    end.
Proof.
  intros (l & ts & Hk & Hl). pose proof (remove_key_spec key _ _ _ _ Hk) as H. cbn [spec_op] in H.
  pose proof (seek_ptr key l) as Hs. unfold found in H. cbn -[seek without] in H.
  assert (Hso : sorted ptrCompare l) by (pose proof (kr_sorted _ _ _ _ Hk) as Hso; by apply Forall_cons in Hso as [[_ Hso] _]).
  destruct (seek ptrCompare (inr key) l) as [x|] eqn:Ex; cbn -[seek without] in H.
  - destruct Hs as [Hxl Hx]. rewrite (seek_same ptrCompare (inr key) l x Hso Ex) in H. destruct H as (t' & ts' & E & Hk').
    unfold as_items, tbind in E. destruct (TreeRemoveKey key t) as [[c t1]| | |]; try done. cbn in E. injection E as Ec ->.
    destruct c as [e|]; [|done]. injection Ec as ->. exists (Some x.1), t'. split; [done|].
    exists (without ptrCompare (inl x.1) l).*1. split; [done|]. split; [|eexists _, ts'; split; [exact Hk'|done]].
    rewrite <- Hl. pose proof (without_perm ptrCompare l x Hso Hxl) as Hp. exact (fmap_Permutation fst _ _ Hp).
  - destruct H as (t' & ts' & E & Hk'). unfold as_items, tbind in E. destruct (TreeRemoveKey key t) as [[c t1]| | |]; try done.
    cbn in E. injection E as Ec ->. destruct c as [e|]; [done|]. exists None, t'. split; [done|]. rewrite Hl in Hs. split; [done|]. by exists l, ts'.
Qed.
