(* ===== verification/HeapSpec.v ===== *)
(** * HeapSpec: the tracked heap as a map of blocks

    What the program sees: blocks with their bytes, their file and their line.  The routines of Heap.c,
    on an allocator that has memory, keep this map, report no intact block as damaged, and give every
    block they freed back to the allocator. *)

From Stdlib Require Import ZArith Lia Permutation.
From stdpp Require Import base tactics numbers list gmap.
From S2P Require Import Prelude RbTree Tree TreeSpec TreeOrder TreeRefine TreeOps Heap HeapMem.

(** ** The records and the blocks *)

(** The blocks of an element: the block itself with its eyecatchers, the file name, the element. *)
Definition owned (e : storageElement) : list (Z * Z) :=
  [(se_ptr e, se_size e + 8); (se_file_ptr e, strlen (se_file e) + 1); (se_self e, 32)].

Definition ledger (es : list storageElement) (raw : list (Z * Z)) : list (Z * Z) := concat (owned <$> es) ++ raw.

Definition intact (me : Z -> Z) (e : storageElement) : Prop :=
  0 <= se_size e < 2 ^ 31 /\ strlen (se_file e) < 2 ^ 30 /\ eye me (se_ptr e) /\ eye me (se_ptr e + 4 + se_size e).

Definition sizes (es : list storageElement) : Z := foldr (fun e n => se_size e + n) 0 es.

(** [es] are the elements of the tree [t], [raw] the blocks that were unlinked, [bs] all the blocks. *)
Record tracked (es : list storageElement) (raw : list (Z * Z)) (t : Tree storageElement Z) (bs : gmap Z Z) (me : Z -> Z)
    (cur : Z) : Prop := Tracked {
  td_tree : elements es t;
  td_blocks : bs = list_to_map (ledger es raw);
  td_distinct : NoDup (ledger es raw).*1;
  td_ok : blocks_ok bs;
  td_intact : Forall (intact me) es;
  td_raw : Forall (fun r => r.2 < 2 ^ 32) raw;
  td_size : cur = s32 (sizes es)
}.

Lemma sizes_perm es es' : es ≡ₚ es' -> sizes es = sizes es'.
Proof. unfold sizes. induction 1; cbn; lia. Qed.

Lemma ledger_perm es es' raw : es ≡ₚ es' -> ledger es raw ≡ₚ ledger es' raw.
Proof.
  intros Hp. unfold ledger. apply Permutation_app_tail. induction Hp; cbn; [done| | |by etransitivity].
  - by repeat apply Permutation_skip.
  - solve_Permutation.
Qed.

Lemma tracked_perm es es' raw t bs me cur : es ≡ₚ es' -> tracked es raw t bs me cur -> tracked es' raw t bs me cur.
Proof.
  intros Hp [Ht Hb Hd Ho Hi Hr Hs]. split; [by eapply elements_perm| | |done| |done|by rewrite <- (sizes_perm _ _ Hp)].
  - rewrite Hb. apply list_to_map_proper; [done|by apply ledger_perm].
  - by rewrite <- (ledger_perm _ _ raw Hp).
  - by rewrite <- Hp.
Qed.

(** The blocks of the first element. *)
Lemma tracked_head e es raw t bs me cur : tracked (e :: es) raw t bs me cur ->
  exists R, R = list_to_map (ledger es raw) /\
    bs = <[se_ptr e := se_size e + 8]> (<[se_file_ptr e := strlen (se_file e) + 1]> (<[se_self e := 32]> R)) /\
    R !! se_ptr e = None /\ R !! se_file_ptr e = None /\ R !! se_self e = None /\
    se_ptr e <> se_file_ptr e /\ se_ptr e <> se_self e /\ se_file_ptr e <> se_self e /\ NoDup (ledger es raw).*1.
Proof.
  intros [_ Hb Hd _ _ _ _]. exists (list_to_map (ledger es raw)). split; [done|]. split; [done|].
  cbn in Hd. rewrite !NoDup_cons, !elem_of_cons in Hd. destruct Hd as (H1 & H2 & H3 & Hd).
  repeat split; try done; try (apply not_elem_of_list_to_map; tauto); tauto.
Qed.

Lemma tracked_block e es raw t bs me cur : tracked es raw t bs me cur -> e ∈ es ->
  bs !! se_ptr e = Some (se_size e + 8) /\ 0 < se_ptr e /\ se_ptr e + (se_size e + 8) < 2 ^ 64.
Proof.
  intros Ht (es' & Hp)%elem_of_Permutation. destruct (tracked_head e es' raw t bs me cur) as (R & _ & Hb & _); [by eapply tracked_perm|].
  assert (Hl : bs !! se_ptr e = Some (se_size e + 8)) by (rewrite Hb; by rewrite lookup_insert_eq). split; [done|].
  destruct (proj1 (td_ok _ _ _ _ _ _ Ht) _ _ Hl) as (? & ? & ?). lia.
Qed.

(** Nothing in the blocks of [es] changes. *)
Definition agree (es : list storageElement) (me me' : Z -> Z) : Prop :=
  forall e x, e ∈ es -> se_ptr e <= x < se_ptr e + se_size e + 8 -> me' x = me x.

Lemma intact_agree es me me' : agree es me me' -> Forall (intact me) es -> Forall (intact me') es.
Proof.
  intros Ha. rewrite !Forall_forall. intros H e He. destruct (H e He) as (H1 & H2 & H3 & H4). split; [done|]. split; [done|].
  split; [eapply eye_ext; [|exact H3]|eapply eye_ext; [|exact H4]]; intros x Hx; (apply (Ha e); [done|lia]).
Qed.

(** A range that fits beside the blocks is in none of them. *)
Lemma agree_fits es raw t bs me cur me' a n : tracked es raw t bs me cur -> fits bs a n ->
  (forall x, x < a \/ a + n <= x -> me' x = me x) -> agree es me me'.
Proof.
  intros Ht (_ & _ & _ & Hf) Hm e x He Hx. apply Hm. destruct (tracked_block e es raw t bs me cur Ht He) as (Hb & _ & _).
  destruct (Hf _ _ Hb); lia.
Qed.

Lemma fits_subset bs bs' a n : bs' ⊆ bs -> fits bs a n -> fits bs' a n.
Proof.
  intros Hs (H1 & H2 & H3 & H4). split; [done|]. split; [done|]. split; [by eapply lookup_weaken_None|].
  intros b m Hb. apply (H4 b m). by eapply lookup_weaken.
Qed.

(** A new element. *)
Lemma tracked_new es raw t t' bs me me' cur s f p file line r :
  tracked es raw t bs me cur -> let e := MkElement s f file line p r in
  fits bs s 32 -> fits (<[s := 32]> bs) f (strlen file + 1) -> fits (<[f := strlen file + 1]> (<[s := 32]> bs)) p (r + 8) ->
  elements (e :: es) t' -> agree es me me' -> intact me' e ->
  tracked (e :: es) raw t' (<[p := r + 8]> (<[f := strlen file + 1]> (<[s := 32]> bs))) me' (s32 (cur + r)).
Proof.
  intros [Ht Hb Hd Ho Hi Hr Hs] e Hfs Hff Hfp He Ha Hint.
  assert (Hnew : forall (l : list (Z * Z)) a n, fits (list_to_map l) a n -> a ∉ l.*1).
  { intros l a n (_ & _ & Hn & _). by apply not_elem_of_list_to_map. }
  split.
  - done.
  - by rewrite Hb.
  - rewrite Hb in Hfs, Hff, Hfp. apply (Hnew ((f, strlen file + 1) :: (s, 32) :: ledger es raw)) in Hfp.
    apply (Hnew ((s, 32) :: ledger es raw)) in Hff. apply Hnew in Hfs. change (NoDup (p :: f :: s :: (ledger es raw).*1)).
    by rewrite !NoDup_cons.
  - pose proof (strlen_nonneg file) as Hfl. destruct Hint as (Hr0 & _). cbn in Hr0. repeat (apply blocks_ok_insert; [|done|lia]). done.
  - constructor; [done|by eapply intact_agree].
  - done.
  - rewrite Hs. unfold sizes. cbn. rewrite s32_add. f_equal. lia.
Qed.

(** The first element goes, with its name and itself; its block becomes a raw one. *)
Lemma tracked_unlink e es raw t t' bs me cur : tracked (e :: es) raw t bs me cur -> elements es t' ->
  tracked es ((se_ptr e, se_size e + 8) :: raw) t' (delete (se_self e) (delete (se_file_ptr e) bs)) me (s32 (cur - se_size e)).
Proof.
  intros Ht He. destruct (tracked_head _ _ _ _ _ _ _ Ht) as (R & HR & Hb & Hp & Hf & Hs & N1 & N2 & N3 & Hd).
  destruct Ht as [_ _ Hd0 Ho Hi Hr Hs0]. apply Forall_cons in Hi as [(H1 & H2 & _) Hi].
  assert (Hperm : ledger es ((se_ptr e, se_size e + 8) :: raw) ≡ₚ (se_ptr e, se_size e + 8) :: ledger es raw) by (unfold ledger; solve_Permutation).
  assert (Hd' : NoDup ((se_ptr e, se_size e + 8) :: ledger es raw).*1).
  { cbn. apply NoDup_cons. split; [|done]. apply not_elem_of_list_to_map. by rewrite <- HR. }
  assert (Hd2 : NoDup (ledger es ((se_ptr e, se_size e + 8) :: raw)).*1) by by rewrite Hperm.
  split; [done| |done|by apply blocks_ok_delete, blocks_ok_delete|done|by constructor; [cbn; lia|]|].
  - rewrite (list_to_map_proper _ _ Hd2 Hperm). cbn. rewrite <- HR, Hb. apply map_eq. intros i.
    destruct (decide (i = se_self e)) as [->|]; [by simplify_map_eq|]. destruct (decide (i = se_file_ptr e)) as [->|]; [by simplify_map_eq|].
    destruct (decide (i = se_ptr e)) as [->|]; by simplify_map_eq.
  - rewrite Hs0. unfold sizes. cbn. unfold Z.sub. rewrite s32_add. f_equal. lia.
Qed.

(** A raw block is freed. *)
Lemma tracked_free es raw t bs me cur p n : tracked es ((p, n) :: raw) t bs me cur -> tracked es raw t (delete p bs) me cur.
Proof.
  intros [Ht Hb Hd Ho Hi Hr Hs].
  assert (Hperm : ledger es ((p, n) :: raw) ≡ₚ (p, n) :: ledger es raw) by (unfold ledger; solve_Permutation).
  rewrite Hperm in Hd. cbn in Hd. apply NoDup_cons in Hd as [Hn Hd].
  split; [done| |done|by apply blocks_ok_delete|done|by apply Forall_cons in Hr as [_ Hr]|done].
  rewrite Hb, (list_to_map_proper _ ((p, n) :: ledger es raw)); [|rewrite Hperm; cbn; by apply NoDup_cons|done].
  cbn. apply delete_insert_id. by apply not_elem_of_list_to_map.
Qed.

(** ** What the program sees *)

Record live_block : Type := Live { lv_file : list Z; lv_line : Z; lv_data : list Z }.
Definition len (x : live_block) : Z := Z.of_nat (length (lv_data x)).

Definition view (me : Z -> Z) (e : storageElement) : Z * live_block :=
  (se_ptr e + 4, Live (se_file e) (se_line e) (slice me (se_ptr e + 4) (se_size e))).

Definition live_map (me : Z -> Z) (es : list storageElement) : gmap Z live_block := list_to_map (view me <$> es).

(** [m]: the tracked blocks by the addresses the program has; [raw]: those it has unlinked. *)
Definition tracks (m : gmap Z live_block) (raw : list (Z * Z)) (h : heap_t) : Prop :=
  heap_mutex h = false /\
  exists es, tracked es raw (heap h) (blocks h) (mem h) (current_size h) /\ m = live_map (mem h) es.

Lemma ptrs_distinct es raw t bs me cur : tracked es raw t bs me cur -> NoDup (se_ptr <$> es).
Proof.
  intros Ht. pose proof (td_distinct _ _ _ _ _ _ Ht) as Hd. unfold ledger in Hd. rewrite fmap_app in Hd. apply NoDup_app in Hd as [Hd _].
  clear Ht. induction es as [|e es IH]; [constructor|]. cbn in Hd. rewrite !NoDup_cons, !elem_of_cons in Hd. destruct Hd as (H1 & _ & _ & Hd).
  cbn. apply NoDup_cons. split; [|by apply IH]. intros (e' & Ee & He')%list_elem_of_fmap. apply H1. do 2 right.
  apply list_elem_of_fmap. exists (se_ptr e', se_size e' + 8). split; [done|]. apply list_elem_of_In, in_concat. exists (owned e').
  split; [by apply list_elem_of_In, list_elem_of_fmap_2|by left].
Qed.

Lemma view_keys me es : (view me <$> es).*1 = (fun p => p + 4) <$> (se_ptr <$> es).
Proof. induction es as [|e es IH]; [done|]. cbn. by rewrite IH. Qed.

Lemma live_distinct me es : NoDup (se_ptr <$> es) -> NoDup (view me <$> es).*1.
Proof. intros Hn. rewrite view_keys. apply NoDup_fmap_2; [|done]. intros x y E. lia. Qed.

Lemma live_perm me es es' : es ≡ₚ es' -> NoDup (se_ptr <$> es) -> live_map me es = live_map me es'.
Proof. intros Hp Hn. apply list_to_map_proper; [by apply live_distinct|by rewrite Hp]. Qed.

Lemma live_agree es me me' : agree es me me' -> live_map me' es = live_map me es.
Proof.
  intros Ha. unfold live_map. f_equal. apply list_fmap_ext. intros i e He. unfold view. do 2 f_equal.
  apply slice_ext. intros x Hx. apply (Ha e); [by eapply list_elem_of_lookup_2|lia].
Qed.

Lemma live_lookup me es p x : NoDup (se_ptr <$> es) ->
  live_map me es !! p = Some x <-> exists e, e ∈ es /\ se_ptr e + 4 = p /\ x = (view me e).2.
Proof.
  intros Hn. unfold live_map. rewrite <- elem_of_list_to_map by by apply live_distinct. rewrite list_elem_of_fmap. split.
  - intros (e & E & He). exists e. unfold view in E. injection E as -> ->. done.
  - intros (e & He & <- & ->). exists e. split; [by destruct (view me e) eqn:E; injection E as <- <-|done].
Qed.

Lemma live_none me es p : live_map me es !! p = None <-> p - 4 ∉ se_ptr <$> es.
Proof.
  unfold live_map. rewrite <- not_elem_of_list_to_map, view_keys. split; intros H Hin; apply H.
  - apply list_elem_of_fmap. exists (p - 4). split; [lia|done].
  - apply list_elem_of_fmap in Hin as (q & -> & Hq). by replace (q + 4 - 4) with q by lia.
Qed.

Lemma live_cons me e es : live_map me (e :: es) = <[se_ptr e + 4 := (view me e).2]> (live_map me es).
Proof. done. Qed.

(** ** The operations *)

Inductive heap_op : Type :=
| Malloc (file : list Z) (line n : Z)
| Free (file : list Z) (line p : Z)
| Realloc (file : list Z) (line p n : Z)
| Unlink (file : list Z) (line p : Z)
| FindItem (p : Z)
| Poke (a b : Z).

(** The block of [n] bytes for the program at [p] is in the memory and overlaps none of [m]. *)
Definition apart (m : gmap Z live_block) (p n : Z) : Prop :=
  0 < p /\ p + n < 2 ^ 64 /\ forall q x, m !! q = Some x -> p + n <= q \/ q + len x <= p.

Definition awaited (m : gmap Z live_block) (raw : list (Z * Z)) (o : heap_op) (r : option Z) (msgs : list message)
    (m' : gmap Z live_block) (raw' : list (Z * Z)) : Prop :=
  match o with
  | Malloc file line n =>
      msgs = [] /\ raw' = raw /\
      exists p data, r = Some p /\ m !! p = None /\ Heap_roundup n = Ret (Z.of_nat (length data)) /\
        apart m p (Z.of_nat (length data)) /\ m' = <[p := Live file line data]> m
  | Free file line p =>
      r = None /\ raw' = raw /\ m' = delete p m /\ msgs = match m !! p with Some _ => [] | None => [Failed_to_remove file line] end
  | Realloc file line p n =>
      raw' = raw /\
      match m !! p with
      | None => r = None /\ m' = m /\ msgs = [Failed_to_reallocate file line]
      | Some x =>
          msgs = [] /\
          exists q data, r = Some q /\ delete p m !! q = None /\ Heap_roundup n = Ret (Z.of_nat (length data)) /\
            apart (delete p m) q (Z.of_nat (length data)) /\
            take (min (length data) (length (lv_data x))) data = take (min (length data) (length (lv_data x))) (lv_data x) /\
            m' = <[q := Live file line data]> (delete p m)
      end
  | Unlink file line p =>
      r = None /\ m' = delete p m /\
      match m !! p with
      | Some x => msgs = [] /\ raw' = (p - 4, len x + 8) :: raw
      | None => msgs = [Failed_to_remove file line] /\ raw' = raw
      end
  | FindItem p => msgs = [] /\ raw' = raw /\ m' = m /\ r = match m !! p with Some _ => Some (p - 4) | None => None end
  | Poke a b =>
      msgs = [] /\ raw' = raw /\ r = None /\
      exists p x, m !! p = Some x /\ p <= a < p + len x /\
        m' = <[p := Live (lv_file x) (lv_line x) (<[Z.to_nat (a - p) := b]> (lv_data x))]> m
  end.

(** What a program may ask for: sizes that an [int] can hold, addresses, bytes of its own blocks; and not
    too many blocks. *)
Definition max_blocks : Z := 2 ^ 20.
Definition ok_heap_op (m : gmap Z live_block) (raw : list (Z * Z)) (o : heap_op) : Prop :=
  match o with
  | Malloc file _ n => 0 <= n < 2 ^ 31 - 16 /\ strlen file < 2 ^ 30 /\ 3 * Z.of_nat (base.size m) + Z.of_nat (length raw) + 3 <= max_blocks
  | Realloc file _ p n => 0 <= p < 2 ^ 64 /\ 0 <= n < 2 ^ 31 - 16 /\ strlen file < 2 ^ 30 /\
      3 * Z.of_nat (base.size m) + Z.of_nat (length raw) + 3 <= max_blocks
  | Free _ _ p | Unlink _ _ p | FindItem p => 0 <= p < 2 ^ 64
  | Poke a _ => exists p x, m !! p = Some x /\ p <= a < p + len x
  end.

(** An allocator that has memory for so many blocks of less than 4 GB. *)
Class Plenty `{Allocator} : Prop :=
  alloc_some k bs n : Z.of_nat (base.size bs) < max_blocks -> map_Forall (fun _ m => m < 2 ^ 32) bs -> 0 <= n < 2 ^ 32 ->
    alloc k bs n <> None.

Section Ops.
Context `{Plenty}.

Definition run_heap (o : heap_op) : HM (option Z) :=
  match o with
  | Malloc file line n => mymalloc file line n
  | Free file line p => myfree file line p ;^ hret None
  | Realloc file line p n => myrealloc file line p n
  | Unlink file line p => Heap_unlink file line p ;^ hret None
  | FindItem p => let^ s := Heap_findItem p in hret (option_map se_ptr s)
  | Poke a b => hmod (fun h => set_mem (fun x => if x =? a then b else mem h x) h) ;^ hret None
  end.

Lemma hwp_plenty n h (Q : option Z -> heap_t -> Prop) :
  Z.of_nat (base.size (blocks h)) < max_blocks -> map_Forall (fun _ m => m < 2 ^ 32) (blocks h) -> 0 <= n < 2 ^ 32 ->
  (forall a, fits (blocks h) a n -> Q (Some a) (set_blocks (<[a := n]> (blocks h)) (tick h))) -> hwp (c_malloc n) h Q.
Proof.
  intros H1 H2 H3 HQ. apply hwp_malloc. pose proof (alloc_some (calls h) (blocks h) n H1 H2 H3) as Hs.
  destruct (alloc (calls h) (blocks h) n) as [a|]; [by apply HQ|done].
Qed.

(** The size of the blocks in the ledger. *)
Lemma tracked_small es raw t bs me cur : tracked es raw t bs me cur -> map_Forall (fun _ m => m < 2 ^ 32) bs.
Proof.
  intros [_ Hb Hd _ Hi Hr _] a n Ha. rewrite Hb in Ha. apply elem_of_list_to_map_2 in Ha. unfold ledger in Ha.
  apply elem_of_app in Ha as [Ha|Ha]; [|rewrite Forall_forall in Hr; by apply (Hr _ Ha)].
  apply list_elem_of_In, in_concat in Ha as (l & (e & -> & He)%list_elem_of_In%list_elem_of_fmap & Ha%list_elem_of_In).
  rewrite Forall_forall in Hi. destruct (Hi e He) as (H1 & H2 & _). unfold owned in Ha.
  rewrite !elem_of_cons in Ha. destruct Ha as [[= _ ->]|[[= _ ->]|[[= _ ->]|Ha]]]; [lia..|by apply elem_of_nil in Ha].
Qed.

Lemma ledger_length es raw : Z.of_nat (length (ledger es raw)) = 3 * Z.of_nat (length es) + Z.of_nat (length raw).
Proof. unfold ledger. rewrite length_app. induction es as [|e es IH]; cbn; [lia|]. cbn in IH. lia. Qed.

Lemma tracked_count es raw t bs me cur : tracked es raw t bs me cur ->
  Z.of_nat (base.size bs) = 3 * Z.of_nat (base.size (live_map me es)) + Z.of_nat (length raw).
Proof.
  intros Ht. pose proof (ptrs_distinct _ _ _ _ _ _ Ht) as Hn. rewrite (td_blocks _ _ _ _ _ _ Ht).
  rewrite map_size_list_to_map by apply Ht. rewrite ledger_length. unfold live_map.
  rewrite map_size_list_to_map by by apply live_distinct. by rewrite length_fmap.
Qed.

Lemma size_insert_le (bs : gmap Z Z) a n : Z.of_nat (base.size (<[a := n]> bs)) <= Z.of_nat (base.size bs) + 1.
Proof. rewrite map_size_insert. destruct (bs !! a); unfold id; lia. Qed.

Lemma Heap_roundup_ok n : 0 <= n < 2 ^ 31 - 16 -> exists r, Heap_roundup (s32 n) = Ret r /\ Heap_roundup n = Ret r /\ 0 <= r < 2 ^ 31.
Proof. intros Hn. destruct (roundup_spec n Hn) as (r & E & H1 & _). exists r. rewrite s32_id by lia. split; [done|]. split; [done|]. lia. Qed.

Definition simulated (m : gmap Z live_block) (raw : list (Z * Z)) (o : heap_op) (h : heap_t) : Prop :=
  hwp (run_heap o) h (fun r h' => exists msgs m' raw',
    awaited m raw o r msgs m' raw' /\ tracks m' raw' h' /\ log h' = log h ++ msgs).

(** The eyecatchers of a new block of [r] bytes at [p]. *)
Definition eyes (p r : Z) (me : Z -> Z) : Z -> Z := store_bytes (p + (4 + r)) eyecatcher (store_bytes p eyecatcher me).

Lemma eyes_other p r me x : 0 <= r -> x < p \/ p + (r + 8) <= x \/ p + 4 <= x < p + 4 + r -> eyes p r me x = me x.
Proof. intros Hr Hx. unfold eyes. rewrite !store_other by lia. done. Qed.

Lemma eyes_intact s f file line p r me : 0 <= r < 2 ^ 31 -> strlen file < 2 ^ 30 -> intact (eyes p r me) (MkElement s f file line p r).
Proof.
  intros Hr Hf. unfold intact, eyes. cbn. split; [done|]. split; [done|]. split.
  - eapply eye_ext; [|apply store_eye]. intros x Hx. apply store_other. lia.
  - replace (p + 4 + r) with (p + (4 + r)) by lia. apply store_eye.
Qed.

(** A block that fits beside those of [es] is new to the program and apart. *)
Lemma placed es raw t bs me cur bs' p r : tracked es raw t bs me cur -> bs ⊆ bs' -> fits bs' p (r + 8) -> 0 <= r ->
  p ∉ se_ptr <$> es /\ live_map me es !! (p + 4) = None /\ apart (live_map me es) (p + 4) r /\ agree es me (eyes p r me).
Proof.
  intros Ht Hs Hf Hr. apply (fits_subset _ _ _ _ Hs) in Hf. assert (Hp : p ∉ se_ptr <$> es).
  { intros (e & -> & He)%list_elem_of_fmap. destruct (tracked_block e es raw t bs me cur Ht He) as (Hb & _). destruct Hf as (_ & _ & Hn & _). congruence. }
  split; [done|]. split; [apply live_none; by replace (p + 4 - 4) with p by lia|]. split.
  - pose proof Hf as (F0 & F1 & _). split; [lia|]. split; [lia|].
    intros q x Hq. apply live_lookup in Hq as (e & He & <- & ->); [|by eapply ptrs_distinct].
    destruct (tracked_block e es raw t bs me cur Ht He) as (Hb & _). destruct Hf as (_ & _ & _ & Hd). unfold len. cbn.
    assert (Hi : 0 <= se_size e) by (pose proof (td_intact _ _ _ _ _ _ Ht) as Hi; rewrite Forall_forall in Hi; destruct (Hi e He); lia).
    rewrite slice_length by done. destruct (Hd _ _ Hb); lia.
  - intros e x He Hx. destruct (tracked_block e es raw t bs me cur Ht He) as (Hb & _). destruct Hf as (_ & _ & _ & Hd).
    apply eyes_other; [done|]. destruct (Hd _ _ Hb); lia.
Qed.

Lemma malloc_simulated m raw file line n h :
  tracks m raw h -> ok_heap_op m raw (Malloc file line n) -> simulated m raw (Malloc file line n) h.
Proof.
  intros (Hmu & es & Ht & ->) (Hn & Hf & Hc). destruct (Heap_roundup_ok n Hn) as (r & Er & Er' & Hr).
  pose proof (tracked_count _ _ _ _ (mem h) _ Ht) as Hsz. pose proof (strlen_nonneg file) as Hfl. pose proof (tracked_small _ _ _ _ _ _ Ht) as Hsm.
  unfold simulated. cbn [run_heap]. unfold mymalloc, sizeof_storageElement, sizeof_int.
  apply hwp_bind, hwp_lock; [done|]. apply hwp_bind, (hwp_lift _ r); [done|]. rewrite (size_t_id r) by lia.
  apply hwp_bind, hwp_plenty; cbn; [lia|done|lia|]. intros s Hs.
  pose proof (size_insert_le (blocks h) s 32) as Hsz1.
  assert (Hsm1 : map_Forall (fun _ m => m < 2 ^ 32) (<[s := 32]> (blocks h))) by by apply map_Forall_insert_2; [lia|].
  apply hwp_bind, hwp_plenty; cbn; [lia|done|lia|]. intros f Hff. set (bs2 := <[f := strlen file + 1]> (<[s := 32]> (blocks h))) in *.
  pose proof (size_insert_le (<[s := 32]> (blocks h)) f (strlen file + 1)) as Hsz2. fold bs2 in Hsz2.
  rewrite (size_t_id (r + 2 * 4)) by lia. replace (r + 2 * 4) with (r + 8) by lia.
  apply hwp_bind, hwp_plenty; cbn; [lia|by apply map_Forall_insert_2; [lia|]|lia|]. intros p Hp.
  assert (Hsub : blocks h ⊆ bs2) by (etransitivity; [apply insert_subseteq, Hs|apply insert_subseteq, Hff]).
  destruct (placed es raw _ _ _ _ bs2 p r Ht Hsub Hp ltac:(lia)) as (Hnew & Hlive & Hapart & Hagree). pose proof Hp as (Hp0 & Hp1 & _ & _).
  apply hwp_bind, (hwp_store p (r + 8)); cbn; [by rewrite lookup_insert_eq|lia..|].
  rewrite (size_t_id (p + (4 + r))) by lia. apply hwp_bind, (hwp_store p (r + 8)); cbn; [by rewrite lookup_insert_eq|lia..|].
  fold (eyes p r (mem h)). rewrite (s32_id r) by lia.
  destruct (elements_add (MkElement s f file line p r) (s32 (32 + (strlen file + 1) + r + 2 * 4)) es (heap h)) as (t' & Et & He); [apply Ht|done|].
  apply hwp_bind, (hwp_tree _ None t'); [exact Et|]. apply hwp_bind, hwp_bind, hwp_get, hwp_mod. cbn. apply hwp_bind, hwp_mod, hwp_ret.
  exists [], (<[p + 4 := Live file line (slice (eyes p r (mem h)) (p + 4) r)]> (live_map (mem h) es)), raw. split; [|split].
  - split; [done|]. split; [done|]. exists (p + 4), (slice (eyes p r (mem h)) (p + 4) r). rewrite slice_length by lia. done.
  - split; [done|]. exists (MkElement s f file line p r :: es). cbn. split.
    + apply (tracked_new es raw (heap h) t' (blocks h) (mem h)); [done..|]. by apply eyes_intact.
    + by rewrite <- (live_agree es (mem h) (eyes p r (mem h))).
  - cbn. by rewrite app_nil_r.
Qed.

(** An address of the program, as a key of the tree. *)
Lemma key_eq es raw t bs me cur p : tracked es raw t bs me cur -> 0 <= p < 2 ^ 64 ->
  (p - 4 ∈ se_ptr <$> es -> size_t (p - 4) = p - 4) /\ (size_t (p - 4) ∈ se_ptr <$> es -> size_t (p - 4) = p - 4).
Proof.
  intros Ht Hp. assert (Hb : forall q, q ∈ se_ptr <$> es -> 0 < q < 2 ^ 64 - 8).
  { intros q (e & -> & He)%list_elem_of_fmap. destruct (tracked_block _ _ _ _ _ _ _ Ht He) as (_ & H1 & H2).
    pose proof (td_intact _ _ _ _ _ _ Ht) as Hi. rewrite Forall_forall in Hi. destruct (Hi e He). lia. }
  split; intros Hin; apply Hb in Hin; [by apply size_t_id; lia|]. destruct (decide (4 <= p)); [by apply size_t_id; lia|].
  unfold size_t in *. replace (p - 4) with (p + 2 ^ 64 - 4 + -1 * 2 ^ 64) in Hin |- * by lia. rewrite Z.mod_add in Hin |- * by lia.
  rewrite Z.mod_small in Hin |- * by lia. lia.
Qed.

(** What [TreeFind] and [TreeRemoveKey] look for. *)
Lemma live_key es raw t bs me cur p : tracked es raw t bs me cur -> 0 <= p < 2 ^ 64 ->
  (size_t (p - 4) ∉ se_ptr <$> es -> live_map me es !! p = None) /\
  (forall e, e ∈ es -> se_ptr e = size_t (p - 4) -> p = se_ptr e + 4 /\ live_map me es !! p = Some (view me e).2).
Proof.
  intros Ht Hp. destruct (key_eq _ _ _ _ _ _ p Ht Hp) as [H1 H2]. split.
  - intros Hn. apply live_none. intros Hin. apply Hn. by rewrite (H1 Hin).
  - intros e He E. assert (Ep : p = se_ptr e + 4) by (rewrite E, H2; [lia|]; rewrite <- E; by apply list_elem_of_fmap_2).
    split; [done|]. apply live_lookup; [by eapply ptrs_distinct|]. by exists e.
Qed.

Lemma delete_live e es es' raw t bs me cur : tracked es raw t bs me cur -> es ≡ₚ e :: es' ->
  live_map me es' = delete (se_ptr e + 4) (live_map me es).
Proof.
  intros Ht Hp. pose proof (ptrs_distinct _ _ _ _ _ _ Ht) as Hn. rewrite (live_perm me es (e :: es')), live_cons by done.
  rewrite delete_insert_id; [done|]. rewrite Hp in Hn. cbn in Hn. apply NoDup_cons in Hn as [Hn _]. apply live_none.
  by replace (se_ptr e + 4 - 4) with (se_ptr e) by lia.
Qed.

(** [Internal_heap_unlink] *)
Lemma unlink_run es raw h file line p Q : tracked es raw (heap h) (blocks h) (mem h) (current_size h) -> 0 <= p < 2 ^ 64 ->
  (live_map (mem h) es !! p = None -> Q false (add_log (Failed_to_remove file line) h)) ->
  (forall e es' t' bs' c, es ≡ₚ e :: es' -> p = se_ptr e + 4 -> live_map (mem h) es !! p = Some (view (mem h) e).2 ->
    tracked es' ((se_ptr e, se_size e + 8) :: raw) t' bs' (mem h) c ->
    Q true (MkHeap t' c (max_size h) (heap_mutex h) bs' (mem h) (calls h) (log h))) ->
  hwp (Internal_heap_unlink file line p) h Q.
Proof.
  intros Ht Hp Hno Hyes. unfold Internal_heap_unlink, sizeof_int.
  destruct (elements_find (size_t (p - 4)) es (heap h)) as (q & Eq & Hq); [apply Ht|]. destruct (live_key es raw _ _ _ _ p Ht Hp) as [L1 L2].
  apply hwp_bind, (hwp_tree _ q (heap h)); [exact Eq|]. replace (set_heap (heap h) h) with h by by destruct h.
  destruct q as [a|]; [|apply hwp_bind, hwp_mod, hwp_ret; by apply Hno, L1].
  destruct Hq as (e & es' & nd & t' & c & Ee & Hperm & En & Ec & Er & He').
  assert (Hin : e ∈ es) by (rewrite Hperm; by left). destruct (L2 e Hin Ee) as [-> Hl].
  destruct (tracked_block _ _ _ _ _ _ _ Ht Hin) as (Hb & Hb0 & Hb1).
  assert (Ht' : tracked (e :: es') raw (heap h) (blocks h) (mem h) (current_size h)) by by eapply tracked_perm.
  assert (Hi : intact (mem h) e) by (pose proof (td_intact _ _ _ _ _ _ Ht) as Hi; rewrite Forall_forall in Hi; by apply Hi).
  destruct Hi as (H1 & H2 & H3 & H4). destruct (tracked_head _ _ _ _ _ _ _ Ht') as (R & _ & HR & _ & _ & _ & N1 & N2 & N3 & _).
  apply hwp_bind, (hwp_tree _ nd (heap h)); [exact En|]. replace (set_heap (heap h) h) with h by by destruct h.
  apply hwp_bind, (hwp_lift _ e); [by rewrite Ec|]. apply hwp_bind, (hwp_check file line _ (se_size e) (se_ptr e)); [done|done|done|lia|lia|lia|done|done|].
  apply hwp_bind, (hwp_free _ (strlen (se_file e) + 1)); [rewrite HR; by simplify_map_eq|]. apply hwp_bind, hwp_mod.
  apply hwp_bind, (hwp_tree _ c t'); [exact Er|]. apply hwp_bind, (hwp_free _ 32); [cbn; rewrite HR; by simplify_map_eq|]. apply hwp_ret. cbn.
  apply (Hyes e es'); [done|done|done|]. by eapply tracked_unlink.
Qed.

Lemma free_simulated m raw file line p h :
  tracks m raw h -> ok_heap_op m raw (Free file line p) -> simulated m raw (Free file line p) h.
Proof.
  intros (Hmu & es & Ht & ->) Hp. cbn in Hp. unfold simulated. cbn [run_heap]. unfold myfree, sizeof_int.
  apply hwp_bind, hwp_bind, hwp_lock; [done|]. apply hwp_bind, (unlink_run es raw); [done|done| |].
  - intros Hl. apply hwp_bind, hwp_ret, hwp_mod, hwp_ret. exists [Failed_to_remove file line], (live_map (mem h) es), raw.
    cbn in Hl |- *. rewrite Hl. split; [|split; [|done]].
    + by rewrite (delete_id _ _ Hl).
    + split; [done|]. by exists es.
  - intros e es' t' bs' c Hperm -> Hl Ht'. cbn in Hl, Ht' |- *. apply hwp_bind.
    assert (Hb : bs' !! se_ptr e = Some (se_size e + 8)).
    { rewrite (td_blocks _ _ _ _ _ _ Ht'). apply elem_of_list_to_map; [apply Ht'|]. unfold ledger. apply elem_of_app. right. by left. }
    assert (Hin : e ∈ es) by (rewrite Hperm; by left). destruct (tracked_block _ _ _ _ _ _ _ Ht Hin) as (_ & Hb0 & Hb1).
    rewrite size_t_id by (pose proof (td_ok _ _ _ _ _ _ Ht') as [Ho _]; specialize (Ho _ _ Hb); lia).
    replace (se_ptr e + 4 - 4) with (se_ptr e) by lia. apply (hwp_free _ (se_size e + 8)); [done|]. apply hwp_mod, hwp_ret.
    exists [], (delete (se_ptr e + 4) (live_map (mem h) es)), raw. rewrite Hl. split; [done|]. split; [|cbn; by rewrite app_nil_r].
    split; [done|]. exists es'. cbn. split; [by eapply tracked_free|]. symmetry; by eapply delete_live.
Qed.

Lemma unlink_simulated m raw file line p h :
  tracks m raw h -> ok_heap_op m raw (Unlink file line p) -> simulated m raw (Unlink file line p) h.
Proof.
  intros (Hmu & es & Ht & ->) Hp. cbn in Hp. unfold simulated. cbn [run_heap]. unfold Heap_unlink.
  apply hwp_bind, hwp_bind, hwp_lock; [done|]. apply hwp_bind, (unlink_run es raw); [done|done| |].
  - intros Hl. apply hwp_mod, hwp_ret. exists [Failed_to_remove file line], (live_map (mem h) es), raw.
    cbn in Hl |- *. rewrite Hl. split; [|split; [|done]].
    + by rewrite (delete_id _ _ Hl).
    + split; [done|]. by exists es.
  - intros e es' t' bs' c Hperm -> Hl Ht'. cbn in Hl, Ht' |- *. apply hwp_mod, hwp_ret.
    exists [], (delete (se_ptr e + 4) (live_map (mem h) es)), ((se_ptr e, se_size e + 8) :: raw). rewrite Hl.
    assert (Hin : e ∈ es) by (rewrite Hperm; by left).
    assert (H1 : 0 <= se_size e) by (pose proof (td_intact _ _ _ _ _ _ Ht) as Hi; rewrite Forall_forall in Hi; destruct (Hi e Hin); lia).
    split; [|split; [|cbn; by rewrite app_nil_r]].
    + split; [done|]. split; [done|]. split; [done|]. unfold len. cbn. rewrite slice_length by done. do 2 f_equal. lia.
    + split; [done|]. exists es'. cbn. split; [done|]. symmetry; by eapply delete_live.
Qed.

Lemma find_simulated m raw p h : tracks m raw h -> ok_heap_op m raw (FindItem p) -> simulated m raw (FindItem p) h.
Proof.
  intros (Hmu & es & Ht & ->) Hp. cbn in Hp. unfold simulated. cbn [run_heap]. unfold Heap_findItem, sizeof_int.
  destruct (elements_find (size_t (p - 4)) es (heap h)) as (q & Eq & Hq); [apply Ht|]. destruct (live_key es raw _ _ _ _ p Ht Hp) as [L1 L2].
  apply hwp_bind, hwp_bind, hwp_lock; [done|]. apply hwp_bind, (hwp_tree _ q (heap h)); [exact Eq|]. apply hwp_bind, hwp_mod.
  destruct q as [a|].
  - destruct Hq as (e & es' & nd & t' & c & Ee & Hperm & En & Ec & _). assert (Hin : e ∈ es) by (rewrite Hperm; by left).
    destruct (L2 e Hin Ee) as [-> Hl]. apply hwp_bind, (hwp_tree _ nd (heap h)); [exact En|]. rewrite Ec. apply hwp_ret, hwp_ret.
    exists [], (live_map (mem h) es), raw. cbn in Hl |- *. rewrite Hl, app_nil_r. replace (se_ptr e + 4 - 4) with (se_ptr e) by lia.
    split; [done|]. split; [|done]. split; [done|]. by exists es.
  - apply hwp_ret, hwp_ret. exists [], (live_map (mem h) es), raw. cbn. rewrite (L1 Hq), app_nil_r.
    split; [done|]. split; [|done]. split; [done|]. by exists es.
Qed.

Lemma slice_lookup me a n i : slice me a n !! i = if decide (Z.of_nat i < n) then Some (me (a + Z.of_nat i)) else None.
Proof.
  unfold slice. rewrite list_lookup_fmap. destruct (decide (Z.of_nat i < n)); [rewrite lookup_seqZ_lt by lia|rewrite lookup_seqZ_ge by lia]; cbn; [|done].
  do 2 f_equal.
Qed.

Lemma slice_poke me a n k b : a <= k < a + n ->
  slice (fun x => if x =? k then b else me x) a n = <[Z.to_nat (k - a) := b]> (slice me a n).
Proof.
  intros Hk. apply list_eq. intros i. rewrite slice_lookup. destruct (decide (i = Z.to_nat (k - a))) as [->|Hne].
  - rewrite list_lookup_insert_eq; [|pose proof (slice_length me a n ltac:(lia)); lia].
    rewrite decide_True by lia. destruct (Z.eqb_spec (a + Z.of_nat (Z.to_nat (k - a))) k); [done|lia].
  - rewrite list_lookup_insert_ne, slice_lookup by done. destruct (decide _); [|done]. destruct (Z.eqb_spec (a + Z.of_nat i) k); [lia|done].
Qed.

Lemma poke_simulated m raw a b h : tracks m raw h -> ok_heap_op m raw (Poke a b) -> simulated m raw (Poke a b) h.
Proof.
  intros (Hmu & es & Ht & ->) (p & x & Hx & Ha). unfold simulated. cbn [run_heap]. apply hwp_bind, hwp_mod, hwp_ret.
  set (me' := fun x => if x =? a then b else mem h x). pose proof (ptrs_distinct _ _ _ _ _ _ Ht) as Hn.
  apply live_lookup in Hx as (e & Hin & <- & ->); [|done]. destruct (proj1 (elem_of_Permutation _ _) Hin) as (es' & Hperm).
  assert (Hi : intact (mem h) e) by (pose proof (td_intact _ _ _ _ _ _ Ht) as Hi; rewrite Forall_forall in Hi; by apply Hi).
  destruct Hi as (H1 & H2 & H3 & H4). unfold len in Ha. cbn in Ha. rewrite slice_length in Ha by lia.
  assert (Hag : agree es' (mem h) me').
  { intros e' y He' Hy. unfold me'. destruct (Z.eqb_spec y a) as [->|]; [exfalso|done].
    destruct (tracked_block e es raw _ _ _ _ Ht Hin) as (B1 & _). destruct (tracked_block e' es raw _ _ _ _ Ht) as (B2 & _); [rewrite Hperm; by right|].
    assert (Hne : se_ptr e <> se_ptr e') by (intros E; rewrite Hperm in Hn; cbn in Hn; apply NoDup_cons in Hn as [Hn _]; apply Hn; rewrite E; by apply list_elem_of_fmap_2).
    destruct (proj2 (td_ok _ _ _ _ _ _ Ht) _ _ _ _ B1 B2 Hne); lia. }
  assert (Hint : intact me' e).
  { split; [done|]. split; [done|]. split; [eapply eye_ext; [|exact H3]|eapply eye_ext; [|exact H4]]; intros y Hy; unfold me';
      destruct (Z.eqb_spec y a); (done || lia). }
  exists [], (<[se_ptr e + 4 := Live (se_file e) (se_line e) (<[Z.to_nat (a - (se_ptr e + 4)) := b]> (slice (mem h) (se_ptr e + 4) (se_size e)))]>
    (live_map (mem h) es)), raw. split; [|split; [|cbn; by rewrite app_nil_r]].
  - split; [done|]. split; [done|]. split; [done|]. eexists (se_ptr e + 4), _. split; [apply live_lookup; [done|by exists e]|].
    unfold len. cbn. by rewrite slice_length by lia.
  - split; [done|]. exists es. split.
    + apply (tracked_perm (e :: es')); [done|]. destruct (tracked_perm _ (e :: es') _ _ _ _ _ Hperm Ht) as [T1 T2 T3 T4 T5 T6 T7].
      split; try done. apply Forall_cons in T5 as [_ T5]. constructor; [done|by eapply intact_agree].
    + cbn. fold me'. rewrite (live_perm (mem h) es (e :: es')), (live_perm me' es (e :: es')), !live_cons by done.
      rewrite insert_insert_eq, (live_agree es' (mem h) me' Hag). unfold view. cbn. unfold me'. by rewrite slice_poke by lia.
Qed.

(** ** [myrealloc] *)

Lemma slice_take me me' a a' n n' : (forall i, 0 <= i < Z.min n n' -> me' (a' + i) = me (a + i)) -> 0 <= n -> 0 <= n' ->
  take (min (length (slice me' a' n')) (length (slice me a n))) (slice me' a' n') =
  take (min (length (slice me' a' n')) (length (slice me a n))) (slice me a n).
Proof.
  intros Hm H1 H2. pose proof (slice_length me a n H1) as L1. pose proof (slice_length me' a' n' H2) as L2. apply list_eq. intros i.
  destruct (decide (i < min (length (slice me' a' n')) (length (slice me a n)))%nat).
  - rewrite !lookup_take_lt, !slice_lookup by done. rewrite !decide_True by lia. by rewrite Hm by lia.
  - by rewrite !lookup_take_ge by lia.
Qed.

(** The bytes [[p, p + n)] are copied to [q]. *)
Definition moved (p q n : Z) (me : Z -> Z) : Z -> Z := fun x => if (q <=? x) && (x <? q + n) then me (x - q + p) else me x.

Lemma hwp_replenty p m n h (Q : option Z -> heap_t -> Prop) :
  blocks h !! p = Some m -> Z.of_nat (base.size (blocks h)) < max_blocks -> map_Forall (fun _ m => m < 2 ^ 32) (blocks h) ->
  0 <= n < 2 ^ 32 ->
  (forall a, fits (delete p (blocks h)) a n -> Q (Some a) (set_mem (moved p a (Z.min m n) (mem h))
    (set_blocks (<[a := n]> (delete p (blocks h))) (tick h)))) ->
  hwp (c_realloc p n) h Q.
Proof.
  intros Hp H1 H2 H3 HQ. apply (hwp_realloc _ m); [done|].
  assert (Hs : Z.of_nat (base.size (delete p (blocks h))) < max_blocks) by (rewrite map_size_delete, Hp; lia).
  pose proof (alloc_some (calls h) _ n Hs (map_Forall_delete _ _ _ H2) H3) as Ha. destruct (alloc _ _ n) as [a|]; [by apply HQ|done].
Qed.


Lemma moved_in p q n me i : 0 <= i < n -> moved p q n me (q + i) = me (p + i).
Proof. intros Hi. unfold moved. destruct (Z.leb_spec q (q + i)), (Z.ltb_spec (q + i) (q + n)); cbn; try lia. f_equal. lia. Qed.

Lemma moved_out p q n me x : x < q \/ q + n <= x -> moved p q n me x = me x.
Proof. intros Hx. unfold moved. destruct (Z.leb_spec q x), (Z.ltb_spec x (q + n)); cbn; (done || lia). Qed.

(** The blocks of an element that is out of the tree, while its block and its name move. *)
Section Move.
Context (R bs : gmap Z Z) (p f s np f' n n' r l : Z).
Hypothesis Hbs : bs = <[p := n]> (<[f := n']> (<[s := 32]> R)).
Hypothesis (Np : R !! p = None) (Nf : R !! f = None) (Ns : R !! s = None) (N1 : p <> f) (N2 : p <> s) (N3 : f <> s).
Hypothesis (Hnp : fits (delete p bs) np r) (Hf' : fits (delete f (<[np := r]> (delete p bs))) f' l).

Lemma move_names : np <> f /\ np <> s /\ R !! np = None /\ f' <> np /\ f' <> s /\ R !! f' = None.
Proof.
  destruct Hnp as (_ & _ & H1 & _), Hf' as (_ & _ & H2 & _). subst bs.
  assert (E1 : np <> f) by (intros ->; by simplify_map_eq). assert (E2 : np <> s) by (intros ->; by simplify_map_eq).
  assert (E3 : f' <> np) by (intros ->; by simplify_map_eq). assert (E4 : f' <> s) by (intros ->; by simplify_map_eq).
  split; [done|]. split; [done|]. split; [|split; [done|split; [done|]]].
  - destruct (decide (np = p)) as [->|]; by simplify_map_eq.
  - destruct (decide (f' = f)) as [->|]; [done|]. destruct (decide (f' = p)) as [->|]; by simplify_map_eq.
Qed.

Lemma move_blocks : <[f' := l]> (delete f (<[np := r]> (delete p bs))) = <[np := r]> (<[f' := l]> (<[s := 32]> R)).
Proof.
  destruct move_names as (E1 & E2 & _ & E3 & _). subst bs. apply map_eq. intros i.
  destruct (decide (i = f')) as [->|]; [by simplify_map_eq|]. destruct (decide (i = f)) as [->|]; [by simplify_map_eq|].
  destruct (decide (i = np)) as [->|]; [by simplify_map_eq|]. destruct (decide (i = p)) as [->|]; [by simplify_map_eq|].
  destruct (decide (i = s)) as [->|]; by simplify_map_eq.
Qed.

Lemma move_subset : <[s := 32]> R ⊆ delete p bs /\ <[s := 32]> R ⊆ delete f (<[np := r]> (delete p bs)).
Proof.
  destruct move_names as (E1 & E2 & E3 & _). subst bs. split; apply map_subseteq_spec; intros i x Hi;
    (destruct (decide (i = s)) as [->|]; [by simplify_map_eq|]); simplify_map_eq;
    assert (i <> p) by congruence; assert (i <> f) by congruence; assert (i <> np) by congruence; by simplify_map_eq.
Qed.

Lemma move_name_fits : fits (<[s := 32]> R) f' l.
Proof. eapply fits_subset; [apply move_subset|exact Hf']. Qed.

Lemma move_block_fits : fits (<[f' := l]> (<[s := 32]> R)) np r.
Proof.
  destruct move_names as (E1 & E2 & E3 & E4 & E5 & E6). destruct (fits_subset _ _ _ _ (proj1 move_subset) Hnp) as (H1 & H2 & H3 & H4).
  destruct Hf' as (_ & _ & _ & Hd). split; [done|]. split; [done|]. split; [by simplify_map_eq|].
  intros b m [[<- <-]|[_ Hb]]%lookup_insert_Some; [|by apply H4].
  destruct (Hd np r); [by simplify_map_eq|lia..].
Qed.
End Move.

(** The memory after the block and the name of [e] have moved. *)
Definition moved_mem (e : storageElement) (np r f' l : Z) (me : Z -> Z) : Z -> Z :=
  moved (se_file_ptr e) f' (Z.min (strlen (se_file e) + 1) l) (eyes np r (moved (se_ptr e) np (Z.min (se_size e + 8) (r + 8)) me)).

(** All the blocks of the first element go. *)
Lemma tracked_out e es raw t t1 bs me cur : tracked (e :: es) raw t bs me cur -> elements es t1 ->
  exists R, bs = <[se_ptr e := se_size e + 8]> (<[se_file_ptr e := strlen (se_file e) + 1]> (<[se_self e := 32]> R)) /\
    R !! se_ptr e = None /\ R !! se_file_ptr e = None /\ R !! se_self e = None /\
    se_ptr e <> se_file_ptr e /\ se_ptr e <> se_self e /\ se_file_ptr e <> se_self e /\
    tracked es raw t1 R me (s32 (cur - se_size e)) /\ fits R (se_self e) 32.
Proof.
  intros Ht He. destruct (tracked_head _ _ _ _ _ _ _ Ht) as (R & _ & Hbs & Np & Nf & Ns & N1 & N2 & N3 & _).
  exists R. do 7 (split; [done|]). split.
  - pose proof (tracked_free _ _ _ _ _ _ _ _ (tracked_unlink e es raw t t1 bs me cur Ht He)) as T. revert T.
    replace (delete (se_ptr e) (delete (se_self e) (delete (se_file_ptr e) bs))) with R; [done|]. rewrite Hbs. apply map_eq. intros i.
    destruct (decide (i = se_ptr e)) as [->|]; [by simplify_map_eq|]. destruct (decide (i = se_self e)) as [->|]; [by simplify_map_eq|].
    destruct (decide (i = se_file_ptr e)) as [->|]; by simplify_map_eq.
  - destruct Ht as [_ _ _ [O1 O2] _ _ _]. assert (Hl : bs !! se_self e = Some 32) by (rewrite Hbs; by simplify_map_eq).
    destruct (O1 _ _ Hl) as (? & _ & ?). split; [done|]. split; [done|]. split; [done|]. intros b m Hb. apply (O2 _ _ _ _ Hl); [|congruence].
    rewrite Hbs. assert (b <> se_ptr e) by congruence. assert (b <> se_file_ptr e) by congruence. assert (b <> se_self e) by congruence. by simplify_map_eq.
Qed.

(** The new element in place of the old one. *)
Lemma tracked_move e es raw t t1 bs me cur file line np r f' : tracked (e :: es) raw t bs me cur -> elements es t1 ->
  0 <= r < 2 ^ 31 -> strlen file < 2 ^ 30 ->
  let bs1 := <[np := r + 8]> (delete (se_ptr e) bs) in
  fits (delete (se_ptr e) bs) np (r + 8) -> fits (delete (se_file_ptr e) bs1) f' (strlen file + 1) ->
  let e' := MkElement (se_self e) f' file line np r in
  let me' := moved_mem e np r f' (strlen file + 1) me in
  (forall t2, elements (e' :: es) t2 ->
    tracked (e' :: es) raw t2 (<[f' := strlen file + 1]> (delete (se_file_ptr e) bs1)) me' (s32 (cur + (r - se_size e)))) /\
  np ∉ se_ptr <$> es /\ live_map me es !! (np + 4) = None /\ apart (live_map me es) (np + 4) r /\ agree es me me' /\
  (forall x, np <= x < np + (r + 8) -> me' x = eyes np r (moved (se_ptr e) np (Z.min (se_size e + 8) (r + 8)) me) x).
Proof.
  intros Ht He Hr Hfl bs1 Hnp Hf' e' me'. pose proof (strlen_nonneg file) as Hfl0.
  destruct (tracked_out e es raw t t1 bs me cur Ht He) as (R & Hbs & Np & Nf & Ns & N1 & N2 & N3 & TR & Hs).
  assert (F1 : fits (<[se_self e := 32]> R) f' (strlen file + 1)) by by eapply (move_name_fits R bs).
  assert (F2 : fits (<[f' := strlen file + 1]> (<[se_self e := 32]> R)) np (r + 8)) by by eapply (move_block_fits R bs).
  assert (Eb : <[f' := strlen file + 1]> (delete (se_file_ptr e) bs1) = <[np := r + 8]> (<[f' := strlen file + 1]> (<[se_self e := 32]> R)))
    by by eapply (move_blocks R bs).
  assert (Hsub : R ⊆ <[f' := strlen file + 1]> (<[se_self e := 32]> R)) by (etransitivity; [by apply insert_subseteq|apply insert_subseteq, F1]).
  destruct (placed es raw t1 R me _ _ np r TR Hsub F2 ltac:(lia)) as (P1 & P2 & P3 & _).
  assert (Hapart : np + (r + 8) <= f' \/ f' + (strlen file + 1) <= np).
  { destruct F2 as (_ & _ & _ & D). by apply (D f'), lookup_insert_eq. }
  assert (Hmem : forall x, (x < np \/ np + (r + 8) <= x) -> (x < f' \/ f' + (strlen file + 1) <= x) -> me' x = me x).
  { intros x H1 H2. unfold me', moved_mem. rewrite moved_out, eyes_other, moved_out by lia. done. }
  assert (Hin : forall x, np <= x < np + (r + 8) -> me' x = eyes np r (moved (se_ptr e) np (Z.min (se_size e + 8) (r + 8)) me) x).
  { intros x Hx. unfold me', moved_mem. rewrite moved_out by lia. done. }
  assert (Hag : agree es me me').
  { intros e2 x H2 Hx. destruct (tracked_block e2 es raw t1 R me _ TR H2) as (B & _).
    apply (fits_subset _ _ _ _ Hsub) in F2. destruct F2 as (_ & _ & _ & D2). destruct F1 as (_ & _ & _ & D1).
    assert (B' : <[se_self e := 32]> R !! se_ptr e2 = Some (se_size e2 + 8)) by (rewrite lookup_insert_ne; [done|congruence]).
    apply Hmem; [destruct (D2 _ _ B); lia|destruct (D1 _ _ B'); lia]. }
  split; [|done]. intros t2 He2. rewrite Eb.
  replace (s32 (cur + (r - se_size e))) with (s32 (s32 (cur - se_size e) + r)) by (rewrite s32_add; f_equal; lia).
  apply (tracked_new es raw t1 t2 R me me'); [done..|]. destruct (eyes_intact (se_self e) f' file line np r
    (moved (se_ptr e) np (Z.min (se_size e + 8) (r + 8)) me) Hr Hfl) as (I1 & I2 & I3 & I4).
  split; [done|]. split; [done|]. split; [eapply eye_ext; [|exact I3]|eapply eye_ext; [|exact I4]]; cbn; intros x Hx; apply Hin; lia.
Qed.

Lemma realloc_simulated m raw file line p n h :
  tracks m raw h -> ok_heap_op m raw (Realloc file line p n) -> simulated m raw (Realloc file line p n) h.
Proof.
  intros (Hmu & es & Ht & ->) (Hp & Hn & Hf & Hc). destruct (Heap_roundup_ok n Hn) as (r & Er & Er' & Hr).
  pose proof (tracked_count _ _ _ _ (mem h) _ Ht) as Hsz. pose proof (strlen_nonneg file) as Hfl. pose proof (tracked_small _ _ _ _ _ _ Ht) as Hsm.
  unfold simulated. cbn [run_heap]. unfold myrealloc, sizeof_int. destruct (live_key es raw _ _ _ _ p Ht Hp) as [L1 L2].
  destruct (elements_remove (size_t (p - 4)) es (heap h)) as (c & t1 & Ec & Hrem); [apply Ht|].
  apply hwp_bind, hwp_lock; [done|]. apply hwp_bind, (hwp_tree _ c t1); [exact Ec|]. destruct c as [e|].
  2: { destruct Hrem as [Hno He]. apply hwp_bind, hwp_mod, hwp_bind, hwp_mod, hwp_ret.
    exists [Failed_to_reallocate file line], (live_map (mem h) es), raw. cbn. rewrite (L1 Hno). split; [done|]. split; [|done].
    split; [done|]. exists es. cbn. split; [|done]. by destruct Ht. }
  destruct Hrem as (es' & Ee & Hperm & He). assert (Hin : e ∈ es) by (rewrite Hperm; by left). destruct (L2 e Hin Ee) as [-> Hl].
  destruct (tracked_block _ _ _ _ _ _ _ Ht Hin) as (Hb & Hb0 & Hb1).
  assert (Ht' : tracked (e :: es') raw (heap h) (blocks h) (mem h) (current_size h)) by by eapply tracked_perm.
  assert (Hi : intact (mem h) e) by (pose proof (td_intact _ _ _ _ _ _ Ht) as Hi; rewrite Forall_forall in Hi; by apply Hi).
  destruct Hi as (H1 & H2 & H3 & H4).
  apply hwp_bind, (hwp_check file line _ (se_size e) (se_ptr e)); [done|done|done|lia|lia|lia|done|done|].
  apply hwp_bind, (hwp_lift _ r); [done|]. rewrite (size_t_id r) by lia. apply hwp_bind, hwp_bind, hwp_get, hwp_mod.
  rewrite (size_t_id (r + 2 * 4)) by lia. replace (r + 2 * 4) with (r + 8) by lia.
  apply hwp_bind, (hwp_replenty _ (se_size e + 8)); cbn; [done|lia|done|lia|]. intros np Hnp. pose proof Hnp as (Hnp0 & Hnp1 & _).
  apply hwp_bind, (hwp_store np (r + 8)); cbn; [by simplify_map_eq|lia..|]. rewrite (size_t_id (np + (4 + r))) by lia.
  apply hwp_bind, (hwp_store np (r + 8)); cbn; [by simplify_map_eq|lia..|]. rewrite (s32_id r) by lia.
  destruct (tracked_head _ _ _ _ _ _ _ Ht') as (R & _ & HR & _ & _ & _ & N1 & N2 & N3 & _).
  set (bs1 := <[np := r + 8]> (delete (se_ptr e) (blocks h))) in *.
  assert (Hnf : np <> se_file_ptr e) by (intros ->; destruct Hnp as (_ & _ & Hx & _); rewrite HR in Hx; by simplify_map_eq).
  assert (Hbs1 : Z.of_nat (base.size bs1) <= Z.of_nat (base.size (blocks h)) + 1).
  { pose proof (size_insert_le (delete (se_ptr e) (blocks h)) np (r + 8)) as Hx. fold bs1 in Hx. rewrite map_size_delete, Hb in Hx. lia. }
  assert (Hsm1 : map_Forall (fun _ m => m < 2 ^ 32) bs1) by (apply map_Forall_insert_2; [lia|by apply map_Forall_delete]).
  apply hwp_bind, (hwp_replenty _ (strlen (se_file e) + 1)); cbn; [unfold bs1; rewrite HR; by simplify_map_eq|lia|done|lia|]. intros f' Hf'.
  destruct (tracked_move e es' raw _ t1 _ (mem h) _ file line np r f' Ht' He Hr Hf Hnp Hf') as (Hnew & Hnp2 & Hlive & Hapart & Hag & Hmem).
  destruct (elements_add (MkElement (se_self e) f' file line np r) (s32 (s32 (s32 (sizeof_storageElement + (r + 8 - se_size e)) - strlen (se_file e)) + (strlen file + 1)))
    es' t1 He Hnp2) as (t2 & Et & He2).
  apply hwp_bind, (hwp_lift _ f'); [done|]. apply hwp_bind, (hwp_tree _ None t2); [exact Et|]. apply hwp_bind, hwp_mod, hwp_ret.
  specialize (Hnew t2 He2). set (me' := moved_mem e np r f' (strlen file + 1) (mem h)) in *.
  exists [], (<[np + 4 := Live file line (slice me' (np + 4) r)]> (delete (se_ptr e + 4) (live_map (mem h) es))), raw.
  rewrite <- (delete_live e es es' raw _ _ (mem h) _ Ht Hperm). split; [|split; [|cbn; by rewrite app_nil_r]].
  - cbn [awaited]. split; [done|]. rewrite Hl. split; [done|]. exists (np + 4), (slice me' (np + 4) r).
    rewrite slice_length by lia. do 4 (split; [done|]). split; [|done].
    apply slice_take; [|lia..]. intros i Hi. rewrite Hmem, eyes_other by lia.
    replace (np + 4 + i) with (np + (4 + i)) by lia. rewrite moved_in by lia. f_equal. lia.
  - split; [done|]. eexists. split; [exact Hnew|]. rewrite <- (live_agree es' (mem h) me' Hag). reflexivity.
Qed.

(** Every operation does what is awaited. *)
Lemma run_heap_simulated o m raw h : tracks m raw h -> ok_heap_op m raw o -> simulated m raw o h.
Proof.
  destruct o; [apply malloc_simulated|apply free_simulated|apply realloc_simulated|apply unlink_simulated|apply find_simulated|apply poke_simulated].
Qed.
End Ops.
