(* ===== verification/HeapRuns.v ===== *)
(** * HeapRuns: programs that use the tracked heap

    Any program that stays in its blocks, on an allocator that has memory; what happens when the
    allocator has none; an allocator. *)

From Stdlib Require Import ZArith Lia Permutation.
From stdpp Require Import base tactics numbers list gmap.
From S2P Require Import Prelude RbTree Tree TreeSpec TreeOrder TreeRefine TreeOps Heap HeapMem HeapSpec.

(** ** Programs *)

(** The heap as the loader leaves it, after [Heap_initialize]. *)
Definition heap_start (me : Z -> Z) : heap_t :=
  let t := TreeInitializeNoMalloc ptrCompare in
  MkHeap (MkTree (index t) (count t) (t_size t) false (allow_duplicates t) (nodes t)) 0 0 false ∅ me 0 [].

Lemma heap_start_initialized me t : Heap_initialize (set_heap t (heap_start me)) = Ret (0, heap_start me).
Proof. done. Qed.

Definition total_len (m : gmap Z live_block) : Z := foldr (fun x n => len x.2 + n) 0 (map_to_list m).

Section Programs.
Context `{Plenty}.

(** A program chooses its next call by the results so far, the last one first. *)
Fixpoint play (n : nat) (user : list (option Z) -> heap_op) (rs : list (option Z)) : HM (list (option Z)) :=
  match n with
  | O => hret rs
  | S n' => let^ r := run_heap (user rs) in play n' user (r :: rs)
  end.

(** The same on the map of blocks. *)
Inductive plays (user : list (option Z) -> heap_op) :
    list (option Z) -> list message -> gmap Z live_block -> list (Z * Z) -> Prop :=
| plays_nil : plays user [] [] ∅ []
| plays_cons rs msgs m raw r new m' raw' :
    plays user rs msgs m raw -> awaited m raw (user rs) r new m' raw' -> plays user (r :: rs) (msgs ++ new) m' raw'.

Lemma start_tracks me : tracks ∅ [] (heap_start me).
Proof.
  split; [done|]. exists []. split; [|done]. split; try done; try constructor; try done.
  exists [], [E]. split; [|done]. destruct (keeps_init ptrCompare _) as [[A1 A2 A3] B C D E F G I]. split; try done.
Qed.

Lemma play_spec user n : (forall rs msgs m raw, plays user rs msgs m raw -> ok_heap_op m raw (user rs)) ->
  forall rs msgs m raw h, plays user rs msgs m raw -> tracks m raw h -> log h = msgs ->
  hwp (play n user rs) h (fun rs' h' => length rs' = (n + length rs)%nat /\ exists msgs' m' raw',
    plays user rs' msgs' m' raw' /\ tracks m' raw' h' /\ log h' = msgs').
Proof.
  intros Hok. induction n as [|n IH]; intros rs msgs m raw h Hp Ht Hl.
  - apply hwp_ret. split; [done|]. by exists msgs, m, raw.
  - destruct (run_heap_simulated (user rs) m raw h Ht (Hok _ _ _ _ Hp)) as (r & h1 & E & new & m1 & raw1 & Ha & Ht1 & Hl1).
    apply hwp_bind. exists r, h1. split; [done|]. 
    destruct (IH (r :: rs) (msgs ++ new) m1 raw1 h1) as (rs' & h' & E' & Hn & Hrest); [by econstructor|done|by rewrite Hl1, Hl|].
    exists rs', h'. split; [done|]. split; [cbn in Hn; lia|done].
Qed.

Lemma total_perm l l' : l ≡ₚ l' -> foldr (fun (x : Z * live_block) n => len x.2 + n) 0 l = foldr (fun x n => len x.2 + n) 0 l'.
Proof. induction 1; cbn; lia. Qed.

Lemma total_live es raw t bs me cur : tracked es raw t bs me cur -> total_len (live_map me es) = sizes es.
Proof.
  intros Ht. unfold total_len, live_map. rewrite (total_perm _ (view me <$> es)).
  - pose proof (td_intact _ _ _ _ _ _ Ht) as Hi. clear Ht. induction Hi as [|e es Hi _ IH]; [done|]. cbn. rewrite IH. unfold len. cbn.
    destruct Hi as [Hi _]. by rewrite slice_length by lia.
  - apply map_to_list_to_map, live_distinct. by eapply ptrs_distinct.
Qed.

Lemma live_empty me es : live_map me es = ∅ -> es = [].
Proof. destruct es as [|e es]; [done|]. intros E. exfalso. by apply (insert_non_empty (live_map me es) (se_ptr e + 4) (view me e).2). Qed.

(** C36: A program that stays in its blocks gets from the tracked heap what a map of blocks promises, whatever it
    calls and in which order: the calls return, every block is new, apart from the others and keeps its bytes,
    only calls with unknown addresses are reported; at the end nothing is lost. *)
Theorem heap_tracks me user n :
  (forall rs msgs m raw, plays user rs msgs m raw -> ok_heap_op m raw (user rs)) ->
  exists rs h m raw, play n user [] (heap_start me) = Ret (rs, h) /\ length rs = n /\ plays user rs (log h) m raw /\
    (forall p x, m !! p = Some x -> lv_data x = slice (mem h) p (len x)) /\
    heap_mutex h = false /\ current_size h = s32 (total_len m) /\
    (m = ∅ -> blocks h = list_to_map raw /\ Heap_terminate h = Ret (tt, h)).
Proof.
  intros Hok. destruct (play_spec user n Hok [] [] ∅ [] (heap_start me)) as (rs & h & E & Hn & msgs & m & raw & Hp & (Hmu & es & Ht & ->) & Hl);
    [constructor|apply start_tracks|done|]. subst msgs. exists rs, h, (live_map (mem h) es), raw.
  split; [done|]. split; [rewrite Hn; cbn; lia|]. split; [done|]. split; [|split; [done|split]].
  - intros p x Hx. apply live_lookup in Hx as (e & He & <- & ->); [|by eapply ptrs_distinct]. unfold len. cbn.
    pose proof (td_intact _ _ _ _ _ _ Ht) as Hi. rewrite Forall_forall in Hi. destruct (Hi e He). by rewrite slice_length by lia.
  - by rewrite (total_live _ _ _ _ _ _ Ht), (td_size _ _ _ _ _ _ Ht).
  - intros Em. apply live_empty in Em as ->. split; [apply Ht|]. unfold Heap_terminate, hbind, hget. cbn [obind fst snd].
    by rewrite (td_size _ _ _ _ _ _ Ht).
Qed.
End Programs.

(** ** No memory *)

(** C37: When the allocator has no memory [mymalloc] returns with the mutex of the heap locked: the next call of
    any routine never comes back. *)
Theorem failed_malloc_blocks `{Allocator} file line n h :
  heap_mutex h = false -> 0 <= n < 2 ^ 31 - 16 -> alloc (calls h) (blocks h) sizeof_storageElement = None ->
  exists h', mymalloc file line n h = Ret (None, h') /\ log h' = log h ++ [No_memory] /\
    forall o, match o with Poke _ _ => True | _ => run_heap o h' = Blocked end.
Proof.
  intros Hm Hn Ha. destruct (roundup_spec n Hn) as (r & Er & _ & _).
  exists (add_log No_memory (tick (set_mutex true h))). split; [|split; [done|]].
  - unfold mymalloc, Thread_lock_mutex, c_malloc, hbind, hget, hlift, hmod, hret. cbn [obind fst snd].
    rewrite Hm, s32_id, Er by lia. cbn. by rewrite Ha.
  - by intros [].
Qed.

(** ** An allocator *)

(** Memory in slots of 8 GB: a block lies in the upper half of a slot in which no other block starts. *)
Definition slot_free (bs : gmap Z Z) (i : Z) : bool := negb (existsb (fun '(b, _) => b / 2 ^ 33 =? i) (map_to_list bs)).
Definition slot_alloc (k : nat) (bs : gmap Z Z) (n : Z) : option Z :=
  if (n <? 2 ^ 32) && forallb (fun '(_, m) => m <? 2 ^ 32) (map_to_list bs) then
    match List.find (slot_free bs) (seqZ 0 (Z.of_nat (base.size bs) + 1)) with
    | Some i => if i <? 2 ^ 30 then Some (i * 2 ^ 33 + 2 ^ 32) else None
    | None => None
    end
  else None.

Lemma slot_free_spec bs i b m : slot_free bs i = true -> bs !! b = Some m -> b / 2 ^ 33 <> i.
Proof.
  intros Hf Hb E. apply negb_true_iff in Hf. apply not_true_iff_false in Hf. apply Hf, existsb_exists. exists (b, m).
  split; [by apply list_elem_of_In, elem_of_map_to_list|]. by apply Z.eqb_eq.
Qed.

Lemma slot_alloc_fits k bs n a : slot_alloc k bs n = Some a -> fits bs a n.
Proof.
  unfold slot_alloc. intros Ha. destruct (Z.ltb_spec n (2 ^ 32)) as [Hn|]; [|done]. cbn [andb] in Ha.
  destruct (forallb _ _) eqn:Hall; [|done]. destruct (List.find _ _) as [i|] eqn:Ef; [|done].
  destruct (Z.ltb_spec i (2 ^ 30)) as [Hi|]; [|done]. injection Ha as <-. apply List.find_some in Ef as [Hin Hfree].
  apply list_elem_of_In, elem_of_seqZ in Hin. split; [lia|]. split; [lia|]. split.
  - destruct (bs !! (i * 2 ^ 33 + 2 ^ 32)) as [m|] eqn:Eb; [|done]. destruct (slot_free_spec _ _ _ _ Hfree Eb). 
    rewrite Z.add_comm, Z.div_add by lia. done.
  - intros b m Hb. assert (Hm : m < 2 ^ 32).
    { rewrite forallb_forall in Hall. specialize (Hall (b, m)). cbn in Hall. apply Z.ltb_lt, Hall. by apply list_elem_of_In, elem_of_map_to_list. }
    pose proof (slot_free_spec _ _ _ _ Hfree Hb) as Hne. pose proof (Z.div_mod b (2 ^ 33) ltac:(lia)). pose proof (Z.mod_pos_bound b (2 ^ 33) ltac:(lia)). lia.
Qed.

#[export] Instance slot_allocator : Allocator := { alloc := slot_alloc; alloc_fits := slot_alloc_fits }.

#[export] Instance slot_plenty : Plenty.
Proof.
  intros k bs n Hs Hall Hn. cbn. unfold slot_alloc. destruct (Z.ltb_spec n (2 ^ 32)); [|lia]. cbn [andb].
  replace (forallb _ _) with true.
  2: { symmetry. apply forallb_forall. intros [b m] Hb. apply Z.ltb_lt. by apply list_elem_of_In, elem_of_map_to_list, Hall in Hb. }
  destruct (List.find _ _) as [i|] eqn:Ef.
  - apply List.find_some in Ef as [Hin _]. apply list_elem_of_In, elem_of_seqZ in Hin. unfold max_blocks in Hs.
    destruct (Z.ltb_spec i (2 ^ 30)); [done|lia].
  - exfalso. set (l := seqZ 0 (Z.of_nat (base.size bs) + 1)) in *. set (used := (fun x : Z * Z => x.1 / 2 ^ 33) <$> map_to_list bs).
    assert (Hincl : incl l used).
    { intros i Hi. pose proof (List.find_none _ _ Ef i Hi) as Hf. apply negb_false_iff, existsb_exists in Hf as ([b m] & Hb & E).
      apply Z.eqb_eq in E as <-. apply list_elem_of_In, list_elem_of_fmap. exists (b, m). split; [done|by apply list_elem_of_In]. }
    apply NoDup_incl_length in Hincl; [|apply NoDup_ListNoDup, NoDup_seqZ]. unfold l, used in Hincl.
    rewrite length_seqZ, length_fmap, length_map_to_list in Hincl. lia.
Qed.

(** ** Examples *)

(** A program that allocates, writes, lets the block grow and frees it; the names a.c and b.c. *)
Definition example_user (rs : list (option Z)) : heap_op :=
  match rs with
  | [] => Malloc [97; 46; 99] 10 5
  | [Some p] => Poke p 7
  | [None; Some p] => Realloc [98; 46; 99] 20 p 40
  | [Some q; None; Some _] => Free [98; 46; 99] 30 q
  | _ => FindItem 0
  end.

(** The blocks of the program when it chooses. *)
Definition example_state (rs : list (option Z)) (m : gmap Z live_block) (raw : list (Z * Z)) : Prop :=
  match rs with
  | [] => m = ∅ /\ raw = []
  | [Some p] | [None; Some p] => raw = [] /\ 0 < p < 2 ^ 64 /\ exists x, m = {[p := x]} /\ len x = 16
  | [Some q; None; Some _] => 0 < q < 2 ^ 64
  | [_] | [_; _] | [_; _; _] => False
  | _ => True
  end.

Lemma example_states `{Plenty} rs msgs m raw : plays example_user rs msgs m raw -> example_state rs m raw.
Proof.
  induction 1 as [|rs msgs m raw r new m' raw' Hp IH Ha]; [done|].
  destruct rs as [|[p|] [|[q|] [|[a|] [|]]]]; try done; try (by destruct r as [?|]); cbn in IH, Ha; try done.
  - destruct IH as [-> ->]. destruct Ha as (_ & -> & p & data & -> & _ & Hr & (H1 & H2 & _) & ->). injection Hr as Hr. cbn. split; [done|]. split; [lia|].
    eexists. split; [done|]. unfold len. cbn. by rewrite <- Hr.
  - destruct IH as (-> & Hb & x & -> & Hx). destruct Ha as (_ & -> & -> & q & y & Hq & _ & ->). apply lookup_singleton_Some in Hq as [-> ->].
    cbn. split; [done|]. split; [done|]. eexists. rewrite insert_singleton_eq. split; [done|]. unfold len in *. cbn. by rewrite length_insert.
  - destruct IH as (-> & Hb & x & -> & Hx). rewrite lookup_singleton_eq in Ha. destruct Ha as (_ & _ & a & data & -> & _ & _ & (H1 & H2 & _) & _). cbn. lia.
Qed.

Lemma example_user_ok `{Plenty} rs msgs m raw : plays example_user rs msgs m raw -> ok_heap_op m raw (example_user rs).
Proof.
  intros Hp%example_states. assert (Hl : strlen [97; 46; 99] < 2 ^ 30 /\ strlen [98; 46; 99] < 2 ^ 30) by by vm_compute.
  destruct rs as [|[p|] [|[q|] [|[a|] [|]]]]; cbn in Hp |- *; try done; try lia.
  - destruct Hp as [-> ->]. rewrite map_size_empty. unfold max_blocks. cbn. lia.
  - destruct Hp as (-> & Hb & x & -> & Hx). exists p, x. rewrite lookup_singleton_eq. split; [done|lia].
  - destruct Hp as (-> & Hb & x & -> & Hx). rewrite map_size_singleton. unfold max_blocks. cbn. lia.
Qed.

Lemma heap_tracks_witness : exists rs h m raw,
  play 4 example_user [] (heap_start (fun _ => 0)) = Ret (rs, h) /\ length rs = 4%nat /\ plays example_user rs (log h) m raw /\
    (forall p x, m !! p = Some x -> lv_data x = slice (mem h) p (len x)) /\
    heap_mutex h = false /\ current_size h = s32 (total_len m) /\
    (m = ∅ -> blocks h = list_to_map raw /\ Heap_terminate h = Ret (tt, h)).
Proof. apply (heap_tracks (fun _ => 0) example_user 4), example_user_ok. Defined.

(** An allocator without memory. *)
Lemma no_memory_fits (k : nat) (bs : gmap Z Z) (n a : Z) : None = Some a -> fits bs a n.
Proof. done. Qed.
Definition no_memory : Allocator := {| alloc := fun _ _ _ => None; alloc_fits := no_memory_fits |}.

Lemma failed_malloc_blocks_witness : exists h', mymalloc (H:=no_memory) [97; 46; 99] 10 5 (heap_start (fun _ => 0)) = Ret (None, h') /\
  log h' = [No_memory] /\ forall o, match o with Poke _ _ => True | _ => run_heap (H:=no_memory) o h' = Blocked end.
Proof. apply (failed_malloc_blocks (H:=no_memory) [97; 46; 99] 10 5 (heap_start (fun _ => 0))); [reflexivity|lia|reflexivity]. Defined.

(** [HeapDump] writes as many bytes of a block as its record in the tree counts, which are more than it has. *)
Theorem dump_overreads :
  exists p h, mymalloc [97; 46; 99] 10 5 (heap_start (fun _ => 0)) = Ret (Some p, h) /\ HeapDump (fun _ => true) h = Fault.
Proof.
  assert (H : match mymalloc [97; 46; 99] 10 5 (heap_start (fun _ => 0)) with
    | Ret (Some _, h) => match HeapDump (fun _ => true) h with Fault => true | _ => false end | _ => false end = true) by (vm_compute; reflexivity).
  destruct (mymalloc _ _ _ _) as [[[p|] h]| | |]; try done. exists p, h. split; [done|]. by destruct (HeapDump (fun _ => true) h).
Qed.
